(* ===== verification/_CoqProject ===== *)
-Q . S2P
Prelude.v
PyString.v
Sha256.v
PyDecimal.v
DecimalFacts.v
DecimalContext.v
Identities.v
PostFillRisk.v
Ticket.v
CrossMarginStress.v
Commands.v
VenueTruth.v
CapacitySizing.v
Capacity.v
StrategyRegistry.v
Universe.v
ExitPolicy.v
Admission.v
Signal.v
DecimalText.v
Product.v
Market.v
Detector.v
Detectors.v
Episode.v
Selection.v
OrbSelection.v
GenericSpec.v
Timing.v
Control.v
Recovery.v
TextFacts.v
ProduceSignal.v
Dispatch.v
Arbitration.v
BuildClaim.v
Shadow.v
VacuumLateFill.v
Events.v
Aggregate.v
Reducer.v
Lifecycle.v
LifecycleInvariants.v
LifecycleSpec.v
Samples.v
LifecycleProperties.v
DecisionProperties.v
CapacityProperties.v
AdmissionProperties.v
ClaimProperties.v
DispatchProperties.v
Catalog.v
DetectorFacts.v
ShadowProperties.v
SelectionProperties.v
ProduceProperties.v
EpisodeProperties.v
ControlProperties.v
TimingProperties.v
ExitProperties.v
Database.v
OwnerState.v
UnitOfWork.v
Dispatcher.v
UnknownOutcomes.v
Reconcile.v
IssueTicket.v
Drain.v
Health.v
System.v
DatabaseFacts.v
StoreFacts.v
SystemFacts.v
QueueFacts.v
RunFacts.v
SystemSamples.v
SystemProperties.v
FailureProperties.v
