(* ===== verification/Prelude.v ===== *)
(** * BRC trading kernel: a verification development

    A model of the trading kernel under [src/src/trading_kernel/] and the
    theorems that make it correct.  One signal of a strategy becomes a Capacity
    Claim, the Claim a Trade Ticket, and the Ticket is driven by venue facts
    through ENTRY, protection, take-profit, exit, cleanup and settlement.

    ** The program and its model

    The path of a trade, part by part; each file of this library opens with the
    Python file it models.

    - Market to signal.  [Product.v] ([domain/product.py]) says what may trade
      and gates an ENTRY on a product session; [Market.v] ([domain/market.py])
      holds candles, the comparative ranking and the snapshot a detector reads;
      [StrategyRegistry.v] ([domain/strategy_registry.py]) the ten registered
      contracts; [Detector.v] and [Detectors.v] ([domain/detector.py],
      [domain/detectors/]) the seven evaluations and their routing, one Module
      per detector; [Episode.v] ([domain/exposure_episode.py]) the reducer that
      turns closes into Exposure Episodes and its comparison barrier;
      [Signal.v] ([domain/signal.py]) facts and signals; [ProduceSignal.v]
      ([application/produce_strategy_signal.py]) ties them together.
    - Signal to Ticket.  [Arbitration.v] ([domain/arbitration.py],
      [domain/admission_decision.py]) ranks candidates and freezes the decision;
      [Admission.v] ([domain/entry_admission_snapshot.py],
      [domain/account_entry_health.py], [domain/instrument_entry_health.py],
      [domain/incident_blocking.py]) decides whether an ENTRY may be added;
      [CapacitySizing.v] ([domain/capacity_sizing.py]) sizes it;
      [CrossMarginStress.v] ([domain/cross_margin_stress.py]) proves the margin
      survives the stop; [Capacity.v] ([domain/capacity.py]) is the Claim, its
      digest and the Ticket it issues; [BuildClaim.v]
      ([application/build_capacity_claim.py]) the whole decision;
      [ExitPolicy.v] ([domain/exit_policy.py]) profiles, bindings, exit prices
      and the runner and pre-TP1 evaluations; [Ticket.v] ([domain/ticket.py])
      and [Identities.v] ([domain/identities.py], [domain/exposure_family.py])
      the frozen Ticket and its names.
    - The Ticket's life.  [Events.v] ([domain/events.py]) the facts,
      [Aggregate.v] ([domain/aggregate.py], [domain/effects.py]) the projection
      and the effects, [Reducer.v] ([domain/reducer.py]) one [on_...] definition
      per event and [reduce_event] that guards and dispatches them;
      [PostFillRisk.v] ([domain/post_fill_risk.py]) classifies a fill;
      [Commands.v] ([domain/commands.py]) the commands the effects become and
      their retry rule; [VenueTruth.v] ([domain/venue_truth.py],
      [domain/position.py]) the recovery of unknown outcomes;
      [VacuumLateFill.v] ([domain/vacuum_late_fill.py]) the attribution of a
      fill seen after its ENTRY was abandoned.

    - Selection and its clocks.  [Universe.v] ([domain/instrument_identity.py],
      [domain/strategy_universe.py]) names instruments and versions the
      candidates of an Event; [Selection.v] ([domain/instrument_selection.py])
      ranks the daily opening range in the 38-digit context of
      [DecimalContext.v], [OrbSelection.v] ([domain/orb_session_selection.py])
      does so hourly, [GenericSpec.v] ([domain/generic_selection_spec.py],
      [domain/comparison_universe.py], [domain/generic_selection_jobs.py]) has
      the frozen families; [Timing.v] ([domain/dynamic_selection_timing.py]) the
      age of a membership and the close proofs, [Recovery.v]
      ([domain/authority_recovery_rebase.py]) the barrier after a recovery,
      [Control.v] ([domain/strategy_entry_vacuum.py], [domain/owner_control.py],
      [domain/owner_policy.py]) the fences of strategy and owner.
    - Before and after the ENTRY.  [Dispatch.v]
      ([application/revalidate_entry_dispatch.py],
      [application/strategy_authority.py]) looks once more at the facts;
      [Shadow.v] ([domain/shadow_outcome.py],
      [application/project_shadow_outcome.py]) says what became of a signal that
      was not traded.
    - The durable core.  [Database.v] ([infrastructure/pg_repositories.py],
      [infrastructure/pg_signal_repository.py], [infrastructure/pg_models.py])
      holds the tables as finite maps of rows and every write of the
      repositories as a transaction over them; [OwnerState.v]
      ([application/project_owner_state.py],
      [application/reconciliation_health.py]) the monitors; [UnitOfWork.v]
      ([infrastructure/pg_unit_of_work.py]) [commit_reduction], which stores a
      reduction with what its effects ask for, and the commit or rollback of a
      transaction.
    - The services over it.  [Dispatcher.v]
      ([application/dispatch_exchange_command.py]) claims commands, hands them to
      the venue and records the outcome; [UnknownOutcomes.v]
      ([application/recover_unknown_command.py],
      [application/reconcile_leverage_command.py]) settles unknown outcomes;
      [Reconcile.v] ([application/reconcile_ticket.py],
      [application/controlled_exit.py], [application/settle_ticket.py],
      [application/maintain_ticket_lifecycle.py]) drives a Ticket by positions,
      stress, market facts and the owner; [IssueTicket.v]
      ([application/issue_ticket.py]) turns a Claim into a Ticket through the
      entry lane; [Drain.v] ([application/drain_strategy_entry_vacuum.py],
      [application/recover_vacuum_late_fill.py],
      [infrastructure/pg_instrument_selection_repository.py]) drains a fenced
      strategy; [Health.v] ([application/lifecycle_facts_health.py],
      [application/runtime_fence.py],
      [application/reconciliation_scheduler.py]) makes failures visible.
    - The kernel as a whole.  [System.v] lists the transactions of the services
      and composes them: [perform] is one transaction over the current tables,
      with its unlocked reads taken from any earlier tables, and [run] is the
      relation of the histories this allows, with the commands handed to the
      venue.

    ** Layers

    [Prelude.v] has the exceptions, the [result] monad, the two styles of
    validators, sorting, record update and the tactics the files share.
    [PyString.v], [Sha256.v] and [PyDecimal.v] give the parts of Python the
    code computes with: strings and JSON text, SHA-256 and digests, decimals;
    [DecimalFacts.v] relates decimals to rationals and [DecimalText.v] proves
    that the text of a decimal reads back.  Files named [...Properties.v] hold
    the theorems of a part; [Lifecycle.v], [LifecycleInvariants.v],
    [LifecycleSpec.v] and [DetectorFacts.v] hold the lemmas they share;
    [Samples.v] and [Catalog.v] the concrete episode and the evaluated catalog
    the witnesses use.

    ** What the theorems show

    - [LifecycleProperties.v]: over any history the open position is protected
      or being closed, never exceeds the Ticket, capital and the entry lane are
      released once, the ENTRY is ordered once, the runner stop respects its
      floor and is monotone; the reducer refines an abstract machine of phases;
      every episode that is not in one of two dead ends can be closed within
      eleven events; and what goes wrong in the dead ends.
    - [DecisionProperties.v], [ExitProperties.v]: venue
      truth is recovered soundly and totally, sizing always decides and stays
      within its budgets, exit evaluations answer, moves are accepted by the
      reducer, the break-even floor covers its costs.
    - [CapacityProperties.v], [AdmissionProperties.v], [ClaimProperties.v]: a
      Claim issues its Ticket, freezing is conservative and idempotent,
      admission and arbitration are exactly their specification, and a decision
      that claims capacity leads to a Ticket on which the reducer orders the
      ENTRY at once.
    - [EpisodeProperties.v], [DetectorFacts.v], [ProduceProperties.v]: the
      Episode reducer finds exactly the rising edges of a history and the
      barrier lets through only what was armed under the binding in force;
      detectors answer, and a triggered one becomes a valid signal with a
      protective stop.
    - [Catalog.v]: the registered catalog passes its own validators
      and reproduces the certified hashes.
    - [DispatchProperties.v], [SelectionProperties.v], [EpisodeProperties.v],
      [ControlProperties.v], [TimingProperties.v], [ShadowProperties.v]: an ENTRY that is allowed to leave is safe on the
      facts it was checked against; the selection chooses exactly the best of
      its ranking; the gate after a recovery and the fence of a strategy open
      exactly when their histories allow; a close is granted once; and the
      shadow path of a signal is decided by its first event.
    - [SystemProperties.v], over every run of the whole kernel: stored
      aggregates are the fold of their stored events and the log only grows; no
      command is sent twice, a Ticket enters at most once, the entry lane is held
      by at most one Ticket and never leaked; a stored position is protected or
      in a phase that protects or closes it; and the reconciliation process
      serves the most urgent work that is due.
    - [FailureProperties.v], what the composition gets wrong: a command past its
      deadline is dead, and when it is the initial stop the position stays
      unprotected; a stale claim the aggregate moved past stops the dispatcher;
      a position found flat before its stress assessment cannot be recorded; a
      lifted runtime fence is never raised again.

    The proofs over runs rest on [DatabaseFacts.v] (the equations of updates and
    inserts, and the tactic that runs a transaction), [StoreFacts.v] (faithful
    tables and what a commit does to them, with one lemma schema for every
    service), [SystemFacts.v], [QueueFacts.v] (how the rows of commands advance),
    and [RunFacts.v] (the invariant of runs, and what leaves a Ticket alone);
    [SystemSamples.v] plays the concrete runs of the witnesses.  [TextFacts.v]
    serves the selection.

    ** Conventions

    - Integers of the code are [Z] (Python integers have no width), [Decimal]
      is a coefficient and an exponent with the context of the code: precision
      28, half-even.  Exponent limits, signed zero, infinities and NaN are left
      out: the validators of the code refuse non-finite values, and amounts
      are far from the limits.
    - Strings are Latin-1; JSON values have no floats.
    - A pydantic model is a Record and a [validate_...] function that returns
      the constructed value or the exception; field validators run first and
      fail together, [mode="after"] validators stop at their first failure.
      A [Literal] field with a single value is omitted.  [constructed] values
      are those a validator returned.
    - Shared mutable state does not occur in the domain: models are frozen, and
      [model_copy] is a functional update.  The state the services share is the
      [Database]; nothing else is aliased.
    - Transactions commit one after the other: a row read [FOR UPDATE] is
      current, and a read without a lock ([aggregates.get]) may see any tables
      committed before, which covers every interleaving of transactions at READ
      COMMITTED in which such a read precedes the commit.  [SKIP LOCKED] leaves
      out any set of rows, given as an argument.  A [NUMERIC] column keeps a
      decimal of its scale, JSON columns are read back as written.
    - The venue, the preflight facts and the rows of other repositories are
      arguments of the transactions that read them, so a theorem over runs holds
      for whatever they return.  Claims are as late as [not_before] says where a
      theorem speaks of deadlines.  [stored_exposure_is_protected] asks that the
      logged events are [constructed], which excludes quantities of more than 28
      digits.
    - Bounds: eleven events suffice to close an episode, each a phase of the
      abstract machine; the fuel of the digit and division loops is the number
      of digits they can produce; stored decimals have 18 places and 60 digits.

    ** Not modelled

    - The venue adapter, [interfaces/] and the scripts: network, HTTP and process
      loops that call the services in turn.
    - The repositories of selection authorities, Universes, the strategy
      registry, owner controls and the read models of the owner console, and the
      services over them ([coordinate_selection_materialization.py],
      [observe_strategy_scope.py], [owner_control.py] and others): their rows
      reach the modelled services as facts.  The choice of what follows a
      completed drain belongs to them.
    - [domain/selection_authority.py] and the materialization and review
      modules of the domain, which the modelled services do not read.
    - Of [pg_repositories.py]: historical Tickets, admission decisions, shadow
      outcomes and owner controls.  Of the tables: foreign keys to tables that
      are not here, and CHECK constraints, which repeat the validators.
    - The free-form [venue_payload] of a command result, the details of an
      incident, and fields the code carries without reading.
*)

From Stdlib Require Export ZArith Lia Bool.
From stdpp Require Export base option list strings sorting.

#[global] Open Scope list_scope.
#[global] Open Scope Z_scope.

(** ** Python exceptions and fallible computations

    The classes of exception the modelled code raises, with their messages.
    [ValidationError] carries the messages of every failed pydantic validator. *)
Inductive exn :=
  | ValidationError (msgs : list string)
  | ValueError (msg : string)
  | TypeError (msg : string)
  | KeyError (msg : string)
  | IndexError (msg : string)
  | AssertionError (msg : string)
  | InvalidLifecycleTransition (msg : string)
  | CommandGenerationError (msg : string)
  | SelectionSourceIntegrityError (msg : string)
  | DynamicSelectionNumericError (msg : string)
  | ReviewEconomicsUnavailable (msg : string)
  | ShadowOutcomeUnavailable (msg : string)
  | RuntimeError (msg : string)
  | AggregateVersionConflict (msg : string)
  | UnsupportedKernelEffect (msg : string)
  | IntegrityError
  | DecimalDivisionByZero
  | DecimalInvalidOperation.

#[export] Instance exn_eq_dec : EqDecision exn.
Proof. solve_decision. Defined.

Inductive result (A : Type) :=
  | Ok (a : A)
  | Raise (e : exn).
Arguments Ok {A} a.
Arguments Raise {A} e.

#[export] Instance result_eq_dec `{EqDecision A} : EqDecision (result A).
Proof. solve_decision. Defined.

#[export] Instance result_ret : MRet result := @Ok.
#[export] Instance result_bind : MBind result := λ A B f m,
  match m with Ok a => f a | Raise e => Raise e end.
#[export] Instance result_fmap : FMap result := λ A B f m,
  match m with Ok a => Ok (f a) | Raise e => Raise e end.

(** [if cond: raise e] *)
Definition raise_if (cond : bool) (e : exn) : result unit :=
  if cond then Raise e else Ok tt.

Definition is_ok {A} (m : result A) : bool :=
  match m with Ok _ => true | Raise _ => false end.

(** Loops whose body may raise. *)
Fixpoint fold_result {A B} (f : A → B → result A) (acc : A) (l : list B) : result A :=
  match l with
  | [] => mret acc
  | x :: l => acc ← f acc x; fold_result f acc l
  end.

Fixpoint map_result {A B} (f : A → result B) (l : list A) : result (list B) :=
  match l with
  | [] => mret []
  | x :: l => y ← f x; ys ← map_result f l; mret (y :: ys)
  end.

(** Pydantic runs every field validator before it reports, and the model
    validators only when the fields passed: a validator is a list of
    (failed?, message) checks. *)
Definition failed_checks (checks : list (bool * string)) : list string :=
  omap (λ c : bool * string, if c.1 then Some c.2 else None) checks.

Definition validate_fields (checks : list (bool * string)) : result unit :=
  match failed_checks checks with
  | [] => Ok tt
  | msgs => Raise (ValidationError msgs)
  end.

(** A [mode="after"] model validator stops at its first [raise]. *)
Fixpoint validate_model (checks : list (bool * string)) : result unit :=
  match checks with
  | [] => Ok tt
  | (true, msg) :: _ => Raise (ValidationError [msg])
  | (false, _) :: checks => validate_model checks
  end.

(** ** Inversion of successful computations *)

Lemma bind_Ok {A B} (m : result A) (f : A → result B) b :
  (m ≫= f) = Ok b ↔ ∃ a, m = Ok a ∧ f a = Ok b.
Proof. destruct m as [a|e]; cbn; naive_solver. Qed.

Lemma bind_pass {A} (m : result ()) (f : () → result A) : m = Ok tt → (m ≫= f) = f tt.
Proof. by intros ->. Qed.

Lemma Ok_inj {A} (x y : A) : Ok x = Ok y → x = y.
Proof. by intros [= ->]. Qed.

Lemma raise_if_Ok c e u : raise_if c e = Ok u ↔ c = false.
Proof. destruct c, u; cbn; naive_solver. Qed.

Lemma raise_if_pass c e : c = false → raise_if c e = Ok tt.
Proof. by rewrite raise_if_Ok. Qed.

Lemma raise_if_Raise c e e' : raise_if c e = Raise e' ↔ c = true ∧ e' = e.
Proof. destruct c; cbn; naive_solver. Qed.

Lemma failed_checks_nil checks :
  failed_checks checks = [] ↔ Forall (λ c, c.1 = false) checks.
Proof.
  unfold failed_checks. induction checks as [|[[] msg] checks IH]; cbn.
  - by split.
  - split; [done|]. intros H. by inversion H.
  - rewrite Forall_cons, IH. naive_solver.
Qed.

Lemma validate_fields_Ok checks u :
  validate_fields checks = Ok u ↔ Forall (λ c, c.1 = false) checks.
Proof.
  rewrite <- failed_checks_nil. unfold validate_fields. destruct u.
  by destruct (failed_checks checks).
Qed.

Lemma validate_model_Ok checks u :
  validate_model checks = Ok u ↔ Forall (λ c, c.1 = false) checks.
Proof.
  destruct u. induction checks as [|[[] msg] checks IH]; cbn.
  - by split.
  - split; [done|]. intros H. by inversion H.
  - rewrite IH, Forall_cons. naive_solver.
Qed.

Lemma orb_false x y : x || y = false ↔ x = false ∧ y = false.
Proof. destruct x, y; naive_solver. Qed.
Lemma negb_false x : negb x = false ↔ x = true.
Proof. destruct x; naive_solver. Qed.
Lemma negb_true x : negb x = true ↔ x = false.
Proof. destruct x; naive_solver. Qed.
Lemma andb_true x y : x && y = true ↔ x = true ∧ y = true.
Proof. destruct x, y; naive_solver. Qed.
Lemma bool_decide_false (P : Prop) `{Decision P} : bool_decide P = false ↔ ¬ P.
Proof. split; [apply bool_decide_eq_false_1 | apply bool_decide_eq_false_2]. Qed.
Lemma bool_decide_true (P : Prop) `{Decision P} : bool_decide P = true ↔ P.
Proof. split; [apply bool_decide_eq_true_1 | apply bool_decide_eq_true_2]. Qed.

Create Rewrite HintDb checks.
#[export] Hint Rewrite @bind_Ok @raise_if_Ok @validate_fields_Ok
  @validate_model_Ok @Forall_cons @Forall_nil orb_false negb_false negb_true
  andb_true : checks.
#[export] Hint Rewrite @bool_decide_false @bool_decide_true
  using (typeclasses eauto) : checks.

(** [run_ok H] turns [H : computation = Ok r] into the facts its guards
    established, one hypothesis each. *)
Ltac run_ok_step H :=
  lazymatch type of H with
  | mbind _ _ = Ok _ =>
      let a := fresh "a" in let E := fresh "E" in
      apply bind_Ok in H as (a & E & H); run_ok_step E
  | raise_if _ _ = Ok _ => apply raise_if_Ok in H
  | mret _ = Ok _ => injection H as H
  | Ok _ = Ok _ => injection H as H
  | Raise _ = Ok _ => discriminate H
  | _ => idtac
  end.
Ltac run_ok H := cbn beta iota in H; repeat (progress run_ok_step H); subst.

(** Every check of a literal list of checks passes. *)
Ltac each_check tac := repeat (apply Forall_cons; split; [cbn [fst]; tac|]); apply List.Forall_nil.

(** ** [sorted(l, key=...)]

    A stable insertion sort along a boolean order. *)
Section sorting.
Context {A : Type} (le : A → A → bool).

Fixpoint insert_by (x : A) (l : list A) : list A :=
  match l with
  | [] => [x]
  | y :: l' => if le x y then x :: l else y :: insert_by x l'
  end.

Definition sort_by (l : list A) : list A := foldr insert_by [] l.

Lemma insert_by_perm x l : insert_by x l ≡ₚ x :: l.
Proof.
  induction l as [|y l IH]; [done|]. cbn. destruct (le x y); [done|]. rewrite IH. constructor.
Qed.

Lemma sort_by_perm l : sort_by l ≡ₚ l.
Proof. induction l as [|x l IH]; [done|]. cbn. by rewrite insert_by_perm, IH. Qed.

Lemma insert_by_sorted x l :
  (∀ a b, le a b = true ∨ le b a = true) → (∀ a b c, le a b = true → le b c = true → le a c = true) →
  StronglySorted le l → StronglySorted le (insert_by x l).
Proof.
  intros Htot Htrans. induction 1 as [|y l Hl IH Hy]; cbn; [by repeat constructor|].
  destruct (le x y) eqn:E; constructor; [by constructor| |done|].
  - constructor; [by rewrite E|]. eapply Forall_impl; [exact Hy|]. intros z Hz.
    apply Is_true_true in Hz. apply Is_true_true. by eapply Htrans.
  - rewrite insert_by_perm. constructor; [|done]. destruct (Htot x y) as [|H]; [congruence|by rewrite H].
Qed.

Lemma sort_by_sorted l :
  (∀ a b, le a b = true ∨ le b a = true) → (∀ a b c, le a b = true → le b c = true → le a c = true) →
  StronglySorted le (sort_by l).
Proof.
  intros Htot Htrans. induction l as [|x l IH]; cbn; [constructor|by apply insert_by_sorted].
Qed.

(** Where the order separates the members, the input's order does not matter. *)
Lemma sort_by_unique l l' :
  (∀ a b, le a b = true ∨ le b a = true) → (∀ a b c, le a b = true → le b c = true → le a c = true) →
  (∀ a b, a ∈ l → b ∈ l → le a b = true → le b a = true → a = b) →
  l ≡ₚ l' → sort_by l = sort_by l'.
Proof.
  intros Htot Htrans Hanti Hp. apply (StronglySorted_unique_strong le); [|by apply sort_by_sorted..|].
  - intros a b Ha Hb Hab Hba. rewrite sort_by_perm in Ha, Hb. rewrite <- Hp in Hb.
    apply Hanti; [done..| |]; by apply Is_true_true.
  - by rewrite !sort_by_perm.
Qed.

End sorting.

(** ** Functional record update

    [record_setter eta proj] builds [λ v r, r with proj := v] from the
    eta-expansion [eta] of a record. *)
Ltac record_setter eta proj :=
  let v := fresh "v" in let r := fresh "r" in
  intros v r;
  let body := eval cbv beta delta [eta] in (eta r) in
  let body := eval pattern (proj r) in body in
  lazymatch body with ?F _ => let t := eval cbv beta in (F v) in exact t end.

(** ** Options of decidable values *)

Definition is_none {A} (o : option A) : bool :=
  match o with None => true | Some _ => false end.

Lemma is_none_true {A} (o : option A) : is_none o = true ↔ o = None.
Proof. by destruct o. Qed.
Lemma is_none_false {A} (o : option A) : is_none o = false ↔ ∃ a, o = Some a.
Proof. destruct o; naive_solver. Qed.
#[export] Hint Rewrite @is_none_true @is_none_false : checks.
