(* ===== verification/PyString.v ===== *)
(** * Python strings

    A Python [str] is a Rocq [string] whose characters are the code points
    0-255 (Latin-1): [strip], [startswith], [sorted], the UTF-8 encoder and
    the [json] encoder are modelled on that range. *)

From stdpp Require Import pretty.
From Stdlib Require Export Ascii.
From S2P Require Import Prelude.

Abbreviation str := string.

(** [str.isspace] on one Latin-1 code point. *)
Definition is_space (c : ascii) : bool :=
  let n := Z.of_N (N_of_ascii c) in
  ((9 <=? n) && (n <=? 13)) || ((28 <=? n) && (n <=? 32)) || (n =? 133) || (n =? 160).

Fixpoint lstrip (s : str) : str :=
  match s with
  | EmptyString => EmptyString
  | String c s' => if is_space c then lstrip s' else s
  end.

Fixpoint rstrip (s : str) : str :=
  match s with
  | EmptyString => EmptyString
  | String c s' =>
      match rstrip s' with
      | EmptyString => if is_space c then EmptyString else String c EmptyString
      | r => String c r
      end
  end.

Definition strip (s : str) : str := rstrip (lstrip s).

(** [not str(value or <empty>).strip()] *)
Definition blank (s : str) : bool := bool_decide (strip s = EmptyString).

Definition opt_blank (o : option str) : bool :=
  match o with None => true | Some s => blank s end.

Definition startswith (s prefix : str) : bool := String.prefix prefix s.

Definition len (s : str) : Z := Z.of_nat (String.length s).

(** [s[:n]] *)
Definition take_prefix (n : nat) (s : str) : str := String.substring 0 n s.

(** [sep.join(parts)] *)
Definition join (sep : str) (parts : list str) : str := String.concat sep parts.

(** [sorted] on strings. *)
Definition sorted (l : list str) : list str := sort_by String.leb l.

(** [str(int)] *)
Definition string_of_Z (z : Z) : str := pretty z.

(** ** Digests: [re.compile(r"^sha256:[0-9a-f]{64}$").fullmatch] *)

Definition is_hex_digit (c : ascii) : bool :=
  let n := Z.of_N (N_of_ascii c) in
  ((48 <=? n) && (n <=? 57)) || ((97 <=? n) && (n <=? 102)).

Definition sha256_prefix : str := "sha256:".

Definition is_sha256_digest (s : str) : bool :=
  startswith s sha256_prefix
  && forallb is_hex_digit (String.list_ascii_of_string (String.substring 7 (String.length s) s))
  && (len s =? 71).

(** [s.removeprefix("sha256:")] *)
Definition remove_sha256_prefix (s : str) : str :=
  if startswith s sha256_prefix
  then String.substring 7 (String.length s - 7) s else s.

(** ** UTF-8 *)

Definition utf8_char (c : ascii) : list Z :=
  let n := Z.of_N (N_of_ascii c) in
  if n <? 128 then [n]
  else [Z.lor 192 (Z.shiftr n 6); Z.lor 128 (Z.land n 63)].

Definition encode_utf8 (s : str) : list Z :=
  mjoin (utf8_char <$> String.list_ascii_of_string s).

(** ** [json.dumps(..., sort_keys=True, separators=(",", ":"))] *)

Inductive JsonValue :=
  | JNull
  | JBool (b : bool)
  | JInt (z : Z)
  | JStr (s : str)
  | JList (l : list JsonValue)
  | JObj (fields : list (str * JsonValue)).

Definition chr (n : N) : str := String (ascii_of_N n) EmptyString.

Definition hex_digit (n : Z) : ascii :=
  ascii_of_N (Z.to_N (if n <? 10 then 48 + n else 87 + n)).

Definition json_escape (ensure_ascii : bool) (c : ascii) : str :=
  let n := N_of_ascii c in
  let u := chr 92 +:+ "u00"
             +:+ String (hex_digit (Z.of_N n / 16)) (String (hex_digit (Z.of_N n mod 16)) EmptyString) in
  if (n =? 34)%N then chr 92 +:+ chr 34
  else if (n =? 92)%N then chr 92 +:+ chr 92
  else if (n =? 10)%N then chr 92 +:+ "n"
  else if (n =? 13)%N then chr 92 +:+ "r"
  else if (n =? 9)%N then chr 92 +:+ "t"
  else if (n =? 12)%N then chr 92 +:+ "f"
  else if (n =? 8)%N then chr 92 +:+ "b"
  else if (n <? 32)%N then u
  else if ensure_ascii && (126 <? n)%N then u
  else String c EmptyString.

Definition json_string (ensure_ascii : bool) (s : str) : str :=
  chr 34 +:+ String.concat EmptyString (json_escape ensure_ascii <$> String.list_ascii_of_string s)
         +:+ chr 34.

(** [sorted(l, key=first component)] *)
Definition sort_fields {A} (l : list (str * A)) : list (str * A) :=
  sort_by (λ f g, String.leb f.1 g.1) l.

Fixpoint json_dumps (ensure_ascii : bool) (v : JsonValue) {struct v} : str :=
  match v with
  | JNull => "null"
  | JBool true => "true"
  | JBool false => "false"
  | JInt z => string_of_Z z
  | JStr s => json_string ensure_ascii s
  | JList l => "[" +:+ join "," (json_dumps ensure_ascii <$> l) +:+ "]"
  | JObj fields =>
      "{" +:+ join ","
        ((λ f : str * str, json_string ensure_ascii f.1 +:+ ":" +:+ f.2)
           <$> sort_fields ((λ f : str * JsonValue, (f.1, json_dumps ensure_ascii f.2)) <$> fields))
        +:+ "}"
  end.

(** ** Stripping is idempotent *)

Lemma rstrip_cons c s :
  rstrip (String c s) =
    match rstrip s with
    | EmptyString => if is_space c then EmptyString else String c EmptyString
    | r => String c r
    end.
Proof. done. Qed.

Lemma rstrip_idemp s : rstrip (rstrip s) = rstrip s.
Proof.
  induction s as [|c s IH]; [done|]. rewrite rstrip_cons.
  destruct (rstrip s) as [|c' r] eqn:E.
  - destruct (is_space c) eqn:Ec; [done|]. by rewrite rstrip_cons; cbn; rewrite Ec.
  - by rewrite rstrip_cons, IH.
Qed.

Definition head_not_space (s : str) : Prop :=
  match s with EmptyString => True | String c _ => is_space c = false end.

Lemma lstrip_head s : head_not_space (lstrip s).
Proof. induction s as [|c s IH]; cbn; [done|]. by destruct (is_space c) eqn:E. Qed.

Lemma lstrip_noop s : head_not_space s → lstrip s = s.
Proof. destruct s as [|c s]; cbn; [done|]. by intros ->. Qed.

Lemma rstrip_head s : head_not_space s → head_not_space (rstrip s).
Proof.
  destruct s as [|c s]; [done|]. cbn. intros Hc.
  destruct (rstrip s); cbn; [by rewrite Hc|done].
Qed.

Lemma strip_idemp s : strip (strip s) = strip s.
Proof.
  unfold strip. rewrite lstrip_noop by apply rstrip_head, lstrip_head.
  apply rstrip_idemp.
Qed.

Lemma blank_strip s : blank (strip s) = blank s.
Proof. unfold blank. by rewrite strip_idemp. Qed.

Lemma blank_false s : blank s = false ↔ strip s ≠ EmptyString.
Proof. unfold blank. by rewrite bool_decide_false. Qed.
#[export] Hint Rewrite blank_false : checks.
