(* ===== verification/Sha256.v ===== *)
(** * [hashlib.sha256]

    FIPS 180-4 on byte lists: 32-bit words are [Z] reduced modulo [2^32]. *)

From S2P Require Import Prelude PyString.

Definition mask32 : Z := 4294967295.
Definition w32 (x : Z) : Z := Z.land x mask32.
Definition rotr (n x : Z) : Z := Z.lor (Z.shiftr x n) (w32 (Z.shiftl x (32 - n))).
Definition ch (x y z : Z) : Z := Z.lxor (Z.land x y) (Z.land (Z.lxor x mask32) z).
Definition maj (x y z : Z) : Z := Z.lxor (Z.land x y) (Z.lxor (Z.land x z) (Z.land y z)).
Definition big_sigma0 (x : Z) : Z := Z.lxor (rotr 2 x) (Z.lxor (rotr 13 x) (rotr 22 x)).
Definition big_sigma1 (x : Z) : Z := Z.lxor (rotr 6 x) (Z.lxor (rotr 11 x) (rotr 25 x)).
Definition small_sigma0 (x : Z) : Z := Z.lxor (rotr 7 x) (Z.lxor (rotr 18 x) (Z.shiftr x 3)).
Definition small_sigma1 (x : Z) : Z := Z.lxor (rotr 17 x) (Z.lxor (rotr 19 x) (Z.shiftr x 10)).

(** The constants are the first 32 bits of the fractional parts of the square
    and cube roots of the first primes (FIPS 180-4, 4.2.2 and 5.3.3). *)
Definition is_prime (p : Z) : bool := forallb (λ d, negb (p mod d =? 0)) (seqZ 2 (p - 2)).
Definition first_primes : list Z := filter (λ p, is_prime p = true) (seqZ 2 310).

(** The integer cube root of [n], bit by bit from [2 ^ bits] down. *)
Fixpoint cube_root (bits : nat) (r n : Z) : Z :=
  match bits with
  | O => r
  | S bits =>
      let r' := r + 2 ^ Z.of_nat bits in
      cube_root bits (if r' * r' * r' <=? n then r' else r) n
  end.

Definition round_constants : list Z :=
  Eval vm_compute in (λ p, w32 (cube_root 40 0 (p * 2 ^ 96))) <$> first_primes.

Record hash_state := mkHash
  { ha : Z; hb : Z; hc : Z; hd : Z; he : Z; hf : Z; hg : Z; hh : Z }.

Definition initial_hash : hash_state :=
  Eval vm_compute in
    match (λ p, w32 (Z.sqrt (p * 2 ^ 64))) <$> take 8 first_primes with
    | [a; b; c; d; e; f; g; h] => mkHash a b c d e f g h
    | _ => mkHash 0 0 0 0 0 0 0 0
    end.

(** Message schedule, most recent word first. *)
Fixpoint extend_schedule (n : nat) (w : list Z) : list Z :=
  match n with
  | O => w
  | S n =>
      let word := w32 (small_sigma1 (nth 1 w 0) + nth 6 w 0
                       + small_sigma0 (nth 14 w 0) + nth 15 w 0) in
      extend_schedule n (word :: w)
  end.

Definition sha_round (s : hash_state) (kw : Z * Z) : hash_state :=
  let t1 := w32 (hh s + big_sigma1 (he s) + ch (he s) (hf s) (hg s) + kw.1 + kw.2) in
  let t2 := w32 (big_sigma0 (ha s) + maj (ha s) (hb s) (hc s)) in
  mkHash (w32 (t1 + t2)) (ha s) (hb s) (hc s) (w32 (hd s + t1)) (he s) (hf s) (hg s).

Definition compress (s : hash_state) (block : list Z) : hash_state :=
  let schedule := rev (extend_schedule 48 (rev block)) in
  let r := fold_left sha_round (combine round_constants schedule) s in
  mkHash (w32 (ha s + ha r)) (w32 (hb s + hb r)) (w32 (hc s + hc r)) (w32 (hd s + hd r))
         (w32 (he s + he r)) (w32 (hf s + hf r)) (w32 (hg s + hg r)) (w32 (hh s + hh r)).

Fixpoint words_of_bytes (l : list Z) : list Z :=
  match l with
  | a :: b :: c :: d :: l =>
      (Z.shiftl a 24 + Z.shiftl b 16 + Z.shiftl c 8 + d) :: words_of_bytes l
  | _ => []
  end.

Definition length_bytes (n : Z) : list Z :=
  (λ i, Z.land (Z.shiftr n (8 * (7 - Z.of_nat i))) 255) <$> seq 0 8.

Definition pad (msg : list Z) : list Z :=
  let n := Z.of_nat (length msg) in
  msg ++ [128] ++ repeat 0 (Z.to_nat ((55 - n) mod 64)) ++ length_bytes (8 * n).

(** [fuel] blocks of sixteen words; the padded message has one block per 64 bytes. *)
Fixpoint hash_blocks (fuel : nat) (s : hash_state) (ws : list Z) : hash_state :=
  match fuel with
  | O => s
  | S fuel => hash_blocks fuel (compress s (take 16 ws)) (drop 16 ws)
  end.

Definition hex_of_word (w : Z) : str :=
  foldr (λ i s, String (hex_digit (Z.land (Z.shiftr w (4 * (7 - Z.of_nat i))) 15)) s)
        EmptyString (seq 0 8).

Definition sha256_hexdigest (msg : list Z) : str :=
  let padded := pad msg in
  let s := hash_blocks (Nat.div (length padded) 64) initial_hash (words_of_bytes padded) in
  String.concat EmptyString
    (hex_of_word <$> [ha s; hb s; hc s; hd s; he s; hf s; hg s; hh s]).

(** [f"sha256:{sha256(json.dumps(...).encode("utf-8")).hexdigest()}"] *)
Definition json_digest (ensure_ascii : bool) (v : JsonValue) : str :=
  sha256_prefix +:+ sha256_hexdigest (encode_utf8 (json_dumps ensure_ascii v)).

(** Test vectors of FIPS 180-4. *)
Example sha256_abc :
  sha256_hexdigest (encode_utf8 "abc")
  = "ba7816bf8f01cfea414140de5dae2223b00361a396177a9cb410ff61f20015ad".
Proof. vm_compute. reflexivity. Qed.

Example sha256_two_blocks :
  sha256_hexdigest (encode_utf8 "abcdbcdecdefdefgefghfghighijhijkijkljklmklmnlmnomnopnopq")
  = "248d6a61d20638b8e5c026930c3e6039a33ce45964ff2167f6ecedd419db06c1".
Proof. vm_compute. reflexivity. Qed.

(** ** Shape of a digest *)

Lemma hexdigest_length msg : String.length (sha256_hexdigest msg) = 64%nat.
Proof.
  unfold sha256_hexdigest. cbv zeta. by destruct (hash_blocks _ _ _).
Qed.

Lemma hex_digit_is_hex n : is_hex_digit (hex_digit (Z.land n 15)) = true.
Proof.
  change 15 with (Z.ones 4). rewrite Z.land_ones by lia.
  assert (H : 0 <= n mod 2 ^ 4 < 16) by (apply Z.mod_pos_bound; lia).
  set (k := n mod 2 ^ 4) in *.
  assert (Hk : k ∈ seqZ 0 16) by (apply elem_of_seqZ; lia).
  assert (Hall : forallb (λ k, is_hex_digit (hex_digit k)) (seqZ 0 16) = true)
    by (vm_compute; reflexivity).
  rewrite forallb_forall in Hall. by apply Hall, list_elem_of_In.
Qed.

Definition all_hex (s : str) : bool := forallb is_hex_digit (String.list_ascii_of_string s).

Lemma all_hex_append a b : all_hex (a +:+ b) = all_hex a && all_hex b.
Proof.
  unfold all_hex. induction a as [|c a IH]; [done|].
  change (String c a +:+ b) with (String c (a +:+ b)).
  cbn [String.list_ascii_of_string forallb]. by rewrite IH, andb_assoc.
Qed.

Lemma all_hex_concat l : forallb all_hex l = true → all_hex (String.concat EmptyString l) = true.
Proof.
  induction l as [|a [|b l] IH]; [done|by cbn; intros [Ha _]%andb_true|].
  cbn [forallb]. intros [Ha Hl]%andb_true.
  change (String.concat EmptyString (a :: b :: l)) with (a +:+ String.concat EmptyString (b :: l)).
  by rewrite all_hex_append, Ha, IH.
Qed.

Lemma hex_of_word_hex w : all_hex (hex_of_word w) = true.
Proof.
  unfold all_hex, hex_of_word. induction (seq 0 8) as [|i l IH]; [done|].
  cbn [foldr String.list_ascii_of_string forallb]. by rewrite hex_digit_is_hex, IH.
Qed.

Lemma hexdigest_is_hex msg : all_hex (sha256_hexdigest msg) = true.
Proof.
  unfold sha256_hexdigest. cbv zeta. apply all_hex_concat.
  cbn [fmap list_fmap forallb]. by rewrite !hex_of_word_hex.
Qed.

Lemma prefixed_digest_ok h :
  String.length h = 64%nat → all_hex h = true →
  is_sha256_digest (sha256_prefix +:+ h) = true.
Proof.
  intros Hl Hh. unfold is_sha256_digest, len. change (sha256_prefix +:+ h) with
    (String "s" (String "h" (String "a" (String "2" (String "5" (String "6" (String ":" h))))))).
  cbn [String.length]. rewrite Hl. cbn [String.substring].
  replace (String.substring 0 71 h) with h; [unfold all_hex in Hh; rewrite Hh; by destruct h|].
  clear Hh. assert (Hle : (String.length h <= 71)%nat) by lia. clear Hl. revert Hle.
  generalize 71%nat. induction h as [|c h IH]; intros [|n] Hn; cbn in *; try done; [lia|].
  rewrite <- IH; [done|lia].
Qed.

Lemma json_digest_ok ensure_ascii v : is_sha256_digest (json_digest ensure_ascii v) = true.
Proof. apply prefixed_digest_ok; [apply hexdigest_length|apply hexdigest_is_hex]. Qed.

(** ** Digests hold no space *)

Definition no_space (s : str) : bool :=
  forallb (λ c, negb (is_space c)) (String.list_ascii_of_string s).

Lemma rstrip_no_space s : no_space s = true → rstrip s = s.
Proof.
  induction s as [|c s IH]; [done|]. cbn. intros [Hc Hs]%andb_true. rewrite IH by done.
  apply negb_true in Hc. rewrite Hc. by destruct s.
Qed.

Lemma strip_no_space s : no_space s = true → strip s = s.
Proof.
  intros H. unfold strip. rewrite lstrip_noop; [by apply rstrip_no_space|].
  destruct s as [|c s]; [done|]. cbn in *. apply andb_true in H as [H _]. by apply negb_true in H.
Qed.

Lemma hex_not_space c : is_hex_digit c = true → is_space c = false.
Proof. unfold is_hex_digit, is_space. destruct (is_space c) eqn:E; unfold is_space in E; lia. Qed.

Lemma substring_all n s : (String.length s <= n)%nat → String.substring 0 n s = s.
Proof.
  revert n. induction s as [|c s IH]; intros [|n] H; cbn in *; try done; [lia|].
  f_equal. apply IH. lia.
Qed.

Lemma digest_no_space s : is_sha256_digest s = true → no_space s = true.
Proof.
  unfold is_sha256_digest, startswith, sha256_prefix.
  do 7 (destruct s as [|? s]; [done|]; cbn [String.prefix];
        match goal with |- context [ascii_dec ?a ?b] => destruct (ascii_dec a b) as [<-|] end; [|done]).
  intros [[_ H]%andb_true _]%andb_true. cbn [String.length String.substring] in H.
  rewrite substring_all in H by lia. change (no_space s = true). unfold no_space.
  rewrite forallb_forall in H |- *. intros c Hc. by rewrite hex_not_space by auto.
Qed.

Lemma digest_strip s : is_sha256_digest s = true → strip s = s.
Proof. intros H. by apply strip_no_space, digest_no_space. Qed.

Lemma hex_no_space s : all_hex s = true → no_space s = true.
Proof.
  unfold all_hex, no_space. rewrite !forallb_forall. intros H c Hc. by rewrite hex_not_space by auto.
Qed.

Lemma no_space_append a b : no_space (a +:+ b) = no_space a && no_space b.
Proof.
  unfold no_space. induction a as [|c a IH]; [done|].
  change (String c a +:+ b) with (String c (a +:+ b)).
  cbn [String.list_ascii_of_string forallb]. by rewrite IH, andb_assoc.
Qed.

#[global] Arguments sha256_hexdigest : simpl never.
#[global] Arguments json_digest : simpl never.
