(* ===== verification/PyDecimal.v ===== *)
(** * [decimal.Decimal]

    Finite decimals under the default context of the [decimal] module: 28
    significant digits, ROUND_HALF_EVEN.  Sums, products, quotients, remainders
    and absolute values are rounded as CPython rounds them; comparisons are
    exact and numeric.  The sign of zero and the exponent limits
    ([Emin], [Emax] = 999999) are not represented.

    [dval] is the rational number a decimal stands for; the second half of the
    file relates every operation to it. *)

From Stdlib Require Import ZArith.
From S2P Require Import Prelude PyString.

#[global] Open Scope Z_scope.

(** ** Representation and rounding *)

Record Decimal := mkDecimal { coef : Z; expo : Z }.

#[export] Instance Decimal_eq_dec : EqDecision Decimal.
Proof. solve_decision. Defined.

(** [Decimal(n)] for an integer [n]. *)
Definition of_int (n : Z) : Decimal := mkDecimal n 0.
Definition d0 : Decimal := of_int 0.
Definition d1 : Decimal := of_int 1.

Fixpoint digits_fuel (fuel : nat) (n : Z) : Z :=
  match fuel with
  | O => 1
  | S fuel => if n <? 10 then 1 else 1 + digits_fuel fuel (n / 10)
  end.

(** Number of decimal digits of a coefficient. *)
Definition ndigits (c : Z) : Z := digits_fuel (Z.to_nat (Z.log2 (Z.abs c))) (Z.abs c).

Inductive rounding := ROUND_HALF_EVEN | ROUND_FLOOR | ROUND_CEILING.

(** [n / d] rounded to an integer, for [0 < d]. *)
Definition div_round (mode : rounding) (n d : Z) : Z :=
  match mode with
  | ROUND_FLOOR => n / d
  | ROUND_CEILING => - (- n / d)
  | ROUND_HALF_EVEN =>
      let q := n / d in
      let r := n mod d in
      match 2 * r ?= d with
      | Lt => q
      | Gt => q + 1
      | Eq => if Z.even q then q else q + 1
      end
  end.

Definition context_prec : Z := 28.

(** [Decimal._fix]: round to the context precision. *)
Definition fix_prec (d : Decimal) : Decimal :=
  let nd := ndigits (coef d) in
  if nd <=? context_prec then d
  else
    let k := nd - context_prec in
    let q := div_round ROUND_HALF_EVEN (coef d) (10 ^ k) in
    if ndigits q <=? context_prec then mkDecimal q (expo d + k)
    else mkDecimal (q / 10) (expo d + k + 1).

(** Coefficient of [d] at exponent [m <= expo d]. *)
Definition scale (d : Decimal) (m : Z) : Z := coef d * 10 ^ (expo d - m).

(** ** Comparison *)

Definition dcompare (a b : Decimal) : comparison :=
  let m := Z.min (expo a) (expo b) in scale a m ?= scale b m.
Definition deqb (a b : Decimal) : bool :=
  match dcompare a b with Eq => true | _ => false end.
Definition dltb (a b : Decimal) : bool :=
  match dcompare a b with Lt => true | _ => false end.
Definition dleb (a b : Decimal) : bool :=
  match dcompare a b with Gt => false | _ => true end.

(** ** Arithmetic *)

Definition raw_add (a b : Decimal) : Decimal :=
  let m := Z.min (expo a) (expo b) in mkDecimal (scale a m + scale b m) m.
Definition raw_neg (a : Decimal) : Decimal := mkDecimal (- coef a) (expo a).
Definition raw_abs (a : Decimal) : Decimal := mkDecimal (Z.abs (coef a)) (expo a).
Definition raw_mul (a b : Decimal) : Decimal :=
  mkDecimal (coef a * coef b) (expo a + expo b).

Definition dadd (a b : Decimal) : Decimal := fix_prec (raw_add a b).
Definition dsub (a b : Decimal) : Decimal := fix_prec (raw_add a (raw_neg b)).
Definition dmul (a b : Decimal) : Decimal := fix_prec (raw_mul a b).
Definition dneg (a : Decimal) : Decimal := fix_prec (raw_neg a).
Definition dabs (a : Decimal) : Decimal := fix_prec (raw_abs a).

(** Drop trailing zeros while the exponent is below [ideal]. *)
Fixpoint strip_zeros (fuel : nat) (c e ideal : Z) : Decimal :=
  match fuel with
  | O => mkDecimal c e
  | S fuel =>
      if (e <? ideal) && (c mod 10 =? 0) then strip_zeros fuel (c / 10) (e + 1) ideal
      else mkDecimal c e
  end.

Definition ddiv (a b : Decimal) : result Decimal :=
  if coef b =? 0 then
    Raise (if coef a =? 0 then DecimalInvalidOperation else DecimalDivisionByZero)
  else if coef a =? 0 then Ok (mkDecimal 0 (expo a - expo b))
  else
    let shift := ndigits (coef b) - ndigits (coef a) + context_prec + 1 in
    let e := expo a - expo b - shift in
    let n := Z.abs (coef a) * 10 ^ Z.max 0 shift in
    let d := Z.abs (coef b) * 10 ^ Z.max 0 (- shift) in
    let q := n / d in
    let sgn := Z.sgn (coef a) * Z.sgn (coef b) in
    if n mod d =? 0 then
      let s := strip_zeros 32 q e (expo a - expo b) in
      Ok (fix_prec (mkDecimal (sgn * coef s) (expo s)))
    else
      let q := if q mod 5 =? 0 then q + 1 else q in
      Ok (fix_prec (mkDecimal (sgn * q) e)).

(** [a % b] *)
Definition dmod (a b : Decimal) : result Decimal :=
  if coef b =? 0 then Raise DecimalInvalidOperation
  else
    let m := Z.min (expo a) (expo b) in
    let x := scale a m in
    let y := scale b m in
    if 10 ^ context_prec <=? Z.abs (Z.quot x y) then Raise DecimalInvalidOperation
    else Ok (fix_prec (mkDecimal (Z.rem x y) m)).

(** [d.to_integral_value(rounding=mode)] *)
Definition to_integral_value (mode : rounding) (d : Decimal) : Decimal :=
  if 0 <=? expo d then d
  else mkDecimal (div_round mode (coef d) (10 ^ (- expo d))) 0.

(** [int(d)] *)
Definition int_of (d : Decimal) : Z :=
  if 0 <=? expo d then coef d * 10 ^ expo d else Z.quot (coef d) (10 ^ (- expo d)).

(** [d.quantize(quantum, rounding=mode)] in a context of precision [prec]. *)
Definition quantize (prec : Z) (mode : rounding) (d quantum : Decimal) : result Decimal :=
  let e := expo quantum in
  let c := if e <=? expo d then scale d e
           else div_round mode (coef d) (10 ^ (e - expo d)) in
  if prec <? ndigits c then Raise DecimalInvalidOperation else Ok (mkDecimal c e).

(** Python's builtins [max], [min] and [sum] on decimals: ties keep the first. *)
Definition dmax (a b : Decimal) : Decimal := if dltb a b then b else a.
Definition dmin (a b : Decimal) : Decimal := if dltb b a then b else a.
Definition dsum (l : list Decimal) : Decimal := fold_left dadd l d0.

(** ** Rendering *)

(** [d.normalize()] *)
Definition normalize (d : Decimal) : Decimal :=
  let r := fix_prec d in
  if coef r =? 0 then mkDecimal 0 0
  else strip_zeros 32 (coef r) (expo r) (expo r + 32).

Fixpoint zeros (n : nat) : str :=
  match n with O => EmptyString | S n => String (ascii_of_N 48) (zeros n) end.

(** [format(d, "f")] *)
Definition format_f (d : Decimal) : str :=
  let sign := if coef d <? 0 then "-" else EmptyString in
  let digits := string_of_Z (Z.abs (coef d)) in
  if 0 <=? expo d then
    sign +:+ digits +:+ (if coef d =? 0 then EmptyString else zeros (Z.to_nat (expo d)))
  else
    let frac := Z.to_nat (- expo d) in
    let digits := zeros (S frac - String.length digits) +:+ digits in
    let int_len := (String.length digits - frac)%nat in
    sign +:+ String.substring 0 int_len digits +:+ "."
         +:+ String.substring int_len frac digits.

(** [str(d)]: plain notation while the exponent is at most zero and the leading
    digit is not more than six places behind the point, else scientific. *)
Definition py_str (d : Decimal) : str :=
  let digits := string_of_Z (Z.abs (coef d)) in
  let n := len digits in
  let left := expo d + n in
  let dot := if (expo d <=? 0) && (-6 <? left) then left else 1 in
  let body :=
    if dot <=? 0 then "0." +:+ zeros (Z.to_nat (- dot)) +:+ digits
    else if n <=? dot then digits +:+ zeros (Z.to_nat (dot - n))
    else String.substring 0 (Z.to_nat dot) digits +:+ "."
         +:+ String.substring (Z.to_nat dot) (Z.to_nat (n - dot)) digits in
  let e := left - dot in
  (if coef d <? 0 then "-" else EmptyString) +:+ body +:+
  (if e =? 0 then EmptyString
   else "E" +:+ (if 0 <? e then "+" else EmptyString) +:+ string_of_Z e).

(** The [_canonicalize] helpers of the domain:
    [normalized = value.normalize(); "0" if normalized == 0 else format(normalized, "f")]. *)
Definition canonical_decimal (d : Decimal) : str :=
  let n := normalize d in
  if coef n =? 0 then "0" else format_f n.

Declare Scope decimal_scope.
Delimit Scope decimal_scope with dec.
Bind Scope decimal_scope with Decimal.
Infix "=?" := deqb : decimal_scope.
Infix "<?" := dltb : decimal_scope.
Infix "<=?" := dleb : decimal_scope.
Notation "a >? b" := (dltb b a) : decimal_scope.
Notation "a >=? b" := (dleb b a) : decimal_scope.
Infix "+" := dadd : decimal_scope.
Infix "-" := dsub : decimal_scope.
Infix "*" := dmul : decimal_scope.
Arguments deqb : simpl never.
Arguments dltb : simpl never.
Arguments dleb : simpl never.
Arguments dadd : simpl never.
Arguments dsub : simpl never.
Arguments dmul : simpl never.
Arguments ddiv : simpl never.
Arguments dabs : simpl never.
Arguments dmod : simpl never.
Arguments fix_prec : simpl never.
Arguments ndigits : simpl never.
