(* ===== verification/DecimalFacts.v ===== *)
(** * The rational meaning of decimals

    [dval] and the facts every component uses: comparisons are the order of
    the rationals, sums and products are exact up to one rounding, a rounding
    never crosses a representable value ([fix_prec_le], [fix_prec_ge]) and has
    relative error below [eps]. *)

From Stdlib Require Import QArith Qabs Qpower Lqa Zpow_facts.
From S2P Require Import Prelude PyString PyDecimal.

#[local] Open Scope Z_scope.

Definition p10 (e : Z) : Q := Qpower 10 e.

Definition dval (d : Decimal) : Q := (inject_Z (coef d) * p10 (expo d))%Q.

(** At most 28 significant digits: rounding leaves the value alone. *)
Definition fits (d : Decimal) : bool := Z.abs (coef d) <? 10 ^ context_prec.

(** Relative error bound of one operation, and of a division: [1e-27]. *)
Definition eps : Q := (1 # 1000000000000000000000000000)%Q.

(** ** Powers of ten *)

Lemma p10_pos e : (0 < p10 e)%Q.
Proof. apply Qpower_0_lt. reflexivity. Qed.

Lemma p10_add a b : (p10 (a + b) == p10 a * p10 b)%Q.
Proof. apply Qpower_plus. discriminate. Qed.

Lemma p10_inject n : 0 <= n → (p10 n == inject_Z (10 ^ n))%Q.
Proof. intros H. symmetry. exact (Zpower_Qpower 10 n H). Qed.

Lemma inject_Z_abs z : (inject_Z (Z.abs z) == Qabs (inject_Z z))%Q.
Proof. reflexivity. Qed.

Lemma p10_0 : (p10 0 == 1)%Q.
Proof. reflexivity. Qed.

Lemma p10_split a b : b <= a → (p10 a == inject_Z (10 ^ (a - b)) * p10 b)%Q.
Proof.
  intros H. rewrite <- p10_inject, <- p10_add by lia. f_equiv. lia.
Qed.

Lemma pow10_pos n : 0 <= n → 0 < 10 ^ n.
Proof. intros. apply Z.pow_pos_nonneg; lia. Qed.

Lemma pow10_mono a b : 0 <= a <= b → 10 ^ a <= 10 ^ b.
Proof. intros. apply Z.pow_le_mono_r; lia. Qed.

(** ** Digits *)

Lemma digits_fuel_spec fuel n :
  0 < n → Z.log2 n <= Z.of_nat fuel →
  1 <= digits_fuel fuel n ∧ 10 ^ (digits_fuel fuel n - 1) <= n < 10 ^ digits_fuel fuel n.
Proof.
  revert n. induction fuel as [|fuel IH]; intros n Hn Hf.
  - assert (n = 1) as ->; [|cbn; lia].
    pose proof (Z.log2_spec n Hn). pose proof (Z.log2_nonneg n).
    assert (Z.log2 n = 0) as E by lia. rewrite E in *. lia.
  - cbn. destruct (Z.ltb_spec n 10); [cbn; lia|].
    assert (0 < n / 10) by (apply Z.div_str_pos; lia).
    assert (Z.log2 (n / 10) + 1 <= Z.log2 n).
    { rewrite Z.add_1_r, <- Z.log2_double by lia. apply Z.log2_le_mono.
      pose proof (Z.div_mod n 10 ltac:(lia)). pose proof (Z.mod_pos_bound n 10). lia. }
    destruct (IH (n / 10)) as (Hr1 & Hr2 & Hr3); [lia..|].
    set (r := digits_fuel fuel (n / 10)) in *. split; [lia|].
    replace (1 + r - 1) with (1 + (r - 1)) by lia.
    rewrite (Z.pow_add_r 10 1 (r - 1)), (Z.pow_add_r 10 1 r), Z.pow_1_r by lia.
    pose proof (Z.div_mod n 10 ltac:(lia)). pose proof (Z.mod_pos_bound n 10). lia.
Qed.

Lemma ndigits_spec c :
  c ≠ 0 → 10 ^ (ndigits c - 1) <= Z.abs c < 10 ^ ndigits c.
Proof.
  intros H. pose proof (Z.log2_nonneg (Z.abs c)).
  apply digits_fuel_spec; lia.
Qed.

Lemma ndigits_pos c : 1 <= ndigits c.
Proof.
  destruct (decide (c = 0)) as [->|H]; [done|].
  pose proof (Z.log2_nonneg (Z.abs c)). apply digits_fuel_spec; lia.
Qed.

Lemma ndigits_le c n : 0 <= n → Z.abs c < 10 ^ n ↔ ndigits c <= n ∨ c = 0.
Proof.
  intros Hn. pose proof (ndigits_pos c).
  destruct (decide (c = 0)) as [->|Hc].
  { pose proof (pow10_pos n Hn). split; [by right|]. cbn. lia. }
  pose proof (ndigits_spec c Hc) as [H1 H2]. split.
  - intros. left. apply Z.nlt_ge. intros Hlt.
    pose proof (pow10_mono n (ndigits c - 1)). lia.
  - intros [?|?]; [|done]. pose proof (pow10_mono (ndigits c) n). lia.
Qed.

Lemma ndigits_le_prec c : ndigits c <= context_prec ↔ Z.abs c < 10 ^ context_prec.
Proof.
  rewrite ndigits_le by done. split; [by left|].
  intros [?| ->]; [done|]. done.
Qed.

Lemma fits_spec d : fits d = true ↔ ndigits (coef d) <= context_prec.
Proof. unfold fits. rewrite Z.ltb_lt. symmetry. apply ndigits_le_prec. Qed.

(** ** Comparison is the order of the rationals *)

Lemma dval_scale d m : m <= expo d → (dval d == inject_Z (scale d m) * p10 m)%Q.
Proof.
  intros H. unfold dval, scale. rewrite inject_Z_mult, (p10_split (expo d) m) by done.
  ring.
Qed.

Lemma Qcompare_scaled x y m :
  ((inject_Z x * p10 m) ?= (inject_Z y * p10 m))%Q = (x ?= y)%Z.
Proof.
  pose proof (p10_pos m) as Hm.
  destruct (Z.compare_spec x y) as [->|H|H].
  - by rewrite <- Qeq_alt.
  - rewrite <- Qlt_alt. apply Qmult_lt_compat_r; [done|]. by rewrite <- Zlt_Qlt.
  - rewrite <- Qgt_alt. apply Qmult_lt_compat_r; [done|]. by rewrite <- Zlt_Qlt.
Qed.

Lemma dcompare_spec a b : dcompare a b = (dval a ?= dval b)%Q.
Proof.
  unfold dcompare. set (m := Z.min (expo a) (expo b)).
  rewrite (dval_scale a m), (dval_scale b m) by lia.
  by rewrite Qcompare_scaled.
Qed.

Lemma deqb_spec a b : (a =? b)%dec = true ↔ (dval a == dval b)%Q.
Proof.
  unfold deqb. rewrite dcompare_spec, Qeq_alt. by destruct (_ ?= _)%Q.
Qed.
Lemma deqb_false a b : (a =? b)%dec = false ↔ ¬ (dval a == dval b)%Q.
Proof. rewrite <- deqb_spec. by destruct (a =? b)%dec. Qed.
Lemma dltb_spec a b : (a <? b)%dec = true ↔ (dval a < dval b)%Q.
Proof. unfold dltb. rewrite dcompare_spec, Qlt_alt. by destruct (_ ?= _)%Q. Qed.
Lemma dltb_false a b : (a <? b)%dec = false ↔ (dval b <= dval a)%Q.
Proof.
  unfold dltb. rewrite dcompare_spec, <- Qcompare_antisym, Qle_alt.
  destruct (dval b ?= dval a)%Q; naive_solver.
Qed.
Lemma dleb_spec a b : (a <=? b)%dec = true ↔ (dval a <= dval b)%Q.
Proof. unfold dleb. rewrite dcompare_spec, Qle_alt. by destruct (_ ?= _)%Q. Qed.
Lemma dleb_false a b : (a <=? b)%dec = false ↔ (dval b < dval a)%Q.
Proof.
  unfold dleb. rewrite dcompare_spec, <- Qcompare_antisym, Qlt_alt.
  destruct (dval b ?= dval a)%Q; naive_solver.
Qed.

#[export] Hint Rewrite deqb_spec deqb_false dltb_spec dltb_false dleb_spec dleb_false : checks.

Lemma dval_of_int n : (dval (of_int n) == inject_Z n)%Q.
Proof. unfold dval. cbn. ring. Qed.
Lemma dval_d0 : (dval d0 == 0)%Q.
Proof. reflexivity. Qed.
Lemma dval_d1 : (dval d1 == 1)%Q.
Proof. reflexivity. Qed.

(** ** Exact operations *)

Lemma dval_raw_add a b : (dval (raw_add a b) == dval a + dval b)%Q.
Proof.
  unfold raw_add. set (m := Z.min (expo a) (expo b)).
  rewrite (dval_scale a m), (dval_scale b m) by lia.
  unfold dval; cbn [coef expo]. rewrite inject_Z_plus. ring.
Qed.
Lemma dval_raw_neg a : (dval (raw_neg a) == - dval a)%Q.
Proof. unfold dval; cbn. rewrite inject_Z_opp. ring. Qed.
Lemma dval_raw_abs a : (dval (raw_abs a) == Qabs (dval a))%Q.
Proof.
  unfold dval, raw_abs; cbn [coef expo]. rewrite Qabs_Qmult, inject_Z_abs.
  rewrite (Qabs_pos (p10 _)); [reflexivity|]. apply Qlt_le_weak, p10_pos.
Qed.
Lemma dval_raw_mul a b : (dval (raw_mul a b) == dval a * dval b)%Q.
Proof. unfold dval; cbn. rewrite inject_Z_mult, p10_add. ring. Qed.

(** ** Integer rounding *)

Lemma div_round_le mode n d g : 0 < d → n <= g * d → div_round mode n d <= g.
Proof.
  intros Hd H. pose proof (Z.div_mod n d ltac:(lia)) as E.
  pose proof (Z.mod_pos_bound n d Hd). destruct mode; cbn.
  - destruct (Z.compare_spec (2 * (n mod d)) d); [destruct (Z.even _)|..]; nia.
  - nia.
  - pose proof (Z.div_mod (- n) d ltac:(lia)). pose proof (Z.mod_pos_bound (- n) d Hd). nia.
Qed.

Lemma div_round_ge mode n d g : 0 < d → g * d <= n → g <= div_round mode n d.
Proof.
  intros Hd H. pose proof (Z.div_mod n d ltac:(lia)) as E.
  pose proof (Z.mod_pos_bound n d Hd). destruct mode; cbn.
  - destruct (Z.compare_spec (2 * (n mod d)) d); [destruct (Z.even _)|..]; nia.
  - nia.
  - pose proof (Z.div_mod (- n) d ltac:(lia)). pose proof (Z.mod_pos_bound (- n) d Hd). nia.
Qed.

Lemma div_round_half n d :
  0 < d → 2 * Z.abs (div_round ROUND_HALF_EVEN n d * d - n) <= d.
Proof.
  intros Hd. pose proof (Z.div_mod n d ltac:(lia)) as E.
  pose proof (Z.mod_pos_bound n d Hd). cbn.
  destruct (Z.compare_spec (2 * (n mod d)) d); [destruct (Z.even _)|..]; nia.
Qed.

(** ** Rounding to the context precision *)

Lemma scaled_le x y m : (inject_Z x * p10 m <= inject_Z y * p10 m)%Q ↔ (x <= y)%Z.
Proof. rewrite Qle_alt, Qcompare_scaled. done. Qed.

Lemma p10_shift c e k :
  0 <= k → (inject_Z c * p10 (e + k) == inject_Z (c * 10 ^ k) * p10 e)%Q.
Proof. intros. rewrite inject_Z_mult, p10_add, (p10_inject k) by done. ring. Qed.

#[local] Ltac plia := unfold context_prec in *; lia.

Section Rounding.
Context (d : Decimal) (Hnd : context_prec < ndigits (coef d)).
#[local] Abbreviation k := (ndigits (coef d) - context_prec).
#[local] Abbreviation q := (div_round ROUND_HALF_EVEN (coef d) (10 ^ k)).

Lemma round_bounds :
  10 ^ (context_prec - 1) * 10 ^ k <= Z.abs (coef d) < 10 ^ context_prec * 10 ^ k.
Proof.
  assert (coef d ≠ 0) as Hc by (intros E; rewrite E in Hnd; done).
  pose proof (ndigits_spec _ Hc). rewrite <- !Z.pow_add_r by plia.
  replace (context_prec - 1 + k) with (ndigits (coef d) - 1) by plia.
  by replace (context_prec + k) with (ndigits (coef d)) by plia.
Qed.

Lemma round_q_bound : Z.abs q <= 10 ^ context_prec.
Proof.
  pose proof round_bounds. pose proof (pow10_pos k ltac:(plia)).
  assert (q <= 10 ^ context_prec) by (apply div_round_le; lia).
  assert (- 10 ^ context_prec <= q) by (apply div_round_ge; lia). lia.
Qed.

Lemma fix_prec_round :
  (dval (fix_prec d) == inject_Z q * p10 (expo d + k))%Q ∧ fits (fix_prec d) = true.
Proof.
  unfold fix_prec. destruct (Z.leb_spec (ndigits (coef d)) context_prec) as [?|_]; [plia|].
  destruct (Z.leb_spec (ndigits q) context_prec) as [Hq|Hq].
  - split; [done|]. by apply fits_spec.
  - pose proof round_q_bound.
    assert (¬ Z.abs q < 10 ^ context_prec) by (rewrite <- ndigits_le_prec; plia).
    assert (q = 10 * (q / 10)) as E.
    { assert (q = 10 ^ context_prec ∨ q = - 10 ^ context_prec) as [-> | ->] by plia; done. }
    assert (Z.abs (q / 10) < 10 ^ context_prec) by (unfold context_prec in *; lia).
    split; [|by apply Z.ltb_lt].
    unfold dval; cbn [coef expo]. rewrite p10_shift by plia.
    by replace (q / 10 * 10 ^ 1) with q by plia.
Qed.
End Rounding.

Lemma fix_prec_id d : fits d = true → fix_prec d = d.
Proof.
  rewrite fits_spec. intros H. unfold fix_prec.
  by destruct (Z.leb_spec (ndigits (coef d)) context_prec); [|lia].
Qed.

Lemma fix_prec_fits d : fits (fix_prec d) = true.
Proof.
  destruct (decide (context_prec < ndigits (coef d))) as [H|H].
  - by apply fix_prec_round.
  - rewrite fix_prec_id; apply fits_spec; plia.
Qed.

(** A rounding never crosses a representable value. *)
Lemma fix_prec_le d g :
  fits g = true → (dval d <= dval g)%Q → (dval (fix_prec d) <= dval g)%Q.
Proof.
  intros Hg Hle.
  destruct (decide (context_prec < ndigits (coef d))) as [H|H];
    [|by rewrite fix_prec_id; [|apply fits_spec; plia]].
  destruct (fix_prec_round d H) as [-> _].
  set (k := ndigits (coef d) - context_prec).
  pose proof (pow10_pos k ltac:(plia)) as Hk. pose proof (round_bounds d H) as Hb. fold k in Hb.
  apply Z.ltb_lt in Hg. destruct (decide (expo d + k <= expo g)) as [He|He].
  - rewrite (dval_scale g (expo d + k)) in * by done.
    apply scaled_le, div_round_le; [done|].
    rewrite p10_shift in Hle by plia. by apply scaled_le in Hle.
  - assert (expo d + k = expo g + (expo d + k - expo g)) as E by plia. rewrite E.
    set (j := expo d + k - expo g) in *.
    pose proof (pow10_mono 1 j ltac:(plia)) as Hj.
    change (10 ^ context_prec) with (10 * 10 ^ (context_prec - 1)) in Hg.
    rewrite p10_shift by plia. unfold dval at 1. apply scaled_le.
    assert (coef d < 0) as Hneg.
    { apply Z.nle_gt. intros Hpos. unfold dval in Hle.
      assert ((inject_Z (10 ^ (context_prec - 1) * 10 ^ j) * p10 (expo g)
               <= inject_Z (coef g) * p10 (expo g))%Q) as Hbad.
      { rewrite <- p10_shift, <- E by plia. eapply Qle_trans; [|exact Hle].
        rewrite p10_shift by plia. apply scaled_le. lia. }
      apply scaled_le in Hbad. nia. }
    assert (div_round ROUND_HALF_EVEN (coef d) (10 ^ k) <= - 10 ^ (context_prec - 1))
      by (apply div_round_le; lia).
    nia.
Qed.

Lemma div_round_half_opp n d :
  0 < d → div_round ROUND_HALF_EVEN (- n) d = - div_round ROUND_HALF_EVEN n d.
Proof.
  intros Hd. pose proof (Z.div_mod n d ltac:(lia)) as E1.
  pose proof (Z.mod_pos_bound n d Hd). cbn.
  destruct (decide (n mod d = 0)) as [Hr|Hr].
  - rewrite (Z.div_opp_l_z n d), (Z.mod_opp_l_z n d), Hr by lia.
    destruct (Z.compare_spec (2 * 0) d); lia.
  - rewrite (Z.div_opp_l_nz n d), (Z.mod_opp_l_nz n d) by lia.
    destruct (Z.compare_spec (2 * (d - n mod d)) d), (Z.compare_spec (2 * (n mod d)) d); try lia.
    replace (- (n / d) - 1) with (- (n / d + 1)) by lia.
    rewrite Z.even_opp, Z.even_add. cbn. destruct (Z.even (n / d)); cbn; lia.
Qed.

Lemma ndigits_opp c : ndigits (- c) = ndigits c.
Proof. unfold ndigits. by rewrite Z.abs_opp. Qed.

Lemma fix_prec_neg d : (dval (fix_prec (raw_neg d)) == - dval (fix_prec d))%Q.
Proof.
  destruct (decide (context_prec < ndigits (coef d))) as [H|H].
  - destruct (fix_prec_round d H) as [-> _].
    destruct (fix_prec_round (raw_neg d)) as [-> _]; cbn [raw_neg coef expo] in *;
      rewrite ndigits_opp; [done|].
    rewrite div_round_half_opp by (apply pow10_pos; plia).
    rewrite inject_Z_opp. ring.
  - rewrite !fix_prec_id; [apply dval_raw_neg|apply fits_spec; plia|].
    apply fits_spec. cbn. rewrite ndigits_opp. plia.
Qed.

Lemma fix_prec_ge d g :
  fits g = true → (dval g <= dval d)%Q → (dval g <= dval (fix_prec d))%Q.
Proof.
  intros Hg Hle.
  assert (dval (fix_prec (raw_neg d)) <= dval (raw_neg g))%Q as H.
  { apply fix_prec_le; [|rewrite !dval_raw_neg; lra].
    unfold fits in *. cbn. by rewrite Z.abs_opp. }
  rewrite fix_prec_neg, dval_raw_neg in H. lra.
Qed.

Lemma fix_prec_err d : (Qabs (dval (fix_prec d) - dval d) <= Qabs (dval d) * eps)%Q.
Proof.
  destruct (decide (context_prec < ndigits (coef d))) as [H|H].
  - destruct (fix_prec_round d H) as [-> _].
    pose proof (round_bounds d H) as Hb.
    set (k := ndigits (coef d) - context_prec) in *.
    set (q := div_round ROUND_HALF_EVEN (coef d) (10 ^ k)).
    assert (2 * Z.abs (q * 10 ^ k - coef d) <= 10 ^ k) as Hh
      by (apply div_round_half, pow10_pos; plia).
    assert (Z.abs (q * 10 ^ k - coef d) * 10 ^ 27 <= Z.abs (coef d)) as Hz by plia.
    rewrite p10_shift by plia. unfold dval at 1.
    setoid_replace (inject_Z (q * 10 ^ k) * p10 (expo d) - inject_Z (coef d) * p10 (expo d))%Q
      with (inject_Z (q * 10 ^ k - coef d) * p10 (expo d))%Q using relation Qeq
      by (unfold Z.sub; rewrite inject_Z_plus, inject_Z_opp; ring).
    unfold dval. rewrite !Qabs_Qmult, <- !inject_Z_abs.
    rewrite (Qabs_pos (p10 _)) by apply Qlt_le_weak, p10_pos.
    rewrite Zle_Qle, inject_Z_mult in Hz. pose proof (p10_pos (expo d)).
    set (x := inject_Z (Z.abs (q * 10 ^ k - coef d))) in *.
    change (inject_Z (10 ^ 27)) with (1000000000000000000000000000 # 1)%Q in Hz.
    assert (x <= inject_Z (Z.abs (coef d)) * eps)%Q as Hx by (unfold eps; lra).
    setoid_replace (inject_Z (Z.abs (coef d)) * p10 (expo d) * eps)%Q
      with (inject_Z (Z.abs (coef d)) * eps * p10 (expo d))%Q using relation Qeq by ring.
    apply Qmult_le_compat_r; [done|lra].
  - rewrite fix_prec_id by (apply fits_spec; plia).
    setoid_replace (dval d - dval d)%Q with 0%Q using relation Qeq by ring.
    apply Qmult_le_0_compat; [apply Qabs_nonneg|done].
Qed.

Lemma fix_prec_nonneg d : (0 <= dval d)%Q → (0 <= dval (fix_prec d))%Q.
Proof. rewrite <- dval_d0. by apply fix_prec_ge. Qed.

Lemma fix_prec_upper d : (0 <= dval d)%Q → (dval (fix_prec d) <= dval d * (1 + eps))%Q.
Proof.
  intros Hd. pose proof (fix_prec_err d) as H. rewrite (Qabs_pos (dval d)) in H by done.
  apply Qabs_Qle_condition in H. lra.
Qed.

Lemma fix_prec_lower d : (0 <= dval d)%Q → (dval d * (1 - eps) <= dval (fix_prec d))%Q.
Proof.
  intros Hd. pose proof (fix_prec_err d) as H. rewrite (Qabs_pos (dval d)) in H by done.
  apply Qabs_Qle_condition in H. lra.
Qed.

Lemma fix_prec_pos d : (0 < dval d)%Q ↔ (0 < dval (fix_prec d))%Q.
Proof.
  split; intros Hd.
  - pose proof (fix_prec_lower d ltac:(lra)) as H. unfold eps in H. lra.
  - apply Qnot_le_lt. intros Hle.
    assert (dval (fix_prec d) <= dval d0)%Q as H by by apply fix_prec_le.
    rewrite dval_d0 in H. lra.
Qed.

(** Operations whose exact result is representable are exact. *)
Lemma fix_prec_exact d g : fits g = true → (dval d == dval g)%Q → (dval (fix_prec d) == dval g)%Q.
Proof.
  intros Hg He. apply Qle_antisym; [apply fix_prec_le|apply fix_prec_ge]; try done; lra.
Qed.

Lemma dsub_le a b g :
  fits g = true → (dval a - dval b <= dval g)%Q → (dval (a - b)%dec <= dval g)%Q.
Proof.
  intros Hg H. apply fix_prec_le; [done|]. rewrite dval_raw_add, dval_raw_neg. lra.
Qed.
Lemma dsub_ge a b g :
  fits g = true → (dval g <= dval a - dval b)%Q → (dval g <= dval (a - b)%dec)%Q.
Proof.
  intros Hg H. apply fix_prec_ge; [done|]. rewrite dval_raw_add, dval_raw_neg. lra.
Qed.
Lemma dsub_pos a b : (0 < dval (a - b)%dec)%Q ↔ (dval b < dval a)%Q.
Proof.
  unfold dsub. rewrite <- fix_prec_pos, dval_raw_add, dval_raw_neg. split; lra.
Qed.
Lemma dsub_nonneg a b : (dval b <= dval a)%Q → (0 <= dval (a - b)%dec)%Q.
Proof. intros. apply fix_prec_nonneg. rewrite dval_raw_add, dval_raw_neg. lra. Qed.
Lemma dsub_fits a b : fits (a - b)%dec = true.
Proof. apply fix_prec_fits. Qed.
Lemma dmul_upper a b :
  (0 <= dval a)%Q → (0 <= dval b)%Q → (dval (a * b)%dec <= dval a * dval b * (1 + eps))%Q.
Proof.
  intros Ha Hb. rewrite <- dval_raw_mul. apply fix_prec_upper.
  rewrite dval_raw_mul. by apply Qmult_le_0_compat.
Qed.
Lemma dmul_lower a b :
  (0 <= dval a)%Q → (0 <= dval b)%Q → (dval a * dval b * (1 - eps) <= dval (a * b)%dec)%Q.
Proof.
  intros Ha Hb. rewrite <- dval_raw_mul. apply fix_prec_lower.
  rewrite dval_raw_mul. by apply Qmult_le_0_compat.
Qed.
Lemma dmul_nonneg a b :
  (0 <= dval a)%Q → (0 <= dval b)%Q → (0 <= dval (a * b)%dec)%Q.
Proof.
  intros Ha Hb. apply fix_prec_nonneg. rewrite dval_raw_mul. by apply Qmult_le_0_compat.
Qed.
Lemma dmul_pos a b :
  (0 < dval a)%Q → (0 < dval b)%Q → (0 < dval (a * b)%dec)%Q.
Proof.
  intros Ha Hb. unfold dmul. rewrite <- fix_prec_pos, dval_raw_mul. by apply Qmult_lt_0_compat.
Qed.

(** Monotonicity of an exact factor under a relative error. *)
Lemma Qmult_le_l (q x y : Q) : (0 <= q)%Q → (x <= y)%Q → (q * x <= q * y)%Q.
Proof. intros Hq H. rewrite !(Qmult_comm q). by apply Qmult_le_compat_r. Qed.

Lemma eps_bounds : (0 <= 1 - eps)%Q ∧ (0 <= 1 + eps)%Q ∧ (0 < eps)%Q.
Proof. unfold eps. split_and!; lra. Qed.

(** A product whose second factor carries one rounding carries two. *)
Lemma dmul_bounds a b (y : Q) :
  (0 <= dval a)%Q → (0 <= y)%Q → (y * (1 - eps) <= dval b <= y * (1 + eps))%Q →
  (dval a * y * (1 - eps) * (1 - eps) <= dval (a * b)%dec <= dval a * y * (1 + eps) * (1 + eps))%Q.
Proof.
  intros Ha Hy [B1 B2]. destruct eps_bounds as (E1 & E2 & _).
  assert (Hb : (0 <= dval b)%Q).
  { eapply Qle_trans; [|exact B1]. by apply Qmult_le_0_compat. }
  split.
  - eapply Qle_trans; [|by apply dmul_lower]. apply Qmult_le_compat_r; [|done].
    rewrite <- Qmult_assoc. by apply Qmult_le_l.
  - eapply Qle_trans; [by apply dmul_upper|]. apply Qmult_le_compat_r; [|done].
    rewrite <- Qmult_assoc. by apply Qmult_le_l.
Qed.

(** ** Division *)

Lemma strip_zeros_value fuel c e ideal :
  (dval (strip_zeros fuel c e ideal) == dval (mkDecimal c e))%Q.
Proof.
  revert c e. induction fuel as [|fuel IH]; intros c e; [done|]. cbn [strip_zeros].
  destruct ((e <? ideal) && (c mod 10 =? 0)) eqn:H; [|done].
  apply andb_true in H as [_ H]. apply Z.eqb_eq in H. rewrite IH. unfold dval; cbn [coef expo].
  rewrite p10_add. change (p10 1) with 10%Q.
  rewrite (Z.div_mod c 10) at 2 by lia. rewrite H, Z.add_0_r, inject_Z_mult. ring.
Qed.

Lemma ddiv_total a b : ¬ (dval b == 0)%Q → ∃ q, ddiv a b = Ok q.
Proof.
  intros Hb. unfold ddiv. destruct (Z.eqb_spec (coef b) 0) as [E|E].
  - exfalso. apply Hb. unfold dval. rewrite E. ring.
  - destruct (coef a =? 0); [by eexists|]. cbv zeta. destruct (_ mod _ =? 0); by eexists.
Qed.

Lemma dval_sign d : (0 < dval d)%Q ↔ 0 < coef d.
Proof.
  unfold dval. pose proof (p10_pos (expo d)) as Hp. split; intros H.
  - apply Z.lt_nge. intros Hc. apply (Qlt_not_le _ _ H).
    rewrite <- (Qmult_0_l (p10 (expo d))). apply Qmult_le_compat_r; [|lra].
    change 0%Q with (inject_Z 0). by rewrite <- Zle_Qle.
  - apply Qmult_lt_0_compat; [|done]. change 0%Q with (inject_Z 0). by rewrite <- Zlt_Qlt.
Qed.

Lemma dval_sign_nonneg d : (0 <= dval d)%Q ↔ 0 <= coef d.
Proof.
  unfold dval. pose proof (p10_pos (expo d)) as Hp. split; intros H.
  - apply Z.le_ngt. intros Hc. apply (Qle_not_lt _ _ H).
    rewrite <- (Qmult_0_l (p10 (expo d))). apply Qmult_lt_compat_r; [done|].
    change 0%Q with (inject_Z 0). by rewrite <- Zlt_Qlt.
  - apply Qmult_le_0_compat; [|lra]. change 0%Q with (inject_Z 0). by rewrite <- Zle_Qle.
Qed.

(** The scaled integers of a division. *)
Definition div_shift (a b : Decimal) : Z := ndigits (coef b) - ndigits (coef a) + context_prec + 1.
Definition div_num (a b : Decimal) : Z := Z.abs (coef a) * 10 ^ Z.max 0 (div_shift a b).
Definition div_den (a b : Decimal) : Z := Z.abs (coef b) * 10 ^ Z.max 0 (- div_shift a b).
Definition div_expo (a b : Decimal) : Z := expo a - expo b - div_shift a b.

Lemma div_scaled a b :
  0 < coef a → 0 < coef b →
  (inject_Z (div_num a b) * p10 (div_expo a b) * dval b == inject_Z (div_den a b) * dval a)%Q.
Proof.
  intros Ha Hb. unfold div_num, div_den, div_expo, dval. rewrite !Z.abs_eq by lia.
  set (s := div_shift a b). rewrite !inject_Z_mult, <- !p10_inject by lia.
  transitivity (inject_Z (coef a) * inject_Z (coef b) *
                (p10 (Z.max 0 s) * p10 (expo a - expo b - s) * p10 (expo b)))%Q; [ring|].
  transitivity (inject_Z (coef a) * inject_Z (coef b) * (p10 (Z.max 0 (- s)) * p10 (expo a)))%Q; [|ring].
  rewrite <- !p10_add. replace (Z.max 0 s + (expo a - expo b - s) + expo b)
    with (Z.max 0 (- s) + expo a) by lia. reflexivity.
Qed.

Lemma div_den_pos a b : 0 < coef b → 0 < div_den a b.
Proof. intros Hb. unfold div_den. apply Z.mul_pos_pos; [lia|]. apply pow10_pos. lia. Qed.

(** The integer quotient has at least 28 digits. *)
Lemma div_quotient_large a b :
  0 < coef a → 0 < coef b → 10 ^ context_prec * div_den a b <= div_num a b.
Proof.
  intros Ha Hb. pose proof (ndigits_spec (coef a)) as Sa. pose proof (ndigits_spec (coef b)) as Sb.
  pose proof (ndigits_pos (coef a)). pose proof (ndigits_pos (coef b)).
  unfold div_num, div_den. set (s := div_shift a b).
  specialize (Sa ltac:(lia)) as [Sa _]. specialize (Sb ltac:(lia)) as [_ Sb].
  assert (Hs : s = ndigits (coef b) - ndigits (coef a) + context_prec + 1) by done.
  transitivity (10 ^ (ndigits (coef a) - 1) * 10 ^ Z.max 0 s);
    [|apply Z.mul_le_mono_nonneg_r; [apply Z.pow_nonneg; lia|lia]].
  rewrite <- Z.pow_add_r by lia.
  replace (ndigits (coef a) - 1 + Z.max 0 s) with (context_prec + (ndigits (coef b) + Z.max 0 (- s)))
    by (unfold context_prec in *; lia).
  rewrite !Z.pow_add_r by (unfold context_prec; lia).
  apply Z.mul_le_mono_nonneg_l; [apply Z.pow_nonneg; lia|].
  apply Z.mul_le_mono_nonneg_r; [apply Z.pow_nonneg; lia|lia].
Qed.

Lemma Qdiv_mult_r (x y z : Q) : (0 < z)%Q → (x * z == y)%Q → (x == y / z)%Q.
Proof. intros Hz H. rewrite <- H. field. intros E. rewrite E in Hz. by apply Qlt_irrefl in Hz. Qed.

(** A quotient candidate within one unit of the exact ratio is within [eps]
    of the exact quotient. *)
Lemma quotient_close a b q :
  0 < coef a → 0 < coef b →
  div_num a b - div_den a b <= q * div_den a b <= div_num a b + div_den a b →
  (dval a / dval b * (1 - eps) <= dval (mkDecimal q (div_expo a b)) <= dval a / dval b * (1 + eps))%Q.
Proof.
  intros Ha Hb [H1 H2]. pose proof (div_scaled a b Ha Hb) as Hs.
  pose proof (div_den_pos a b Hb) as Hd. pose proof (div_quotient_large a b Ha Hb) as Hl.
  pose proof (p10_pos (div_expo a b)) as Hp. pose proof (proj2 (dval_sign b) Hb) as Hvb.
  set (P := p10 (div_expo a b)) in *. set (n := div_num a b) in *. set (d := div_den a b) in *.
  assert (Hdq : (0 < inject_Z d)%Q) by (change 0%Q with (inject_Z 0); by rewrite <- Zlt_Qlt).
  assert (Hx : (inject_Z n * P == dval a / dval b * inject_Z d)%Q).
  { transitivity (inject_Z n * P * dval b / dval b)%Q; [field; lra|]. rewrite Hs. field. lra. }
  set (x := (dval a / dval b)%Q) in *.
  assert (Hm : (P <= x * eps)%Q).
  { rewrite Zle_Qle, inject_Z_mult in Hl.
    assert (Hl' : (inject_Z (10 ^ context_prec) * inject_Z d * P <= inject_Z n * P)%Q)
      by (apply Qmult_le_compat_r; [done|lra]).
    rewrite Hx in Hl'. change (inject_Z (10 ^ context_prec)) with (10000000000000000000000000000 # 1)%Q in Hl'.
    pose proof (Qmult_lt_0_compat _ _ Hdq Hp).
    apply (Qmult_le_r _ _ (inject_Z d)); [done|]. unfold eps. lra. }
  unfold dval; cbn [coef expo]. fold P.
  rewrite Zle_Qle in H1, H2. unfold Z.sub in H1.
  rewrite inject_Z_plus, ?inject_Z_opp, inject_Z_mult in H1.
  rewrite inject_Z_plus, inject_Z_mult in H2.
  assert (G1 : ((inject_Z n + - inject_Z d) * P <= inject_Z q * inject_Z d * P)%Q)
    by (apply Qmult_le_compat_r; [done|lra]).
  assert (G2 : (inject_Z q * inject_Z d * P <= (inject_Z n + inject_Z d) * P)%Q)
    by (apply Qmult_le_compat_r; [done|lra]).
  assert (Hmd : (P * inject_Z d <= x * eps * inject_Z d)%Q) by (apply Qmult_le_compat_r; [done|lra]).
  split; apply (Qmult_le_r _ _ (inject_Z d)); try done; lra.
Qed.

Lemma ddiv_bounds a b q :
  (0 <= dval a)%Q → (0 < dval b)%Q → ddiv a b = Ok q →
  (dval a / dval b * (1 - eps) * (1 - eps) <= dval q <= dval a / dval b * (1 + eps) * (1 + eps))%Q.
Proof.
  intros Ha Hb H. destruct eps_bounds as (E1 & E2 & _).
  pose proof (proj1 (dval_sign b) Hb) as Hcb. pose proof (proj1 (dval_sign_nonneg a) Ha) as Hca.
  unfold ddiv in H. destruct (Z.eqb_spec (coef b) 0); [lia|].
  destruct (Z.eqb_spec (coef a) 0) as [Ez|Ez].
  { injection H as <-. assert (Hz : (dval a == 0)%Q) by (unfold dval; rewrite Ez; ring).
    assert (Hq : (dval (mkDecimal 0 (expo a - expo b)) == 0)%Q) by (unfold dval; cbn; ring).
    rewrite Hz, Hq. split; apply Qle_lteq; right; field; lra. }
  assert (Hpos : 0 < coef a) by lia. cbv zeta in H.
  fold (div_shift a b) in H. fold (div_num a b) (div_den a b) (div_expo a b) in H.
  rewrite !Z.sgn_pos, !Z.mul_1_l in H by lia.
  pose proof (div_den_pos a b Hcb) as Hd.
  pose proof (Z.div_mod (div_num a b) (div_den a b) ltac:(lia)) as Hdm.
  pose proof (Z.mod_pos_bound (div_num a b) (div_den a b) Hd) as Hmb.
  assert (Hraw : ∃ raw, q = fix_prec raw ∧
    (dval a / dval b * (1 - eps) <= dval raw <= dval a / dval b * (1 + eps))%Q).
  { destruct (Z.eqb_spec (div_num a b mod div_den a b) 0) as [Em|Em]; apply Ok_inj in H; subst q.
    - eexists. split; [reflexivity|].
      set (s := strip_zeros _ _ _ _).
      change (dval (mkDecimal (coef s) (expo s))) with (dval s). subst s.
      rewrite strip_zeros_value. apply quotient_close; [done..|]. lia.
    - eexists. split; [reflexivity|]. apply quotient_close; [done..|].
      destruct (_ mod 5 =? 0); lia. }
  destruct Hraw as (raw & -> & R1 & R2).
  assert (Hx : (0 <= dval a / dval b)%Q) by (apply Qle_shift_div_l; lra).
  assert (Hr : (0 <= dval raw)%Q).
  { eapply Qle_trans; [|exact R1]. by apply Qmult_le_0_compat. }
  split.
  - eapply Qle_trans; [|by apply fix_prec_lower]. by apply Qmult_le_compat_r.
  - eapply Qle_trans; [by apply fix_prec_upper|]. by apply Qmult_le_compat_r.
Qed.

(** ** Chains of roundings *)

(** A bound carried through [n] roundings. *)
Fixpoint grown (n : nat) (x : Q) : Q :=
  match n with O => x | S n => (grown n x * (1 + eps))%Q end.

Lemma grown_mono n x y : (x <= y)%Q → (grown n x <= grown n y)%Q.
Proof.
  intros H. induction n as [|n IH]; [done|]. cbn. apply Qmult_le_compat_r; [done|apply eps_bounds].
Qed.
Lemma grown_nonneg n x : (0 <= x)%Q → (0 <= grown n x)%Q.
Proof.
  intros H. induction n as [|n IH]; [done|]. cbn. apply Qmult_le_0_compat; [done|apply eps_bounds].
Qed.
Lemma grown_scale n c x : (grown n (c * x) == c * grown n x)%Q.
Proof. induction n as [|n IH]; cbn; [reflexivity|]. rewrite IH. ring. Qed.
Lemma grown_add n m x : grown n (grown m x) = grown (n + m) x.
Proof. induction n as [|n IH]; cbn; [done|]. by rewrite IH. Qed.
#[export] Instance grown_proper n : Proper (Qeq ==> Qeq) (grown n).
Proof. intros x y H. induction n as [|n IH]; cbn; [done|]. by rewrite IH. Qed.

Lemma grown_le n m x : (n <= m)%nat → (0 <= x)%Q → (grown n x <= grown m x)%Q.
Proof.
  intros H Hx. induction H as [|m H IH]; [apply Qle_refl|]. eapply Qle_trans; [exact IH|].
  cbn [grown]. pose proof (grown_nonneg m x Hx). destruct eps_bounds. nra.
Qed.

(** Bounds on a chain of roundings. *)
Lemma grown_9 x : (0 <= x)%Q → (grown 9 x <= x * (1 + (1 # 100000000000000000000000000)))%Q.
Proof.
  intros H. setoid_replace (grown 9 x) with (x * grown 9 1)%Q using relation Qeq
    by (rewrite <- grown_scale, Qmult_1_r; reflexivity).
  apply Qmult_le_l; [done|]. vm_compute. discriminate.
Qed.

(** The same from below. *)
Fixpoint shrunk (n : nat) (x : Q) : Q :=
  match n with O => x | S n => (shrunk n x * (1 - eps))%Q end.

Lemma shrunk_mono n x y : (x <= y)%Q → (shrunk n x <= shrunk n y)%Q.
Proof.
  intros H. induction n as [|n IH]; [done|]. cbn. apply Qmult_le_compat_r; [done|apply eps_bounds].
Qed.
Lemma shrunk_nonneg n x : (0 <= x)%Q → (0 <= shrunk n x)%Q.
Proof.
  intros H. induction n as [|n IH]; [done|]. cbn. apply Qmult_le_0_compat; [done|apply eps_bounds].
Qed.
Lemma shrunk_scale n c x : (shrunk n (c * x) == c * shrunk n x)%Q.
Proof. induction n as [|n IH]; cbn; [reflexivity|]. rewrite IH. ring. Qed.
Lemma shrunk_add n m x : shrunk n (shrunk m x) = shrunk (n + m) x.
Proof. induction n as [|n IH]; cbn; [done|]. by rewrite IH. Qed.
#[export] Instance shrunk_proper n : Proper (Qeq ==> Qeq) (shrunk n).
Proof. intros x y H. induction n as [|n IH]; cbn; [done|]. by rewrite IH. Qed.

Lemma shrunk_10 x : (0 <= x)%Q → (x * (1 - (1 # 100000000000000000000000000)) <= shrunk 10 x)%Q.
Proof.
  intros H. setoid_replace (shrunk 10 x) with (x * shrunk 10 1)%Q using relation Qeq
    by (rewrite <- shrunk_scale, Qmult_1_r; reflexivity).
  apply Qmult_le_l; [done|]. vm_compute. discriminate.
Qed.

Lemma Qdiv_nonneg x y : (0 <= x)%Q → (0 < y)%Q → (0 <= x / y)%Q.
Proof. intros Hx Hy. apply Qle_shift_div_l; [done|]. lra. Qed.

Lemma ddiv_nonneg a b q :
  (0 <= dval a)%Q → (0 < dval b)%Q → ddiv a b = Ok q → (0 <= dval q)%Q.
Proof.
  intros Ha Hb H. destruct (ddiv_bounds a b q Ha Hb H) as [B _]. destruct eps_bounds as (E1 & _).
  eapply Qle_trans; [|exact B]. apply Qmult_le_0_compat; [|done].
  apply Qmult_le_0_compat; [by apply Qdiv_nonneg|done].
Qed.

Lemma ddiv_upper a b q :
  (0 <= dval a)%Q → (0 < dval b)%Q → ddiv a b = Ok q → (dval q <= grown 2 (dval a / dval b))%Q.
Proof. intros Ha Hb H. apply (ddiv_bounds a b q Ha Hb H). Qed.

Lemma positive_nonzero (x : Q) : (0 < x)%Q → ¬ (x == 0)%Q.
Proof. intros H E. rewrite E in H. by apply Qlt_irrefl in H. Qed.

Lemma ddiv_pos_total a b : (0 < dval b)%Q → ∃ q, ddiv a b = Ok q.
Proof. intros H. by apply ddiv_total, positive_nonzero. Qed.

(** ** Integral values and steps *)

Lemma to_integral_floor d :
  (dval (to_integral_value ROUND_FLOOR d) <= dval d)%Q ∧
  (dval d < dval (to_integral_value ROUND_FLOOR d) + 1)%Q ∧
  ((0 <= dval d)%Q → (0 <= dval (to_integral_value ROUND_FLOOR d))%Q).
Proof.
  unfold to_integral_value. destruct (Z.leb_spec 0 (expo d)) as [He|He]; [split_and!; [lra|lra|done]|].
  assert (Hp : 0 < 10 ^ - expo d) by (apply pow10_pos; lia).
  cbn [div_round]. set (m := 10 ^ - expo d) in *. set (f := coef d / m).
  assert (Hf : m * f <= coef d < m * (f + 1)) by
    (split; [apply Z.mul_div_le; lia|rewrite Z.add_1_r; apply Z.mul_succ_div_gt; lia]).
  assert (Hval : (dval d * inject_Z m == inject_Z (coef d))%Q).
  { unfold dval. unfold m. rewrite <- p10_inject, <- Qmult_assoc, <- p10_add by lia.
    rewrite Z.add_opp_diag_r, p10_0. ring. }
  assert (Hm : (0 < inject_Z m)%Q) by (change 0%Q with (inject_Z 0); by rewrite <- Zlt_Qlt).
  assert (Hfv : (dval (mkDecimal f 0) == inject_Z f)%Q) by (unfold dval; cbn [coef expo]; rewrite p10_0; ring).
  rewrite Hfv. destruct Hf as [F1 F2]. rewrite Zle_Qle, inject_Z_mult in F1.
  rewrite Zlt_Qlt, inject_Z_mult, inject_Z_plus in F2. rewrite <- Hval in F1, F2.
  split_and!.
  - apply (Qmult_le_r _ _ (inject_Z m)); [done|]. lra.
  - apply (Qmult_lt_r _ _ (inject_Z m)); [done|]. change (inject_Z 1) with 1%Q in F2. lra.
  - intros Hd. change 0%Q with (inject_Z 0). rewrite <- Zle_Qle.
    apply dval_sign_nonneg in Hd. apply Z.div_pos; lia.
Qed.

Lemma to_integral_ceiling d : (dval d <= dval (to_integral_value ROUND_CEILING d))%Q.
Proof.
  unfold to_integral_value. destruct (Z.leb_spec 0 (expo d)) as [He|He]; [apply Qle_refl|].
  assert (Hp : 0 < 10 ^ - expo d) by (apply pow10_pos; lia).
  cbn [div_round]. set (m := 10 ^ - expo d) in *.
  assert (Hf : coef d <= m * - (- coef d / m))
    by (pose proof (Z.mul_div_le (- coef d) m ltac:(lia)); lia).
  assert (Hval : (dval d * inject_Z m == inject_Z (coef d))%Q).
  { unfold dval, m. rewrite <- p10_inject, <- Qmult_assoc, <- p10_add by lia.
    rewrite Z.add_opp_diag_r, p10_0. ring. }
  assert (Hm : (0 < inject_Z m)%Q) by (change 0%Q with (inject_Z 0); by rewrite <- Zlt_Qlt).
  unfold dval at 2. cbn [coef expo]. rewrite p10_0, Qmult_1_r.
  apply (Qmult_le_r _ _ (inject_Z m)); [done|]. rewrite Hval, <- inject_Z_mult, <- Zle_Qle. lia.
Qed.

Lemma to_integral_integer mode d : ∃ n, (dval (to_integral_value mode d) == inject_Z n)%Q.
Proof.
  unfold to_integral_value. destruct (Z.leb_spec 0 (expo d)) as [He|He].
  - exists (coef d * 10 ^ expo d). unfold dval. rewrite p10_inject, inject_Z_mult by done. reflexivity.
  - eexists. unfold dval. cbn [coef expo]. rewrite p10_0, Qmult_1_r. reflexivity.
Qed.

Lemma dabs_fits_value d : fits d = true → (dval (dabs d) == Qabs (dval d))%Q.
Proof.
  intros H. unfold dabs. rewrite fix_prec_id; [apply dval_raw_abs|].
  unfold fits in *. cbn. by rewrite Z.abs_involutive.
Qed.

Lemma dabs_sub_pos a b : ¬ (dval a == dval b)%Q → (0 < dval (dabs (a - b)%dec))%Q.
Proof.
  intros Hn. rewrite dabs_fits_value by apply dsub_fits.
  rewrite <- dval_raw_abs. apply dval_sign. cbn [raw_abs coef]. apply Z.abs_pos. intros Hz.
  apply Hn. destruct (Q_dec (dval a) (dval b)) as [[H|H]|H]; [|apply dsub_pos in H|done].
  - exfalso. apply Qlt_minus_iff in H.
    assert (Hneg : (0 < dval (raw_neg (raw_add a (raw_neg b))))%Q)
      by (rewrite dval_raw_neg, dval_raw_add, dval_raw_neg; lra).
    apply fix_prec_pos in Hneg. rewrite fix_prec_neg in Hneg.
    change (fix_prec (raw_add a (raw_neg b))) with (a - b)%dec in Hneg.
    unfold dval in Hneg. rewrite Hz in Hneg. change (inject_Z 0) with 0%Q in Hneg. lra.
  - exfalso. apply dval_sign in H. lia.
Qed.

(** ** Minima and maxima *)

Lemma dmin_le_l a b : (dval (dmin a b) <= dval a)%Q.
Proof.
  unfold dmin. destruct (dltb b a) eqn:E; [|lra]. apply dltb_spec in E. lra.
Qed.
Lemma dmin_le_r a b : (dval (dmin a b) <= dval b)%Q.
Proof.
  unfold dmin. destruct (dltb b a) eqn:E; [lra|]. apply dltb_false in E. lra.
Qed.
Lemma foldl_dmin_le l x : (dval (foldl dmin x l) <= dval x)%Q.
Proof.
  revert x. induction l as [|y l IH]; cbn; intros x; [lra|].
  eapply Qle_trans; [apply IH|apply dmin_le_l].
Qed.
Lemma foldl_dmin_pos l x :
  (0 < dval (foldl dmin x l))%Q → Forall (λ y, (0 < dval y)%Q) (x :: l).
Proof.
  revert x. induction l as [|y l IH]; cbn; intros x H; [by repeat constructor|].
  apply IH in H. apply Forall_cons in H as [H1 H2].
  pose proof (dmin_le_l x y). pose proof (dmin_le_r x y).
  repeat constructor; [lra|lra|done].
Qed.

Lemma dmin_cases a b : dmin a b = a ∨ dmin a b = b.
Proof. unfold dmin. destruct (dltb b a); auto. Qed.
Lemma dmax_cases a b : dmax a b = a ∨ dmax a b = b.
Proof. unfold dmax. destruct (dltb a b); auto. Qed.
Lemma dmax_ge_l a b : (dval a <= dval (dmax a b))%Q.
Proof.
  unfold dmax. destruct (dltb a b) eqn:E; [|lra]. apply dltb_spec in E. lra.
Qed.
Lemma dmax_ge_r a b : (dval b <= dval (dmax a b))%Q.
Proof.
  unfold dmax. destruct (dltb a b) eqn:E; [lra|]. apply dltb_false in E. lra.
Qed.

(** Read the decimal guards as facts about rationals. *)
Ltac decimal_facts :=
  repeat match goal with
  | H : (_ || _) = false |- _ => apply orb_false in H as [? ?]
  | H : (_ && _) = true |- _ => apply andb_true in H as [? ?]
  | H : negb _ = false |- _ => apply negb_false in H
  | H : negb _ = true |- _ => apply negb_true in H
  | H : deqb _ _ = true |- _ => apply deqb_spec in H
  | H : deqb _ _ = false |- _ => apply deqb_false in H
  | H : dltb _ _ = true |- _ => apply dltb_spec in H
  | H : dltb _ _ = false |- _ => apply dltb_false in H
  | H : dleb _ _ = true |- _ => apply dleb_spec in H
  | H : dleb _ _ = false |- _ => apply dleb_false in H
  | H : bool_decide _ = true |- _ => apply bool_decide_eq_true_1 in H
  | H : bool_decide _ = false |- _ => apply bool_decide_eq_false_1 in H
  end; rewrite ?dval_d0 in *.
