(* ===== verification/DecimalContext.v ===== *)
(** * Decimal arithmetic in a local context

    The code that selects instruments and reviews trades computes under
    [localcontext(Context(prec=38, rounding=ROUND_HALF_EVEN))].  The operations
    of [PyDecimal] at any precision, and that they are those operations at the
    default one. *)

From Stdlib Require Import QArith Lqa.
From S2P Require Import Prelude PyString PyDecimal DecimalFacts.
#[local] Open Scope Z_scope.

Section precision.
Context (prec : Z).

Definition fix_at (d : Decimal) : Decimal :=
  let nd := ndigits (coef d) in
  if nd <=? prec then d
  else
    let k := nd - prec in
    let q := div_round ROUND_HALF_EVEN (coef d) (10 ^ k) in
    if ndigits q <=? prec then mkDecimal q (expo d + k)
    else mkDecimal (q / 10) (expo d + k + 1).

Definition add_at (a b : Decimal) : Decimal := fix_at (raw_add a b).
Definition sub_at (a b : Decimal) : Decimal := fix_at (raw_add a (raw_neg b)).
Definition mul_at (a b : Decimal) : Decimal := fix_at (raw_mul a b).
Definition neg_at (a : Decimal) : Decimal := fix_at (raw_neg a).
Definition abs_at (a : Decimal) : Decimal := fix_at (raw_abs a).

(** [sum(l, Decimal(0))] *)
Definition sum_at (l : list Decimal) : Decimal := fold_left add_at l d0.

Definition div_at (a b : Decimal) : result Decimal :=
  if coef b =? 0 then
    Raise (if coef a =? 0 then DecimalInvalidOperation else DecimalDivisionByZero)
  else if coef a =? 0 then Ok (mkDecimal 0 (expo a - expo b))
  else
    let shift := ndigits (coef b) - ndigits (coef a) + prec + 1 in
    let e := expo a - expo b - shift in
    let n := Z.abs (coef a) * 10 ^ Z.max 0 shift in
    let d := Z.abs (coef b) * 10 ^ Z.max 0 (- shift) in
    let q := n / d in
    let sgn := Z.sgn (coef a) * Z.sgn (coef b) in
    if n mod d =? 0 then
      let s := strip_zeros (Z.to_nat (prec + 4)) q e (expo a - expo b) in
      Ok (fix_at (mkDecimal (sgn * coef s) (expo s)))
    else
      let q := if q mod 5 =? 0 then q + 1 else q in
      Ok (fix_at (mkDecimal (sgn * q) e)).

(** [d.normalize()] *)
Definition normalize_at (d : Decimal) : Decimal :=
  let r := fix_at d in
  if coef r =? 0 then mkDecimal 0 0
  else strip_zeros (Z.to_nat (prec + 4)) (coef r) (expo r) (expo r + (prec + 4)).

(** [_canonical_decimal] under the context. *)
Definition canonical_at (d : Decimal) : str :=
  let n := normalize_at d in
  if coef n =? 0 then "0" else format_f n.

Lemma sign_div_round c k :
  0 <= k → 0 <= c → 0 <= div_round ROUND_HALF_EVEN c (10 ^ k).
Proof.
  intros Hk Hc. pose proof (pow10_pos k Hk). cbn [div_round].
  assert (0 <= c / 10 ^ k) by by apply Z.div_pos.
  destruct (_ ?= _); [destruct (Z.even _); lia|lia|lia].
Qed.

Hypothesis positive : 0 < prec.

Lemma fix_at_nonneg d : (0 <= dval d)%Q → (0 <= dval (fix_at d))%Q.
Proof.
  rewrite !dval_sign_nonneg. unfold fix_at. cbv zeta. intros H.
  destruct (Z.leb_spec (ndigits (coef d)) prec); [done|].
  pose proof (sign_div_round (coef d) (ndigits (coef d) - prec) ltac:(lia) H).
  destruct (_ <=? _); cbn; [done|]. by apply Z.div_pos.
Qed.

Lemma strip_zeros_sign fuel q e ideal : 0 <= q → 0 <= coef (strip_zeros fuel q e ideal).
Proof.
  revert q e. induction fuel as [|fuel IH]; intros q e Hq; [done|]. cbn [strip_zeros].
  destruct (_ && _); [|done]. apply IH. by apply Z.div_pos.
Qed.

Lemma add_at_nonneg a b : (0 <= dval a)%Q → (0 <= dval b)%Q → (0 <= dval (add_at a b))%Q.
Proof. intros Ha Hb. apply fix_at_nonneg. rewrite dval_raw_add. lra. Qed.

Lemma abs_at_nonneg a : (0 <= dval (abs_at a))%Q.
Proof. apply fix_at_nonneg. apply dval_sign_nonneg. cbn. lia. Qed.

Lemma sum_at_nonneg l : Forall (λ d, (0 <= dval d)%Q) l → (0 <= dval (sum_at l))%Q.
Proof.
  unfold sum_at. assert (H : (0 <= dval d0)%Q) by (rewrite dval_d0; lra). revert H. generalize d0.
  induction l as [|x l IH]; intros a Ha Hl; [done|]. apply Forall_cons in Hl as [Hx Hl]. cbn.
  apply IH; [by apply add_at_nonneg|done].
Qed.

Lemma div_at_total a b : (0 < dval b)%Q → ∃ q, div_at a b = Ok q.
Proof.
  intros Hb%dval_sign. unfold div_at. destruct (Z.eqb_spec (coef b) 0); [lia|].
  destruct (_ =? 0); [by eexists|]. cbv zeta. destruct (_ =? 0); by eexists.
Qed.

Lemma div_at_nonneg a b q :
  (0 <= dval a)%Q → (0 < dval b)%Q → div_at a b = Ok q → (0 <= dval q)%Q.
Proof.
  rewrite dval_sign_nonneg, dval_sign. intros Ha Hb. unfold div_at.
  destruct (Z.eqb_spec (coef b) 0); [lia|]. destruct (Z.eqb_spec (coef a) 0).
  { intros H%Ok_inj. subst q. apply dval_sign_nonneg. done. }
  cbv zeta. rewrite (Z.sgn_pos (coef a)), (Z.sgn_pos (coef b)) by lia.
  set (num := Z.abs (coef a) * _). set (den := Z.abs (coef b) * _).
  assert (Hn : 0 <= num / den).
  { apply Z.div_pos; subst num den; [apply Z.mul_nonneg_nonneg; [lia|apply Z.pow_nonneg; lia]|].
    apply Z.mul_pos_pos; [lia|apply Z.pow_pos_nonneg; lia]. }
  destruct (_ =? 0); intros H%Ok_inj; subst q; apply fix_at_nonneg, dval_sign_nonneg; cbn [coef].
  - pose proof (strip_zeros_sign (Z.to_nat (prec + 4)) (num / den)
      (expo a - expo b - (ndigits (coef b) - ndigits (coef a) + prec + 1)) (expo a - expo b) Hn). lia.
  - destruct (_ =? 0); lia.
Qed.

(** ** Results fit the precision *)

Definition fits_at (d : Decimal) : Prop := ndigits (coef d) <= prec.

Lemma fix_at_id d : fits_at d → fix_at d = d.
Proof. unfold fits_at, fix_at. intros H. by destruct (Z.leb_spec (ndigits (coef d)) prec); [|lia]. Qed.

Lemma fix_at_fits d : fits_at (fix_at d).
Proof.
  unfold fix_at, fits_at. destruct (Z.leb_spec (ndigits (coef d)) prec) as [|Hnd]; [done|]. cbv zeta.
  set (k := ndigits (coef d) - prec). set (q := div_round _ _ _).
  destruct (Z.leb_spec (ndigits q) prec) as [|Hq]; [done|]. cbn [coef].
  assert (Hc : coef d ≠ 0) by (intros E; rewrite E in Hnd; change (ndigits 0) with 1 in Hnd; lia).
  pose proof (ndigits_spec _ Hc) as [_ Hb]. pose proof (pow10_pos k ltac:(lia)) as Hk.
  replace (ndigits (coef d)) with (prec + k) in Hb by lia. rewrite Z.pow_add_r in Hb by lia.
  assert (q <= 10 ^ prec) by (apply div_round_le; lia).
  assert (- 10 ^ prec <= q) by (apply div_round_ge; lia).
  pose proof (pow10_mono 1 prec ltac:(lia)) as Hmono.
  assert (Hd : Z.abs (q / 10) < 10 ^ prec).
  { revert Hmono H H0. generalize (10 ^ prec) q. intros P x. change (10 ^ 1) with 10. intros.
    pose proof (Z.div_mod x 10). pose proof (Z.mod_pos_bound x 10). lia. }
  apply ndigits_le in Hd; [|lia]. destruct Hd as [|E0]; [done|]. rewrite E0. change (ndigits 0) with 1. lia.
Qed.

Lemma neg_at_exact d : fits_at d → neg_at d = raw_neg d.
Proof. intros H. apply fix_at_id. unfold fits_at in *. cbn. by rewrite ndigits_opp. Qed.

Lemma sum_at_fits l : fits_at (sum_at l).
Proof.
  unfold sum_at. assert (H : fits_at d0) by (unfold fits_at; change (ndigits (coef d0)) with 1; lia).
  revert H. generalize d0.
  induction l as [|x l IH]; intros a Ha; [done|]. apply IH, fix_at_fits.
Qed.
End precision.

(** At the default precision these are the operations of [PyDecimal]. *)
Lemma default_context a b :
  fix_at context_prec a = fix_prec a ∧ add_at context_prec a b = dadd a b ∧
  sub_at context_prec a b = dsub a b ∧ mul_at context_prec a b = dmul a b ∧
  div_at context_prec a b = ddiv a b ∧ normalize_at context_prec a = normalize a.
Proof. split_and!; reflexivity. Qed.

(** The context of the selection and of the execution review. *)
Definition DECIMAL_PRECISION : Z := 38.
