(* ===== verification/Identities.v ===== *)
(** * Identities ([domain/identities.py], [domain/exposure_family.py]) *)

From S2P Require Import Prelude PyString.

(** [Literal["long", "short"]] *)
Inductive PositionSide := long | short.
#[export] Instance PositionSide_eq_dec : EqDecision PositionSide.
Proof. solve_decision. Defined.

Definition side_value (s : PositionSide) : str :=
  match s with long => "long" | short => "short" end.

(** [Literal["buy", "sell"]] *)
Inductive OrderSide := buy | sell.
#[export] Instance OrderSide_eq_dec : EqDecision OrderSide.
Proof. solve_decision. Defined.

(** [Literal["regular", "conditional"]] *)
Inductive OrderNamespace := regular | conditional.
#[export] Instance OrderNamespace_eq_dec : EqDecision OrderNamespace.
Proof. solve_decision. Defined.

Inductive ExposureFamily := long_continuation | opening_range | rally_failure_short.
#[export] Instance ExposureFamily_eq_dec : EqDecision ExposureFamily.
Proof. solve_decision. Defined.

Record NettingDomain := mkNettingDomain {
  nd_venue_id : str;
  nd_account_id : str;
  nd_exchange_instrument_id : str;
  nd_position_side : PositionSide
}.
#[export] Instance NettingDomain_eq_dec : EqDecision NettingDomain.
Proof. solve_decision. Defined.

Record RuntimeIdentity := mkRuntimeIdentity {
  ri_runtime_profile_id : str;
  ri_strategy_group_id : str;
  ri_strategy_version_id : str;
  ri_event_spec_id : str
}.
#[export] Instance RuntimeIdentity_eq_dec : EqDecision RuntimeIdentity.
Proof. solve_decision. Defined.

Record TicketIdentity := mkTicketIdentity {
  ti_ticket_id : str;
  ti_exposure_episode_id : str;
  ti_signal_event_id : str;
  ti_runtime : RuntimeIdentity;
  ti_netting_domain : NettingDomain
}.
#[export] Instance TicketIdentity_eq_dec : EqDecision TicketIdentity.
Proof. solve_decision. Defined.

(** [_FrozenIdentity._require_non_blank_strings] on the string fields. *)
Definition require_non_blank_strings (values : list str) : result unit :=
  validate_fields ((λ v, (blank v, "identity values must be non-blank")) <$> values).

Definition validate_NettingDomain (d : NettingDomain) : result NettingDomain :=
  require_non_blank_strings
    [nd_venue_id d; nd_account_id d; nd_exchange_instrument_id d];;
  mret (mkNettingDomain (strip (nd_venue_id d)) (strip (nd_account_id d))
          (strip (nd_exchange_instrument_id d)) (nd_position_side d)).

Definition validate_RuntimeIdentity (r : RuntimeIdentity) : result RuntimeIdentity :=
  require_non_blank_strings
    [ri_runtime_profile_id r; ri_strategy_group_id r; ri_strategy_version_id r;
     ri_event_spec_id r];;
  mret (mkRuntimeIdentity (strip (ri_runtime_profile_id r)) (strip (ri_strategy_group_id r))
          (strip (ri_strategy_version_id r)) (strip (ri_event_spec_id r))).

(** Nested models are validated instances; only the strings are checked. *)
Definition validate_TicketIdentity (t : TicketIdentity) : result TicketIdentity :=
  require_non_blank_strings
    [ti_ticket_id t; ti_exposure_episode_id t; ti_signal_event_id t];;
  mret (mkTicketIdentity (strip (ti_ticket_id t)) (strip (ti_exposure_episode_id t))
          (strip (ti_signal_event_id t)) (ti_runtime t) (ti_netting_domain t)).

(** [NettingDomain.key] *)
Definition netting_domain_key (d : NettingDomain) : str :=
  nd_venue_id d +:+ ":" +:+ nd_account_id d +:+ ":" +:+
  nd_exchange_instrument_id d +:+ ":" +:+ side_value (nd_position_side d).

(** ** The key determines the domain *)

Fixpoint has_char (c : ascii) (s : str) : bool :=
  match s with
  | EmptyString => false
  | String c' s => bool_decide (c = c') || has_char c s
  end.

Definition colon : ascii := ascii_of_N 58.

Lemma append_cons c (a b : str) : String c a +:+ b = String c (a +:+ b).
Proof. done. Qed.
Lemma append_nil (b : str) : EmptyString +:+ b = b.
Proof. done. Qed.

Lemma split_at_char c a a' b b' :
  has_char c a = false → has_char c a' = false →
  a +:+ String c b = a' +:+ String c b' → a = a' ∧ b = b'.
Proof.
  revert a'. induction a as [|x a IH]; intros [|x' a'] Ha Ha' E; cbn in *.
  - by injection E.
  - injection E as E1 E2. apply orb_false in Ha' as [Hc _].
    by apply bool_decide_false in Hc.
  - injection E as E1 E2. apply orb_false in Ha as [Hc _].
    by apply bool_decide_false in Hc.
  - apply orb_false in Ha as [_ Ha], Ha' as [_ Ha']. injection E as -> E.
    destruct (IH a' Ha Ha' E) as [-> ->]. done.
Qed.

Lemma length_append (a b : str) :
  String.length (a +:+ b) = (String.length a + String.length b)%nat.
Proof. induction a as [|c a IH]; [done|]. rewrite append_cons. cbn. by rewrite IH. Qed.

Lemma append_inj_length (a a' b b' : str) :
  String.length b = String.length b' → a +:+ b = a' +:+ b' → a = a' ∧ b = b'.
Proof.
  revert a'. induction a as [|c a IH]; intros [|c' a'] Hl E;
    rewrite ?append_cons, ?append_nil in E.
  - done.
  - subst b. cbn in Hl. rewrite length_append in Hl. lia.
  - subst b'. cbn in Hl. rewrite length_append in Hl. lia.
  - injection E as -> E. destruct (IH a' Hl E) as [-> ->]. done.
Qed.

Fixpoint last_char (s : str) : option ascii :=
  match s with
  | EmptyString => None
  | String c EmptyString => Some c
  | String _ s => last_char s
  end.

Lemma last_char_append a c s : last_char (a +:+ String c s) = last_char (String c s).
Proof.
  induction a as [|x a IH]; [done|]. rewrite append_cons, <- IH. cbn.
  by destruct (a +:+ String c s) eqn:E; [destruct a|].
Qed.

Lemma append_side_inj (a a' : str) s s' :
  a +:+ String colon (side_value s) = a' +:+ String colon (side_value s') → a = a' ∧ s = s'.
Proof.
  intros E. assert (s = s') as <-.
  { apply (f_equal last_char) in E. rewrite !last_char_append in E. by destruct s, s'. }
  by apply append_inj_length in E as [-> _].
Qed.

(** ** Validation is idempotent *)

Lemma require_non_blank_strip (l : list str) u :
  require_non_blank_strings l = Ok u → require_non_blank_strings (strip <$> l) = Ok u.
Proof.
  unfold require_non_blank_strings. rewrite !validate_fields_Ok, !Forall_fmap.
  intros H. eapply Forall_impl; [exact H|]. intros s. cbn. by rewrite blank_strip.
Qed.

(** Two Netting Domains whose venue and account names hold no colon have
    the same key only when they are equal. *)
Lemma netting_domain_key_inj_aux d d' :
  has_char colon (nd_venue_id d) = false → has_char colon (nd_account_id d) = false →
  has_char colon (nd_venue_id d') = false → has_char colon (nd_account_id d') = false →
  netting_domain_key d = netting_domain_key d' → d = d'.
Proof.
  destruct d as [v a i s], d' as [v' a' i' s']. unfold netting_domain_key. cbn.
  intros Hv Ha Hv' Ha' E.
  apply (split_at_char colon) in E as [-> E]; [|done..].
  apply (split_at_char colon) in E as [-> E]; [|done..].
  by apply append_side_inj in E as [-> ->].
Qed.
