(* ===== verification/PostFillRisk.v ===== *)
(** * Post-fill risk ([domain/post_fill_risk.py])

    The disposition of one fully filled ENTRY against the limits frozen in its
    Ticket. *)

From Stdlib Require Import QArith Qabs Lqa.
From S2P Require Import Prelude PyString PyDecimal DecimalFacts Identities.
#[local] Open Scope Z_scope.

Inductive PostFillRiskStatus :=
  | WITHIN_BUDGET | TOLERATED_OVERRUN | HARD_OVERRUN | PROTECTION_DIRECTION_INVALID.
#[export] Instance PostFillRiskStatus_eq_dec : EqDecision PostFillRiskStatus.
Proof. solve_decision. Defined.

Definition post_fill_risk_status_value (s : PostFillRiskStatus) : str :=
  match s with
  | WITHIN_BUDGET => "within_budget"
  | TOLERATED_OVERRUN => "tolerated_overrun"
  | HARD_OVERRUN => "hard_overrun"
  | PROTECTION_DIRECTION_INVALID => "protection_direction_invalid"
  end.

Inductive PostFillDisposition := NORMAL | FLATTEN_AFTER_PROTECTION | FLATTEN_IMMEDIATELY.
#[export] Instance PostFillDisposition_eq_dec : EqDecision PostFillDisposition.
Proof. solve_decision. Defined.

Record PostFillRiskRequest := mkPostFillRiskRequest {
  pr_position_side : PositionSide;
  pr_filled_quantity : Decimal;
  pr_average_fill_price : Decimal;
  pr_initial_stop_price : Decimal;
  pr_planned_stop_risk_budget : Decimal;
  pr_post_fill_stop_risk_limit : Decimal
}.

Definition validate_PostFillRiskRequest (r : PostFillRiskRequest) : result PostFillRiskRequest :=
  let positive v := ((v <=? d0)%dec, "post-fill risk values must be finite and positive") in
  validate_fields (positive <$>
    [pr_filled_quantity r; pr_average_fill_price r; pr_initial_stop_price r;
     pr_planned_stop_risk_budget r; pr_post_fill_stop_risk_limit r]);;
  validate_model
    [((pr_post_fill_stop_risk_limit r <? pr_planned_stop_risk_budget r)%dec,
      "post-fill limit cannot undercut the planned budget")];;
  mret r.

Record PostFillRiskDecision := mkPostFillRiskDecision {
  pd_status : PostFillRiskStatus;
  pd_disposition : PostFillDisposition;
  pd_actual_stop_risk : Decimal
}.
#[export] Instance PostFillRiskDecision_eq_dec : EqDecision PostFillRiskDecision.
Proof. solve_decision. Defined.

Definition stop_is_protective (r : PostFillRiskRequest) : bool :=
  match pr_position_side r with
  | long => (pr_initial_stop_price r <? pr_average_fill_price r)%dec
  | short => (pr_initial_stop_price r >? pr_average_fill_price r)%dec
  end.

Definition assess_post_fill_risk (r : PostFillRiskRequest) : PostFillRiskDecision :=
  let stop_distance := dabs (pr_average_fill_price r - pr_initial_stop_price r)%dec in
  let actual_stop_risk := (pr_filled_quantity r * stop_distance)%dec in
  if negb (stop_is_protective r) then
    mkPostFillRiskDecision PROTECTION_DIRECTION_INVALID FLATTEN_IMMEDIATELY actual_stop_risk
  else if (actual_stop_risk >? pr_post_fill_stop_risk_limit r)%dec then
    mkPostFillRiskDecision HARD_OVERRUN FLATTEN_AFTER_PROTECTION actual_stop_risk
  else if (actual_stop_risk >? pr_planned_stop_risk_budget r)%dec then
    mkPostFillRiskDecision TOLERATED_OVERRUN NORMAL actual_stop_risk
  else mkPostFillRiskDecision WITHIN_BUDGET NORMAL actual_stop_risk.
