(* ===== verification/Ticket.v ===== *)
(** * Trade Ticket ([domain/ticket.py])

    The immutable execution decision of one exposure episode: the record, its
    pydantic validators, and its deterministic identity. *)

From Stdlib Require Import QArith.
From S2P Require Import Prelude PyString Sha256 PyDecimal DecimalFacts Identities.
#[local] Open Scope Z_scope.

Inductive EntryOrderType := MARKET | LIMIT.
#[export] Instance EntryOrderType_eq_dec : EqDecision EntryOrderType.
Proof. solve_decision. Defined.

Inductive TicketStatus :=
  | ISSUED | EXPIRED_BEFORE_SUBMIT | TICKET_LEVERAGE_REJECTED | TICKET_ENTRY_REJECTED
  | TICKET_ENTRY_RECONCILED_ABSENT | TICKET_TERMINAL.
#[export] Instance TicketStatus_eq_dec : EqDecision TicketStatus.
Proof. solve_decision. Defined.

(** The [Literal] fields with one legal value ([margin_mode],
    [cross_margin_stress_model_id]) carry no information and are omitted. *)
Record TradeTicket := mkTradeTicket {
  tk_identity : TicketIdentity;
  tk_owner_policy_id : str;
  tk_owner_policy_version : Z;
  tk_runtime_scope_id : str;
  tk_runtime_scope_version : Z;
  tk_universe_version_id : str;
  tk_universe_semantic_digest : str;
  tk_fact_digest : str;
  tk_exposure_family : ExposureFamily;
  tk_active_family_ticket_count_at_claim : Z;
  tk_family_ticket_limit : Z;
  tk_directional_risk_at_stop_at_claim : Decimal;
  tk_directional_stop_risk_limit_fraction : Decimal;
  tk_min_materialization_ratio : Decimal;
  tk_minimum_stop_risk_budget : Decimal;
  tk_exit_policy_id : str;
  tk_exit_policy_semantic_hash : str;
  tk_exit_binding_id : option str;
  tk_exit_binding_semantic_hash : option str;
  tk_exit_binding_authority_version : option Z;
  tk_capacity_claim_id : str;
  tk_created_at_ms : Z;
  tk_expires_at_ms : Z;
  tk_entry_reference_price : Decimal;
  tk_quantity : Decimal;
  tk_notional : Decimal;
  tk_planned_stop_risk_budget : Decimal;
  tk_post_fill_stop_risk_limit : Decimal;
  tk_selected_leverage : Z;
  tk_leverage_change_required : bool;
  tk_reserved_margin : Decimal;
  tk_risk_reservation_basis : str;
  tk_post_stop_stress_multiple : Decimal;
  tk_claim_stress_proof_digest : str;
  tk_risk_at_stop : Decimal;
  tk_entry_order_type : EntryOrderType;
  tk_entry_limit_price : option Decimal;
  tk_initial_stop_price : Decimal;
  tk_pre_tp1_reclaim_price : option Decimal;
  tk_exposure_session_end_ms : option Z;
  tk_take_profit_prices : list Decimal;
  tk_take_profit_quantities : list Decimal;
  tk_status : TicketStatus;
  tk_selection_authority_id : option str
}.

(** [str(value or <empty>).strip() or None] *)
Definition normalize_optional (o : option str) : option str :=
  match o with
  | Some s => if blank s then None else Some (strip s)
  | None => None
  end.

(** The [mode="before"] validators that rewrite their field. *)
Definition normalize_ticket (t : TradeTicket) : TradeTicket :=
  mkTradeTicket (tk_identity t) (strip (tk_owner_policy_id t)) (tk_owner_policy_version t)
    (strip (tk_runtime_scope_id t)) (tk_runtime_scope_version t)
    (strip (tk_universe_version_id t)) (strip (tk_universe_semantic_digest t))
    (strip (tk_fact_digest t)) (tk_exposure_family t)
    (tk_active_family_ticket_count_at_claim t) (tk_family_ticket_limit t)
    (tk_directional_risk_at_stop_at_claim t) (tk_directional_stop_risk_limit_fraction t)
    (tk_min_materialization_ratio t) (tk_minimum_stop_risk_budget t)
    (strip (tk_exit_policy_id t)) (strip (tk_exit_policy_semantic_hash t))
    (normalize_optional (tk_exit_binding_id t)) (tk_exit_binding_semantic_hash t)
    (tk_exit_binding_authority_version t) (strip (tk_capacity_claim_id t))
    (tk_created_at_ms t) (tk_expires_at_ms t) (tk_entry_reference_price t) (tk_quantity t)
    (tk_notional t) (tk_planned_stop_risk_budget t) (tk_post_fill_stop_risk_limit t)
    (tk_selected_leverage t) (tk_leverage_change_required t) (tk_reserved_margin t)
    (strip (tk_risk_reservation_basis t)) (tk_post_stop_stress_multiple t)
    (strip (tk_claim_stress_proof_digest t)) (tk_risk_at_stop t) (tk_entry_order_type t)
    (tk_entry_limit_price t) (tk_initial_stop_price t) (tk_pre_tp1_reclaim_price t)
    (tk_exposure_session_end_ms t) (tk_take_profit_prices t) (tk_take_profit_quantities t)
    (tk_status t) (normalize_optional (tk_selection_authority_id t)).

Definition opt_test {A} (f : A → bool) (o : option A) : bool :=
  match o with Some a => f a | None => false end.

Definition nonpositive (d : Decimal) : bool := (d <=? d0)%dec.
Definition negative (d : Decimal) : bool := (d <? d0)%dec.

Lemma nonpositive_false d : nonpositive d = false ↔ (0 < dval d)%Q.
Proof. unfold nonpositive. by rewrite dleb_false, dval_d0. Qed.
Lemma negative_false d : negative d = false ↔ (0 <= dval d)%Q.
Proof. unfold negative. by rewrite dltb_false, dval_d0. Qed.

Lemma existsb_false {A} (f : A → bool) l : existsb f l = false ↔ Forall (λ x, f x = false) l.
Proof.
  induction l as [|x l IH]; cbn; [by split|]. by rewrite orb_false, Forall_cons, IH.
Qed.

(** The field validators; failures are grouped by validator. *)
Definition ticket_field_checks (t : TradeTicket) : list (bool * str) :=
  ((λ v, (blank v, "ticket references must be non-blank strings")) <$>
     [tk_owner_policy_id t; tk_runtime_scope_id t; tk_universe_version_id t;
      tk_exit_policy_id t; tk_capacity_claim_id t; tk_risk_reservation_basis t]) ++
  ((λ v, (negb (is_sha256_digest (strip v)), "ticket digests must be exact sha256 identities")) <$>
     [tk_fact_digest t; tk_universe_semantic_digest t; tk_claim_stress_proof_digest t;
      tk_exit_policy_semantic_hash t]) ++
  [(opt_test (λ v, negb (is_sha256_digest v)) (tk_exit_binding_semantic_hash t),
    "Ticket Binding hash must be exact sha256");
   (opt_test (λ v, v <=? 0) (tk_exit_binding_authority_version t),
    "Ticket Binding authority version must be positive")] ++
  ((λ v, (v <=? 0, "ticket authority versions must be positive")) <$>
     [tk_owner_policy_version t; tk_runtime_scope_version t]) ++
  ((λ v, (nonpositive v, "financial value must be positive")) <$>
     [tk_quantity t; tk_notional t; tk_planned_stop_risk_budget t;
      tk_post_fill_stop_risk_limit t; tk_reserved_margin t; tk_entry_reference_price t;
      tk_initial_stop_price t; tk_post_stop_stress_multiple t;
      tk_directional_stop_risk_limit_fraction t; tk_min_materialization_ratio t;
      tk_minimum_stop_risk_budget t]) ++
  ((λ v, (negative v, "risk_at_stop must be nonnegative")) <$>
     [tk_risk_at_stop t; tk_directional_risk_at_stop_at_claim t]) ++
  [(opt_test nonpositive (tk_pre_tp1_reclaim_price t), "pre-TP1 reclaim price must be positive");
   (tk_selected_leverage t <=? 0, "selected leverage must be a positive integer");
   (tk_active_family_ticket_count_at_claim t <? 0, "active Family Ticket count cannot be negative");
   (tk_family_ticket_limit t <=? 0, "Family Ticket limit must be positive");
   (existsb nonpositive (tk_take_profit_prices t), "take-profit prices must be positive");
   (existsb nonpositive (tk_take_profit_quantities t), "take-profit quantities must be positive")].

(** [_validate_deadline_and_order_shape] *)
Definition ticket_model_checks (t : TradeTicket) : list (bool * str) :=
  let lineage_none :=
    [is_none (tk_exit_binding_id t); is_none (tk_exit_binding_semantic_hash t);
     is_none (tk_exit_binding_authority_version t)] in
  [(existsb id lineage_none && negb (forallb id lineage_none),
    "Ticket Binding lineage must be all-null or all-present");
   (tk_expires_at_ms t <=? tk_created_at_ms t, "ticket expiry must be after creation");
   match tk_entry_order_type t with
   | LIMIT => (is_none (tk_entry_limit_price t) || opt_test nonpositive (tk_entry_limit_price t),
               "limit entry requires a positive limit price")
   | MARKET => (negb (is_none (tk_entry_limit_price t)), "market entry forbids a limit price")
   end;
   (negb (Nat.eqb (length (tk_take_profit_prices t)) (length (tk_take_profit_quantities t))),
    "take-profit prices and quantities must align");
   ((dsum (tk_take_profit_quantities t) >=? tk_quantity t)%dec,
    "take-profit quantities must preserve a runner position");
   ((tk_risk_at_stop t >? tk_planned_stop_risk_budget t)%dec,
    "Ticket stop risk cannot exceed planned risk budget");
   ((tk_post_fill_stop_risk_limit t <? tk_planned_stop_risk_budget t)%dec,
    "Ticket post-fill stop risk limit cannot undercut plan");
   (tk_family_ticket_limit t <=? tk_active_family_ticket_count_at_claim t,
    "Ticket Family capacity was exhausted at claim");
   ((tk_risk_at_stop t <? tk_minimum_stop_risk_budget t)%dec,
    "Ticket is below minimum materialization");
   (negb (Bool.eqb (is_none (tk_pre_tp1_reclaim_price t)) (is_none (tk_exposure_session_end_ms t))),
    "Ticket pre-TP1 plan fields must be paired");
   (opt_test (λ v, v <=? 0) (tk_exposure_session_end_ms t), "Ticket Session end must be positive")].

(** Constructing a [TradeTicket]. *)
Definition validate_TradeTicket (t : TradeTicket) : result TradeTicket :=
  validate_fields (ticket_field_checks t);;
  let t := normalize_ticket t in
  validate_model (ticket_model_checks t);;
  mret t.

(** [model_dump(mode="json")] of the identities. *)
Definition RuntimeIdentity_json (r : RuntimeIdentity) : JsonValue :=
  JObj [("runtime_profile_id", JStr (ri_runtime_profile_id r));
        ("strategy_group_id", JStr (ri_strategy_group_id r));
        ("strategy_version_id", JStr (ri_strategy_version_id r));
        ("event_spec_id", JStr (ri_event_spec_id r))].

Definition NettingDomain_json (d : NettingDomain) : JsonValue :=
  JObj [("venue_id", JStr (nd_venue_id d)); ("account_id", JStr (nd_account_id d));
        ("exchange_instrument_id", JStr (nd_exchange_instrument_id d));
        ("position_side", JStr (side_value (nd_position_side d)))].

Definition build_ticket_id (signal_event_id : str) (runtime : RuntimeIdentity)
    (netting_domain : NettingDomain) : result str :=
  let normalized_signal_id := strip signal_event_id in
  raise_if (blank signal_event_id) (ValueError "signal_event_id must be non-blank");;
  let payload := JObj [("signal_event_id", JStr normalized_signal_id);
                       ("runtime", RuntimeIdentity_json runtime);
                       ("netting_domain", NettingDomain_json netting_domain)] in
  let encoded := encode_utf8 (json_dumps true payload) in
  mret ("ticket:" +:+ take_prefix 32 (sha256_hexdigest encoded)).

Definition TicketIdentity_json (t : TicketIdentity) : JsonValue :=
  JObj [("ticket_id", JStr (ti_ticket_id t));
        ("exposure_episode_id", JStr (ti_exposure_episode_id t));
        ("signal_event_id", JStr (ti_signal_event_id t));
        ("runtime", RuntimeIdentity_json (ti_runtime t));
        ("netting_domain", NettingDomain_json (ti_netting_domain t))].

(** In a JSON dump a [Decimal] is the string [str(d)], an absent value is null. *)
Definition json_decimal (d : Decimal) : JsonValue := JStr (py_str d).
Definition json_option {A} (f : A → JsonValue) (o : option A) : JsonValue :=
  match o with Some a => f a | None => JNull end.

Definition exposure_family_value (f : ExposureFamily) : str :=
  match f with
  | long_continuation => "long_continuation"
  | opening_range => "opening_range"
  | rally_failure_short => "rally_failure_short"
  end.

(** [model_dump(mode="json", exclude={"status"})] less the absent selection
    authority and exit binding. *)
Definition decision_payload (t : TradeTicket) : JsonValue :=
  JObj
    ([("identity", TicketIdentity_json (tk_identity t));
      ("owner_policy_id", JStr (tk_owner_policy_id t));
      ("owner_policy_version", JInt (tk_owner_policy_version t));
      ("runtime_scope_id", JStr (tk_runtime_scope_id t));
      ("runtime_scope_version", JInt (tk_runtime_scope_version t));
      ("universe_version_id", JStr (tk_universe_version_id t));
      ("universe_semantic_digest", JStr (tk_universe_semantic_digest t));
      ("fact_digest", JStr (tk_fact_digest t));
      ("exposure_family", JStr (exposure_family_value (tk_exposure_family t)));
      ("active_family_ticket_count_at_claim", JInt (tk_active_family_ticket_count_at_claim t));
      ("family_ticket_limit", JInt (tk_family_ticket_limit t));
      ("directional_risk_at_stop_at_claim", json_decimal (tk_directional_risk_at_stop_at_claim t));
      ("directional_stop_risk_limit_fraction",
       json_decimal (tk_directional_stop_risk_limit_fraction t));
      ("min_materialization_ratio", json_decimal (tk_min_materialization_ratio t));
      ("minimum_stop_risk_budget", json_decimal (tk_minimum_stop_risk_budget t));
      ("exit_policy_id", JStr (tk_exit_policy_id t));
      ("exit_policy_semantic_hash", JStr (tk_exit_policy_semantic_hash t));
      ("capacity_claim_id", JStr (tk_capacity_claim_id t));
      ("created_at_ms", JInt (tk_created_at_ms t));
      ("expires_at_ms", JInt (tk_expires_at_ms t));
      ("entry_reference_price", json_decimal (tk_entry_reference_price t));
      ("quantity", json_decimal (tk_quantity t));
      ("notional", json_decimal (tk_notional t));
      ("planned_stop_risk_budget", json_decimal (tk_planned_stop_risk_budget t));
      ("post_fill_stop_risk_limit", json_decimal (tk_post_fill_stop_risk_limit t));
      ("selected_leverage", JInt (tk_selected_leverage t));
      ("leverage_change_required", JBool (tk_leverage_change_required t));
      ("reserved_margin", json_decimal (tk_reserved_margin t));
      ("risk_reservation_basis", JStr (tk_risk_reservation_basis t));
      ("margin_mode", JStr "cross");
      ("cross_margin_stress_model_id", JStr "cross-margin-stop-stress-v1");
      ("post_stop_stress_multiple", json_decimal (tk_post_stop_stress_multiple t));
      ("claim_stress_proof_digest", JStr (tk_claim_stress_proof_digest t));
      ("risk_at_stop", json_decimal (tk_risk_at_stop t));
      ("entry_order_type",
       JStr (match tk_entry_order_type t with MARKET => "market" | LIMIT => "limit" end));
      ("entry_limit_price", json_option json_decimal (tk_entry_limit_price t));
      ("initial_stop_price", json_decimal (tk_initial_stop_price t));
      ("pre_tp1_reclaim_price", json_option json_decimal (tk_pre_tp1_reclaim_price t));
      ("exposure_session_end_ms", json_option JInt (tk_exposure_session_end_ms t));
      ("take_profit_prices", JList (json_decimal <$> tk_take_profit_prices t));
      ("take_profit_quantities", JList (json_decimal <$> tk_take_profit_quantities t))] ++
     match tk_selection_authority_id t with
     | Some a => [("selection_authority_id", JStr a)]
     | None => []
     end ++
     match tk_exit_binding_id t with
     | Some b =>
         [("exit_binding_id", JStr b);
          ("exit_binding_semantic_hash", json_option JStr (tk_exit_binding_semantic_hash t));
          ("exit_binding_authority_version", json_option JInt (tk_exit_binding_authority_version t))]
     | None => []
     end).

Definition decision_digest (t : TradeTicket) : str := json_digest true (decision_payload t).
