(* ===== verification/CrossMarginStress.v ===== *)
(** * Cross-margin stop stress ([domain/cross_margin_stress.py])

    Certified maintenance brackets, the account snapshot, and the evaluation of
    the account's margin surplus over the price interval between the mark price
    and the stress price. *)

From S2P Require Import Prelude PyString Sha256 PyDecimal Identities.

Record MaintenanceMarginBracket := mkBracket {
  br_bracket_id : str;
  br_notional_floor : Decimal;
  br_notional_cap : option Decimal;
  br_maintenance_margin_rate : Decimal;
  br_maintenance_amount : Decimal
}.

Definition validate_MaintenanceMarginBracket (b : MaintenanceMarginBracket)
    : result MaintenanceMarginBracket :=
  validate_fields
    [(blank (br_bracket_id b), "maintenance bracket identity must be non-blank");
     ((br_notional_floor b <? d0)%dec, "maintenance bracket values must be finite and nonnegative");
     ((br_maintenance_amount b <? d0)%dec, "maintenance bracket values must be finite and nonnegative");
     (match br_notional_cap b with Some c => (c <=? d0)%dec | None => false end,
      "maintenance bracket cap must be finite and positive");
     ((br_maintenance_margin_rate b <? d0)%dec || (br_maintenance_margin_rate b >=? d1)%dec,
      "maintenance margin rate must be finite in [0, 1)")];;
  validate_model
    [(match br_notional_cap b with Some c => (c <=? br_notional_floor b)%dec | None => false end,
      "maintenance bracket cap must exceed its floor")];;
  mret (mkBracket (strip (br_bracket_id b)) (br_notional_floor b) (br_notional_cap b)
          (br_maintenance_margin_rate b) (br_maintenance_amount b)).

Record AccountRiskPosition := mkAccountRiskPosition {
  arp_exchange_instrument_id : str;
  arp_position_side : PositionSide;
  arp_quantity : Decimal;
  arp_average_entry_price : Decimal;
  arp_current_unrealized_pnl : Decimal;
  arp_current_maintenance_margin : Decimal
}.

Definition validate_AccountRiskPosition (p : AccountRiskPosition) : result AccountRiskPosition :=
  validate_fields
    [(blank (arp_exchange_instrument_id p), "account risk instrument identity must be non-blank");
     ((arp_quantity p <=? d0)%dec, "quantity must be finite and positive");
     ((arp_average_entry_price p <=? d0)%dec, "quantity must be finite and positive");
     ((arp_current_maintenance_margin p <? d0)%dec,
      "maintenance margin must be finite and nonnegative")];;
  mret (mkAccountRiskPosition (strip (arp_exchange_instrument_id p)) (arp_position_side p)
          (arp_quantity p) (arp_average_entry_price p) (arp_current_unrealized_pnl p)
          (arp_current_maintenance_margin p)).

(** The single-valued [Literal] fields of the snapshot ([account_risk_mode],
    [settlement_asset], [position_mode], [margin_mode]) appear only in its
    digest payload. *)
Record AccountRiskSnapshot := mkAccountRiskSnapshot {
  ars_venue_id : str;
  ars_account_id : str;
  ars_exchange_instrument_id : str;
  ars_mark_price : Decimal;
  ars_configured_leverage : Z;
  ars_total_wallet_balance : Decimal;
  ars_total_margin_balance : Decimal;
  ars_total_initial_margin : Decimal;
  ars_total_maintenance_margin : Decimal;
  ars_available_margin : Decimal;
  ars_account_positions : list AccountRiskPosition;
  ars_observed_at_ms : Z;
  ars_valid_until_ms : Z;
  ars_snapshot_digest : str
}.

(** [_canonicalize] on the values the payloads hold. *)
Definition JDec (d : Decimal) : JsonValue := JStr (canonical_decimal d).
Definition JOpt {A} (f : A → JsonValue) (o : option A) : JsonValue :=
  match o with Some a => f a | None => JNull end.

(** [_canonical_digest] *)
Definition canonical_digest (payload : JsonValue) : str := json_digest false payload.

Definition AccountRiskPosition_json (p : AccountRiskPosition) : JsonValue :=
  JObj [("exchange_instrument_id", JStr (arp_exchange_instrument_id p));
        ("position_side", JStr (side_value (arp_position_side p)));
        ("quantity", JDec (arp_quantity p));
        ("average_entry_price", JDec (arp_average_entry_price p));
        ("current_unrealized_pnl", JDec (arp_current_unrealized_pnl p));
        ("current_maintenance_margin", JDec (arp_current_maintenance_margin p))].

Definition AccountRiskSnapshot_fields (s : AccountRiskSnapshot) : list (str * JsonValue) :=
  [("venue_id", JStr (ars_venue_id s));
   ("account_id", JStr (ars_account_id s));
   ("account_risk_mode", JStr "standard_usdm_single_asset");
   ("settlement_asset", JStr "USDT");
   ("position_mode", JStr "independent_sides");
   ("margin_mode", JStr "cross");
   ("exchange_instrument_id", JStr (ars_exchange_instrument_id s));
   ("mark_price", JDec (ars_mark_price s));
   ("configured_leverage", JInt (ars_configured_leverage s));
   ("total_wallet_balance", JDec (ars_total_wallet_balance s));
   ("total_margin_balance", JDec (ars_total_margin_balance s));
   ("total_initial_margin", JDec (ars_total_initial_margin s));
   ("total_maintenance_margin", JDec (ars_total_maintenance_margin s));
   ("available_margin", JDec (ars_available_margin s));
   ("account_positions", JList (AccountRiskPosition_json <$> ars_account_positions s));
   ("observed_at_ms", JInt (ars_observed_at_ms s));
   ("valid_until_ms", JInt (ars_valid_until_ms s))].

Definition snapshot_payload_digest (s : AccountRiskSnapshot) : str :=
  canonical_digest (JObj (AccountRiskSnapshot_fields s)).

Definition position_key (p : AccountRiskPosition) : str * PositionSide :=
  (arp_exchange_instrument_id p, arp_position_side p).

Definition validate_AccountRiskSnapshot (s : AccountRiskSnapshot) : result AccountRiskSnapshot :=
  validate_fields
    (((λ v, (blank v, "account risk snapshot identity must be non-blank")) <$>
        [ars_venue_id s; ars_account_id s; ars_exchange_instrument_id s]) ++
     [((ars_mark_price s <=? d0)%dec, "account risk mark price must be finite and positive");
      (ars_configured_leverage s <=? 0, "configured leverage must be a positive integer")] ++
     ((λ v, ((v <? d0)%dec, "account maintenance margin must be finite and nonnegative")) <$>
        [ars_total_wallet_balance s; ars_total_initial_margin s;
         ars_total_maintenance_margin s; ars_available_margin s]) ++
     [(negb (is_sha256_digest (strip (ars_snapshot_digest s))),
       "account risk snapshot requires a canonical digest")]);;
  let s := mkAccountRiskSnapshot (strip (ars_venue_id s)) (strip (ars_account_id s))
             (strip (ars_exchange_instrument_id s)) (ars_mark_price s) (ars_configured_leverage s)
             (ars_total_wallet_balance s) (ars_total_margin_balance s) (ars_total_initial_margin s)
             (ars_total_maintenance_margin s) (ars_available_margin s) (ars_account_positions s)
             (ars_observed_at_ms s) (ars_valid_until_ms s) (strip (ars_snapshot_digest s)) in
  validate_model
    [((ars_observed_at_ms s <=? 0) || (ars_valid_until_ms s <=? ars_observed_at_ms s),
      "account risk snapshot window must be positive and ordered");
     (negb (bool_decide (NoDup (position_key <$> ars_account_positions s))),
      "account risk position sides must be unique");
     (negb (bool_decide (snapshot_payload_digest s = ars_snapshot_digest s)),
      "account risk snapshot digest differs from its payload")];;
  mret s.

(** [sorted(positions, key=(exchange_instrument_id, position_side))]: stable. *)
Definition position_le (p q : AccountRiskPosition) : bool :=
  if bool_decide (arp_exchange_instrument_id p = arp_exchange_instrument_id q)
  then match arp_position_side p, arp_position_side q with short, long => false | _, _ => true end
  else String.leb (arp_exchange_instrument_id p) (arp_exchange_instrument_id q).

Definition sort_positions (l : list AccountRiskPosition) : list AccountRiskPosition :=
  sort_by position_le l.

(** [AccountRiskSnapshot.create]: the values of every field but the digest,
    which is the payload's, taken before the fields are normalised. *)
Definition create_AccountRiskSnapshot (values : AccountRiskSnapshot) : result AccountRiskSnapshot :=
  positions ← map_result validate_AccountRiskPosition (ars_account_positions values);
  let payload (digest : str) :=
    mkAccountRiskSnapshot (ars_venue_id values) (ars_account_id values)
      (ars_exchange_instrument_id values) (ars_mark_price values) (ars_configured_leverage values)
      (ars_total_wallet_balance values) (ars_total_margin_balance values)
      (ars_total_initial_margin values) (ars_total_maintenance_margin values)
      (ars_available_margin values) (sort_positions positions) (ars_observed_at_ms values)
      (ars_valid_until_ms values) digest in
  validate_AccountRiskSnapshot (payload (snapshot_payload_digest (payload EmptyString))).

Record StressPosition := mkStressPosition {
  sp_position_side : PositionSide;
  sp_quantity : Decimal;
  sp_average_entry_price : Decimal
}.

Definition validate_StressPosition (p : StressPosition) : result StressPosition :=
  validate_fields
    [((sp_quantity p <=? d0)%dec, "stress position values must be finite and positive");
     ((sp_average_entry_price p <=? d0)%dec, "stress position values must be finite and positive")];;
  mret p.

Record CrossMarginStressRequest := mkStressRequest {
  csr_account_snapshot : AccountRiskSnapshot;
  csr_maintenance_margin_brackets : list MaintenanceMarginBracket;
  csr_maintenance_margin_brackets_digest : str;
  csr_notional_coefficient : Decimal;
  csr_notional_coefficient_certified : bool;
  csr_evaluated_side : PositionSide;
  csr_reference_entry_price : Decimal;
  csr_initial_stop_price : Decimal;
  csr_post_stop_stress_multiple : Decimal;
  csr_projected_instrument_positions : list StressPosition
}.

(** [sorted(..., key=position_side)]: long before short, stable. *)
Definition sort_by_side (l : list StressPosition) : list StressPosition :=
  filter (λ p, sp_position_side p = long) l ++ filter (λ p, sp_position_side p = short) l.

Definition validate_CrossMarginStressRequest (r : CrossMarginStressRequest)
    : result CrossMarginStressRequest :=
  validate_fields
    ((negb (is_sha256_digest (strip (csr_maintenance_margin_brackets_digest r))),
      "stress request requires a canonical bracket digest") ::
     ((λ v, ((v <=? d0)%dec, "stress request financial values must be finite and positive")) <$>
        [csr_notional_coefficient r; csr_reference_entry_price r; csr_initial_stop_price r;
         csr_post_stop_stress_multiple r]));;
  let r := mkStressRequest (csr_account_snapshot r) (csr_maintenance_margin_brackets r)
             (strip (csr_maintenance_margin_brackets_digest r)) (csr_notional_coefficient r)
             (csr_notional_coefficient_certified r) (csr_evaluated_side r)
             (csr_reference_entry_price r) (csr_initial_stop_price r)
             (csr_post_stop_stress_multiple r)
             (sort_by_side (csr_projected_instrument_positions r)) in
  let sides := sp_position_side <$> csr_projected_instrument_positions r in
  validate_model
    [(bool_decide (csr_maintenance_margin_brackets r = []),
      "stress request requires maintenance brackets");
     (bool_decide (sides = []) || negb (bool_decide (NoDup sides)),
      "projected stress position sides must be unique");
     (negb (bool_decide (csr_evaluated_side r ∈ sides)),
      "evaluated Side must exist in projected positions");
     (match csr_evaluated_side r with
      | long => (csr_initial_stop_price r >=? csr_reference_entry_price r)%dec
      | short => (csr_initial_stop_price r <=? csr_reference_entry_price r)%dec
      end, "Initial Stop must be on the protective side")];;
  mret r.

Inductive CrossMarginStressStatus := PASSED | FAILED | FACTS_CONTRADICTORY.
#[export] Instance CrossMarginStressStatus_eq_dec : EqDecision CrossMarginStressStatus.
Proof. solve_decision. Defined.

Definition stress_status_value (s : CrossMarginStressStatus) : str :=
  match s with
  | PASSED => "passed" | FAILED => "failed" | FACTS_CONTRADICTORY => "facts_contradictory"
  end.

Definition MODEL_ID : str := "cross-margin-stop-stress-v1".

Record CrossMarginStressProof := mkStressProof {
  csp_snapshot_digest : str;
  csp_maintenance_margin_brackets_digest : str;
  csp_status : CrossMarginStressStatus;
  csp_stress_price : Decimal;
  csp_stress_boundary_clamped_to_zero : bool;
  csp_minimum_margin_surplus : option Decimal;
  csp_minimum_margin_surplus_price : option Decimal;
  csp_evaluated_point_count : Z;
  csp_contradiction_reason : option str;
  csp_proof_digest : str
}.

Definition validate_CrossMarginStressProof (p : CrossMarginStressProof)
    : result CrossMarginStressProof :=
  validate_fields
    (((λ v, (negb (is_sha256_digest (strip v)), "stress proof requires canonical digests")) <$>
        [csp_snapshot_digest p; csp_maintenance_margin_brackets_digest p; csp_proof_digest p]) ++
     [((csp_stress_price p <? d0)%dec, "stress price must be finite and nonnegative")]);;
  let p := mkStressProof (strip (csp_snapshot_digest p))
             (strip (csp_maintenance_margin_brackets_digest p)) (csp_status p) (csp_stress_price p)
             (csp_stress_boundary_clamped_to_zero p) (csp_minimum_margin_surplus p)
             (csp_minimum_margin_surplus_price p) (csp_evaluated_point_count p)
             (csp_contradiction_reason p) (strip (csp_proof_digest p)) in
  match csp_status p with
  | FACTS_CONTRADICTORY =>
      validate_model
        [(negb (is_none (csp_minimum_margin_surplus p))
          || negb (is_none (csp_minimum_margin_surplus_price p))
          || negb (csp_evaluated_point_count p =? 0)
          || match csp_contradiction_reason p with
             | Some s => bool_decide (s = EmptyString) | None => true end,
          "contradictory stress proof has invalid shape")];;
      mret p
  | status =>
      validate_model
        [(is_none (csp_minimum_margin_surplus p)
          || match csp_minimum_margin_surplus_price p with
             | Some v => (v <? d0)%dec | None => true end
          || (csp_evaluated_point_count p <=? 0)
          || negb (is_none (csp_contradiction_reason p)),
          "evaluated stress proof has invalid shape");
         (bool_decide (status = PASSED)
          && match csp_minimum_margin_surplus p with
             | Some v => (v <=? d0)%dec | None => true end,
          "passed stress proof requires positive surplus")];;
      mret p
  end.

Record CrossMarginStressEvidence := mkStressEvidence {
  cse_request : CrossMarginStressRequest;
  cse_proof : CrossMarginStressProof
}.

Definition validate_CrossMarginStressEvidence (e : CrossMarginStressEvidence)
    : result CrossMarginStressEvidence :=
  validate_model
    [(negb (bool_decide (ars_snapshot_digest (csr_account_snapshot (cse_request e))
                         = csp_snapshot_digest (cse_proof e))),
      "stress evidence snapshot digest mismatch");
     (negb (bool_decide (csr_maintenance_margin_brackets_digest (cse_request e)
                         = csp_maintenance_margin_brackets_digest (cse_proof e))),
      "stress evidence bracket digest mismatch")];;
  mret e.

(** ** Evaluation *)

(** [_stress_boundary] *)
Definition stress_boundary (r : CrossMarginStressRequest) : Decimal * bool :=
  let stop_distance := dabs (csr_reference_entry_price r - csr_initial_stop_price r)%dec in
  match csr_evaluated_side r with
  | short => ((csr_initial_stop_price r + csr_post_stop_stress_multiple r * stop_distance)%dec, false)
  | long =>
      let raw := (csr_initial_stop_price r - csr_post_stop_stress_multiple r * stop_distance)%dec in
      (dmax d0 raw, (raw <? d0)%dec)
  end.

(** One step of the loop of [_bracket_schedule_is_structurally_valid]:
    [bracket] after [previous]. *)
Definition bracket_follows (previous bracket : MaintenanceMarginBracket) : bool :=
  let boundary := br_notional_floor bracket in
  let previous_margin :=
    (boundary * br_maintenance_margin_rate previous - br_maintenance_amount previous)%dec in
  let current_margin :=
    (boundary * br_maintenance_margin_rate bracket - br_maintenance_amount bracket)%dec in
  match br_notional_cap previous with
  | Some cap => (cap =? boundary)%dec
  | None => false
  end
  && negb (br_maintenance_margin_rate bracket <? br_maintenance_margin_rate previous)%dec
  && (current_margin =? previous_margin)%dec
  && negb (current_margin <? d0)%dec.

Fixpoint brackets_follow (previous : MaintenanceMarginBracket)
    (brackets : list MaintenanceMarginBracket) : bool :=
  match brackets with
  | [] => true
  | b :: brackets => bracket_follows previous b && brackets_follow b brackets
  end.

(** [_bracket_schedule_is_structurally_valid] *)
Definition bracket_schedule_is_structurally_valid (brackets : list MaintenanceMarginBracket) : bool :=
  match brackets with
  | [] => false
  | first :: rest =>
      (br_notional_floor first =? d0)%dec
      && bool_decide (NoDup (br_bracket_id <$> brackets))
      && (br_maintenance_amount first =? d0)%dec
      && brackets_follow first rest
  end.

(** [_bracket_for] *)
Fixpoint bracket_for (brackets : list MaintenanceMarginBracket) (notional : Decimal)
    : option MaintenanceMarginBracket :=
  match brackets with
  | [] => None
  | b :: brackets =>
      if (notional >=? br_notional_floor b)%dec
         && match br_notional_cap b with None => true | Some c => (notional <? c)%dec end
      then Some b else bracket_for brackets notional
  end.

(** A Python set of decimals: an element equal to a member is not added. *)
Definition set_add (d : Decimal) (s : list Decimal) : list Decimal :=
  if existsb (deqb d) s then s else s ++ [d].

Definition sort_decimals (l : list Decimal) : list Decimal := sort_by dleb l.

(** The body of the loops of [_evaluation_points] for one bracket boundary. *)
Definition add_boundary (quantity lower upper : Decimal) (points : list Decimal)
    (boundary : option Decimal) : result (list Decimal) :=
  match boundary with
  | None => mret points
  | Some b =>
      boundary_price ← ddiv b quantity;
      mret (if (lower <=? boundary_price)%dec && (boundary_price <=? upper)%dec
            then set_add boundary_price points else points)
  end.

(** [_evaluation_points] *)
Definition evaluation_points (r : CrossMarginStressRequest) (stress_price : Decimal)
    : result (list Decimal) :=
  let mark_price := ars_mark_price (csr_account_snapshot r) in
  let lower := dmin mark_price stress_price in
  let upper := dmax mark_price stress_price in
  let points := set_add stress_price (set_add (csr_initial_stop_price r) [mark_price]) in
  points ← fold_result (λ points position,
      fold_result (λ points bracket,
          fold_result (add_boundary (sp_quantity position) lower upper) points
            [Some (br_notional_floor bracket); br_notional_cap bracket])
        points (csr_maintenance_margin_brackets r))
    points (csr_projected_instrument_positions r);
  mret (sort_decimals points).

(** [_projected_notionals_are_covered] *)
Definition projected_notionals_are_covered (r : CrossMarginStressRequest) (points : list Decimal)
    : bool :=
  forallb (λ price, forallb (λ position,
      negb (is_none (bracket_for (csr_maintenance_margin_brackets r)
                       (sp_quantity position * price)%dec)))
    (csr_projected_instrument_positions r)) points.

(** The loop body of [_margin_surplus]: accumulated uPnL and maintenance. *)
Definition surplus_step (brackets : list MaintenanceMarginBracket) (price : Decimal)
    (acc : Decimal * Decimal) (position : StressPosition) : result (Decimal * Decimal) :=
  let '(projected_upnl, projected_maintenance) := acc in
  let projected_upnl :=
    (projected_upnl +
     match sp_position_side position with
     | long => sp_quantity position * (price - sp_average_entry_price position)
     | short => sp_quantity position * (sp_average_entry_price position - price)
     end)%dec in
  let notional := (sp_quantity position * price)%dec in
  match bracket_for brackets notional with
  | None => Raise (ValueError "validated maintenance schedule does not cover notional")
  | Some b =>
      mret (projected_upnl,
            (projected_maintenance
             + (notional * br_maintenance_margin_rate b - br_maintenance_amount b))%dec)
  end.

(** [_margin_surplus] *)
Definition margin_surplus (r : CrossMarginStressRequest)
    (price base_margin_balance base_maintenance_margin : Decimal) : result Decimal :=
  acc ← fold_result (surplus_step (csr_maintenance_margin_brackets r) price) (d0, d0)
          (csr_projected_instrument_positions r);
  mret (base_margin_balance + acc.1 - base_maintenance_margin - acc.2)%dec.

(** [min(surplus_by_price, key=lambda item: (item[1], item[0]))]: the first
    pair with the least (surplus, price). *)
Definition surplus_lt (a b : Decimal * Decimal) : bool :=
  (a.2 <? b.2)%dec || ((a.2 =? b.2)%dec && (a.1 <? b.1)%dec).
Definition min_surplus (x : Decimal * Decimal) (l : list (Decimal * Decimal)) : Decimal * Decimal :=
  fold_left (λ best item, if surplus_lt item best then item else best) l x.

(** [CrossMarginStressRequest.model_dump], canonicalised. *)
Definition Bracket_json (b : MaintenanceMarginBracket) : JsonValue :=
  JObj [("bracket_id", JStr (br_bracket_id b));
        ("notional_floor", JDec (br_notional_floor b));
        ("notional_cap", JOpt JDec (br_notional_cap b));
        ("maintenance_margin_rate", JDec (br_maintenance_margin_rate b));
        ("maintenance_amount", JDec (br_maintenance_amount b))].

Definition StressPosition_json (p : StressPosition) : JsonValue :=
  JObj [("position_side", JStr (side_value (sp_position_side p)));
        ("quantity", JDec (sp_quantity p));
        ("average_entry_price", JDec (sp_average_entry_price p))].

Definition request_json (r : CrossMarginStressRequest) : JsonValue :=
  JObj [("account_snapshot",
          JObj (AccountRiskSnapshot_fields (csr_account_snapshot r)
                ++ [("snapshot_digest", JStr (ars_snapshot_digest (csr_account_snapshot r)))]));
        ("maintenance_margin_brackets",
          JList (Bracket_json <$> csr_maintenance_margin_brackets r));
        ("maintenance_margin_brackets_digest", JStr (csr_maintenance_margin_brackets_digest r));
        ("notional_coefficient", JDec (csr_notional_coefficient r));
        ("notional_coefficient_certified", JBool (csr_notional_coefficient_certified r));
        ("evaluated_side", JStr (side_value (csr_evaluated_side r)));
        ("reference_entry_price", JDec (csr_reference_entry_price r));
        ("initial_stop_price", JDec (csr_initial_stop_price r));
        ("post_stop_stress_multiple", JDec (csr_post_stop_stress_multiple r));
        ("projected_instrument_positions",
          JList (StressPosition_json <$> csr_projected_instrument_positions r))].

(** [_proof] *)
Definition build_proof (r : CrossMarginStressRequest) (status : CrossMarginStressStatus)
    (stress_price : Decimal) (clamped : bool)
    (minimum_margin_surplus minimum_margin_surplus_price : option Decimal)
    (evaluated_point_count : Z) (contradiction_reason : option str)
    : result CrossMarginStressProof :=
  let snapshot_digest := ars_snapshot_digest (csr_account_snapshot r) in
  let brackets_digest := csr_maintenance_margin_brackets_digest r in
  let payload :=
    JObj [("model_id", JStr MODEL_ID);
          ("snapshot_digest", JStr snapshot_digest);
          ("maintenance_margin_brackets_digest", JStr brackets_digest);
          ("status", JStr (stress_status_value status));
          ("stress_price", JDec stress_price);
          ("stress_boundary_clamped_to_zero", JBool clamped);
          ("minimum_margin_surplus", JOpt JDec minimum_margin_surplus);
          ("minimum_margin_surplus_price", JOpt JDec minimum_margin_surplus_price);
          ("evaluated_point_count", JInt evaluated_point_count);
          ("contradiction_reason", JOpt JStr contradiction_reason)] in
  let proof_digest := canonical_digest (JObj [("request", request_json r); ("result", payload)]) in
  validate_CrossMarginStressProof
    (mkStressProof snapshot_digest brackets_digest status stress_price clamped
       minimum_margin_surplus minimum_margin_surplus_price evaluated_point_count
       contradiction_reason proof_digest).

(** [_contradictory] *)
Definition contradictory (r : CrossMarginStressRequest) (stress_price : Decimal) (clamped : bool)
    (reason : str) : result CrossMarginStressEvidence :=
  proof ← build_proof r FACTS_CONTRADICTORY stress_price clamped None None 0 (Some reason);
  validate_CrossMarginStressEvidence (mkStressEvidence r proof).

(** The account positions on the stressed instrument. *)
Definition current_positions (r : CrossMarginStressRequest) : list AccountRiskPosition :=
  filter (λ p, arp_exchange_instrument_id p = ars_exchange_instrument_id (csr_account_snapshot r))
    (ars_account_positions (csr_account_snapshot r)).

Definition mark_is_protected (r : CrossMarginStressRequest) : bool :=
  match csr_evaluated_side r with
  | long => (ars_mark_price (csr_account_snapshot r) >? csr_initial_stop_price r)%dec
  | short => (ars_mark_price (csr_account_snapshot r) <? csr_initial_stop_price r)%dec
  end.

Definition evaluate_cross_margin_stress (r : CrossMarginStressRequest)
    : result CrossMarginStressEvidence :=
  let '(stress_price, clamped) := stress_boundary r in
  if negb (csr_notional_coefficient_certified r) then
    contradictory r stress_price clamped "notional coefficient is not certified"
  else if negb (bracket_schedule_is_structurally_valid (csr_maintenance_margin_brackets r)) then
    contradictory r stress_price clamped "maintenance bracket schedule invalid"
  else
    points ← evaluation_points r stress_price;
    if negb (projected_notionals_are_covered r points) then
      contradictory r stress_price clamped "projected notional exceeds certified bracket range"
    else
      let snapshot := csr_account_snapshot r in
      let base_margin_balance :=
        (ars_total_margin_balance snapshot
         - dsum (arp_current_unrealized_pnl <$> current_positions r))%dec in
      let base_maintenance_margin :=
        (ars_total_maintenance_margin snapshot
         - dsum (arp_current_maintenance_margin <$> current_positions r))%dec in
      if (base_maintenance_margin <? d0)%dec then
        contradictory r stress_price clamped "instrument maintenance margin exceeds account total"
      else
        surplus_by_price ← map_result (λ price,
            surplus ← margin_surplus r price base_margin_balance base_maintenance_margin;
            mret (price, surplus)) points;
        match surplus_by_price with
        | [] => Raise (ValueError "min() arg is an empty sequence")
        | first :: rest =>
            let '(minimum_price, minimum_surplus) := min_surplus first rest in
            let status :=
              if mark_is_protected r && (minimum_surplus >? d0)%dec then PASSED else FAILED in
            proof ← build_proof r status stress_price clamped (Some minimum_surplus)
                      (Some minimum_price) (Z.of_nat (length points)) None;
            validate_CrossMarginStressEvidence (mkStressEvidence r proof)
        end.
