(* ===== verification/Commands.v ===== *)
(** * Exchange commands ([domain/commands.py])

    Deterministic identities of durable venue commands, the shape of their
    payloads, and the retry policy. *)

From S2P Require Import Prelude PyString Sha256 PyDecimal Identities Ticket.

Inductive ExchangeCommandKind :=
  | SET_LEVERAGE | ENTRY | INITIAL_STOP | TAKE_PROFIT | EXIT | CANCEL_ORDER
  | REPLACE_PROTECTION | CONTROLLED_FLATTEN.
#[export] Instance ExchangeCommandKind_eq_dec : EqDecision ExchangeCommandKind.
Proof. solve_decision. Defined.

Definition command_kind_value (k : ExchangeCommandKind) : str :=
  match k with
  | SET_LEVERAGE => "set_leverage" | ENTRY => "entry" | INITIAL_STOP => "initial_stop"
  | TAKE_PROFIT => "take_profit" | EXIT => "exit" | CANCEL_ORDER => "cancel_order"
  | REPLACE_PROTECTION => "replace_protection" | CONTROLLED_FLATTEN => "controlled_flatten"
  end.

Inductive ExchangeCommandStatus :=
  | PREPARED | CLAIMED | SUPERSEDED | ACCEPTED | REJECTED | OUTCOME_UNKNOWN
  | RECONCILED_ABSENT | RECONCILED_ACCEPTED.
#[export] Instance ExchangeCommandStatus_eq_dec : EqDecision ExchangeCommandStatus.
Proof. solve_decision. Defined.

Definition command_status_value (s : ExchangeCommandStatus) : str :=
  match s with
  | PREPARED => "prepared" | CLAIMED => "claimed" | SUPERSEDED => "superseded"
  | ACCEPTED => "accepted" | REJECTED => "rejected" | OUTCOME_UNKNOWN => "outcome_unknown"
  | RECONCILED_ABSENT => "reconciled_absent" | RECONCILED_ACCEPTED => "reconciled_accepted"
  end.

Inductive OrderType := order_market | order_limit | stop_market | take_profit_market.
#[export] Instance OrderType_eq_dec : EqDecision OrderType.
Proof. solve_decision. Defined.
Inductive TimeInForce := GTC | GTX.
#[export] Instance TimeInForce_eq_dec : EqDecision TimeInForce.
Proof. solve_decision. Defined.
Inductive CancelPurpose :=
  | entry_remainder | selection_vacuum_entry | reconciliation_cleanup | runner_old_stop.
#[export] Instance CancelPurpose_eq_dec : EqDecision CancelPurpose.
Proof. solve_decision. Defined.

Record OrderCommandPayload := mkOrderPayload {
  op_side : OrderSide;
  op_quantity : Decimal;
  op_order_type : OrderType;
  op_reduce_only : bool;
  op_limit_price : option Decimal;
  op_time_in_force : option TimeInForce;
  op_stop_price : option Decimal;
  op_replaces_exchange_order_id : option str;
  op_source_watermark_ms : option Z;
  op_required_configured_leverage : option Z;
  op_leverage_verification_digest : option str
}.

Definition opt_digest_missing (o : option str) : bool :=
  match o with Some s => negb (is_sha256_digest s) | None => true end.

(** [_validate_order_shape] *)
Definition order_shape_checks (p : OrderCommandPayload) : list (bool * str) :=
  match op_order_type p with
  | order_limit =>
      [(is_none (op_limit_price p), "limit order requires limit_price");
       (is_none (op_time_in_force p), "limit order requires time_in_force")]
  | _ =>
      [(negb (is_none (op_limit_price p)), "non-limit order forbids limit_price");
       (negb (is_none (op_time_in_force p)), "non-limit order forbids time_in_force")]
  end ++
  [match op_order_type p with
   | stop_market | take_profit_market =>
       (is_none (op_stop_price p), "conditional order requires stop_price")
   | _ => (negb (is_none (op_stop_price p)), "non-conditional order forbids stop_price")
   end] ++
  (if is_none (op_replaces_exchange_order_id p) && is_none (op_source_watermark_ms p) then []
   else
     [(opt_blank (op_replaces_exchange_order_id p),
       "replacement payload requires prior order identity");
      (match op_source_watermark_ms p with Some w => w <=? 0 | None => true end,
       "replacement payload requires a positive watermark")]) ++
  (if is_none (op_required_configured_leverage p) && is_none (op_leverage_verification_digest p)
   then []
   else
     [(match op_required_configured_leverage p with Some l => l <=? 0 | None => true end,
       "entry leverage requirement must be a positive integer");
      (opt_digest_missing (op_leverage_verification_digest p),
       "entry leverage verification requires a sha256 digest")]).

Definition validate_OrderCommandPayload (p : OrderCommandPayload) : result OrderCommandPayload :=
  validate_fields
    [((op_quantity p <=? d0)%dec, "command quantity must be positive");
     (opt_test nonpositive (op_limit_price p), "command price must be positive");
     (opt_test nonpositive (op_stop_price p), "command price must be positive")];;
  validate_model (order_shape_checks p);;
  mret p.

Record CancelCommandPayload := mkCancelPayload {
  cp_exchange_order_id : str;
  cp_order_namespace : OrderNamespace;
  cp_purpose : CancelPurpose;
  cp_entry_vacuum_id : option str
}.

Definition validate_CancelCommandPayload (p : CancelCommandPayload) : result CancelCommandPayload :=
  validate_fields
    [(blank (cp_exchange_order_id p), "cancel command requires exchange order identity")];;
  let p := mkCancelPayload (strip (cp_exchange_order_id p)) (cp_order_namespace p) (cp_purpose p)
             (normalize_optional (cp_entry_vacuum_id p)) in
  validate_model
    [(negb (Bool.eqb (bool_decide (cp_purpose p = selection_vacuum_entry))
                     (negb (is_none (cp_entry_vacuum_id p)))),
      "selection Vacuum cancel requires exclusive Vacuum lineage")];;
  mret p.

Record SetLeverageCommandPayload := mkLeveragePayload {
  lp_desired_leverage : Z;
  lp_owner_policy_version : Z;
  lp_entry_admission_snapshot_digest : str;
  lp_leverage_fact_digest : str
}.

Definition validate_SetLeverageCommandPayload (p : SetLeverageCommandPayload)
    : result SetLeverageCommandPayload :=
  validate_fields
    [(lp_desired_leverage p <=? 0, "leverage command integers must be positive integers");
     (lp_owner_policy_version p <=? 0, "leverage command integers must be positive integers");
     (negb (is_sha256_digest (lp_entry_admission_snapshot_digest p)),
      "leverage command requires canonical sha256 digests");
     (negb (is_sha256_digest (lp_leverage_fact_digest p)),
      "leverage command requires canonical sha256 digests")];;
  mret p.

Inductive CommandPayload :=
  | OrderPayload (p : OrderCommandPayload)
  | CancelPayload (p : CancelCommandPayload)
  | LeveragePayload (p : SetLeverageCommandPayload).

Record ExchangeCommand := mkExchangeCommand {
  ec_command_id : str;
  ec_ticket_identity : TicketIdentity;
  ec_kind : ExchangeCommandKind;
  ec_generation : Z;
  ec_idempotency_key : str;
  ec_venue_client_order_id : option str;
  ec_payload : CommandPayload;
  ec_status : ExchangeCommandStatus;
  ec_created_at_ms : Z;
  ec_deadline_at_ms : Z
}.

(** The payload part of [_validate_command] for the kinds other than
    SET_LEVERAGE. *)
Definition order_command_checks (c : ExchangeCommand) : list (bool * str) :=
  [(is_none (ec_venue_client_order_id c),
    "order command requires deterministic venue_client_order_id");
   match ec_kind c, ec_payload c with
   | CANCEL_ORDER, CancelPayload _ => (false, EmptyString)
   | CANCEL_ORDER, _ => (true, "cancel command requires cancel payload")
   | _, OrderPayload _ => (false, EmptyString)
   | _, _ => (true, "order command requires order payload")
   end] ++
  match ec_payload c with
  | OrderPayload p =>
      let leverage := op_required_configured_leverage p in
      let digest := op_leverage_verification_digest p in
      let has_replacement :=
        negb (is_none (op_replaces_exchange_order_id p) && is_none (op_source_watermark_ms p)) in
      [match ec_kind c with
       | ENTRY => (is_none leverage || is_none digest,
                   "ENTRY command requires leverage verification evidence")
       | _ => (negb (is_none leverage && is_none digest),
               "only ENTRY command allows leverage verification evidence")
       end;
       match ec_kind c with
       | REPLACE_PROTECTION =>
           (negb has_replacement, "protection replacement command requires replacement metadata")
       | _ => (has_replacement,
               "only protection replacement commands allow replacement metadata")
       end]
  | _ => []
  end.

(** [value.upper()] for the two kinds the messages name. *)
Definition kind_upper (k : ExchangeCommandKind) : str :=
  match k with SET_LEVERAGE => "SET_LEVERAGE" | _ => "ENTRY" end.

Definition never_retried (k : ExchangeCommandKind) : bool :=
  match k with SET_LEVERAGE | ENTRY => true | _ => false end.

(** [_validate_command] *)
Definition command_model_checks (c : ExchangeCommand) : list (bool * str) :=
  [(never_retried (ec_kind c) && negb (ec_generation c =? 1),
    kind_upper (ec_kind c) +:+ " command cannot have a retry generation");
   (ec_deadline_at_ms c <=? ec_created_at_ms c, "command deadline must be after creation");
   (opt_test (λ s, 36 <? len s) (ec_venue_client_order_id c),
    "venue client order id exceeds supported boundary")] ++
  match ec_kind c with
  | SET_LEVERAGE =>
      [(negb (is_none (ec_venue_client_order_id c)),
        "SET_LEVERAGE command forbids venue_client_order_id");
       (match ec_payload c with LeveragePayload _ => false | _ => true end,
        "SET_LEVERAGE command requires leverage payload")]
  | _ => order_command_checks c
  end.

Definition validate_ExchangeCommand (c : ExchangeCommand) : result ExchangeCommand :=
  validate_fields
    [(blank (ec_command_id c), "command identities must be non-blank");
     (blank (ec_idempotency_key c), "command identities must be non-blank");
     (ec_generation c <=? 0, "command generation and time must be positive");
     (ec_created_at_ms c <=? 0, "command generation and time must be positive");
     (ec_deadline_at_ms c <=? 0, "command generation and time must be positive")];;
  let c := mkExchangeCommand (strip (ec_command_id c)) (ec_ticket_identity c) (ec_kind c)
             (ec_generation c) (strip (ec_idempotency_key c))
             (normalize_optional (ec_venue_client_order_id c)) (ec_payload c) (ec_status c)
             (ec_created_at_ms c) (ec_deadline_at_ms c) in
  validate_model (command_model_checks c);;
  mret c.

Record ExchangeCommandResult := mkCommandResult {
  cr_status : ExchangeCommandStatus;
  cr_observed_at_ms : Z;
  cr_exchange_order_id : option str;
  cr_reason : option str
}.

(** [ExchangeCommandResult] without its free-form [venue_payload]. *)
Definition validate_ExchangeCommandResult (r : ExchangeCommandResult) : result ExchangeCommandResult :=
  validate_fields [(cr_observed_at_ms r <=? 0, "command result time must be positive")];;
  validate_model
    ((negb (bool_decide (cr_status r ∈ [ACCEPTED; REJECTED; OUTCOME_UNKNOWN])),
      "command result must be authoritative or unknown") ::
     match cr_status r with
     | ACCEPTED =>
         [(opt_blank (cr_exchange_order_id r), "accepted command requires exchange order identity");
          (negb (is_none (cr_reason r)), "accepted command forbids rejection reason")]
     | _ =>
         [(opt_blank (cr_reason r), "rejected or unknown command requires reason");
          (negb (is_none (cr_exchange_order_id r)),
           "non-accepted result forbids exchange order identity")]
     end);;
  mret r.

Record SetLeverageCommandResult := mkLeverageResult {
  lr_exchange_configured_leverage : Z;
  lr_leverage_verified_at_ms : Z;
  lr_leverage_verification_digest : str
}.

Definition validate_SetLeverageCommandResult (r : SetLeverageCommandResult)
    : result SetLeverageCommandResult :=
  validate_fields
    [(lr_exchange_configured_leverage r <=? 0, "leverage result integers must be positive integers");
     (lr_leverage_verified_at_ms r <=? 0, "leverage result integers must be positive integers");
     (negb (is_sha256_digest (lr_leverage_verification_digest r)),
      "leverage result requires a canonical sha256 digest")];;
  mret r.

Definition build_command_id (ticket_id : str) (kind : ExchangeCommandKind) (generation : Z)
    : result str :=
  let normalized_ticket_id := strip ticket_id in
  raise_if (blank ticket_id) (ValueError "ticket_id must be non-blank");;
  raise_if (generation <=? 0) (ValueError "generation must be positive");;
  let payload := normalized_ticket_id +:+ "|" +:+ command_kind_value kind +:+ "|"
                 +:+ string_of_Z generation in
  mret ("command:" +:+ take_prefix 32 (sha256_hexdigest (encode_utf8 payload))).

Definition build_venue_client_order_id (command_id : str) : result str :=
  raise_if (blank command_id) (ValueError "command_id must be non-blank");;
  let digest := take_prefix 28 (sha256_hexdigest (encode_utf8 (strip command_id))) in
  mret ("brc-" +:+ digest).

Definition require_next_generation_allowed (kind : ExchangeCommandKind)
    (prior_status : ExchangeCommandStatus) (next_generation : Z) : result unit :=
  raise_if (next_generation <=? 1)
    (CommandGenerationError "next generation must be greater than one");;
  raise_if (never_retried kind)
    (CommandGenerationError (kind_upper kind +:+ " is never retried"));;
  raise_if (bool_decide (prior_status = OUTCOME_UNKNOWN))
    (CommandGenerationError "unknown outcome must be reconciled first");;
  if bool_decide (kind = REPLACE_PROTECTION)
     && bool_decide (prior_status ∈ [ACCEPTED; RECONCILED_ACCEPTED])
  then mret tt
  else
    raise_if (negb (bool_decide (prior_status ∈ [REJECTED; RECONCILED_ABSENT])))
      (CommandGenerationError
         ("new generation not allowed after " +:+ command_status_value prior_status)).
