(* ===== verification/VenueTruth.v ===== *)
(** * Venue truth ([domain/venue_truth.py], [domain/position.py])

    Exchange position and order observations, and the recovery decision for a
    command whose venue outcome is unknown. *)

From S2P Require Import Prelude PyString Sha256 PyDecimal Identities Ticket Commands.

Record VenueOrderSnapshot := mkVenueOrderSnapshot {
  vos_exchange_order_id : str;
  vos_venue_client_order_id : option str;
  vos_position_side : PositionSide;
  vos_reduce_only : bool;
  vos_order_namespace : OrderNamespace
}.

Inductive LiquidationObservation := liq_valid | liq_missing | liq_invalid.
#[export] Instance LiquidationObservation_eq_dec : EqDecision LiquidationObservation.
Proof. solve_decision. Defined.

Record PositionSnapshot := mkPositionSnapshot {
  ps_netting_domain : NettingDomain;
  ps_quantity : Decimal;
  ps_average_entry_price : option Decimal;
  ps_venue_reported_liquidation_price : option Decimal;
  ps_observation_status : option LiquidationObservation;
  ps_open_orders : list VenueOrderSnapshot;
  ps_observed_at_ms : Z
}.

(** [_default_liquidation_observation_status] *)
Definition default_observation_status (p : PositionSnapshot) : LiquidationObservation :=
  match ps_observation_status p with
  | Some s => s
  | None => if is_none (ps_venue_reported_liquidation_price p) then liq_missing else liq_valid
  end.

Definition validate_PositionSnapshot (p : PositionSnapshot) : result PositionSnapshot :=
  let status := default_observation_status p in
  let p := mkPositionSnapshot (ps_netting_domain p) (ps_quantity p) (ps_average_entry_price p)
             (ps_venue_reported_liquidation_price p) (Some status) (ps_open_orders p)
             (ps_observed_at_ms p) in
  validate_fields
    [((ps_quantity p <? d0)%dec, "position quantity must be nonnegative");
     (ps_observed_at_ms p <=? 0, "position observation time must be positive")];;
  validate_model
    [if (ps_quantity p >? d0)%dec then
       (match ps_average_entry_price p with Some v => (v <=? d0)%dec | None => true end,
        "open position requires average entry price")
     else
       (negb (is_none (ps_average_entry_price p))
        || negb (is_none (ps_venue_reported_liquidation_price p)),
        "flat position forbids entry and liquidation prices");
     (opt_test negative (ps_venue_reported_liquidation_price p),
      "venue-reported liquidation price must be finite and nonnegative");
     (negb (Bool.eqb (bool_decide (status = liq_valid))
                     (negb (is_none (ps_venue_reported_liquidation_price p)))),
      "venue liquidation observation status differs from its value")];;
  mret p.

Inductive VenueLookupStatus := VISIBLE | ABSENT | LOOKUP_FAILED.
#[export] Instance VenueLookupStatus_eq_dec : EqDecision VenueLookupStatus.
Proof. solve_decision. Defined.

Inductive UnknownRecoveryStatus :=
  | PENDING_VISIBILITY | RECONCILED_SUBMITTED | RECOVERY_RECONCILED_ABSENT
  | CANCEL_TARGET_STILL_OPEN | IDENTITY_CONTRADICTION | RECOVERY_LOOKUP_FAILED.
#[export] Instance UnknownRecoveryStatus_eq_dec : EqDecision UnknownRecoveryStatus.
Proof. solve_decision. Defined.

Record VenueOrderTruth := mkVenueOrderTruth {
  vo_exchange_order_id : str;
  vo_venue_client_order_id : str;
  vo_exchange_instrument_id : str;
  vo_position_side : PositionSide;
  vo_order_side : OrderSide;
  vo_quantity : Decimal;
  vo_reduce_only : bool;
  vo_order_namespace : OrderNamespace;
  vo_is_open : bool
}.

Definition validate_VenueOrderTruth (o : VenueOrderTruth) : result VenueOrderTruth :=
  validate_fields
    (((λ v, (blank v, "venue order truth identities must be non-blank")) <$>
        [vo_exchange_order_id o; vo_venue_client_order_id o; vo_exchange_instrument_id o]) ++
     [((vo_quantity o <=? d0)%dec, "venue order truth quantity must be positive")]);;
  mret (mkVenueOrderTruth (strip (vo_exchange_order_id o)) (strip (vo_venue_client_order_id o))
          (strip (vo_exchange_instrument_id o)) (vo_position_side o) (vo_order_side o)
          (vo_quantity o) (vo_reduce_only o) (vo_order_namespace o) (vo_is_open o)).

Record VenueTruthSnapshot := mkVenueTruthSnapshot {
  vt_lookup_status : VenueLookupStatus;
  vt_order : option VenueOrderTruth;
  vt_position_quantity : Decimal;
  vt_matching_fill_quantity : Decimal;
  vt_matching_fill_average_price : option Decimal;
  vt_matching_fill_complete : bool;
  vt_regular_open_client_order_ids : list str;
  vt_conditional_open_client_order_ids : list str;
  vt_observed_at_ms : Z;
  vt_reason : option str
}.

Definition validate_VenueTruthSnapshot (t : VenueTruthSnapshot) : result VenueTruthSnapshot :=
  validate_fields
    [((vt_position_quantity t <? d0)%dec, "venue truth quantities cannot be negative");
     ((vt_matching_fill_quantity t <? d0)%dec, "venue truth quantities cannot be negative");
     (vt_observed_at_ms t <=? 0, "venue truth observation time must be positive");
     (opt_test nonpositive (vt_matching_fill_average_price t),
      "matching fill average price must be positive and finite")];;
  validate_model
    [((vt_matching_fill_quantity t =? d0)%dec && negb (is_none (vt_matching_fill_average_price t)),
      "zero matching fills cannot carry an average fill price");
     match vt_lookup_status t with
     | VISIBLE => (is_none (vt_order t) || negb (is_none (vt_reason t)),
                   "visible lookup requires order truth only")
     | ABSENT => (negb (is_none (vt_order t)) || negb (is_none (vt_reason t)),
                  "absent lookup forbids order and reason")
     | LOOKUP_FAILED => (negb (is_none (vt_order t)) || opt_blank (vt_reason t),
                         "failed lookup requires one reason and no order")
     end];;
  mret t.

Record UnknownRecoveryDecision := mkRecoveryDecision {
  rd_status : UnknownRecoveryStatus;
  rd_observed_at_ms : Z;
  rd_exchange_order_id : option str;
  rd_reason : option str
}.

Definition validate_UnknownRecoveryDecision (d : UnknownRecoveryDecision)
    : result UnknownRecoveryDecision :=
  validate_model
    [match rd_status d with
     | RECONCILED_SUBMITTED =>
         (opt_blank (rd_exchange_order_id d) || negb (is_none (rd_reason d)),
          "submitted recovery requires exchange order identity")
     | _ =>
         (negb (is_none (rd_exchange_order_id d)) || opt_blank (rd_reason d),
          "non-submitted recovery requires one reason")
     end];;
  mret d.

(** [_decision] *)
Definition decision (status : UnknownRecoveryStatus) (t : VenueTruthSnapshot) (reason : str)
    : result UnknownRecoveryDecision :=
  validate_UnknownRecoveryDecision
    (mkRecoveryDecision status (vt_observed_at_ms t) None (Some reason)).

(** The first failed comparison of a [(matches, reason)] table. *)
Fixpoint first_mismatch (comparisons : list (bool * str)) : option str :=
  match comparisons with
  | [] => None
  | (matches, reason) :: comparisons =>
      if matches then first_mismatch comparisons else Some reason
  end.

(** [_identity_contradiction] *)
Definition identity_contradiction (c : ExchangeCommand) (o : VenueOrderTruth) : option str :=
  let domain := ti_netting_domain (ec_ticket_identity c) in
  match first_mismatch
    [(bool_decide (Some (vo_venue_client_order_id o) = ec_venue_client_order_id c),
      "client_order_id_mismatch");
     (bool_decide (vo_exchange_instrument_id o = nd_exchange_instrument_id domain),
      "instrument_mismatch");
     (bool_decide (vo_position_side o = nd_position_side domain), "position_side_mismatch")] with
  | Some reason => Some reason
  | None =>
      match ec_payload c with
      | OrderPayload p =>
          first_mismatch
            [(bool_decide (vo_order_side o = op_side p), "order_side_mismatch");
             ((vo_quantity o =? op_quantity p)%dec, "quantity_mismatch");
             (Bool.eqb (vo_reduce_only o) (op_reduce_only p), "reduce_only_mismatch")]
      | _ => Some "command_kind_not_order_lookup"
      end
  end.

(** [_decide_cancel_recovery] *)
Definition decide_cancel_recovery (c : ExchangeCommand) (t : VenueTruthSnapshot)
    (visibility_deadline_ms : Z) : result UnknownRecoveryDecision :=
  match ec_payload c with
  | CancelPayload p =>
      match vt_lookup_status t with
      | VISIBLE =>
          match vt_order t with
          | None => Raise (ValueError "visible cancel target truth lacks order")
          | Some o =>
              let domain := ti_netting_domain (ec_ticket_identity c) in
              match first_mismatch
                [(bool_decide (vo_exchange_order_id o = cp_exchange_order_id p),
                  "cancel_target_order_id_mismatch");
                 (bool_decide (vo_exchange_instrument_id o = nd_exchange_instrument_id domain),
                  "instrument_mismatch");
                 (bool_decide (vo_position_side o = nd_position_side domain),
                  "position_side_mismatch");
                 (bool_decide (vo_order_namespace o = cp_order_namespace p),
                  "cancel_target_order_namespace_mismatch")] with
              | Some reason => decision IDENTITY_CONTRADICTION t reason
              | None =>
                  if negb (vo_is_open o) then
                    decision RECOVERY_RECONCILED_ABSENT t "cancel_target_terminal"
                  else if visibility_deadline_ms <=? vt_observed_at_ms t then
                    decision CANCEL_TARGET_STILL_OPEN t
                      "cancel_target_still_open_after_visibility_window"
                  else decision PENDING_VISIBILITY t "cancel_target_still_visible"
              end
          end
      | _ =>
          if vt_observed_at_ms t <? visibility_deadline_ms then
            decision PENDING_VISIBILITY t "visibility_window_open"
          else decision RECOVERY_RECONCILED_ABSENT t "cancel_target_absent_after_visibility_window"
      end
  | _ => Raise (TypeError "cancel recovery requires exact target order identity")
  end.

(** [command.venue_client_order_id in ids]: [None] is in no list of strings. *)
Definition client_id_in (o : option str) (ids : list str) : bool :=
  match o with Some s => bool_decide (s ∈ ids) | None => false end.

(** The disjunction [submission_evidence]. *)
Definition submission_evidence (c : ExchangeCommand) (t : VenueTruthSnapshot) : bool :=
  (bool_decide (ec_kind c = ENTRY) && (vt_position_quantity t >? d0)%dec)
  || (vt_matching_fill_quantity t >? d0)%dec
  || client_id_in (ec_venue_client_order_id c) (vt_regular_open_client_order_ids t)
  || client_id_in (ec_venue_client_order_id c) (vt_conditional_open_client_order_ids t).

Definition decide_unknown_recovery (c : ExchangeCommand) (t : VenueTruthSnapshot)
    (visibility_deadline_ms : Z) : result UnknownRecoveryDecision :=
  raise_if (negb (bool_decide (ec_status c = OUTCOME_UNKNOWN)))
    (ValueError "only unknown commands may enter venue-truth recovery");;
  raise_if (visibility_deadline_ms <=? ec_created_at_ms c)
    (ValueError "visibility deadline must follow command creation");;
  match vt_lookup_status t with
  | LOOKUP_FAILED =>
      decision RECOVERY_LOOKUP_FAILED t
        (match vt_reason t with Some s => s | None => "None" end)
  | status =>
      if bool_decide (ec_kind c = CANCEL_ORDER) then
        decide_cancel_recovery c t visibility_deadline_ms
      else
        match status with
        | VISIBLE =>
            match vt_order t with
            | None => Raise (ValueError "visible venue truth lacks order")
            | Some o =>
                match identity_contradiction c o with
                | Some contradiction => decision IDENTITY_CONTRADICTION t contradiction
                | None =>
                    validate_UnknownRecoveryDecision
                      (mkRecoveryDecision RECONCILED_SUBMITTED (vt_observed_at_ms t)
                         (Some (vo_exchange_order_id o)) None)
                end
            end
        | _ =>
            if submission_evidence c t then
              decision PENDING_VISIBILITY t "submission_evidence_without_order_identity"
            else if vt_observed_at_ms t <? visibility_deadline_ms then
              decision PENDING_VISIBILITY t "visibility_window_open"
            else
              decision RECOVERY_RECONCILED_ABSENT t
                "authoritative_absence_after_visibility_window"
        end
  end.
