(* ===== verification/CapacitySizing.v ===== *)
(** * Capacity sizing ([domain/capacity_sizing.py])

    The deterministic pre-entry choice of quantity: risk and margin budgets,
    venue minima and an executable exit split. *)

From Stdlib Require Import QArith Qabs Lqa.
From S2P Require Import Prelude PyString PyDecimal DecimalFacts Ticket CrossMarginStress.
#[local] Open Scope Z_scope.

Definition FIXED_EXCHANGE_CONFIGURED_LEVERAGE : Z := 5.

Inductive CapacitySizingStatus :=
  | SELECTED | COUNT_EXHAUSTED | STOP_RISK_EXHAUSTED | DIRECTIONAL_RISK_EXHAUSTED
  | MARGIN_EXHAUSTED | VENUE_MINIMUM_UNMET | EXIT_PLAN_UNEXECUTABLE
  | MINIMUM_MATERIALIZATION_UNMET | INVALID_FACTS.
#[export] Instance CapacitySizingStatus_eq_dec : EqDecision CapacitySizingStatus.
Proof. solve_decision. Defined.

Record CapacitySizingRequest := mkSizingRequest {
  sr_total_wallet_balance : Decimal;
  sr_total_margin_balance : Decimal;
  sr_total_initial_margin : Decimal;
  sr_current_reserved_margin : Decimal;
  sr_gross_risk_at_stop : Decimal;
  sr_directional_risk_at_stop : Decimal;
  sr_available_margin : Decimal;
  sr_active_ticket_count : Z;
  sr_max_concurrent_tickets : Z;
  sr_max_ticket_stop_risk_fraction : Decimal;
  sr_max_gross_stop_risk_fraction : Decimal;
  sr_max_ticket_initial_margin_fraction : Decimal;
  sr_max_gross_initial_margin_utilization : Decimal;
  sr_directional_stop_risk_limit_fraction : Decimal;
  sr_min_materialization_ratio : Decimal;
  sr_permitted_max_leverage : Z;
  sr_configured_leverage : Z;
  sr_entry_reference_price : Decimal;
  sr_initial_stop_price : Decimal;
  sr_take_profit_price : Decimal;
  sr_quantity_step : Decimal;
  sr_min_quantity : Decimal;
  sr_min_notional : Decimal;
  sr_tp1_quantity_fraction : Decimal
}.

Definition outside_unit (upper_excluded : bool) (v : Decimal) : bool :=
  nonpositive v || (if upper_excluded then (v >=? d1)%dec else (v >? d1)%dec).

Definition validate_CapacitySizingRequest (r : CapacitySizingRequest)
    : result CapacitySizingRequest :=
  validate_fields
    (((λ v, (negative v, "account sizing facts must be finite and nonnegative")) <$>
        [sr_total_wallet_balance r; sr_total_margin_balance r; sr_total_initial_margin r;
         sr_current_reserved_margin r; sr_gross_risk_at_stop r; sr_directional_risk_at_stop r;
         sr_available_margin r]) ++
     ((λ v, (nonpositive v, "sizing prices, rules, and ratios must be finite and positive")) <$>
        [sr_entry_reference_price r; sr_initial_stop_price r; sr_take_profit_price r;
         sr_quantity_step r; sr_min_quantity r; sr_min_notional r]) ++
     ((λ v, (outside_unit false v, "sizing policy fractions must be in (0, 1]")) <$>
        [sr_max_ticket_stop_risk_fraction r; sr_max_gross_stop_risk_fraction r;
         sr_max_ticket_initial_margin_fraction r; sr_max_gross_initial_margin_utilization r;
         sr_directional_stop_risk_limit_fraction r; sr_min_materialization_ratio r]) ++
     [(outside_unit true (sr_tp1_quantity_fraction r), "TP1 quantity fraction must be in (0, 1)");
      (sr_active_ticket_count r <? 0, "sizing count and leverage values are invalid");
      (sr_max_concurrent_tickets r <=? 0, "sizing count and leverage values are invalid");
      (sr_permitted_max_leverage r <=? 0, "sizing count and leverage values are invalid");
      (sr_configured_leverage r <=? 0, "sizing count and leverage values are invalid")]);;
  validate_model
    [((sr_initial_stop_price r =? sr_entry_reference_price r)%dec,
      "initial stop must differ from entry reference")];;
  mret r.

Record CapacitySizingSelection := mkSizingSelection {
  ss_remaining_slots : Z;
  ss_ticket_stop_risk_budget : Decimal;
  ss_remaining_gross_stop_risk : Decimal;
  ss_remaining_directional_stop_risk : Decimal;
  ss_minimum_stop_risk_budget : Decimal;
  ss_materialization_ratio : Decimal;
  ss_remaining_gross_margin : Decimal;
  ss_remaining_executable_margin : Decimal;
  ss_ticket_margin_budget : Decimal;
  ss_risk_quantity : Decimal;
  ss_required_leverage : Z;
  ss_selected_leverage : Z;
  ss_configured_leverage : Z;
  ss_leverage_change_required : bool;
  ss_quantity : Decimal;
  ss_notional : Decimal;
  ss_reserved_margin : Decimal;
  ss_planned_stop_risk : Decimal;
  ss_tp1_quantity : Decimal;
  ss_runner_quantity : Decimal
}.

Record CapacitySizingDecision := mkSizingDecision {
  sd_status : CapacitySizingStatus;
  sd_selected : option CapacitySizingSelection
}.

Definition validate_CapacitySizingDecision (d : CapacitySizingDecision)
    : result CapacitySizingDecision :=
  validate_model
    [(negb (Bool.eqb (bool_decide (sd_status d = SELECTED)) (negb (is_none (sd_selected d)))),
      "selected sizing decisions require exactly one candidate")];;
  mret d.

(** [_refused] *)
Definition refused (s : CapacitySizingStatus) : result CapacitySizingDecision :=
  validate_CapacitySizingDecision (mkSizingDecision s None).

(** [_floor_to_step] *)
Definition floor_to_step (value step : Decimal) : result Decimal :=
  if (value <=? d0)%dec then mret d0
  else q ← ddiv value step; mret (to_integral_value ROUND_FLOOR q * step)%dec.

(** [_evaluate_candidate]; [inr] is a refusing status. *)
Definition evaluate_candidate (r : CapacitySizingRequest) (remaining_slots : Z)
    (ticket_stop_risk_budget remaining_gross_stop_risk remaining_directional_stop_risk
     minimum_stop_risk_budget remaining_gross_margin remaining_executable_margin
     ticket_margin_budget risk_quantity : Decimal) (required_leverage leverage : Z)
    : result (CapacitySizingSelection + CapacitySizingStatus) :=
  affordable ← ddiv (ticket_margin_budget * of_int leverage)%dec (sr_entry_reference_price r);
  margin_quantity ← floor_to_step affordable (sr_quantity_step r);
  let quantity := dmin risk_quantity margin_quantity in
  let notional := (quantity * sr_entry_reference_price r)%dec in
  let planned_stop_risk :=
    (quantity * dabs (sr_entry_reference_price r - sr_initial_stop_price r))%dec in
  if (quantity <? sr_min_quantity r)%dec || (notional <? sr_min_notional r)%dec
     || (planned_stop_risk <=? d0)%dec
  then mret (inr VENUE_MINIMUM_UNMET)
  else
    tp1_quantity ← floor_to_step (quantity * sr_tp1_quantity_fraction r)%dec (sr_quantity_step r);
    let runner_quantity := (quantity - tp1_quantity)%dec in
    if (tp1_quantity <=? d0)%dec || (runner_quantity <? sr_min_quantity r)%dec then
      mret (inr EXIT_PLAN_UNEXECUTABLE)
    else if (tp1_quantity <? sr_min_quantity r)%dec
      || (tp1_quantity * sr_take_profit_price r <? sr_min_notional r)%dec
      || (runner_quantity * sr_initial_stop_price r <? sr_min_notional r)%dec then
      mret (inr EXIT_PLAN_UNEXECUTABLE)
    else
      materialization_ratio ←
        ddiv planned_stop_risk (sr_total_wallet_balance r * sr_max_ticket_stop_risk_fraction r)%dec;
      reserved_margin ← ddiv notional (of_int leverage);
      mret (inl (mkSizingSelection remaining_slots ticket_stop_risk_budget
        remaining_gross_stop_risk remaining_directional_stop_risk minimum_stop_risk_budget
        materialization_ratio remaining_gross_margin remaining_executable_margin
        ticket_margin_budget risk_quantity required_leverage leverage (sr_configured_leverage r)
        false quantity notional reserved_margin planned_stop_risk tp1_quantity runner_quantity)).

Definition candidate_of (x : CapacitySizingSelection + CapacitySizingStatus)
    : option CapacitySizingSelection := match x with inl c => Some c | inr _ => None end.
Definition refuses_with (s : CapacitySizingStatus)
    (x : CapacitySizingSelection + CapacitySizingStatus) : bool :=
  match x with inl _ => false | inr s' => bool_decide (s = s') end.

(** The two [min(..., key=...)] of the choice: the first least element. *)
Definition lower_leverage (best c : CapacitySizingSelection) : CapacitySizingSelection :=
  if ss_selected_leverage c <? ss_selected_leverage best then c else best.
Definition more_risk (best c : CapacitySizingSelection) : CapacitySizingSelection :=
  if (ss_planned_stop_risk best <? ss_planned_stop_risk c)%dec
     || ((ss_planned_stop_risk best =? ss_planned_stop_risk c)%dec
         && (ss_selected_leverage c <? ss_selected_leverage best))
  then c else best.

Definition choose_candidate (risk_quantity : Decimal) (first : CapacitySizingSelection)
    (rest : list CapacitySizingSelection) : CapacitySizingSelection :=
  match filter (λ c, (ss_quantity c =? risk_quantity)%dec = true) (first :: rest) with
  | target :: targets => fold_left lower_leverage targets target
  | [] => fold_left more_risk rest first
  end.

(** The refusals before any quantity is computed, and the budgets. *)
Record SizingBudgets := mkSizingBudgets {
  sb_remaining_gross_stop_risk : Decimal;
  sb_remaining_directional_stop_risk : Decimal;
  sb_ticket_stop_risk_budget : Decimal;
  sb_minimum_stop_risk_budget : Decimal;
  sb_remaining_gross_margin : Decimal;
  sb_remaining_executable_margin : Decimal;
  sb_ticket_margin_budget : Decimal
}.

Definition sizing_budgets (r : CapacitySizingRequest) : SizingBudgets :=
  let remaining_gross_stop_risk :=
    dmax (sr_total_wallet_balance r * sr_max_gross_stop_risk_fraction r
          - sr_gross_risk_at_stop r)%dec d0 in
  let remaining_directional_stop_risk :=
    dmax (sr_total_wallet_balance r * sr_directional_stop_risk_limit_fraction r
          - sr_directional_risk_at_stop r)%dec d0 in
  let ticket_stop_risk_budget :=
    dmin (dmin (sr_total_wallet_balance r * sr_max_ticket_stop_risk_fraction r)%dec
               remaining_gross_stop_risk) remaining_directional_stop_risk in
  let minimum_stop_risk_budget :=
    (sr_total_wallet_balance r * sr_max_ticket_stop_risk_fraction r
     * sr_min_materialization_ratio r)%dec in
  let gross_initial_margin_limit :=
    (sr_total_margin_balance r * sr_max_gross_initial_margin_utilization r)%dec in
  let current_margin_usage := dmax (sr_total_initial_margin r) (sr_current_reserved_margin r) in
  let remaining_gross_margin := dmax (gross_initial_margin_limit - current_margin_usage)%dec d0 in
  let remaining_executable_margin := dmin (sr_available_margin r) remaining_gross_margin in
  let ticket_margin_budget :=
    dmin (sr_total_margin_balance r * sr_max_ticket_initial_margin_fraction r)%dec
         remaining_executable_margin in
  mkSizingBudgets remaining_gross_stop_risk remaining_directional_stop_risk ticket_stop_risk_budget
    minimum_stop_risk_budget remaining_gross_margin remaining_executable_margin ticket_margin_budget.

(** From the budgets on. *)
Definition size_within (r : CapacitySizingRequest) (b : SizingBudgets)
    : result CapacitySizingDecision :=
  let remaining_slots := sr_max_concurrent_tickets r - sr_active_ticket_count r in
  let risk_per_unit := dabs (sr_entry_reference_price r - sr_initial_stop_price r)%dec in
  units ← ddiv (sb_ticket_stop_risk_budget b) risk_per_unit;
  risk_quantity ← floor_to_step units (sr_quantity_step r);
  if (risk_quantity <=? d0)%dec then refused VENUE_MINIMUM_UNMET
  else
    let risk_target_notional := (risk_quantity * sr_entry_reference_price r)%dec in
    ratio ← ddiv risk_target_notional (sb_ticket_margin_budget b);
    let required_leverage := int_of (to_integral_value ROUND_CEILING ratio) in
    let leverages := [FIXED_EXCHANGE_CONFIGURED_LEVERAGE] in
    evaluated ← map_result (λ leverage,
      evaluate_candidate r remaining_slots (sb_ticket_stop_risk_budget b)
        (sb_remaining_gross_stop_risk b) (sb_remaining_directional_stop_risk b)
        (sb_minimum_stop_risk_budget b) (sb_remaining_gross_margin b)
        (sb_remaining_executable_margin b) (sb_ticket_margin_budget b) risk_quantity
        required_leverage leverage) leverages;
    match omap candidate_of evaluated with
    | [] =>
        if existsb (refuses_with EXIT_PLAN_UNEXECUTABLE) evaluated then
          refused EXIT_PLAN_UNEXECUTABLE
        else if existsb (refuses_with VENUE_MINIMUM_UNMET) evaluated then
          refused VENUE_MINIMUM_UNMET
        else refused INVALID_FACTS
    | first :: rest =>
        let selected := choose_candidate risk_quantity first rest in
        if (ss_planned_stop_risk selected <? sb_minimum_stop_risk_budget b)%dec then
          refused MINIMUM_MATERIALIZATION_UNMET
        else validate_CapacitySizingDecision (mkSizingDecision SELECTED (Some selected))
    end.

Definition select_capacity_candidate (r : CapacitySizingRequest) : result CapacitySizingDecision :=
  if sr_max_concurrent_tickets r <=? sr_active_ticket_count r then refused COUNT_EXHAUSTED
  else if negb (sr_configured_leverage r =? FIXED_EXCHANGE_CONFIGURED_LEVERAGE)
          || (sr_permitted_max_leverage r <? FIXED_EXCHANGE_CONFIGURED_LEVERAGE)
  then refused INVALID_FACTS
  else
    let b := sizing_budgets r in
    if (sb_ticket_stop_risk_budget b <=? d0)%dec then
      if (sb_remaining_directional_stop_risk b <=? d0)%dec then refused DIRECTIONAL_RISK_EXHAUSTED
      else refused STOP_RISK_EXHAUSTED
    else if (sb_ticket_margin_budget b <=? d0)%dec then refused MARGIN_EXHAUSTED
    else size_within r b.

(** ** Steps and budgets *)

Lemma floor_to_step_total value step :
  (0 < dval step)%Q → ∃ q, floor_to_step value step = Ok q.
Proof.
  intros Hs. unfold floor_to_step. destruct (value <=? d0)%dec; [by eexists|].
  destruct (ddiv_total value step) as [q Hq]; [intros E; rewrite E in Hs; by apply Qlt_irrefl in Hs|].
  rewrite Hq. by eexists.
Qed.

Lemma floor_to_step_bounds value step q :
  (0 < dval step)%Q → (0 <= dval value)%Q → floor_to_step value step = Ok q →
  (0 <= dval q <= grown 3 (dval value))%Q.
Proof.
  intros Hs Hv H. unfold floor_to_step in H. destruct (value <=? d0)%dec eqn:E.
  { apply Ok_inj in H as <-. rewrite dval_d0. split; [apply Qle_refl|by apply grown_nonneg]. }
  apply bind_Ok in H as (u & Hu & H). apply Ok_inj in H as <-.
  pose proof (ddiv_nonneg _ _ _ Hv Hs Hu) as Hun. pose proof (ddiv_upper _ _ _ Hv Hs Hu) as Hup.
  destruct (to_integral_floor u) as (F1 & _ & F3). specialize (F3 Hun).
  pose proof (Qlt_le_weak _ _ Hs) as Hs'.
  split; [by apply dmul_nonneg|].
  eapply Qle_trans; [by apply dmul_upper|]. cbn [grown]. apply Qmult_le_compat_r; [|apply eps_bounds].
  eapply Qle_trans; [apply Qmult_le_compat_r; [eapply Qle_trans; [exact F1|exact Hup]|done]|].
  apply Qle_lteq; right. rewrite Qmult_comm, <- grown_scale.
  setoid_replace (dval step * (dval value / dval step))%Q with (dval value) using relation Qeq;
    [reflexivity|field; lra].
Qed.

Lemma floor_to_step_neg value step q :
  (0 < dval step)%Q → floor_to_step value step = Ok q → (0 <= dval q)%Q.
Proof.
  intros Hs H. destruct (Qlt_le_dec 0 (dval value)) as [Hv|Hv].
  - apply (floor_to_step_bounds value step q Hs); [by apply Qlt_le_weak|done].
  - unfold floor_to_step in H. assert (E : (value <=? d0)%dec = true) by (apply dleb_spec; rewrite dval_d0; exact Hv).
    rewrite E in H. apply Ok_inj in H as <-. rewrite dval_d0. apply Qle_refl.
Qed.

Lemma floor_to_step_fits value step q : floor_to_step value step = Ok q → fits q = true.
Proof.
  unfold floor_to_step. destruct (value <=? d0)%dec.
  - by intros <-%Ok_inj.
  - intros H. apply bind_Ok in H as (u & _ & H). apply Ok_inj in H as <-. apply fix_prec_fits.
Qed.

(** ** The facts of a validated request *)

Record sizing_facts (r : CapacitySizingRequest) : Prop := {
  wallet_nonneg : (0 <= dval (sr_total_wallet_balance r))%Q;
  margin_nonneg : (0 <= dval (sr_total_margin_balance r))%Q;
  entry_pos : (0 < dval (sr_entry_reference_price r))%Q;
  stop_pos : (0 < dval (sr_initial_stop_price r))%Q;
  tp_pos : (0 < dval (sr_take_profit_price r))%Q;
  step_pos : (0 < dval (sr_quantity_step r))%Q;
  min_quantity_pos : (0 < dval (sr_min_quantity r))%Q;
  min_notional_pos : (0 < dval (sr_min_notional r))%Q;
  ticket_fraction_pos : (0 < dval (sr_max_ticket_stop_risk_fraction r))%Q;
  tp1_fraction : (0 < dval (sr_tp1_quantity_fraction r) < 1)%Q;
  stop_differs : ¬ (dval (sr_entry_reference_price r) == dval (sr_initial_stop_price r))%Q
}.

Lemma validated_sizing_facts r : validate_CapacitySizingRequest r = Ok r → sizing_facts r.
Proof.
  intros H. unfold validate_CapacitySizingRequest in H. run_ok H.
  apply validate_fields_Ok in E. apply validate_model_Ok in E0.
  rewrite !Forall_app, !Forall_fmap in E. destruct E as (E1 & E2 & E3 & E4).
  repeat (apply Forall_cons in E1 as [? E1]). repeat (apply Forall_cons in E2 as [? E2]).
  repeat (apply Forall_cons in E3 as [? E3]). repeat (apply Forall_cons in E4 as [? E4]).
  apply Forall_cons in E0 as [E0 _]. cbn [fst compose] in *. unfold compose in *. cbn [fst] in *.
  unfold outside_unit, nonpositive, negative in *. decimal_facts. rewrite ?dval_d1 in *.
  split; try assumption; [lra|]. intros Heq. by apply E0.
Qed.

(** The position a unit of quantity puts at risk. *)
Definition risk_per_unit (r : CapacitySizingRequest) : Decimal :=
  dabs (sr_entry_reference_price r - sr_initial_stop_price r)%dec.

Lemma risk_per_unit_pos r : sizing_facts r → (0 < dval (risk_per_unit r))%Q.
Proof. intros H. apply dabs_sub_pos, H. Qed.

(** ** A candidate *)

(** What a selected candidate guarantees, whatever the budgets. *)
Record candidate_ok (r : CapacitySizingRequest) (margin_budget risk_quantity : Decimal)
    (leverage : Z) (c : CapacitySizingSelection) : Prop := {
  ok_leverage : ss_selected_leverage c = leverage;
  ok_planned_value : ss_planned_stop_risk c = (ss_quantity c * risk_per_unit r)%dec;
  ok_min_quantity : (dval (sr_min_quantity r) <= dval (ss_quantity c))%Q;
  ok_risk_quantity : (dval (ss_quantity c) <= dval risk_quantity)%Q;
  ok_min_notional : (dval (sr_min_notional r) <= dval (ss_notional c))%Q;
  ok_notional : (dval (ss_notional c) <= grown 7 (dval margin_budget * inject_Z leverage))%Q;
  ok_reserved : (dval (ss_reserved_margin c) <= grown 9 (dval margin_budget))%Q;
  ok_tp1 : (dval (sr_min_quantity r) <= dval (ss_tp1_quantity c))%Q;
  ok_runner : (dval (sr_min_quantity r) <= dval (ss_runner_quantity c))%Q;
  ok_split : ss_runner_quantity c = (ss_quantity c - ss_tp1_quantity c)%dec;
  ok_tp1_notional : (dval (sr_min_notional r) <= dval (ss_tp1_quantity c * sr_take_profit_price r)%dec)%Q;
  ok_runner_notional :
    (dval (sr_min_notional r) <= dval (ss_runner_quantity c * sr_initial_stop_price r)%dec)%Q
}.

Lemma margin_quantity_bound r (budget affordable q : Decimal) leverage :
  sizing_facts r → (0 < dval budget)%Q → 0 < leverage →
  ddiv (budget * of_int leverage)%dec (sr_entry_reference_price r) = Ok affordable →
  floor_to_step affordable (sr_quantity_step r) = Ok q →
  (0 <= dval q)%Q ∧
  (dval q * dval (sr_entry_reference_price r) <= grown 6 (dval budget * inject_Z leverage))%Q.
Proof.
  intros Hr Hb Hl Ha Hq. pose proof (entry_pos r Hr) as He. pose proof (step_pos r Hr) as Hst.
  assert (HlQ : (0 < inject_Z leverage)%Q) by (change 0%Q with (inject_Z 0); by rewrite <- Zlt_Qlt).
  assert (Hln : (0 <= dval (of_int leverage))%Q) by (rewrite dval_of_int; by apply Qlt_le_weak).
  assert (Hbn : (0 <= dval budget)%Q) by (by apply Qlt_le_weak).
  pose proof (dmul_nonneg _ _ Hbn Hln) as Hmn. pose proof (dmul_upper _ _ Hbn Hln) as Hmu.
  rewrite dval_of_int in Hmu.
  pose proof (ddiv_nonneg _ _ _ Hmn He Ha) as Han. pose proof (ddiv_upper _ _ _ Hmn He Ha) as Hau.
  destruct (floor_to_step_bounds _ _ _ Hst Han Hq) as [Hq0 Hq1]. split; [done|].
  set (E := dval (sr_entry_reference_price r)) in *.
  assert (H1 : (dval q <= grown 5 (dval (budget * of_int leverage)%dec / E))%Q).
  { eapply Qle_trans; [exact Hq1|]. change (grown 5 ?x) with (grown 3 (grown 2 x)). by apply grown_mono. }
  eapply Qle_trans; [apply Qmult_le_compat_r; [exact H1|lra]|].
  rewrite Qmult_comm, <- grown_scale.
  setoid_replace (E * (dval (budget * of_int leverage)%dec / E))%Q
    with (dval (budget * of_int leverage)%dec) using relation Qeq by (field; lra).
  change (grown 6 ?x) with (grown 5 (grown 1 x)). by apply grown_mono.
Qed.

Lemma candidate_inv r slots rb rg rd mb gm em margin_budget risk_quantity req leverage c :
  sizing_facts r → (0 < dval margin_budget)%Q → 0 < leverage →
  evaluate_candidate r slots rb rg rd mb gm em margin_budget risk_quantity req leverage = Ok (inl c) →
  candidate_ok r margin_budget risk_quantity leverage c.
Proof.
  intros Hr Hb Hl H. unfold evaluate_candidate in H.
  apply bind_Ok in H as (affordable & Ha & H). apply bind_Ok in H as (margin_q & Hmq & H).
  cbv zeta in H. fold (risk_per_unit r) in H.
  destruct (margin_quantity_bound r margin_budget affordable margin_q leverage Hr Hb Hl Ha Hmq) as [M0 M1].
  set (quantity := dmin risk_quantity margin_q) in *.
  destruct (_ || _) eqn:G1 in H; [discriminate H|].
  apply bind_Ok in H as (tp1 & Htp1 & H).
  destruct (_ || _) eqn:G2 in H; [discriminate H|]. destruct (_ || _) eqn:G3 in H; [discriminate H|].
  apply bind_Ok in H as (ratio & _ & H). apply bind_Ok in H as (reserved & Hres & H).
  apply Ok_inj in H. injection H as <-. decimal_facts.
  pose proof (entry_pos r Hr) as He. pose proof (min_quantity_pos r Hr) as Hmin.
  assert (HlQ : (0 < dval (of_int leverage))%Q)
    by (rewrite dval_of_int; change 0%Q with (inject_Z 0); by rewrite <- Zlt_Qlt).
  assert (Hq0 : (0 <= dval quantity)%Q) by lra.
  assert (Hqm : (dval quantity <= dval margin_q)%Q) by apply dmin_le_r.
  assert (Hn : (dval (quantity * sr_entry_reference_price r)%dec
                <= grown 7 (dval margin_budget * inject_Z leverage))%Q).
  { eapply Qle_trans; [apply dmul_upper; [done|lra]|]. cbn [grown].
    apply Qmult_le_compat_r; [|apply eps_bounds]. eapply Qle_trans; [|exact M1].
    apply Qmult_le_compat_r; [done|lra]. }
  split; cbn -[grown]; try done; try lra; [apply dmin_le_l|].
  assert (Hnn : (0 <= dval (quantity * sr_entry_reference_price r)%dec)%Q)
    by (apply dmul_nonneg; [done|lra]).
  pose proof (ddiv_upper _ _ _ Hnn HlQ Hres) as Hru. rewrite dval_of_int in *.
  eapply Qle_trans; [exact Hru|]. change (grown 9 ?x) with (grown 2 (grown 7 x)). apply grown_mono.
  apply Qle_shift_div_r; [done|]. rewrite Qmult_comm, <- grown_scale.
  eapply Qle_trans; [exact Hn|]. apply grown_mono. lra.
Qed.

Lemma refused_Ok s d : refused s = Ok d → d = mkSizingDecision s None ∧ s ≠ SELECTED.
Proof.
  unfold refused, validate_CapacitySizingDecision. intros H. run_ok H.
  split; [done|]. intros ->. by apply validate_model_Ok, Forall_cons in E as [E _].
Qed.

Lemma refused_total s : s ≠ SELECTED → refused s = Ok (mkSizingDecision s None).
Proof. by destruct s. Qed.

Lemma evaluate_candidate_total r slots rb rg rd mb gm em margin_budget risk_quantity req leverage :
  sizing_facts r → (0 < dval (sr_total_wallet_balance r * sr_max_ticket_stop_risk_fraction r)%dec)%Q →
  0 < leverage →
  ∃ x, evaluate_candidate r slots rb rg rd mb gm em margin_budget risk_quantity req leverage = Ok x ∧
       (∀ s, x = inr s → s = VENUE_MINIMUM_UNMET ∨ s = EXIT_PLAN_UNEXECUTABLE).
Proof.
  intros Hr Hw Hl. unfold evaluate_candidate.
  assert (HlQ : (0 < dval (of_int leverage))%Q)
    by (rewrite dval_of_int; change 0%Q with (inject_Z 0); by rewrite <- Zlt_Qlt).
  destruct (ddiv_pos_total (margin_budget * of_int leverage)%dec _ (entry_pos r Hr)) as [a ->].
  cbn [mbind result_bind].
  destruct (floor_to_step_total a _ (step_pos r Hr)) as [m ->]. cbn [mbind result_bind]. cbv zeta.
  destruct (_ || _ || _); [eexists; split; [done|]; intros s [= <-]; auto|].
  edestruct floor_to_step_total as [tp1 ->]; [apply (step_pos r Hr)|]. cbn [mbind result_bind].
  destruct (_ || _); [eexists; split; [done|]; intros s [= <-]; auto|].
  destruct (_ || _ || _); [eexists; split; [done|]; intros s [= <-]; auto|].
  repeat match goal with
  | |- context [ddiv ?x (of_int leverage)] =>
      destruct (ddiv_pos_total x _ HlQ) as [? ->]; cbn [mbind result_bind]
  | |- context [ddiv ?x (sr_total_wallet_balance r * sr_max_ticket_stop_risk_fraction r)%dec] =>
      destruct (ddiv_pos_total x _ Hw) as [? ->]; cbn [mbind result_bind]
  end.
  eexists. split; [done|]. discriminate.
Qed.

(** ** The decision *)

Lemma size_within_total r b :
  sizing_facts r → (0 < dval (sr_total_wallet_balance r * sr_max_ticket_stop_risk_fraction r)%dec)%Q →
  (0 < dval (sb_ticket_margin_budget b))%Q →
  ∃ d, size_within r b = Ok d ∧ sd_status d ≠ INVALID_FACTS ∧ sd_status d ≠ COUNT_EXHAUSTED.
Proof.
  intros Hr Hw Hb. unfold size_within. cbv zeta. fold (risk_per_unit r).
  edestruct ddiv_pos_total as [u ->]; [apply (risk_per_unit_pos r Hr)|]. cbn [mbind result_bind].
  edestruct floor_to_step_total as [q ->]; [apply (step_pos r Hr)|]. cbn [mbind result_bind].
  destruct (q <=? d0)%dec; [eexists; split; [by apply refused_total|done]|].
  edestruct ddiv_pos_total as [ratio ->]; [exact Hb|]. cbn [mbind result_bind map_result].
  edestruct evaluate_candidate_total as (x & -> & Hx); [exact Hr|exact Hw|reflexivity|].
  cbn [mbind result_bind mret result_ret omap list_omap].
  destruct x as [c|s]; cbn [candidate_of existsb refuses_with].
  - destruct (_ <? _)%dec; eexists; (split; [reflexivity|done]).
  - destruct (Hx s eq_refl) as [-> | ->]; cbn; eexists; (split; [by apply refused_total|done]).
Qed.

Lemma dmin3_pos a b c : (0 < dval (dmin (dmin a b) c))%Q → (0 < dval a)%Q.
Proof.
  intros H. pose proof (dmin_le_l (dmin a b) c). pose proof (dmin_le_l a b). lra.
Qed.

Lemma choose_single risk_quantity c : choose_candidate risk_quantity c [] = c.
Proof. unfold choose_candidate. rewrite filter_cons. by destruct (decide _). Qed.

Lemma size_within_selected r b d c :
  sizing_facts r → (0 < dval (sb_ticket_margin_budget b))%Q →
  size_within r b = Ok d → sd_selected d = Some c →
  ∃ units risk_quantity,
    ddiv (sb_ticket_stop_risk_budget b) (risk_per_unit r) = Ok units ∧
    floor_to_step units (sr_quantity_step r) = Ok risk_quantity ∧
    candidate_ok r (sb_ticket_margin_budget b) risk_quantity FIXED_EXCHANGE_CONFIGURED_LEVERAGE c ∧
    (dval (sb_minimum_stop_risk_budget b) <= dval (ss_planned_stop_risk c))%Q.
Proof.
  intros Hr Hb H Hc. unfold size_within in H. cbv zeta in H. fold (risk_per_unit r) in H.
  apply bind_Ok in H as (u & Hu & H). apply bind_Ok in H as (q & Hq & H). exists u, q.
  destruct (q <=? d0)%dec; [apply refused_Ok in H as [-> _]; discriminate Hc|].
  apply bind_Ok in H as (ratio & _ & H). apply bind_Ok in H as (ev & Hev & H).
  cbn [map_result] in Hev. apply bind_Ok in Hev as (x & Hx & Hev). apply Ok_inj in Hev as <-.
  destruct x as [c'|s]; cbn [omap list_omap candidate_of] in H.
  - rewrite choose_single in H. destruct (_ <? _)%dec eqn:G in H;
      [apply refused_Ok in H as [-> _]; discriminate Hc|].
    unfold validate_CapacitySizingDecision in H. run_ok H. cbn in Hc. injection Hc as ->.
    decimal_facts. split_and!; try done. by eapply candidate_inv.
  - cbn [existsb] in H. repeat case_match; apply refused_Ok in H as [-> _]; discriminate Hc.
Qed.

Lemma planned_risk_bound r budget units risk_quantity c margin_budget leverage :
  sizing_facts r → (0 < dval budget)%Q →
  ddiv budget (risk_per_unit r) = Ok units →
  floor_to_step units (sr_quantity_step r) = Ok risk_quantity →
  candidate_ok r margin_budget risk_quantity leverage c →
  (dval (ss_planned_stop_risk c) <= grown 6 (dval budget))%Q.
Proof.
  intros Hr Hb Hu Hq Hc. pose proof (risk_per_unit_pos r Hr) as Hp. pose proof (step_pos r Hr) as Hst.
  assert (Hbn : (0 <= dval budget)%Q) by (by apply Qlt_le_weak).
  pose proof (ddiv_nonneg _ _ _ Hbn Hp Hu) as Hun. pose proof (ddiv_upper _ _ _ Hbn Hp Hu) as Huu.
  destruct (floor_to_step_bounds _ _ _ Hst Hun Hq) as [_ Hq1].
  pose proof (ok_risk_quantity _ _ _ _ _ Hc) as H1. pose proof (ok_min_quantity _ _ _ _ _ Hc) as H2.
  pose proof (min_quantity_pos r Hr) as H3. rewrite (ok_planned_value _ _ _ _ _ Hc).
  eapply Qle_trans; [apply dmul_upper; lra|]. change (grown 6 ?x) with (grown 5 x * (1 + eps))%Q.
  apply Qmult_le_compat_r; [|apply eps_bounds].
  eapply Qle_trans; [apply Qmult_le_compat_r;
    [eapply Qle_trans; [exact H1|]; eapply Qle_trans; [exact Hq1|apply grown_mono, Huu]|lra]|].
  rewrite grown_add, Qmult_comm, <- grown_scale. cbn [Nat.add].
  setoid_replace (dval (risk_per_unit r) * (dval budget / dval (risk_per_unit r)))%Q
    with (dval budget) using relation Qeq by (field; lra). apply Qle_refl.
Qed.

Lemma validate_decision_shape d d' :
  validate_CapacitySizingDecision d = Ok d' →
  d' = d ∧ (sd_status d' = SELECTED ↔ is_Some (sd_selected d')).
Proof.
  unfold validate_CapacitySizingDecision. intros H. run_ok H. split; [done|].
  apply validate_model_Ok, Forall_cons in E as [E _]. cbn in E.
  apply negb_false_iff, Bool.eqb_prop in E. destruct (sd_selected d'); cbn in E.
  - by apply bool_decide_eq_true in E.
  - apply bool_decide_eq_false in E. split; [done|]. by intros [c [=]].
Qed.

Lemma size_within_shape r b d :
  size_within r b = Ok d → (sd_status d = SELECTED ↔ is_Some (sd_selected d)).
Proof.
  intros H. unfold size_within in H.
  apply bind_Ok in H as (u & _ & H). apply bind_Ok in H as (q & _ & H). cbv zeta in H.
  assert (R : ∀ s, refused s = Ok d → (sd_status d = SELECTED ↔ is_Some (sd_selected d))).
  { by intros s [_ ?]%validate_decision_shape. }
  destruct (q <=? d0)%dec; [by eapply R|]. apply bind_Ok in H as (ratio & _ & H).
  apply bind_Ok in H as (ev & _ & H).
  destruct (omap _ _); repeat case_match; try (by eapply R).
  by apply validate_decision_shape in H as [_ ?].
Qed.
