(* ===== verification/Capacity.v ===== *)
(** * Capacity Claim ([domain/capacity.py])

    The immutable capacity authority of one Ticket: the owner's policy, the
    usage and instrument facts, the Claim with its validators, its freezing at
    the storage boundary, and the Ticket it issues. *)

From Stdlib Require Import QArith.
From S2P Require Import Prelude PyString Sha256 PyDecimal DecimalFacts Identities Ticket.
From S2P Require Import CrossMarginStress.
#[local] Open Scope Z_scope.

Inductive CapacityClaimStatus :=
  | CLAIMED | SIGNAL_INVALID_OR_STALE | SCOPE_OR_POLICY_MISMATCH | ACTION_FACTS_INVALID_OR_STALE
  | ACCOUNT_MODE_INVALID | INSTRUMENT_RULES_INVALID | NETTING_DOMAIN_OCCUPIED | BUDGET_EXHAUSTED
  | EXPOSURE_FAMILY_CAPACITY_EXHAUSTED | STRATEGY_SIDE_CAPACITY_EXHAUSTED
  | CLAIM_DIRECTIONAL_RISK_EXHAUSTED | PROTECTION_UNAVAILABLE | EXIT_LEG_MATERIALIZATION_UNMET.
#[export] Instance CapacityClaimStatus_eq_dec : EqDecision CapacityClaimStatus.
Proof. solve_decision. Defined.

(** ** Policy, usage and instrument rules *)

Record FamilyTicketLimits := mkFamilyLimits {
  fl_long_continuation : Z;
  fl_opening_range : Z;
  fl_rally_failure_short : Z
}.

Definition validate_FamilyTicketLimits (l : FamilyTicketLimits) : result FamilyTicketLimits :=
  validate_fields
    ((λ v, (v <=? 0, "Family Ticket limits must be positive")) <$>
       [fl_long_continuation l; fl_opening_range l; fl_rally_failure_short l]);;
  mret l.

(** [FamilyTicketLimits.for_family]: the three families are all there are. *)
Definition for_family (l : FamilyTicketLimits) (exposure_family : ExposureFamily) : Z :=
  match exposure_family with
  | long_continuation => fl_long_continuation l
  | opening_range => fl_opening_range l
  | rally_failure_short => fl_rally_failure_short l
  end.

Record CapacityPolicy := mkPolicy {
  cp_owner_policy_id : str;
  cp_policy_version : Z;
  cp_max_concurrent_tickets : Z;
  cp_max_same_strategy_side : option Z;
  cp_family_ticket_limits : FamilyTicketLimits;
  cp_max_ticket_stop_risk_fraction : Decimal;
  cp_max_gross_stop_risk_fraction : Decimal;
  cp_max_ticket_initial_margin_fraction : Decimal;
  cp_max_gross_initial_margin_utilization : Decimal;
  cp_directional_stop_risk_limit_fraction : Decimal;
  cp_min_materialization_ratio : Decimal;
  cp_max_leverage : Z;
  cp_post_stop_stress_multiple : Decimal;
  cp_max_post_fill_stop_risk_overrun_fraction : Decimal
}.

Definition validate_CapacityPolicy (p : CapacityPolicy) : result CapacityPolicy :=
  validate_fields
    ([(blank (cp_owner_policy_id p), "capacity policy identity must be non-blank")] ++
     ((λ v, (v <=? 0, "capacity policy versions and counts must be positive")) <$>
        [cp_policy_version p; cp_max_concurrent_tickets p; cp_max_leverage p]) ++
     ((λ v, (nonpositive v || (v >? d1)%dec, "capacity policy fractions must be in (0, 1]")) <$>
        [cp_max_ticket_stop_risk_fraction p; cp_max_gross_stop_risk_fraction p;
         cp_directional_stop_risk_limit_fraction p; cp_max_ticket_initial_margin_fraction p;
         cp_max_gross_initial_margin_utilization p; cp_min_materialization_ratio p]) ++
     [(nonpositive (cp_post_stop_stress_multiple p),
       "capacity policy safety values must be positive");
      (opt_test (λ v, v <=? 0) (cp_max_same_strategy_side p),
       "strategy-side limit must be a positive integer or None");
      (negative (cp_max_post_fill_stop_risk_overrun_fraction p)
       || (cp_max_post_fill_stop_risk_overrun_fraction p >=? d1)%dec,
       "capacity policy post-fill overrun must be in [0, 1)")]);;
  mret (mkPolicy (strip (cp_owner_policy_id p)) (cp_policy_version p) (cp_max_concurrent_tickets p)
          (cp_max_same_strategy_side p) (cp_family_ticket_limits p)
          (cp_max_ticket_stop_risk_fraction p) (cp_max_gross_stop_risk_fraction p)
          (cp_max_ticket_initial_margin_fraction p) (cp_max_gross_initial_margin_utilization p)
          (cp_directional_stop_risk_limit_fraction p) (cp_min_materialization_ratio p)
          (cp_max_leverage p) (cp_post_stop_stress_multiple p)
          (cp_max_post_fill_stop_risk_overrun_fraction p)).

Record CapacityUsage := mkUsage {
  cu_gross_notional : Decimal;
  cu_gross_risk_at_stop : Decimal;
  cu_current_reserved_margin : Decimal;
  cu_active_ticket_count : Z;
  cu_active_family_ticket_count : Z;
  cu_active_strategy_side_ticket_count : Z;
  cu_directional_risk_at_stop : Decimal
}.

Definition validate_CapacityUsage (u : CapacityUsage) : result CapacityUsage :=
  validate_fields
    (((λ v, (negative v, "capacity usage cannot be negative")) <$>
        [cu_gross_notional u; cu_gross_risk_at_stop u; cu_current_reserved_margin u;
         cu_directional_risk_at_stop u]) ++
     ((λ v, (v <? 0, "active Ticket count cannot be negative")) <$>
        [cu_active_ticket_count u; cu_active_family_ticket_count u;
         cu_active_strategy_side_ticket_count u]));;
  mret u.

Record CapacityInstrumentRules := mkInstrumentRules {
  ir_venue_id : str;
  ir_exchange_instrument_id : str;
  ir_quantity_step : Decimal;
  ir_price_tick : Decimal;
  ir_min_quantity : Decimal;
  ir_min_notional : Decimal;
  ir_exchange_max_leverage : Z;
  ir_maintenance_margin_brackets : list MaintenanceMarginBracket;
  ir_maintenance_margin_brackets_digest : str;
  ir_notional_coefficient : Decimal;
  ir_notional_coefficient_certified : bool;
  ir_projection_version : Z;
  ir_observed_at_ms : Z;
  ir_valid_until_ms : Z
}.

Definition validate_CapacityInstrumentRules (r : CapacityInstrumentRules)
    : result CapacityInstrumentRules :=
  validate_fields
    ((λ v, (nonpositive v, "instrument rules must be positive")) <$>
       [ir_quantity_step r; ir_price_tick r; ir_min_quantity r; ir_min_notional r;
        ir_notional_coefficient r]);;
  validate_model
    [((ir_projection_version r <=? 0) || (ir_observed_at_ms r <=? 0)
      || (ir_valid_until_ms r <=? ir_observed_at_ms r),
      "instrument rule identity must be current and versioned");
     ((ir_exchange_max_leverage r <=? 0)
      || match ir_maintenance_margin_brackets r with [] => true | _ => false end,
      "instrument leverage and maintenance authority are required");
     (negb (is_sha256_digest (ir_maintenance_margin_brackets_digest r)),
      "instrument maintenance authority requires a digest")];;
  mret r.

(** ** The Claim *)

(** [Literal["independent_sides", "one_way"]], [Literal["cross", "isolated"]] *)
Inductive PositionMode := independent_sides | one_way.
Inductive MarginMode := cross | isolated.
#[export] Instance MarginMode_eq_dec : EqDecision MarginMode.
Proof. solve_decision. Defined.

Definition position_mode_value (m : PositionMode) : str :=
  match m with independent_sides => "independent_sides" | one_way => "one_way" end.
Definition margin_mode_value (m : MarginMode) : str :=
  match m with cross => "cross" | isolated => "isolated" end.
Definition entry_order_type_value (t : EntryOrderType) : str :=
  match t with MARKET => "market" | LIMIT => "limit" end.

Record CapacityClaim := mkClaim {
  cc_capacity_claim_id : str;
  cc_ticket_identity : TicketIdentity;
  cc_owner_policy_id : str;
  cc_owner_policy_version : Z;
  cc_runtime_scope_id : str;
  cc_runtime_scope_version : Z;
  cc_universe_version_id : str;
  cc_universe_semantic_digest : str;
  cc_fact_digest : str;
  cc_exit_policy_id : str;
  cc_exit_policy_semantic_hash : str;
  cc_exit_binding_id : option str;
  cc_exit_binding_semantic_hash : option str;
  cc_exit_binding_authority_version : option Z;
  cc_entry_admission_snapshot_digest : str;
  cc_account_entry_health_digest : str;
  cc_instrument_entry_health_digest : str;
  cc_instrument_rules_projection_version : Z;
  cc_account_capacity_domain_key : str;
  cc_leverage_domain_key : str;
  cc_total_wallet_balance_at_claim : Decimal;
  cc_total_margin_balance_at_claim : Decimal;
  cc_total_initial_margin_at_claim : Decimal;
  cc_total_maintenance_margin_at_claim : Decimal;
  cc_available_margin_at_claim : Decimal;
  cc_mark_price_at_claim : Decimal;
  cc_position_mode_at_claim : PositionMode;
  cc_margin_mode_at_claim : MarginMode;
  cc_active_ticket_count_at_claim : Z;
  cc_remaining_slots_at_claim : Z;
  cc_exposure_family : ExposureFamily;
  cc_active_family_ticket_count_at_claim : Z;
  cc_family_ticket_limit : Z;
  cc_max_same_strategy_side : option Z;
  cc_active_strategy_side_ticket_count_at_claim : option Z;
  cc_remaining_family_slots_at_claim : Z;
  cc_gross_risk_at_stop_at_claim : Decimal;
  cc_directional_risk_at_stop_at_claim : Decimal;
  cc_current_reserved_margin_at_claim : Decimal;
  cc_max_ticket_stop_risk_fraction : Decimal;
  cc_max_gross_stop_risk_fraction : Decimal;
  cc_directional_stop_risk_limit_fraction : Decimal;
  cc_max_ticket_initial_margin_fraction : Decimal;
  cc_max_gross_initial_margin_utilization : Decimal;
  cc_min_materialization_ratio : Decimal;
  cc_minimum_stop_risk_budget : Decimal;
  cc_planned_stop_risk_budget : Decimal;
  cc_max_post_fill_stop_risk_overrun_fraction : Decimal;
  cc_post_fill_stop_risk_limit : Decimal;
  cc_post_stop_stress_multiple : Decimal;
  cc_ticket_margin_budget : Decimal;
  cc_required_leverage : Z;
  cc_selected_leverage : Z;
  cc_configured_leverage_at_claim : Z;
  cc_leverage_change_required : bool;
  cc_exchange_max_leverage : Z;
  cc_reserved_margin : Decimal;
  cc_cross_margin_stress_evidence : CrossMarginStressEvidence;
  cc_created_at_ms : Z;
  cc_expires_at_ms : Z;
  cc_entry_reference_price : Decimal;
  cc_quantity : Decimal;
  cc_notional : Decimal;
  cc_risk_at_stop : Decimal;
  cc_entry_order_type : EntryOrderType;
  cc_entry_limit_price : option Decimal;
  cc_initial_stop_price : Decimal;
  cc_pre_tp1_reclaim_price : option Decimal;
  cc_exposure_session_end_ms : option Z;
  cc_take_profit_prices : list Decimal;
  cc_take_profit_quantities : list Decimal;
  cc_decision_digest : str;
  cc_selection_authority_id : option str
}.

(** The [mode="before"] validators that rewrite their field. *)
Definition normalize_claim (c : CapacityClaim) : CapacityClaim :=
  mkClaim
    (strip (cc_capacity_claim_id c)) (cc_ticket_identity c) (strip (cc_owner_policy_id c))
    (cc_owner_policy_version c) (strip (cc_runtime_scope_id c)) (cc_runtime_scope_version c)
    (strip (cc_universe_version_id c)) (cc_universe_semantic_digest c) (cc_fact_digest c)
    (strip (cc_exit_policy_id c)) (cc_exit_policy_semantic_hash c)
    (normalize_optional (cc_exit_binding_id c)) (cc_exit_binding_semantic_hash c)
    (cc_exit_binding_authority_version c) (cc_entry_admission_snapshot_digest c)
    (cc_account_entry_health_digest c) (cc_instrument_entry_health_digest c)
    (cc_instrument_rules_projection_version c) (cc_account_capacity_domain_key c)
    (cc_leverage_domain_key c) (cc_total_wallet_balance_at_claim c)
    (cc_total_margin_balance_at_claim c) (cc_total_initial_margin_at_claim c)
    (cc_total_maintenance_margin_at_claim c) (cc_available_margin_at_claim c)
    (cc_mark_price_at_claim c) (cc_position_mode_at_claim c) (cc_margin_mode_at_claim c)
    (cc_active_ticket_count_at_claim c) (cc_remaining_slots_at_claim c) (cc_exposure_family c)
    (cc_active_family_ticket_count_at_claim c) (cc_family_ticket_limit c)
    (cc_max_same_strategy_side c) (cc_active_strategy_side_ticket_count_at_claim c)
    (cc_remaining_family_slots_at_claim c) (cc_gross_risk_at_stop_at_claim c)
    (cc_directional_risk_at_stop_at_claim c) (cc_current_reserved_margin_at_claim c)
    (cc_max_ticket_stop_risk_fraction c) (cc_max_gross_stop_risk_fraction c)
    (cc_directional_stop_risk_limit_fraction c) (cc_max_ticket_initial_margin_fraction c)
    (cc_max_gross_initial_margin_utilization c) (cc_min_materialization_ratio c)
    (cc_minimum_stop_risk_budget c) (cc_planned_stop_risk_budget c)
    (cc_max_post_fill_stop_risk_overrun_fraction c) (cc_post_fill_stop_risk_limit c)
    (cc_post_stop_stress_multiple c) (cc_ticket_margin_budget c) (cc_required_leverage c)
    (cc_selected_leverage c) (cc_configured_leverage_at_claim c) (cc_leverage_change_required c)
    (cc_exchange_max_leverage c) (cc_reserved_margin c) (cc_cross_margin_stress_evidence c)
    (cc_created_at_ms c) (cc_expires_at_ms c) (cc_entry_reference_price c) (cc_quantity c)
    (cc_notional c) (cc_risk_at_stop c) (cc_entry_order_type c) (cc_entry_limit_price c)
    (cc_initial_stop_price c) (cc_pre_tp1_reclaim_price c) (cc_exposure_session_end_ms c)
    (cc_take_profit_prices c) (cc_take_profit_quantities c) (cc_decision_digest c)
    (normalize_optional (cc_selection_authority_id c)).

(** The field validators; failures are grouped by validator. *)
Definition claim_field_checks (c : CapacityClaim) : list (bool * str) :=
  ((λ v, (blank v, "CapacityClaim identities must be non-blank")) <$>
     [cc_capacity_claim_id c; cc_owner_policy_id c; cc_runtime_scope_id c;
      cc_universe_version_id c; cc_exit_policy_id c]) ++
  ((λ v, (negb (is_sha256_digest v), "CapacityClaim digests must be canonical sha256 values")) <$>
     [cc_fact_digest c; cc_universe_semantic_digest c; cc_entry_admission_snapshot_digest c;
      cc_account_entry_health_digest c; cc_instrument_entry_health_digest c; cc_decision_digest c;
      cc_exit_policy_semantic_hash c]) ++
  [(opt_test (λ v, negb (is_sha256_digest v)) (cc_exit_binding_semantic_hash c),
    "CapacityClaim Binding hash must be canonical");
   (opt_test (λ v, v <=? 0) (cc_exit_binding_authority_version c),
    "CapacityClaim Binding version must be positive")] ++
  ((λ v, (nonpositive v, "CapacityClaim financial values must be positive")) <$>
     [cc_entry_reference_price c; cc_quantity c; cc_notional c; cc_initial_stop_price c;
      cc_total_wallet_balance_at_claim c; cc_total_margin_balance_at_claim c;
      cc_available_margin_at_claim c; cc_mark_price_at_claim c;
      cc_max_ticket_stop_risk_fraction c; cc_max_gross_stop_risk_fraction c;
      cc_directional_stop_risk_limit_fraction c; cc_max_ticket_initial_margin_fraction c;
      cc_max_gross_initial_margin_utilization c; cc_min_materialization_ratio c;
      cc_planned_stop_risk_budget c; cc_post_fill_stop_risk_limit c;
      cc_post_stop_stress_multiple c; cc_ticket_margin_budget c; cc_reserved_margin c]) ++
  ((λ v, (negative v, "CapacityClaim account margin facts cannot be negative")) <$>
     [cc_total_initial_margin_at_claim c; cc_total_maintenance_margin_at_claim c;
      cc_gross_risk_at_stop_at_claim c; cc_directional_risk_at_stop_at_claim c;
      cc_current_reserved_margin_at_claim c]) ++
  [(negative (cc_risk_at_stop c), "CapacityClaim risk cannot be negative");
   (opt_test nonpositive (cc_pre_tp1_reclaim_price c),
    "CapacityClaim pre-TP1 reclaim must be positive")] ++
  ((λ v, (v <? 0, "CapacityClaim active count cannot be negative")) <$>
     [cc_active_ticket_count_at_claim c; cc_active_family_ticket_count_at_claim c;
      cc_remaining_family_slots_at_claim c]) ++
  ((λ v, (v <=? 0, "CapacityClaim integer evidence must be positive")) <$>
     [cc_remaining_slots_at_claim c; cc_family_ticket_limit c; cc_required_leverage c;
      cc_selected_leverage c; cc_configured_leverage_at_claim c; cc_exchange_max_leverage c]).

(** *** The digest *)

Definition Proof_json (p : CrossMarginStressProof) : JsonValue :=
  JObj [("model_id", JStr MODEL_ID);
        ("snapshot_digest", JStr (csp_snapshot_digest p));
        ("maintenance_margin_brackets_digest", JStr (csp_maintenance_margin_brackets_digest p));
        ("status", JStr (stress_status_value (csp_status p)));
        ("stress_price", JDec (csp_stress_price p));
        ("stress_boundary_clamped_to_zero", JBool (csp_stress_boundary_clamped_to_zero p));
        ("minimum_margin_surplus", JOpt JDec (csp_minimum_margin_surplus p));
        ("minimum_margin_surplus_price", JOpt JDec (csp_minimum_margin_surplus_price p));
        ("evaluated_point_count", JInt (csp_evaluated_point_count p));
        ("contradiction_reason", JOpt JStr (csp_contradiction_reason p));
        ("proof_digest", JStr (csp_proof_digest p))].

Definition Evidence_json (e : CrossMarginStressEvidence) : JsonValue :=
  JObj [("request", request_json (cse_request e)); ("proof", Proof_json (cse_proof e))].

(** The canonicalised dump less the identity and the digest, and less the
    absent selection authority, strategy-side evidence and exit binding. *)
Definition claim_payload (c : CapacityClaim) : JsonValue :=
  JObj
    ([("ticket_identity", TicketIdentity_json (cc_ticket_identity c));
      ("owner_policy_id", JStr (cc_owner_policy_id c));
      ("owner_policy_version", JInt (cc_owner_policy_version c));
      ("runtime_scope_id", JStr (cc_runtime_scope_id c));
      ("runtime_scope_version", JInt (cc_runtime_scope_version c));
      ("universe_version_id", JStr (cc_universe_version_id c));
      ("universe_semantic_digest", JStr (cc_universe_semantic_digest c));
      ("fact_digest", JStr (cc_fact_digest c));
      ("exit_policy_id", JStr (cc_exit_policy_id c));
      ("exit_policy_semantic_hash", JStr (cc_exit_policy_semantic_hash c));
      ("entry_admission_snapshot_digest", JStr (cc_entry_admission_snapshot_digest c));
      ("account_entry_health_digest", JStr (cc_account_entry_health_digest c));
      ("instrument_entry_health_digest", JStr (cc_instrument_entry_health_digest c));
      ("instrument_rules_projection_version", JInt (cc_instrument_rules_projection_version c));
      ("account_capacity_domain_key", JStr (cc_account_capacity_domain_key c));
      ("leverage_domain_key", JStr (cc_leverage_domain_key c));
      ("total_wallet_balance_at_claim", JDec (cc_total_wallet_balance_at_claim c));
      ("total_margin_balance_at_claim", JDec (cc_total_margin_balance_at_claim c));
      ("total_initial_margin_at_claim", JDec (cc_total_initial_margin_at_claim c));
      ("total_maintenance_margin_at_claim", JDec (cc_total_maintenance_margin_at_claim c));
      ("available_margin_at_claim", JDec (cc_available_margin_at_claim c));
      ("mark_price_at_claim", JDec (cc_mark_price_at_claim c));
      ("position_mode_at_claim", JStr (position_mode_value (cc_position_mode_at_claim c)));
      ("margin_mode_at_claim", JStr (margin_mode_value (cc_margin_mode_at_claim c)));
      ("active_ticket_count_at_claim", JInt (cc_active_ticket_count_at_claim c));
      ("remaining_slots_at_claim", JInt (cc_remaining_slots_at_claim c));
      ("exposure_family", JStr (exposure_family_value (cc_exposure_family c)));
      ("active_family_ticket_count_at_claim", JInt (cc_active_family_ticket_count_at_claim c));
      ("family_ticket_limit", JInt (cc_family_ticket_limit c));
      ("remaining_family_slots_at_claim", JInt (cc_remaining_family_slots_at_claim c));
      ("gross_risk_at_stop_at_claim", JDec (cc_gross_risk_at_stop_at_claim c));
      ("directional_risk_at_stop_at_claim", JDec (cc_directional_risk_at_stop_at_claim c));
      ("current_reserved_margin_at_claim", JDec (cc_current_reserved_margin_at_claim c));
      ("max_ticket_stop_risk_fraction", JDec (cc_max_ticket_stop_risk_fraction c));
      ("max_gross_stop_risk_fraction", JDec (cc_max_gross_stop_risk_fraction c));
      ("directional_stop_risk_limit_fraction", JDec (cc_directional_stop_risk_limit_fraction c));
      ("max_ticket_initial_margin_fraction", JDec (cc_max_ticket_initial_margin_fraction c));
      ("max_gross_initial_margin_utilization", JDec (cc_max_gross_initial_margin_utilization c));
      ("min_materialization_ratio", JDec (cc_min_materialization_ratio c));
      ("minimum_stop_risk_budget", JDec (cc_minimum_stop_risk_budget c));
      ("planned_stop_risk_budget", JDec (cc_planned_stop_risk_budget c));
      ("max_post_fill_stop_risk_overrun_fraction", JDec (cc_max_post_fill_stop_risk_overrun_fraction c));
      ("post_fill_stop_risk_limit", JDec (cc_post_fill_stop_risk_limit c));
      ("post_stop_stress_multiple", JDec (cc_post_stop_stress_multiple c));
      ("ticket_margin_budget", JDec (cc_ticket_margin_budget c));
      ("required_leverage", JInt (cc_required_leverage c));
      ("selected_leverage", JInt (cc_selected_leverage c));
      ("configured_leverage_at_claim", JInt (cc_configured_leverage_at_claim c));
      ("leverage_change_required", JBool (cc_leverage_change_required c));
      ("exchange_max_leverage", JInt (cc_exchange_max_leverage c));
      ("reserved_margin", JDec (cc_reserved_margin c));
      ("cross_margin_stress_evidence", Evidence_json (cc_cross_margin_stress_evidence c));
      ("created_at_ms", JInt (cc_created_at_ms c));
      ("expires_at_ms", JInt (cc_expires_at_ms c));
      ("entry_reference_price", JDec (cc_entry_reference_price c));
      ("quantity", JDec (cc_quantity c));
      ("notional", JDec (cc_notional c));
      ("risk_at_stop", JDec (cc_risk_at_stop c));
      ("entry_order_type", JStr (entry_order_type_value (cc_entry_order_type c)));
      ("entry_limit_price", JOpt JDec (cc_entry_limit_price c));
      ("initial_stop_price", JDec (cc_initial_stop_price c));
      ("pre_tp1_reclaim_price", JOpt JDec (cc_pre_tp1_reclaim_price c));
      ("exposure_session_end_ms", JOpt JInt (cc_exposure_session_end_ms c));
      ("take_profit_prices", JList (JDec <$> cc_take_profit_prices c));
      ("take_profit_quantities", JList (JDec <$> cc_take_profit_quantities c))] ++
     match cc_selection_authority_id c with
     | Some a => [("selection_authority_id", JStr a)]
     | None => []
     end ++
     (if is_none (cc_max_same_strategy_side c)
         && is_none (cc_active_strategy_side_ticket_count_at_claim c)
      then []
      else [("max_same_strategy_side", JOpt JInt (cc_max_same_strategy_side c));
            ("active_strategy_side_ticket_count_at_claim",
             JOpt JInt (cc_active_strategy_side_ticket_count_at_claim c))]) ++
     match cc_exit_binding_id c with
     | Some b =>
         [("exit_binding_id", JStr b);
          ("exit_binding_semantic_hash", JOpt JStr (cc_exit_binding_semantic_hash c));
          ("exit_binding_authority_version", JOpt JInt (cc_exit_binding_authority_version c))]
     | None => []
     end).

Definition build_capacity_claim_digest (c : CapacityClaim) : str := canonical_digest (claim_payload c).

(** [f"claim:{digest.removeprefix("sha256:")[:32]}"] *)
Definition claim_id_of (digest : str) : str :=
  "claim:" +:+ take_prefix 32 (remove_sha256_prefix digest).

(** *** The model validator *)

(** The strategy-side evidence, the binding lineage, times, slots and order
    shape. *)
Definition claim_shape_checks (c : CapacityClaim) : list (bool * str) :=
  let limit := cc_max_same_strategy_side c in
  let count := cc_active_strategy_side_ticket_count_at_claim c in
  let lineage_none :=
    [is_none (cc_exit_binding_id c); is_none (cc_exit_binding_semantic_hash c);
     is_none (cc_exit_binding_authority_version c)] in
  [(negb (Bool.eqb (is_none limit) (is_none count)),
    "strategy-side Claim evidence must be all-null or all-present");
   (match limit, count with
    | Some limit, Some count => (limit <=? 0) || (count <? 0) || (limit <=? count)
    | _, _ => false
    end, "strategy-side Claim count must fit its frozen limit");
   (existsb id lineage_none && negb (forallb id lineage_none),
    "CapacityClaim Binding lineage must be all-null or all-present");
   ((cc_owner_policy_version c <=? 0) || (cc_runtime_scope_version c <=? 0)
    || (cc_instrument_rules_projection_version c <=? 0) || (cc_created_at_ms c <=? 0)
    || (cc_expires_at_ms c <=? cc_created_at_ms c),
    "CapacityClaim authority and time must be positive");
   (negb (cc_remaining_family_slots_at_claim c =?
            cc_family_ticket_limit c - cc_active_family_ticket_count_at_claim c),
    "CapacityClaim Family slot evidence differs");
   match cc_entry_order_type c with
   | MARKET => (negb (is_none (cc_entry_limit_price c)), "market CapacityClaim forbids a limit price")
   | LIMIT => (is_none (cc_entry_limit_price c) || opt_test nonpositive (cc_entry_limit_price c),
               "limit CapacityClaim requires a positive limit price")
   end;
   (negb (Bool.eqb (is_none (cc_pre_tp1_reclaim_price c)) (is_none (cc_exposure_session_end_ms c))),
    "CapacityClaim pre-TP1 plan fields must be paired");
   (opt_test (λ v, v <=? 0) (cc_exposure_session_end_ms c),
    "CapacityClaim Session end must be positive");
   (negb (Nat.eqb (length (cc_take_profit_prices c)) (length (cc_take_profit_quantities c))),
    "CapacityClaim take-profit legs must align");
   (existsb nonpositive (cc_take_profit_prices c), "CapacityClaim take-profit prices must be positive");
   (existsb nonpositive (cc_take_profit_quantities c),
    "CapacityClaim take-profit quantities must be positive");
   ((dsum (cc_take_profit_quantities c) >=? cc_quantity c)%dec,
    "CapacityClaim take-profit legs must preserve a runner");
   (cc_exchange_max_leverage c <? cc_selected_leverage c,
    "CapacityClaim selected leverage exceeds exchange maximum")].

(** The risk and margin budgets. *)
Definition claim_budget_checks (c : CapacityClaim) : list (bool * str) :=
  let wallet := cc_total_wallet_balance_at_claim c in
  let planned := cc_planned_stop_risk_budget c in
  let remaining_gross_risk :=
    (wallet * cc_max_gross_stop_risk_fraction c - cc_gross_risk_at_stop_at_claim c)%dec in
  let remaining_directional_risk :=
    (wallet * cc_directional_stop_risk_limit_fraction c
     - cc_directional_risk_at_stop_at_claim c)%dec in
  let expected_minimum :=
    (wallet * cc_max_ticket_stop_risk_fraction c * cc_min_materialization_ratio c)%dec in
  let remaining_gross_margin :=
    (cc_total_margin_balance_at_claim c * cc_max_gross_initial_margin_utilization c
     - dmax (cc_total_initial_margin_at_claim c) (cc_current_reserved_margin_at_claim c))%dec in
  [((cc_risk_at_stop c >? planned)%dec, "CapacityClaim stop risk exceeds its planned budget");
   ((cc_post_fill_stop_risk_limit c <? planned)%dec,
    "CapacityClaim post-fill limit undercuts planned risk");
   ((planned >? wallet * cc_max_ticket_stop_risk_fraction c)%dec,
    "CapacityClaim exceeds the per-Ticket stop-risk limit");
   ((planned >? remaining_gross_risk)%dec, "CapacityClaim exceeds remaining gross stop risk");
   ((planned >? remaining_directional_risk)%dec,
    "CapacityClaim exceeds remaining directional stop risk");
   (negb (cc_minimum_stop_risk_budget c =? expected_minimum)%dec,
    "CapacityClaim minimum materialization differs");
   ((cc_risk_at_stop c <? cc_minimum_stop_risk_budget c)%dec,
    "CapacityClaim is below minimum materialization");
   ((cc_ticket_margin_budget c >?
       cc_total_margin_balance_at_claim c * cc_max_ticket_initial_margin_fraction c)%dec,
    "CapacityClaim exceeds the per-Ticket margin limit");
   ((cc_reserved_margin c >? cc_ticket_margin_budget c)%dec,
    "CapacityClaim reserved margin exceeds its frozen ticket budget");
   ((cc_ticket_margin_budget c >? remaining_gross_margin)%dec,
    "CapacityClaim exceeds remaining gross margin")].

(** The stress evidence is the one of this Claim. *)
Definition claim_stress_checks (c : CapacityClaim) : list (bool * str) :=
  let evidence := cc_cross_margin_stress_evidence c in
  let request := cse_request evidence in
  let account := csr_account_snapshot request in
  let domain := ti_netting_domain (cc_ticket_identity c) in
  [(negb (bool_decide (csp_status (cse_proof evidence) = PASSED)),
    "CapacityClaim requires a passed stress proof");
   (negb (csr_post_stop_stress_multiple request =? cc_post_stop_stress_multiple c)%dec,
    "CapacityClaim stress proof differs from policy");
   (negb (bool_decide (csr_evaluated_side request = nd_position_side domain)),
    "CapacityClaim stress proof differs from Ticket Side");
   (negb (bool_decide (ars_exchange_instrument_id account = nd_exchange_instrument_id domain)),
    "CapacityClaim stress proof differs from instrument");
   (negb ((ars_total_wallet_balance account =? cc_total_wallet_balance_at_claim c)%dec
          && (ars_total_margin_balance account =? cc_total_margin_balance_at_claim c)%dec
          && (ars_total_initial_margin account =? cc_total_initial_margin_at_claim c)%dec
          && (ars_total_maintenance_margin account =? cc_total_maintenance_margin_at_claim c)%dec
          && (ars_available_margin account =? cc_available_margin_at_claim c)%dec
          && (ars_mark_price account =? cc_mark_price_at_claim c)%dec
          && (ars_configured_leverage account =? cc_configured_leverage_at_claim c)
          && (csr_reference_entry_price request =? cc_entry_reference_price c)%dec
          && (csr_initial_stop_price request =? cc_initial_stop_price c)%dec),
    "CapacityClaim stress proof differs from Claim facts");
   (match list_find (λ p, sp_position_side p = nd_position_side domain)
            (csr_projected_instrument_positions request) with
    | None => true
    | Some (_, target) =>
        negb ((sp_quantity target =? cc_quantity c)%dec
              && (sp_average_entry_price target =? cc_entry_reference_price c)%dec)
    end, "CapacityClaim stress projection differs from sizing")].

(** [_validate_claim] *)
Definition claim_model_checks (c : CapacityClaim) : list (bool * str) :=
  let expected_digest := build_capacity_claim_digest c in
  claim_shape_checks c ++ claim_budget_checks c ++ claim_stress_checks c ++
  [(negb (bool_decide (expected_digest = cc_decision_digest c)),
    "CapacityClaim decision digest differs from its payload");
   (negb (bool_decide (cc_capacity_claim_id c = claim_id_of expected_digest)),
    "CapacityClaim identity differs from its decision digest")].

Definition validate_CapacityClaim (c : CapacityClaim) : result CapacityClaim :=
  validate_fields (claim_field_checks c);;
  let c := normalize_claim c in
  validate_model (claim_model_checks c);;
  mret c.

(** ** Issuing the Ticket *)

(** The arguments [to_ticket] passes to [TradeTicket]. *)
Definition claim_ticket (c : CapacityClaim) : TradeTicket :=
  mkTradeTicket (cc_ticket_identity c) (cc_owner_policy_id c) (cc_owner_policy_version c)
    (cc_runtime_scope_id c) (cc_runtime_scope_version c) (cc_universe_version_id c)
    (cc_universe_semantic_digest c) (cc_fact_digest c) (cc_exposure_family c)
    (cc_active_family_ticket_count_at_claim c) (cc_family_ticket_limit c)
    (cc_directional_risk_at_stop_at_claim c) (cc_directional_stop_risk_limit_fraction c)
    (cc_min_materialization_ratio c) (cc_minimum_stop_risk_budget c) (cc_exit_policy_id c)
    (cc_exit_policy_semantic_hash c) (cc_exit_binding_id c) (cc_exit_binding_semantic_hash c)
    (cc_exit_binding_authority_version c) (cc_capacity_claim_id c) (cc_created_at_ms c)
    (cc_expires_at_ms c) (cc_entry_reference_price c) (cc_quantity c) (cc_notional c)
    (cc_planned_stop_risk_budget c) (cc_post_fill_stop_risk_limit c) (cc_selected_leverage c)
    (cc_leverage_change_required c) (cc_reserved_margin c) "planned_stop_distance"
    (cc_post_stop_stress_multiple c)
    (csp_proof_digest (cse_proof (cc_cross_margin_stress_evidence c))) (cc_risk_at_stop c)
    (cc_entry_order_type c) (cc_entry_limit_price c) (cc_initial_stop_price c)
    (cc_pre_tp1_reclaim_price c) (cc_exposure_session_end_ms c) (cc_take_profit_prices c)
    (cc_take_profit_quantities c) ISSUED (cc_selection_authority_id c).

(** [CapacityClaim.to_ticket] *)
Definition to_ticket (c : CapacityClaim) : result TradeTicket :=
  raise_if (negb (bool_decide (cc_margin_mode_at_claim c = cross)))
    (ValueError "Ticket issuance requires the supported cross margin mode");;
  raise_if (is_none (cc_exit_binding_id c) || is_none (cc_exit_binding_semantic_hash c)
            || is_none (cc_exit_binding_authority_version c))
    (ValueError "new Ticket issuance requires exact Binding lineage");;
  validate_TradeTicket (claim_ticket c).

Record CapacityClaimDecision := mkClaimDecision {
  cd_status : CapacityClaimStatus;
  cd_claim : option CapacityClaim
}.

Definition validate_CapacityClaimDecision (d : CapacityClaimDecision)
    : result CapacityClaimDecision :=
  validate_model
    [(negb (Bool.eqb (bool_decide (cd_status d = CLAIMED)) (negb (is_none (cd_claim d)))),
      "claimed decisions require exactly one CapacityClaim")];;
  mret d.

(** ** Freezing at the storage boundary *)

(** [Decimal("0.000000000000000001")] *)
Definition PERSISTED_DECIMAL_QUANTUM : Decimal := mkDecimal 1 (-18).

(** [_quantize_storage_decimal] *)
Definition quantize_storage_decimal (value : Decimal) (mode : rounding) : result Decimal :=
  raise_if (negative value)
    (ValueError "CapacityClaim financial values must be finite and nonnegative");;
  quantize 60 mode value PERSISTED_DECIMAL_QUANTUM.

(** [_normalize_claim_decimals_for_storage].  The source iterates over two
    sets of names: the order decides only which failure is reported first. *)
Definition normalize_claim_decimals_for_storage (c : CapacityClaim) : result CapacityClaim :=
  total_wallet_balance_at_claim ← quantize_storage_decimal (cc_total_wallet_balance_at_claim c) ROUND_FLOOR;
  total_margin_balance_at_claim ← quantize_storage_decimal (cc_total_margin_balance_at_claim c) ROUND_FLOOR;
  available_margin_at_claim ← quantize_storage_decimal (cc_available_margin_at_claim c) ROUND_FLOOR;
  ticket_margin_budget ← quantize_storage_decimal (cc_ticket_margin_budget c) ROUND_FLOOR;
  max_ticket_stop_risk_fraction ← quantize_storage_decimal (cc_max_ticket_stop_risk_fraction c) ROUND_FLOOR;
  max_gross_stop_risk_fraction ← quantize_storage_decimal (cc_max_gross_stop_risk_fraction c) ROUND_FLOOR;
  max_ticket_initial_margin_fraction ← quantize_storage_decimal (cc_max_ticket_initial_margin_fraction c) ROUND_FLOOR;
  max_gross_initial_margin_utilization ← quantize_storage_decimal (cc_max_gross_initial_margin_utilization c) ROUND_FLOOR;
  post_stop_stress_multiple ← quantize_storage_decimal (cc_post_stop_stress_multiple c) ROUND_FLOOR;
  max_post_fill_stop_risk_overrun_fraction ← quantize_storage_decimal (cc_max_post_fill_stop_risk_overrun_fraction c) ROUND_FLOOR;
  quantity ← quantize_storage_decimal (cc_quantity c) ROUND_FLOOR;
  total_initial_margin_at_claim ← quantize_storage_decimal (cc_total_initial_margin_at_claim c) ROUND_CEILING;
  total_maintenance_margin_at_claim ← quantize_storage_decimal (cc_total_maintenance_margin_at_claim c) ROUND_CEILING;
  gross_risk_at_stop_at_claim ← quantize_storage_decimal (cc_gross_risk_at_stop_at_claim c) ROUND_CEILING;
  directional_risk_at_stop_at_claim ← quantize_storage_decimal (cc_directional_risk_at_stop_at_claim c) ROUND_CEILING;
  current_reserved_margin_at_claim ← quantize_storage_decimal (cc_current_reserved_margin_at_claim c) ROUND_CEILING;
  minimum_stop_risk_budget ← quantize_storage_decimal (cc_minimum_stop_risk_budget c) ROUND_CEILING;
  planned_stop_risk_budget ← quantize_storage_decimal (cc_planned_stop_risk_budget c) ROUND_CEILING;
  post_fill_stop_risk_limit ← quantize_storage_decimal (cc_post_fill_stop_risk_limit c) ROUND_CEILING;
  reserved_margin ← quantize_storage_decimal (cc_reserved_margin c) ROUND_CEILING;
  notional ← quantize_storage_decimal (cc_notional c) ROUND_CEILING;
  risk_at_stop ← quantize_storage_decimal (cc_risk_at_stop c) ROUND_CEILING;
  mark_price_at_claim ← quantize_storage_decimal (cc_mark_price_at_claim c) ROUND_FLOOR;
  entry_reference_price ← quantize_storage_decimal (cc_entry_reference_price c) ROUND_FLOOR;
  initial_stop_price ← quantize_storage_decimal (cc_initial_stop_price c) ROUND_FLOOR;
  entry_limit_price ← match cc_entry_limit_price c with
                      | None => mret None
                      | Some v => v ← quantize_storage_decimal v ROUND_FLOOR; mret (Some v)
                      end;
  take_profit_prices ← map_result (λ v, quantize_storage_decimal v ROUND_FLOOR)
                         (cc_take_profit_prices c);
  take_profit_quantities ← map_result (λ v, quantize_storage_decimal v ROUND_FLOOR)
                             (cc_take_profit_quantities c);
  mret (mkClaim
    (cc_capacity_claim_id c) (cc_ticket_identity c) (cc_owner_policy_id c)
    (cc_owner_policy_version c) (cc_runtime_scope_id c) (cc_runtime_scope_version c)
    (cc_universe_version_id c) (cc_universe_semantic_digest c) (cc_fact_digest c)
    (cc_exit_policy_id c) (cc_exit_policy_semantic_hash c) (cc_exit_binding_id c)
    (cc_exit_binding_semantic_hash c) (cc_exit_binding_authority_version c)
    (cc_entry_admission_snapshot_digest c) (cc_account_entry_health_digest c)
    (cc_instrument_entry_health_digest c) (cc_instrument_rules_projection_version c)
    (cc_account_capacity_domain_key c) (cc_leverage_domain_key c) total_wallet_balance_at_claim
    total_margin_balance_at_claim total_initial_margin_at_claim total_maintenance_margin_at_claim
    available_margin_at_claim mark_price_at_claim (cc_position_mode_at_claim c)
    (cc_margin_mode_at_claim c) (cc_active_ticket_count_at_claim c)
    (cc_remaining_slots_at_claim c) (cc_exposure_family c)
    (cc_active_family_ticket_count_at_claim c) (cc_family_ticket_limit c)
    (cc_max_same_strategy_side c) (cc_active_strategy_side_ticket_count_at_claim c)
    (cc_remaining_family_slots_at_claim c) gross_risk_at_stop_at_claim
    directional_risk_at_stop_at_claim current_reserved_margin_at_claim
    max_ticket_stop_risk_fraction max_gross_stop_risk_fraction
    (cc_directional_stop_risk_limit_fraction c) max_ticket_initial_margin_fraction
    max_gross_initial_margin_utilization (cc_min_materialization_ratio c)
    minimum_stop_risk_budget planned_stop_risk_budget max_post_fill_stop_risk_overrun_fraction
    post_fill_stop_risk_limit post_stop_stress_multiple ticket_margin_budget
    (cc_required_leverage c) (cc_selected_leverage c) (cc_configured_leverage_at_claim c)
    (cc_leverage_change_required c) (cc_exchange_max_leverage c) reserved_margin
    (cc_cross_margin_stress_evidence c) (cc_created_at_ms c) (cc_expires_at_ms c)
    entry_reference_price quantity notional risk_at_stop (cc_entry_order_type c)
    entry_limit_price initial_stop_price (cc_pre_tp1_reclaim_price c)
    (cc_exposure_session_end_ms c) take_profit_prices take_profit_quantities
    (cc_decision_digest c) (cc_selection_authority_id c)).

Definition with_identity (c : CapacityClaim) (claim_id digest : str) : CapacityClaim :=
  mkClaim
    claim_id (cc_ticket_identity c) (cc_owner_policy_id c) (cc_owner_policy_version c)
    (cc_runtime_scope_id c) (cc_runtime_scope_version c) (cc_universe_version_id c)
    (cc_universe_semantic_digest c) (cc_fact_digest c) (cc_exit_policy_id c)
    (cc_exit_policy_semantic_hash c) (cc_exit_binding_id c) (cc_exit_binding_semantic_hash c)
    (cc_exit_binding_authority_version c) (cc_entry_admission_snapshot_digest c)
    (cc_account_entry_health_digest c) (cc_instrument_entry_health_digest c)
    (cc_instrument_rules_projection_version c) (cc_account_capacity_domain_key c)
    (cc_leverage_domain_key c) (cc_total_wallet_balance_at_claim c)
    (cc_total_margin_balance_at_claim c) (cc_total_initial_margin_at_claim c)
    (cc_total_maintenance_margin_at_claim c) (cc_available_margin_at_claim c)
    (cc_mark_price_at_claim c) (cc_position_mode_at_claim c) (cc_margin_mode_at_claim c)
    (cc_active_ticket_count_at_claim c) (cc_remaining_slots_at_claim c) (cc_exposure_family c)
    (cc_active_family_ticket_count_at_claim c) (cc_family_ticket_limit c)
    (cc_max_same_strategy_side c) (cc_active_strategy_side_ticket_count_at_claim c)
    (cc_remaining_family_slots_at_claim c) (cc_gross_risk_at_stop_at_claim c)
    (cc_directional_risk_at_stop_at_claim c) (cc_current_reserved_margin_at_claim c)
    (cc_max_ticket_stop_risk_fraction c) (cc_max_gross_stop_risk_fraction c)
    (cc_directional_stop_risk_limit_fraction c) (cc_max_ticket_initial_margin_fraction c)
    (cc_max_gross_initial_margin_utilization c) (cc_min_materialization_ratio c)
    (cc_minimum_stop_risk_budget c) (cc_planned_stop_risk_budget c)
    (cc_max_post_fill_stop_risk_overrun_fraction c) (cc_post_fill_stop_risk_limit c)
    (cc_post_stop_stress_multiple c) (cc_ticket_margin_budget c) (cc_required_leverage c)
    (cc_selected_leverage c) (cc_configured_leverage_at_claim c) (cc_leverage_change_required c)
    (cc_exchange_max_leverage c) (cc_reserved_margin c) (cc_cross_margin_stress_evidence c)
    (cc_created_at_ms c) (cc_expires_at_ms c) (cc_entry_reference_price c) (cc_quantity c)
    (cc_notional c) (cc_risk_at_stop c) (cc_entry_order_type c) (cc_entry_limit_price c)
    (cc_initial_stop_price c) (cc_pre_tp1_reclaim_price c) (cc_exposure_session_end_ms c)
    (cc_take_profit_prices c) (cc_take_profit_quantities c) digest (cc_selection_authority_id c).

(** The keyword arguments of [freeze_capacity_claim] are the fields of [values]
    but the identity and the digest. *)
Definition freeze_capacity_claim (values : CapacityClaim) : result CapacityClaim :=
  payload ← normalize_claim_decimals_for_storage
              (with_identity values "claim:pending" ("sha256:" +:+ zeros 64));
  let decision_digest := build_capacity_claim_digest payload in
  validate_CapacityClaim (with_identity payload (claim_id_of decision_digest) decision_digest).
