(* ===== verification/StrategyRegistry.v ===== *)
(** * Strategy registry ([domain/strategy_registry.py])

    The canonical strategy contracts: the record of a registered Event, its
    validators, and the static table the kernel registers. *)

From S2P Require Import Prelude PyString Sha256 Identities Ticket.

Inductive FactRole :=
  | role_condition | role_protection_reference | role_identity_reference
  | role_lifecycle_reference | role_disable.
#[export] Instance FactRole_eq_dec : EqDecision FactRole.
Proof. solve_decision. Defined.

Definition fact_role_value (r : FactRole) : str :=
  match r with
  | role_condition => "condition"
  | role_protection_reference => "protection_reference"
  | role_identity_reference => "identity_reference"
  | role_lifecycle_reference => "lifecycle_reference"
  | role_disable => "disable"
  end.

(** [Literal["boolean", "decimal"]] *)
Inductive FactValueType := fact_boolean | fact_decimal.
#[export] Instance FactValueType_eq_dec : EqDecision FactValueType.
Proof. solve_decision. Defined.

Definition fact_value_type_value (v : FactValueType) : str :=
  match v with fact_boolean => "boolean" | fact_decimal => "decimal" end.

(** [Literal["15m", "1h"]] *)
Inductive Timeframe := tf_15m | tf_1h.
#[export] Instance Timeframe_eq_dec : EqDecision Timeframe.
Proof. solve_decision. Defined.

Definition timeframe_value (t : Timeframe) : str := match t with tf_15m => "15m" | tf_1h => "1h" end.

(** [Literal["rising_edge", "session_reference"]] *)
Inductive EpisodePolicy := rising_edge | session_reference.
#[export] Instance EpisodePolicy_eq_dec : EqDecision EpisodePolicy.
Proof. solve_decision. Defined.

Record RegisteredFactRequirement := mkFact {
  fr_fact_definition_id : str;
  fr_fact_name : str;
  fr_value_type : FactValueType;
  fr_role : FactRole;
  fr_freshness_ms : Z
}.
#[export] Instance RegisteredFactRequirement_eq_dec : EqDecision RegisteredFactRequirement.
Proof. solve_decision. Defined.

Definition validate_RegisteredFactRequirement (f : RegisteredFactRequirement)
    : result RegisteredFactRequirement :=
  validate_fields
    [(blank (fr_fact_definition_id f), "registered fact identity must be non-blank");
     (blank (fr_fact_name f), "registered fact identity must be non-blank");
     (fr_freshness_ms f <=? 0, "registered fact freshness must be positive")];;
  let f := mkFact (strip (fr_fact_definition_id f)) (strip (fr_fact_name f)) (fr_value_type f)
             (fr_role f) (fr_freshness_ms f) in
  validate_model
    [(bool_decide (fr_role f ∈ [role_protection_reference; role_identity_reference;
                                role_lifecycle_reference])
      && negb (bool_decide (fr_value_type f = fact_decimal)), "reference facts must be decimal");
     (bool_decide (fr_role f ∈ [role_condition; role_disable])
      && negb (bool_decide (fr_value_type f = fact_boolean)),
      "condition and disable facts must be boolean")];;
  mret f.

Record RegisteredStrategyContract := mkContract {
  sc_strategy_group_id : str;
  sc_strategy_version_id : str;
  sc_event_spec_id : str;
  sc_event_id : str;
  sc_position_side : PositionSide;
  sc_timeframe : Timeframe;
  sc_freshness_window_ms : Z;
  sc_entry_order_type : EntryOrderType;
  sc_episode_policy : EpisodePolicy;
  sc_exposure_family : ExposureFamily;
  sc_shadow_horizon_bars : Z;
  sc_protection_reference_fact : str;
  sc_pre_tp1_reclaim_reference_fact : option str;
  sc_exposure_session_end_reference_fact : option str;
  sc_required_facts : list RegisteredFactRequirement;
  sc_disable_facts : list RegisteredFactRequirement;
  sc_exit_policy_id : str;
  sc_active : bool
}.

(** [s.removeprefix(p)] of a string known to start with [p]. *)
Definition drop_prefix (p s : str) : option str :=
  if startswith s p
  then Some (String.substring (String.length p) (String.length s - String.length p) s) else None.

Definition is_digit (c : ascii) : bool :=
  let n := Z.of_N (N_of_ascii c) in (48 <=? n) && (n <=? 57).

(** The group of the pattern "sgv:<group>:v" followed by a positive decimal
    numeral without leading zero. *)
Definition version_of (group version_id : str) : option str :=
  match drop_prefix ("sgv:" +:+ group +:+ ":v") version_id with
  | Some (String c v) =>
      if is_digit c && negb (bool_decide (c = ascii_of_N 48))
         && forallb is_digit (String.list_ascii_of_string v)
      then Some (String c v) else None
  | _ => None
  end.

Definition names_with (role : FactRole) (c : RegisteredStrategyContract) : list str :=
  fr_fact_name <$> filter (λ f, fr_role f = role) (sc_required_facts c).

(** A pre-TP1 reference names a required lifecycle fact; the dictionary of
    the source keeps the last requirement of a name, and names are unique. *)
Definition lifecycle_reference (c : RegisteredStrategyContract) (o : option str) : bool :=
  opt_test (λ n, bool_decide (n ∈ names_with role_lifecycle_reference c)) o.

(** [_validate_contract] *)
Definition contract_model_checks (c : RegisteredStrategyContract) : list (bool * str) :=
  let version := version_of (sc_strategy_group_id c) (sc_strategy_version_id c) in
  let required_names := fr_fact_name <$> sc_required_facts c in
  let disable_names := fr_fact_name <$> sc_disable_facts c in
  let identity_references := names_with role_identity_reference c in
  let reclaim := sc_pre_tp1_reclaim_reference_fact c in
  let session_end := sc_exposure_session_end_reference_fact c in
  [(is_none version, "strategy version identity must be canonical");
   (negb (bool_decide (sc_event_spec_id c =
      "event_spec:" +:+ sc_strategy_group_id c +:+ ":" +:+ sc_event_id c +:+ ":v"
      +:+ default EmptyString version)),
    "event spec identity must match the strategy version");
   (bool_decide (required_names = []) || negb (bool_decide (NoDup required_names)),
    "required fact names must be non-empty and unique");
   (negb (bool_decide (NoDup disable_names)), "disable fact names must be unique");
   (existsb (λ n, bool_decide (n ∈ disable_names)) required_names,
    "required and disable facts must be disjoint");
   (existsb (λ f, bool_decide (fr_role f = role_disable)) (sc_required_facts c),
    "required facts cannot use the disable role");
   (existsb (λ f, negb (bool_decide (fr_role f = role_disable))) (sc_disable_facts c),
    "disable facts must use the disable role");
   (negb (bool_decide (names_with role_protection_reference c = [sc_protection_reference_fact c])),
    "contract requires exactly one protection reference fact");
   match sc_episode_policy c with
   | session_reference => (negb (Nat.eqb (length identity_references) 1),
                           "session-reference Event requires exactly one identity fact")
   | rising_edge => (negb (bool_decide (identity_references = [])),
                     "rising-edge Event forbids identity-reference facts")
   end;
   (negb (Bool.eqb (is_none reclaim) (is_none session_end)),
    "pre-TP1 reclaim and Session references must be paired");
   (negb (is_none reclaim)
    && negb (lifecycle_reference c reclaim && lifecycle_reference c session_end),
    "pre-TP1 plan must use lifecycle reference facts");
   (existsb (λ f, negb (fr_freshness_ms f =? sc_freshness_window_ms c))
      (sc_required_facts c ++ sc_disable_facts c),
    "registered facts must use the Event freshness window")].

Definition validate_RegisteredStrategyContract (c : RegisteredStrategyContract)
    : result RegisteredStrategyContract :=
  validate_fields
    (((λ v, (blank v, "registered strategy identity must be non-blank")) <$>
        [sc_strategy_group_id c; sc_strategy_version_id c; sc_event_spec_id c; sc_event_id c;
         sc_protection_reference_fact c; sc_exit_policy_id c]) ++
     [(sc_freshness_window_ms c <=? 0, "strategy freshness window must be positive");
      (sc_shadow_horizon_bars c <=? 0, "shadow horizon bars must be positive")]);;
  let c := mkContract (strip (sc_strategy_group_id c)) (strip (sc_strategy_version_id c))
             (strip (sc_event_spec_id c)) (strip (sc_event_id c)) (sc_position_side c)
             (sc_timeframe c) (sc_freshness_window_ms c) (sc_entry_order_type c)
             (sc_episode_policy c) (sc_exposure_family c) (sc_shadow_horizon_bars c)
             (strip (sc_protection_reference_fact c))
             (normalize_optional (sc_pre_tp1_reclaim_reference_fact c))
             (normalize_optional (sc_exposure_session_end_reference_fact c))
             (sc_required_facts c) (sc_disable_facts c) (strip (sc_exit_policy_id c))
             (sc_active c) in
  validate_model (contract_model_checks c);;
  mret c.

(** ** The registered contracts *)

(** [_fact] *)
Definition fact (fact_name : str) (role : FactRole) (freshness_ms fact_version : Z)
    : result RegisteredFactRequirement :=
  validate_RegisteredFactRequirement
    (mkFact ("fact:" +:+ fact_name +:+ ":v" +:+ string_of_Z fact_version) fact_name
       (match role with role_condition | role_disable => fact_boolean | _ => fact_decimal end)
       role freshness_ms).

(** The keyword arguments of [_contract]. *)
Record contract_args := mkContractArgs {
  ca_group : str;
  ca_event : str;
  ca_side : PositionSide;
  ca_timeframe : Timeframe;
  ca_facts : list (str * FactRole);
  ca_protection : str;
  ca_reclaim : option str;
  ca_session_end : option str;
  ca_disable : list str;
  ca_policy : EpisodePolicy;
  ca_family : ExposureFamily;
  ca_horizon : Z;
  ca_version : Z;
  ca_fact_version : Z;
  ca_variant : str
}.

(** [_contract] *)
Definition contract (a : contract_args) : result RegisteredStrategyContract :=
  let freshness_window_ms := match ca_timeframe a with tf_15m => 900000 | tf_1h => 3600000 end in
  let version := string_of_Z (ca_version a) in
  required ← map_result (λ f, fact f.1 f.2 freshness_window_ms (ca_fact_version a)) (ca_facts a);
  disable ← map_result (λ n, fact n role_disable freshness_window_ms (ca_fact_version a))
              (ca_disable a);
  validate_RegisteredStrategyContract
    (mkContract (ca_group a) ("sgv:" +:+ ca_group a +:+ ":v" +:+ version)
       ("event_spec:" +:+ ca_group a +:+ ":" +:+ ca_event a +:+ ":v" +:+ version) (ca_event a)
       (ca_side a) (ca_timeframe a) freshness_window_ms MARKET (ca_policy a) (ca_family a)
       (ca_horizon a) (ca_protection a) (ca_reclaim a) (ca_session_end a) required disable
       ("exit-policy:" +:+ ca_group a +:+ ":" +:+ ca_event a +:+ ":" +:+ ca_variant a) true).

(** A rising-edge Event with two conditions and a protection reference. *)
Definition edge_args (group event : str) (side : PositionSide) (c1 c2 reference : str)
    (disable : list str) (family : ExposureFamily) : contract_args :=
  mkContractArgs group event side tf_1h
    [(c1, role_condition); (c2, role_condition); (reference, role_protection_reference)]
    reference None None disable rising_edge family 24 3 1 "portfolio-admission-v1".

(** A session Event: its conditions, then the reclaim, protection, session
    start and session end references. *)
Definition session_args (group event : str) (side : PositionSide) (tf : Timeframe)
    (conditions : list str) (reclaim protection session_start session_end : str)
    (horizon version fact_version : Z) (variant : str) : contract_args :=
  mkContractArgs group event side tf
    (((λ n, (n, role_condition)) <$> conditions) ++
     [(reclaim, role_lifecycle_reference); (protection, role_protection_reference);
      (session_start, role_identity_reference); (session_end, role_lifecycle_reference)])
    protection (Some reclaim) (Some session_end) [] session_reference opening_range horizon version
    fact_version variant.

Definition registered_contract_args : list contract_args :=
  [edge_args "CPM-RO-001" "CPM-LONG" long "htf_trend_intact" "reclaim_confirmed"
     "pullback_low_reference" [] long_continuation;
   edge_args "MPG-001" "MPG-LONG" long "momentum_persistence_confirmed" "leader_strength_confirmed"
     "momentum_floor_reference" [] long_continuation;
   edge_args "MI-001" "MI-LONG" long "impulse_confirmed" "relative_strength_confirmed"
     "impulse_invalidation_reference" [] long_continuation;
   session_args "SOR-001" "SOR-LONG" long tf_15m
     ["opening_range_defined_v3"; "breakout_edge_crossed_v3"] "opening_range_high_reference_v3"
     "opening_range_low_reference_v3" "session_start_ms_v3" "session_end_ms_v3" 96 4 3
     "portfolio-admission-v1";
   session_args "SOR-001" "SOR-SHORT" short tf_15m
     ["opening_range_defined_v3"; "breakdown_edge_crossed_v3"] "opening_range_low_reference_v3"
     "opening_range_high_reference_v3" "session_start_ms_v3" "session_end_ms_v3" 96 4 3
     "portfolio-admission-v1";
   edge_args "BRF2-001" "BRF2-SHORT" short "rally_failure_confirmed" "short_side_not_disabled"
     "rally_high_reference" ["strong_uptrend_disable"] rally_failure_short;
   session_args "SOR-1H-001" "SOR-1H-LONG" long tf_1h
     ["opening_range_defined_1h_v1"; "entry_hour_eligible_1h_v1"; "breakout_edge_crossed_1h_v1"]
     "opening_range_high_reference_1h_v1" "opening_range_low_reference_1h_v1"
     "session_start_ms_1h_v1" "session_end_ms_1h_v1" 24 1 1 "orb-crypto-15m-v1";
   session_args "SOR-1H-001" "SOR-1H-SHORT" short tf_1h
     ["opening_range_defined_1h_v1"; "entry_hour_eligible_1h_v1"; "breakdown_edge_crossed_1h_v1"]
     "opening_range_low_reference_1h_v1" "opening_range_high_reference_1h_v1"
     "session_start_ms_1h_v1" "session_end_ms_1h_v1" 24 1 1 "orb-crypto-15m-v1";
   session_args "SOR-US-EQ-PERP-001" "SOR-US-LONG-15M" long tf_15m
     ["regular_session_confirmed_us_v1"; "opening_range_defined_us_v1";
      "breakout_edge_crossed_us_v1"] "opening_range_high_reference_us_v1"
     "initial_stop_reference_us_v1" "regular_session_open_ms_us_v1"
     "session_exit_deadline_ms_us_v1" 8 1 1 "us-regular-or-v1";
   session_args "SOR-US-EQ-PERP-001" "SOR-US-SHORT-15M" short tf_15m
     ["regular_session_confirmed_us_v1"; "opening_range_defined_us_v1";
      "breakdown_edge_crossed_us_v1"] "opening_range_low_reference_us_v1"
     "initial_stop_reference_us_v1" "regular_session_open_ms_us_v1"
     "session_exit_deadline_ms_us_v1" 8 1 1 "us-regular-or-v1"].

Definition registered_strategy_contracts : result (list RegisteredStrategyContract) :=
  map_result contract registered_contract_args.

Definition strategy_contract_for (event_spec_id : str) : result RegisteredStrategyContract :=
  contracts ← registered_strategy_contracts;
  match filter (λ c, sc_event_spec_id c = strip event_spec_id) contracts with
  | [c] => mret c
  | _ => Raise (ValueError "registered Event must resolve exactly one contract")
  end.

(** [model_dump(mode="json")] *)
Definition fact_json (f : RegisteredFactRequirement) : JsonValue :=
  JObj [("fact_definition_id", JStr (fr_fact_definition_id f));
        ("fact_name", JStr (fr_fact_name f));
        ("value_type", JStr (fact_value_type_value (fr_value_type f)));
        ("role", JStr (fact_role_value (fr_role f)));
        ("freshness_ms", JInt (fr_freshness_ms f))].

Definition contract_json (c : RegisteredStrategyContract) : JsonValue :=
  JObj [("strategy_group_id", JStr (sc_strategy_group_id c));
        ("strategy_version_id", JStr (sc_strategy_version_id c));
        ("event_spec_id", JStr (sc_event_spec_id c));
        ("event_id", JStr (sc_event_id c));
        ("position_side", JStr (side_value (sc_position_side c)));
        ("timeframe", JStr (timeframe_value (sc_timeframe c)));
        ("freshness_window_ms", JInt (sc_freshness_window_ms c));
        ("event_time_authority", JStr "trigger_candle_close_time_ms");
        ("entry_order_type",
         JStr (match sc_entry_order_type c with MARKET => "market" | LIMIT => "limit" end));
        ("episode_policy",
         JStr (match sc_episode_policy c with
               | rising_edge => "rising_edge" | session_reference => "session_reference" end));
        ("exposure_family", JStr (exposure_family_value (sc_exposure_family c)));
        ("shadow_horizon_bars", JInt (sc_shadow_horizon_bars c));
        ("protection_reference_fact", JStr (sc_protection_reference_fact c));
        ("pre_tp1_reclaim_reference_fact", json_option JStr (sc_pre_tp1_reclaim_reference_fact c));
        ("exposure_session_end_reference_fact",
         json_option JStr (sc_exposure_session_end_reference_fact c));
        ("required_facts", JList (fact_json <$> sc_required_facts c));
        ("disable_facts", JList (fact_json <$> sc_disable_facts c));
        ("exit_policy_id", JStr (sc_exit_policy_id c));
        ("status", JStr (if sc_active c then "active" else "disabled"))].

Definition build_registry_semantic_hash (contracts : list RegisteredStrategyContract)
    : result str :=
  raise_if (negb (bool_decide (NoDup (sc_event_spec_id <$> contracts))))
    (ValueError "registry semantic hash input contains duplicate Events");;
  mret (json_digest false
    (JList (snd <$> sort_fields ((λ c, (sc_event_spec_id c, contract_json c)) <$> contracts)))).
