(* ===== verification/Universe.v ===== *)
(** * Instruments and Universes ([domain/instrument_identity.py],
      [domain/strategy_universe.py])

    The canonical names of Binance USD-M perpetuals, the immutable candidate
    Universe of a strategy Event and its lifecycle. *)

From S2P Require Import Prelude PyString Sha256 StrategyRegistry.
#[local] Open Scope Z_scope.

(** ** Canonical instrument names *)

Record BinanceUsdmInstrumentIdentity := mkInstrument {
  bi_venue_id : str;
  bi_symbol : str;
  bi_base_asset : str;
  bi_quote_asset : str;
  bi_product_type : str
}.
#[export] Instance BinanceUsdmInstrumentIdentity_eq_dec : EqDecision BinanceUsdmInstrumentIdentity.
Proof. solve_decision. Defined.

(** [[A-Z0-9]] *)
Definition is_asset_char (c : ascii) : bool :=
  let n := Z.of_N (N_of_ascii c) in ((48 <=? n) && (n <=? 57)) || ((65 <=? n) && (n <=? 90)).

(** [[A-Z0-9]+] *)
Definition is_asset (s : str) : bool :=
  negb (bool_decide (s = EmptyString)) && forallb is_asset_char (String.list_ascii_of_string s).

(** [s.removesuffix(suffix)] of a string known to end with [suffix]. *)
Definition drop_suffix (suffix s : str) : option str :=
  let n := (String.length s - String.length suffix)%nat in
  if (String.length suffix <=? String.length s)%nat
     && bool_decide (String.substring n (String.length suffix) s = suffix)
  then Some (String.substring 0 n s) else None.

(** The group of [^prefix([A-Z0-9]+)suffix$] under [fullmatch]. *)
Definition match_asset (prefix suffix s : str) : option str :=
  rest ← drop_prefix prefix s;
  base ← drop_suffix suffix rest;
  if is_asset base then Some base else None.

Definition parse_binance_usdm_instrument_id (exchange_instrument_id : str)
    : result BinanceUsdmInstrumentIdentity :=
  match match_asset "binance-usdm:" "USDT:perpetual" exchange_instrument_id with
  | None => Raise (ValueError "instrument id must be canonical Binance USD-M USDT perpetual")
  | Some base => mret (mkInstrument "binance-usdm" (base +:+ "USDT") base "USDT" "perpetual")
  end.

Definition to_ccxt_symbol (i : BinanceUsdmInstrumentIdentity) : str :=
  bi_base_asset i +:+ "/" +:+ bi_quote_asset i +:+ ":" +:+ bi_quote_asset i.

Definition parse_binance_usdm_ccxt_symbol (symbol : str) : result BinanceUsdmInstrumentIdentity :=
  match match_asset EmptyString "/USDT:USDT" symbol with
  | None => Raise (ValueError "CCXT symbol must be Binance USD-M BASE/USDT:USDT")
  | Some base => parse_binance_usdm_instrument_id ("binance-usdm:" +:+ base +:+ "USDT:perpetual")
  end.

Definition to_exchange_instrument_id (i : BinanceUsdmInstrumentIdentity) : str :=
  bi_venue_id i +:+ ":" +:+ bi_symbol i +:+ ":" +:+ bi_product_type i.

(** ** The Universe of one Event *)

Definition MAX_UNIVERSE_MEMBERS : nat := 16.

Inductive StrategyUniverseLifecycleState :=
  | UNIVERSE_WARMING | UNIVERSE_STAGED | UNIVERSE_ACTIVE | UNIVERSE_RETIRED | UNIVERSE_ABANDONED.
#[export] Instance StrategyUniverseLifecycleState_eq_dec : EqDecision StrategyUniverseLifecycleState.
Proof. solve_decision. Defined.
Definition universe_state_value (s : StrategyUniverseLifecycleState) : str :=
  match s with
  | UNIVERSE_WARMING => "warming"
  | UNIVERSE_STAGED => "staged"
  | UNIVERSE_ACTIVE => "active"
  | UNIVERSE_RETIRED => "retired"
  | UNIVERSE_ABANDONED => "abandoned"
  end.

Inductive StrategyUniverseSourceKind := MANUAL | DYNAMIC_SELECTION | STATIC_BASELINE.
#[export] Instance StrategyUniverseSourceKind_eq_dec : EqDecision StrategyUniverseSourceKind.
Proof. solve_decision. Defined.
Definition source_kind_value (k : StrategyUniverseSourceKind) : str :=
  match k with
  | MANUAL => "manual"
  | DYNAMIC_SELECTION => "dynamic_selection"
  | STATIC_BASELINE => "static_baseline"
  end.

Record StrategyUniverseVersion := mkUniverse {
  uv_universe_version_id : str;
  uv_strategy_group_id : str;
  uv_event_spec_id : str;
  uv_universe_version : Z;
  uv_exchange_instrument_ids : list str;
  uv_semantic_digest : str;
  uv_installed_at_ms : Z
}.

(** [_semantic_digest]; the dump escapes non-ASCII. *)
Definition universe_digest (strategy_group_id event_spec_id : str) (members : list str) : str :=
  json_digest true
    (JObj [("event_spec_id", JStr event_spec_id);
           ("exchange_instrument_ids", JList (JStr <$> members));
           ("strategy_group_id", JStr strategy_group_id)]).

Definition universe_shape_checks (u : StrategyUniverseVersion) : list (bool * str) :=
  let members := uv_exchange_instrument_ids u in
  [((length members <? 1)%nat || (MAX_UNIVERSE_MEMBERS <? length members)%nat,
    "universe representation requires between one and sixteen members");
   (negb (bool_decide (sorted members = members)), "universe members must be canonical sorted");
   (negb (bool_decide (NoDup members)), "universe members must be unique")].

Definition validate_StrategyUniverseVersion (u : StrategyUniverseVersion)
    : result StrategyUniverseVersion :=
  validate_fields
    (((λ v, (blank v, "universe identity must be non-blank")) <$>
        [uv_universe_version_id u; uv_strategy_group_id u; uv_event_spec_id u; uv_semantic_digest u]) ++
     ((λ v, (v <=? 0, "universe version and installed time must be positive")) <$>
        [uv_universe_version u; uv_installed_at_ms u]));;
  let u := mkUniverse (strip (uv_universe_version_id u)) (strip (uv_strategy_group_id u))
             (strip (uv_event_spec_id u)) (uv_universe_version u) (uv_exchange_instrument_ids u)
             (strip (uv_semantic_digest u)) (uv_installed_at_ms u) in
  validate_model (universe_shape_checks u);;
  map_result parse_binance_usdm_instrument_id (uv_exchange_instrument_ids u);;
  validate_model
    [(negb (bool_decide (uv_semantic_digest u
        = universe_digest (uv_strategy_group_id u) (uv_event_spec_id u) (uv_exchange_instrument_ids u))),
      "universe semantic digest differs from canonical members")];;
  mret u.

Definition build_strategy_universe (universe_version_id strategy_group_id event_spec_id : str)
    (universe_version : Z) (exchange_instrument_ids : list str) (installed_at_ms : Z)
    : result StrategyUniverseVersion :=
  let members := sorted exchange_instrument_ids in
  map_result parse_binance_usdm_instrument_id members;;
  validate_StrategyUniverseVersion
    (mkUniverse universe_version_id strategy_group_id event_spec_id universe_version members
       (universe_digest strategy_group_id event_spec_id members) installed_at_ms).

(** [_GENERATION_OWNED_TRANSITIONS] and [_MANUAL_TRANSITIONS] *)
Definition generation_owned_transitions (s : StrategyUniverseLifecycleState)
    : list StrategyUniverseLifecycleState :=
  match s with
  | UNIVERSE_WARMING => [UNIVERSE_STAGED; UNIVERSE_ABANDONED]
  | UNIVERSE_STAGED => [UNIVERSE_ACTIVE; UNIVERSE_ABANDONED]
  | UNIVERSE_ACTIVE => [UNIVERSE_RETIRED]
  | _ => []
  end.

Definition manual_transitions (s : StrategyUniverseLifecycleState)
    : list StrategyUniverseLifecycleState :=
  match s with
  | UNIVERSE_WARMING => [UNIVERSE_ACTIVE; UNIVERSE_ABANDONED]
  | UNIVERSE_ACTIVE => [UNIVERSE_RETIRED]
  | _ => []
  end.

Definition advance_strategy_universe_lifecycle (source_kind : StrategyUniverseSourceKind)
    (current target : StrategyUniverseLifecycleState) : result StrategyUniverseLifecycleState :=
  if bool_decide (current = target) then mret current
  else
    let transitions :=
      if bool_decide (source_kind = MANUAL) then manual_transitions else generation_owned_transitions in
    raise_if (negb (bool_decide (target ∈ transitions current)))
      (ValueError ("invalid " +:+ source_kind_value source_kind +:+ " Universe transition: "
                   +:+ universe_state_value current +:+ " -> " +:+ universe_state_value target));;
    mret target.

Definition strategy_universe_allows_signal (s : StrategyUniverseLifecycleState) : bool :=
  bool_decide (s = UNIVERSE_ACTIVE).
