(* ===== verification/ExitPolicy.v ===== *)
(** * Exit policies ([domain/exit_policy.py])

    The versioned exit profiles of the registered Events and the pure
    decisions they drive: quantity split, break-even floor, runner stop,
    pre-TP1 exits. *)

From Stdlib Require Import QArith Qabs Lqa.
From S2P Require Import Prelude PyString Sha256 PyDecimal DecimalFacts Identities Ticket.
From S2P Require Import StrategyRegistry.
#[local] Open Scope Z_scope.

(** ** Records *)

Inductive TimeStopMode := PRE_TP1 | ABSOLUTE.
#[export] Instance TimeStopMode_eq_dec : EqDecision TimeStopMode.
Proof. solve_decision. Defined.

Inductive PreTp1GuardKind := RECLAIM_REFERENCE | SESSION_EXPIRY.
#[export] Instance PreTp1GuardKind_eq_dec : EqDecision PreTp1GuardKind.
Proof. solve_decision. Defined.

Inductive ExitDecisionKind := NO_CHANGE | MOVE_STOP | EXIT.
#[export] Instance ExitDecisionKind_eq_dec : EqDecision ExitDecisionKind.
Proof. solve_decision. Defined.

Record LifecycleMarketFacts := mkMarketFacts {
  mf_watermark_ms : Z;
  mf_is_final_closed_candle : bool;
  mf_latest_close : Decimal;
  mf_structure_reference : Decimal;
  mf_atr : Decimal;
  mf_holding_bars : Z
}.

Definition validate_LifecycleMarketFacts (f : LifecycleMarketFacts) : result LifecycleMarketFacts :=
  validate_model
    [((mf_watermark_ms f <=? 0) || (mf_holding_bars f <? 0),
      "lifecycle market watermark and holding bars are invalid");
     (nonpositive (mf_latest_close f) || nonpositive (mf_structure_reference f)
      || nonpositive (mf_atr f), "lifecycle structure and ATR facts must be positive")];;
  mret f.

Record ExitDecision := mkExitDecision {
  xd_kind : ExitDecisionKind;
  xd_reason : str;
  xd_source_watermark_ms : Z;
  xd_proposed_stop : option Decimal
}.

Definition validate_ExitDecision (d : ExitDecision) : result ExitDecision :=
  validate_model
    [(blank (xd_reason d) || (xd_source_watermark_ms d <=? 0),
      "exit decision reason and watermark are required");
     match xd_kind d, xd_proposed_stop d with
     | MOVE_STOP, None => (true, "runner move decision requires a positive stop")
     | MOVE_STOP, Some p => (nonpositive p, "runner move decision requires a positive stop")
     | _, p => (negb (is_none p), "non-move exit decision forbids a stop price")
     end];;
  mret d.

(** [_exit_decision] *)
Definition exit_decision (kind : ExitDecisionKind) (reason : str) (source_watermark_ms : Z)
    : result ExitDecision :=
  validate_ExitDecision (mkExitDecision kind reason source_watermark_ms None).

(** [execution_style] and [market_fallback_allowed] have one legal value. *)
Record TakeProfitRule := mkTakeProfitRule {
  tr_reward_multiple : Decimal;
  tr_quantity_fraction : Decimal
}.

Definition validate_TakeProfitRule (r : TakeProfitRule) : result TakeProfitRule :=
  validate_model
    [(nonpositive (tr_reward_multiple r), "take-profit reward multiple must be positive");
     (negb ((d0 <? tr_quantity_fraction r)%dec && (tr_quantity_fraction r <? d1)%dec),
      "take-profit quantity fraction must be in (0, 1)")];;
  mret r.

Record BreakEvenFloorRule := mkFloorRule {
  bf_slippage_buffer_ticks : Z;
  bf_minimum_improvement_ticks : Z
}.

Definition validate_BreakEvenFloorRule (r : BreakEvenFloorRule) : result BreakEvenFloorRule :=
  validate_model
    [(bf_slippage_buffer_ticks r <? 0, "break-even slippage ticks cannot be negative");
     (bf_minimum_improvement_ticks r <=? 0, "break-even minimum improvement must be positive")];;
  mret r.

(** [Literal["confirmed_higher_low", "confirmed_lower_high"]] *)
Inductive StructureRule := confirmed_higher_low | confirmed_lower_high.

Record StructuralAtrRunnerRule := mkStructuralRunner {
  st_timeframe : Timeframe;
  st_structure_rule : StructureRule;
  st_structure_reference_fact : str;
  st_structure_window_bars : Z;
  st_atr_period : Z;
  st_atr_buffer_multiple : Decimal;
  st_minimum_improvement_ticks : Z
}.

Definition validate_StructuralAtrRunnerRule (r : StructuralAtrRunnerRule)
    : result StructuralAtrRunnerRule :=
  validate_fields [(blank (st_structure_reference_fact r),
                    "runner structure reference fact must be non-blank")];;
  let r := mkStructuralRunner (st_timeframe r) (st_structure_rule r)
             (strip (st_structure_reference_fact r)) (st_structure_window_bars r)
             (st_atr_period r) (st_atr_buffer_multiple r) (st_minimum_improvement_ticks r) in
  validate_model
    [((st_structure_window_bars r <=? 0) || (st_atr_period r <=? 0),
      "runner structure and ATR windows must be positive");
     (negative (st_atr_buffer_multiple r), "runner ATR buffer cannot be negative");
     (st_minimum_improvement_ticks r <=? 0, "runner minimum improvement must be positive")];;
  mret r.

Record TimeStopRule := mkTimeStop {
  ts_max_holding_bars : Z;
  ts_mode : TimeStopMode
}.

Definition validate_TimeStopRule (r : TimeStopRule) : result TimeStopRule :=
  validate_fields [(ts_max_holding_bars r <=? 0, "time-stop holding bars must be positive")];;
  mret r.

Record RollingExtremeAtrRunnerRule := mkRollingRunner {
  rr_timeframe : Timeframe;
  rr_lookback_bars : Z;
  rr_atr_period : Z;
  rr_atr_buffer_multiple : Decimal;
  rr_minimum_improvement_ticks : Z
}.

Definition validate_RollingExtremeAtrRunnerRule (r : RollingExtremeAtrRunnerRule)
    : result RollingExtremeAtrRunnerRule :=
  validate_model
    [((rr_lookback_bars r <=? 0) || (rr_atr_period r <=? 0),
      "runner lookback and ATR windows must be positive");
     (negative (rr_atr_buffer_multiple r), "runner ATR buffer cannot be negative");
     (rr_minimum_improvement_ticks r <=? 0, "runner minimum improvement must be positive")];;
  mret r.

Record ExitProfile := mkExitProfile {
  ep_exit_profile_id : str;
  ep_exit_profile_version : Z;
  ep_position_side : PositionSide;
  ep_tp1 : TakeProfitRule;
  ep_break_even_floor : BreakEvenFloorRule;
  ep_runner : RollingExtremeAtrRunnerRule;
  ep_time_stop : option TimeStopRule;
  ep_pre_tp1_guards : list PreTp1GuardKind
}.

(** [sorted(set(guards), key=value)]: "reclaim_reference" before
    "session_expiry". *)
Definition canonical_guards (l : list PreTp1GuardKind) : list PreTp1GuardKind :=
  filter (λ g, g ∈ l) [RECLAIM_REFERENCE; SESSION_EXPIRY].

Definition validate_ExitProfile (p : ExitProfile) : result ExitProfile :=
  validate_fields [(blank (ep_exit_profile_id p), "ExitProfile identity must be non-blank")];;
  let p := mkExitProfile (strip (ep_exit_profile_id p)) (ep_exit_profile_version p)
             (ep_position_side p) (ep_tp1 p) (ep_break_even_floor p) (ep_runner p)
             (ep_time_stop p) (ep_pre_tp1_guards p) in
  validate_model
    [(ep_exit_profile_version p <=? 0, "ExitProfile version must be positive");
     (negb (bool_decide (canonical_guards (ep_pre_tp1_guards p) = ep_pre_tp1_guards p)),
      "ExitProfile guards must be canonical and unique")];;
  mret p.

(** ** Semantic hashes *)

(** [_semantic_hash] *)
Definition semantic_hash (payload : JsonValue) : str := json_digest false payload.

Definition TakeProfitRule_json (r : TakeProfitRule) : JsonValue :=
  JObj [("reward_multiple", json_decimal (tr_reward_multiple r));
        ("quantity_fraction", json_decimal (tr_quantity_fraction r));
        ("execution_style", JStr "limit_gtc"); ("market_fallback_allowed", JBool false)].

Definition BreakEvenFloorRule_json (r : BreakEvenFloorRule) : JsonValue :=
  JObj [("exit_fee_basis", JStr "conservative_taker");
        ("slippage_buffer_ticks", JInt (bf_slippage_buffer_ticks r));
        ("minimum_improvement_ticks", JInt (bf_minimum_improvement_ticks r))].

Definition TimeStopRule_json (r : TimeStopRule) : JsonValue :=
  JObj [("max_holding_bars", JInt (ts_max_holding_bars r));
        ("mode", JStr (match ts_mode r with PRE_TP1 => "pre_tp1" | ABSOLUTE => "absolute" end))].

Definition RollingRunner_json (r : RollingExtremeAtrRunnerRule) : JsonValue :=
  JObj [("kind", JStr "rolling_extreme_atr");
        ("timeframe", JStr (timeframe_value (rr_timeframe r)));
        ("lookback_bars", JInt (rr_lookback_bars r)); ("atr_period", JInt (rr_atr_period r));
        ("atr_buffer_multiple", json_decimal (rr_atr_buffer_multiple r));
        ("minimum_improvement_ticks", JInt (rr_minimum_improvement_ticks r))].

Definition ExitProfile_json (p : ExitProfile) : JsonValue :=
  JObj [("exit_profile_id", JStr (ep_exit_profile_id p));
        ("exit_profile_version", JInt (ep_exit_profile_version p));
        ("profile_schema_version", JStr "exit_profile_v1");
        ("position_side", JStr (side_value (ep_position_side p)));
        ("tp1", TakeProfitRule_json (ep_tp1 p));
        ("break_even_floor", BreakEvenFloorRule_json (ep_break_even_floor p));
        ("runner", RollingRunner_json (ep_runner p));
        ("time_stop", json_option TimeStopRule_json (ep_time_stop p));
        ("pre_tp1_guards",
         JList ((λ g, JStr (match g with
                            | RECLAIM_REFERENCE => "reclaim_reference"
                            | SESSION_EXPIRY => "session_expiry" end)) <$> ep_pre_tp1_guards p))].

(** [ExitProfile.semantic_hash] *)
Definition exit_profile_semantic_hash (p : ExitProfile) : str := semantic_hash (ExitProfile_json p).

(** [_event_exit_binding_hash] *)
Definition event_exit_binding_hash (binding_version : Z)
    (event_spec_id exit_profile_id profile_hash activation_reason : str) : str :=
  semantic_hash (JObj
    [("binding_version", JInt binding_version); ("event_spec_id", JStr event_spec_id);
     ("exit_profile_id", JStr exit_profile_id); ("exit_profile_semantic_hash", JStr profile_hash);
     ("activation_reason", JStr activation_reason)]).

(** ** Bindings of Events to profiles *)

Record EventExitBinding := mkBinding {
  eb_exit_binding_id : str;
  eb_binding_version : Z;
  eb_event_spec_id : str;
  eb_exit_profile_id : str;
  eb_exit_profile_semantic_hash : str;
  eb_binding_semantic_hash : str;
  eb_activation_reason : str;
  eb_created_at_ms : Z
}.

(** [value.startswith("sha256:") and len(value) == 71] *)
Definition looks_like_digest (s : str) : bool := startswith s "sha256:" && (len s =? 71).

Definition validate_EventExitBinding (b : EventExitBinding) : result EventExitBinding :=
  validate_fields
    (((λ v, (blank v, "EventExitBinding identity must be non-blank")) <$>
        [eb_exit_binding_id b; eb_event_spec_id b; eb_exit_profile_id b; eb_activation_reason b]) ++
     ((λ v, (negb (looks_like_digest v), "EventExitBinding hash must be canonical SHA-256")) <$>
        [eb_exit_profile_semantic_hash b; eb_binding_semantic_hash b]));;
  let b := mkBinding (strip (eb_exit_binding_id b)) (eb_binding_version b)
             (strip (eb_event_spec_id b)) (strip (eb_exit_profile_id b))
             (eb_exit_profile_semantic_hash b) (eb_binding_semantic_hash b)
             (strip (eb_activation_reason b)) (eb_created_at_ms b) in
  validate_model
    [((eb_binding_version b <=? 0) || (eb_created_at_ms b <=? 0),
      "Binding version and creation time must be positive");
     (negb (bool_decide (eb_binding_semantic_hash b =
        event_exit_binding_hash (eb_binding_version b) (eb_event_spec_id b) (eb_exit_profile_id b)
          (eb_exit_profile_semantic_hash b) (eb_activation_reason b))),
      "EventExitBinding semantic hash differs")];;
  mret b.

Definition build_event_exit_binding (exit_binding_id : str) (binding_version : Z)
    (event_spec_id exit_profile_id profile_hash activation_reason : str) (created_at_ms : Z)
    : result EventExitBinding :=
  validate_EventExitBinding
    (mkBinding exit_binding_id binding_version event_spec_id exit_profile_id profile_hash
       (event_exit_binding_hash binding_version event_spec_id exit_profile_id profile_hash
          activation_reason) activation_reason created_at_ms).

Record CurrentEventExitBinding := mkCurrentBinding {
  cb_event_spec_id : str;
  cb_exit_binding_id : str;
  cb_binding_semantic_hash : str;
  cb_projection_version : Z;
  cb_activated_at_ms : Z
}.

Definition validate_CurrentEventExitBinding (b : CurrentEventExitBinding)
    : result CurrentEventExitBinding :=
  validate_fields
    (((λ v, (blank v, "current EventExitBinding identity must be non-blank")) <$>
        [cb_event_spec_id b; cb_exit_binding_id b]) ++
     [(negb (looks_like_digest (cb_binding_semantic_hash b)),
       "current EventExitBinding hash must be canonical")]);;
  validate_model
    [((cb_projection_version b <=? 0) || (cb_activated_at_ms b <=? 0),
      "current Binding version and time must be positive")];;
  mret (mkCurrentBinding (strip (cb_event_spec_id b)) (strip (cb_exit_binding_id b))
          (cb_binding_semantic_hash b) (cb_projection_version b) (cb_activated_at_ms b)).

(** [Literal["ACTIVATED", "RETIRED"]], [Literal["system_migration", "owner_control"]] *)
Inductive BindingOperation := ACTIVATED | RETIRED.
Inductive AuthorizationSource := system_migration | owner_control.
#[export] Instance AuthorizationSource_eq_dec : EqDecision AuthorizationSource.
Proof. solve_decision. Defined.

Record EventExitBindingEvent := mkBindingEvent {
  be_binding_event_id : str;
  be_event_spec_id : str;
  be_exit_binding_id : str;
  be_binding_version : Z;
  be_operation : BindingOperation;
  be_authorization_source : AuthorizationSource;
  be_owner_authorization_id : option str;
  be_reason : str;
  be_created_at_ms : Z
}.

Definition validate_EventExitBindingEvent (b : EventExitBindingEvent)
    : result EventExitBindingEvent :=
  validate_model
    [(Z.min (be_binding_version b) (be_created_at_ms b) <=? 0,
      "Binding event version and time must be positive");
     (existsb blank [be_binding_event_id b; be_event_spec_id b; be_exit_binding_id b; be_reason b],
      "Binding event identities must be non-blank");
     (negb (Bool.eqb (bool_decide (be_authorization_source b = owner_control))
                     (negb (is_none (be_owner_authorization_id b)))),
      "Binding event authorization shape is invalid")];;
  mret b.

(** ** The registered profiles and bindings *)

(** [_exit_profile] *)
Definition exit_profile (exit_profile_id : str) (side : PositionSide) (timeframe : Timeframe)
    (quantity_fraction : Decimal) (lookback_bars : Z) (atr_buffer_multiple : Decimal)
    (time_stop : option (Z * TimeStopMode)) (guards : list PreTp1GuardKind) : result ExitProfile :=
  time_stop ← match time_stop with
              | None => mret None
              | Some (bars, mode) =>
                  r ← validate_TimeStopRule (mkTimeStop bars mode); mret (Some r)
              end;
  tp1 ← validate_TakeProfitRule (mkTakeProfitRule d1 quantity_fraction);
  break_even_floor ← validate_BreakEvenFloorRule (mkFloorRule 2 2);
  runner ← validate_RollingExtremeAtrRunnerRule
             (mkRollingRunner timeframe lookback_bars 14 atr_buffer_multiple 2);
  validate_ExitProfile
    (mkExitProfile exit_profile_id 1 side tp1 break_even_floor runner time_stop guards).

Definition half : Decimal := mkDecimal 50 (-2).
Definition orb_guards : list PreTp1GuardKind := [RECLAIM_REFERENCE; SESSION_EXPIRY].

(** Sorted by identity, as the source returns them. *)
Definition registered_exit_profiles : result (list ExitProfile) :=
  profiles ← map_result id
    [exit_profile "exit-profile:trend-continuation:1h:long:v1" long tf_1h half 4 half None [];
     exit_profile "exit-profile:momentum-tail:1h:long:v1" long tf_1h (mkDecimal 33 (-2)) 5
       (mkDecimal 75 (-2)) None [];
     exit_profile "exit-profile:impulse-decay:1h:long:v1" long tf_1h half 4 half
       (Some (12, PRE_TP1)) [];
     exit_profile "exit-profile:failure-reversal:1h:short:v1" short tf_1h half 4 half
       (Some (12, PRE_TP1)) [];
     exit_profile "exit-profile:orb-crypto:15m:long:v1" long tf_15m half 4 half
       (Some (96, ABSOLUTE)) orb_guards;
     exit_profile "exit-profile:orb-crypto:15m:short:v1" short tf_15m half 4 half
       (Some (96, ABSOLUTE)) orb_guards;
     exit_profile "exit-profile:orb-us:15m:long:v1" long tf_15m half 4 half
       (Some (8, ABSOLUTE)) orb_guards;
     exit_profile "exit-profile:orb-us:15m:short:v1" short tf_15m half 4 half
       (Some (8, ABSOLUTE)) orb_guards];
  mret (snd <$> sort_fields ((λ p, (ep_exit_profile_id p, p)) <$> profiles)).

(** [profile_ids] *)
Definition profile_ids : list (str * str) :=
  [("CPM-LONG", "exit-profile:trend-continuation:1h:long:v1");
   ("MPG-LONG", "exit-profile:momentum-tail:1h:long:v1");
   ("MI-LONG", "exit-profile:impulse-decay:1h:long:v1");
   ("BRF2-SHORT", "exit-profile:failure-reversal:1h:short:v1");
   ("SOR-LONG", "exit-profile:orb-crypto:15m:long:v1");
   ("SOR-SHORT", "exit-profile:orb-crypto:15m:short:v1");
   ("SOR-1H-LONG", "exit-profile:orb-crypto:15m:long:v1");
   ("SOR-1H-SHORT", "exit-profile:orb-crypto:15m:short:v1");
   ("SOR-US-LONG-15M", "exit-profile:orb-us:15m:long:v1");
   ("SOR-US-SHORT-15M", "exit-profile:orb-us:15m:short:v1")].

(** [d[key]] of a dictionary display with distinct keys. *)
Definition dict_get {A} (d : list (str * A)) (key : str) : result A :=
  match filter (λ p : str * A, p.1 = key) d with
  | p :: _ => mret p.2
  | [] => Raise (KeyError key)
  end.

Definition registered_event_exit_bindings : result (list EventExitBinding) :=
  profiles ← registered_exit_profiles;
  contracts ← registered_strategy_contracts;
  bindings ← map_result (λ c,
    profile_id ← dict_get profile_ids (sc_event_id c);
    profile ← dict_get ((λ p, (ep_exit_profile_id p, p)) <$> profiles) profile_id;
    build_event_exit_binding ("exit-binding:" +:+ sc_event_spec_id c +:+ ":v1") 1
      (sc_event_spec_id c) profile_id (exit_profile_semantic_hash profile) "owner_frozen_v1" 1)
    contracts;
  mret (snd <$> sort_fields ((λ b, (eb_event_spec_id b, b)) <$> bindings)).

(** ** Legacy source policies *)

Record ExitPolicy := mkExitPolicy {
  xp_exit_policy_id : str;
  xp_exit_policy_version : str;
  xp_event_spec_id : str;
  xp_event_id : str;
  xp_position_side : PositionSide;
  xp_tp1 : TakeProfitRule;
  xp_break_even_floor : BreakEvenFloorRule;
  xp_runner : StructuralAtrRunnerRule;
  xp_time_stop : option TimeStopRule
}.

Definition validate_ExitPolicy (p : ExitPolicy) : result ExitPolicy :=
  validate_fields
    ((λ v, (blank v, "exit-policy identities must be non-blank")) <$>
       [xp_exit_policy_id p; xp_exit_policy_version p; xp_event_spec_id p; xp_event_id p]);;
  mret (mkExitPolicy (strip (xp_exit_policy_id p)) (strip (xp_exit_policy_version p))
          (strip (xp_event_spec_id p)) (strip (xp_event_id p)) (xp_position_side p) (xp_tp1 p)
          (xp_break_even_floor p) (xp_runner p) (xp_time_stop p)).

(** [_legacy_source_exit_policy] *)
Definition legacy_source_exit_policy (c : RegisteredStrategyContract) : result ExitPolicy :=
  let group := sc_strategy_group_id c in
  let sor := bool_decide (group = "SOR-001") in
  let sor_us := bool_decide (group = "SOR-US-EQ-PERP-001") in
  tp1 ← validate_TakeProfitRule (mkTakeProfitRule d1 (mkDecimal 5 (-1)));
  break_even_floor ← validate_BreakEvenFloorRule (mkFloorRule 2 2);
  runner ← validate_StructuralAtrRunnerRule
    (mkStructuralRunner (sc_timeframe c)
       (match sc_position_side c with long => confirmed_higher_low | short => confirmed_lower_high end)
       (sc_protection_reference_fact c) 4 14 (mkDecimal 5 (-1)) 2);
  time_stop ← (if sor then r ← validate_TimeStopRule (mkTimeStop 96 ABSOLUTE); mret (Some r)
               else if sor_us then r ← validate_TimeStopRule (mkTimeStop 8 ABSOLUTE); mret (Some r)
               else mret None);
  validate_ExitPolicy
    (mkExitPolicy (sc_exit_policy_id c)
       (if sor then "2026-07-31-sor-v3" else if sor_us then "2026-08-11-us-sor-v1"
        else "2026-07-22-v1")
       (sc_event_spec_id c) (sc_event_id c) (sc_position_side c) tp1 break_even_floor runner time_stop).

Definition registered_exit_policies : result (list ExitPolicy) :=
  contracts ← registered_strategy_contracts;
  map_result legacy_source_exit_policy contracts.

Definition exit_policy_for (event_spec_id : str) : result ExitPolicy :=
  policies ← registered_exit_policies;
  match filter (λ p, xp_event_spec_id p = strip event_spec_id) policies with
  | [p] => mret p
  | _ => Raise (ValueError "registered Event must resolve exactly one exit policy")
  end.

Definition StructuralRunner_json (r : StructuralAtrRunnerRule) : JsonValue :=
  JObj [("kind", JStr "structural_atr"); ("timeframe", JStr (timeframe_value (st_timeframe r)));
        ("structure_rule",
         JStr (match st_structure_rule r with
               | confirmed_higher_low => "confirmed_higher_low"
               | confirmed_lower_high => "confirmed_lower_high" end));
        ("structure_reference_fact", JStr (st_structure_reference_fact r));
        ("structure_window_bars", JInt (st_structure_window_bars r));
        ("atr_period", JInt (st_atr_period r));
        ("atr_buffer_multiple", json_decimal (st_atr_buffer_multiple r));
        ("minimum_improvement_ticks", JInt (st_minimum_improvement_ticks r))].

(** [ExitPolicy.semantic_hash] *)
Definition exit_policy_semantic_hash (p : ExitPolicy) : str :=
  semantic_hash (JObj
    [("exit_policy_id", JStr (xp_exit_policy_id p));
     ("exit_policy_version", JStr (xp_exit_policy_version p));
     ("event_spec_id", JStr (xp_event_spec_id p)); ("event_id", JStr (xp_event_id p));
     ("position_side", JStr (side_value (xp_position_side p)));
     ("tp1", TakeProfitRule_json (xp_tp1 p));
     ("break_even_floor", BreakEvenFloorRule_json (xp_break_even_floor p));
     ("runner", StructuralRunner_json (xp_runner p));
     ("time_stop", json_option TimeStopRule_json (xp_time_stop p))]).

Definition EventExitBinding_json (b : EventExitBinding) : JsonValue :=
  JObj [("exit_binding_id", JStr (eb_exit_binding_id b));
        ("binding_version", JInt (eb_binding_version b));
        ("event_spec_id", JStr (eb_event_spec_id b));
        ("exit_profile_id", JStr (eb_exit_profile_id b));
        ("exit_profile_semantic_hash", JStr (eb_exit_profile_semantic_hash b));
        ("binding_semantic_hash", JStr (eb_binding_semantic_hash b));
        ("activation_reason", JStr (eb_activation_reason b));
        ("created_at_ms", JInt (eb_created_at_ms b))].

Definition build_exit_profile_catalog_digest : result str :=
  profiles ← registered_exit_profiles;
  bindings ← registered_event_exit_bindings;
  mret (semantic_hash (JObj [("profiles", JList (ExitProfile_json <$> profiles));
                             ("bindings", JList (EventExitBinding_json <$> bindings))])).

(** ** Quantities and prices *)

Record TakeProfitSplit := mkSplit {
  tp_split_tp1_quantity : Decimal;
  tp_split_runner_quantity : Decimal
}.

Definition validate_TakeProfitSplit (s : TakeProfitSplit) : result TakeProfitSplit :=
  validate_model
    [(nonpositive (tp_split_tp1_quantity s) || nonpositive (tp_split_runner_quantity s),
      "TP1 and runner quantities must both be positive")];;
  mret s.

(** [_round_to_step] *)
Definition round_to_step (value step : Decimal) (mode : rounding) : result Decimal :=
  q ← ddiv value step; mret (to_integral_value mode q * step)%dec.

Definition split_tp1_quantity (total_quantity quantity_step quantity_fraction : Decimal)
    : result TakeProfitSplit :=
  raise_if (nonpositive total_quantity || nonpositive quantity_step)
    (ValueError "quantity and quantity step must be positive");;
  remainder ← dmod total_quantity quantity_step;
  raise_if (negb (remainder =? d0)%dec)
    (ValueError "total quantity must be aligned to the quantity step");;
  raise_if (negb ((d0 <? quantity_fraction)%dec && (quantity_fraction <? d1)%dec))
    (ValueError "TP1 quantity fraction must be in (0, 1)");;
  tp1_quantity ← round_to_step (total_quantity * quantity_fraction)%dec quantity_step ROUND_FLOOR;
  validate_TakeProfitSplit (mkSplit tp1_quantity (total_quantity - tp1_quantity)%dec).

(** [_require_financial_inputs] *)
Definition require_financial_inputs (entry_average_price runner_quantity price_tick
    allocated_entry_fee_quote exit_taker_fee_rate : Decimal) (slippage_buffer_ticks : Z)
    : result unit :=
  raise_if (nonpositive entry_average_price || nonpositive runner_quantity || nonpositive price_tick)
    (ValueError "break-even price, quantity, and tick must be positive");;
  raise_if (negative allocated_entry_fee_quote || (slippage_buffer_ticks <? 0))
    (ValueError "break-even fee and slippage values cannot be negative");;
  raise_if (negb ((d0 <=? exit_taker_fee_rate)%dec && (exit_taker_fee_rate <? d1)%dec))
    (ValueError "exit taker fee rate must be in [0, 1)").

Definition invalid_side {A} : result A := Raise (ValueError "position side must be long or short").

Definition calculate_cost_adjusted_break_even (side : str)
    (entry_average_price runner_quantity allocated_entry_fee_quote exit_taker_fee_rate
     price_tick : Decimal) (slippage_buffer_ticks : Z) : result Decimal :=
  require_financial_inputs entry_average_price runner_quantity price_tick allocated_entry_fee_quote
    exit_taker_fee_rate slippage_buffer_ticks;;
  let slippage_buffer_quote := (price_tick * of_int slippage_buffer_ticks * runner_quantity)%dec in
  let entry_notional := (entry_average_price * runner_quantity)%dec in
  if bool_decide (side = "long") then
    raw ← ddiv (entry_notional + allocated_entry_fee_quote + slippage_buffer_quote)%dec
               (runner_quantity * (d1 - exit_taker_fee_rate))%dec;
    round_to_step raw price_tick ROUND_CEILING
  else if bool_decide (side = "short") then
    raw ← ddiv (entry_notional - allocated_entry_fee_quote - slippage_buffer_quote)%dec
               (runner_quantity * (d1 + exit_taker_fee_rate))%dec;
    raise_if (nonpositive raw) (ValueError "short break-even floor must remain positive");;
    round_to_step raw price_tick ROUND_FLOOR
  else invalid_side.

Definition calculate_structural_runner_stop (side : str)
    (structure_reference atr atr_buffer_multiple price_tick : Decimal) : result Decimal :=
  raise_if (nonpositive structure_reference || nonpositive atr || negative atr_buffer_multiple
            || nonpositive price_tick)
    (ValueError "runner price, ATR, multiplier, and tick must be valid");;
  let offset := (atr * atr_buffer_multiple)%dec in
  if bool_decide (side = "long") then
    let raw := (structure_reference - offset)%dec in
    raise_if (nonpositive raw) (ValueError "long structural runner stop must remain positive");;
    round_to_step raw price_tick ROUND_FLOOR
  else if bool_decide (side = "short") then
    round_to_step (structure_reference + offset)%dec price_tick ROUND_CEILING
  else invalid_side.

Definition calculate_rolling_extreme_atr_stop (side : str)
    (rolling_extreme atr atr_buffer_multiple price_tick : Decimal) : result Decimal :=
  calculate_structural_runner_stop side rolling_extreme atr atr_buffer_multiple price_tick.

(** ** Decisions *)

(** The tail the two runner evaluators share: the candidate clamped to the
    break-even floor, then the required improvement. *)
Definition runner_decision (side : PositionSide) (current_stop break_even_floor price_tick : Decimal)
    (minimum_improvement_ticks watermark_ms : Z) (move_reason : str) (candidate : Decimal)
    : result ExitDecision :=
  let candidate := match side with
                   | long => dmax candidate break_even_floor
                   | short => dmin candidate break_even_floor
                   end in
  let required_improvement := (price_tick * of_int minimum_improvement_ticks)%dec in
  let improvement := match side with
                     | long => (candidate - current_stop)%dec
                     | short => (current_stop - candidate)%dec
                     end in
  if (improvement <? required_improvement)%dec then
    exit_decision NO_CHANGE "runner_stop_not_improved" watermark_ms
  else
    validate_ExitDecision (mkExitDecision MOVE_STOP move_reason watermark_ms (Some candidate)).

(** [time_stop is not None and time_stop.mode is mode and holding_bars >= max] *)
Definition time_stop_hit (mode : TimeStopMode) (time_stop : option TimeStopRule) (holding_bars : Z)
    : bool :=
  opt_test (λ r, bool_decide (ts_mode r = mode) && (ts_max_holding_bars r <=? holding_bars))
    time_stop.

Definition evaluate_profile_runner_exit (profile : ExitProfile)
    (current_stop break_even_floor price_tick : Decimal) (last_runner_watermark_ms : Z)
    (market_facts : LifecycleMarketFacts) : result ExitDecision :=
  let watermark := mf_watermark_ms market_facts in
  raise_if (nonpositive current_stop || nonpositive break_even_floor || nonpositive price_tick)
    (ValueError "runner evaluation prices and tick must be positive");;
  if watermark <=? last_runner_watermark_ms then
    exit_decision NO_CHANGE "market_watermark_not_new" watermark
  else if negb (mf_is_final_closed_candle market_facts) then
    exit_decision NO_CHANGE "closed_candle_required" watermark
  else if time_stop_hit ABSOLUTE (ep_time_stop profile) (mf_holding_bars market_facts) then
    exit_decision EXIT "absolute_time_stop_hit" watermark
  else
    candidate ← calculate_rolling_extreme_atr_stop (side_value (ep_position_side profile))
      (mf_structure_reference market_facts) (mf_atr market_facts)
      (rr_atr_buffer_multiple (ep_runner profile)) price_tick;
    runner_decision (ep_position_side profile) current_stop break_even_floor price_tick
      (rr_minimum_improvement_ticks (ep_runner profile)) watermark
      "rolling_extreme_atr_runner_improvement" candidate.

(** [latest_close] is back through the reference. *)
Definition reclaim_hit (side : PositionSide) (latest_close reference : Decimal) : bool :=
  match side with
  | long => (latest_close <=? reference)%dec
  | short => (latest_close >=? reference)%dec
  end.
Definition reclaim_reason (side : PositionSide) : str :=
  match side with
  | long => "failed_breakout_reclaimed"
  | short => "failed_breakdown_reclaimed"
  end.

(** The two time stops and the final answer of the pre-TP1 evaluation. *)
Definition pre_tp1_time_stops (profile : ExitProfile) (market_facts : LifecycleMarketFacts)
    : result ExitDecision :=
  let watermark := mf_watermark_ms market_facts in
  if time_stop_hit ABSOLUTE (ep_time_stop profile) (mf_holding_bars market_facts) then
    exit_decision EXIT "absolute_time_stop_hit" watermark
  else if time_stop_hit PRE_TP1 (ep_time_stop profile) (mf_holding_bars market_facts) then
    exit_decision EXIT "pre_tp1_time_stop_hit" watermark
  else exit_decision NO_CHANGE "pre_tp1_plan_intact" watermark.

(** The reclaim guard and what follows it. *)
Definition pre_tp1_reclaim (profile : ExitProfile) (market_facts : LifecycleMarketFacts)
    (pre_tp1_reclaim_price : option Decimal) : result ExitDecision :=
  if bool_decide (RECLAIM_REFERENCE ∈ ep_pre_tp1_guards profile) then
    let missing := ValueError "reclaim guard requires a positive reference" in
    match pre_tp1_reclaim_price with
    | None => Raise missing
    | Some reference =>
        raise_if (nonpositive reference) missing;;
        if reclaim_hit (ep_position_side profile) (mf_latest_close market_facts) reference then
          exit_decision EXIT (reclaim_reason (ep_position_side profile))
            (mf_watermark_ms market_facts)
        else pre_tp1_time_stops profile market_facts
    end
  else pre_tp1_time_stops profile market_facts.

Definition evaluate_profile_pre_tp1_exit (profile : ExitProfile)
    (market_facts : LifecycleMarketFacts) (observed_at_ms : Z)
    (pre_tp1_reclaim_price : option Decimal) (exposure_session_end_ms : option Z)
    : result ExitDecision :=
  let watermark := mf_watermark_ms market_facts in
  raise_if (observed_at_ms <? watermark) (ValueError "pre-TP1 observation precedes market facts");;
  if negb (mf_is_final_closed_candle market_facts) then
    exit_decision NO_CHANGE "closed_candle_required" watermark
  else if bool_decide (SESSION_EXPIRY ∈ ep_pre_tp1_guards profile) then
    let missing := ValueError "session-expiry guard requires a positive deadline" in
    match exposure_session_end_ms with
    | None => Raise missing
    | Some deadline =>
        raise_if (deadline <=? 0) missing;;
        if deadline <=? observed_at_ms then exit_decision EXIT "session_expired" watermark
        else pre_tp1_reclaim profile market_facts pre_tp1_reclaim_price
    end
  else pre_tp1_reclaim profile market_facts pre_tp1_reclaim_price.

(** The evaluators of the legacy policies. *)
Definition evaluate_exit_policy (policy : ExitPolicy)
    (current_stop break_even_floor price_tick : Decimal) (last_runner_watermark_ms : Z)
    (market_facts : LifecycleMarketFacts) : result ExitDecision :=
  let watermark := mf_watermark_ms market_facts in
  raise_if (nonpositive current_stop || nonpositive break_even_floor || nonpositive price_tick)
    (ValueError "runner evaluation prices and tick must be positive");;
  if watermark <=? last_runner_watermark_ms then
    exit_decision NO_CHANGE "market_watermark_not_new" watermark
  else if negb (mf_is_final_closed_candle market_facts) then
    exit_decision NO_CHANGE "closed_candle_required" watermark
  else if opt_test (λ r, ts_max_holding_bars r <=? mf_holding_bars market_facts)
            (xp_time_stop policy) then
    exit_decision EXIT "time_stop_hit" watermark
  else
    candidate ← calculate_structural_runner_stop (side_value (xp_position_side policy))
      (mf_structure_reference market_facts) (mf_atr market_facts)
      (st_atr_buffer_multiple (xp_runner policy)) price_tick;
    runner_decision (xp_position_side policy) current_stop break_even_floor price_tick
      (st_minimum_improvement_ticks (xp_runner policy)) watermark
      "structural_atr_runner_improvement" candidate.

Definition evaluate_pre_tp1_exit (policy : ExitPolicy) (pre_tp1_reclaim_price : Decimal)
    (exposure_session_end_ms : Z) (market_facts : LifecycleMarketFacts) (observed_at_ms : Z)
    : result ExitDecision :=
  let watermark := mf_watermark_ms market_facts in
  raise_if (nonpositive pre_tp1_reclaim_price || (exposure_session_end_ms <=? 0))
    (ValueError "pre-TP1 exit plan must be positive");;
  raise_if (observed_at_ms <? watermark) (ValueError "pre-TP1 observation precedes market facts");;
  if negb (mf_is_final_closed_candle market_facts) then
    exit_decision NO_CHANGE "closed_candle_required" watermark
  else if exposure_session_end_ms <=? observed_at_ms then
    exit_decision EXIT "sor_session_expired" watermark
  else if reclaim_hit (xp_position_side policy) (mf_latest_close market_facts)
            pre_tp1_reclaim_price then
    exit_decision EXIT (reclaim_reason (xp_position_side policy)) watermark
  else if opt_test (λ r, ts_max_holding_bars r <=? mf_holding_bars market_facts)
            (xp_time_stop policy) then
    exit_decision EXIT "time_stop_hit" watermark
  else exit_decision NO_CHANGE "pre_tp1_plan_intact" watermark.

(** ** Rounding to a step *)

Lemma round_to_step_total value step mode :
  (0 < dval step)%Q → ∃ p, round_to_step value step mode = Ok p.
Proof. intros H. unfold round_to_step. destruct (ddiv_pos_total value step H) as [q ->]. by eexists. Qed.

Lemma round_to_step_floor value step p :
  (0 < dval step)%Q → (0 <= dval value)%Q → round_to_step value step ROUND_FLOOR = Ok p →
  (0 <= dval p <= grown 3 (dval value))%Q.
Proof.
  intros Hs Hv H. unfold round_to_step in H. apply bind_Ok in H as (u & Hu & H).
  apply Ok_inj in H as <-.
  pose proof (ddiv_nonneg _ _ _ Hv Hs Hu) as Hun. pose proof (ddiv_upper _ _ _ Hv Hs Hu) as Hup.
  destruct (to_integral_floor u) as (F1 & _ & F3). specialize (F3 Hun).
  pose proof (Qlt_le_weak _ _ Hs) as Hs'. split; [by apply dmul_nonneg|].
  eapply Qle_trans; [by apply dmul_upper|]. cbn [grown]. apply Qmult_le_compat_r; [|apply eps_bounds].
  eapply Qle_trans; [apply Qmult_le_compat_r; [eapply Qle_trans; [exact F1|exact Hup]|done]|].
  rewrite Qmult_comm, <- grown_scale.
  setoid_replace (dval step * (dval value / dval step))%Q with (dval value) using relation Qeq;
    [apply Qle_refl|field; lra].
Qed.

Lemma round_to_step_ceiling value step p :
  (0 < dval step)%Q → (0 <= dval value)%Q → round_to_step value step ROUND_CEILING = Ok p →
  (shrunk 3 (dval value) <= dval p)%Q.
Proof.
  intros Hs Hv H. unfold round_to_step in H. apply bind_Ok in H as (u & Hu & H).
  apply Ok_inj in H as <-.
  destruct (ddiv_bounds _ _ _ Hv Hs Hu) as [B _]. pose proof (to_integral_ceiling u) as Hc.
  pose proof (Qlt_le_weak _ _ Hs) as Hs'. destruct eps_bounds as (E1 & _).
  assert (Hd : (0 <= dval value / dval step)%Q) by (by apply Qdiv_nonneg).
  assert (H2 : (0 <= shrunk 2 (dval value / dval step))%Q) by (by apply shrunk_nonneg).
  eapply Qle_trans; [|apply dmul_lower; [|done]; eapply Qle_trans; [exact H2|];
                      eapply Qle_trans; [exact B|exact Hc]].
  cbn [shrunk]. apply Qmult_le_compat_r; [|done].
  eapply Qle_trans; [|apply Qmult_le_compat_r; [eapply Qle_trans; [exact B|exact Hc]|done]].
  apply Qle_lteq; right. field. lra.
Qed.

(** A floored multiple of the step is a multiple of it, as long as the total
    fits the context at the step's last place. *)
Lemma round_to_step_multiple value step mode p total :
  (0 < dval step)%Q → (0 <= dval p)%Q → (dval p < dval total)%Q →
  (dval total < inject_Z (10 ^ context_prec) * p10 (expo step))%Q →
  round_to_step value step mode = Ok p → ∃ n, (dval p == inject_Z n * dval step)%Q.
Proof.
  intros Hs Hp0 Hp Ht H. unfold round_to_step in H. apply bind_Ok in H as (u & _ & H).
  apply Ok_inj in H as <-. destruct (to_integral_integer mode u) as [n Hn]. exists n.
  set (d := raw_mul (to_integral_value mode u) step).
  assert (Hd : (dval d == dval (mkDecimal (n * coef step) (expo step)))%Q).
  { subst d. rewrite dval_raw_mul, Hn. unfold dval. cbn [coef expo]. rewrite inject_Z_mult. ring. }
  change (to_integral_value mode u * step)%dec with (fix_prec d) in *.
  assert (Hv : (dval (mkDecimal (n * coef step) (expo step)) == inject_Z n * dval step)%Q)
    by (unfold dval; cbn [coef expo]; rewrite inject_Z_mult; ring).
  rewrite <- Hv. apply fix_prec_exact; [|done].
  set (big := mkDecimal (10 ^ (context_prec - 1)) (expo step + 1)).
  assert (Hb : (dval big == inject_Z (10 ^ context_prec) * p10 (expo step))%Q).
  { subst big. unfold dval. cbn [coef expo]. rewrite p10_add, Qmult_assoc.
    change (p10 1) with (inject_Z 10). rewrite (Qmult_comm (_ * _)), Qmult_assoc, <- inject_Z_mult.
    reflexivity. }
  unfold fits. cbn [coef]. apply Z.ltb_lt.
  assert (Hcs : 0 < coef step) by (by apply dval_sign).
  assert (Hn0 : 0 <= n * coef step).
  { apply Z.nlt_ge. intros Hneg.
    assert (Hlt : (0 < dval (raw_neg d))%Q).
    { rewrite dval_raw_neg, Hd. unfold dval. cbn [coef expo]. pose proof (p10_pos (expo step)).
      assert (inject_Z (n * coef step) < 0)%Q by (change 0%Q with (inject_Z 0); by rewrite <- Zlt_Qlt).
      nra. }
    apply fix_prec_pos in Hlt. rewrite fix_prec_neg in Hlt. lra. }
  rewrite Z.abs_eq by done. apply Z.nle_gt. intros Hge.
  assert (Hle : (dval big <= dval (fix_prec d))%Q).
  { apply fix_prec_ge; [reflexivity|]. rewrite Hd, Hb. unfold dval. cbn [coef expo].
    apply Qmult_le_compat_r; [by rewrite <- Zle_Qle|apply Qlt_le_weak, p10_pos]. }
  rewrite Hb in Hle. lra.
Qed.

(** An accepted remainder of zero: the dividend is a multiple. *)
Lemma dmod_zero a b r :
  dmod a b = Ok r → (dval r == 0)%Q → ∃ k, (dval a == inject_Z k * dval b)%Q.
Proof.
  unfold dmod. destruct (coef b =? 0) eqn:Hb; [done|]. apply Z.eqb_neq in Hb.
  set (m := Z.min (expo a) (expo b)). destruct (_ <=? _); [done|]. intros H%Ok_inj Hr. subst r.
  set (d := mkDecimal (Z.rem (scale a m) (scale b m)) m) in *.
  assert (Hd : (dval d == 0)%Q).
  { destruct (Qlt_le_dec 0 (dval d)) as [H|H]; [apply fix_prec_pos in H; lra|].
    destruct (Qlt_le_dec (dval d) 0) as [H'|H']; [|lra].
    assert (Hn : (0 < dval (raw_neg d))%Q) by (rewrite dval_raw_neg; lra).
    apply fix_prec_pos in Hn. rewrite fix_prec_neg in Hn. lra. }
  assert (Hc : Z.rem (scale a m) (scale b m) = 0).
  { unfold dval in Hd. subst d. cbn [coef expo] in Hd. pose proof (p10_pos m) as Hp.
    apply Qmult_integral in Hd as [Hd|Hd]; [|lra]. by apply (inject_Z_injective _ 0). }
  exists (Z.quot (scale a m) (scale b m)).
  rewrite (dval_scale a m), (dval_scale b m) by (subst m; lia).
  rewrite Qmult_assoc, <- inject_Z_mult.
  assert (Hbz : scale b m ≠ 0).
  { unfold scale. apply Z.neq_mul_0. split; [done|]. pose proof (pow10_pos (expo b - m)). lia. }
  rewrite (Z.quot_rem (scale a m) (scale b m) Hbz) at 1. rewrite Hc, Z.add_0_r, Z.mul_comm. reflexivity.
Qed.

(** A difference of multiples of a step, below the same bound, is exact. *)
Lemma dsub_multiple total p step k n :
  (0 < dval step)%Q → (0 <= dval p)%Q → (dval p <= dval total)%Q →
  (dval total < inject_Z (10 ^ context_prec) * p10 (expo step))%Q →
  (dval total == inject_Z k * dval step)%Q → (dval p == inject_Z n * dval step)%Q →
  (dval (total - p)%dec == dval total - dval p)%Q ∧
  (dval (total - p)%dec == inject_Z (k - n) * dval step)%Q.
Proof.
  intros Hs Hp0 Hp Hb Hk Hn.
  assert (Hcs : 0 < coef step) by (by apply dval_sign).
  assert (Hdiff : (dval total - dval p == dval (mkDecimal ((k - n) * coef step) (expo step)))%Q).
  { rewrite Hk, Hn. unfold dval. cbn [coef expo].
    rewrite inject_Z_mult. unfold Z.sub. rewrite inject_Z_plus, inject_Z_opp. ring. }
  assert (Hfits : fits (mkDecimal ((k - n) * coef step) (expo step)) = true).
  { unfold fits. cbn [coef]. apply Z.ltb_lt.
    assert (H0 : (0 <= dval (mkDecimal ((k - n) * coef step) (expo step)))%Q) by lra.
    apply dval_sign_nonneg in H0. cbn [coef] in H0. rewrite Z.abs_eq by done.
    assert (Hlt : (dval (mkDecimal ((k - n) * coef step) (expo step))
                   < inject_Z (10 ^ context_prec) * p10 (expo step))%Q) by lra.
    unfold dval in Hlt. cbn [coef expo] in Hlt. apply Qmult_lt_r in Hlt; [|apply p10_pos].
    by rewrite <- Zlt_Qlt in Hlt. }
  assert (He : (dval (total - p)%dec == dval total - dval p)%Q).
  { rewrite Hdiff. apply fix_prec_exact; [done|].
    rewrite dval_raw_add, dval_raw_neg, <- Hdiff. ring. }
  split; [done|]. rewrite He, Hk, Hn. unfold Z.sub. rewrite inject_Z_plus, inject_Z_opp. ring.
Qed.

(** ** Chains of roundings in the break-even price *)

Lemma ddiv_pos_dividend a b q :
  (0 < dval b)%Q → ddiv a b = Ok q → (0 < dval q)%Q → (0 < dval a)%Q.
Proof.
  intros Hb H Hq. apply dval_sign. apply dval_sign in Hb. unfold ddiv in H.
  destruct (coef b =? 0); [done|]. destruct (coef a =? 0) eqn:Ha.
  { apply Ok_inj in H. subst q. apply dval_sign in Hq. cbn [coef] in Hq. lia. }
  apply Z.eqb_neq in Ha. cbv zeta in H.
  assert (Hd : ∀ c e, 0 <= c → (0 < dval (fix_prec (mkDecimal (Z.sgn (coef a) * Z.sgn (coef b) * c) e)))%Q →
                      0 < coef a).
  { intros c e Hc Hp. apply fix_prec_pos, dval_sign in Hp. cbn [coef] in Hp.
    rewrite (Z.sgn_pos (coef b)) in Hp by done. destruct (Z.sgn_spec (coef a)) as [[? E]|[[? E]|[? E]]]; rewrite E in Hp; lia. }
  set (shift := ndigits (coef b) - ndigits (coef a) + context_prec + 1) in *.
  set (n := Z.abs (coef a) * 10 ^ Z.max 0 shift) in *.
  set (d := Z.abs (coef b) * 10 ^ Z.max 0 (- shift)) in *.
  assert (Hn : 0 <= n / d).
  { apply Z.div_pos; subst n d.
    - apply Z.mul_nonneg_nonneg; [lia|apply Z.pow_nonneg; lia].
    - apply Z.mul_pos_pos; [lia|apply pow10_pos; lia]. }
  destruct (n mod d =? 0).
  - apply Ok_inj in H. subst q. eapply Hd; [|exact Hq].
    assert (Hv : (0 <= dval (strip_zeros 32 (n / d) (expo a - expo b - shift) (expo a - expo b)))%Q).
    { rewrite strip_zeros_value. apply dval_sign_nonneg. done. }
    by apply dval_sign_nonneg in Hv.
  - apply Ok_inj in H. subst q. eapply Hd; [|exact Hq]. destruct (_ mod 5 =? 0); lia.
Qed.

Lemma Qdiv_le_mult x y z : (0 < y)%Q → (x / y <= z)%Q → (x <= z * y)%Q.
Proof.
  intros Hy H. apply (Qmult_le_compat_r _ _ y) in H; [|lra].
  assert (E : (x / y * y == x)%Q) by (field; lra). lra.
Qed.
Lemma Qdiv_ge_mult x y z : (0 < y)%Q → (z <= x / y)%Q → (z * y <= x)%Q.
Proof.
  intros Hy H. apply (Qmult_le_compat_r _ _ y) in H; [|lra].
  assert (E : (x / y * y == x)%Q) by (field; lra). lra.
Qed.

Lemma long_cover (e T sum den D p : Q) :
  (0 < e <= 1 # 1000)%Q → (0 <= T)%Q → (0 < den)%Q → (0 < D)%Q → (0 <= p)%Q →
  (T * (1 - e) * (1 - e) * (1 - e) <= sum)%Q →
  (den <= D * (1 + e) * (1 + e))%Q →
  (sum * (1 - e) * (1 - e) * (1 - e) * (1 - e) * (1 - e) <= p * den)%Q →
  (T * (1 - e) * (1 - e) * (1 - e) * (1 - e) * (1 - e) * (1 - e) * (1 - e) * (1 - e) * (1 - e) * (1 - e) <= p * D)%Q.
Proof.
  intros He HT Hden HD Hp H1 H2 H3.
  set (u := (1 - e)%Q) in *. set (v := (1 + e)%Q) in *.
  assert (Hu : (0 < u)%Q) by (unfold u; lra).
  assert (Huv : (v * u <= 1)%Q) by (unfold u, v; nra).
  assert (Hv0 : (0 < v)%Q) by (unfold v; lra).
  assert (Hpd : (p * den <= p * D * v * v)%Q).
  { setoid_replace (p * D * v * v)%Q with (p * (D * v * v))%Q using relation Qeq by ring.
    by apply Qmult_le_l. }
  assert (A1 : (T * u * u * u * (u * u * u * u * u) <= sum * (u * u * u * u * u))%Q).
  { apply Qmult_le_compat_r; [done|]. repeat apply Qmult_le_0_compat; lra. }
  assert (HpD : (0 <= p * D)%Q) by nra.
  assert (A2 : (T * u * u * u * u * u * u * u * u <= p * D * v * v)%Q) by lra.
  assert (A3 : (T * u * u * u * u * u * u * u * u * (u * u) <= p * D * v * v * (u * u))%Q)
    by (apply Qmult_le_compat_r; [done|nra]).
  assert (A4 : (p * D * v * v * (u * u) <= p * D)%Q).
  { setoid_replace (p * D * v * v * (u * u))%Q with (p * D * ((v * u) * (v * u)))%Q using relation Qeq by ring.
    rewrite <- (Qmult_1_r (p * D)) at 2.
    apply Qmult_le_l; [done|]. assert (0 < v * u)%Q by nra. nra. }
  lra.
Qed.

Lemma short_cover (e A F S n sub s num den D p : Q) :
  (0 < e <= 1 # 1000)%Q → (0 <= A)%Q → (0 <= F)%Q → (0 <= S)%Q → (0 < D)%Q → (0 <= p)%Q →
  (n <= A * (1 + e))%Q → (sub <= (n - F) * (1 + e))%Q → (S * (1 - e) * (1 - e) <= s)%Q →
  (0 < num)%Q → (num <= (sub - s) * (1 + e))%Q →
  (D * (1 - e) * (1 - e) <= den)%Q →
  (p * den <= num * (1 + e) * (1 + e) * (1 + e) * (1 + e) * (1 + e))%Q →
  (p * D + F + S <= A * (1 + 30 * e))%Q.
Proof.
  intros He HA HF HS HD Hp Hn Hsub Hs Hnum0 Hnum Hden H.
  assert (c1 : (99 # 100 <= (1 - e) * (1 - e))%Q) by nra.
  assert (c2 : ((1 + e) * (1 + e) <= 102 # 100)%Q) by nra.
  assert (c3 : ((1 + e) * (1 + e) <= 1 + 3 * e)%Q) by nra.
  assert (c4 : (1 - 2 * e <= (1 - e) * (1 - e))%Q) by nra.
  set (X := (sub - s)%Q) in *. assert (HX : (0 < X)%Q) by nra.
  assert (HX1 : (X <= A * (1 + e) * (1 + e) - F * (1 + e) - S * (1 - e) * (1 - e))%Q).
  { unfold X. assert ((n - F) * (1 + e) <= (A * (1 + e) - F) * (1 + e))%Q
      by (apply Qmult_le_compat_r; lra). lra. }
  assert (HSA : (S <= 2 * A)%Q).
  { assert (0 <= F * (1 + e))%Q by (apply Qmult_le_0_compat; lra).
    assert (S * (1 - e) * (1 - e) <= A * (1 + e) * (1 + e))%Q by lra.
    pose proof (Qmult_le_l S _ _ HS c1). pose proof (Qmult_le_l A _ _ HA c2). lra. }
  assert (HX2 : (X <= A * (1 + 7 * e) - F - S)%Q).
  { pose proof (Qmult_le_l A _ _ HA c3). pose proof (Qmult_le_l S _ _ HS c4).
    assert (0 <= F * e)%Q by (apply Qmult_le_0_compat; lra).
    assert (S * e <= 2 * A * e)%Q by (apply Qmult_le_compat_r; lra). lra. }
  assert (HP : (p * D * (1 - e) * (1 - e) <= X * (1 + 7 * e))%Q).
  { assert (p * (D * (1 - e) * (1 - e)) <= p * den)%Q by (by apply Qmult_le_l).
    assert (P : (num * ((1 + e) * (1 + e) * (1 + e) * (1 + e) * (1 + e)) <=
            X * (1 + e) * ((1 + e) * (1 + e) * (1 + e) * (1 + e) * (1 + e)))%Q).
    { apply Qmult_le_compat_r; [done|]. repeat apply Qmult_le_0_compat; lra. }
    assert (Q6 : ((1 + e) * ((1 + e) * (1 + e) * (1 + e) * (1 + e) * (1 + e)) <= 1 + 7 * e)%Q).
    { assert (B2 : ((1 + e) * (1 + e) <= 1 + (201 # 100) * e)%Q) by nra.
      assert (B3 : ((1 + e) * (1 + e) * (1 + e) <= 1 + (302 # 100) * e)%Q) by nra.
      assert (B3' : (0 <= (1 + e) * (1 + e) * (1 + e))%Q) by (repeat apply Qmult_le_0_compat; lra).
      nra. }
    assert (X * ((1 + e) * ((1 + e) * (1 + e) * (1 + e) * (1 + e) * (1 + e))) <= X * (1 + 7 * e))%Q
      by (apply Qmult_le_l; [lra|done]). lra. }
  assert (HPD : (p * D <= X * (1 + 10 * e))%Q).
  { assert (HpD : (0 <= p * D)%Q) by (apply Qmult_le_0_compat; lra).
    pose proof (Qmult_le_l (p * D) _ _ HpD c4).
    assert (K : (1 + 7 * e <= (1 + 10 * e) * (1 - 2 * e))%Q) by nra.
    assert (HX0 : (0 <= X)%Q) by lra. pose proof (Qmult_le_l X _ _ HX0 K).
    assert (L : (p * D * (1 - 2 * e) <= X * (1 + 10 * e) * (1 - 2 * e))%Q) by lra.
    apply Qmult_le_r in L; [done|lra]. }
  assert (HXA : (X <= 2 * A)%Q).
  { assert (A * e <= A * (1 # 1000))%Q by (apply Qmult_le_l; lra). lra. }
  assert (X * e <= 2 * A * e)%Q by (apply Qmult_le_compat_r; lra).
  assert (0 <= A * e)%Q by (apply Qmult_le_0_compat; lra). lra.
Qed.
