(* ===== verification/Admission.v ===== *)
(** * Entry admission ([domain/entry_admission_snapshot.py],
      [domain/incident_blocking.py], [domain/account_entry_health.py],
      [domain/instrument_entry_health.py])

    The venue observation every new-ENTRY decision uses, what the kernel owns
    of it, and the two classifications that allow or block an entry. *)

From Stdlib Require Import QArith.
From S2P Require Import Prelude PyString Sha256 PyDecimal DecimalFacts Identities Ticket.
From S2P Require Import CrossMarginStress.
#[local] Open Scope Z_scope.

(** ** Blocking scopes and keys *)

Inductive EntryBlockScope := scope_runtime | scope_account_capacity | scope_leverage_domain | scope_none.
#[export] Instance EntryBlockScope_eq_dec : EqDecision EntryBlockScope.
Proof. solve_decision. Defined.

Definition entry_block_scope_value (s : EntryBlockScope) : str :=
  match s with
  | scope_runtime => "runtime"
  | scope_account_capacity => "account_capacity"
  | scope_leverage_domain => "leverage_domain"
  | scope_none => "none"
  end.

(** [urllib.parse.quote(s, safe="")]: the letters, digits and "_.-~" stay, any
    other byte of the UTF-8 encoding becomes "%XX". *)
Definition always_safe (b : Z) : bool :=
  ((65 <=? b) && (b <=? 90)) || ((97 <=? b) && (b <=? 122)) || ((48 <=? b) && (b <=? 57))
  || (b =? 95) || (b =? 46) || (b =? 45) || (b =? 126).

Definition upper_hex_digit (n : Z) : ascii :=
  ascii_of_N (Z.to_N (if n <? 10 then 48 + n else 55 + n)).

Definition quote_byte (b : Z) : str :=
  if always_safe b then String (ascii_of_N (Z.to_N b)) EmptyString
  else String (ascii_of_N 37) (String (upper_hex_digit (b / 16))
         (String (upper_hex_digit (b mod 16)) EmptyString)).

Definition quote (s : str) : str := String.concat EmptyString (quote_byte <$> encode_utf8 s).

Definition is_empty (s : str) : bool := bool_decide (s = EmptyString).

Definition canonical_entry_block_key (scope : EntryBlockScope) (venue_id account_id : str)
    (exchange_instrument_id : option str) : result (option str) :=
  match scope with
  | scope_runtime => mret (Some "global")
  | scope_none => mret None
  | scope_account_capacity | scope_leverage_domain =>
      raise_if (is_empty venue_id || is_empty account_id)
        (ValueError "entry block keys require venue and account identity");;
      if bool_decide (scope = scope_account_capacity) then
        mret (Some (venue_id +:+ ":" +:+ account_id))
      else
        match exchange_instrument_id with
        | Some i =>
            raise_if (is_empty i)
              (ValueError "leverage-domain block keys require instrument identity");;
            mret (Some (venue_id +:+ ":" +:+ account_id +:+ ":" +:+ quote i))
        | None => Raise (ValueError "leverage-domain block keys require instrument identity")
        end
  end.

(** ** The snapshot *)

Record AdmissionOrder := mkAdmissionOrder {
  ao_exchange_order_id : str;
  ao_venue_client_order_id : option str;
  ao_exchange_instrument_id : str;
  ao_position_side : PositionSide;
  ao_reduce_only : bool;
  ao_order_namespace : OrderNamespace;
  ao_order_side : option OrderSide;
  ao_quantity : option Decimal;
  ao_trigger_price : option Decimal;
  ao_limit_price : option Decimal
}.

Definition validate_AdmissionOrder (o : AdmissionOrder) : result AdmissionOrder :=
  validate_fields
    (((λ v, (blank v, "order identity must be non-blank")) <$>
        [ao_exchange_order_id o; ao_exchange_instrument_id o]) ++
     ((λ v, (opt_test nonpositive v, "open-order numeric facts must be finite and positive")) <$>
        [ao_quantity o; ao_trigger_price o; ao_limit_price o]));;
  mret (mkAdmissionOrder (strip (ao_exchange_order_id o))
          (normalize_optional (ao_venue_client_order_id o)) (strip (ao_exchange_instrument_id o))
          (ao_position_side o) (ao_reduce_only o) (ao_order_namespace o) (ao_order_side o)
          (ao_quantity o) (ao_trigger_price o) (ao_limit_price o)).

Record OwnedPositionProjection := mkOwnedProjection {
  op_netting_domain_key : str;
  op_quantity : Decimal
}.

Definition validate_OwnedPositionProjection (p : OwnedPositionProjection)
    : result OwnedPositionProjection :=
  validate_fields
    [(blank (op_netting_domain_key p), "owned position domain must be non-blank");
     (negative (op_quantity p), "owned position quantity must be finite and nonnegative")];;
  mret (mkOwnedProjection (strip (op_netting_domain_key p)) (op_quantity p)).

Record AdmissionOwnership := mkOwnership {
  aw_owned_position_domain_keys : list str;
  aw_owned_position_projections : list OwnedPositionProjection;
  aw_owned_exchange_order_ids : list str;
  aw_open_incident_scopes : list EntryBlockScope;
  aw_unknown_command_outcome_ticket_ids : list str
}.

Definition subset_of (l l' : list str) : bool := forallb (λ x, bool_decide (x ∈ l')) l.

Definition validate_AdmissionOwnership (w : AdmissionOwnership) : result AdmissionOwnership :=
  validate_fields
    ((λ l, (existsb blank l || negb (bool_decide (NoDup (strip <$> l))),
            "ownership identities must be unique and non-blank")) <$>
       [aw_owned_position_domain_keys w; aw_owned_exchange_order_ids w;
        aw_unknown_command_outcome_ticket_ids w]);;
  let w := mkOwnership (strip <$> aw_owned_position_domain_keys w)
             (aw_owned_position_projections w) (strip <$> aw_owned_exchange_order_ids w)
             (aw_open_incident_scopes w) (strip <$> aw_unknown_command_outcome_ticket_ids w) in
  let projection_keys := op_netting_domain_key <$> aw_owned_position_projections w in
  validate_model
    [(negb (bool_decide (NoDup projection_keys)), "owned position projections must be unique");
     (negb (subset_of projection_keys (aw_owned_position_domain_keys w)
            && subset_of (aw_owned_position_domain_keys w) projection_keys),
      "owned position projections must match owned domain identities")];;
  mret w.

Definition projected_position_quantity (w : AdmissionOwnership) (netting_domain_key : str)
    : option Decimal :=
  p ← list_find (λ p, op_netting_domain_key p = netting_domain_key)
        (aw_owned_position_projections w);
  Some (op_quantity p.2).

Record EntryAdmissionSnapshot := mkAdmissionSnapshot {
  as_account_risk_snapshot : AccountRiskSnapshot;
  as_best_bid_price : Decimal;
  as_best_ask_price : Decimal;
  as_open_orders : list AdmissionOrder;
  as_observed_at_ms : Z;
  as_valid_until_ms : Z
}.

Definition validate_EntryAdmissionSnapshot (s : EntryAdmissionSnapshot)
    : result EntryAdmissionSnapshot :=
  validate_fields
    ((λ v, (nonpositive v, "admission quote must be finite and positive")) <$>
       [as_best_bid_price s; as_best_ask_price s]);;
  let account := as_account_risk_snapshot s in
  validate_model
    [((as_observed_at_ms s <=? 0) || (as_valid_until_ms s <=? as_observed_at_ms s),
      "admission snapshot window must be positive and ordered");
     (negb ((ars_observed_at_ms account =? as_observed_at_ms s)
            && (ars_valid_until_ms account =? as_valid_until_ms s)),
      "admission and account risk windows must agree");
     ((as_best_ask_price s <? as_best_bid_price s)%dec,
      "admission best ask cannot be below best bid");
     (negb (bool_decide (NoDup (ao_exchange_order_id <$> as_open_orders s))),
      "admission snapshot order identities must be unique")];;
  mret s.

Definition order_namespace_value (n : OrderNamespace) : str :=
  match n with regular => "regular" | conditional => "conditional" end.
Definition order_side_value (s : OrderSide) : str :=
  match s with buy => "buy" | sell => "sell" end.

Definition AdmissionOrder_json (o : AdmissionOrder) : JsonValue :=
  JObj [("exchange_order_id", JStr (ao_exchange_order_id o));
        ("venue_client_order_id", JOpt JStr (ao_venue_client_order_id o));
        ("exchange_instrument_id", JStr (ao_exchange_instrument_id o));
        ("position_side", JStr (side_value (ao_position_side o)));
        ("reduce_only", JBool (ao_reduce_only o));
        ("order_namespace", JStr (order_namespace_value (ao_order_namespace o)));
        ("order_side", JOpt (λ v, JStr (order_side_value v)) (ao_order_side o));
        ("quantity", JOpt JDec (ao_quantity o));
        ("trigger_price", JOpt JDec (ao_trigger_price o));
        ("limit_price", JOpt JDec (ao_limit_price o))].

(** [EntryAdmissionSnapshot.digest] *)
Definition admission_snapshot_digest (s : EntryAdmissionSnapshot) : str :=
  let account := as_account_risk_snapshot s in
  canonical_digest (JObj
    [("account_risk_snapshot",
      JObj (AccountRiskSnapshot_fields account
            ++ [("snapshot_digest", JStr (ars_snapshot_digest account))]));
     ("best_bid_price", JDec (as_best_bid_price s));
     ("best_ask_price", JDec (as_best_ask_price s));
     ("open_orders", JList (AdmissionOrder_json <$> as_open_orders s));
     ("observed_at_ms", JInt (as_observed_at_ms s));
     ("valid_until_ms", JInt (as_valid_until_ms s))]).

(** [EntryAdmissionSnapshot.position_domain_key] *)
Definition position_domain_key (s : EntryAdmissionSnapshot) (p : AccountRiskPosition) : str :=
  let account := as_account_risk_snapshot s in
  ars_venue_id account +:+ ":" +:+ ars_account_id account +:+ ":"
  +:+ arp_exchange_instrument_id p +:+ ":" +:+ side_value (arp_position_side p).

(** A position the kernel does not own; an order it does not own. *)
Definition unowned_position (s : EntryAdmissionSnapshot) (w : AdmissionOwnership)
    (p : AccountRiskPosition) : bool :=
  (arp_quantity p >? d0)%dec
  && negb (bool_decide (position_domain_key s p ∈ aw_owned_position_domain_keys w)).
Definition unowned_order (w : AdmissionOwnership) (o : AdmissionOrder) : bool :=
  negb (bool_decide (ao_exchange_order_id o ∈ aw_owned_exchange_order_ids w)).

Definition incident_open (scope : EntryBlockScope) (w : AdmissionOwnership) : bool :=
  bool_decide (scope ∈ aw_open_incident_scopes w).
Definition outcome_unknown (w : AdmissionOwnership) : bool :=
  match aw_unknown_command_outcome_ticket_ids w with [] => false | _ => true end.

(** ** Account health *)

Inductive AccountEntryHealthStatus :=
  | ACCOUNT_HEALTHY | ACCOUNT_RUNTIME_FENCED | ACCOUNT_INCIDENT | ACCOUNT_UNKNOWN_COMMAND_OUTCOME
  | ACCOUNT_UNOWNED_POSITION | ACCOUNT_UNOWNED_ORDER.
#[export] Instance AccountEntryHealthStatus_eq_dec : EqDecision AccountEntryHealthStatus.
Proof. solve_decision. Defined.

Definition account_health_value (s : AccountEntryHealthStatus) : str :=
  match s with
  | ACCOUNT_HEALTHY => "healthy"
  | ACCOUNT_RUNTIME_FENCED => "runtime_fenced"
  | ACCOUNT_INCIDENT => "account_incident"
  | ACCOUNT_UNKNOWN_COMMAND_OUTCOME => "unknown_command_outcome"
  | ACCOUNT_UNOWNED_POSITION => "unowned_position"
  | ACCOUNT_UNOWNED_ORDER => "unowned_order"
  end.

Record AccountEntryHealth := mkAccountHealth {
  ah_status : AccountEntryHealthStatus;
  ah_entry_block_scope : EntryBlockScope;
  ah_entry_block_key : option str;
  ah_entry_admission_snapshot_digest : str;
  ah_decision_digest : str
}.

(** [_health] *)
Definition account_health (s : EntryAdmissionSnapshot) (status : AccountEntryHealthStatus)
    (scope : EntryBlockScope) : result AccountEntryHealth :=
  let snapshot_digest := admission_snapshot_digest s in
  let account := as_account_risk_snapshot s in
  block_key ← canonical_entry_block_key scope (ars_venue_id account) (ars_account_id account) None;
  mret (mkAccountHealth status scope block_key snapshot_digest
          (canonical_digest (JObj
             [("status", JStr (account_health_value status));
              ("entry_block_scope", JStr (entry_block_scope_value scope));
              ("entry_block_key", JOpt JStr block_key);
              ("entry_admission_snapshot_digest", JStr snapshot_digest)]))).

Definition classify_account_entry_health (s : EntryAdmissionSnapshot) (w : AdmissionOwnership)
    : result AccountEntryHealth :=
  if incident_open scope_runtime w then account_health s ACCOUNT_RUNTIME_FENCED scope_runtime
  else if outcome_unknown w then
    account_health s ACCOUNT_UNKNOWN_COMMAND_OUTCOME scope_account_capacity
  else if incident_open scope_account_capacity w then
    account_health s ACCOUNT_INCIDENT scope_account_capacity
  else if existsb (unowned_position s w) (ars_account_positions (as_account_risk_snapshot s)) then
    account_health s ACCOUNT_UNOWNED_POSITION scope_account_capacity
  else if existsb (unowned_order w) (as_open_orders s) then
    account_health s ACCOUNT_UNOWNED_ORDER scope_account_capacity
  else account_health s ACCOUNT_HEALTHY scope_none.

(** ** Instrument health *)

Inductive InstrumentEntryHealthStatus :=
  | HEALTHY_FLAT | HEALTHY_OPPOSITE_SIDE | SAME_DIRECTION_OCCUPIED | RUNTIME_FENCED
  | UNKNOWN_COMMAND_OUTCOME | UNOWNED_POSITION | UNOWNED_ORDER | OWNED_RESIDUAL_ORDER
  | LEVERAGE_DOMAIN_INCIDENT.
#[export] Instance InstrumentEntryHealthStatus_eq_dec : EqDecision InstrumentEntryHealthStatus.
Proof. solve_decision. Defined.

Definition instrument_health_value (s : InstrumentEntryHealthStatus) : str :=
  match s with
  | HEALTHY_FLAT => "healthy_flat"
  | HEALTHY_OPPOSITE_SIDE => "healthy_opposite_side"
  | SAME_DIRECTION_OCCUPIED => "same_direction_occupied"
  | RUNTIME_FENCED => "runtime_fenced"
  | UNKNOWN_COMMAND_OUTCOME => "unknown_command_outcome"
  | UNOWNED_POSITION => "unowned_position"
  | UNOWNED_ORDER => "unowned_order"
  | OWNED_RESIDUAL_ORDER => "owned_residual_order"
  | LEVERAGE_DOMAIN_INCIDENT => "leverage_domain_incident"
  end.

Record InstrumentEntryHealth := mkInstrumentHealth {
  ih_status : InstrumentEntryHealthStatus;
  ih_configured_leverage : Z;
  ih_leverage_change_allowed : bool;
  ih_entry_block_scope : EntryBlockScope;
  ih_entry_block_key : option str;
  ih_entry_admission_snapshot_digest : str;
  ih_decision_digest : str
}.

(** [_health] *)
Definition instrument_health (s : EntryAdmissionSnapshot) (configured_leverage : Z)
    (status : InstrumentEntryHealthStatus) (leverage_change_allowed : bool)
    (scope : EntryBlockScope) (exchange_instrument_id : str) : result InstrumentEntryHealth :=
  let snapshot_digest := admission_snapshot_digest s in
  let account := as_account_risk_snapshot s in
  block_key ← canonical_entry_block_key scope (ars_venue_id account) (ars_account_id account)
                (Some exchange_instrument_id);
  mret (mkInstrumentHealth status configured_leverage leverage_change_allowed scope block_key
          snapshot_digest
          (canonical_digest (JObj
             [("status", JStr (instrument_health_value status));
              ("configured_leverage", JInt configured_leverage);
              ("leverage_change_allowed", JBool leverage_change_allowed);
              ("entry_block_scope", JStr (entry_block_scope_value scope));
              ("entry_block_key", JOpt JStr block_key);
              ("entry_admission_snapshot_digest", JStr snapshot_digest)]))).

(** The positions and orders on the requested instrument. *)
Definition exact_positions (s : EntryAdmissionSnapshot) (instrument : str)
    : list AccountRiskPosition :=
  filter (λ p, arp_exchange_instrument_id p = instrument)
    (ars_account_positions (as_account_risk_snapshot s)).
Definition exact_orders (s : EntryAdmissionSnapshot) (instrument : str) : list AdmissionOrder :=
  filter (λ o, ao_exchange_instrument_id o = instrument) (as_open_orders s).
Definition occupied (p : AccountRiskPosition) : bool := (arp_quantity p >? d0)%dec.

Definition classify_instrument_entry_health (s : EntryAdmissionSnapshot) (w : AdmissionOwnership)
    (exchange_instrument_id : str) (requested_position_side : PositionSide)
    : result InstrumentEntryHealth :=
  let risk_snapshot := as_account_risk_snapshot s in
  raise_if (negb (bool_decide (ars_exchange_instrument_id risk_snapshot = exchange_instrument_id)))
    (ValueError "admission account risk instrument identity mismatch");;
  let positions := exact_positions s exchange_instrument_id in
  let orders := exact_orders s exchange_instrument_id in
  let has_exact_position := existsb occupied positions in
  let health status leverage_change_allowed scope :=
    instrument_health s (ars_configured_leverage risk_snapshot) status leverage_change_allowed scope
      exchange_instrument_id in
  if incident_open scope_runtime w then health RUNTIME_FENCED false scope_runtime
  else if outcome_unknown w then health UNKNOWN_COMMAND_OUTCOME false scope_account_capacity
  else if incident_open scope_leverage_domain w then
    health LEVERAGE_DOMAIN_INCIDENT false scope_leverage_domain
  else if existsb (unowned_position s w) positions then
    health UNOWNED_POSITION false scope_account_capacity
  else if existsb (unowned_order w) orders then health UNOWNED_ORDER false scope_account_capacity
  else if existsb (λ p, occupied p && bool_decide (arp_position_side p = requested_position_side))
            positions then
    health SAME_DIRECTION_OCCUPIED false scope_none
  else if negb (bool_decide (length orders = 0%nat)) && negb has_exact_position then
    health OWNED_RESIDUAL_ORDER false scope_leverage_domain
  else if has_exact_position then health HEALTHY_OPPOSITE_SIDE false scope_none
  else health HEALTHY_FLAT true scope_none.
