(* ===== verification/Signal.v ===== *)
(** * Strategy signals ([domain/signal.py])

    The immutable observation of one strategy Event: its fact snapshots, their
    digest, and the validators of the signal. *)

From Stdlib Require Import QArith.
From S2P Require Import Prelude PyString Sha256 PyDecimal DecimalFacts Identities Ticket.
From S2P Require Import StrategyRegistry.
#[local] Open Scope Z_scope.

(** ** [Decimal(s)] of a string

    The grammar of the [decimal] constructor, without case: a sign, digits with
    at most one point and at least one digit, an optional exponent; or an
    infinity or a NaN.  Surrounding space and all underscores are dropped. *)

Definition lower_ascii (c : ascii) : ascii :=
  let n := N_of_ascii c in if (65 <=? n)%N && (n <=? 90)%N then ascii_of_N (n + 32) else c.

Fixpoint map_string (f : ascii → ascii) (s : str) : str :=
  match s with EmptyString => EmptyString | String c s => String (f c) (map_string f s) end.

Fixpoint remove_char (x : ascii) (s : str) : str :=
  match s with
  | EmptyString => EmptyString
  | String c s => if bool_decide (c = x) then remove_char x s else String c (remove_char x s)
  end.

(** The longest prefix of digits: how many, their value, and the rest. *)
Fixpoint take_digits (n acc : Z) (s : str) : Z * Z * str :=
  match s with
  | String c s' =>
      if is_digit c then take_digits (n + 1) (10 * acc + (Z.of_N (N_of_ascii c) - 48)) s'
      else (n, acc, s)
  | EmptyString => (n, acc, EmptyString)
  end.

Definition take_sign (s : str) : bool * str :=
  match s with
  | String c s' =>
      if bool_decide (c = "-"%char) then (true, s')
      else if bool_decide (c = "+"%char) then (false, s') else (false, s)
  | EmptyString => (false, s)
  end.

(** [E[-+]?digits] to the end, or nothing. *)
Definition parse_exponent (s : str) : option Z :=
  match s with
  | EmptyString => Some 0
  | String c s =>
      if bool_decide (c = "e"%char) then
        let '(negative, s) := take_sign s in
        let '(n, e, rest) := take_digits 0 0 s in
        if (0 <? n) && bool_decide (rest = EmptyString) then Some (if negative then - e else e)
        else None
      else None
  end.

Definition is_special (s : str) : bool :=
  bool_decide (s ∈ ["inf"; "infinity"])
  || let s := if startswith s "s" then String.substring 1 (String.length s - 1) s else s in
     startswith s "nan"
     && bool_decide ((take_digits 0 0 (String.substring 3 (String.length s - 3) s)).2 = EmptyString).

(** [None]: not a decimal; [Some None]: an infinity or a NaN. *)
Definition parse_decimal (s : str) : option (option Decimal) :=
  let s := map_string lower_ascii (remove_char "_"%char (strip s)) in
  let '(negative, s) := take_sign s in
  if is_special s then Some None
  else
    let '(n, i, rest) := take_digits 0 0 s in
    let '(m, c, rest) :=
      match rest with
      | String p rest' => if bool_decide (p = "."%char) then take_digits 0 i rest' else (0, i, rest)
      | EmptyString => (0, i, rest)
      end in
    if n + m <=? 0 then None
    else
      match parse_exponent rest with
      | Some e => Some (Some (mkDecimal (if negative then - c else c) (e - m)))
      | None => None
      end.

Example parse_plain : parse_decimal " 12.50 " = Some (Some (mkDecimal 1250 (-2))).
Proof. reflexivity. Qed.
Example parse_scientific : parse_decimal "-1_0.5E+3" = Some (Some (mkDecimal (-105) 2)).
Proof. reflexivity. Qed.
Example parse_special : parse_decimal "+Infinity" = Some None ∧ parse_decimal "sNaN12" = Some None.
Proof. split; reflexivity. Qed.
Example parse_invalid : parse_decimal "1.2.3" = None ∧ parse_decimal "." = None ∧ parse_decimal "1e" = None.
Proof. split_and!; reflexivity. Qed.

(** ** Fact snapshots *)

(** The value of a fact is any JSON value without a float. *)
Record SignalFactSnapshot := mkFactSnapshot {
  sf_fact_definition_id : str;
  sf_role : FactRole;
  sf_value : JsonValue;
  sf_satisfied : bool;
  sf_observed_at_ms : Z;
  sf_valid_until_ms : Z;
  sf_projection_version : Z
}.

(** [Decimal(str(value))]: only integers and strings can spell a decimal. *)
Definition decimal_of_value (v : JsonValue) : option (option Decimal) :=
  match v with
  | JInt z => Some (Some (of_int z))
  | JStr s => parse_decimal s
  | _ => None
  end.

(** The value checks of [_validate_fact_window]. *)
Definition fact_value_checks (role : FactRole) (v : JsonValue) : list (bool * str) :=
  let boolean := match v with JBool _ => true | _ => false end in
  match role with
  | role_condition | role_disable =>
      [(negb boolean, "condition and disable facts must be boolean")]
  | _ =>
      [(boolean || is_none (decimal_of_value v), "reference facts must be decimal");
       (match decimal_of_value v with Some (Some d) => nonpositive d | _ => true end,
        "reference facts must be positive finite decimals")]
  end.

Definition validate_SignalFactSnapshot (f : SignalFactSnapshot) : result SignalFactSnapshot :=
  validate_fields [(blank (sf_fact_definition_id f), "fact definition identity must be non-blank")];;
  validate_model
    ((((sf_observed_at_ms f <=? 0) || (sf_valid_until_ms f <=? sf_observed_at_ms f)
       || (sf_projection_version f <=? 0)), "fact snapshot time and version must be positive")
     :: fact_value_checks (sf_role f) (sf_value f));;
  mret (mkFactSnapshot (strip (sf_fact_definition_id f)) (sf_role f) (sf_value f) (sf_satisfied f)
          (sf_observed_at_ms f) (sf_valid_until_ms f) (sf_projection_version f)).

(** [sorted(facts, key=fact_definition_id)]: stable. *)
Definition sort_facts (facts : list SignalFactSnapshot) : list SignalFactSnapshot :=
  snd <$> sort_fields ((λ f, (sf_fact_definition_id f, f)) <$> facts).

Definition fact_snapshot_json (f : SignalFactSnapshot) : JsonValue :=
  JObj [("fact_definition_id", JStr (sf_fact_definition_id f));
        ("role", JStr (fact_role_value (sf_role f)));
        ("value", sf_value f);
        ("satisfied", JBool (sf_satisfied f));
        ("observed_at_ms", JInt (sf_observed_at_ms f));
        ("valid_until_ms", JInt (sf_valid_until_ms f));
        ("projection_version", JInt (sf_projection_version f))].

Definition build_signal_fact_digest (facts : list SignalFactSnapshot) : result str :=
  let ordered := sort_facts facts in
  raise_if (negb (bool_decide (NoDup (sf_fact_definition_id <$> ordered))))
    (ValueError "fact digest input contains duplicate definitions");;
  mret (json_digest false (JList (fact_snapshot_json <$> ordered))).

(** ** The signal *)

Record StrategySignal := mkSignal {
  sg_signal_event_id : str;
  sg_exposure_episode_id : str;
  sg_runtime_scope_id : str;
  sg_runtime_scope_version : Z;
  sg_strategy_group_id : str;
  sg_strategy_version_id : str;
  sg_event_spec_id : str;
  sg_universe_version_id : str;
  sg_universe_semantic_digest : str;
  sg_exchange_instrument_id : str;
  sg_position_side : PositionSide;
  sg_fact_digest : str;
  sg_occurred_at_ms : Z;
  sg_observed_at_ms : Z;
  sg_expires_at_ms : Z;
  sg_facts : list SignalFactSnapshot;
  sg_selection_authority_id : option str
}.

(** One validator that stops at its first [raise]. *)
Definition first_failed (checks : list (bool * str)) : bool * str :=
  default (false, EmptyString) (snd <$> list_find (λ c : bool * str, c.1 = true) checks).

Definition is_disable (f : SignalFactSnapshot) : bool := bool_decide (sf_role f = role_disable).

(** [_normalize_fact_order] *)
Definition fact_bundle_check (facts : list SignalFactSnapshot) : bool * str :=
  let ordered := sort_facts facts in
  first_failed
    [(match facts with [] => true | _ => false end,
      "strategy signal requires an immutable fact bundle");
     (negb (bool_decide (NoDup (sf_fact_definition_id <$> ordered))),
      "strategy signal facts must be unique");
     (negb (Nat.eqb (length (filter (λ f, sf_role f = role_protection_reference) ordered)) 1),
      "strategy signal requires one protection reference fact");
     (existsb (λ f, is_disable f && sf_satisfied f) ordered,
      "disable facts must be unsatisfied for an eligible signal");
     (existsb (λ f, negb (is_disable f) && negb (sf_satisfied f)) ordered,
      "required Signal facts must be satisfied")].

(** [_validate_time_and_facts] *)
Definition signal_model_checks (s : StrategySignal) : list (bool * str) :=
  [((sg_occurred_at_ms s <=? 0) || (sg_observed_at_ms s <? sg_occurred_at_ms s)
    || (sg_expires_at_ms s <=? sg_observed_at_ms s),
    "signal observation must follow occurrence and precede expiry");
   (existsb (λ f, (sg_occurred_at_ms s <? sf_observed_at_ms f)
                  || (sf_valid_until_ms f <? sg_expires_at_ms s)) (sg_facts s),
    "signal facts must cover the complete occurrence window");
   (negb (bool_decide (build_signal_fact_digest (sg_facts s) = Ok (sg_fact_digest s))),
    "signal fact digest differs from the immutable fact bundle")].

Definition validate_StrategySignal (s : StrategySignal) : result StrategySignal :=
  validate_fields
    (((λ v, (blank v, "signal identity values must be non-blank")) <$>
        [sg_signal_event_id s; sg_exposure_episode_id s; sg_runtime_scope_id s;
         sg_strategy_group_id s; sg_strategy_version_id s; sg_event_spec_id s;
         sg_universe_version_id s; sg_exchange_instrument_id s]) ++
     ((λ v, (negb (is_sha256_digest (strip v)), "signal digests must be exact sha256 identities"))
        <$> [sg_fact_digest s; sg_universe_semantic_digest s]) ++
     [(sg_runtime_scope_version s <=? 0, "signal runtime scope version must be positive");
      fact_bundle_check (sg_facts s)]);;
  let s := mkSignal (strip (sg_signal_event_id s)) (strip (sg_exposure_episode_id s))
             (strip (sg_runtime_scope_id s)) (sg_runtime_scope_version s)
             (strip (sg_strategy_group_id s)) (strip (sg_strategy_version_id s))
             (strip (sg_event_spec_id s)) (strip (sg_universe_version_id s))
             (strip (sg_universe_semantic_digest s)) (strip (sg_exchange_instrument_id s))
             (sg_position_side s) (strip (sg_fact_digest s)) (sg_occurred_at_ms s)
             (sg_observed_at_ms s) (sg_expires_at_ms s) (sort_facts (sg_facts s))
             (normalize_optional (sg_selection_authority_id s)) in
  validate_model (signal_model_checks s);;
  mret s.
