(* ===== verification/DecimalText.v ===== *)
(** * The text of a decimal reads back

    [str(d)] is in the grammar of [Decimal(s)] and denotes [d] itself, digit
    for digit; so a price a detector reports as text is the price the claim
    builder reads. *)

From Stdlib Require Import QArith.
From stdpp Require Import pretty.
From S2P Require Import Prelude PyString Sha256 PyDecimal DecimalFacts Identities Ticket.
From S2P Require Import StrategyRegistry Signal.
#[local] Open Scope Z_scope.

Definition all_digits (s : str) : bool := forallb is_digit (String.list_ascii_of_string s).

(** The number a run of digits spells, after [acc]. *)
Fixpoint digits_value (acc : Z) (s : str) : Z :=
  match s with
  | EmptyString => acc
  | String c s => digits_value (10 * acc + (Z.of_N (N_of_ascii c) - 48)) s
  end.

Lemma append_empty a : a +:+ EmptyString = a.
Proof. induction a as [|c a IH]; [done|]. by rewrite append_cons, IH. Qed.

Lemma append_assoc a b d : (a +:+ b) +:+ d = a +:+ (b +:+ d).
Proof. induction a as [|c a IH]; [done|]. by rewrite !append_cons, IH. Qed.

Lemma len_append a b : len (a +:+ b) = len a + len b.
Proof.
  unfold len. induction a as [|c a IH]; [done|]. rewrite append_cons. cbn [String.length]. lia.
Qed.

Lemma all_digits_append a b : all_digits (a +:+ b) = all_digits a && all_digits b.
Proof.
  unfold all_digits. induction a as [|c a IH]; [done|]. rewrite append_cons.
  cbn [String.list_ascii_of_string forallb]. by rewrite IH, andb_assoc.
Qed.

Lemma digits_value_append acc a b :
  digits_value acc (a +:+ b) = digits_value (digits_value acc a) b.
Proof. revert acc. induction a as [|c a IH]; intros acc; [done|]. rewrite append_cons. cbn. apply IH. Qed.

(** ** Reading digits *)

Definition no_digit_first (s : str) : Prop :=
  match s with EmptyString => True | String c _ => is_digit c = false end.

Lemma take_digits_run n acc a r :
  all_digits a = true → no_digit_first r →
  take_digits n acc (a +:+ r) = (n + len a, digits_value acc a, r).
Proof.
  revert n acc. induction a as [|c a IH]; intros n acc Ha Hr.
  - change (EmptyString +:+ r) with r. unfold len. cbn [String.length digits_value].
    destruct r as [|c r]; cbn in *; [f_equal; f_equal; lia|]. rewrite Hr. f_equal. f_equal. lia.
  - rewrite append_cons. cbn in *. apply andb_true in Ha as [Hc Ha]. rewrite Hc.
    rewrite IH by done. unfold len. cbn [String.length]. f_equal. f_equal. lia.
Qed.

Lemma pretty_digit x : (x < 10)%N →
  is_digit (pretty_N_char x) = true ∧ Z.of_N (N_of_ascii (pretty_N_char x)) - 48 = Z.of_N x.
Proof.
  intros H. assert (D : x = 0%N ∨ x = 1%N ∨ x = 2%N ∨ x = 3%N ∨ x = 4%N ∨ x = 5%N ∨ x = 6%N ∨ x = 7%N
    ∨ x = 8%N ∨ x = 9%N) by lia.
  repeat (destruct D as [->|D]; [by split|]). by subst.
Qed.

Lemma pretty_go_digits x s :
  all_digits s = true → all_digits (pretty_N_go x s) = true ∧
  digits_value 0 (pretty_N_go x s) = digits_value (Z.of_N x) s ∧
  (s ≠ EmptyString ∨ (0 < x)%N → pretty_N_go x s ≠ EmptyString).
Proof.
  revert s. induction (N.lt_wf_0 x) as [x _ IH]; intros s Hs.
  assert (x = 0 ∨ 0 < x)%N as [->|Hx] by lia.
  { rewrite pretty_N_go_0. split_and!; [done|done|]. intros [H|H]; [done|lia]. }
  rewrite pretty_N_go_step by done.
  destruct (pretty_digit (x mod 10)) as [D1 D2]; [by apply N.mod_lt|].
  destruct (IH (x / 10)%N) with (s := String (pretty_N_char (x mod 10)) s) as (H1 & H2 & H3).
  - by apply N.div_lt.
  - unfold all_digits. cbn. rewrite D1. exact Hs.
  - split; [done|]. split; [|intros _; by apply H3; left]. rewrite H2. cbn. rewrite D2. f_equal.
    pose proof (N.div_mod x 10). lia.
Qed.

Lemma digits_of n : 0 <= n →
  all_digits (string_of_Z n) = true ∧ digits_value 0 (string_of_Z n) = n ∧
  string_of_Z n ≠ EmptyString.
Proof.
  intros Hn. destruct n as [|p|p]; [done| |lia]. unfold string_of_Z.
  change (pretty (Z.pos p)) with (pretty (N.pos p)). unfold pretty, pretty_N.
  rewrite decide_False by done. destruct (pretty_go_digits (N.pos p) EmptyString) as (H1 & H2 & H3); [done|].
  split; [done|]. split; [by rewrite H2|]. apply H3. right. lia.
Qed.

(** ** Text without space or underscore *)

Definition text_char (c : ascii) : bool :=
  is_digit c || bool_decide (c ∈ ["-"%char; "+"%char; "."%char; "E"%char]).
Definition plain (s : str) : bool := forallb text_char (String.list_ascii_of_string s).

Lemma plain_append a b : plain (a +:+ b) = plain a && plain b.
Proof.
  unfold plain. induction a as [|c a IH]; [done|]. rewrite append_cons.
  cbn [String.list_ascii_of_string forallb]. by rewrite IH, andb_assoc.
Qed.

Lemma digits_plain s : all_digits s = true → plain s = true.
Proof.
  unfold all_digits, plain. rewrite !forallb_forall. intros H c Hc. unfold text_char. by rewrite H.
Qed.

(** Over the 256 characters, a boolean property holds by computation. *)
Lemma forall_ascii (P : ascii → bool) :
  forallb (λ n, P (ascii_of_N (N.of_nat n))) (seq 0 256) = true → ∀ c, P c = true.
Proof.
  intros H c. rewrite forallb_forall in H. specialize (H (N.to_nat (N_of_ascii c))).
  rewrite N2Nat.id, ascii_N_embedding in H. apply H. apply in_seq. pose proof (N_ascii_bounded c). lia.
Qed.

Lemma text_char_facts c : text_char c = true → is_space c = false ∧ c ≠ "_"%char.
Proof.
  intros H. pose proof (forall_ascii (λ c, negb (text_char c)
    || negb (is_space c) && negb (bool_decide (c = "_"%char))) eq_refl c) as F. cbn in F.
  rewrite H in F. cbn in F. apply andb_true in F as [F1 F2]. apply negb_true in F1, F2.
  split; [done|]. by apply bool_decide_eq_false_1 in F2.
Qed.

Lemma digit_lower c : is_digit c = true → lower_ascii c = c.
Proof.
  intros H. pose proof (forall_ascii (λ c, negb (is_digit c) || bool_decide (lower_ascii c = c))
    eq_refl c) as F. cbn in F. rewrite H in F. cbn in F. by apply bool_decide_eq_true_1 in F.
Qed.

Lemma plain_kept s : plain s = true → remove_char "_"%char (strip s) = s.
Proof.
  intros H. rewrite strip_no_space.
  - induction s as [|c s IH]; [done|]. cbn in *. apply andb_true in H as [Hc Hs].
    destruct (text_char_facts c Hc) as [_ Hne]. rewrite bool_decide_eq_false_2 by done. by rewrite IH.
  - unfold plain, no_space in *. rewrite forallb_forall in H |- *. intros c Hc.
    destruct (text_char_facts c (H c Hc)) as [-> _]. done.
Qed.

Lemma map_string_append f a b : map_string f (a +:+ b) = map_string f a +:+ map_string f b.
Proof. induction a as [|c a IH]; [done|]. rewrite append_cons. cbn. by rewrite IH. Qed.

Lemma digits_lowered s : all_digits s = true → map_string lower_ascii s = s.
Proof.
  induction s as [|c s IH]; [done|]. cbn. intros [Hc Hs]%andb_true. by rewrite IH, digit_lower.
Qed.

Lemma digit_first_plain c s :
  is_digit c = true → is_special (String c s) = false ∧ take_sign (String c s) = (false, String c s).
Proof.
  intros H. pose proof (forall_ascii (λ c, negb (is_digit c)
    || negb (bool_decide (c ∈ ["i"%char; "s"%char; "n"%char; "-"%char; "+"%char]))) eq_refl c) as F.
  cbn in F. rewrite H in F. cbn in F. apply negb_true, bool_decide_eq_false_1 in F.
  rewrite !not_elem_of_cons in F. destruct F as (F1 & F2 & F3 & F4 & F5 & _).
  split; [|unfold take_sign; by rewrite !bool_decide_eq_false_2 by done].
  unfold is_special. apply orb_false. split.
  - apply bool_decide_eq_false_2. rewrite !elem_of_cons, elem_of_nil. intros [E|[E|[]]]; congruence.
  - unfold startswith. cbn [String.prefix].
    destruct (ascii_dec "s" c) as [<-|_]; [done|]. destruct (ascii_dec "n" c) as [<-|_]; [done|].
    cbn [String.prefix]. destruct (ascii_dec "n" c) as [<-|_]; done.
Qed.

(** ** Exponents *)

Definition exponent_text (e : Z) : str :=
  if e =? 0 then EmptyString
  else "E" +:+ (if 0 <? e then "+" else EmptyString) +:+ string_of_Z e.

Lemma nonempty_len s : s ≠ EmptyString → 0 < len s.
Proof. destruct s; [done|]. intros _. unfold len. cbn. lia. Qed.

Lemma signed_exponent c n :
  0 <= n → c = "+"%char ∨ c = "-"%char →
  parse_exponent (map_string lower_ascii ("E" +:+ String c (string_of_Z n)))
    = Some (if bool_decide (c = "-"%char) then - n else n) ∧
  plain ("E" +:+ String c (string_of_Z n)) = true.
Proof.
  intros Hn Hc. destruct (digits_of n Hn) as (D1 & D2 & D3).
  assert (L : map_string lower_ascii ("E" +:+ String c (string_of_Z n)) = String "e" (String c (string_of_Z n))).
  { change ("E" +:+ ?s) with (String "E" s). cbn [map_string]. rewrite digits_lowered by done.
    by destruct Hc as [-> | ->]. }
  rewrite L. split.
  - unfold parse_exponent. rewrite bool_decide_eq_true_2 by done.
    assert (T : take_sign (String c (string_of_Z n)) = (bool_decide (c = "-"%char), string_of_Z n))
      by by destruct Hc as [-> | ->].
    rewrite T. rewrite <- (append_empty (string_of_Z n)).
    rewrite take_digits_run by done. rewrite D2.
    pose proof (nonempty_len _ D3). rewrite bool_decide_eq_true_2 by done.
    destruct (Z.ltb_spec 0 (0 + len (string_of_Z n))); [done|lia].
  - change ("E" +:+ ?s) with (String "E" s). unfold plain. cbn [String.list_ascii_of_string forallb].
    fold (plain (string_of_Z n)). rewrite (digits_plain _ D1). by destruct Hc as [-> | ->].
Qed.

Lemma exponent_reads e :
  parse_exponent (map_string lower_ascii (exponent_text e)) = Some e ∧ plain (exponent_text e) = true ∧
  (exponent_text e = EmptyString ∨ ∃ x, map_string lower_ascii (exponent_text e) = String "e" x).
Proof.
  unfold exponent_text. destruct (Z.eqb_spec e 0) as [->|Hne]; [by auto|]. destruct e as [|p|p]; [done|..].
  - change (0 <? Z.pos p) with true. cbn [String.append].
    destruct (signed_exponent "+"%char (Z.pos p)) as [H1 H2]; [lia|auto|].
    split; [exact H1|]. split; [exact H2|]. right. by eexists.
  - change (0 <? Z.neg p) with false.
    change ("E" +:+ EmptyString +:+ string_of_Z (Z.neg p)) with ("E" +:+ String "-" (string_of_Z (Z.pos p))).
    destruct (signed_exponent "-"%char (Z.pos p)) as [H1 H2]; [lia|auto|].
    split; [exact H1|]. split; [exact H2|]. right. by eexists.
Qed.

(** ** Numbers *)

Definition fraction_text (o : option str) : str :=
  match o with Some f => "." +:+ f | None => EmptyString end.

(** The text of a number: a sign, digits, perhaps a point and digits, an
    exponent. *)
Definition number_text (negative : bool) (i : str) (o : option str) (e : Z) : str :=
  (if negative then "-" else EmptyString) +:+ i +:+ fraction_text o +:+ exponent_text e.

(** The digits of the coefficient and their fractional part, as [parse_decimal]
    splits them. *)
Lemma number_digits i o e :
  all_digits i = true → all_digits (default EmptyString o) = true →
  let rest := fraction_text o +:+ map_string lower_ascii (exponent_text e) in
  take_digits 0 0 (i +:+ rest) = (len i, digits_value 0 i, rest) ∧
  match rest with
  | String p rest' => if bool_decide (p = "."%char) then take_digits 0 (digits_value 0 i) rest'
                      else (0, digits_value 0 i, rest)
  | EmptyString => (0, digits_value 0 i, rest)
  end = (len (default EmptyString o), digits_value 0 (i +:+ default EmptyString o),
         map_string lower_ascii (exponent_text e)).
Proof.
  intros Hi Ho rest. destruct (exponent_reads e) as (_ & _ & Hx).
  assert (Hnd : no_digit_first (map_string lower_ascii (exponent_text e))).
  { destruct Hx as [-> | [x ->]]; done. }
  destruct o as [f|]; cbn [default fraction_text id from_option] in *.
  - subst rest. change ("." +:+ f) with (String "." f). rewrite append_cons. split.
    + by rewrite take_digits_run.
    + rewrite bool_decide_eq_true_2 by done. rewrite take_digits_run by done.
      by rewrite digits_value_append.
  - change (EmptyString +:+ ?s) with s in rest. subst rest. split; [by rewrite take_digits_run|].
    rewrite append_empty. destruct Hx as [-> | [x ->]]; [done|]. by rewrite bool_decide_eq_false_2.
Qed.

Lemma parse_number negative i o e :
  all_digits i = true → i ≠ EmptyString → all_digits (default EmptyString o) = true →
  let value := digits_value 0 (i +:+ default EmptyString o) in
  parse_decimal (number_text negative i o e)
    = Some (Some (mkDecimal (if negative then - value else value) (e - len (default EmptyString o)))).
Proof.
  intros Hi Hne Ho value. destruct (exponent_reads e) as (He & Hp & _).
  assert (Hplain : plain (number_text negative i o e) = true).
  { unfold number_text. rewrite !plain_append, (digits_plain i Hi), Hp.
    assert (plain (fraction_text o) = true) as ->.
    { destruct o as [f|]; [|done]. cbn [fraction_text]. rewrite plain_append. by rewrite (digits_plain f Ho). }
    by destruct negative. }
  set (u := i +:+ fraction_text o +:+ map_string lower_ascii (exponent_text e)).
  assert (Hl : map_string lower_ascii (number_text negative i o e)
               = (if negative then "-" else EmptyString) +:+ u).
  { unfold number_text, u. rewrite !map_string_append, (digits_lowered i Hi).
    f_equal; [by destruct negative|]. f_equal. f_equal. destruct o as [f|]; [|done].
    cbn [fraction_text]. rewrite map_string_append. by rewrite (digits_lowered f Ho). }
  assert (Hfirst : ∃ c s, u = String c s ∧ is_digit c = true).
  { destruct i as [|c i]; [done|]. cbn in Hi. apply andb_true in Hi as [Hc _].
    exists c. eexists. split; [reflexivity|done]. }
  destruct Hfirst as (c & s & Hu & Hc). destruct (digit_first_plain c s Hc) as [Hspec Hsign].
  assert (Htake : take_sign ((if negative then "-" else EmptyString) +:+ u) = (negative, u)).
  { destruct negative; [done|]. change (EmptyString +:+ u) with u. by rewrite Hu. }
  unfold parse_decimal. rewrite (plain_kept _ Hplain), Hl, Htake, Hu, Hspec, <- Hu.
  destruct (number_digits i o e Hi Ho) as [N1 N2]. fold u in N1. rewrite N1, N2, He.
  pose proof (nonempty_len i Hne). pose proof (Zle_0_nat (String.length (default EmptyString o))).
  destruct (Z.leb_spec (len i + len (default EmptyString o)) 0); [unfold len in *; lia|done].
Qed.

(** ** [str(d)] *)

Lemma substring_split k s : (k <= String.length s)%nat →
  String.substring 0 k s +:+ String.substring k (String.length s - k) s = s ∧
  String.length (String.substring 0 k s) = k.
Proof.
  revert k. induction s as [|c s IH]; intros k Hk.
  - cbn in Hk. assert (k = 0%nat) as -> by lia. done.
  - destruct k as [|k]; cbn [String.length String.substring Nat.sub] in *.
    + split; [|done]. change (String c (String.substring 0 (String.length s) s) = String c s).
      by rewrite substring_all.
    + destruct (IH k) as [H1 H2]; [lia|]. split; [rewrite append_cons; by rewrite H1|by rewrite H2].
Qed.

Lemma zeros_facts k : all_digits (zeros k) = true ∧ len (zeros k) = Z.of_nat k ∧
  ∀ s, digits_value 0 (zeros k +:+ s) = digits_value 0 s.
Proof.
  induction k as [|k (H1 & H2 & H3)]; [done|]. split; [done|]. split; [|exact H3].
  unfold len in *. cbn [zeros String.length]. lia.
Qed.

(** [str(d)] is the text of a number that denotes [d]. *)
Lemma py_str_number d :
  ∃ i o e, py_str d = number_text (coef d <? 0) i o e ∧ all_digits i = true ∧ i ≠ EmptyString ∧
    all_digits (default EmptyString o) = true ∧
    digits_value 0 (i +:+ default EmptyString o) = Z.abs (coef d) ∧
    e - len (default EmptyString o) = expo d.
Proof.
  destruct (digits_of (Z.abs (coef d))) as (D1 & D2 & D3); [lia|].
  unfold py_str. cbv zeta. set (digits := string_of_Z (Z.abs (coef d))) in *.
  pose proof (nonempty_len _ D3) as Hn. set (left := expo d + len digits).
  set (dot := if (expo d <=? 0) && (-6 <? left) then left else 1).
  assert (Hdot : dot = left ∧ expo d <= 0 ∨ dot = 1).
  { subst dot. destruct (Z.leb_spec (expo d) 0), (Z.ltb_spec (-6) left); cbn; auto. }
  destruct (Z.leb_spec dot 0) as [H0|H0]; [|destruct (Z.leb_spec (len digits) dot) as [H1|H1]].
  - destruct (zeros_facts (Z.to_nat (- dot))) as (Z1 & Z2 & Z3).
    exists "0", (Some (zeros (Z.to_nat (- dot)) +:+ digits)), 0.
    cbn [default from_option id]. rewrite all_digits_append, Z1, D1, len_append, Z2.
    assert (V : digits_value 0 ("0" +:+ zeros (Z.to_nat (- dot)) +:+ digits) = Z.abs (coef d))
      by (rewrite <- D2, <- (Z3 digits); reflexivity).
    split_and!; try done; [|subst left; lia].
    unfold number_text, exponent_text. cbn [fraction_text]. replace (left - dot) with 0 by lia.
    rewrite !append_empty. reflexivity.
  - exists digits, None, (left - dot). cbn [default from_option id]. rewrite append_empty, D2.
    split_and!; try done; [|unfold len; cbn; subst left; lia].
    unfold number_text. cbn [fraction_text]. replace (dot - len digits) with 0 by (subst left; lia).
    rewrite append_empty. reflexivity.
  - destruct (substring_split (Z.to_nat dot) digits) as [S1 S2]; [unfold len in *; lia|].
    assert (Hlen : Z.to_nat (len digits - dot) = (String.length digits - Z.to_nat dot)%nat)
      by (unfold len; lia).
    exists (String.substring 0 (Z.to_nat dot) digits),
      (Some (String.substring (Z.to_nat dot) (Z.to_nat (len digits - dot)) digits)), (left - dot).
    cbn [default from_option id]. rewrite Hlen, S1, D2. rewrite <- S1, all_digits_append in D1.
    apply andb_true in D1 as [D1 D1']. split_and!; try done.
    + unfold number_text. cbn [fraction_text]. rewrite !append_assoc. reflexivity.
    + intros E. rewrite E in S2. cbn in S2. lia.
    + assert (L : len digits = Z.of_nat (Z.to_nat dot)
        + len (String.substring (Z.to_nat dot) (String.length digits - Z.to_nat dot) digits)).
      { rewrite <- S1 at 1. rewrite len_append. unfold len at 1. by rewrite S2. }
      subst left. lia.
Qed.

(** Reading back what [str] wrote gives the same decimal. *)
Lemma parse_py_str d : parse_decimal (py_str d) = Some (Some d).
Proof.
  destruct (py_str_number d) as (i & o & e & -> & H1 & H2 & H3 & H4 & H5).
  rewrite (parse_number _ i o e H1 H2 H3), H4, H5. f_equal. f_equal. destruct d as [c x]. cbn in *.
  f_equal. destruct (Z.ltb_spec c 0); lia.
Qed.

Lemma parse_string_of_Z n : 0 <= n → parse_decimal (string_of_Z n) = Some (Some (of_int n)).
Proof.
  intros Hn. destruct (digits_of n Hn) as (D1 & D2 & D3).
  pose proof (parse_number false (string_of_Z n) None 0 D1 D3 eq_refl) as H. unfold number_text in H.
  cbn [fraction_text default from_option id] in H. change (exponent_text 0) with EmptyString in H.
  change (EmptyString +:+ EmptyString) with EmptyString in H.
  change (EmptyString +:+ ?x) with x in H. rewrite !append_empty, D2 in H. exact H.
Qed.
