(* ===== verification/Product.v ===== *)
(** * Product compatibility and session facts ([domain/product.py])

    Which product an Event may trade, and the gate a product session puts
    before an ENTRY. *)

From S2P Require Import Prelude PyString Sha256 PyDecimal Ticket ExitPolicy.
#[local] Open Scope Z_scope.

(** ** The [Literal] types *)

Inductive ProductFamily := crypto_perpetual | tradfi_equity_perpetual.
#[export] Instance ProductFamily_eq_dec : EqDecision ProductFamily.
Proof. solve_decision. Defined.
Definition product_family_value (f : ProductFamily) : str :=
  match f with
  | crypto_perpetual => "crypto_perpetual"
  | tradfi_equity_perpetual => "tradfi_equity_perpetual"
  end.

Inductive AssetClass := asset_crypto | asset_equity.
#[export] Instance AssetClass_eq_dec : EqDecision AssetClass.
Proof. solve_decision. Defined.
Definition asset_class_value (a : AssetClass) : str :=
  match a with asset_crypto => "crypto" | asset_equity => "equity" end.

Inductive ContractType := PERPETUAL | TRADIFI_PERPETUAL.
#[export] Instance ContractType_eq_dec : EqDecision ContractType.
Proof. solve_decision. Defined.
Definition contract_type_value (c : ContractType) : str :=
  match c with PERPETUAL => "PERPETUAL" | TRADIFI_PERPETUAL => "TRADIFI_PERPETUAL" end.

Inductive UnderlyingType := CRYPTO | EQUITY.
#[export] Instance UnderlyingType_eq_dec : EqDecision UnderlyingType.
Proof. solve_decision. Defined.
Definition underlying_type_value (u : UnderlyingType) : str :=
  match u with CRYPTO => "CRYPTO" | EQUITY => "EQUITY" end.

Inductive EntrySessionPolicy := policy_continuous | policy_regular_only | policy_reference_only.
#[export] Instance EntrySessionPolicy_eq_dec : EqDecision EntrySessionPolicy.
Proof. solve_decision. Defined.
Definition entry_session_policy_value (p : EntrySessionPolicy) : str :=
  match p with
  | policy_continuous => "continuous"
  | policy_regular_only => "regular_only"
  | policy_reference_only => "reference_only"
  end.

Inductive ProductProfileStatus := profile_candidate | profile_reference | profile_active | profile_retired.
#[export] Instance ProductProfileStatus_eq_dec : EqDecision ProductProfileStatus.
Proof. solve_decision. Defined.
Definition profile_status_value (s : ProductProfileStatus) : str :=
  match s with
  | profile_candidate => "candidate"
  | profile_reference => "reference"
  | profile_active => "active"
  | profile_retired => "retired"
  end.

Inductive ProductStatus := product_active | product_inactive | product_temporarily_unavailable.
#[export] Instance ProductStatus_eq_dec : EqDecision ProductStatus.
Proof. solve_decision. Defined.

Inductive SessionState :=
  | session_pre_market | session_regular | session_after_market | session_overnight
  | session_no_trading | session_unavailable.
#[export] Instance SessionState_eq_dec : EqDecision SessionState.
Proof. solve_decision. Defined.

Inductive CorporateEventStatus := corporate_clear | corporate_blocked | corporate_unavailable.
#[export] Instance CorporateEventStatus_eq_dec : EqDecision CorporateEventStatus.
Proof. solve_decision. Defined.

Inductive ProductEntryStatus :=
  | ENTRY_ALLOWED
  | PROFILE_NOT_ENTRY_CAPABLE
  | IDENTITY_MISMATCH
  | PRODUCT_UNAVAILABLE
  | SESSION_NOT_REGULAR
  | SNAPSHOT_STALE
  | MARKET_FACTS_MISSING
  | SPREAD_TOO_WIDE
  | MARK_INDEX_DEVIATION_TOO_WIDE
  | CORPORATE_EVENT_BLOCKED.
#[export] Instance ProductEntryStatus_eq_dec : EqDecision ProductEntryStatus.
Proof. solve_decision. Defined.

(** ** Records.  [margin_asset] has the single value "USDT". *)

Record ProductCompatibility := mkCompatibility {
  pc_event_spec_id : str;
  pc_product_family : ProductFamily;
  pc_asset_class : AssetClass;
  pc_contract_type : ContractType;
  pc_underlying_type : UnderlyingType
}.

Definition validate_ProductCompatibility (c : ProductCompatibility) : result ProductCompatibility :=
  validate_fields
    [(negb (startswith (strip (pc_event_spec_id c)) "event_spec:"),
      "product compatibility requires an Event Spec identity")];;
  mret (mkCompatibility (strip (pc_event_spec_id c)) (pc_product_family c) (pc_asset_class c)
          (pc_contract_type c) (pc_underlying_type c)).

Record InstrumentProductProfile := mkProductProfile {
  pp_exchange_instrument_id : str;
  pp_product_family : ProductFamily;
  pp_asset_class : AssetClass;
  pp_contract_type : ContractType;
  pp_underlying_type : UnderlyingType;
  pp_entry_session_policy : EntrySessionPolicy;
  pp_status : ProductProfileStatus;
  pp_max_entry_spread_bps : option Decimal;
  pp_max_mark_index_deviation_bps : option Decimal
}.

Definition validate_InstrumentProductProfile (p : InstrumentProductProfile)
    : result InstrumentProductProfile :=
  validate_fields
    ([(negb (startswith (strip (pp_exchange_instrument_id p)) "binance-usdm:"),
       "product profile requires a canonical instrument identity")] ++
     ((λ v, (opt_test nonpositive v, "product Entry thresholds must be finite and positive")) <$>
        [pp_max_entry_spread_bps p; pp_max_mark_index_deviation_bps p]));;
  mret (mkProductProfile (strip (pp_exchange_instrument_id p)) (pp_product_family p)
          (pp_asset_class p) (pp_contract_type p) (pp_underlying_type p)
          (pp_entry_session_policy p) (pp_status p) (pp_max_entry_spread_bps p)
          (pp_max_mark_index_deviation_bps p)).

(** [_semantic_digest] of [model_dump(mode="json")]; the dump escapes non-ASCII. *)
Definition product_compatibility_digest (c : ProductCompatibility) : str :=
  json_digest true
    (JObj [("event_spec_id", JStr (pc_event_spec_id c));
           ("product_family", JStr (product_family_value (pc_product_family c)));
           ("asset_class", JStr (asset_class_value (pc_asset_class c)));
           ("contract_type", JStr (contract_type_value (pc_contract_type c)));
           ("underlying_type", JStr (underlying_type_value (pc_underlying_type c)));
           ("margin_asset", JStr "USDT")]).

Definition product_profile_digest (p : InstrumentProductProfile) : str :=
  json_digest true
    (JObj [("exchange_instrument_id", JStr (pp_exchange_instrument_id p));
           ("product_family", JStr (product_family_value (pp_product_family p)));
           ("asset_class", JStr (asset_class_value (pp_asset_class p)));
           ("contract_type", JStr (contract_type_value (pp_contract_type p)));
           ("underlying_type", JStr (underlying_type_value (pp_underlying_type p)));
           ("margin_asset", JStr "USDT");
           ("entry_session_policy", JStr (entry_session_policy_value (pp_entry_session_policy p)));
           ("status", JStr (profile_status_value (pp_status p)));
           ("max_entry_spread_bps", json_option json_decimal (pp_max_entry_spread_bps p));
           ("max_mark_index_deviation_bps",
            json_option json_decimal (pp_max_mark_index_deviation_bps p))]).

Record ProductSessionSnapshot := mkProductSession {
  ps_exchange_instrument_id : str;
  ps_product_family : ProductFamily;
  ps_product_status : ProductStatus;
  ps_session_state : SessionState;
  ps_regular_session_open_ms : option Z;
  ps_regular_session_close_ms : option Z;
  ps_mark_price : option Decimal;
  ps_index_price : option Decimal;
  ps_funding_rate : option Decimal;
  ps_best_bid : option Decimal;
  ps_best_ask : option Decimal;
  ps_best_bid_quantity : option Decimal;
  ps_best_ask_quantity : option Decimal;
  ps_corporate_event_status : CorporateEventStatus;
  ps_observed_at_ms : Z;
  ps_valid_until_ms : Z;
  ps_source_ref : str
}.

Definition validate_ProductSessionSnapshot (s : ProductSessionSnapshot)
    : result ProductSessionSnapshot :=
  validate_fields
    ((λ v, (blank v, "product Session identity must be non-blank")) <$>
       [ps_exchange_instrument_id s; ps_source_ref s]);;
  validate_model
    ([((ps_observed_at_ms s <=? 0) || (ps_valid_until_ms s <=? ps_observed_at_ms s),
       "product Session validity window is invalid");
      (negb (Bool.eqb (is_none (ps_regular_session_open_ms s))
                      (is_none (ps_regular_session_close_ms s))),
       "regular Session open and close must be paired");
      (match ps_regular_session_open_ms s, ps_regular_session_close_ms s with
       | Some opened, Some closed => closed <=? opened
       | _, _ => false
       end, "regular Session close must follow open")] ++
     ((λ v, (opt_test nonpositive v, "product market prices must be positive")) <$>
        [ps_mark_price s; ps_index_price s; ps_best_bid s; ps_best_ask s]) ++
     [(match ps_best_bid s, ps_best_ask s with
       | Some bid, Some ask => (ask <? bid)%dec
       | _, _ => false
       end, "best ask cannot be below best bid")] ++
     ((λ v, (opt_test negative v, "product market quantity must be nonnegative")) <$>
        [ps_best_bid_quantity s; ps_best_ask_quantity s]));;
  mret (mkProductSession (strip (ps_exchange_instrument_id s)) (ps_product_family s)
          (ps_product_status s) (ps_session_state s) (ps_regular_session_open_ms s)
          (ps_regular_session_close_ms s) (ps_mark_price s) (ps_index_price s) (ps_funding_rate s)
          (ps_best_bid s) (ps_best_ask s) (ps_best_bid_quantity s) (ps_best_ask_quantity s)
          (ps_corporate_event_status s) (ps_observed_at_ms s) (ps_valid_until_ms s)
          (strip (ps_source_ref s))).

Definition usable_for_regular_observation (s : ProductSessionSnapshot) (trigger_ms : Z) : bool :=
  bool_decide (ps_product_family s = tradfi_equity_perpetual)
  && bool_decide (ps_product_status s = product_active)
  && bool_decide (ps_session_state s = session_regular)
  && ((ps_observed_at_ms s <=? trigger_ms) && (trigger_ms <? ps_valid_until_ms s))
  && negb (is_none (ps_regular_session_open_ms s))
  && negb (is_none (ps_regular_session_close_ms s)).

(** ** The ENTRY gate *)

Record ProductEntryDecision := mkProductDecision {
  pd_status : ProductEntryStatus;
  pd_spread_bps : option Decimal;
  pd_mark_index_deviation_bps : option Decimal;
  pd_corporate_event_warning : bool
}.

Definition product_refusal (status : ProductEntryStatus) : ProductEntryDecision :=
  mkProductDecision status None None false.

Definition product_decision_allowed (d : ProductEntryDecision) : bool :=
  bool_decide (pd_status d = ENTRY_ALLOWED).

Definition ten_thousand : Decimal := of_int 10000.

(** From the market facts on. *)
Definition product_quote_gate (max_spread max_deviation mark index bid ask : Decimal)
    (corporate : CorporateEventStatus) : result ProductEntryDecision :=
  midpoint ← ddiv (bid + ask)%dec (of_int 2);
  relative_spread ← ddiv (ask - bid)%dec midpoint;
  let spread_bps := (relative_spread * ten_thousand)%dec in
  relative_deviation ← ddiv (dabs (mark - index)%dec) index;
  let mark_index_deviation_bps := (relative_deviation * ten_thousand)%dec in
  let measured status warning :=
    mret (mkProductDecision status (Some spread_bps) (Some mark_index_deviation_bps) warning) in
  if (spread_bps >? max_spread)%dec then measured SPREAD_TOO_WIDE false
  else if (mark_index_deviation_bps >? max_deviation)%dec then
    measured MARK_INDEX_DEVIATION_TOO_WIDE false
  else if bool_decide (corporate = corporate_blocked) then measured CORPORATE_EVENT_BLOCKED false
  else measured ENTRY_ALLOWED (bool_decide (corporate = corporate_unavailable)).

(** The snapshot has every market fact, and is inside its regular session. *)
Definition product_market_facts (s : ProductSessionSnapshot) (now_ms : Z)
    : option (Decimal * Decimal * Decimal * Decimal) :=
  match ps_regular_session_open_ms s, ps_regular_session_close_ms s, ps_mark_price s,
        ps_index_price s, ps_best_bid s, ps_best_ask s, ps_best_bid_quantity s,
        ps_best_ask_quantity s with
  | Some opened, Some closed, Some mark, Some index, Some bid, Some ask, Some bid_quantity,
    Some ask_quantity =>
      if negb ((opened <=? now_ms) && (now_ms <? closed)) || nonpositive bid_quantity
         || nonpositive ask_quantity
      then None else Some (mark, index, bid, ask)
  | _, _, _, _, _, _, _, _ => None
  end.

Definition evaluate_product_entry (profile : InstrumentProductProfile)
    (snapshot : option ProductSessionSnapshot) (now_ms : Z) : result ProductEntryDecision :=
  raise_if (now_ms <=? 0) (ValueError "Product Entry evaluation time must be positive");;
  if negb (bool_decide (pp_product_family profile = tradfi_equity_perpetual))
     || negb (bool_decide (pp_entry_session_policy profile = policy_regular_only))
     || bool_decide (pp_status profile ∈ [profile_reference; profile_retired])
  then mret (product_refusal PROFILE_NOT_ENTRY_CAPABLE)
  else
    match pp_max_entry_spread_bps profile, pp_max_mark_index_deviation_bps profile with
    | Some max_spread, Some max_deviation =>
        match snapshot with
        | None => mret (product_refusal IDENTITY_MISMATCH)
        | Some s =>
            if negb (bool_decide (ps_exchange_instrument_id s = pp_exchange_instrument_id profile))
               || negb (bool_decide (ps_product_family s = pp_product_family profile))
            then mret (product_refusal IDENTITY_MISMATCH)
            else if negb (bool_decide (ps_product_status s = product_active)) then
              mret (product_refusal PRODUCT_UNAVAILABLE)
            else if negb (bool_decide (ps_session_state s = session_regular)) then
              mret (product_refusal SESSION_NOT_REGULAR)
            else if negb ((ps_observed_at_ms s <=? now_ms) && (now_ms <? ps_valid_until_ms s)) then
              mret (product_refusal SNAPSHOT_STALE)
            else
              match product_market_facts s now_ms with
              | None => mret (product_refusal MARKET_FACTS_MISSING)
              | Some (mark, index, bid, ask) =>
                  product_quote_gate max_spread max_deviation mark index bid ask
                    (ps_corporate_event_status s)
              end
        end
    | _, _ => mret (product_refusal PROFILE_NOT_ENTRY_CAPABLE)
    end.

(** [require_product_compatibility]: whether it returns; it raises
    [ProductCompatibilityError] otherwise. *)
Definition product_compatible (c : ProductCompatibility) (p : InstrumentProductProfile) : bool :=
  bool_decide (pp_product_family p = pc_product_family c)
  && bool_decide (pp_asset_class p = pc_asset_class c)
  && bool_decide (pp_contract_type p = pc_contract_type c)
  && bool_decide (pp_underlying_type p = pc_underlying_type c)
  && negb (bool_decide (pp_status p ∈ [profile_reference; profile_retired]))
  && negb (bool_decide (pp_entry_session_policy p = policy_reference_only)).

Definition evaluate_event_product_entry (c : ProductCompatibility)
    (profile : option InstrumentProductProfile) (snapshot : option ProductSessionSnapshot)
    (now_ms : Z) : result ProductEntryDecision :=
  match profile with
  | None => mret (product_refusal IDENTITY_MISMATCH)
  | Some p =>
      if negb (product_compatible c p) then mret (product_refusal IDENTITY_MISMATCH)
      else if bool_decide (pc_product_family c = tradfi_equity_perpetual) then
        evaluate_product_entry p snapshot now_ms
      else mret (product_refusal ENTRY_ALLOWED)
  end.

(** ** The registered compatibilities *)

Definition registered_product_compatibilities : result (list ProductCompatibility) :=
  map_result validate_ProductCompatibility
    (((λ e, mkCompatibility e crypto_perpetual asset_crypto PERPETUAL CRYPTO) <$>
        ["event_spec:CPM-RO-001:CPM-LONG:v3"; "event_spec:MPG-001:MPG-LONG:v3";
         "event_spec:MI-001:MI-LONG:v3"; "event_spec:SOR-001:SOR-LONG:v4";
         "event_spec:SOR-001:SOR-SHORT:v4"; "event_spec:SOR-1H-001:SOR-1H-LONG:v1";
         "event_spec:SOR-1H-001:SOR-1H-SHORT:v1"; "event_spec:BRF2-001:BRF2-SHORT:v3"]) ++
     ((λ e, mkCompatibility e tradfi_equity_perpetual asset_equity TRADIFI_PERPETUAL EQUITY) <$>
        ["event_spec:SOR-US-EQ-PERP-001:SOR-US-LONG-15M:v1";
         "event_spec:SOR-US-EQ-PERP-001:SOR-US-SHORT-15M:v1"])).

Definition product_compatibility_for (event_spec_id : str) : result ProductCompatibility :=
  items ← registered_product_compatibilities;
  match filter (λ c, pc_event_spec_id c = event_spec_id) items with
  | [c] => mret c
  | _ => Raise (ValueError "Event must resolve exactly one Product Compatibility")
  end.
