(* ===== verification/Market.v ===== *)
(** * Closed-market inputs ([domain/market.py])

    Candles, the comparative-strength ranking and the snapshot a detector
    reads. *)

From S2P Require Import Prelude PyString PyDecimal DecimalFacts Ticket StrategyRegistry Product.
#[local] Open Scope Z_scope.

(** [Literal["15m", "1h", "4h"]] *)
Inductive MarketTimeframe := bars_15m | bars_1h | bars_4h.
#[export] Instance MarketTimeframe_eq_dec : EqDecision MarketTimeframe.
Proof. solve_decision. Defined.

Record ClosedCandle := mkCandle {
  ck_open_time_ms : Z;
  ck_close_time_ms : Z;
  ck_open : Decimal;
  ck_high : Decimal;
  ck_low : Decimal;
  ck_close : Decimal;
  ck_volume : Decimal
}.

Definition candle_checks (c : ClosedCandle) : list (bool * str) :=
  [((ck_open_time_ms c <=? 0) || (ck_close_time_ms c <=? ck_open_time_ms c),
    "closed candle requires a positive time window");
   ((dmin (dmin (dmin (ck_open c) (ck_high c)) (ck_low c)) (ck_close c) <=? d0)%dec,
    "OHLC values must be positive");
   ((ck_volume c <? d0)%dec, "candle volume must be nonnegative");
   ((ck_high c <? dmax (ck_open c) (ck_close c))%dec
    || (ck_low c >? dmin (ck_open c) (ck_close c))%dec,
    "candle high/low does not contain open and close")].

Definition validate_ClosedCandle (c : ClosedCandle) : result ClosedCandle :=
  validate_model (candle_checks c);; mret c.

(** ** Comparative strength *)

Record ComparativeStrengthMember := mkMember {
  cm_exchange_instrument_id : str;
  cm_return_pct : Decimal;
  cm_rank : Z
}.

Definition validate_ComparativeStrengthMember (m : ComparativeStrengthMember)
    : result ComparativeStrengthMember :=
  validate_fields
    [(blank (cm_exchange_instrument_id m), "comparative member instrument must be non-blank");
     (cm_rank m <=? 0, "comparative member rank must be positive")];;
  mret (mkMember (strip (cm_exchange_instrument_id m)) (cm_return_pct m) (cm_rank m)).

Record ComparativeStrengthSnapshot := mkComparative {
  cx_strategy_group_id : str;
  cx_timeframe : MarketTimeframe;
  cx_lookback_bars : Z;
  cx_trigger_candle_close_time_ms : Z;
  cx_members : list ComparativeStrengthMember;
  cx_observed_at_ms : Z;
  cx_valid_until_ms : Z;
  cx_source_ref : str
}.

(** [sorted(ranks)] *)
Definition sort_ranks (l : list Z) : list Z := sort_by Z.leb l.

Definition comparative_checks (s : ComparativeStrengthSnapshot) : list (bool * str) :=
  let ranks := cm_rank <$> cx_members s in
  [((cx_lookback_bars s <=? 0) || (cx_trigger_candle_close_time_ms s <=? 0),
    "comparative lookback and trigger must be positive");
   ((cx_observed_at_ms s <=? 0) || (cx_valid_until_ms s <? cx_observed_at_ms s),
    "comparative observation window is invalid");
   (match cx_members s with [] => true | _ => false end, "comparative snapshot requires members");
   (negb (bool_decide (NoDup (cm_exchange_instrument_id <$> cx_members s))),
    "comparative member instruments must be unique");
   (negb (bool_decide (NoDup ranks))
    || negb (bool_decide (sort_ranks ranks = seqZ 1 (Z.of_nat (length ranks)))),
    "comparative ranks must be unique and contiguous")].

Definition validate_ComparativeStrengthSnapshot (s : ComparativeStrengthSnapshot)
    : result ComparativeStrengthSnapshot :=
  validate_fields
    ((λ v, (blank v, "comparative snapshot identity must be non-blank")) <$>
       [cx_strategy_group_id s; cx_source_ref s]);;
  validate_model (comparative_checks s);;
  mret (mkComparative (strip (cx_strategy_group_id s)) (cx_timeframe s) (cx_lookback_bars s)
          (cx_trigger_candle_close_time_ms s) (cx_members s) (cx_observed_at_ms s)
          (cx_valid_until_ms s) (strip (cx_source_ref s))).

(** [member]: the first member of that instrument, or a [KeyError]. *)
Definition comparative_member (s : ComparativeStrengthSnapshot) (exchange_instrument_id : str)
    : result ComparativeStrengthMember :=
  match list_find (λ m, cm_exchange_instrument_id m = exchange_instrument_id) (cx_members s) with
  | Some (_, m) => mret m
  | None => Raise (KeyError exchange_instrument_id)
  end.

(** ** The snapshot *)

Record MarketSnapshot := mkMarket {
  mk_exchange_instrument_id : str;
  mk_trigger_candle_close_time_ms : Z;
  mk_candles_15m : list ClosedCandle;
  mk_candles_1h : list ClosedCandle;
  mk_candles_4h : list ClosedCandle;
  mk_comparative_strength : option ComparativeStrengthSnapshot;
  mk_product_session : option ProductSessionSnapshot
}.

Definition candle_sequence_checks (trigger : Z) (candles : list ClosedCandle) : list (bool * str) :=
  let open_times := ck_open_time_ms <$> candles in
  [(negb (bool_decide (open_times = sort_by Z.leb open_times))
    || negb (bool_decide (NoDup open_times)), "market candles must be ordered and unique");
   (existsb (λ c, trigger <? ck_close_time_ms c) candles,
    "market snapshot cannot contain open or future candles")].

Definition market_checks (s : MarketSnapshot) : list (bool * str) :=
  let trigger := mk_trigger_candle_close_time_ms s in
  [(trigger <=? 0, "market snapshot trigger must be positive")] ++
  candle_sequence_checks trigger (mk_candles_15m s) ++
  candle_sequence_checks trigger (mk_candles_1h s) ++
  candle_sequence_checks trigger (mk_candles_4h s) ++
  [(opt_test (λ p, negb (bool_decide
       (ps_exchange_instrument_id p = mk_exchange_instrument_id s))) (mk_product_session s),
    "product Session instrument differs from market snapshot")].

Definition validate_MarketSnapshot (s : MarketSnapshot) : result MarketSnapshot :=
  validate_fields [(blank (mk_exchange_instrument_id s), "market snapshot instrument must be non-blank")];;
  let s := mkMarket (strip (mk_exchange_instrument_id s)) (mk_trigger_candle_close_time_ms s)
             (mk_candles_15m s) (mk_candles_1h s) (mk_candles_4h s) (mk_comparative_strength s)
             (mk_product_session s) in
  validate_model (market_checks s);;
  mret s.

(** [candles], on the timeframes a contract can have. *)
Definition market_candles (s : MarketSnapshot) (timeframe : Timeframe) : list ClosedCandle :=
  match timeframe with tf_15m => mk_candles_15m s | tf_1h => mk_candles_1h s end.

(** Every candle and the ranking of a constructed snapshot are constructed
    themselves. *)
Record constructed_market (s : MarketSnapshot) : Prop := {
  market_own : ∃ s0, validate_MarketSnapshot s0 = Ok s;
  market_candle : ∀ c, c ∈ mk_candles_15m s ++ mk_candles_1h s ++ mk_candles_4h s →
    validate_ClosedCandle c = Ok c;
  market_comparative : ∀ x, mk_comparative_strength s = Some x →
    (∃ x0, validate_ComparativeStrengthSnapshot x0 = Ok x) ∧
    ∀ m, m ∈ cx_members x → ∃ m0, validate_ComparativeStrengthMember m0 = Ok m;
  market_product : ∀ p, mk_product_session s = Some p → ∃ p0, validate_ProductSessionSnapshot p0 = Ok p
}.
