(* ===== verification/Detector.v ===== *)
(** * Detector contracts ([domain/detector.py])

    The result of a detector, the facts it reports for its contract, and the
    guards every detector shares. *)

From Stdlib Require Import QArith.
From S2P Require Import Prelude PyString PyDecimal DecimalFacts Ticket StrategyRegistry Signal Market.
#[local] Open Scope Z_scope.

Inductive DetectorStatus := TRIGGERED | NOT_TRIGGERED | INVALID.
#[export] Instance DetectorStatus_eq_dec : EqDecision DetectorStatus.
Proof. solve_decision. Defined.

Record DetectorResult := mkDetectorResult {
  dr_event_spec_id : str;
  dr_status : DetectorStatus;
  dr_occurred_at_ms : option Z;
  dr_reason_code : str;
  dr_facts : list SignalFactSnapshot
}.

(** [_validate_status_shape] *)
Definition detector_result_checks (r : DetectorResult) : list (bool * str) :=
  [(bool_decide (dr_status r = TRIGGERED)
    && match dr_occurred_at_ms r with Some t => t <=? 0 | None => true end,
    "triggered detector result requires occurrence time");
   (bool_decide (dr_status r = TRIGGERED) && match dr_facts r with [] => true | _ => false end,
    "triggered detector result requires facts");
   (negb (bool_decide (dr_status r = TRIGGERED)) && negb (is_none (dr_occurred_at_ms r)),
    "non-triggered detector result forbids occurrence time");
   (bool_decide (dr_status r = INVALID) && match dr_facts r with [] => false | _ => true end,
    "invalid detector result cannot claim computed facts")].

Definition validate_DetectorResult (r : DetectorResult) : result DetectorResult :=
  let ordered := sort_facts (dr_facts r) in
  validate_fields
    ([(blank (dr_event_spec_id r), "detector result identity must be non-blank");
      (blank (dr_reason_code r), "detector result identity must be non-blank");
      (negb (bool_decide (NoDup (sf_fact_definition_id <$> ordered))),
       "detector facts must be unique")]);;
  let r := mkDetectorResult (strip (dr_event_spec_id r)) (dr_status r) (dr_occurred_at_ms r)
             (strip (dr_reason_code r)) ordered in
  validate_model (detector_result_checks r);;
  mret r.

(** [triggered] *)
Definition detector_triggered (r : DetectorResult) : bool := bool_decide (dr_status r = TRIGGERED).

Definition invalid_result (c : RegisteredStrategyContract) (reason_code : str)
    : result DetectorResult :=
  validate_DetectorResult (mkDetectorResult (sc_event_spec_id c) INVALID None reason_code []).

(** The required facts, then the disable facts. *)
Definition registered_facts (c : RegisteredStrategyContract) : list RegisteredFactRequirement :=
  sc_required_facts c ++ sc_disable_facts c.

(** [set(l) == set(l')] *)
Definition same_identities (l l' : list str) : bool :=
  forallb (λ x, bool_decide (x ∈ l')) l && forallb (λ x, bool_decide (x ∈ l)) l'.

Definition computed_result (c : RegisteredStrategyContract) (s : MarketSnapshot) (triggered : bool)
    (reason_code : str) (facts : list SignalFactSnapshot) : result DetectorResult :=
  raise_if (triggered
            && negb (same_identities (sf_fact_definition_id <$> facts)
                       (fr_fact_definition_id <$> registered_facts c)))
    (ValueError "triggered detector facts differ from Registry contract");;
  validate_DetectorResult
    (mkDetectorResult (sc_event_spec_id c) (if triggered then TRIGGERED else NOT_TRIGGERED)
       (if triggered then Some (mk_trigger_candle_close_time_ms s) else None) reason_code facts).

(** [fact_snapshot]; [None] for a window argument takes the default. *)
Definition fact_snapshot_within (c : RegisteredStrategyContract) (s : MarketSnapshot)
    (fact_name : str) (value : JsonValue) (satisfied : bool)
    (observed_at_ms valid_until_ms : option Z) : result SignalFactSnapshot :=
  match list_find (λ r, fr_fact_name r = fact_name) (registered_facts c) with
  | None => Raise (KeyError ("unregistered detector fact: " +:+ fact_name))
  | Some (_, requirement) =>
      let observed := default (mk_trigger_candle_close_time_ms s) observed_at_ms in
      let valid_until := default (observed + fr_freshness_ms requirement) valid_until_ms in
      validate_SignalFactSnapshot
        (mkFactSnapshot (fr_fact_definition_id requirement) (fr_role requirement) value satisfied
           observed valid_until 1)
  end.

Definition fact_snapshot (c : RegisteredStrategyContract) (s : MarketSnapshot)
    (fact_name : str) (value : JsonValue) (satisfied : bool) : result SignalFactSnapshot :=
  fact_snapshot_within c s fact_name value satisfied None None.

(** The facts of a detector, evaluated from left to right. *)
Definition fact_snapshots (c : RegisteredStrategyContract) (s : MarketSnapshot)
    (values : list (str * JsonValue * bool)) : result (list SignalFactSnapshot) :=
  map_result (λ '(name, value, satisfied), fact_snapshot c s name value satisfied) values.

Definition validate_snapshot_scope (c : RegisteredStrategyContract) (s : MarketSnapshot)
    : option str :=
  match last (market_candles s (sc_timeframe c)) with
  | Some candle =>
      if ck_close_time_ms candle =? mk_trigger_candle_close_time_ms s then None
      else Some "detector_invalid_trigger_time_mismatch"
  | None => None
  end.

(** The guard every detector starts with. *)
Definition in_scope (c : RegisteredStrategyContract) (s : MarketSnapshot)
    (evaluate : result DetectorResult) : result DetectorResult :=
  match validate_snapshot_scope c s with
  | Some scope_error => invalid_result c scope_error
  | None => evaluate
  end.

(** ** Window arithmetic *)

(** [min(...)], [max(...)] of a non-empty sequence; a [ValueError] otherwise. *)
Definition py_min (l : list Decimal) : result Decimal :=
  match l with [] => Raise (ValueError "min() iterable argument is empty") | x :: l => mret (foldl dmin x l) end.
Definition py_max (l : list Decimal) : result Decimal :=
  match l with [] => Raise (ValueError "max() iterable argument is empty") | x :: l => mret (foldl dmax x l) end.

(** [l[-n:]] and [l[-n:-m]] *)
Definition last_n {A} (n : nat) (l : list A) : list A := drop (length l - n) l.
Definition slice_back {A} (n m : nat) (l : list A) : list A :=
  drop (length l - n) (take (length l - m) l).

(** [l[-n]], counted from 1. *)
Definition nth_back {A} (n : nat) (l : list A) : result A :=
  match reverse l !! pred n with
  | Some x => mret x
  | None => Raise (IndexError "tuple index out of range")
  end.

(** [_pct] *)
Definition pct (numerator denominator : Decimal) : result Decimal :=
  if (denominator =? d0)%dec then mret d0
  else q ← ddiv numerator denominator; mret (q * of_int 100)%dec.

(** [itertools.pairwise] *)
Fixpoint pairwise {A} (l : list A) : list (A * A) :=
  match l with
  | x :: (y :: _) as l' => (x, y) :: pairwise l'
  | _ => []
  end.
