(* ===== verification/Detectors.v ===== *)
(** * The strategy detectors ([domain/detectors/])

    One evaluation per strategy: BRF2-001 (short bear-rally failure),
    CPM-RO-001 (long pullback reclaim), MI-001 (long momentum impulse), MPG-001
    (long momentum persistence), SOR-001, SOR-1H-001 and SOR-US-EQ-PERP-001
    (opening ranges), and the routing of [detector_for]. *)

From Stdlib Require Import QArith.
From S2P Require Import Prelude PyString PyDecimal DecimalFacts Identities Ticket StrategyRegistry Signal.
From S2P Require Import Product Market Detector.
#[local] Open Scope Z_scope.

(** [str(d)] and a boolean as fact values. *)
Definition decimal_fact (d : Decimal) : JsonValue := JStr (py_str d).
Definition ms_fact (n : Z) : JsonValue := JStr (string_of_Z n).

(** A condition is satisfied exactly when it holds; a reference always is. *)
Definition condition (name : str) (b : bool) : str * JsonValue * bool := (name, JBool b, b).
Definition reference (name : str) (v : JsonValue) : str * JsonValue * bool := (name, v, true).

Module BRF2.

(** The measurements of [BRF2ShortDetector.evaluate]. *)
Record Measures := mkMeasures {
  rally_high : Decimal;
  rally_pct : Decimal;
  upper_wick_ratio : Decimal;
  close_reversal_pct : Decimal;
  htf_net_pct : Decimal
}.

Definition measure (one_hour four_hour : list ClosedCandle) (latest : ClosedCandle)
    : result Measures :=
  let lookback := slice_back 9 1 one_hour in
  rally_low ← py_min (ck_low <$> lookback);
  rally_high ← py_max (ck_high <$> (lookback ++ [latest]));
  rally_pct ← pct (rally_high - rally_low)%dec rally_low;
  let latest_range := dmax (ck_high latest - ck_low latest)%dec d0 in
  let upper_wick := dmax (ck_high latest - dmax (ck_open latest) (ck_close latest))%dec d0 in
  upper_wick_ratio ← (if (latest_range >? d0)%dec then ddiv upper_wick latest_range else mret d0);
  close_reversal_pct ← pct (ck_high latest - ck_close latest)%dec (ck_high latest);
  last_4h ← nth_back 1 four_hour;
  first_4h ← nth_back (length four_hour) four_hour;
  htf_net_pct ← pct (ck_close last_4h - ck_close first_4h)%dec (ck_close first_4h);
  mret (mkMeasures rally_high rally_pct upper_wick_ratio close_reversal_pct htf_net_pct).

Definition strong_uptrend_disable (m : Measures) : bool :=
  (htf_net_pct m >=? mkDecimal 30 (-1))%dec.
Definition rally_extension_confirmed (m : Measures) : bool :=
  (rally_pct m >=? mkDecimal 20 (-1))%dec.
Definition rejection_confirmed (m : Measures) (latest previous : ClosedCandle) : bool :=
  (upper_wick_ratio m >=? mkDecimal 30 (-2))%dec
  && (close_reversal_pct m >=? mkDecimal 40 (-2))%dec
  && (ck_close latest <? ck_open latest)%dec
  && (ck_close latest <=? ck_close previous)%dec.

Definition brf2_evaluate (c : RegisteredStrategyContract) (s : MarketSnapshot) : result DetectorResult :=
  in_scope c s
    (let one_hour := mk_candles_1h s in
     let four_hour := mk_candles_4h s in
     if (length one_hour <? 12)%nat then invalid_result c "brf2_invalid_insufficient_1h_candles"
     else if (length four_hour <? 2)%nat then invalid_result c "brf2_invalid_missing_4h_context"
     else
       latest ← nth_back 1 one_hour;
       previous ← nth_back 2 one_hour;
       m ← measure one_hour four_hour latest;
       let disable := strong_uptrend_disable m in
       let extension := rally_extension_confirmed m in
       let rejection := rejection_confirmed m latest previous in
       let failure := extension && rejection in
       facts ← fact_snapshots c s
         [condition "rally_failure_confirmed" failure;
          condition "short_side_not_disabled" (negb disable);
          reference "rally_high_reference" (decimal_fact (rally_high m));
          condition "strong_uptrend_disable" disable];
       computed_result c s (failure && negb disable)
         (if disable then "brf2_no_action_strong_uptrend_disable"
          else if negb extension then "brf2_no_action_no_rally_extension"
          else if negb rejection then "brf2_no_action_no_rejection_close"
          else "brf2_short_bear_rally_failure") facts).

End BRF2.

Module CPM.

(** [_sma] *)
Definition sma (values : list Decimal) : result Decimal :=
  ddiv (dsum values) (of_int (Z.of_nat (length values))).

Definition cpm_evaluate (c : RegisteredStrategyContract) (s : MarketSnapshot) : result DetectorResult :=
  in_scope c s
    (let one_hour := mk_candles_1h s in
     let four_hour := mk_candles_4h s in
     if (length one_hour <? 21)%nat || (length four_hour <? 21)%nat then
       invalid_result c "cpm_invalid_insufficient_candles"
     else
       latest_1h ← nth_back 1 one_hour;
       previous_1h ← nth_back 2 one_hour;
       latest_4h ← nth_back 1 four_hour;
       previous_4h ← nth_back 2 four_hour;
       sma20_1h ← sma (ck_close <$> last_n 20 one_hour);
       sma20_4h ← sma (ck_close <$> last_n 20 four_hour);
       let htf_trend_intact :=
         (ck_close latest_4h >? sma20_4h)%dec && (ck_close latest_4h >=? ck_close previous_4h)%dec in
       let lookback := slice_back 21 1 one_hour in
       lookback_high ← py_max (ck_high <$> lookback);
       lookback_low ← py_min (ck_low <$> lookback);
       depth ← ddiv (lookback_high - lookback_low)%dec lookback_high;
       let pullback_depth_pct := (depth * of_int 100)%dec in
       let pullback_depth_normal :=
         (mkDecimal 5 (-1) <=? pullback_depth_pct)%dec
         && (pullback_depth_pct <=? mkDecimal 80 (-1))%dec in
       let reclaim_confirmed :=
         (ck_close latest_1h >? sma20_1h)%dec && (ck_close latest_1h >? ck_high previous_1h)%dec in
       facts ← fact_snapshots c s
         [condition "htf_trend_intact" htf_trend_intact;
          condition "reclaim_confirmed" reclaim_confirmed;
          reference "pullback_low_reference" (decimal_fact lookback_low)];
       computed_result c s (htf_trend_intact && pullback_depth_normal && reclaim_confirmed)
         (if negb htf_trend_intact then "cpm_no_action_trend_ambiguous"
          else if negb pullback_depth_normal then "cpm_no_action_no_pullback"
          else if negb reclaim_confirmed then "cpm_no_action_no_reclaim"
          else "cpm_long_pullback_reclaim") facts).

End CPM.

(** [_comparative_invalid_reason], the same in [mi.py] and [mpg.py] up to the
    strategy group, the lookback and the prefix of the reason. *)
Definition comparative_invalid_reason (group prefix : str) (lookback : Z) (s : MarketSnapshot)
    : option str :=
  match mk_comparative_strength s with
  | None => Some (prefix +:+ "_invalid_comparative_strength_missing")
  | Some x =>
      if negb (bool_decide (cx_strategy_group_id x = group))
         || negb (bool_decide (cx_timeframe x = bars_1h))
         || negb (cx_lookback_bars x =? lookback)
         || negb (cx_trigger_candle_close_time_ms x =? mk_trigger_candle_close_time_ms s)
      then Some (prefix +:+ "_invalid_comparative_strength_scope")
      else if (mk_trigger_candle_close_time_ms s <? cx_observed_at_ms x)
              || (cx_valid_until_ms x <=? mk_trigger_candle_close_time_ms s)
      then Some (prefix +:+ "_invalid_comparative_strength_stale")
      else None
  end.

(** The comparative part of [mi.py] and [mpg.py]: the ranking is checked, the
    member of the instrument is looked up, and [decide] gets both. *)
Definition with_comparative_member (c : RegisteredStrategyContract) (s : MarketSnapshot)
    (group prefix : str) (lookback : Z)
    (decide : ComparativeStrengthSnapshot → ComparativeStrengthMember → result DetectorResult)
    : result DetectorResult :=
  match comparative_invalid_reason group prefix lookback s with
  | Some invalid_reason => invalid_result c invalid_reason
  | None =>
      match mk_comparative_strength s with
      | None => Raise (AssertionError "validated comparative snapshot disappeared")
      | Some x =>
          match comparative_member x (mk_exchange_instrument_id s) with
          | Ok member => decide x member
          | Raise _ => invalid_result c (prefix +:+ "_invalid_comparative_strength_member_missing")
          end
      end
  end.

(** The three facts of [mi.py] and [mpg.py]: without a comparative window, and
    with one. *)
Definition momentum_facts (c : RegisteredStrategyContract) (s : MarketSnapshot)
    (momentum strength floor_name : str) (confirmed : bool) (floor : Decimal)
    : result (list SignalFactSnapshot) :=
  fact_snapshots c s
    [condition momentum confirmed; condition strength false;
     reference floor_name (decimal_fact floor)].

Definition replace_strength (c : RegisteredStrategyContract) (s : MarketSnapshot)
    (x : ComparativeStrengthSnapshot) (strength : str) (confirmed : bool)
    (local_facts : list SignalFactSnapshot) : result (list SignalFactSnapshot) :=
  fact ← fact_snapshot_within c s strength (JBool confirmed) confirmed
           (Some (cx_observed_at_ms x)) (Some (cx_valid_until_ms x));
  mret (<[1%nat := fact]> local_facts).

Module MI.

Definition mi_evaluate (c : RegisteredStrategyContract) (s : MarketSnapshot) : result DetectorResult :=
  in_scope c s
    (let candles := mk_candles_1h s in
     if (length candles <? 13)%nat then invalid_result c "mi_invalid_insufficient_candles"
     else
       latest ← nth_back 1 candles;
       lookback ← nth_back 13 candles;
       change ← ddiv (ck_close latest - ck_close lookback)%dec (ck_close lookback);
       let impulse_return_pct := (change * of_int 100)%dec in
       let impulse_confirmed := (impulse_return_pct >=? of_int 3)%dec in
       local_facts ← momentum_facts c s "impulse_confirmed" "relative_strength_confirmed"
                       "impulse_invalidation_reference" impulse_confirmed (ck_close lookback);
       if negb impulse_confirmed then
         computed_result c s false "mi_no_action_impulse_below_threshold" local_facts
       else
         with_comparative_member c s "MI-001" "mi" 12 (λ x member,
           if negb (cm_return_pct member =? impulse_return_pct)%dec then
             invalid_result c "mi_invalid_comparative_return_mismatch"
           else
             let relative_strength_confirmed := cm_rank member =? 1 in
             facts ← replace_strength c s x "relative_strength_confirmed"
                       relative_strength_confirmed local_facts;
             computed_result c s relative_strength_confirmed
               (if relative_strength_confirmed then "mi_long_momentum_impulse"
                else "mi_no_action_relative_strength_not_confirmed") facts)).

End MI.

Module MPG.

(** [_count_higher_closes] *)
Definition count_higher_closes (candles : list ClosedCandle) : Z :=
  Z.of_nat (length (filter (λ p : ClosedCandle * ClosedCandle,
    (ck_close p.2 >? ck_close p.1)%dec = true) (pairwise candles))).

Definition mpg_evaluate (c : RegisteredStrategyContract) (s : MarketSnapshot) : result DetectorResult :=
  in_scope c s
    (let one_hour := mk_candles_1h s in
     let four_hour := mk_candles_4h s in
     if (length one_hour <? 16)%nat then invalid_result c "mpg_invalid_insufficient_1h_candles"
     else if (length four_hour <? 4)%nat then invalid_result c "mpg_invalid_insufficient_4h_candles"
     else
       latest ← nth_back 1 one_hour;
       first_lookback ← nth_back 9 one_hour;
       last_4h ← nth_back 1 four_hour;
       first_4h ← nth_back (length four_hour) four_hour;
       let lookback := slice_back 9 1 one_hour in
       one_hour_net_pct ← pct (ck_close latest - ck_close first_lookback)%dec
                            (ck_close first_lookback);
       four_hour_net_pct ← pct (ck_close last_4h - ck_close first_4h)%dec (ck_close first_4h);
       previous_range_high ← py_max (ck_high <$> lookback);
       momentum_floor ← py_min (ck_low <$> slice_back 6 1 one_hour);
       let higher_closes := count_higher_closes (last_n 5 one_hour) in
       let momentum_confirmed :=
         (four_hour_net_pct >=? mkDecimal 8 (-1))%dec && (one_hour_net_pct >=? mkDecimal 10 (-1))%dec
         && (ck_close latest >? previous_range_high)%dec && (ck_close latest >? ck_open latest)%dec
         && (3 <=? higher_closes) in
       local_facts ← momentum_facts c s "momentum_persistence_confirmed" "leader_strength_confirmed"
                       "momentum_floor_reference" momentum_confirmed momentum_floor;
       if negb momentum_confirmed then
         computed_result c s false "mpg_no_action_momentum_persistence_not_confirmed" local_facts
       else
         with_comparative_member c s "MPG-001" "mpg" 8 (λ x member,
           let leader_confirmed := (cm_rank member =? 1) && (cm_return_pct member >? d0)%dec in
           facts ← replace_strength c s x "leader_strength_confirmed" leader_confirmed local_facts;
           computed_result c s leader_confirmed
             (if leader_confirmed then "mpg_long_momentum_persistence"
              else "mpg_no_action_leader_strength_not_confirmed") facts)).

End MPG.

(** ** Opening ranges *)

(** The candles are the consecutive bars of [width] from [start] on. *)
Fixpoint consecutive_from (width start : Z) (candles : list ClosedCandle) : bool :=
  match candles with
  | [] => true
  | c :: candles =>
      (ck_open_time_ms c =? start) && (ck_close_time_ms c =? start + width)
      && consecutive_from width (start + width) candles
  end.

Definition DAY_MS : Z := 86400000.
Definition HOUR_MS : Z := 3600000.
Definition BAR_MS : Z := 900000.

(** The edge of a range: the previous close was not beyond it, the latest is. *)
Definition edge_crossed (side : PositionSide) (high low previous latest : Decimal) : bool :=
  match side with
  | long => (previous <=? high)%dec && (latest >? high)%dec
  | short => (previous >=? low)%dec && (latest <? low)%dec
  end.

Module SOR.

(** The detector reads its side off the Event: "SOR-LONG", anything else short. *)
Definition event_side (c : RegisteredStrategyContract) : PositionSide :=
  if bool_decide (sc_event_id c = "SOR-LONG") then long else short.

Definition sor_evaluate (c : RegisteredStrategyContract) (s : MarketSnapshot) : result DetectorResult :=
  in_scope c s
    (let candles := mk_candles_15m s in
     if (length candles <? 5)%nat then invalid_result c "sor_invalid_insufficient_15m_candles"
     else
       let session_start_ms := mk_trigger_candle_close_time_ms s / DAY_MS * DAY_MS in
       let session_end_ms := session_start_ms + DAY_MS in
       if negb (consecutive_from BAR_MS session_start_ms candles) then
         invalid_result c "sor_invalid_session_candle_sequence"
       else
         latest ← nth_back 1 candles;
         previous ← nth_back 2 candles;
         range_high ← py_max (ck_high <$> take 4 candles);
         range_low ← py_min (ck_low <$> take 4 candles);
         let side := event_side c in
         let triggered := edge_crossed side range_high range_low (ck_close previous) (ck_close latest) in
         facts ← fact_snapshots c s
           [condition "opening_range_defined_v3" true;
            condition (match side with
                       | long => "breakout_edge_crossed_v3"
                       | short => "breakdown_edge_crossed_v3" end) triggered;
            reference (match side with
                       | long => "opening_range_high_reference_v3"
                       | short => "opening_range_low_reference_v3" end)
              (decimal_fact (match sc_position_side c with
                             | long => range_high | short => range_low end));
            reference (match side with
                       | long => "opening_range_low_reference_v3"
                       | short => "opening_range_high_reference_v3" end)
              (decimal_fact (match side with long => range_low | short => range_high end));
            reference "session_start_ms_v3" (ms_fact session_start_ms);
            reference "session_end_ms_v3" (ms_fact session_end_ms)];
         computed_result c s triggered
           (if triggered then
              match side with
              | long => "sor_opening_range_breakout"
              | short => "sor_opening_range_breakdown"
              end
            else "sor_no_action_opening_range_intact") facts).

End SOR.

Module SOR1H.

Definition event_spec_ids : list str :=
  ["event_spec:SOR-1H-001:SOR-1H-LONG:v1"; "event_spec:SOR-1H-001:SOR-1H-SHORT:v1"].

(** [SorHourlyDetector.__init__] *)
Definition accepts (c : RegisteredStrategyContract) : result unit :=
  raise_if (negb (bool_decide (sc_event_spec_id c ∈ event_spec_ids))
            || negb (bool_decide (sc_strategy_group_id c = "SOR-1H-001"))
            || negb (bool_decide (sc_timeframe c = tf_1h)))
    (ValueError "hourly ORB Detector rejects another strategy or clock").

Definition sor_1h_evaluate (c : RegisteredStrategyContract) (s : MarketSnapshot) : result DetectorResult :=
  let now := mk_trigger_candle_close_time_ms s in
  let d := now / DAY_MS * DAY_MS in
  let bars := mk_candles_1h s in
  if negb (now mod HOUR_MS =? 0) || bool_decide (length bars = 0%nat)
     || negb ((d + HOUR_MS <=? now) && (now <? d + DAY_MS))
     || negb (Z.of_nat (length bars) =? (now - d) / HOUR_MS)
     || negb (consecutive_from HOUR_MS d bars)
  then invalid_result c "sor_1h_invalid_session_path"
  else
    opening ← nth_back (length bars) bars;
    let high := ck_high opening in
    let low := ck_low opening in
    if (high <=? low)%dec then invalid_result c "sor_1h_invalid_opening_range"
    else
      let eligible := (2 <=? length bars)%nat in
      let side := sc_position_side c in
      let crossed := eligible &&
        match reverse bars with
        | latest :: previous :: _ => edge_crossed side high low (ck_close previous) (ck_close latest)
        | _ => false
        end in
      facts ← fact_snapshots c s
        [condition "opening_range_defined_1h_v1" true;
         condition "entry_hour_eligible_1h_v1" eligible;
         condition (match side with
                    | long => "breakout_edge_crossed_1h_v1"
                    | short => "breakdown_edge_crossed_1h_v1" end) crossed;
         reference (match side with
                    | long => "opening_range_low_reference_1h_v1"
                    | short => "opening_range_high_reference_1h_v1" end)
           (decimal_fact (match side with long => low | short => high end));
         reference (match side with
                    | long => "opening_range_high_reference_1h_v1"
                    | short => "opening_range_low_reference_1h_v1" end)
           (decimal_fact (match side with long => high | short => low end));
         reference "session_start_ms_1h_v1" (ms_fact d);
         reference "session_end_ms_1h_v1" (ms_fact (d + DAY_MS))];
      computed_result c s crossed
        (if crossed then
           match side with long => "sor_1h_breakout" | short => "sor_1h_breakdown" end
         else if negb eligible then "sor_1h_opening_range_prepared"
         else "sor_1h_no_hourly_cross") facts.

End SOR1H.

Module USSOR.

Definition ENTRY_WINDOW_END_BARS : Z := 10.
Definition ATR_PERIOD : nat := 14.
Definition STOP_ATR_BUFFER : Decimal := mkDecimal 10 (-2).
Definition MAX_STOP_ATR : Decimal := mkDecimal 125 (-2).

Definition true_range (p : ClosedCandle * ClosedCandle) : Decimal :=
  dmax (dmax (ck_high p.2 - ck_low p.2)%dec (dabs (ck_high p.2 - ck_close p.1)%dec))
    (dabs (ck_low p.2 - ck_close p.1)%dec).

(** [_atr] *)
Definition atr (candles : list ClosedCandle) : result Decimal :=
  let true_ranges := true_range <$> pairwise candles in
  ddiv (dsum true_ranges) (of_int (Z.of_nat (length true_ranges))).

Definition not_triggered (c : RegisteredStrategyContract) (reason : str) : result DetectorResult :=
  validate_DetectorResult (mkDetectorResult (sc_event_spec_id c) NOT_TRIGGERED None reason []).

Definition initial_stop (side : PositionSide) (high low : Decimal) (latest : ClosedCandle)
    (atr : Decimal) : Decimal :=
  match side with
  | long => (dmin high (ck_low latest) - atr * STOP_ATR_BUFFER)%dec
  | short => (dmax low (ck_high latest) + atr * STOP_ATR_BUFFER)%dec
  end.

Definition stop_distance (side : PositionSide) (close stop : Decimal) : Decimal :=
  match side with long => (close - stop)%dec | short => (stop - close)%dec end.

(** From the candles of the regular session on. *)
Definition evaluate_regular (c : RegisteredStrategyContract) (s : MarketSnapshot)
    (regular_open_ms regular_close_ms : Z) : result DetectorResult :=
  let trigger_ms := mk_trigger_candle_close_time_ms s in
  let regular := filter (λ k, regular_open_ms ≤ ck_open_time_ms k ∧ ck_close_time_ms k ≤ trigger_ms)
                   (mk_candles_15m s) in
  if (length regular <? 3)%nat
     || negb (match last regular with
              | Some k => ck_close_time_ms k =? trigger_ms | None => false end)
  then invalid_result c "us_sor_regular_candles_missing"
  else if negb (consecutive_from BAR_MS regular_open_ms regular) then
    invalid_result c "us_sor_regular_candle_sequence"
  else if (length (mk_candles_15m s) <? ATR_PERIOD + 1)%nat then
    invalid_result c "us_sor_atr_window_missing"
  else
    previous ← nth_back 2 regular;
    latest ← nth_back 1 regular;
    range_high ← py_max (ck_high <$> take 2 regular);
    range_low ← py_min (ck_low <$> take 2 regular);
    atr ← atr (last_n (ATR_PERIOD + 1) (mk_candles_15m s));
    let side := sc_position_side c in
    let crossed := edge_crossed side range_high range_low (ck_close previous) (ck_close latest) in
    let stop := initial_stop side range_high range_low latest atr in
    let distance := stop_distance side (ck_close latest) stop in
    let stop_eligible :=
      (stop >? d0)%dec && (distance >? d0)%dec && (distance <=? atr * MAX_STOP_ATR)%dec in
    facts ← fact_snapshots c s
      [condition "regular_session_confirmed_us_v1" true;
       condition "opening_range_defined_us_v1" true;
       condition (match side with
                  | long => "breakout_edge_crossed_us_v1"
                  | short => "breakdown_edge_crossed_us_v1" end) crossed;
       reference (match side with
                  | long => "opening_range_high_reference_us_v1"
                  | short => "opening_range_low_reference_us_v1" end)
         (decimal_fact (match side with long => range_high | short => range_low end));
       ("initial_stop_reference_us_v1", decimal_fact stop, stop_eligible);
       reference "regular_session_open_ms_us_v1" (ms_fact regular_open_ms);
       reference "session_exit_deadline_ms_us_v1" (ms_fact (regular_close_ms - BAR_MS))];
    computed_result c s (crossed && stop_eligible)
      (if crossed && negb stop_eligible then "us_sor_stop_distance_exceeded"
       else if negb crossed then "us_sor_opening_range_intact"
       else match side with
            | long => "us_sor_regular_breakout"
            | short => "us_sor_regular_breakdown" end) facts.

Definition us_evaluate (c : RegisteredStrategyContract) (s : MarketSnapshot) : result DetectorResult :=
  in_scope c s
    (let trigger_ms := mk_trigger_candle_close_time_ms s in
     match mk_product_session s with
     | None => invalid_result c "us_sor_product_session_missing"
     | Some product =>
         if (trigger_ms <? ps_observed_at_ms product) || (ps_valid_until_ms product <=? trigger_ms)
         then invalid_result c "us_sor_product_session_stale"
         else if negb (bool_decide (ps_product_status product = product_active)) then
           invalid_result c "us_sor_product_unavailable"
         else if negb (bool_decide (ps_session_state product = session_regular)) then
           not_triggered c "us_sor_outside_regular_session"
         else if negb (usable_for_regular_observation product trigger_ms) then
           invalid_result c "us_sor_product_session_invalid"
         else
           match ps_regular_session_open_ms product, ps_regular_session_close_ms product with
           | Some regular_open_ms, Some regular_close_ms =>
               if negb ((regular_open_ms + 2 * BAR_MS <? trigger_ms)
                        && (trigger_ms <=? Z.min (regular_open_ms + ENTRY_WINDOW_END_BARS * BAR_MS)
                                             (regular_close_ms - BAR_MS)))
               then not_triggered c "us_sor_outside_entry_window"
               else evaluate_regular c s regular_open_ms regular_close_ms
           | _, _ => Raise (AssertionError EmptyString)
           end
     end).

End USSOR.

(** ** Routing *)

(** [detector_for(event_spec_id).evaluate(snapshot)] *)
Definition detect (event_spec_id : str) (s : MarketSnapshot) : result DetectorResult :=
  contracts ← registered_strategy_contracts;
  match list_find (λ c, sc_event_spec_id c = event_spec_id) (reverse contracts) with
  | None => Raise (KeyError ("unknown Event Spec: " +:+ event_spec_id))
  | Some (_, c) =>
      let event := sc_event_id c in
      if bool_decide (event = "CPM-LONG") then CPM.cpm_evaluate c s
      else if bool_decide (event = "MPG-LONG") then MPG.mpg_evaluate c s
      else if bool_decide (event = "MI-LONG") then MI.mi_evaluate c s
      else if bool_decide (event ∈ ["SOR-1H-LONG"; "SOR-1H-SHORT"]) then
        SOR1H.accepts c;; SOR1H.sor_1h_evaluate c s
      else if bool_decide (event ∈ ["SOR-LONG"; "SOR-SHORT"]) then SOR.sor_evaluate c s
      else if bool_decide (event ∈ ["SOR-US-LONG-15M"; "SOR-US-SHORT-15M"]) then USSOR.us_evaluate c s
      else if bool_decide (event = "BRF2-SHORT") then BRF2.brf2_evaluate c s
      else Raise (KeyError ("registered Event has no detector: " +:+ event_spec_id))
  end.
