(* ===== verification/Episode.v ===== *)
(** * Exposure Episodes ([domain/exposure_episode.py])

    The rising-edge projection of detector results, and the barrier that keeps
    a change of the comparison binding from fabricating an edge. *)

From Stdlib Require Import QArith.
From S2P Require Import Prelude PyString Sha256 PyDecimal DecimalFacts Identities Ticket.
From S2P Require Import StrategyRegistry Signal Detector.
#[local] Open Scope Z_scope.

(** ** Identities *)

(** [_digest] *)
Definition episode_digest (prefix : str) (payload : JsonValue) : str :=
  prefix +:+ ":" +:+ sha256_hexdigest (encode_utf8 (json_dumps false payload)).

Definition build_episode_domain_key (event_spec_id exchange_instrument_id : str)
    (side : PositionSide) : str :=
  episode_digest "episode-domain"
    (JObj [("event_spec_id", JStr event_spec_id);
           ("exchange_instrument_id", JStr exchange_instrument_id);
           ("position_side", JStr (side_value side))]).

Definition build_exposure_episode_id (event_spec_id exchange_instrument_id : str)
    (side : PositionSide) (occurred_at_ms : Z) : result str :=
  raise_if (occurred_at_ms <=? 0) (ValueError "Exposure Episode occurrence time must be positive");;
  mret (episode_digest "episode"
    (JObj [("event_spec_id", JStr event_spec_id);
           ("exchange_instrument_id", JStr exchange_instrument_id);
           ("position_side", JStr (side_value side));
           ("occurred_at_ms", JInt occurred_at_ms)])).

(** ** The projection *)

Inductive EpisodeState := armed | triggered | comparison_rebase_required | authority_rebase_required.
#[export] Instance EpisodeState_eq_dec : EqDecision EpisodeState.
Proof. solve_decision. Defined.

Definition is_rebase (s : EpisodeState) : bool :=
  bool_decide (s ∈ [comparison_rebase_required; authority_rebase_required]).

Record LockedObservationCursor := mkCursor {
  oc_episode_domain_key : str;
  oc_exchange_instrument_id : str;
  oc_episode_version : Z;
  oc_comparison_checkpoint_version : Z;
  oc_authority_recovery_checkpoint_version : Z;
  oc_last_observed_at_ms : option Z
}.

Definition validate_LockedObservationCursor (c : LockedObservationCursor)
    : result LockedObservationCursor :=
  validate_fields
    [(oc_episode_version c <? 0, "Input should be greater than or equal to 0");
     (oc_comparison_checkpoint_version c <? 0, "Input should be greater than or equal to 0");
     (oc_authority_recovery_checkpoint_version c <? 0, "Input should be greater than or equal to 0");
     (opt_test (λ t, t <=? 0) (oc_last_observed_at_ms c), "Input should be greater than 0")];;
  validate_model
    [(blank (oc_episode_domain_key c) || blank (oc_exchange_instrument_id c),
      "Observation cursor identities must be non-blank");
     ((oc_episode_version c =? 0)
      && (negb (oc_comparison_checkpoint_version c =? 0)
          || negb (oc_authority_recovery_checkpoint_version c =? 0)
          || negb (is_none (oc_last_observed_at_ms c))),
      "absent Episode cannot carry a consumed cursor");
     (negb (oc_episode_version c =? 0) && is_none (oc_last_observed_at_ms c)
      && ((oc_authority_recovery_checkpoint_version c =? 0)
          || negb (oc_comparison_checkpoint_version c =? 0)),
      "persisted Episode requires its observed close")];;
  mret c.

(** [episode_policy] has the single value "rising_edge". *)
Record ExposureEpisodeState := mkEpisode {
  ex_episode_domain_key : str;
  ex_event_spec_id : str;
  ex_exchange_instrument_id : str;
  ex_position_side : PositionSide;
  ex_state : EpisodeState;
  ex_exposure_episode_id : option str;
  ex_triggered_at_ms : option Z;
  ex_rearmed_at_ms : option Z;
  ex_last_observed_at_ms : option Z;
  ex_projection_version : Z
}.
#[export] Instance ExposureEpisodeState_eq_dec : EqDecision ExposureEpisodeState.
Proof. solve_decision. Defined.

Definition episode_checks (e : ExposureEpisodeState) : list (bool * str) :=
  let triggered_state := bool_decide (ex_state e = triggered) in
  [((ex_projection_version e <=? 0) || opt_test (λ t, t <=? 0) (ex_last_observed_at_ms e),
    "Exposure Episode time and version must be positive");
   (is_none (ex_last_observed_at_ms e)
    && negb (bool_decide (ex_state e = authority_rebase_required)),
    "only a pending recovery Episode may be unobserved");
   (opt_test (λ t, t <=? 0) (ex_rearmed_at_ms e), "Exposure Episode re-arm time must be positive");
   (triggered_state && (is_none (ex_exposure_episode_id e) || is_none (ex_triggered_at_ms e)),
    "triggered Episode requires identity and trigger time");
   (triggered_state && opt_test (λ t, t <=? 0) (ex_triggered_at_ms e),
    "Episode trigger time must be positive");
   (negb triggered_state
    && (negb (is_none (ex_exposure_episode_id e)) || negb (is_none (ex_triggered_at_ms e))),
    "armed Episode forbids active identity and trigger time");
   (is_rebase (ex_state e) && negb (is_none (ex_rearmed_at_ms e)),
    "rebase cursor must not fabricate an arm")].

Definition validate_ExposureEpisodeState (e : ExposureEpisodeState) : result ExposureEpisodeState :=
  validate_fields
    ((λ v, (blank v, "Exposure Episode identities must be non-blank")) <$>
       [ex_episode_domain_key e; ex_event_spec_id e; ex_exchange_instrument_id e]);;
  let e := mkEpisode (strip (ex_episode_domain_key e)) (strip (ex_event_spec_id e))
             (strip (ex_exchange_instrument_id e)) (ex_position_side e) (ex_state e)
             (ex_exposure_episode_id e) (ex_triggered_at_ms e) (ex_rearmed_at_ms e)
             (ex_last_observed_at_ms e) (ex_projection_version e) in
  validate_model (episode_checks e);;
  mret e.

Record ExposureEpisodeTransition := mkTransition {
  et_current : ExposureEpisodeState;
  et_exposure_episode_id : option str;
  et_created_new_episode : bool
}.

Definition validate_ExposureEpisodeTransition (t : ExposureEpisodeTransition)
    : result ExposureEpisodeTransition :=
  validate_model
    [(negb (bool_decide (et_exposure_episode_id t = ex_exposure_episode_id (et_current t))),
      "Episode transition identity differs from current state");
     (et_created_new_episode t && is_none (et_exposure_episode_id t),
      "new Episode transition requires an identity")];;
  mret t.

(** ** The rising-edge reducer *)

(** The guards on the arguments. *)
Definition require_episode_request (c : RegisteredStrategyContract) (status : DetectorStatus)
    (occurred_at_ms : option Z) (observed_at_ms : Z) (instrument_id : str) : result unit :=
  raise_if (negb (bool_decide (sc_episode_policy c = rising_edge)))
    (ValueError "rising-edge reducer requires a rising-edge Event contract");;
  raise_if (bool_decide (status = INVALID))
    (ValueError "Episode reducer accepts triggered or not_triggered only");;
  raise_if (observed_at_ms <=? 0) (ValueError "Episode observation time must be positive");;
  raise_if (bool_decide (instrument_id = EmptyString))
    (ValueError "Episode instrument identity must be non-blank");;
  if bool_decide (status = TRIGGERED) then
    raise_if (match occurred_at_ms with Some t => t <=? 0 | None => true end)
      (ValueError "triggered Episode transition requires occurrence time")
  else
    raise_if (negb (is_none occurred_at_ms))
      (ValueError "not-triggered Episode transition forbids occurrence time").

(** The guards on the current state: it is consistent, of this scope, and the
    observation does not move backwards. *)
Definition require_current_episode (c : RegisteredStrategyContract) (e : ExposureEpisodeState)
    (domain_key instrument_id : str) (status : DetectorStatus) (observed_at_ms : Z) : result unit :=
  validate_ExposureEpisodeState e;;
  raise_if (is_rebase (ex_state e) && bool_decide (status = TRIGGERED))
    (ValueError "rebase requires a valid NOT_TRIGGERED before an Episode");;
  raise_if (negb (bool_decide (ex_episode_domain_key e = domain_key))
            || negb (bool_decide (ex_event_spec_id e = sc_event_spec_id c))
            || negb (bool_decide (ex_exchange_instrument_id e = instrument_id))
            || negb (bool_decide (ex_position_side e = sc_position_side c)))
    (ValueError "Exposure Episode current state identity differs");;
  raise_if (opt_test (λ t, observed_at_ms <? t) (ex_last_observed_at_ms e))
    (ValueError "Exposure Episode observation cannot move backwards").

Definition observed_state (status : DetectorStatus) : EpisodeState :=
  if bool_decide (status = TRIGGERED) then triggered else armed.

(** The same observation again. *)
Definition replay_episode (e : ExposureEpisodeState) (status : DetectorStatus)
    : result ExposureEpisodeTransition :=
  raise_if (negb (bool_decide (ex_state e = observed_state status)))
    (ValueError "same Episode observation has contradictory result");;
  validate_ExposureEpisodeTransition (mkTransition e (ex_exposure_episode_id e) false).

(** A new observation. *)
Definition project_episode (c : RegisteredStrategyContract) (current : option ExposureEpisodeState)
    (domain_key instrument_id : str) (status : DetectorStatus) (occurred_at_ms : option Z)
    (observed_at_ms : Z) : result ExposureEpisodeTransition :=
  let version := match current with None => 1 | Some e => ex_projection_version e + 1 end in
  let rearmed := current ≫= ex_rearmed_at_ms in
  let episode state id triggered_at rearmed_at :=
    validate_ExposureEpisodeState
      (mkEpisode domain_key (sc_event_spec_id c) instrument_id (sc_position_side c) state id
         triggered_at rearmed_at (Some observed_at_ms) version) in
  if bool_decide (status = TRIGGERED) then
    match current with
    | Some (mkEpisode _ _ _ _ triggered id triggered_at _ _ _) =>
        state ← episode triggered id triggered_at rearmed;
        validate_ExposureEpisodeTransition (mkTransition state id false)
    | _ =>
        match occurred_at_ms with
        | None => Raise (AssertionError "validated Episode occurrence disappeared")
        | Some occurred =>
            id ← build_exposure_episode_id (sc_event_spec_id c) instrument_id (sc_position_side c)
                   occurred;
            state ← episode triggered (Some id) (Some occurred) rearmed;
            validate_ExposureEpisodeTransition (mkTransition state (Some id) true)
        end
    end
  else
    let rearmed := match current with
                   | Some e => if bool_decide (ex_state e = armed) then rearmed
                               else Some observed_at_ms
                   | None => Some observed_at_ms
                   end in
    state ← episode armed None None rearmed;
    validate_ExposureEpisodeTransition (mkTransition state None false).

Definition advance_exposure_episode (c : RegisteredStrategyContract)
    (current : option ExposureEpisodeState) (status : DetectorStatus) (occurred_at_ms : option Z)
    (observed_at_ms : Z) (exchange_instrument_id : str) : result ExposureEpisodeTransition :=
  let instrument_id := strip exchange_instrument_id in
  require_episode_request c status occurred_at_ms observed_at_ms instrument_id;;
  let domain_key :=
    build_episode_domain_key (sc_event_spec_id c) instrument_id (sc_position_side c) in
  match current with
  | None => project_episode c None domain_key instrument_id status occurred_at_ms observed_at_ms
  | Some e =>
      require_current_episode c e domain_key instrument_id status observed_at_ms;;
      if bool_decide (ex_last_observed_at_ms e = Some observed_at_ms) then replay_episode e status
      else project_episode c (Some e) domain_key instrument_id status occurred_at_ms observed_at_ms
  end.

(** ** The comparison barrier *)

Inductive ComparisonBindingEpisodeState := REBASE_REQUIRED | ARMED_UNDER_BINDING.
#[export] Instance ComparisonBindingEpisodeState_eq_dec : EqDecision ComparisonBindingEpisodeState.
Proof. solve_decision. Defined.

Record ComparisonBindingEpisodeCheckpoint := mkCheckpoint {
  ch_episode_domain_key : str;
  ch_comparison_binding_digest : str;
  ch_comparison_transition_revision : Z;
  ch_state : ComparisonBindingEpisodeState;
  ch_armed_at_ms : option Z;
  ch_last_observed_at_ms : Z;
  ch_last_detector_status : DetectorStatus;
  ch_projection_version : Z
}.

(** Digits of base 16 with single underscores between them. *)
Fixpoint hex_digits_with_underscores (after_digit : bool) (s : str) : bool :=
  match s with
  | EmptyString => after_digit
  | String c s =>
      if is_hex_digit (lower_ascii c) then hex_digits_with_underscores true s
      else if bool_decide (c = "_"%char) && after_digit then
        match s with EmptyString => false | _ => hex_digits_with_underscores false s end
      else false
  end.

(** Whether [int(s, 16)] returns: space around, a sign, "0x", and a "_" after it
    are accepted. *)
Definition parses_base_16 (s : str) : bool :=
  let '(_, s) := take_sign (strip s) in
  let digits :=
    if startswith s "0x" || startswith s "0X" then
      let rest := String.substring 2 (String.length s - 2) s in
      if startswith rest "_" then String.substring 1 (String.length rest - 1) rest else rest
    else s in
  hex_digits_with_underscores false digits.

Definition comparison_digest_ok (digest : str) : bool :=
  startswith digest "sha256:" && (len digest =? 71)
  && bool_decide (digest = map_string lower_ascii digest)
  && parses_base_16 (String.substring 7 (String.length digest - 7) digest).

Definition checkpoint_checks (c : ComparisonBindingEpisodeCheckpoint) : list (bool * str) :=
  let rebase := bool_decide (ch_state c = REBASE_REQUIRED) in
  [((ch_comparison_transition_revision c <=? 0) || (ch_last_observed_at_ms c <=? 0)
    || (ch_projection_version c <=? 0), "comparison checkpoint version and time must be positive");
   (bool_decide (ch_last_detector_status c = INVALID),
    "comparison checkpoint requires a valid detector status");
   (rebase && negb (is_none (ch_armed_at_ms c)), "rebase-required comparison checkpoint forbids arming");
   (rebase && negb (bool_decide (ch_last_detector_status c = TRIGGERED)),
    "rebase-required checkpoint records suppressed trigger");
   (negb rebase
    && match ch_armed_at_ms c with
       | None => true
       | Some t => (t <=? 0) || (ch_last_observed_at_ms c <? t)
       end, "armed comparison checkpoint requires a prior valid arm")].

Definition validate_ComparisonBindingEpisodeCheckpoint (c : ComparisonBindingEpisodeCheckpoint)
    : result ComparisonBindingEpisodeCheckpoint :=
  validate_fields
    [(blank (ch_episode_domain_key c), "comparison checkpoint requires an Episode domain key");
     (negb (comparison_digest_ok (strip (ch_comparison_binding_digest c))),
      "comparison binding digest must be canonical sha256")];;
  let c := mkCheckpoint (strip (ch_episode_domain_key c)) (strip (ch_comparison_binding_digest c))
             (ch_comparison_transition_revision c) (ch_state c) (ch_armed_at_ms c)
             (ch_last_observed_at_ms c) (ch_last_detector_status c) (ch_projection_version c) in
  validate_model (checkpoint_checks c);;
  mret c.

Record ComparisonBoundExposureEpisodeTransition := mkBoundTransition {
  bt_checkpoint : ComparisonBindingEpisodeCheckpoint;
  bt_episode_transition : option ExposureEpisodeTransition;
  bt_signal_eligible : bool;
  bt_suppression_reason : option str
}.

Definition validate_ComparisonBoundExposureEpisodeTransition
    (t : ComparisonBoundExposureEpisodeTransition)
    : result ComparisonBoundExposureEpisodeTransition :=
  validate_model
    [(negb (is_none (bt_suppression_reason t))
      && (bt_signal_eligible t || negb (is_none (bt_episode_transition t))),
      "suppressed comparison trigger cannot advance an Episode");
     (is_none (bt_suppression_reason t)
      && bool_decide (ch_state (bt_checkpoint t) = REBASE_REQUIRED),
      "rebase-required comparison transition must be suppressed")];;
  mret t.

(** One Observation of a comparison-bound scope. *)
Record Observation := mkObservation {
  ob_status : DetectorStatus;
  ob_occurred_at_ms : option Z;
  ob_observed_at_ms : Z;
  ob_exchange_instrument_id : str;
  ob_digest : str;
  ob_revision : Z
}.

(** [_validate_comparison_request] *)
Definition validate_comparison_request (c : RegisteredStrategyContract) (o : Observation)
    : result unit :=
  raise_if (negb (bool_decide (sc_episode_policy c = rising_edge)))
    (ValueError "comparison barrier requires a rising-edge Event contract");;
  raise_if (bool_decide (ob_status o = INVALID))
    (ValueError "comparison barrier accepts triggered or not_triggered only");;
  raise_if ((ob_observed_at_ms o <=? 0) || blank (ob_exchange_instrument_id o))
    (ValueError "comparison barrier Observation identity is invalid");;
  raise_if (ob_revision o <=? 0) (ValueError "comparison transition revision must be positive");;
  validate_ComparisonBindingEpisodeCheckpoint
    (mkCheckpoint "validation" (ob_digest o) (ob_revision o) ARMED_UNDER_BINDING
       (Some (ob_observed_at_ms o)) (ob_observed_at_ms o) NOT_TRIGGERED 1);;
  if bool_decide (ob_status o = TRIGGERED) then
    raise_if (match ob_occurred_at_ms o with Some t => t <=? 0 | None => true end)
      (ValueError "triggered comparison barrier requires occurrence time")
  else
    raise_if (negb (is_none (ob_occurred_at_ms o)))
      (ValueError "not-triggered comparison barrier forbids occurrence time").

Definition next_version (current : option ComparisonBindingEpisodeCheckpoint) : Z :=
  match current with None => 1 | Some c => ch_projection_version c + 1 end.

Definition advance_observation (c : RegisteredStrategyContract)
    (current : option ExposureEpisodeState) (o : Observation) : result ExposureEpisodeTransition :=
  advance_exposure_episode c current (ob_status o) (ob_occurred_at_ms o) (ob_observed_at_ms o)
    (ob_exchange_instrument_id o).

(** [_arm_under_comparison_binding] *)
Definition arm_under_comparison_binding (c : RegisteredStrategyContract)
    (current_episode : option ExposureEpisodeState)
    (current_checkpoint : option ComparisonBindingEpisodeCheckpoint) (o : Observation)
    : result ComparisonBoundExposureEpisodeTransition :=
  raise_if (negb (bool_decide (ob_status o = NOT_TRIGGERED)) || negb (is_none (ob_occurred_at_ms o)))
    (AssertionError "comparison binding arm requires validated NOT_TRIGGERED");;
  transition ← advance_observation c current_episode o;
  checkpoint ← validate_ComparisonBindingEpisodeCheckpoint
    (mkCheckpoint (ex_episode_domain_key (et_current transition)) (ob_digest o) (ob_revision o)
       ARMED_UNDER_BINDING (Some (ob_observed_at_ms o)) (ob_observed_at_ms o) NOT_TRIGGERED
       (next_version current_checkpoint));
  validate_ComparisonBoundExposureEpisodeTransition
    (mkBoundTransition checkpoint (Some transition) false None).

Definition suppressed (checkpoint : ComparisonBindingEpisodeCheckpoint)
    : result ComparisonBoundExposureEpisodeTransition :=
  validate_ComparisonBoundExposureEpisodeTransition
    (mkBoundTransition checkpoint None false (Some "COMPARISON_REBASE_REQUIRED")).

(** [model_copy(update=...)]: no validator runs. *)
Definition observe_checkpoint (k : ComparisonBindingEpisodeCheckpoint) (o : Observation)
    : ComparisonBindingEpisodeCheckpoint :=
  mkCheckpoint (ch_episode_domain_key k) (ch_comparison_binding_digest k)
    (ch_comparison_transition_revision k) (ch_state k) (ch_armed_at_ms k) (ob_observed_at_ms o)
    (ob_status o) (ch_projection_version k + 1).

(** The binding is new or has changed. *)
Definition change_binding (c : RegisteredStrategyContract)
    (current_episode : option ExposureEpisodeState)
    (current_checkpoint : option ComparisonBindingEpisodeCheckpoint) (domain_key : str)
    (o : Observation) : result ComparisonBoundExposureEpisodeTransition :=
  raise_if (opt_test (λ t, ob_observed_at_ms o <=? t) (current_episode ≫= ex_last_observed_at_ms))
    (ValueError "comparison transition cannot reuse a consumed Episode close");;
  raise_if (opt_test (λ k, ob_observed_at_ms o <=? ch_last_observed_at_ms k) current_checkpoint)
    (ValueError "comparison transition must use a later Observation close");;
  if bool_decide (ob_status o = TRIGGERED) then
    checkpoint ← validate_ComparisonBindingEpisodeCheckpoint
      (mkCheckpoint domain_key (ob_digest o) (ob_revision o) REBASE_REQUIRED None
         (ob_observed_at_ms o) TRIGGERED (next_version current_checkpoint));
    suppressed checkpoint
  else arm_under_comparison_binding c current_episode current_checkpoint o.

(** The binding is the one of the checkpoint. *)
Definition same_binding (c : RegisteredStrategyContract)
    (current_episode : option ExposureEpisodeState) (k : ComparisonBindingEpisodeCheckpoint)
    (o : Observation) : result ComparisonBoundExposureEpisodeTransition :=
  raise_if (ob_observed_at_ms o <? ch_last_observed_at_ms k)
    (ValueError "comparison Observation cannot move backwards");;
  if ob_observed_at_ms o =? ch_last_observed_at_ms k then
    raise_if (negb (bool_decide (ob_status o = ch_last_detector_status k)))
      (ValueError "same comparison Observation has contradictory result");;
    if bool_decide (ch_state k = REBASE_REQUIRED) then suppressed k
    else
      raise_if (negb (bool_decide ((current_episode ≫= ex_last_observed_at_ms)
                                   = Some (ob_observed_at_ms o))))
        (ValueError "comparison replay lacks matching Episode cursor");;
      replay ← advance_observation c current_episode o;
      validate_ComparisonBoundExposureEpisodeTransition (mkBoundTransition k (Some replay) false None)
  else if bool_decide (ch_state k = REBASE_REQUIRED) then
    if bool_decide (ob_status o = TRIGGERED) then suppressed (observe_checkpoint k o)
    else arm_under_comparison_binding c current_episode (Some k) o
  else
    match ch_armed_at_ms k with
    | None => Raise (AssertionError "armed comparison checkpoint lost arming time")
    | Some armed_at_ms =>
        raise_if (bool_decide (ob_status o = TRIGGERED) && (ob_observed_at_ms o <=? armed_at_ms))
          (ValueError "comparison trigger must be later than its arming close");;
        transition ← advance_observation c current_episode o;
        validate_ComparisonBoundExposureEpisodeTransition
          (mkBoundTransition (observe_checkpoint k o) (Some transition)
             (bool_decide (ob_status o = TRIGGERED) && et_created_new_episode transition) None)
    end.

Definition advance_comparison_bound_exposure_episode (c : RegisteredStrategyContract)
    (current_episode : option ExposureEpisodeState)
    (current_checkpoint : option ComparisonBindingEpisodeCheckpoint) (o : Observation)
    : result ComparisonBoundExposureEpisodeTransition :=
  validate_comparison_request c o;;
  let domain_key := build_episode_domain_key (sc_event_spec_id c) (ob_exchange_instrument_id o)
                      (sc_position_side c) in
  raise_if (opt_test (λ e, negb (bool_decide (ex_episode_domain_key e = domain_key))) current_episode)
    (ValueError "comparison Episode state identity differs");;
  raise_if (opt_test (λ k, negb (bool_decide (ch_episode_domain_key k = domain_key)))
              current_checkpoint)
    (ValueError "comparison checkpoint Episode identity differs");;
  raise_if (opt_test (λ k,
      (ob_revision o <? ch_comparison_transition_revision k)
      || (ob_revision o =? ch_comparison_transition_revision k)
         && negb (bool_decide (ob_digest o = ch_comparison_binding_digest k))) current_checkpoint)
    (ValueError "comparison transition revision is stale or has contradictory digest");;
  match current_checkpoint with
  | Some k =>
      if negb (bool_decide (ch_comparison_binding_digest k = ob_digest o))
         || negb (ch_comparison_transition_revision k =? ob_revision o)
      then change_binding c current_episode (Some k) domain_key o
      else same_binding c current_episode k o
  | None => change_binding c current_episode None domain_key o
  end.
