(* ===== verification/Selection.v ===== *)
(** * Instrument selection ([domain/instrument_selection.py])

    The daily selection of the opening-range strategy: the closed 15-minute
    windows of the 24 frozen candidates, their features under a 38-digit
    context, the stable ranking and the member decisions, and the snapshot with
    its digests. *)

From Stdlib Require Import QArith.
From S2P Require Import Prelude PyString Sha256 PyDecimal DecimalContext Identities Ticket.
From S2P Require Import StrategyRegistry Universe Signal Market Detector Episode.
#[local] Open Scope Z_scope.

Definition INTERVAL_MS : Z := 900000.
Definition HOUR_MS : Z := 3600000.
Definition DAY_MS : Z := 86400000.
Definition ACTIVITY_FLOOR_QUOTE_USDT : Decimal := of_int 20000000.

Definition SOR_STRATEGY_GROUP_ID : str := "SOR-001".
Definition SOR_STRATEGY_VERSION_ID : str := "sgv:SOR-001:v4".
Definition SOR_EVENT_SPEC_IDS : list str :=
  ["event_spec:SOR-001:SOR-LONG:v4"; "event_spec:SOR-001:SOR-SHORT:v4"].

Definition FROZEN_CANDIDATE_SYMBOLS : list str :=
  ["BTCUSDT"; "ETHUSDT"; "BNBUSDT"; "SOLUSDT"; "XRPUSDT"; "DOGEUSDT"; "ADAUSDT"; "AVAXUSDT";
   "LINKUSDT"; "LTCUSDT"; "BCHUSDT"; "DOTUSDT"; "NEARUSDT"; "ATOMUSDT"; "FILUSDT"; "ETCUSDT";
   "APTUSDT"; "OPUSDT"; "ARBUSDT"; "INJUSDT"; "SUIUSDT"; "TRXUSDT"; "UNIUSDT"; "RUNEUSDT"].
Definition FROZEN_CANDIDATE_EXCHANGE_INSTRUMENT_IDS : list str :=
  (λ symbol, "binance-usdm:" +:+ symbol +:+ ":perpetual") <$> FROZEN_CANDIDATE_SYMBOLS.
Definition CANONICAL_CANDIDATE_EXCHANGE_INSTRUMENT_IDS : list str :=
  sorted FROZEN_CANDIDATE_EXCHANGE_INSTRUMENT_IDS.

Inductive SelectionMemberState := INELIGIBLE | MEMBER_SELECTED | NEAR_THRESHOLD | NOT_SELECTED.
#[export] Instance SelectionMemberState_eq_dec : EqDecision SelectionMemberState.
Proof. solve_decision. Defined.
Definition member_state_value (s : SelectionMemberState) : str :=
  match s with
  | INELIGIBLE => "INELIGIBLE"
  | MEMBER_SELECTED => "SELECTED"
  | NEAR_THRESHOLD => "NEAR_THRESHOLD"
  | NOT_SELECTED => "NOT_SELECTED"
  end.

Inductive SelectionMemberReason := INVALID_OR_GEOMETRY | INVALID_ATR | LOW_ACTIVITY.
#[export] Instance SelectionMemberReason_eq_dec : EqDecision SelectionMemberReason.
Proof. solve_decision. Defined.
Definition member_reason_value (r : SelectionMemberReason) : str :=
  match r with
  | INVALID_OR_GEOMETRY => "INVALID_OR_GEOMETRY"
  | INVALID_ATR => "INVALID_ATR"
  | LOW_ACTIVITY => "LOW_ACTIVITY"
  end.

(** [_canonical_decimal] and [_semantic_digest] *)
Definition selection_decimal (d : Decimal) : JsonValue := JStr (canonical_at DECIMAL_PRECISION d).
Definition selection_digest (v : JsonValue) : str := json_digest false v.

(** [_require_sha256]: [int(..., 16)] decides about the digits. *)
Definition sha256_shaped (s : str) : bool :=
  (len s =? 71) && startswith s "sha256:"
  && parses_base_16 (String.substring 7 (String.length s - 7) s).

(** ** Source windows *)

Record SelectionKline := mkKline {
  kl_open_time_ms : Z;
  kl_close_time_ms : Z;
  kl_open : Decimal;
  kl_high : Decimal;
  kl_low : Decimal;
  kl_close : Decimal;
  kl_quote_volume : Decimal
}.

Definition kline_checks (k : SelectionKline) : list (bool * str) :=
  [((kl_open_time_ms k <=? 0) || negb (kl_open_time_ms k mod INTERVAL_MS =? 0),
    "Selection Kline open time must be an exact 15m boundary");
   (negb (kl_close_time_ms k =? kl_open_time_ms k + INTERVAL_MS),
    "Selection Kline close time must use the exclusive boundary");
   (existsb nonpositive [kl_open k; kl_high k; kl_low k; kl_close k],
    "Selection Kline OHLC must be finite and positive");
   (negative (kl_quote_volume k), "Selection Kline quote volume must be finite and nonnegative");
   ((kl_high k <? dmax (dmax (kl_open k) (kl_close k)) (kl_low k))%dec,
    "Selection Kline high is inconsistent with OHLC");
   ((kl_low k >? dmin (dmin (kl_open k) (kl_close k)) (kl_high k))%dec,
    "Selection Kline low is inconsistent with OHLC")].

Definition validate_SelectionKline (k : SelectionKline) : result SelectionKline :=
  validate_model (kline_checks k);; mret k.

Record SelectionSourceWindow := mkWindow {
  sw_exchange_instrument_id : str;
  sw_input_window_start_ms : Z;
  sw_feature_cutoff_at_ms : Z;
  sw_klines : list SelectionKline
}.

(** Whether [parse_binance_usdm_instrument_id] refuses the name. *)
Definition foreign_instrument (s : str) : bool :=
  match parse_binance_usdm_instrument_id s with Ok _ => false | Raise _ => true end.

(** The [RuntimeError] of the model validator is not a pydantic error. *)
Definition source_checks (w : SelectionSourceWindow) : list (bool * str) :=
  let times := kl_open_time_ms <$> sw_klines w in
  [(negb (length (sw_klines w) =? 96)%nat, "Selection source requires exact 96 closed 15m Klines");
   (existsb (λ k, sw_feature_cutoff_at_ms w <? kl_close_time_ms k) (sw_klines w),
    "Selection source contains a future or open Kline");
   (negb (bool_decide (times
       = (λ i : nat, sw_input_window_start_ms w + Z.of_nat i * INTERVAL_MS) <$> seq 0 96))
    || negb (bool_decide (NoDup times)), "Selection source Klines must be unique and continuous");
   (match last (sw_klines w) with
    | Some k => negb (kl_close_time_ms k =? sw_feature_cutoff_at_ms w)
    | None => true
    end, "Selection source requires exact closed Klines at feature cutoff")].

(** The first failing check, raised as [SelectionSourceIntegrityError]. *)
Fixpoint require_source (checks : list (bool * str)) : result unit :=
  match checks with
  | [] => mret tt
  | (true, msg) :: _ => Raise (SelectionSourceIntegrityError msg)
  | (false, _) :: checks => require_source checks
  end.

Definition validate_SelectionSourceWindow (w : SelectionSourceWindow) : result SelectionSourceWindow :=
  validate_fields
    [(foreign_instrument (strip (sw_exchange_instrument_id w)),
      "instrument id must be canonical Binance USD-M USDT perpetual")];;
  let w := mkWindow (strip (sw_exchange_instrument_id w)) (sw_input_window_start_ms w)
             (sw_feature_cutoff_at_ms w) (sw_klines w) in
  require_source (source_checks w);;
  mret w.

(** [input_window_digest] *)
Definition input_window_digest (w : SelectionSourceWindow) : str :=
  selection_digest
    (JList ((λ k, JList [JInt (kl_open_time_ms k); selection_decimal (kl_open k);
                         selection_decimal (kl_high k); selection_decimal (kl_low k);
                         selection_decimal (kl_close k); selection_decimal (kl_quote_volume k)])
              <$> sw_klines w)).

(** ** Period and specification *)

Record SelectionPeriod := mkSelectionPeriod {
  sp_session_start_ms : Z;
  sp_decision_boundary_ms : Z;
  sp_feature_cutoff_at_ms : Z;
  sp_eligibility_not_before_ms : Z;
  sp_expires_at_ms : Z
}.

Definition selection_period_checks (p : SelectionPeriod) : list (bool * str) :=
  [((sp_session_start_ms p <=? 0) || negb (sp_session_start_ms p mod DAY_MS =? 0),
    "SOR session identity must be exact 00:00 UTC");
   (negb (sp_decision_boundary_ms p =? sp_session_start_ms p + HOUR_MS),
    "Selection Period must start at the 01:00 UTC decision boundary");
   (negb (sp_feature_cutoff_at_ms p =? sp_decision_boundary_ms p),
    "feature cutoff must equal the Selection decision boundary");
   (negb (sp_eligibility_not_before_ms p =? sp_session_start_ms p + 5 * INTERVAL_MS),
    "first SOR eligibility must be the canonical 01:15 close");
   (negb (sp_expires_at_ms p =? sp_session_start_ms p + DAY_MS + HOUR_MS),
    "Selection Period must expire at the next decision boundary")].

Definition validate_SelectionPeriod (p : SelectionPeriod) : result SelectionPeriod :=
  validate_model (selection_period_checks p);; mret p.

Definition build_sor_dynamic_selection_period (session_start_ms : Z) : result SelectionPeriod :=
  validate_SelectionPeriod
    (mkSelectionPeriod session_start_ms (session_start_ms + HOUR_MS) (session_start_ms + HOUR_MS)
       (session_start_ms + 5 * INTERVAL_MS) (session_start_ms + DAY_MS + HOUR_MS)).

(** [_algorithm_semantic_digest] *)
Definition algorithm_semantic_digest : str :=
  selection_digest (JObj
    [("research_spec_id", JStr "sor-dynamic-selection-v0");
     ("strategy_group_id", JStr SOR_STRATEGY_GROUP_ID);
     ("strategy_version_id", JStr SOR_STRATEGY_VERSION_ID);
     ("event_spec_ids", JList (JStr <$> SOR_EVENT_SPEC_IDS));
     ("candidate_exchange_instrument_ids", JList (JStr <$> FROZEN_CANDIDATE_EXCHANGE_INSTRUMENT_IDS));
     ("selection_timezone", JStr "UTC");
     ("selection_time", JStr "01:00:00");
     ("feature_cutoff_offset_ms", JInt HOUR_MS);
     ("eligibility_not_before_offset_ms", JInt (5 * INTERVAL_MS));
     ("expires_offset_ms", JInt (DAY_MS + HOUR_MS));
     ("input_window_bars", JInt 96);
     ("or_bars", JInt 4);
     ("pre_or_atr_bars", JInt 14);
     ("activity_floor_quote_usdt", JStr "20000000");
     ("ranking", JList (JStr <$> ["pre_or_width_atr14:asc"; "trailing_24h_quote_volume:desc";
                                  "exchange_instrument_id:asc"]));
     ("selected_cap", JInt 7);
     ("near_rank_start", JInt 8);
     ("near_rank_end", JInt 14);
     ("decimal_context", JObj [("precision", JInt DECIMAL_PRECISION); ("rounding", JStr "ROUND_HALF_EVEN")]);
     ("feature_numeric_type", JStr "decimal.Decimal");
     ("canonical_decimal", JStr "normalize; zero='0'; fixed-point; no exponent");
     ("digest_serialization", JStr "utf8-json; sort_keys=true; separators=(',', ':')")]).

(** [decimal_rounding] has the single value "ROUND_HALF_EVEN". *)
Record SorDynamicSelectionSpecV0 := mkSorSpec {
  ss_selection_spec_id : str;
  ss_strategy_group_id : str;
  ss_strategy_version_id : str;
  ss_event_spec_ids : list str;
  ss_candidate_exchange_instrument_ids : list str;
  ss_decision_offset_utc_seconds : Z;
  ss_feature_cutoff_offset_utc_seconds : Z;
  ss_eligibility_not_before_offset_utc_seconds : Z;
  ss_valid_until_next_decision_offset_seconds : Z;
  ss_input_window_bars : Z;
  ss_opening_range_bars : Z;
  ss_pre_or_atr_bars : Z;
  ss_activity_floor_quote_usdt : Decimal;
  ss_selected_count_max : Z;
  ss_near_count_max : Z;
  ss_decimal_precision : Z;
  ss_algorithm_semantic_digest : str;
  ss_installed_at_ms : Z
}.

Definition sor_spec_checks (s : SorDynamicSelectionSpecV0) : list (bool * str) :=
  [(negb (bool_decide (ss_strategy_group_id s = SOR_STRATEGY_GROUP_ID)),
    "SOR Dynamic Selection V0 requires exact StrategyGroup");
   (negb (bool_decide (ss_strategy_version_id s = SOR_STRATEGY_VERSION_ID)),
    "SOR Dynamic Selection V0 requires exact StrategyVersion");
   (negb (bool_decide (ss_event_spec_ids s = SOR_EVENT_SPEC_IDS)),
    "selection spec requires exact LONG and SHORT EventSpecs");
   (negb (length (ss_candidate_exchange_instrument_ids s) =? 24)%nat
    || negb (bool_decide (ss_candidate_exchange_instrument_ids s
                          = CANONICAL_CANDIDATE_EXCHANGE_INSTRUMENT_IDS)),
    "selection spec requires exact 24 canonical candidates");
   (existsb foreign_instrument (ss_candidate_exchange_instrument_ids s),
    "instrument id must be canonical Binance USD-M USDT perpetual");
   (negb (ss_activity_floor_quote_usdt s =? ACTIVITY_FLOOR_QUOTE_USDT)%dec,
    "selection activity floor must remain frozen at 20M USDT");
   (negb (bool_decide
      ([ss_decision_offset_utc_seconds s; ss_feature_cutoff_offset_utc_seconds s;
        ss_eligibility_not_before_offset_utc_seconds s;
        ss_valid_until_next_decision_offset_seconds s; ss_input_window_bars s;
        ss_opening_range_bars s; ss_pre_or_atr_bars s; ss_selected_count_max s; ss_near_count_max s;
        ss_decimal_precision s] = [3600; 3600; 4500; 86400; 96; 4; 14; 7; 7; 38])),
    "SOR Dynamic Selection V0 parameters are immutable");
   (negb (bool_decide (ss_algorithm_semantic_digest s = algorithm_semantic_digest)),
    "selection algorithm semantic digest is not canonical");
   (ss_installed_at_ms s <=? 0, "selection spec install time must be positive")].

Definition validate_SorDynamicSelectionSpecV0 (s : SorDynamicSelectionSpecV0)
    : result SorDynamicSelectionSpecV0 :=
  validate_fields
    ((λ v, (blank v, "Selection identity must be non-blank")) <$>
       [ss_selection_spec_id s; ss_strategy_group_id s; ss_strategy_version_id s]);;
  let s := mkSorSpec (strip (ss_selection_spec_id s)) (strip (ss_strategy_group_id s))
             (strip (ss_strategy_version_id s)) (ss_event_spec_ids s)
             (ss_candidate_exchange_instrument_ids s) (ss_decision_offset_utc_seconds s)
             (ss_feature_cutoff_offset_utc_seconds s) (ss_eligibility_not_before_offset_utc_seconds s)
             (ss_valid_until_next_decision_offset_seconds s) (ss_input_window_bars s)
             (ss_opening_range_bars s) (ss_pre_or_atr_bars s) (ss_activity_floor_quote_usdt s)
             (ss_selected_count_max s) (ss_near_count_max s) (ss_decimal_precision s)
             (ss_algorithm_semantic_digest s) (ss_installed_at_ms s) in
  validate_model (sor_spec_checks s);;
  mret s.

(** [build_sor_dynamic_selection_spec_v0] *)
Definition build_sor_dynamic_selection_spec_v0 (selection_spec_id strategy_group_id strategy_version_id : str)
    (event_spec_ids candidate_exchange_instrument_ids : list str) (installed_at_ms : Z)
    : result SorDynamicSelectionSpecV0 :=
  raise_if (negb (length candidate_exchange_instrument_ids =? 24)%nat)
    (ValueError "selection spec requires exact 24 canonical candidates");;
  validate_SorDynamicSelectionSpecV0
    (mkSorSpec selection_spec_id strategy_group_id strategy_version_id (sorted event_spec_ids)
       (sorted candidate_exchange_instrument_ids) 3600 3600 4500 86400 96 4 14
       ACTIVITY_FLOOR_QUOTE_USDT 7 7 DECIMAL_PRECISION algorithm_semantic_digest installed_at_ms).

(** ** Member decisions

    [source_status] has the single value "READY". *)

Record SelectionMemberDecision := mkMemberDecision {
  sm_selection_snapshot_id : str;
  sm_member_decision_id : str;
  sm_selection_spec_id : str;
  sm_session_start_ms : Z;
  sm_feature_cutoff_at_ms : Z;
  sm_input_window_start_ms : Z;
  sm_input_window_end_ms : Z;
  sm_exchange_instrument_id : str;
  sm_input_window_digest : str;
  sm_or_high : Decimal;
  sm_or_low : Decimal;
  sm_or_width : Decimal;
  sm_pre_or_atr14 : Decimal;
  sm_pre_or_width_atr14 : Decimal;
  sm_trailing_24h_quote_volume : Decimal;
  sm_or_geometry_valid : bool;
  sm_atr_valid : bool;
  sm_activity_valid : bool;
  sm_selection_ready : bool;
  sm_primary_reason : option SelectionMemberReason;
  sm_secondary_reasons : list SelectionMemberReason;
  sm_stable_rank : option Z;
  sm_member_state : SelectionMemberState;
  sm_selected : bool;
  sm_member_semantic_digest : str
}.

(** [_primary_reason] *)
Definition primary_reason (or_geometry_valid atr_valid activity_valid : bool)
    : option SelectionMemberReason :=
  if negb or_geometry_valid then Some INVALID_OR_GEOMETRY
  else if negb atr_valid then Some INVALID_ATR
  else if negb activity_valid then Some LOW_ACTIVITY
  else None.

(** [Decimal(0) if atr <= 0 else width / atr], under the context. *)
Definition width_ratio (or_width pre_or_atr14 : Decimal) : result Decimal :=
  if (pre_or_atr14 <=? d0)%dec then mret d0 else div_at DECIMAL_PRECISION or_width pre_or_atr14.

Definition lower_bool (b : bool) : str := if b then "true" else "false".

(** [_member_semantic_digest_payload]: every value as text. *)
Definition member_semantic_digest (m : SelectionMemberDecision) : result str :=
  identity ← parse_binance_usdm_instrument_id (sm_exchange_instrument_id m);
  mret (selection_digest (JObj
    [("selection_snapshot_id", JStr (sm_selection_snapshot_id m));
     ("member_decision_id", JStr (sm_member_decision_id m));
     ("selection_spec_id", JStr (sm_selection_spec_id m));
     ("session_start_ms", JStr (string_of_Z (sm_session_start_ms m)));
     ("feature_cutoff_at_ms", JStr (string_of_Z (sm_feature_cutoff_at_ms m)));
     ("input_window_start_ms", JStr (string_of_Z (sm_input_window_start_ms m)));
     ("input_window_end_ms", JStr (string_of_Z (sm_input_window_end_ms m)));
     ("exchange_instrument_id", JStr (sm_exchange_instrument_id m));
     ("symbol", JStr (bi_symbol identity));
     ("input_window_digest", JStr (sm_input_window_digest m));
     ("source_status", JStr "READY");
     ("or_high", selection_decimal (sm_or_high m));
     ("or_low", selection_decimal (sm_or_low m));
     ("or_width", selection_decimal (sm_or_width m));
     ("pre_or_atr14", selection_decimal (sm_pre_or_atr14 m));
     ("pre_or_width_atr14", selection_decimal (sm_pre_or_width_atr14 m));
     ("trailing_24h_quote_volume", selection_decimal (sm_trailing_24h_quote_volume m));
     ("or_geometry_valid", JStr (lower_bool (sm_or_geometry_valid m)));
     ("atr_valid", JStr (lower_bool (sm_atr_valid m)));
     ("activity_valid", JStr (lower_bool (sm_activity_valid m)));
     ("selection_ready", JStr (lower_bool (sm_selection_ready m)));
     ("primary_reason", JStr (match sm_primary_reason m with
                              | None => EmptyString | Some r => member_reason_value r end));
     ("secondary_reasons_json", JStr "[]");
     ("stable_rank", JStr (match sm_stable_rank m with
                           | None => EmptyString | Some r => string_of_Z r end));
     ("member_state", JStr (member_state_value (sm_member_state m)));
     ("selected", JStr (lower_bool (sm_selected m)))])).

(** [_validate_rank_state_contract] *)
Definition rank_state_checks (m : SelectionMemberDecision) : list (bool * str) :=
  let rank := sm_stable_rank m in
  let within a b := match rank with Some r => (a <=? r) && (r <=? b) | None => false end in
  if negb (sm_selection_ready m) then
    [(is_none (sm_primary_reason m), "ineligible member requires one reason");
     (negb (is_none rank), "ineligible member cannot have a stable rank");
     (negb (bool_decide (sm_member_state m = INELIGIBLE)), "ineligible member requires INELIGIBLE state");
     (sm_selected m, "ineligible member cannot be selected")]
  else
    [(negb (is_none (sm_primary_reason m)), "selection-ready member cannot have an ineligible reason");
     (negb (within 1 24), "selection-ready member requires rank 1 through 24")] ++
    match sm_member_state m with
    | MEMBER_SELECTED =>
        [(negb (within 1 7), "selected member requires rank 1 through 7");
         (negb (sm_selected m), "SELECTED state requires selected=true")]
    | NEAR_THRESHOLD =>
        [(negb (within 8 14), "near-threshold member requires rank 8 through 14");
         (sm_selected m, "non-selected rank state requires selected=false")]
    | NOT_SELECTED =>
        [(negb (within 15 24), "not-selected member requires rank 15 or later");
         (sm_selected m, "non-selected rank state requires selected=false")]
    | INELIGIBLE => [(true, "selection-ready member cannot use INELIGIBLE state")]
    end.

Definition member_identity_checks (m : SelectionMemberDecision) : list (bool * str) :=
  [(foreign_instrument (sm_exchange_instrument_id m),
    "instrument id must be canonical Binance USD-M USDT perpetual");
   ((sm_session_start_ms m <=? 0) || negb (sm_session_start_ms m mod DAY_MS =? 0),
    "Selection member session must be exact 00:00 UTC");
   (negb (sm_feature_cutoff_at_ms m =? sm_session_start_ms m + HOUR_MS),
    "Selection member cutoff must be exact 01:00 UTC");
   (negb (sm_input_window_start_ms m =? sm_session_start_ms m - 23 * HOUR_MS),
    "Selection member requires the exact 96-bar input start");
   (negb (sm_input_window_end_ms m =? sm_feature_cutoff_at_ms m),
    "Selection member input window must end at feature cutoff");
   (negb (bool_decide (sm_member_decision_id m
       = sm_selection_snapshot_id m +:+ ":" +:+ sm_exchange_instrument_id m)),
    "Selection member decision identity is not canonical");
   (nonpositive (sm_or_high m) || nonpositive (sm_or_low m), "Selection member OR prices must be positive");
   (negative (sm_pre_or_atr14 m) || negative (sm_trailing_24h_quote_volume m),
    "Selection member ATR and activity must be nonnegative")].

Definition member_qualification_checks (m : SelectionMemberDecision) (expected_ratio : Decimal)
    : list (bool * str) :=
  let geometry := (sm_or_high m >? sm_or_low m)%dec in
  let atr := (sm_pre_or_atr14 m >? d0)%dec in
  let activity := (sm_trailing_24h_quote_volume m >=? ACTIVITY_FLOOR_QUOTE_USDT)%dec in
  let reason := primary_reason geometry atr activity in
  [(negb (sm_or_width m =? sub_at DECIMAL_PRECISION (sm_or_high m) (sm_or_low m))%dec
    || negb (sm_pre_or_width_atr14 m =? expected_ratio)%dec,
    "Selection member Decimal geometry is not canonical");
   (negb (Bool.eqb (sm_or_geometry_valid m) geometry) || negb (Bool.eqb (sm_atr_valid m) atr)
    || negb (Bool.eqb (sm_activity_valid m) activity),
    "Selection member qualification booleans are not canonical");
   (bool_decide (sm_member_state m = INELIGIBLE) && is_none (sm_primary_reason m),
    "ineligible member requires one reason");
   (negb (bool_decide (sm_primary_reason m = reason)),
    "Selection member primary reason is not canonical");
   (match sm_secondary_reasons m with [] => false | _ => true end,
    "SOR Dynamic Selection V0 has no secondary member reasons");
   (negb (Bool.eqb (sm_selection_ready m) (is_none reason)),
    "Selection member readiness is not canonical")].

Definition validate_SelectionMemberDecision (m : SelectionMemberDecision)
    : result SelectionMemberDecision :=
  validate_fields
    (((λ v, (blank v, "Selection member identity must be non-blank")) <$>
        [sm_selection_snapshot_id m; sm_member_decision_id m; sm_selection_spec_id m;
         sm_exchange_instrument_id m]) ++
     ((λ v, (negb (sha256_shaped v), "Selection digest must be canonical sha256")) <$>
        [sm_input_window_digest m; sm_member_semantic_digest m]));;
  let m := mkMemberDecision (strip (sm_selection_snapshot_id m)) (strip (sm_member_decision_id m))
             (strip (sm_selection_spec_id m)) (sm_session_start_ms m) (sm_feature_cutoff_at_ms m)
             (sm_input_window_start_ms m) (sm_input_window_end_ms m)
             (strip (sm_exchange_instrument_id m)) (sm_input_window_digest m) (sm_or_high m)
             (sm_or_low m) (sm_or_width m) (sm_pre_or_atr14 m) (sm_pre_or_width_atr14 m)
             (sm_trailing_24h_quote_volume m) (sm_or_geometry_valid m) (sm_atr_valid m)
             (sm_activity_valid m) (sm_selection_ready m) (sm_primary_reason m)
             (sm_secondary_reasons m) (sm_stable_rank m) (sm_member_state m) (sm_selected m)
             (sm_member_semantic_digest m) in
  validate_model (member_identity_checks m);;
  expected_ratio ←
    width_ratio (sub_at DECIMAL_PRECISION (sm_or_high m) (sm_or_low m)) (sm_pre_or_atr14 m);
  validate_model (member_qualification_checks m expected_ratio);;
  validate_model (rank_state_checks m);;
  digest ← member_semantic_digest m;
  validate_model [(negb (bool_decide (sm_member_semantic_digest m = digest)),
                   "Selection member semantic digest is not canonical")];;
  mret m.


(** ** Snapshots and Selection Jobs *)

Record SelectionSnapshot := mkSelectionSnapshot {
  sn_selection_snapshot_id : str;
  sn_selection_spec_id : str;
  sn_strategy_group_id : str;
  sn_strategy_version_id : str;
  sn_session_start_ms : Z;
  sn_decision_at_ms : Z;
  sn_feature_cutoff_at_ms : Z;
  sn_eligibility_not_before_ms : Z;
  sn_expires_at_ms : Z;
  sn_candidate_count : Z;
  sn_ready_count : Z;
  sn_selected_count : Z;
  sn_source_observed_at_ms : Z;
  sn_source_semantic_digest : str;
  sn_selection_semantic_digest : str;
  sn_created_at_ms : Z
}.

Definition selection_snapshot_id (selection_spec_id : str) (session_start_ms : Z) : str :=
  "selection:" +:+ selection_spec_id +:+ ":" +:+ string_of_Z session_start_ms.

Definition selection_snapshot_checks (s : SelectionSnapshot) : list (bool * str) :=
  [(negb (bool_decide (sn_selection_snapshot_id s
       = selection_snapshot_id (sn_selection_spec_id s) (sn_session_start_ms s))),
    "Selection Snapshot identity is not canonical");
   (negb (sn_candidate_count s =? 24), "Selection Snapshot requires exact 24 candidates");
   (negb ((0 <=? sn_ready_count s) && (sn_ready_count s <=? 24)),
    "Selection Snapshot ready count is invalid");
   (negb (sn_selected_count s =? Z.min 7 (sn_ready_count s)),
    "Selection Snapshot selected count is not canonical");
   (negb (sn_feature_cutoff_at_ms s =? sn_session_start_ms s + HOUR_MS),
    "Selection Snapshot feature cutoff is invalid");
   (negb (sn_eligibility_not_before_ms s =? sn_session_start_ms s + 5 * INTERVAL_MS),
    "Selection Snapshot eligibility time is invalid");
   (negb (sn_expires_at_ms s =? sn_session_start_ms s + DAY_MS + HOUR_MS),
    "Selection Snapshot expiry is invalid");
   (Z.min (Z.min (sn_decision_at_ms s) (sn_source_observed_at_ms s)) (sn_created_at_ms s)
      <? sn_feature_cutoff_at_ms s, "Selection Snapshot cannot precede the feature cutoff")].

Definition validate_SelectionSnapshot (s : SelectionSnapshot) : result SelectionSnapshot :=
  validate_fields
    ((λ v, (negb (sha256_shaped v), "Selection digest must be canonical sha256")) <$>
       [sn_source_semantic_digest s; sn_selection_semantic_digest s]);;
  validate_model (selection_snapshot_checks s);;
  mret s.

Inductive SelectionAttemptOutcome := SNAPSHOT_READY | SOURCE_FAILED | COMPUTE_FAILED.
#[export] Instance SelectionAttemptOutcome_eq_dec : EqDecision SelectionAttemptOutcome.
Proof. solve_decision. Defined.

Record SelectionJobClaim := mkJobClaim {
  jc_selection_job_id : str;
  jc_selection_spec_id : str;
  jc_session_start_ms : Z;
  jc_worker_id : str;
  jc_attempt_number : Z;
  jc_projection_version : Z;
  jc_started_at_ms : Z;
  jc_lease_expires_at_ms : Z
}.

Definition job_claim_checks (c : SelectionJobClaim) : list (bool * str) :=
  [(negb (bool_decide (jc_selection_job_id c
       = "selection-job:" +:+ jc_selection_spec_id c +:+ ":" +:+ string_of_Z (jc_session_start_ms c))),
    "Selection Job identity is not canonical");
   (blank (jc_worker_id c), "Selection Job worker identity must be non-blank");
   ((jc_attempt_number c <=? 0) || (jc_projection_version c <=? 0),
    "Selection Job versions must be positive");
   (jc_lease_expires_at_ms c <=? jc_started_at_ms c, "Selection Job lease must expire after claim")].

Definition validate_SelectionJobClaim (c : SelectionJobClaim) : result SelectionJobClaim :=
  validate_model (job_claim_checks c);; mret c.

(** [outcome] is one of the two failures. *)
Record SelectionJobFailure := mkJobFailure {
  jf_selection_job_id : str;
  jf_outcome : SelectionAttemptOutcome;
  jf_reason_code : str
}.

Definition validate_SelectionJobFailure (f : SelectionJobFailure) : result SelectionJobFailure :=
  validate_fields
    (((λ v, (blank v, "Selection terminal failure facts must be non-blank")) <$>
        [jf_selection_job_id f; jf_reason_code f]) ++
     [(bool_decide (jf_outcome f = SNAPSHOT_READY), "Input should be 'SOURCE_FAILED' or 'COMPUTE_FAILED'")]);;
  mret (mkJobFailure (strip (jf_selection_job_id f)) (jf_outcome f) (strip (jf_reason_code f))).

(** ** The member decisions of one panel *)

Definition build_selection_member_decision
    (selection_snapshot_id selection_spec_id : str)
    (session_start_ms feature_cutoff_at_ms input_window_start_ms : Z)
    (exchange_instrument_id input_window_digest : str)
    (or_high or_low pre_or_atr14 trailing_24h_quote_volume : Decimal)
    (stable_rank : option Z) (member_state : SelectionMemberState)
    (primary_reason : option SelectionMemberReason) : result SelectionMemberDecision :=
  let or_width := sub_at DECIMAL_PRECISION or_high or_low in
  pre_or_width_atr14 ← width_ratio or_width pre_or_atr14;
  let or_geometry_valid := (or_high >? or_low)%dec in
  let atr_valid := (pre_or_atr14 >? d0)%dec in
  let activity_valid := (trailing_24h_quote_volume >=? ACTIVITY_FLOOR_QUOTE_USDT)%dec in
  let decision := mkMemberDecision selection_snapshot_id
    (selection_snapshot_id +:+ ":" +:+ exchange_instrument_id) selection_spec_id session_start_ms
    feature_cutoff_at_ms input_window_start_ms feature_cutoff_at_ms exchange_instrument_id
    input_window_digest or_high or_low or_width pre_or_atr14 pre_or_width_atr14
    trailing_24h_quote_volume or_geometry_valid atr_valid activity_valid
    (or_geometry_valid && atr_valid && activity_valid) primary_reason [] stable_rank member_state
    (bool_decide (member_state = MEMBER_SELECTED)) in
  digest ← member_semantic_digest (decision EmptyString);
  validate_SelectionMemberDecision (decision digest).

Record OpeningRangeSelectionFeatures := mkFeatures {
  of_window : SelectionSourceWindow;
  of_or_high : Decimal;
  of_or_low : Decimal;
  of_pre_or_atr14 : Decimal;
  of_ratio : Decimal;
  of_trailing_volume : Decimal;
  of_reason : option SelectionMemberReason
}.

(** The true ranges of [bars], the first against [previous_close]. *)
Fixpoint opening_true_ranges (previous_close : Decimal) (bars : list SelectionKline) : list Decimal :=
  match bars with
  | [] => []
  | bar :: bars =>
      dmax (dmax (sub_at DECIMAL_PRECISION (kl_high bar) (kl_low bar))
                 (abs_at DECIMAL_PRECISION (sub_at DECIMAL_PRECISION (kl_high bar) previous_close)))
           (abs_at DECIMAL_PRECISION (sub_at DECIMAL_PRECISION (kl_low bar) previous_close))
      :: opening_true_ranges (kl_close bar) bars
  end.

(** The body of the loop over [source_windows]. *)
Definition opening_range_features (w : SelectionSourceWindow) : result OpeningRangeSelectionFeatures :=
  match sw_klines w !! 77%nat with
  | None => Raise (IndexError "tuple index out of range")
  | Some bar =>
      let true_ranges := opening_true_ranges (kl_close bar) (take 14 (drop 78 (sw_klines w))) in
      let or_bars := take 4 (drop 92 (sw_klines w)) in
      or_high ← py_max (kl_high <$> or_bars);
      or_low ← py_min (kl_low <$> or_bars);
      let or_width := sub_at DECIMAL_PRECISION or_high or_low in
      pre_or_atr14 ← div_at DECIMAL_PRECISION (sum_at DECIMAL_PRECISION true_ranges) (of_int 14);
      let trailing_volume := sum_at DECIMAL_PRECISION (kl_quote_volume <$> sw_klines w) in
      let reason := primary_reason (or_high >? or_low)%dec (pre_or_atr14 >? d0)%dec
                      (trailing_volume >=? ACTIVITY_FLOOR_QUOTE_USDT)%dec in
      ratio ← width_ratio or_width pre_or_atr14;
      mret (mkFeatures w or_high or_low pre_or_atr14 ratio trailing_volume reason)
  end.

(** A Python dict: the keys in the order of their first insertion. *)
Fixpoint dict_insert {A} (k : str) (v : A) (d : list (str * A)) : list (str * A) :=
  match d with
  | [] => [(k, v)]
  | (k', v') :: d => if bool_decide (k' = k) then (k, v) :: d else (k', v') :: dict_insert k v d
  end.

Fixpoint dict_get {A} (k : str) (d : list (str * A)) : option A :=
  match d with
  | [] => None
  | (k', v) :: d => if bool_decide (k' = k) then Some v else dict_get k d
  end.

Definition opening_range_table (source_windows : list SelectionSourceWindow)
    : result (list (str * OpeningRangeSelectionFeatures)) :=
  fold_result (λ features w,
      feature ← opening_range_features w;
      mret (dict_insert (sw_exchange_instrument_id w) feature features))
    [] source_windows.

(** The key of the ranking: the ratio, the negated volume, the identity. *)
Definition ranks_before (a b : str * OpeningRangeSelectionFeatures) : bool :=
  let ra := of_ratio a.2 in let rb := of_ratio b.2 in
  let va := neg_at DECIMAL_PRECISION (of_trailing_volume a.2) in
  let vb := neg_at DECIMAL_PRECISION (of_trailing_volume b.2) in
  (ra <? rb)%dec || ((ra =? rb)%dec && ((va <? vb)%dec || ((va =? vb)%dec && String.leb a.1 b.1))).

(** [ready_ids] *)
Definition ready_ids (features : list (str * OpeningRangeSelectionFeatures)) : list str :=
  (sort_by ranks_before (filter (λ f, is_none (of_reason f.2)) features)).*1.

(** [enumerate(ids, start=...)] as a dict, read at [k]. *)
Fixpoint rank_from (start : Z) (ids : list str) (k : str) : option Z :=
  match ids with
  | [] => None
  | i :: ids => if bool_decide (i = k) then Some start else rank_from (start + 1) ids k
  end.

Definition member_state_of (reason : option SelectionMemberReason) (rank : option Z)
    : SelectionMemberState :=
  match reason, rank with
  | Some _, _ => INELIGIBLE
  | None, Some r => if r <=? 7 then MEMBER_SELECTED else if r <=? 7 + 7 then NEAR_THRESHOLD else NOT_SELECTED
  | None, None => NOT_SELECTED
  end.

Definition member_decision (snapshot_id selection_spec_id : str)
    (session_start_ms feature_cutoff_at_ms : Z)
    (features : list (str * OpeningRangeSelectionFeatures)) (ready : list str) (instrument_id : str)
    : result SelectionMemberDecision :=
  match dict_get instrument_id features with
  | None => Raise (KeyError instrument_id)
  | Some f =>
      let rank := rank_from 1 ready instrument_id in
      build_selection_member_decision snapshot_id selection_spec_id session_start_ms
        feature_cutoff_at_ms (sw_input_window_start_ms (of_window f)) instrument_id
        (input_window_digest (of_window f)) (of_or_high f) (of_or_low f) (of_pre_or_atr14 f)
        (of_trailing_volume f) rank (member_state_of (of_reason f) rank) (of_reason f)
  end.

Definition compute_opening_range_member_decisions (source_windows : list SelectionSourceWindow)
    (selection_snapshot_id selection_spec_id : str) (session_start_ms feature_cutoff_at_ms : Z)
    : result (list SelectionMemberDecision * Z) :=
  features ← opening_range_table source_windows;
  let ready := ready_ids features in
  decisions ← map_result
    (member_decision selection_snapshot_id selection_spec_id session_start_ms feature_cutoff_at_ms
       features ready) CANONICAL_CANDIDATE_EXCHANGE_INSTRUMENT_IDS;
  mret (decisions, Z.of_nat (length ready)).

(** ** The daily run *)

Record SelectionComputation := mkComputation {
  co_snapshot : SelectionSnapshot;
  co_member_decisions : list SelectionMemberDecision
}.

Definition computation_checks (c : SelectionComputation) : list (bool * str) :=
  let s := co_snapshot c in
  let ids := sm_exchange_instrument_id <$> co_member_decisions c in
  [(negb (Z.of_nat (length (co_member_decisions c)) =? sn_candidate_count s),
    "Selection computation requires exact member cardinality");
   (negb (bool_decide (ids = sorted ids)), "Selection member decisions must use canonical order");
   (existsb (λ m,
      negb (bool_decide (sm_selection_snapshot_id m = sn_selection_snapshot_id s))
      || negb (bool_decide (sm_selection_spec_id m = sn_selection_spec_id s))
      || negb (sm_session_start_ms m =? sn_session_start_ms s)) (co_member_decisions c),
    "Selection member lineage differs from Snapshot")].

Definition validate_SelectionComputation (c : SelectionComputation) : result SelectionComputation :=
  validate_model (computation_checks c);; mret c.

(** [source_digest] *)
Definition source_semantic_digest (decisions : list SelectionMemberDecision) : str :=
  selection_digest
    (JList ((λ d, JList [JStr (sm_exchange_instrument_id d); JStr (sm_input_window_digest d)])
              <$> decisions)).

(** The guards over the whole panel. *)
Definition panel_checks (spec : SorDynamicSelectionSpecV0) (period : SelectionPeriod)
    (source_windows : list SelectionSourceWindow) : list (bool * str) :=
  let actual := sorted (sw_exchange_instrument_id <$> source_windows) in
  [(negb (length source_windows =? 24)%nat
    || negb (bool_decide (actual = ss_candidate_exchange_instrument_ids spec)),
    "Selection source requires exact 24 canonical Candidate windows");
   (negb (bool_decide (NoDup actual)),
    "Selection source requires exact 24 unique Candidate windows");
   (existsb (λ w,
      negb (sw_input_window_start_ms w =? sp_session_start_ms period - 23 * HOUR_MS)
      || negb (sw_feature_cutoff_at_ms w =? sp_feature_cutoff_at_ms period)) source_windows,
    "Selection source window identity differs from Selection Period")].

Definition computation_digest (spec : SorDynamicSelectionSpecV0) (period : SelectionPeriod)
    (decisions : list SelectionMemberDecision) (ready_count selected_count : Z) : str :=
  selection_digest (JObj
    [("selection_spec_digest", JStr (ss_algorithm_semantic_digest spec));
     ("selection_spec_id", JStr (ss_selection_spec_id spec));
     ("session_start_ms", JInt (sp_session_start_ms period));
     ("feature_cutoff_at_ms", JInt (sp_feature_cutoff_at_ms period));
     ("eligibility_not_before_ms", JInt (sp_eligibility_not_before_ms period));
     ("expires_at_ms", JInt (sp_expires_at_ms period));
     ("candidate_count", JInt (Z.of_nat (length decisions)));
     ("ready_count", JInt ready_count);
     ("selected_count", JInt selected_count);
     ("source_semantic_digest", JStr (source_semantic_digest decisions));
     ("member_semantic_digests", JList (JStr <$> (sm_member_semantic_digest <$> decisions)))]).

Definition run_sor_dynamic_selection_v0 (spec : SorDynamicSelectionSpecV0) (period : SelectionPeriod)
    (source_windows : list SelectionSourceWindow)
    (decision_at_ms source_observed_at_ms created_at_ms : Z) : result SelectionComputation :=
  require_source (panel_checks spec period source_windows);;
  let snapshot_id := selection_snapshot_id (ss_selection_spec_id spec) (sp_session_start_ms period) in
  '(decisions, ready_count) ←
    compute_opening_range_member_decisions source_windows snapshot_id (ss_selection_spec_id spec)
      (sp_session_start_ms period) (sp_feature_cutoff_at_ms period);
  let selected_count := Z.min (ss_selected_count_max spec) ready_count in
  snapshot ← validate_SelectionSnapshot
    (mkSelectionSnapshot snapshot_id (ss_selection_spec_id spec) (ss_strategy_group_id spec)
       (ss_strategy_version_id spec) (sp_session_start_ms period) decision_at_ms
       (sp_feature_cutoff_at_ms period) (sp_eligibility_not_before_ms period)
       (sp_expires_at_ms period) (Z.of_nat (length decisions)) ready_count selected_count
       source_observed_at_ms (source_semantic_digest decisions)
       (computation_digest spec period decisions ready_count selected_count) created_at_ms);
  validate_SelectionComputation (mkComputation snapshot decisions).
