(* ===== verification/OrbSelection.v ===== *)
(** * The hourly opening-range session ([domain/orb_session_selection.py])

    The independent identities and daily clocks of the hourly strategy, its
    selection over the shared member decisions, and the frozen static baseline
    it rolls back to. *)

From S2P Require Import Prelude PyString Sha256 PyDecimal DecimalContext Identities CrossMarginStress.
From S2P Require Import Selection.
#[local] Open Scope Z_scope.

Definition ORB_STRATEGY_GROUP_ID : str := "SOR-1H-001".
Definition ORB_STRATEGY_VERSION_ID : str := "sgv:SOR-1H-001:v1".
Definition ORB_LONG_EVENT_SPEC_ID : str := "event_spec:SOR-1H-001:SOR-1H-LONG:v1".
Definition ORB_SHORT_EVENT_SPEC_ID : str := "event_spec:SOR-1H-001:SOR-1H-SHORT:v1".
Definition ORB_EVENT_SPEC_IDS : list str := [ORB_LONG_EVENT_SPEC_ID; ORB_SHORT_EVENT_SPEC_ID].
Definition ORB_SELECTION_SPEC_ID : str := "SOR_1H_OR_ATR_DYNAMIC_V1".
Definition ORB_SELECTION_KIND : str := "orb_session_dynamic_v1".
Definition ORB_STATIC_MEMBERS : list str :=
  sorted ((λ s, "binance-usdm:" +:+ s +:+ "USDT:perpetual") <$>
            ["BTC"; "ETH"; "BNB"; "SOL"; "XRP"; "DOGE"; "ADA"]).

(** The other fields of the specification have one value each. *)
Record OrbSessionSelectionSpec := mkOrbSpec {
  os_event_spec_ids : list str;
  os_candidate_ids : list str
}.

Definition validate_OrbSessionSelectionSpec (s : OrbSessionSelectionSpec) : result OrbSessionSelectionSpec :=
  validate_model
    [(negb (bool_decide (os_event_spec_ids s = ORB_EVENT_SPEC_IDS))
      || negb (bool_decide (os_candidate_ids s = CANONICAL_CANDIDATE_EXCHANGE_INSTRUMENT_IDS)),
      "hourly ORB requires exact independent Events and canonical Candidate24")];;
  mret s.

(** [spec.model_dump(mode="json")] *)
Definition orb_spec_json (s : OrbSessionSelectionSpec) : JsonValue :=
  JObj
    [("selection_spec_id", JStr ORB_SELECTION_SPEC_ID);
     ("strategy_group_id", JStr ORB_STRATEGY_GROUP_ID);
     ("strategy_version_id", JStr ORB_STRATEGY_VERSION_ID);
     ("selection_kind", JStr ORB_SELECTION_KIND);
     ("event_spec_ids", JList (JStr <$> os_event_spec_ids s));
     ("candidate_ids", JList (JStr <$> os_candidate_ids s));
     ("selected_count_max", JInt 7);
     ("near_count_max", JInt 7);
     ("input_window_bars", JInt 96);
     ("opening_range_bars", JInt 4);
     ("pre_or_atr_bars", JInt 14);
     ("activity_floor_quote_usdt", JInt 20000000);
     ("decimal_precision", JInt 38);
     ("decimal_rounding", JStr "ROUND_HALF_EVEN");
     ("entry_interval_ms", JInt 3600000);
     ("materialization_timeout_ms", JInt 1800000)].

Definition orb_spec_semantic_digest (s : OrbSessionSelectionSpec) : str := canonical_digest (orb_spec_json s).

(** [InstalledOrbSessionSelectionSpec]; its [installed_at_ms] is not dumped. *)
Record InstalledOrbSessionSelectionSpec := mkInstalledOrbSpec {
  io_spec : OrbSessionSelectionSpec;
  io_installed_at_ms : Z
}.

Definition validate_InstalledOrbSessionSelectionSpec (s : InstalledOrbSessionSelectionSpec)
    : result InstalledOrbSessionSelectionSpec :=
  validate_fields [(io_installed_at_ms s <=? 0, "Input should be greater than 0")];;
  _ ← validate_OrbSessionSelectionSpec (io_spec s);
  mret s.

Definition installed_algorithm_semantic_digest (s : InstalledOrbSessionSelectionSpec) : str :=
  canonical_digest (orb_spec_json (io_spec s)).

Definition eligibility_not_before_offset_utc_seconds : Z := 7200.

(** ** The clocks of one day *)

Record OrbSessionPeriod := mkOrbPeriod {
  op_session_start_ms : Z;
  op_feature_cutoff_at_ms : Z;
  op_prepare_not_before_ms : Z;
  op_eligibility_not_before_ms : Z;
  op_snapshot_expires_at_ms : Z;
  op_trading_expires_at_ms : Z
}.

Definition orb_period_checks (p : OrbSessionPeriod) : list (bool * str) :=
  let d := op_session_start_ms p in
  [((d <=? 0) || negb (d mod DAY_MS =? 0)
    || negb (bool_decide
         ([op_feature_cutoff_at_ms p; op_prepare_not_before_ms p; op_eligibility_not_before_ms p;
           op_snapshot_expires_at_ms p; op_trading_expires_at_ms p]
          = [d + HOUR_MS; d + HOUR_MS; d + 2 * HOUR_MS; d + DAY_MS + HOUR_MS; d + DAY_MS])),
    "hourly ORB period requires exact UTC day, cutoff and eligibility clocks")].

Definition validate_OrbSessionPeriod (p : OrbSessionPeriod) : result OrbSessionPeriod :=
  validate_model (orb_period_checks p);; mret p.

Definition build_orb_session_period (session_start_ms : Z) : result OrbSessionPeriod :=
  let d := session_start_ms in
  validate_OrbSessionPeriod
    (mkOrbPeriod d (d + HOUR_MS) (d + HOUR_MS) (d + 2 * HOUR_MS) (d + DAY_MS + HOUR_MS) (d + DAY_MS)).

Definition next_orb_eligible_close (session_start_ms now_ms : Z) : result (option Z) :=
  p ← build_orb_session_period session_start_ms;
  raise_if (now_ms <? op_session_start_ms p)
    (ValueError "hourly ORB grant clock precedes its Session");;
  let first := Z.max (op_eligibility_not_before_ms p) ((now_ms / HOUR_MS + 1) * HOUR_MS) in
  mret (if first <? op_trading_expires_at_ms p then Some first else None).

Definition daily_event_spec_ids (selection_spec_id : str) : result (str * str) :=
  if bool_decide (selection_spec_id = ORB_SELECTION_SPEC_ID)
  then mret (ORB_LONG_EVENT_SPEC_ID, ORB_SHORT_EVENT_SPEC_ID)
  else if bool_decide (selection_spec_id = "sor-dynamic-selection-v0")
  then mret ("event_spec:SOR-001:SOR-LONG:v4", "event_spec:SOR-001:SOR-SHORT:v4")
  else Raise (ValueError "daily ORB requires an exact installed Selection identity").

Definition daily_entry_interval_ms (selection_spec_id : str) : result Z :=
  _ ← daily_event_spec_ids selection_spec_id;
  mret (if bool_decide (selection_spec_id = ORB_SELECTION_SPEC_ID) then HOUR_MS else 900000).

Definition daily_first_offset_ms (selection_spec_id : str) : result Z :=
  interval ← daily_entry_interval_ms selection_spec_id;
  mret (if interval =? HOUR_MS then 2 * HOUR_MS else 5 * 900000).

Definition daily_authority_expires_at (selection_spec_id : str) (session_start_ms : Z) : result Z :=
  _ ← daily_event_spec_ids selection_spec_id;
  mret (session_start_ms + DAY_MS
        + (if bool_decide (selection_spec_id = ORB_SELECTION_SPEC_ID) then 0 else HOUR_MS)).

Definition next_daily_eligible_close (selection_spec_id : str) (session_start_ms now_ms : Z) : result Z :=
  interval ← daily_entry_interval_ms selection_spec_id;
  offset ← daily_first_offset_ms selection_spec_id;
  let first := Z.max (session_start_ms + offset) ((now_ms / interval + 1) * interval) in
  raise_if (bool_decide (selection_spec_id = ORB_SELECTION_SPEC_ID) && (first >=? session_start_ms + DAY_MS))
    (ValueError "NO_ELIGIBLE_CLOSE_BEFORE_SESSION_END");;
  mret first.

(** ** The snapshot *)

Definition orb_epoch_refused (epoch : str) : bool :=
  blank epoch || negb (bool_decide (epoch = strip epoch)) || (160 <? len epoch)
  || bool_decide (epoch = "sor-v0").
Definition orb_epoch_message : str := "hourly ORB requires independent bounded epoch".

Definition require_orb_epoch (epoch : str) : result unit :=
  raise_if (orb_epoch_refused epoch) (ValueError orb_epoch_message).

(** [orb_snapshot_identity], once its epoch is accepted. *)
Definition orb_identity_of (epoch : str) (session_start_ms : Z) : str :=
  let digest := canonical_digest (JObj
    [("selection_spec_id", JStr ORB_SELECTION_SPEC_ID); ("selection_epoch_id", JStr epoch);
     ("session_start_ms", JInt session_start_ms)]) in
  "selection:orb:" +:+ String.substring 7 (String.length digest) digest.

Definition orb_snapshot_identity (epoch : str) (session_start_ms : Z) : result str :=
  require_orb_epoch epoch;; mret (orb_identity_of epoch session_start_ms).

(** The strategy, the specification and the candidate count have one value. *)
Record OrbSessionSelectionSnapshot := mkOrbSnapshot {
  on_selection_snapshot_id : str;
  on_selection_epoch_id : str;
  on_session_start_ms : Z;
  on_feature_cutoff_at_ms : Z;
  on_eligibility_not_before_ms : Z;
  on_expires_at_ms : Z;
  on_decision_at_ms : Z;
  on_source_observed_at_ms : Z;
  on_created_at_ms : Z;
  on_ready_count : Z;
  on_selected_count : Z;
  on_source_semantic_digest : str;
  on_selection_semantic_digest : str
}.

Definition orb_snapshot_checks (s : OrbSessionSelectionSnapshot) (period : OrbSessionPeriod)
    : list (bool * str) :=
  [(orb_epoch_refused (on_selection_epoch_id s), orb_epoch_message);
   (negb (bool_decide (on_selection_snapshot_id s
       = orb_identity_of (on_selection_epoch_id s) (on_session_start_ms s))),
    "hourly ORB Snapshot identity differs from its exact epoch and Session");
   (negb (bool_decide
      ([on_feature_cutoff_at_ms s; on_eligibility_not_before_ms s; on_expires_at_ms s]
       = [op_feature_cutoff_at_ms period; op_eligibility_not_before_ms period;
          op_snapshot_expires_at_ms period])), "hourly ORB Snapshot time mismatch");
   (negb ((op_feature_cutoff_at_ms period <=? on_decision_at_ms s)
          && (on_decision_at_ms s <=? on_source_observed_at_ms s)
          && (on_source_observed_at_ms s <=? on_created_at_ms s)
          && (on_created_at_ms s <? on_expires_at_ms s)),
    "hourly ORB source cannot precede cutoff or commit after expiry");
   (negb ((0 <=? on_ready_count s) && (on_ready_count s <=? 24))
    || negb (on_selected_count s =? Z.min 7 (on_ready_count s)),
    "hourly ORB member counts differ from frozen rank");
   (existsb (λ d, negb (len d =? 71) || negb (startswith d "sha256:"))
      [on_source_semantic_digest s; on_selection_semantic_digest s],
    "hourly ORB Snapshot requires canonical source digests")].

(** The inherited digest validators run first; the last [int(..., 16)] then
    returns. *)
Definition validate_OrbSessionSelectionSnapshot (s : OrbSessionSelectionSnapshot)
    : result OrbSessionSelectionSnapshot :=
  validate_fields
    ((λ v, (negb (sha256_shaped v), "Selection digest must be canonical sha256")) <$>
       [on_source_semantic_digest s; on_selection_semantic_digest s]);;
  period ← build_orb_session_period (on_session_start_ms s);
  validate_model (orb_snapshot_checks s period);;
  mret s.

Record OrbSessionSelectionComputation := mkOrbComputation {
  oc_snapshot : OrbSessionSelectionSnapshot;
  oc_member_decisions : list SelectionMemberDecision
}.

Definition validate_OrbSessionSelectionComputation (c : OrbSessionSelectionComputation)
    : result OrbSessionSelectionComputation :=
  let s := oc_snapshot c in
  validate_model
    [(negb (bool_decide (sm_exchange_instrument_id <$> oc_member_decisions c
                         = CANONICAL_CANDIDATE_EXCHANGE_INSTRUMENT_IDS))
      || existsb (λ m,
           negb (bool_decide (sm_selection_snapshot_id m = on_selection_snapshot_id s))
           || negb (bool_decide (sm_selection_spec_id m = ORB_SELECTION_SPEC_ID))
           || negb (sm_session_start_ms m =? on_session_start_ms s)) (oc_member_decisions c),
      "hourly ORB members do not belong to exact Snapshot")];;
  mret c.

(** [period.model_dump()] *)
Definition orb_period_json (p : OrbSessionPeriod) : JsonValue :=
  JObj
    [("session_start_ms", JInt (op_session_start_ms p));
     ("feature_cutoff_at_ms", JInt (op_feature_cutoff_at_ms p));
     ("prepare_not_before_ms", JInt (op_prepare_not_before_ms p));
     ("eligibility_not_before_ms", JInt (op_eligibility_not_before_ms p));
     ("snapshot_expires_at_ms", JInt (op_snapshot_expires_at_ms p));
     ("trading_expires_at_ms", JInt (op_trading_expires_at_ms p))].

Definition orb_source_digest (decisions : list SelectionMemberDecision) : str :=
  canonical_digest
    (JList ((λ m, JList [JStr (sm_exchange_instrument_id m); JStr (sm_input_window_digest m)])
              <$> decisions)).

Definition orb_computation_digest (spec : OrbSessionSelectionSpec) (epoch : str) (period : OrbSessionPeriod)
    (decisions : list SelectionMemberDecision) : str :=
  canonical_digest (JObj
    [("spec", orb_spec_json spec);
     ("selection_epoch_id", JStr epoch);
     ("period", orb_period_json period);
     ("source_semantic_digest", JStr (orb_source_digest decisions));
     ("member_semantic_digests", JList (JStr <$> (sm_member_semantic_digest <$> decisions)))]).

Definition orb_panel_refused (spec : OrbSessionSelectionSpec) (period : OrbSessionPeriod)
    (source_windows : list SelectionSourceWindow) : bool :=
  negb (bool_decide (sorted (sw_exchange_instrument_id <$> source_windows) = os_candidate_ids spec))
  || existsb (λ w,
       negb (sw_input_window_start_ms w =? op_session_start_ms period - 23 * HOUR_MS)
       || negb (sw_feature_cutoff_at_ms w =? op_feature_cutoff_at_ms period)) source_windows.

Definition compute_orb_selection (spec : OrbSessionSelectionSpec) (period : OrbSessionPeriod)
    (selection_epoch_id : str) (source_windows : list SelectionSourceWindow)
    (decision_at_ms source_observed_at_ms created_at_ms : Z) : result OrbSessionSelectionComputation :=
  spec ← validate_OrbSessionSelectionSpec spec;
  period ← validate_OrbSessionPeriod period;
  require_orb_epoch selection_epoch_id;;
  raise_if (orb_panel_refused spec period source_windows)
    (SelectionSourceIntegrityError "hourly ORB requires exact Candidate24 windows at 01:00 cutoff");;
  sid ← orb_snapshot_identity selection_epoch_id (op_session_start_ms period);
  '(decisions, ready) ←
    compute_opening_range_member_decisions source_windows sid ORB_SELECTION_SPEC_ID
      (op_session_start_ms period) (op_feature_cutoff_at_ms period);
  snapshot ← validate_OrbSessionSelectionSnapshot
    (mkOrbSnapshot sid selection_epoch_id (op_session_start_ms period) (op_feature_cutoff_at_ms period)
       (op_eligibility_not_before_ms period) (op_snapshot_expires_at_ms period) decision_at_ms
       source_observed_at_ms created_at_ms ready (Z.min 7 ready) (orb_source_digest decisions)
       (orb_computation_digest spec selection_epoch_id period decisions));
  validate_OrbSessionSelectionComputation (mkOrbComputation snapshot decisions).

(** ** The static baseline *)

Record OrbStaticSourceEvent := mkOrbStaticEvent {
  oe_event_spec_id : str;
  oe_position_side : PositionSide;
  oe_universe_version_id : str;
  oe_universe_semantic_digest : str;
  oe_member_set_digest : str
}.

Definition validate_OrbStaticSourceEvent (e : OrbStaticSourceEvent) : result OrbStaticSourceEvent :=
  validate_model
    [(negb (bool_decide (oe_event_spec_id e
         = match oe_position_side e with long => ORB_LONG_EVENT_SPEC_ID | short => ORB_SHORT_EVENT_SPEC_ID end))
      || blank (oe_universe_version_id e),
      "ORB Static source must reference its own exact Event and Universe")];;
  mret e.

Definition orb_static_event_json (e : OrbStaticSourceEvent) : JsonValue :=
  JObj
    [("event_spec_id", JStr (oe_event_spec_id e));
     ("position_side", JStr (side_value (oe_position_side e)));
     ("universe_version_id", JStr (oe_universe_version_id e));
     ("universe_semantic_digest", JStr (oe_universe_semantic_digest e));
     ("member_set_digest", JStr (oe_member_set_digest e))].

Record OrbStaticRollbackBaseline := mkOrbBaseline {
  ob_rollback_baseline_id : str;
  ob_source_events : list OrbStaticSourceEvent;
  ob_captured_at_ms : Z;
  ob_semantic_digest : str
}.

(** [OrbStaticRollbackBaseline.build] *)
Definition build_orb_static_baseline (source_events : list OrbStaticSourceEvent) (captured_at_ms : Z)
    : result OrbStaticRollbackBaseline :=
  raise_if (negb (bool_decide (oe_event_spec_id <$> source_events = ORB_EVENT_SPEC_IDS))
            || (captured_at_ms <=? 0))
    (ValueError "ORB Static baseline requires exact LONG/SHORT references");;
  let digest := canonical_digest (JObj
    [("selection_spec_id", JStr ORB_SELECTION_SPEC_ID);
     ("strategy_group_id", JStr ORB_STRATEGY_GROUP_ID);
     ("strategy_version_id", JStr ORB_STRATEGY_VERSION_ID);
     ("source_events", JList (orb_static_event_json <$> source_events));
     ("captured_at_ms", JInt captured_at_ms)]) in
  mret (mkOrbBaseline ("rollback:orb:" +:+ String.substring 7 (String.length digest) digest)
          source_events captured_at_ms digest).

Record OrbStaticMaterializationSource := mkOrbStaticSource {
  ot_session_start_ms : Z;
  ot_selection_epoch_id : str;
  ot_rollback_baseline_id : str
}.

Definition validate_OrbStaticMaterializationSource (s : OrbStaticMaterializationSource)
    : result OrbStaticMaterializationSource :=
  _ ← build_orb_session_period (ot_session_start_ms s);
  validate_model
    [(orb_epoch_refused (ot_selection_epoch_id s), orb_epoch_message);
     (blank (ot_rollback_baseline_id s), "ORB Static source requires frozen baseline")];;
  mret s.
