(* ===== verification/GenericSpec.v ===== *)
(** * Generic selection specifications ([domain/generic_selection_spec.py],
      [domain/comparison_universe.py], [domain/generic_selection_jobs.py])

    The four frozen families, the comparison membership of the comparative
    detectors, and the identities of selection jobs. *)

From S2P Require Import Prelude PyString Sha256 Identities CrossMarginStress Selection.
#[local] Open Scope Z_scope.

(** ** The frozen families *)

Record Family := mkFamily {
  fam_spec_id : str;
  fam_event : str;
  fam_side : PositionSide;
  fam_entry_rank : Z;
  fam_retain_rank : Z;
  fam_cadence_hours : Z;
  fam_window_bars : Z
}.
#[export] Instance Family_eq_dec : EqDecision Family.
Proof. solve_decision. Defined.

(** [_FAMILIES.get(...)] *)
Definition families (strategy_group_id : str) : option Family :=
  if bool_decide (strategy_group_id = "CPM-RO-001") then
    Some (mkFamily "CPM_ABSOLUTE_DIRECTIONAL_EFFICIENCY_V1" "CPM-LONG" long 16 16 4 25)
  else if bool_decide (strategy_group_id = "MPG-001") then
    Some (mkFamily "MPG_PERSISTENT_LEADERSHIP_SCORE_V1" "MPG-LONG" long 12 16 1 14)
  else if bool_decide (strategy_group_id = "MI-001") then
    Some (mkFamily "MI_POSITIVE_IMPULSE_RECENCY_V0" "MI-LONG" long 16 16 1 13)
  else if bool_decide (strategy_group_id = "BRF2-001") then
    Some (mkFamily "BRF2_RESIDUAL_EXTENSION_V0" "BRF2-SHORT" short 16 16 4 73)
  else None.

(** The other fields of the specification have one value each. *)
Record GenericSelectionSpecV1 := mkGenericSpec {
  gs_selection_spec_id : str;
  gs_strategy_group_id : str;
  gs_strategy_version_id : str;
  gs_event_spec_id : str;
  gs_position_side : PositionSide;
  gs_entry_rank : Z;
  gs_retain_rank : Z;
  gs_cadence_hours : Z;
  gs_window_bars : Z;
  gs_candidate_ids : list str
}.
#[export] Instance GenericSelectionSpecV1_eq_dec : EqDecision GenericSelectionSpecV1.
Proof. solve_decision. Defined.

(** The specification of a family. *)
Definition family_spec (strategy_group_id : str) (f : Family) : GenericSelectionSpecV1 :=
  mkGenericSpec (fam_spec_id f) strategy_group_id ("sgv:" +:+ strategy_group_id +:+ ":v3")
    ("event_spec:" +:+ strategy_group_id +:+ ":" +:+ fam_event f +:+ ":v3") (fam_side f)
    (fam_entry_rank f) (fam_retain_rank f) (fam_cadence_hours f) (fam_window_bars f)
    CANONICAL_CANDIDATE_EXCHANGE_INSTRUMENT_IDS.

Definition validate_GenericSelectionSpecV1 (s : GenericSelectionSpecV1) : result GenericSelectionSpecV1 :=
  match families (gs_strategy_group_id s) with
  | None => Raise (ValidationError ["unsupported Generic Selection family"])
  | Some f =>
      validate_model
        [(negb (bool_decide (s = family_spec (gs_strategy_group_id s) f)),
          "Generic Selection parameters differ from frozen family")];;
      mret s
  end.

Definition generic_selection_spec (strategy_group_id : str) : result GenericSelectionSpecV1 :=
  match families strategy_group_id with
  | None => Raise (ValueError "unsupported Generic Selection family")
  | Some f => validate_GenericSelectionSpecV1 (family_spec strategy_group_id f)
  end.

(** [algorithm_semantic_digest] *)
Definition generic_spec_digest (s : GenericSelectionSpecV1) : str :=
  canonical_digest (JObj
    [("selection_spec_id", JStr (gs_selection_spec_id s));
     ("strategy_group_id", JStr (gs_strategy_group_id s));
     ("strategy_version_id", JStr (gs_strategy_version_id s));
     ("event_spec_id", JStr (gs_event_spec_id s));
     ("position_side", JStr (side_value (gs_position_side s)));
     ("entry_rank", JInt (gs_entry_rank s));
     ("retain_rank", JInt (gs_retain_rank s));
     ("cadence_hours", JInt (gs_cadence_hours s));
     ("window_bars", JInt (gs_window_bars s));
     ("candidate_ids", JList (JStr <$> gs_candidate_ids s));
     ("delay_ms", JInt 3600000);
     ("decimal_precision", JInt 38);
     ("decimal_rounding", JStr "ROUND_HALF_EVEN");
     ("max_consecutive_selection_miss", JInt 1);
     ("materialization_timeout_ms", JInt 1800000);
     ("numeric_contract_version", JStr "decimal38-canonical-order-v1")]).

(** The literal fields of the evidence have one value each. *)
Record SpecNumericInstallationEvidence := mkEvidence {
  se_selection_spec_id : str;
  se_algorithm_semantic_digest : str;
  se_checked_cutoffs : Z
}.

(** [SpecNumericInstallationEvidence.require_spec] *)
Definition require_spec (e : SpecNumericInstallationEvidence) (spec : GenericSelectionSpecV1) : result unit :=
  _ ← validate_GenericSelectionSpecV1 spec;
  raise_if (negb (bool_decide (se_selection_spec_id e = gs_selection_spec_id spec))
            || negb (bool_decide (se_algorithm_semantic_digest e = generic_spec_digest spec))
            || negb (se_checked_cutoffs e =? (if gs_cadence_hours spec =? 4 then 463 else 1852)))
    (ValueError "numeric installation evidence does not certify this Spec").

(** ** Comparison membership *)

Definition MPG_LONG_EVENT : str := "event_spec:MPG-001:MPG-LONG:v3".
Definition MI_LONG_EVENT : str := "event_spec:MI-001:MI-LONG:v3".

Definition comparative_lookback_bars (event_spec_id : str) : option Z :=
  if bool_decide (event_spec_id = MPG_LONG_EVENT) then Some 8
  else if bool_decide (event_spec_id = MI_LONG_EVENT) then Some 12
  else None.

Record ComparisonObservationSource := mkComparisonSource {
  cs_exchange_instrument_ids : list str;
  cs_comparison_transition_revision : Z
}.

Definition validate_ComparisonObservationSource (s : ComparisonObservationSource)
    : result ComparisonObservationSource :=
  validate_fields [(cs_comparison_transition_revision s <? 0, "Input should be greater than or equal to 0")];;
  mret s.

Record ComparisonUniverseBinding := mkComparisonBinding {
  cb_event_spec_id : str;
  cb_comparison_universe_id : str;
  cb_member_set_digest : str;
  cb_exchange_instrument_ids : list str;
  cb_comparison_transition_revision : Z;
  cb_source_static_universe_version_id : option str
}.

Definition comparison_member_digest (members : list str) : str :=
  canonical_digest (JObj [("exchange_instrument_ids", JList (JStr <$> members))]).

(** [digest[7:]] *)
Definition after_7 (s : str) : str := String.substring 7 (String.length s) s.

(** [tuple(sorted(set(members))) == members] *)
Definition canonical_members (members : list str) : bool :=
  bool_decide (NoDup members) && bool_decide (sorted members = members).

Definition comparison_binding_checks (b : ComparisonUniverseBinding) : list (bool * str) :=
  let members := cb_exchange_instrument_ids b in
  let digest := comparison_member_digest members in
  [(negb (bool_decide (cb_event_spec_id b ∈ [MPG_LONG_EVENT; MI_LONG_EVENT])),
    "Event has no comparative Detector input");
   (match members with [] => true | _ => false end || negb (canonical_members members)
    || (24 <? length members)%nat, "comparison membership is not canonical");
   (negb (bool_decide (cb_member_set_digest b = digest))
    || negb (bool_decide (cb_comparison_universe_id b = "comparison:" +:+ after_7 digest)),
    "comparison definition identity differs");
   (cb_comparison_transition_revision b <? 0, "comparison revision is invalid")] ++
  match cb_source_static_universe_version_id b with
  | None =>
      [(negb (bool_decide (members = CANONICAL_CANDIDATE_EXCHANGE_INSTRUMENT_IDS))
        || (cb_comparison_transition_revision b <=? 0),
        "Dynamic comparison requires exact Candidate24 and transition revision")]
  | Some v =>
      [(blank v || (10 <? length members)%nat,
        "Static comparison requires its original bounded Universe")]
  end.

Definition validate_ComparisonUniverseBinding (b : ComparisonUniverseBinding)
    : result ComparisonUniverseBinding :=
  validate_model (comparison_binding_checks b);; mret b.

(** ** Selection jobs *)

Definition GENERIC_SOURCE_RETRY_BACKOFF_MS : Z := 30000.
Definition GENERIC_SOURCE_MAX_ATTEMPTS : Z := 3.

Definition selection_job_identity (selection_spec_id : str) (period_anchor_ms : Z)
    (selection_epoch_id : str) : str :=
  if bool_decide (selection_epoch_id = "sor-v0")
  then "selection-job:" +:+ selection_spec_id +:+ ":" +:+ string_of_Z period_anchor_ms
  else "selection-job:" +:+ after_7 (canonical_digest (JObj
         [("spec", JStr selection_spec_id); ("epoch", JStr selection_epoch_id);
          ("cutoff", JInt period_anchor_ms)])).

Record GenericSelectionJobClaim := mkGenericClaim {
  gj_selection_job_id : str;
  gj_selection_spec_id : str;
  gj_period_anchor_ms : Z;
  gj_worker_id : str;
  gj_attempt_number : Z;
  gj_projection_version : Z;
  gj_started_at_ms : Z;
  gj_lease_expires_at_ms : Z;
  gj_selection_epoch_id : str;
  gj_selection_control_version : Z;
  gj_predecessor_snapshot_id : option str;
  gj_predecessor_member_digest : option str
}.

(** [_require_digest]: lower-case digits only. *)
Definition lower_hex (s : str) : bool := forallb is_hex_digit (String.list_ascii_of_string s).
Definition generic_digest_ok (d : str) : bool :=
  (len d =? 71) && startswith d "sha256:" && lower_hex (after_7 d).

Definition generic_claim_checks (c : GenericSelectionJobClaim) : list (bool * str) :=
  [(blank (gj_selection_epoch_id c) || bool_decide (gj_selection_epoch_id c = "sor-v0"),
    "Generic claim requires its own explicit epoch");
   (negb (bool_decide (gj_selection_job_id c
       = selection_job_identity (gj_selection_spec_id c) (gj_period_anchor_ms c) (gj_selection_epoch_id c))),
    "Generic Selection Job identity is not canonical");
   (blank (gj_worker_id c)
    || (Z.min (Z.min (gj_attempt_number c) (gj_projection_version c)) (gj_selection_control_version c) <=? 0),
    "Generic Selection Job ownership/version is invalid");
   ((gj_lease_expires_at_ms c <=? gj_started_at_ms c) || (gj_period_anchor_ms c <=? 0)
    || (gj_started_at_ms c <? gj_period_anchor_ms c), "Generic Selection Job lease timing is invalid");
   (negb (Bool.eqb (is_none (gj_predecessor_snapshot_id c)) (is_none (gj_predecessor_member_digest c))),
    "Generic Selection predecessor is incomplete");
   (match gj_predecessor_member_digest c with Some d => negb (generic_digest_ok d) | None => false end,
    "Generic Selection predecessor digest is invalid")].

Definition validate_GenericSelectionJobClaim (c : GenericSelectionJobClaim)
    : result GenericSelectionJobClaim :=
  validate_model (generic_claim_checks c);; mret c.

(** [SelectionJobLease] *)
Inductive SelectionJobLease :=
  | SorClaim (c : SelectionJobClaim)
  | GenericClaim (c : GenericSelectionJobClaim).

Definition job_period_anchor (l : SelectionJobLease) : Z :=
  match l with
  | GenericClaim c => gj_period_anchor_ms c
  | SorClaim c => jc_session_start_ms c
  end.

Definition job_selection_epoch (l : SelectionJobLease) : str :=
  match l with
  | GenericClaim c => gj_selection_epoch_id c
  | SorClaim _ => "sor-v0"
  end.
