(* ===== verification/Timing.v ===== *)
(** * The clock of the generic selection ([domain/dynamic_selection_timing.py])

    Selection periods, the age of a dynamic membership, the plan of an hourly
    recovery and the proofs that one close may be granted. *)

From S2P Require Import Prelude PyString Ticket StrategyRegistry Episode GenericSpec.
#[local] Open Scope Z_scope.

(** [_HOUR_MS] *)
Definition HOUR_MS : Z := 3600000.

(** ** Periods *)

Definition cadence_refused (cadence_hours : Z) : bool := negb ((cadence_hours =? 1) || (cadence_hours =? 4)).
Definition cadence_message : str := "Generic Selection cadence must be 1h or 4h".

(** [_cadence_ms] *)
Definition cadence_ms (cadence_hours : Z) : result Z :=
  raise_if (cadence_refused cadence_hours) (ValueError cadence_message);;
  mret (cadence_hours * HOUR_MS).

Record GenericSelectionPeriod := mkPeriod {
  gp_feature_cutoff_at_ms : Z;
  gp_cadence_hours : Z;
  gp_scheduled_effective_at_ms : Z;
  gp_period_expires_at_ms : Z
}.

Definition period_checks (p : GenericSelectionPeriod) : list (bool * str) :=
  let cadence := gp_cadence_hours p * HOUR_MS in
  [(cadence_refused (gp_cadence_hours p), cadence_message);
   ((gp_feature_cutoff_at_ms p <=? 0) || negb (gp_feature_cutoff_at_ms p mod cadence =? 0)
    || negb (gp_scheduled_effective_at_ms p =? gp_feature_cutoff_at_ms p + HOUR_MS)
    || negb (gp_period_expires_at_ms p =? gp_scheduled_effective_at_ms p + cadence),
    "Generic Selection period timing is invalid")].

Definition validate_GenericSelectionPeriod (p : GenericSelectionPeriod) : result GenericSelectionPeriod :=
  validate_model (period_checks p);; mret p.

Definition build_generic_selection_period (feature_cutoff_at_ms cadence_hours : Z)
    : result GenericSelectionPeriod :=
  cadence ← cadence_ms cadence_hours;
  validate_GenericSelectionPeriod
    (mkPeriod feature_cutoff_at_ms cadence_hours (feature_cutoff_at_ms + HOUR_MS)
       (feature_cutoff_at_ms + HOUR_MS + cadence)).

(** The close at or before a time. *)
Definition last_close (t : Z) : Z := t / HOUR_MS * HOUR_MS.

(** [range(start, stop, step)] of a positive step. *)
Definition py_range (start stop step : Z) : list Z :=
  (λ i, start + step * Z.of_nat i) <$> seq 0 (Z.to_nat ((stop - start + step - 1) / step)).

Definition gap_precedes : exn := ValueError "gap fence precedes its Selection period".

Definition missed_closes_at_gap_fence (period : GenericSelectionPeriod) (fenced_at_ms : Z)
    : result (list Z) :=
  period ← validate_GenericSelectionPeriod period;
  raise_if (fenced_at_ms <? gp_scheduled_effective_at_ms period) gap_precedes;;
  mret (py_range (gp_scheduled_effective_at_ms period)
          (Z.min (last_close fenced_at_ms) (gp_period_expires_at_ms period - HOUR_MS) + 1) HOUR_MS).

Definition uncovered_close_count_since_gap (period : GenericSelectionPeriod) (fenced_at_ms : Z)
    : result Z :=
  period ← validate_GenericSelectionPeriod period;
  raise_if (fenced_at_ms <? gp_scheduled_effective_at_ms period) gap_precedes;;
  mret ((last_close fenced_at_ms - gp_scheduled_effective_at_ms period) / HOUR_MS + 1).

(** ** The plan of an hourly recovery *)

Inductive HourlyRecoveryReason :=
  | AUTHORITY_GAP | MATERIALIZATION_FAILURE | MATERIALIZATION_TIMEOUT | FAILED_RECOVERY | STALE_SOURCE
  | VACUUM_INTERRUPTION | UNPROVEN_CRASH_CONTINUITY | COMPARISON_PROVENANCE_LOST.

Inductive RecoveryPlanStatus := FUTURE_CLOSE_REBASE_REQUIRED | NO_ELIGIBLE_CLOSE_BEFORE_EXPIRY.
#[export] Instance RecoveryPlanStatus_eq_dec : EqDecision RecoveryPlanStatus.
Proof. solve_decision. Defined.

(** [episode_rebase_required] is always true. *)
Record HourlyRecoveryClosePlan := mkPlan {
  hp_recovery_id : str;
  hp_recovery_revision : Z;
  hp_reason : HourlyRecoveryReason;
  hp_period : GenericSelectionPeriod;
  hp_evaluated_at_ms : Z;
  hp_status : RecoveryPlanStatus;
  hp_first_eligible_close_time_ms : option Z
}.

(** The next close strictly after [evaluated_at_ms], not before the period. *)
Definition next_recovery_close (period : GenericSelectionPeriod) (evaluated_at_ms : Z) : Z :=
  Z.max (gp_scheduled_effective_at_ms period) ((evaluated_at_ms / HOUR_MS + 1) * HOUR_MS).

Definition plan_checks (p : HourlyRecoveryClosePlan) : list (bool * str) :=
  let first := next_recovery_close (hp_period p) (hp_evaluated_at_ms p) in
  let over := gp_period_expires_at_ms (hp_period p) <=? first in
  [(blank (hp_recovery_id p) || (160 <? len (hp_recovery_id p)) || (hp_recovery_revision p <=? 0),
    "recovery requires durable identity and revision");
   (hp_evaluated_at_ms p <? gp_feature_cutoff_at_ms (hp_period p),
    "recovery cannot plan beyond the adjacent eligible period");
   (over && (negb (bool_decide (hp_status p = NO_ELIGIBLE_CLOSE_BEFORE_EXPIRY))
             || negb (is_none (hp_first_eligible_close_time_ms p))),
    "recovery cannot invent an eligible close before expiry");
   (negb over && (negb (bool_decide (hp_status p = FUTURE_CLOSE_REBASE_REQUIRED))
                  || negb (bool_decide (hp_first_eligible_close_time_ms p = Some first))),
    "recovery requires the next strictly future close")].

Definition validate_HourlyRecoveryClosePlan (p : HourlyRecoveryClosePlan) : result HourlyRecoveryClosePlan :=
  validate_model (plan_checks p);; mret p.

Definition plan_hourly_recovery_close (recovery_id : str) (recovery_revision : Z)
    (reason : HourlyRecoveryReason) (period : GenericSelectionPeriod) (evaluated_at_ms : Z)
    : result HourlyRecoveryClosePlan :=
  let first := next_recovery_close period evaluated_at_ms in
  let eligible := first <? gp_period_expires_at_ms period in
  validate_HourlyRecoveryClosePlan
    (mkPlan recovery_id recovery_revision reason period evaluated_at_ms
       (if eligible then FUTURE_CLOSE_REBASE_REQUIRED else NO_ELIGIBLE_CLOSE_BEFORE_EXPIRY)
       (if eligible then Some first else None)).

(** [model_validate(model_dump())]: the period is validated again first. *)
Definition revalidate_plan (p : HourlyRecoveryClosePlan) : result HourlyRecoveryClosePlan :=
  validate_GenericSelectionPeriod (hp_period p);; validate_HourlyRecoveryClosePlan p.

Definition require_hourly_recovery_commit (plan : HourlyRecoveryClosePlan) (committed_at_ms : Z) : result unit :=
  plan ← revalidate_plan plan;
  raise_if (bool_decide (hp_status plan = NO_ELIGIBLE_CLOSE_BEFORE_EXPIRY))
    (ValueError "NO_ELIGIBLE_CLOSE_BEFORE_EXPIRY");;
  raise_if
    match hp_first_eligible_close_time_ms plan with
    | None => true
    | Some first =>
        negb ((hp_evaluated_at_ms plan <=? committed_at_ms) && (committed_at_ms <? first)
              && (first <? gp_period_expires_at_ms (hp_period plan)))
    end (ValueError "recovery commit crossed its future-close boundary; replan required").

(** ** The age of a dynamic membership *)

Inductive DynamicMembershipState := MEMBERSHIP_ACTIVE | GRACE | SELECTION_STALE_PAUSED.
#[export] Instance DynamicMembershipState_eq_dec : EqDecision DynamicMembershipState.
Proof. solve_decision. Defined.

Record DynamicMembershipFreshness := mkFreshness {
  df_source_snapshot_id : str;
  df_source_member_set_digest : str;
  df_source_snapshot_cutoff_at_ms : Z;
  df_source_snapshot_effective_at_ms : Z;
  df_cadence_hours : Z;
  df_membership_valid_until_ms : Z;
  df_consecutive_missed_periods : Z;
  df_state : DynamicMembershipState
}.

Definition freshness_checks (f : DynamicMembershipFreshness) : list (bool * str) :=
  let cadence := df_cadence_hours f * HOUR_MS in
  let missed := df_consecutive_missed_periods f in
  [(cadence_refused (df_cadence_hours f), cadence_message);
   ((df_source_snapshot_cutoff_at_ms f <=? 0)
    || negb (df_source_snapshot_cutoff_at_ms f mod cadence =? 0)
    || negb (df_source_snapshot_effective_at_ms f =? df_source_snapshot_cutoff_at_ms f + HOUR_MS)
    || negb (df_membership_valid_until_ms f =? df_source_snapshot_effective_at_ms f + 2 * cadence)
    || (missed <? 0), "Dynamic membership freshness timing is invalid");
   (bool_decide (df_state f = MEMBERSHIP_ACTIVE) && negb (missed =? 0),
    "active Dynamic membership cannot have a missed period");
   (bool_decide (df_state f = GRACE) && negb (missed =? 1),
    "Dynamic grace requires exactly one missed period");
   (bool_decide (df_state f = SELECTION_STALE_PAUSED) && (missed <? 2),
    "stale Dynamic membership requires two missed periods")].

Definition validate_DynamicMembershipFreshness (f : DynamicMembershipFreshness)
    : result DynamicMembershipFreshness :=
  validate_fields
    [(blank (df_source_snapshot_id f), "Dynamic membership freshness requires Snapshot identity");
     (negb (comparison_digest_ok (strip (df_source_member_set_digest f))),
      "Dynamic membership freshness requires canonical digest")];;
  validate_model (freshness_checks f);;
  mret (mkFreshness (strip (df_source_snapshot_id f)) (strip (df_source_member_set_digest f))
          (df_source_snapshot_cutoff_at_ms f) (df_source_snapshot_effective_at_ms f)
          (df_cadence_hours f) (df_membership_valid_until_ms f) (df_consecutive_missed_periods f)
          (df_state f)).

(** [DynamicMembershipFreshness.allows_new_entry_at] *)
Definition allows_new_entry_at (f : DynamicMembershipFreshness) (now_ms : Z) : bool :=
  (df_source_snapshot_effective_at_ms f <=? now_ms) && (now_ms <? df_membership_valid_until_ms f)
  && negb (bool_decide (df_state f = SELECTION_STALE_PAUSED)).

Definition build_dynamic_membership_freshness (source_snapshot_id source_member_set_digest : str)
    (period : GenericSelectionPeriod) : result DynamicMembershipFreshness :=
  cadence ← cadence_ms (gp_cadence_hours period);
  validate_DynamicMembershipFreshness
    (mkFreshness source_snapshot_id source_member_set_digest (gp_feature_cutoff_at_ms period)
       (gp_scheduled_effective_at_ms period) (gp_cadence_hours period)
       (gp_scheduled_effective_at_ms period + 2 * cadence) 0 MEMBERSHIP_ACTIVE).

(** The copy is not validated. *)
Definition record_dynamic_selection_miss (current : DynamicMembershipFreshness)
    (missed_period : GenericSelectionPeriod) : result DynamicMembershipFreshness :=
  raise_if (negb (gp_cadence_hours missed_period =? df_cadence_hours current))
    (ValueError "Dynamic Selection miss cadence differs");;
  cadence ← cadence_ms (df_cadence_hours current);
  let missed :=
    (gp_scheduled_effective_at_ms missed_period - df_source_snapshot_effective_at_ms current) / cadence in
  raise_if (missed <=? 0) (ValueError "Dynamic Selection miss must follow its source period");;
  mret (if missed <=? df_consecutive_missed_periods current then current
        else mkFreshness (df_source_snapshot_id current) (df_source_member_set_digest current)
               (df_source_snapshot_cutoff_at_ms current) (df_source_snapshot_effective_at_ms current)
               (df_cadence_hours current) (df_membership_valid_until_ms current) missed
               (if missed =? 1 then GRACE else SELECTION_STALE_PAUSED)).

Definition confirm_dynamic_membership_snapshot (current : DynamicMembershipFreshness)
    (source_snapshot_id source_member_set_digest : str) (period : GenericSelectionPeriod)
    (confirmed_at_ms : Z) : result DynamicMembershipFreshness :=
  raise_if (negb (gp_cadence_hours period =? df_cadence_hours current))
    (ValueError "Dynamic membership confirmation cadence differs");;
  raise_if (gp_feature_cutoff_at_ms period <? df_source_snapshot_cutoff_at_ms current)
    (ValueError "Dynamic membership confirmation cannot move backwards");;
  if gp_feature_cutoff_at_ms period =? df_source_snapshot_cutoff_at_ms current then
    raise_if (negb (bool_decide (source_snapshot_id = df_source_snapshot_id current))
              || negb (bool_decide (source_member_set_digest = df_source_member_set_digest current)))
      (ValueError "same period membership identity differs");;
    mret current
  else
    raise_if (negb ((gp_scheduled_effective_at_ms period <=? confirmed_at_ms)
                    && (confirmed_at_ms <? gp_period_expires_at_ms period)))
      (ValueError "Dynamic membership Snapshot is not yet effective or is expired");;
    build_dynamic_membership_freshness source_snapshot_id source_member_set_digest period.

(** ** The proofs that one close may be granted *)

Definition cursor_members (cursors : list LockedObservationCursor) : list str :=
  oc_exchange_instrument_id <$> cursors.

(** Not one to sixteen cursors with sorted distinct members. *)
Definition members_refused (cursors : list LockedObservationCursor) : bool :=
  (length cursors <? 1)%nat || (16 <? length cursors)%nat || negb (canonical_members (cursor_members cursors)).

Definition keys_repeat (cursors : list LockedObservationCursor) : bool :=
  negb (bool_decide (NoDup (oc_episode_domain_key <$> cursors))).

(** Some cursor has consumed the close, or a later one. *)
Definition close_consumed (close : Z) (cursors : list LockedObservationCursor) : bool :=
  existsb (λ c, opt_test (λ t, close <=? t) (oc_last_observed_at_ms c)) cursors.

Record CurrentFinalCloseGrantProof := mkCloseProof {
  cf_selection_snapshot_id : str;
  cf_selection_committed_at_ms : Z;
  cf_source_snapshot_cutoff_at_ms : Z;
  cf_period : GenericSelectionPeriod;
  cf_current_final_close_time_ms : Z;
  cf_authority_granted_at_ms : Z;
  cf_observation_cursors : list LockedObservationCursor
}.

Definition close_proof_checks (p : CurrentFinalCloseGrantProof) : list (bool * str) :=
  let close := cf_current_final_close_time_ms p in
  let period := cf_period p in
  [(negb (cf_source_snapshot_cutoff_at_ms p =? gp_feature_cutoff_at_ms period)
    || (cf_selection_committed_at_ms p <? cf_source_snapshot_cutoff_at_ms p)
    || negb (close mod HOUR_MS =? 0)
    || negb (close =? last_close (cf_authority_granted_at_ms p)),
    "current-close proof source or latest-close identity differs");
   (members_refused (cf_observation_cursors p),
    "current-close proof requires complete canonical Observation cursors");
   (keys_repeat (cf_observation_cursors p), "current-close proof requires unique Episode keys");
   (close_consumed close (cf_observation_cursors p), "current-close proof cannot reuse a consumed close");
   (negb ((gp_scheduled_effective_at_ms period <=? close) && (close <? gp_period_expires_at_ms period)),
    "current-close proof is outside its Selection period");
   (close - HOUR_MS <? cf_source_snapshot_cutoff_at_ms p,
    "current-close proof requires precommitted Selection cutoff");
   (close <=? cf_selection_committed_at_ms p, "current-close proof requires precommitted Snapshot");
   (negb ((close <? cf_authority_granted_at_ms p)
          && (cf_authority_granted_at_ms p <? gp_period_expires_at_ms period)),
    "current-close authority grant timing is invalid")].

Definition validate_CurrentFinalCloseGrantProof (p : CurrentFinalCloseGrantProof)
    : result CurrentFinalCloseGrantProof :=
  validate_fields [(blank (cf_selection_snapshot_id p), "current-close proof requires Snapshot identity")];;
  validate_model (close_proof_checks p);;
  mret (mkCloseProof (strip (cf_selection_snapshot_id p)) (cf_selection_committed_at_ms p)
          (cf_source_snapshot_cutoff_at_ms p) (cf_period p) (cf_current_final_close_time_ms p)
          (cf_authority_granted_at_ms p) (cf_observation_cursors p)).

Definition build_current_final_close_grant_proof (selection_snapshot_id : str)
    (selection_committed_at_ms source_snapshot_cutoff_at_ms : Z) (period : GenericSelectionPeriod)
    (current_final_close_time_ms authority_granted_at_ms : Z)
    (observation_cursors : list LockedObservationCursor) : result CurrentFinalCloseGrantProof :=
  validate_CurrentFinalCloseGrantProof
    (mkCloseProof selection_snapshot_id selection_committed_at_ms source_snapshot_cutoff_at_ms period
       current_final_close_time_ms authority_granted_at_ms observation_cursors).

Definition require_current_close_commit (proof : CurrentFinalCloseGrantProof) (committed_at_ms : Z)
    : result unit :=
  validate_GenericSelectionPeriod (cf_period proof);;
  map_result validate_LockedObservationCursor (cf_observation_cursors proof);;
  proof ← validate_CurrentFinalCloseGrantProof proof;
  raise_if (committed_at_ms <? cf_authority_granted_at_ms proof)
    (ValueError "current-close commit clock moved backwards");;
  raise_if ((gp_period_expires_at_ms (cf_period proof) <=? committed_at_ms)
            || negb (last_close committed_at_ms =? cf_current_final_close_time_ms proof))
    (ValueError "current-close commit crossed its proof boundary").

(** [proof_kind] has one value. *)
Record GenericContinuityCloseProof := mkContinuityProof {
  ct_source_selection_authority_id : str;
  ct_source_snapshot_id : str;
  ct_origin_recovery_authority_id : option str;
  ct_period : GenericSelectionPeriod;
  ct_current_final_close_time_ms : Z;
  ct_authority_granted_at_ms : Z;
  ct_observation_cursors : list LockedObservationCursor
}.

(** [_bounded_identity] *)
Definition unbounded_identity (value : str) : bool :=
  blank value || negb (bool_decide (value = strip value)) || (160 <? len value).

Definition continuity_checks (p : GenericContinuityCloseProof) : list (bool * str) :=
  let close := ct_current_final_close_time_ms p in
  let granted := ct_authority_granted_at_ms p in
  [((close <=? 0) || negb (close mod HOUR_MS =? 0) || negb (close =? last_close granted)
    || negb ((gp_scheduled_effective_at_ms (ct_period p) =? close) && (close <? granted)
             && (granted <? gp_period_expires_at_ms (ct_period p))),
    "Continuity must grant only the latest unconsumed current close");
   (bool_decide (ct_source_selection_authority_id p = EmptyString)
    || bool_decide (ct_source_snapshot_id p = EmptyString),
    "Continuity requires a source Authority and Snapshot");
   (members_refused (ct_observation_cursors p) || keys_repeat (ct_observation_cursors p)
    || close_consumed close (ct_observation_cursors p),
    "Continuity requires exact unconsumed member coverage")].

Definition validate_GenericContinuityCloseProof (p : GenericContinuityCloseProof)
    : result GenericContinuityCloseProof :=
  validate_fields
    [(unbounded_identity (ct_source_selection_authority_id p),
      "Continuity requires an exact bounded source identity");
     (unbounded_identity (ct_source_snapshot_id p),
      "Continuity requires an exact bounded source identity");
     (opt_test unbounded_identity (ct_origin_recovery_authority_id p),
      "Continuity requires an exact bounded source identity")];;
  validate_model (continuity_checks p);;
  mret p.

Definition require_generic_continuity_commit (proof : GenericContinuityCloseProof) (committed_at_ms : Z)
    : result unit :=
  validate_GenericSelectionPeriod (ct_period proof);;
  map_result validate_LockedObservationCursor (ct_observation_cursors proof);;
  proof ← validate_GenericContinuityCloseProof proof;
  raise_if ((committed_at_ms <? ct_authority_granted_at_ms proof)
            || (gp_period_expires_at_ms (ct_period proof) <=? committed_at_ms)
            || negb (last_close committed_at_ms =? ct_current_final_close_time_ms proof))
    (ValueError "Continuity commit crossed its current-close boundary").
