(* ===== verification/Control.v ===== *)
(** * The owner's control plane ([domain/strategy_entry_vacuum.py],
      [domain/owner_control.py], [domain/owner_policy.py])

    The fence that keeps new ENTRYs out while a Universe is reconfigured, the
    pause of a strategy, the states of a control operation, and the scope of an
    owner policy. *)

From S2P Require Import Prelude PyString Sha256 Identities Ticket CrossMarginStress Selection GenericSpec.
#[local] Open Scope Z_scope.

(** ** The entry vacuum *)

Inductive StrategyEntryVacuumState :=
  | V_OPEN | V_DRAINING_ENTRY | V_RECONFIGURING | V_RECOVERY_PENDING | V_RESOLVED_ACTIVE
  | V_RESOLVED_FALLBACK | V_RESOLVED_CONTINUITY | V_VALID_EMPTY | V_OWNER_PAUSED | V_SUPERSEDED
  | V_FAILED_CLOSED.
#[export] Instance StrategyEntryVacuumState_eq_dec : EqDecision StrategyEntryVacuumState.
Proof. solve_decision. Defined.

Definition vacuum_state_value (s : StrategyEntryVacuumState) : str :=
  match s with
  | V_OPEN => "OPEN"
  | V_DRAINING_ENTRY => "DRAINING_ENTRY"
  | V_RECONFIGURING => "RECONFIGURING"
  | V_RECOVERY_PENDING => "RECOVERY_PENDING"
  | V_RESOLVED_ACTIVE => "RESOLVED_ACTIVE"
  | V_RESOLVED_FALLBACK => "RESOLVED_FALLBACK"
  | V_RESOLVED_CONTINUITY => "RESOLVED_CONTINUITY"
  | V_VALID_EMPTY => "VALID_EMPTY"
  | V_OWNER_PAUSED => "OWNER_PAUSED"
  | V_SUPERSEDED => "SUPERSEDED"
  | V_FAILED_CLOSED => "FAILED_CLOSED"
  end.

(** [_TERMINAL_STATES] and [_DRAINED_STATES] *)
Definition vacuum_terminal_states : list StrategyEntryVacuumState :=
  [V_RESOLVED_ACTIVE; V_RESOLVED_FALLBACK; V_RESOLVED_CONTINUITY; V_VALID_EMPTY; V_FAILED_CLOSED].
Definition vacuum_drained_states : list StrategyEntryVacuumState :=
  vacuum_terminal_states ++ [V_RECONFIGURING; V_RECOVERY_PENDING].

Record StrategyEntryVacuum := mkVacuum {
  ev_entry_vacuum_id : str;
  ev_strategy_group_id : str;
  ev_selection_spec_id : str;
  ev_period_anchor_ms : Z;
  ev_source_generation_id : option str;
  ev_state : StrategyEntryVacuumState;
  ev_fenced_at_ms : Z;
  ev_drained_at_ms : option Z;
  ev_resolved_at_ms : option Z;
  ev_first_blocker : str;
  ev_projection_version : Z
}.

Definition blocks_new_entry (s : StrategyEntryVacuumState) : bool :=
  negb (bool_decide (s ∈ [V_RESOLVED_ACTIVE; V_RESOLVED_FALLBACK; V_RESOLVED_CONTINUITY])).

(** The clock of the specification; the first failing identity otherwise. *)
Definition vacuum_interval (strategy_group_id selection_spec_id : str) : result Z :=
  if bool_decide (selection_spec_id = "SOR_1H_OR_ATR_DYNAMIC_V1") then
    validate_model [(negb (bool_decide (strategy_group_id = "SOR-1H-001")), "hourly ORB Vacuum identity differs")];;
    mret DAY_MS
  else if bool_decide (selection_spec_id = "sor-dynamic-selection-v0") then
    validate_model [(negb (bool_decide (strategy_group_id = "SOR-001")),
                     "Vacuum StrategyGroup/Selection Spec identity differs")];;
    mret DAY_MS
  else
    match families strategy_group_id with
    | None => Raise (ValidationError ["unsupported Generic Selection family"])
    | Some f =>
        validate_model [(negb (bool_decide (fam_spec_id f = selection_spec_id)),
                         "Vacuum Selection Spec identity differs")];;
        mret (fam_cadence_hours f * 3600000)
    end.

Definition vacuum_checks (v : StrategyEntryVacuum) (interval : Z) : list (bool * str) :=
  let terminal := bool_decide (ev_state v ∈ vacuum_terminal_states) in
  [((ev_period_anchor_ms v <=? 0) || negb (ev_period_anchor_ms v mod interval =? 0),
    "Strategy Entry Vacuum period must match its Spec clock");
   ((ev_fenced_at_ms v <=? 0) || (ev_projection_version v <=? 0),
    "Vacuum fence time and projection version must be positive");
   (opt_test (λ t, t <? ev_fenced_at_ms v) (ev_drained_at_ms v), "Vacuum drain cannot precede its fence");
   (opt_test (λ r, match ev_drained_at_ms v with None => true | Some d => r <? d end) (ev_resolved_at_ms v),
    "Vacuum resolution requires completed ENTRY drain");
   (terminal && is_none (ev_resolved_at_ms v), "terminal Vacuum requires resolution time");
   (bool_decide (ev_state v ∈ vacuum_drained_states) && is_none (ev_drained_at_ms v),
    "post-drain Vacuum state requires drain time");
   (negb terminal && negb (is_none (ev_resolved_at_ms v)),
    "non-terminal Vacuum cannot have resolution time");
   (bool_decide (ev_state v ∈ [V_RECONFIGURING; V_RESOLVED_ACTIVE; V_RESOLVED_FALLBACK])
    && is_none (ev_source_generation_id v), "materialization Vacuum state requires source Generation")].

(** [str(value or "").strip() or None] *)
Definition normalized_name (o : option str) : option str :=
  match o with
  | None => None
  | Some s => if bool_decide (strip s = EmptyString) then None else Some (strip s)
  end.

Definition validate_StrategyEntryVacuum (v : StrategyEntryVacuum) : result StrategyEntryVacuum :=
  validate_fields
    ((λ n, (blank n, "Strategy Entry Vacuum identity must be non-blank")) <$>
       [ev_entry_vacuum_id v; ev_strategy_group_id v; ev_selection_spec_id v; ev_first_blocker v]);;
  let v := mkVacuum (strip (ev_entry_vacuum_id v)) (strip (ev_strategy_group_id v))
             (strip (ev_selection_spec_id v)) (ev_period_anchor_ms v)
             (normalized_name (ev_source_generation_id v)) (ev_state v) (ev_fenced_at_ms v)
             (ev_drained_at_ms v) (ev_resolved_at_ms v) (strip (ev_first_blocker v))
             (ev_projection_version v) in
  interval ← vacuum_interval (ev_strategy_group_id v) (ev_selection_spec_id v);
  validate_model (vacuum_checks v interval);;
  mret v.

(** [_LEGAL_TRANSITIONS.get(current, frozenset())] *)
Definition vacuum_transitions (s : StrategyEntryVacuumState) : list StrategyEntryVacuumState :=
  match s with
  | V_OPEN => [V_DRAINING_ENTRY; V_OWNER_PAUSED; V_SUPERSEDED; V_FAILED_CLOSED]
  | V_DRAINING_ENTRY =>
      [V_RECONFIGURING; V_RECOVERY_PENDING; V_VALID_EMPTY; V_OWNER_PAUSED; V_SUPERSEDED; V_FAILED_CLOSED]
  | V_RECONFIGURING =>
      [V_RESOLVED_ACTIVE; V_RESOLVED_FALLBACK; V_OWNER_PAUSED; V_SUPERSEDED; V_FAILED_CLOSED]
  | V_RECOVERY_PENDING =>
      [V_DRAINING_ENTRY; V_RECONFIGURING; V_RESOLVED_CONTINUITY; V_OWNER_PAUSED; V_SUPERSEDED; V_FAILED_CLOSED]
  | V_OWNER_PAUSED => [V_RECONFIGURING; V_VALID_EMPTY; V_SUPERSEDED; V_FAILED_CLOSED]
  | V_SUPERSEDED => [V_DRAINING_ENTRY; V_RECONFIGURING; V_VALID_EMPTY; V_OWNER_PAUSED; V_FAILED_CLOSED]
  | _ => []
  end.

Definition transition_strategy_entry_vacuum (current target : StrategyEntryVacuumState)
    : result StrategyEntryVacuumState :=
  if bool_decide (current = target) then mret current
  else
    raise_if (negb (bool_decide (target ∈ vacuum_transitions current)))
      (ValueError ("invalid Strategy Entry Vacuum transition: " +:+ vacuum_state_value current
                   +:+ " -> " +:+ vacuum_state_value target));;
    mret target.

(** ** The pause of a strategy *)

Inductive StrategyEntryState := ENTRY_ENABLED | ENTRY_PAUSED.
#[export] Instance StrategyEntryState_eq_dec : EqDecision StrategyEntryState.
Proof. solve_decision. Defined.

Record StrategyEntryControl := mkEntryControl {
  ec_strategy_group_id : str;
  ec_entry_state : StrategyEntryState;
  ec_control_version : Z;
  ec_last_event_id : str;
  ec_reason : str;
  ec_updated_at_ms : Z
}.

Definition validate_StrategyEntryControl (c : StrategyEntryControl) : result StrategyEntryControl :=
  validate_fields
    (((λ v, (blank v, "control identity must be non-blank")) <$>
        [ec_strategy_group_id c; ec_last_event_id c; ec_reason c]) ++
     ((λ v, (v <=? 0, "control version and time must be positive")) <$>
        [ec_control_version c; ec_updated_at_ms c]));;
  mret (mkEntryControl (strip (ec_strategy_group_id c)) (ec_entry_state c) (ec_control_version c)
          (strip (ec_last_event_id c)) (strip (ec_reason c)) (ec_updated_at_ms c)).

Definition transition_strategy_entry_control (current : StrategyEntryControl)
    (target_state : StrategyEntryState) (event_id reason : str) (now_ms : Z)
    : result StrategyEntryControl :=
  if bool_decide (ec_entry_state current = target_state) then mret current
  else
    validate_StrategyEntryControl
      (mkEntryControl (ec_strategy_group_id current) target_state (ec_control_version current + 1)
         event_id reason now_ms).

(** ** Authorizations *)

Inductive AuthorizationPurpose :=
  | strategy_pause | strategy_resume | entry_pause | entry_resume | owner_flatten_all
  | universe_configure | selection_mode_change | exit_profile_bind | exit_profile_retire.
Inductive AuthenticationStrength := session_strength | totp_step_up.

Record OwnerAuthorization := mkAuthorization {
  oa_authorization_id : str;
  oa_purpose : AuthorizationPurpose;
  oa_owner_identity : str;
  oa_authentication_strength : AuthenticationStrength;
  oa_request_digest : str;
  oa_target_scope : list (str * JsonValue);
  oa_idempotency_key : str;
  oa_authorized_at_ms : Z
}.

Definition validate_OwnerAuthorization (a : OwnerAuthorization) : result OwnerAuthorization :=
  validate_fields
    (((λ v, (blank v, "authorization identity must be non-blank")) <$>
        [oa_authorization_id a; oa_owner_identity a]) ++
     [(negb (startswith (oa_request_digest a) "sha256:") || negb (len (oa_request_digest a) =? 71),
       "request digest must be canonical sha256");
      (blank (oa_idempotency_key a), "authorization identity must be non-blank");
      (oa_authorized_at_ms a <=? 0, "authorization time must be positive")]);;
  mret (mkAuthorization (strip (oa_authorization_id a)) (oa_purpose a) (strip (oa_owner_identity a))
          (oa_authentication_strength a) (oa_request_digest a) (oa_target_scope a)
          (strip (oa_idempotency_key a)) (oa_authorized_at_ms a)).

(** ** Control operations *)

Inductive ControlOperationState :=
  | O_VALIDATING | O_PENDING | O_CLAIMED | O_EXITS_REQUESTED | O_EXIT_IN_PROGRESS
  | O_RECONCILIATION_PENDING | O_SETTLEMENT_PENDING | O_REVIEW_PENDING | O_COMPLETED | O_BLOCKED
  | O_NEEDS_INTERVENTION.
#[export] Instance ControlOperationState_eq_dec : EqDecision ControlOperationState.
Proof. solve_decision. Defined.

Definition operation_state_value (s : ControlOperationState) : str :=
  match s with
  | O_VALIDATING => "validating"
  | O_PENDING => "pending"
  | O_CLAIMED => "claimed"
  | O_EXITS_REQUESTED => "exits_requested"
  | O_EXIT_IN_PROGRESS => "exit_in_progress"
  | O_RECONCILIATION_PENDING => "reconciliation_pending"
  | O_SETTLEMENT_PENDING => "settlement_pending"
  | O_REVIEW_PENDING => "review_pending"
  | O_COMPLETED => "completed"
  | O_BLOCKED => "blocked"
  | O_NEEDS_INTERVENTION => "needs_intervention"
  end.

(** [_ALLOWED_OPERATION_TRANSITIONS.get(current, set())] *)
Definition operation_transitions (s : ControlOperationState) : list ControlOperationState :=
  match s with
  | O_VALIDATING => [O_PENDING; O_BLOCKED; O_COMPLETED]
  | O_PENDING => [O_CLAIMED; O_BLOCKED]
  | O_CLAIMED => [O_EXITS_REQUESTED; O_BLOCKED]
  | O_EXITS_REQUESTED => [O_EXIT_IN_PROGRESS; O_RECONCILIATION_PENDING; O_NEEDS_INTERVENTION]
  | O_EXIT_IN_PROGRESS => [O_RECONCILIATION_PENDING; O_NEEDS_INTERVENTION]
  | O_RECONCILIATION_PENDING => [O_SETTLEMENT_PENDING; O_NEEDS_INTERVENTION]
  | O_SETTLEMENT_PENDING => [O_REVIEW_PENDING; O_NEEDS_INTERVENTION]
  | O_REVIEW_PENDING => [O_COMPLETED; O_NEEDS_INTERVENTION]
  | O_NEEDS_INTERVENTION => [O_COMPLETED]
  | O_COMPLETED | O_BLOCKED => []
  end.

Definition advance_control_operation (current target : ControlOperationState)
    : result ControlOperationState :=
  if bool_decide (current = target) then mret current
  else
    raise_if (negb (bool_decide (target ∈ operation_transitions current)))
      (ValueError ("invalid control operation transition: " +:+ operation_state_value current
                   +:+ "->" +:+ operation_state_value target));;
    mret target.

(** ** The scope of an owner policy *)

Record EventRuntimeProfile := mkEventProfile {
  ep_event_spec_id : str;
  ep_runtime_profile_id : str
}.

Definition validate_EventRuntimeProfile (p : EventRuntimeProfile) : result EventRuntimeProfile :=
  validate_fields
    ((λ v, (blank v, "Owner Policy scope identities must be non-blank")) <$>
       [ep_event_spec_id p; ep_runtime_profile_id p]);;
  mret (mkEventProfile (strip (ep_event_spec_id p)) (strip (ep_runtime_profile_id p))).

(** [OwnerPolicyScope.event_runtime_profiles] *)
Definition OwnerPolicyScope := list EventRuntimeProfile.

Definition validate_OwnerPolicyScope (scope : OwnerPolicyScope) : result OwnerPolicyScope :=
  validate_fields
    [((length scope <? 1)%nat, "Tuple should have at least 1 item");
     ((64 <? length scope)%nat, "Tuple should have at most 64 items")];;
  let ids := ep_event_spec_id <$> scope in
  validate_model
    [(negb (bool_decide (ids = sorted ids)) || negb (bool_decide (NoDup ids)),
      "Owner Policy Event-to-Profile scope must be sorted and unique")];;
  mret scope.

(** [next((...), None)] *)
Fixpoint runtime_profile_for (scope : OwnerPolicyScope) (event_spec_id : str) : option str :=
  match scope with
  | [] => None
  | p :: scope =>
      if bool_decide (ep_event_spec_id p = event_spec_id) then Some (ep_runtime_profile_id p)
      else runtime_profile_for scope event_spec_id
  end.

Definition authorizes (scope : OwnerPolicyScope) (event_spec_id runtime_profile_id : str) : bool :=
  bool_decide (runtime_profile_for scope event_spec_id = Some runtime_profile_id).
