(* ===== verification/Recovery.v ===== *)
(** * The recovery barrier ([domain/authority_recovery_rebase.py])

    After an authority recovery an Event may enter only on a trigger that a
    later "not triggered" close of the same recovery has armed.  The checkpoint,
    its advance, the gates of a new ENTRY, and the composition with the
    comparison barrier and the Episode reducer. *)

From Stdlib Require Import QArith.
From S2P Require Import Prelude PyString Sha256 PyDecimal DecimalFacts Identities Ticket.
From S2P Require Import CrossMarginStress StrategyRegistry Signal Detector Episode Selection GenericSpec.
#[local] Open Scope Z_scope.

Inductive RecoveryState := RECOVERY_REBASE_REQUIRED | RECOVERY_ARMED.
#[export] Instance RecoveryState_eq_dec : EqDecision RecoveryState.
Proof. solve_decision. Defined.

Record AuthorityRecoveryCheckpoint := mkRecovery {
  rc_episode_domain_key : str;
  rc_recovery_id : str;
  rc_recovery_revision : Z;
  rc_effective_from_ms : Z;
  rc_first_eligible_close_time_ms : Z;
  rc_state : RecoveryState;
  rc_armed_at_close_time_ms : option Z;
  rc_last_observed_close_time_ms : option Z;
  rc_last_detector_status : option DetectorStatus;
  rc_projection_version : Z
}.
#[export] Instance AuthorityRecoveryCheckpoint_eq_dec : EqDecision AuthorityRecoveryCheckpoint.
Proof. solve_decision. Defined.

(** A positive close on the hour is wanted. *)
Definition off_hour (t : Z) : bool := (t <=? 0) || negb (t mod HOUR_MS =? 0).

Definition recovery_name_invalid (v : str) : bool :=
  blank v || negb (bool_decide (v = strip v)) || (160 <? len v).

Definition recovery_checks (c : AuthorityRecoveryCheckpoint) : list (bool * str) :=
  let first := rc_first_eligible_close_time_ms c in
  let last := rc_last_observed_close_time_ms c in
  let unarmed := bool_decide (rc_state c = RECOVERY_REBASE_REQUIRED) in
  [(existsb recovery_name_invalid [rc_episode_domain_key c; rc_recovery_id c],
    "recovery checkpoint identity is invalid");
   ((rc_recovery_revision c <=? 0) || (rc_projection_version c <=? 0),
    "recovery checkpoint versions must be positive");
   (negb ((0 <? rc_effective_from_ms c) && (rc_effective_from_ms c <? first)),
    "recovery checkpoint cannot consume a past close");
   (negb (first mod HOUR_MS =? 0) || opt_test off_hour last,
    "recovery checkpoint requires hourly close boundaries")] ++
  if match last with None => true | Some t => t <? first end then
    [(negb unarmed || negb (is_none (rc_armed_at_close_time_ms c))
      || negb (is_none (rc_last_detector_status c))
      || opt_test (λ t, rc_effective_from_ms c <? t) last,
      "pending recovery cannot fabricate an observation or an arm")]
  else
    let status := rc_last_detector_status c in
    let triggered := bool_decide (status = Some TRIGGERED) in
    [(is_none status, "observed recovery requires Detector status");
     (bool_decide (status = Some INVALID), "invalid Detector input cannot advance recovery");
     (unarmed && (negb (is_none (rc_armed_at_close_time_ms c)) || negb triggered),
      "unarmed recovery checkpoint has contradictory state");
     (negb unarmed
      && match rc_armed_at_close_time_ms c, last with
         | Some armed_at, Some t => negb ((first <=? armed_at) && (armed_at <=? t)) || negb (armed_at mod HOUR_MS =? 0)
         | _, _ => true
         end, "armed recovery checkpoint requires a legal arming close");
     (negb unarmed && triggered && bool_decide (last = rc_armed_at_close_time_ms c),
      "trigger close cannot itself prove recovery arming")].

Definition validate_AuthorityRecoveryCheckpoint (c : AuthorityRecoveryCheckpoint)
    : result AuthorityRecoveryCheckpoint :=
  validate_model (recovery_checks c);; mret c.

Record AuthorityRecoveryRebaseTransition := mkRebase {
  rt_checkpoint : AuthorityRecoveryCheckpoint;
  rt_allow_episode_advance : bool;
  rt_suppression_reason : option str
}.

(** [model_validate(current.model_dump())] of an optional checkpoint. *)
Definition revalidate_recovery (current : option AuthorityRecoveryCheckpoint) : result unit :=
  match current with
  | None => mret tt
  | Some c => _ ← validate_AuthorityRecoveryCheckpoint c; mret tt
  end.

Definition recovery_version (current : option AuthorityRecoveryCheckpoint) : Z :=
  match current with None => 1 | Some c => rc_projection_version c + 1 end.

(** [max(consumed) if consumed else None] *)
Definition latest_close (a b : option Z) : option Z :=
  match a, b with
  | Some x, Some y => Some (Z.max x y)
  | Some x, None => Some x
  | None, o => o
  end.

Definition begin_authority_recovery_rebase (current : option AuthorityRecoveryCheckpoint)
    (episode_domain_key recovery_id : str)
    (recovery_revision effective_from_ms first_eligible_close_time_ms : Z)
    (latest_consumed_close_time_ms : option Z) : result AuthorityRecoveryCheckpoint :=
  raise_if (opt_test off_hour latest_consumed_close_time_ms)
    (ValueError "recovery initialization cursor must be a positive hourly close");;
  let fresh :=
    validate_AuthorityRecoveryCheckpoint
      (mkRecovery episode_domain_key recovery_id recovery_revision effective_from_ms
         first_eligible_close_time_ms RECOVERY_REBASE_REQUIRED None
         (latest_close latest_consumed_close_time_ms (current ≫= rc_last_observed_close_time_ms))
         None (recovery_version current)) in
  match current with
  | None => fresh
  | Some c =>
      _ ← validate_AuthorityRecoveryCheckpoint c;
      raise_if (negb (bool_decide (rc_episode_domain_key c = episode_domain_key))
                || (recovery_revision <? rc_recovery_revision c))
        (ValueError "recovery initialization scope or revision is stale");;
      raise_if (effective_from_ms <? rc_effective_from_ms c)
        (ValueError "recovery initialization time cannot move backwards");;
      if recovery_revision =? rc_recovery_revision c then
        raise_if (negb (bool_decide (rc_recovery_id c = recovery_id))
                  || negb (rc_effective_from_ms c =? effective_from_ms)
                  || negb (rc_first_eligible_close_time_ms c =? first_eligible_close_time_ms))
          (ValueError "recovery initialization identity changed");;
        mret c
      else fresh
  end.

Definition advance_authority_recovery_rebase (current : option AuthorityRecoveryCheckpoint)
    (episode_domain_key recovery_id : str)
    (recovery_revision effective_from_ms first_eligible_close_time_ms observed_close_time_ms : Z)
    (detector_status : DetectorStatus) : result AuthorityRecoveryRebaseTransition :=
  raise_if ((observed_close_time_ms <? first_eligible_close_time_ms)
            || negb (observed_close_time_ms mod HOUR_MS =? 0))
    (ValueError "recovery Observation must use a future eligible hourly close");;
  let observe :=
    raise_if (bool_decide (detector_status = INVALID))
      (ValueError "invalid Detector input cannot advance recovery");;
    let changed := match current with
                   | None => true
                   | Some c => negb (recovery_revision =? rc_recovery_revision c)
                   end in
    let armed_at := if changed then None else current ≫= rc_armed_at_close_time_ms in
    let armed_at := if is_none armed_at && bool_decide (detector_status = NOT_TRIGGERED)
                 then Some observed_close_time_ms else armed_at in
    checkpoint ← validate_AuthorityRecoveryCheckpoint
      (mkRecovery episode_domain_key recovery_id recovery_revision effective_from_ms
         first_eligible_close_time_ms
         (if is_none armed_at then RECOVERY_REBASE_REQUIRED else RECOVERY_ARMED) armed_at
         (Some observed_close_time_ms) (Some detector_status) (recovery_version current));
    mret (mkRebase checkpoint (negb (is_none armed_at))
            (if is_none armed_at then Some "RECOVERY_REBASE_REQUIRED" else None)) in
  match current with
  | None => observe
  | Some c =>
      _ ← validate_AuthorityRecoveryCheckpoint c;
      raise_if (negb (bool_decide (rc_episode_domain_key c = episode_domain_key))
                || (recovery_revision <? rc_recovery_revision c))
        (ValueError "recovery checkpoint scope or revision is stale");;
      raise_if ((recovery_revision =? rc_recovery_revision c)
                && (negb (bool_decide (recovery_id = rc_recovery_id c))
                    || negb (effective_from_ms =? rc_effective_from_ms c)
                    || negb (first_eligible_close_time_ms =? rc_first_eligible_close_time_ms c)))
        (ValueError "same recovery revision has contradictory identity");;
      raise_if (opt_test (λ t, observed_close_time_ms <? t) (rc_last_observed_close_time_ms c))
        (ValueError "recovery Observation cannot move backwards");;
      if bool_decide (rc_last_observed_close_time_ms c = Some observed_close_time_ms) then
        raise_if (negb (recovery_revision =? rc_recovery_revision c)
                  || negb (bool_decide (rc_last_detector_status c = Some detector_status)))
          (ValueError "recovery cannot reuse a consumed close with changed input");;
        mret (mkRebase c false (Some "RECOVERY_CLOSE_ALREADY_OBSERVED"))
      else observe
  end.

(** ** The gates of a new ENTRY *)

Definition recovery_comparison_entry_rejection (checkpoint : option ComparisonBindingEpisodeCheckpoint)
    (binding : ComparisonUniverseBinding) (episode_domain_key : str) (signal_close_time_ms : Z)
    : result (option str) :=
  _ ← validate_ComparisonUniverseBinding binding;
  match checkpoint with
  | None =>
      mret (if cb_comparison_transition_revision binding =? 0 then None
            else Some "COMPARISON_REBASE_AUTHORITY_CHANGED")
  | Some k =>
      if cb_comparison_transition_revision binding =? 0
      then mret (Some "COMPARISON_REBASE_AUTHORITY_CHANGED")
      else
        k ← validate_ComparisonBindingEpisodeCheckpoint k;
        mret
          (if negb (bool_decide (ch_episode_domain_key k = episode_domain_key))
              || negb (bool_decide (ch_comparison_binding_digest k = cb_member_set_digest binding))
              || negb (ch_comparison_transition_revision k =? cb_comparison_transition_revision binding)
           then Some "COMPARISON_REBASE_AUTHORITY_CHANGED"
           else
             match ch_armed_at_ms k with
             | None => Some "COMPARISON_REBASE_REQUIRED"
             | Some armed_at =>
                 if negb (bool_decide (ch_state k = ARMED_UNDER_BINDING))
                 then Some "COMPARISON_REBASE_REQUIRED"
                 else if negb (bool_decide (ch_last_detector_status k = TRIGGERED))
                         || negb (ch_last_observed_at_ms k =? signal_close_time_ms)
                         || (signal_close_time_ms <=? armed_at)
                 then Some "COMPARISON_TRIGGER_NOT_CURRENT"
                 else None
             end)
  end.

Definition recovery_rebase_entry_rejection (checkpoint : option AuthorityRecoveryCheckpoint)
    (episode_domain_key recovery_id : str)
    (recovery_revision recovery_committed_at_ms first_eligible_close_time_ms signal_close_time_ms : Z)
    : result (option str) :=
  match checkpoint with
  | None => mret (Some "RECOVERY_REBASE_REQUIRED")
  | Some c =>
      _ ← validate_AuthorityRecoveryCheckpoint c;
      mret
        (if negb (bool_decide (rc_episode_domain_key c = episode_domain_key))
            || negb (bool_decide (rc_recovery_id c = recovery_id))
            || negb (rc_recovery_revision c =? recovery_revision)
            || negb (rc_effective_from_ms c =? recovery_committed_at_ms)
            || negb (rc_first_eligible_close_time_ms c =? first_eligible_close_time_ms)
         then Some "RECOVERY_REBASE_AUTHORITY_CHANGED"
         else
           match rc_armed_at_close_time_ms c with
           | None => Some "RECOVERY_REBASE_REQUIRED"
           | Some armed_at =>
               if negb (bool_decide (rc_state c = RECOVERY_ARMED)) then Some "RECOVERY_REBASE_REQUIRED"
               else if negb (bool_decide (rc_last_detector_status c = Some TRIGGERED))
                       || negb (bool_decide (rc_last_observed_close_time_ms c = Some signal_close_time_ms))
                       || (signal_close_time_ms <=? armed_at)
               then Some "RECOVERY_TRIGGER_NOT_CURRENT"
               else None
           end)
  end.

(** ** Composition with the comparison barrier and the Episode reducer *)

Record RecoveryBoundExposureEpisodeTransition := mkRecoveryTransition {
  rb_recovery_checkpoint : AuthorityRecoveryCheckpoint;
  rb_comparison_checkpoint : option ComparisonBindingEpisodeCheckpoint;
  rb_episode_transition : option ExposureEpisodeTransition;
  rb_signal_eligible : bool;
  rb_suppression_reason : option str
}.

Definition recovery_transition_checks (t : RecoveryBoundExposureEpisodeTransition) : list (bool * str) :=
  let r := rb_recovery_checkpoint t in
  let key := rc_episode_domain_key r in
  [(opt_test (λ k, negb (bool_decide (ch_episode_domain_key k = key))) (rb_comparison_checkpoint t),
    "recovery/comparison Episode identity differs");
   (opt_test (λ e,
        negb (bool_decide (ex_episode_domain_key (et_current e) = key))
        || negb (bool_decide (ex_last_observed_at_ms (et_current e) = rc_last_observed_close_time_ms r))
        || negb (bool_decide (rc_state r = RECOVERY_ARMED))) (rb_episode_transition t),
    "recovery Episode advancement requires its exact armed cursor");
   (match rb_episode_transition t, rb_comparison_checkpoint t with
    | Some _, Some k =>
        negb (bool_decide (ch_state k = ARMED_UNDER_BINDING))
        || negb (bool_decide (Some (ch_last_observed_at_ms k) = rc_last_observed_close_time_ms r))
    | _, _ => false
    end, "recovery Episode must also satisfy its comparison barrier");
   (rb_signal_eligible t
    && (match rb_episode_transition t with Some e => negb (et_created_new_episode e) | None => true end
        || negb (is_none (rb_suppression_reason t))),
    "recovery Signal requires one unsuppressed new Episode")].

Definition validate_RecoveryBoundExposureEpisodeTransition (t : RecoveryBoundExposureEpisodeTransition)
    : result RecoveryBoundExposureEpisodeTransition :=
  validate_model (recovery_transition_checks t);; mret t.

(** The arguments of the composition that are not state. *)
Record RecoveryObservation := mkRecoveryObservation {
  ro_recovery_id : str;
  ro_recovery_revision : Z;
  ro_effective_from_ms : Z;
  ro_first_eligible_close_time_ms : Z;
  ro_detector_status : DetectorStatus;
  ro_occurred_at_ms : option Z;
  ro_observed_at_ms : Z;
  ro_exchange_instrument_id : str;
  ro_selection_mode : str;
  ro_universe_version_id : str;
  ro_comparison_binding : option ComparisonUniverseBinding
}.

(** The guards on the request. *)
Definition require_recovery_request (c : RegisteredStrategyContract) (spec : GenericSelectionSpecV1)
    (o : RecoveryObservation) : result unit :=
  let static := bool_decide (ro_selection_mode o = "static_baseline") in
  raise_if (negb (bool_decide (ro_selection_mode o ∈ ["dynamic_selection"; "static_baseline"]))
            || blank (ro_universe_version_id o))
    (ValueError "recovery requires an exact current mode and Universe");;
  raise_if (negb (bool_decide (sc_event_spec_id c = gs_event_spec_id spec))
            || blank (ro_exchange_instrument_id o)
            || (negb static && negb (bool_decide (ro_exchange_instrument_id o ∈ gs_candidate_ids spec))))
    (ValueError "recovery Event or member differs from Generic Spec");;
  raise_if
    (match ro_detector_status o with
     | INVALID => true
     | TRIGGERED =>
         match ro_occurred_at_ms o with
         | None => true
         | Some t => negb ((0 <? t) && (t <=? ro_observed_at_ms o))
         end
     | NOT_TRIGGERED => negb (is_none (ro_occurred_at_ms o))
     end) (ValueError "recovery requires a valid closed-bar Detector result").

(** The guards on the current Episode. *)
Definition require_recovery_episode (spec : GenericSelectionSpecV1) (o : RecoveryObservation)
    (key : str) (duplicate : bool) (current : option ExposureEpisodeState)
    : result (option ExposureEpisodeState) :=
  match current with
  | None => mret None
  | Some e =>
      e ← validate_ExposureEpisodeState e;
      raise_if (negb (bool_decide (ex_episode_domain_key e = key))
                || negb (bool_decide (ex_event_spec_id e = gs_event_spec_id spec))
                || negb (bool_decide (ex_exchange_instrument_id e = ro_exchange_instrument_id o))
                || negb (bool_decide (ex_position_side e = gs_position_side spec)))
        (ValueError "recovery Episode identity differs");;
      raise_if (opt_test (λ t, (ro_observed_at_ms o <? t) || ((t =? ro_observed_at_ms o) && negb duplicate))
                  (ex_last_observed_at_ms e))
        (ValueError "recovery cannot reuse a consumed Episode close");;
      mret (Some e)
  end.

(** The guards on the comparison membership of a comparative Event. *)
Definition require_recovery_comparison (spec : GenericSelectionSpecV1) (o : RecoveryObservation)
    (key : str) (duplicate : bool) (b : ComparisonUniverseBinding)
    (current : option ComparisonBindingEpisodeCheckpoint)
    : result (option ComparisonBindingEpisodeCheckpoint) :=
  let static := bool_decide (ro_selection_mode o = "static_baseline") in
  _ ← validate_ComparisonUniverseBinding b;
  raise_if (negb (bool_decide (cb_event_spec_id b = gs_event_spec_id spec))
            || negb (bool_decide (ro_exchange_instrument_id o ∈ cb_exchange_instrument_ids b))
            || negb (bool_decide (cb_source_static_universe_version_id b
                       = if static then Some (ro_universe_version_id o) else None)))
    (ValueError "recovery comparison mode, member or Universe differs");;
  match current with
  | None => mret None
  | Some k =>
      k ← validate_ComparisonBindingEpisodeCheckpoint k;
      let revision := cb_comparison_transition_revision b in
      raise_if (negb (bool_decide (ch_episode_domain_key k = key))
                || (revision <? ch_comparison_transition_revision k)
                || ((revision =? ch_comparison_transition_revision k)
                    && negb (bool_decide (cb_member_set_digest b = ch_comparison_binding_digest k))))
        (ValueError "recovery comparison identity or revision differs");;
      raise_if ((ro_observed_at_ms o <? ch_last_observed_at_ms k)
                || ((ch_last_observed_at_ms k =? ro_observed_at_ms o) && negb duplicate))
        (ValueError "recovery cannot reuse a consumed comparison close");;
      mret (Some k)
  end.

(** The comparison identity of the request: required of a comparative Event,
    forbidden to the others. *)
Definition recovery_comparison (c : RegisteredStrategyContract) (spec : GenericSelectionSpecV1)
    (o : RecoveryObservation) (key : str) (duplicate : bool)
    (current : option ComparisonBindingEpisodeCheckpoint)
    : result (option (ComparisonUniverseBinding * option ComparisonBindingEpisodeCheckpoint)) :=
  if bool_decide (sc_strategy_group_id c ∈ ["MPG-001"; "MI-001"]) then
    match ro_comparison_binding o with
    | None => Raise (ValueError "recovery comparison binding is missing")
    | Some b => k ← require_recovery_comparison spec o key duplicate b current; mret (Some (b, k))
    end
  else
    raise_if (negb (is_none current)
              || match ro_comparison_binding o with Some _ => true | None => false end)
      (ValueError "non-comparative recovery forbids comparison identity");;
    mret None.

Definition advance_recovery_bound_exposure_episode (c : RegisteredStrategyContract)
    (current_episode : option ExposureEpisodeState)
    (current_recovery : option AuthorityRecoveryCheckpoint)
    (current_comparison : option ComparisonBindingEpisodeCheckpoint)
    (o : RecoveryObservation) : result RecoveryBoundExposureEpisodeTransition :=
  spec ← generic_selection_spec (sc_strategy_group_id c);
  require_recovery_request c spec o;;
  let key := build_episode_domain_key (gs_event_spec_id spec) (ro_exchange_instrument_id o)
               (gs_position_side spec) in
  revalidate_recovery current_recovery;;
  let duplicate := bool_decide ((current_recovery ≫= rc_last_observed_close_time_ms)
                                = Some (ro_observed_at_ms o)) in
  current_episode ← require_recovery_episode spec o key duplicate current_episode;
  comparison ← recovery_comparison c spec o key duplicate current_comparison;
  let current_comparison := comparison ≫= snd in
  recovery ← advance_authority_recovery_rebase current_recovery key (ro_recovery_id o)
    (ro_recovery_revision o) (ro_effective_from_ms o) (ro_first_eligible_close_time_ms o)
    (ro_observed_at_ms o) (ro_detector_status o);
  if negb (rt_allow_episode_advance recovery) then
    validate_RecoveryBoundExposureEpisodeTransition
      (mkRecoveryTransition (rt_checkpoint recovery) current_comparison None false
         (rt_suppression_reason recovery))
  else
    let plain :=
      episode ← advance_exposure_episode c current_episode (ro_detector_status o) (ro_occurred_at_ms o)
        (ro_observed_at_ms o) (ro_exchange_instrument_id o);
      validate_RecoveryBoundExposureEpisodeTransition
        (mkRecoveryTransition (rt_checkpoint recovery) None (Some episode)
           (et_created_new_episode episode && bool_decide (ro_detector_status o = TRIGGERED)) None) in
    match comparison with
    | Some (b, _) =>
        if cb_comparison_transition_revision b =? 0 then plain
        else
          compared ← advance_comparison_bound_exposure_episode c current_episode current_comparison
            (mkObservation (ro_detector_status o) (ro_occurred_at_ms o) (ro_observed_at_ms o)
               (ro_exchange_instrument_id o) (cb_member_set_digest b)
               (cb_comparison_transition_revision b));
          validate_RecoveryBoundExposureEpisodeTransition
            (mkRecoveryTransition (rt_checkpoint recovery) (Some (bt_checkpoint compared))
               (bt_episode_transition compared) (bt_signal_eligible compared)
               (bt_suppression_reason compared))
    | None => plain
    end.
