(* ===== verification/TextFacts.v ===== *)
(** * Identities as text

    Orders on names, and texts that [strip] leaves alone: the identities the
    program builds from stripped parts, and its digests. *)

From S2P Require Import Prelude PyString Sha256 Identities StrategyRegistry Signal DecimalText Episode Selection.
#[local] Open Scope Z_scope.

(** ** Sorted names *)

Lemma string_leb_trans a b c :
  String.leb a b = true → String.leb b c = true → String.leb a c = true.
Proof.
  intros H1 H2.
  assert (H : String.le a c) by (transitivity b; by apply Is_true_true). by apply Is_true_true in H.
Qed.

Lemma sorted_perm l l' : l ≡ₚ l' → sorted l = sorted l'.
Proof.
  apply sort_by_unique; [apply String.leb_total|apply string_leb_trans|].
  intros a b _ _. apply String.leb_antisym.
Qed.

(** ** Stripped texts *)

Lemma rstrip_append a b : rstrip b = b → b ≠ EmptyString → rstrip (a +:+ b) = a +:+ b.
Proof.
  intros Hb Hne. induction a as [|c a IH]; [done|]. rewrite append_cons, rstrip_cons, IH.
  destruct a as [|c' a]; cbn; [by destruct b|done].
Qed.

(** A text between a first part that opens without space and a last one that
    closes without. *)
Lemma strip_framed c a b :
  is_space c = false → rstrip b = b → b ≠ EmptyString → strip (String c a +:+ b) = String c a +:+ b.
Proof. intros Hc Hb Hne. unfold strip. rewrite lstrip_noop by done. by apply rstrip_append. Qed.

Lemma digits_no_space s : all_digits s = true → no_space s = true.
Proof.
  unfold all_digits, no_space. rewrite !forallb_forall. intros H c Hc. specialize (H c Hc).
  unfold is_digit, is_space in *. lia.
Qed.

Lemma integer_stripped n : 0 <= n → rstrip (string_of_Z n) = string_of_Z n ∧ string_of_Z n ≠ EmptyString.
Proof.
  intros H. destruct (digits_of n H) as (Hd & _ & Hne). split; [|done].
  by apply rstrip_no_space, digits_no_space.
Qed.

(** ** Digests are read as digests *)

Lemma hex_digit_facts c :
  is_hex_digit c = true → lower_ascii c = c ∧ c ≠ "-"%char ∧ c ≠ "+"%char ∧ c ≠ "x"%char ∧ c ≠ "X"%char.
Proof.
  intros H. pose proof (forall_ascii (λ c, negb (is_hex_digit c)
    || bool_decide (lower_ascii c = c ∧ c ≠ "-"%char ∧ c ≠ "+"%char ∧ c ≠ "x"%char ∧ c ≠ "X"%char))
    eq_refl c) as F. cbn in F. rewrite H in F. cbn in F. by apply bool_decide_eq_true_1 in F.
Qed.

Lemma hex_digits_read after s :
  all_hex s = true → after = true ∨ s ≠ EmptyString → hex_digits_with_underscores after s = true.
Proof.
  revert after. induction s as [|c s IH]; intros after Hs Hne; [by destruct Hne|].
  unfold all_hex in Hs. cbn in Hs |- *. apply andb_true in Hs as [Hc Hs].
  destruct (hex_digit_facts c Hc) as [-> _]. rewrite Hc. apply IH; [done|by left].
Qed.

Lemma hex_parses s : all_hex s = true → s ≠ EmptyString → parses_base_16 s = true.
Proof.
  intros Hs Hne. unfold parses_base_16. rewrite strip_no_space by by apply hex_no_space.
  destruct s as [|c s]; [done|]. pose proof Hs as Hcs. unfold all_hex in Hs. cbn in Hs.
  apply andb_true in Hs as [Hc Hs]. destruct (hex_digit_facts c Hc) as (_ & Hm & Hp & _).
  unfold take_sign. rewrite !bool_decide_eq_false_2 by done.
  assert (E : startswith (String c s) "0x" || startswith (String c s) "0X" = false).
  { destruct s as [|c' s]; [cbn; by repeat case_match|]. cbn in Hs. apply andb_true in Hs as [Hc' _].
    destruct (hex_digit_facts c' Hc') as (_ & _ & _ & Hx & HX). unfold startswith. cbn [String.prefix].
    repeat (case_match; simplify_eq; try done). }
  rewrite E. apply hex_digits_read; [done|by right].
Qed.

Lemma digest_shaped d : is_sha256_digest d = true → sha256_shaped d = true.
Proof.
  unfold is_sha256_digest, sha256_shaped. intros [[Hp Hh]%andb_true Hl]%andb_true.
  change (startswith d sha256_prefix) with (startswith d "sha256:") in Hp. rewrite Hp, Hl. cbn [andb].
  apply Z.eqb_eq in Hl. unfold len in Hl.
  assert (E : String.substring 7 (String.length d - 7) d = String.substring 7 (String.length d) d).
  { replace (String.length d) with 71%nat by lia. clear Hp Hh.
    do 7 (destruct d as [|? d]; [done|]). cbn [String.substring]. cbn [String.length] in Hl.
    rewrite !substring_all by lia. done. }
  rewrite E. apply hex_parses; [done|].
  do 8 (destruct d as [|? d]; [done|]). done.
Qed.

Lemma selection_digest_shaped v : sha256_shaped (selection_digest v) = true.
Proof. apply digest_shaped, json_digest_ok. Qed.

(** ** Parts of a text *)

Lemma substring_prefix n a b : n = String.length a → String.substring 0 n (a +:+ b) = a.
Proof. intros ->. induction a as [|c a IH]; [by destruct b|]. rewrite append_cons. cbn. by rewrite IH. Qed.

Lemma substring_rest n k a b : n = String.length a → k = String.length b → String.substring n k (a +:+ b) = b.
Proof.
  intros -> ->. induction a as [|c a IH]; [by apply substring_all|]. rewrite append_cons. done.
Qed.

Lemma prefix_text p s : String.prefix p s = true ↔ ∃ r, s = p +:+ r.
Proof.
  revert s. induction p as [|c p IH]; intros s; [split; [by exists s|by destruct s]|].
  destruct s as [|d s]; cbn [String.prefix].
  - split; [done|]. intros [r E]. by rewrite append_cons in E.
  - destruct (ascii_dec c d) as [->|Hne].
    + rewrite IH. split; intros [r E]; exists r; rewrite append_cons in *; [by rewrite E|by injection E as ->].
    + split; [done|]. intros [r E]. rewrite append_cons in E. by injection E as ->.
Qed.
