(* ===== verification/ProduceSignal.v ===== *)
(** * Producing a signal ([application/produce_strategy_signal.py])

    From a triggered detector result and its persisted facts to the
    deterministic [StrategySignal] of a runtime scope. *)

From Stdlib Require Import QArith.
From S2P Require Import Prelude PyString Sha256 PyDecimal DecimalFacts Identities Ticket.
From S2P Require Import StrategyRegistry Signal Product Market Detector Detectors.
#[local] Open Scope Z_scope.

Inductive ScopeLifecycleState :=
  | scope_warming | scope_staged | scope_active | scope_retired | scope_abandoned.
#[export] Instance ScopeLifecycleState_eq_dec : EqDecision ScopeLifecycleState.
Proof. solve_decision. Defined.

(** [RuntimeScopeSnapshot] of [application/ports.py]. *)
Record RuntimeScopeSnapshot := mkRuntimeScope {
  rs_runtime_scope_id : str;
  rs_strategy_group_id : str;
  rs_strategy_version_id : str;
  rs_event_spec_id : str;
  rs_runtime_profile_id : str;
  rs_owner_policy_id : str;
  rs_exchange_instrument_id : str;
  rs_position_side : PositionSide;
  rs_universe_version_id : str;
  rs_universe_semantic_digest : str;
  rs_lifecycle_state : ScopeLifecycleState;
  rs_observation_enabled : bool;
  rs_entry_enabled : bool;
  rs_scope_version : Z;
  rs_observation_generation : Z;
  rs_warm_closed_bar_time_ms : option Z;
  rs_warm_completed_at_ms : option Z;
  rs_warm_readiness_digest : option str;
  rs_warm_valid_until_ms : option Z
}.

Definition validate_RuntimeScopeSnapshot (s : RuntimeScopeSnapshot) : result RuntimeScopeSnapshot :=
  validate_fields [(rs_observation_generation s <? 0, "observation generation must be nonnegative")];;
  mret s.

(** [_canonical_decimal].  The validator of a fact leaves no infinity or NaN. *)
Definition canonical_reference (value : JsonValue) : result str :=
  match decimal_of_value value with
  | Some (Some d) => mret (format_f (normalize d))
  | _ => Raise DecimalInvalidOperation
  end.

(** [min(...)], [max(...)] of the times of the facts. *)
Definition min_ms (l : list Z) : result Z :=
  match l with
  | [] => Raise (ValueError "min() iterable argument is empty")
  | x :: l => mret (foldl Z.min x l)
  end.
Definition max_ms (l : list Z) : result Z :=
  match l with
  | [] => Raise (ValueError "max() iterable argument is empty")
  | x :: l => mret (foldl Z.max x l)
  end.

(** [f"{prefix}:{sha256(json.dumps(...)).hexdigest()}"]; the dump escapes
    non-ASCII. *)
Definition signal_digest (prefix : str) (payload : JsonValue) : str :=
  prefix +:+ ":" +:+ sha256_hexdigest (encode_utf8 (json_dumps true payload)).

(** The scope is the contract's, active, observed and open for ENTRY. *)
Definition scope_serves (c : RegisteredStrategyContract) (scope : RuntimeScopeSnapshot) : bool :=
  bool_decide (rs_strategy_group_id scope = sc_strategy_group_id c)
  && bool_decide (rs_strategy_version_id scope = sc_strategy_version_id c)
  && bool_decide (rs_event_spec_id scope = sc_event_spec_id c)
  && bool_decide (rs_position_side scope = sc_position_side c)
  && bool_decide (rs_lifecycle_state scope = scope_active)
  && rs_observation_enabled scope && rs_entry_enabled scope.

(** The Episode: given for a rising-edge Event, derived from the identity
    references for a session Event. *)
Definition resolve_episode (c : RegisteredStrategyContract) (scope : RuntimeScopeSnapshot)
    (identity_references : list str) (exposure_episode_id : option str) : result str :=
  if bool_decide (sc_episode_policy c = rising_edge) then
    let id := strip (default EmptyString exposure_episode_id) in
    raise_if (negb (startswith id "episode:"))
      (ValueError "rising-edge Signal requires an explicit Episode identity");;
    raise_if (match identity_references with [] => false | _ => true end)
      (ValueError "rising-edge Signal forbids identity-reference facts");;
    mret id
  else
    raise_if (negb (is_none exposure_episode_id))
      (ValueError "session-reference Signal owns its Episode identity");;
    raise_if (match identity_references with [] => true | _ => false end)
      (ValueError "session-reference Signal requires identity facts");;
    mret (signal_digest "episode"
      (JObj [("event_spec_id", JStr (sc_event_spec_id c));
             ("exchange_instrument_id", JStr (rs_exchange_instrument_id scope));
             ("position_side", JStr (side_value (sc_position_side c)));
             ("identity_references", JList (JStr <$> identity_references))])).

Definition produce_strategy_signal (c : RegisteredStrategyContract) (scope : RuntimeScopeSnapshot)
    (r : DetectorResult) (persisted_facts : list SignalFactSnapshot)
    (exposure_episode_id selection_authority_id : option str) : result StrategySignal :=
  match detector_triggered r, dr_occurred_at_ms r with
  | true, Some occurred_at_ms =>
      raise_if (negb (bool_decide (dr_event_spec_id r = sc_event_spec_id c))
                || negb (scope_serves c scope))
        (ValueError "Signal contract and runtime scope identity differ");;
      raise_if (negb (same_identities (sf_fact_definition_id <$> persisted_facts)
                        (fr_fact_definition_id <$> registered_facts c)))
        (ValueError "persisted Signal facts differ from Registry contract");;
      let facts := sort_facts persisted_facts in
      fact_digest ← build_signal_fact_digest facts;
      expires_at_ms ← min_ms (sf_valid_until_ms <$> facts);
      identity_references ←
        map_result (λ f, canonical_reference (sf_value f))
          (filter (λ f, sf_role f = role_identity_reference) facts);
      episode_id ← resolve_episode c scope identity_references exposure_episode_id;
      observed_at_ms ← max_ms (sf_observed_at_ms <$> facts);
      validate_StrategySignal
        {| sg_signal_event_id :=
             signal_digest "signal" (JObj [("exposure_episode_id", JStr episode_id)]);
           sg_exposure_episode_id := episode_id;
           sg_runtime_scope_id := rs_runtime_scope_id scope;
           sg_runtime_scope_version := rs_scope_version scope;
           sg_strategy_group_id := sc_strategy_group_id c;
           sg_strategy_version_id := sc_strategy_version_id c;
           sg_event_spec_id := sc_event_spec_id c;
           sg_universe_version_id := rs_universe_version_id scope;
           sg_universe_semantic_digest := rs_universe_semantic_digest scope;
           sg_exchange_instrument_id := rs_exchange_instrument_id scope;
           sg_position_side := sc_position_side c;
           sg_fact_digest := fact_digest;
           sg_occurred_at_ms := occurred_at_ms;
           sg_observed_at_ms := observed_at_ms;
           sg_expires_at_ms := expires_at_ms;
           sg_facts := facts;
           sg_selection_authority_id := selection_authority_id |}
  | _, _ => Raise (ValueError "StrategySignal requires a triggered detector result")
  end.
