(* ===== verification/Dispatch.v ===== *)
(** * The last look before an ENTRY leaves ([application/revalidate_entry_dispatch.py],
      [application/strategy_authority.py])

    The decision, on facts read immediately before the venue is called, whether
    the frozen Ticket may still enter: no resizing and no repricing, the first
    guard that fails names the refusal. *)

From S2P Require Import Prelude PyString PyDecimal Identities Ticket CrossMarginStress CapacitySizing.
From S2P Require Import Commands Capacity Admission Product Control ProduceSignal.
#[local] Open Scope Z_scope.

(** ** The facts of one decision ([application/ports.py], [application/runtime_facts.py]) *)

(** [OwnerPolicySnapshot]; [supported_margin_mode] has the single value "cross". *)
Record OwnerPolicySnapshot := mkOwnerPolicy {
  wp_owner_policy_id : str;
  wp_policy_version : Z;
  wp_enabled : bool;
  wp_new_entry_submit_enabled : bool;
  wp_priority_rank : Z;
  wp_max_concurrent_tickets : Z;
  wp_max_same_strategy_side : option Z;
  wp_family_ticket_limits : FamilyTicketLimits;
  wp_max_ticket_stop_risk_fraction : Decimal;
  wp_max_gross_stop_risk_fraction : Decimal;
  wp_max_ticket_initial_margin_fraction : Decimal;
  wp_max_gross_initial_margin_utilization : Decimal;
  wp_directional_stop_risk_limit_fraction : Decimal;
  wp_min_materialization_ratio : Decimal;
  wp_max_leverage : Z;
  wp_post_stop_stress_multiple : Decimal;
  wp_max_post_fill_stop_risk_overrun_fraction : Decimal;
  wp_scope : option OwnerPolicyScope
}.

Record StrategyGroupSnapshot := mkGroup {
  gr_strategy_group_id : str;
  gr_active_version_id : option str;
  gr_status : str
}.

Record StrategyVersionSnapshot := mkVersion {
  ve_strategy_version_id : str;
  ve_strategy_group_id : str;
  ve_status : str
}.

Record EventSpecSnapshot := mkEventSpec {
  es_event_spec_id : str;
  es_strategy_version_id : str;
  es_position_side : PositionSide;
  es_entry_order_type : str;
  es_status : str
}.

Record ActiveStrategyUniverseSnapshot := mkActiveUniverse {
  au_event_spec_id : str;
  au_universe_version_id : str;
  au_semantic_digest : str;
  au_exchange_instrument_id : str
}.

Record RuntimeCapabilitySnapshot := mkCapability {
  rc_capability_key : str;
  rc_enabled : bool;
  rc_certified_commit : str;
  rc_schema_revision : str
}.

Record InstrumentRulesFacts := mkRulesFacts {
  rf_exchange_instrument_id : str;
  rf_quantity_step : Decimal;
  rf_price_tick : Decimal;
  rf_min_quantity : Decimal;
  rf_min_notional : Decimal;
  rf_exchange_max_leverage : Z;
  rf_maintenance_margin_brackets : list MaintenanceMarginBracket;
  rf_maintenance_margin_brackets_digest : str;
  rf_notional_coefficient : Decimal;
  rf_notional_coefficient_certified : bool;
  rf_observed_at_ms : Z;
  rf_valid_until_ms : Z
}.

Definition validate_InstrumentRulesFacts (r : InstrumentRulesFacts) : result InstrumentRulesFacts :=
  let digest := strip (rf_maintenance_margin_brackets_digest r) in
  validate_fields
    ((blank (rf_exchange_instrument_id r), "instrument rules require instrument identity") ::
     ((λ v, ((v <=? d0)%dec, "instrument rules must be positive")) <$>
        [rf_quantity_step r; rf_price_tick r; rf_min_quantity r; rf_min_notional r]) ++
     [(rf_exchange_max_leverage r <=? 0, "exchange maximum leverage must be a positive integer");
      (negb (len digest =? 71) || negb (startswith digest "sha256:"),
       "maintenance brackets require a canonical digest");
      ((rf_notional_coefficient r <=? d0)%dec, "instrument rules must be positive")]);;
  validate_model
    [((rf_observed_at_ms r <=? 0) || (rf_valid_until_ms r <=? rf_observed_at_ms r),
      "instrument rule window must be current");
     (match rf_maintenance_margin_brackets r with [] => true | _ => false end,
      "instrument rules require maintenance margin brackets")];;
  mret (mkRulesFacts (strip (rf_exchange_instrument_id r)) (rf_quantity_step r) (rf_price_tick r)
          (rf_min_quantity r) (rf_min_notional r) (rf_exchange_max_leverage r)
          (rf_maintenance_margin_brackets r) digest (rf_notional_coefficient r)
          (rf_notional_coefficient_certified r) (rf_observed_at_ms r) (rf_valid_until_ms r)).

(** ** The decision *)

Inductive EntryDispatchPreflightStatus :=
  | PREFLIGHT_ALLOWED | COMMAND_MISMATCH | DEADLINE_EXPIRED | POLICY_DRIFT | NEW_ENTRY_DISABLED
  | STRATEGY_PAUSED | SELECTION_ENTRY_VACUUM | SELECTION_AUTHORITY_INVALID | SCOPE_DRIFT
  | RUNTIME_FENCED | STALE_SNAPSHOT | ACCOUNT_MODE_INVALID | INCIDENT_FENCED | OWNERSHIP_CONFLICT
  | WALLET_RISK_DRIFT | MARGIN_DRIFT | PREFLIGHT_FAMILY_CAPACITY_EXHAUSTED
  | PREFLIGHT_STRATEGY_SIDE_CAPACITY_EXHAUSTED | QUOTE_RISK | PRODUCT_ENTRY_BLOCKED | STRESS_FAILED
  | LEVERAGE_MISMATCH.
#[export] Instance EntryDispatchPreflightStatus_eq_dec : EqDecision EntryDispatchPreflightStatus.
Proof. solve_decision. Defined.

Record EntryDispatchPreflightRequest := mkPreflight {
  pq_command : ExchangeCommand;
  pq_ticket : TradeTicket;
  pq_capacity_claim : CapacityClaim;
  pq_owner_policy : option OwnerPolicySnapshot;
  pq_runtime_scope : option RuntimeScopeSnapshot;
  pq_active_universe : option ActiveStrategyUniverseSnapshot;
  pq_strategy_group : option StrategyGroupSnapshot;
  pq_strategy_version : option StrategyVersionSnapshot;
  pq_event_spec : option EventSpecSnapshot;
  pq_runtime_capability : option RuntimeCapabilitySnapshot;
  pq_runtime_commit : str;
  pq_schema_revision : str;
  pq_admission_snapshot : EntryAdmissionSnapshot;
  pq_instrument_rules : InstrumentRulesFacts;
  pq_account_entry_health : AccountEntryHealth;
  pq_instrument_entry_health : InstrumentEntryHealth;
  pq_active_family_ticket_count : Z;
  pq_active_strategy_side_ticket_count : Z;
  pq_active_directional_risk_at_stop : Decimal;
  pq_now_ms : Z;
  pq_product_entry_decision : option ProductEntryDecision;
  pq_strategy_entry_enabled : bool;
  pq_selection_entry_vacuum_open : bool;
  pq_selection_authority_valid : bool
}.

Definition normalize_preflight (r : EntryDispatchPreflightRequest) : EntryDispatchPreflightRequest :=
  mkPreflight (pq_command r) (pq_ticket r) (pq_capacity_claim r) (pq_owner_policy r)
    (pq_runtime_scope r) (pq_active_universe r) (pq_strategy_group r) (pq_strategy_version r)
    (pq_event_spec r) (pq_runtime_capability r) (strip (pq_runtime_commit r))
    (strip (pq_schema_revision r)) (pq_admission_snapshot r) (pq_instrument_rules r)
    (pq_account_entry_health r) (pq_instrument_entry_health r) (pq_active_family_ticket_count r)
    (pq_active_strategy_side_ticket_count r) (pq_active_directional_risk_at_stop r) (pq_now_ms r)
    (pq_product_entry_decision r) (pq_strategy_entry_enabled r) (pq_selection_entry_vacuum_open r)
    (pq_selection_authority_valid r).

Definition validate_EntryDispatchPreflightRequest (r : EntryDispatchPreflightRequest)
    : result EntryDispatchPreflightRequest :=
  validate_fields
    (((λ v, (blank v, "dispatch runtime identity must be non-blank")) <$>
        [pq_runtime_commit r; pq_schema_revision r]) ++
     ((λ v, (v <? 0, "active Family Ticket count cannot be negative")) <$>
        [pq_active_family_ticket_count r; pq_active_strategy_side_ticket_count r]) ++
     [((pq_active_directional_risk_at_stop r <? d0)%dec,
       "active directional stop risk cannot be negative");
      (pq_now_ms r <=? 0, "dispatch preflight time must be positive")]);;
  mret (normalize_preflight r).

(** ** Equality of two Tickets: decimals are compared as numbers *)

Definition opt_eqb {A} (eqb : A → A → bool) (a b : option A) : bool :=
  match a, b with
  | Some x, Some y => eqb x y
  | None, None => true
  | _, _ => false
  end.

Fixpoint list_eqb {A} (eqb : A → A → bool) (a b : list A) : bool :=
  match a, b with
  | [], [] => true
  | x :: a, y :: b => eqb x y && list_eqb eqb a b
  | _, _ => false
  end.

(** [a == b] *)
Definition same_ticket (a b : TradeTicket) : bool :=
  bool_decide (tk_identity a = tk_identity b)
  && forallb (λ p : str * str, bool_decide (p.1 = p.2))
       [(tk_owner_policy_id a, tk_owner_policy_id b); (tk_runtime_scope_id a, tk_runtime_scope_id b);
        (tk_universe_version_id a, tk_universe_version_id b);
        (tk_universe_semantic_digest a, tk_universe_semantic_digest b);
        (tk_fact_digest a, tk_fact_digest b); (tk_exit_policy_id a, tk_exit_policy_id b);
        (tk_exit_policy_semantic_hash a, tk_exit_policy_semantic_hash b);
        (tk_capacity_claim_id a, tk_capacity_claim_id b);
        (tk_risk_reservation_basis a, tk_risk_reservation_basis b);
        (tk_claim_stress_proof_digest a, tk_claim_stress_proof_digest b)]
  && forallb (λ p : Z * Z, p.1 =? p.2)
       [(tk_owner_policy_version a, tk_owner_policy_version b);
        (tk_runtime_scope_version a, tk_runtime_scope_version b);
        (tk_active_family_ticket_count_at_claim a, tk_active_family_ticket_count_at_claim b);
        (tk_family_ticket_limit a, tk_family_ticket_limit b);
        (tk_created_at_ms a, tk_created_at_ms b); (tk_expires_at_ms a, tk_expires_at_ms b);
        (tk_selected_leverage a, tk_selected_leverage b)]
  && forallb (λ p : Decimal * Decimal, (p.1 =? p.2)%dec)
       [(tk_directional_risk_at_stop_at_claim a, tk_directional_risk_at_stop_at_claim b);
        (tk_directional_stop_risk_limit_fraction a, tk_directional_stop_risk_limit_fraction b);
        (tk_min_materialization_ratio a, tk_min_materialization_ratio b);
        (tk_minimum_stop_risk_budget a, tk_minimum_stop_risk_budget b);
        (tk_entry_reference_price a, tk_entry_reference_price b); (tk_quantity a, tk_quantity b);
        (tk_notional a, tk_notional b);
        (tk_planned_stop_risk_budget a, tk_planned_stop_risk_budget b);
        (tk_post_fill_stop_risk_limit a, tk_post_fill_stop_risk_limit b);
        (tk_reserved_margin a, tk_reserved_margin b);
        (tk_post_stop_stress_multiple a, tk_post_stop_stress_multiple b);
        (tk_risk_at_stop a, tk_risk_at_stop b); (tk_initial_stop_price a, tk_initial_stop_price b)]
  && bool_decide (tk_exposure_family a = tk_exposure_family b)
  && bool_decide (tk_exit_binding_id a = tk_exit_binding_id b)
  && bool_decide (tk_exit_binding_semantic_hash a = tk_exit_binding_semantic_hash b)
  && bool_decide (tk_exit_binding_authority_version a = tk_exit_binding_authority_version b)
  && Bool.eqb (tk_leverage_change_required a) (tk_leverage_change_required b)
  && bool_decide (tk_entry_order_type a = tk_entry_order_type b)
  && opt_eqb deqb (tk_entry_limit_price a) (tk_entry_limit_price b)
  && opt_eqb deqb (tk_pre_tp1_reclaim_price a) (tk_pre_tp1_reclaim_price b)
  && bool_decide (tk_exposure_session_end_ms a = tk_exposure_session_end_ms b)
  && list_eqb deqb (tk_take_profit_prices a) (tk_take_profit_prices b)
  && list_eqb deqb (tk_take_profit_quantities a) (tk_take_profit_quantities b)
  && bool_decide (tk_status a = tk_status b)
  && bool_decide (tk_selection_authority_id a = tk_selection_authority_id b).

(** ** The guards *)

(** [_command_matches_ticket_and_claim] *)
Definition command_matches_ticket_and_claim (command : ExchangeCommand) (ticket : TradeTicket)
    (claim : CapacityClaim) : result bool :=
  if negb (bool_decide (ec_kind command ∈ [SET_LEVERAGE; ENTRY])) then mret false
  else if negb (bool_decide (ec_status command = Commands.CLAIMED)) || negb (ec_generation command =? 1)
  then mret false
  else if negb (bool_decide (ec_ticket_identity command = tk_identity ticket)) then mret false
  else
    issued ← to_ticket claim;
    if negb (same_ticket issued ticket) then mret false
    else if negb (bool_decide (tk_capacity_claim_id ticket = cc_capacity_claim_id claim)) then mret false
    else
      mret
        (if bool_decide (ec_kind command = SET_LEVERAGE) then
           match ec_payload command with
           | LeveragePayload p =>
               (lp_desired_leverage p =? tk_selected_leverage ticket)
               && (lp_owner_policy_version p =? tk_owner_policy_version ticket)
           | _ => false
           end
         else
           match ec_payload command with
           | OrderPayload p =>
               (tk_selected_leverage ticket =? FIXED_EXCHANGE_CONFIGURED_LEVERAGE)
               && bool_decide (op_required_configured_leverage p = Some FIXED_EXCHANGE_CONFIGURED_LEVERAGE)
           | _ => false
           end).

(** [_policy_matches], of a policy that is there.  (The margin mode of a Ticket
    and of a policy has one legal value.) *)
Definition policy_matches (policy : OwnerPolicySnapshot) (ticket : TradeTicket) (claim : CapacityClaim)
    : bool :=
  bool_decide (wp_owner_policy_id policy = tk_owner_policy_id ticket)
  && (wp_policy_version policy =? tk_owner_policy_version ticket)
  && wp_enabled policy
  && (tk_selected_leverage ticket <=? wp_max_leverage policy)
  && (cc_family_ticket_limit claim
      =? for_family (wp_family_ticket_limits policy) (tk_exposure_family ticket))
  && bool_decide (cc_max_same_strategy_side claim = wp_max_same_strategy_side policy)
  && (cc_max_ticket_stop_risk_fraction claim =? wp_max_ticket_stop_risk_fraction policy)%dec
  && (cc_max_gross_stop_risk_fraction claim =? wp_max_gross_stop_risk_fraction policy)%dec
  && (cc_max_ticket_initial_margin_fraction claim =? wp_max_ticket_initial_margin_fraction policy)%dec
  && (cc_max_gross_initial_margin_utilization claim
      =? wp_max_gross_initial_margin_utilization policy)%dec
  && (cc_directional_stop_risk_limit_fraction claim
      =? wp_directional_stop_risk_limit_fraction policy)%dec
  && (cc_min_materialization_ratio claim =? wp_min_materialization_ratio policy)%dec
  && (tk_minimum_stop_risk_budget ticket =? cc_minimum_stop_risk_budget claim)%dec.

Definition opt_holds {A} (p : A → bool) (o : option A) : bool :=
  match o with Some a => p a | None => false end.

(** [_scope_matches] *)
Definition scope_matches (ticket : TradeTicket) (scope : RuntimeScopeSnapshot) : bool :=
  let runtime := ti_runtime (tk_identity ticket) in
  let domain := ti_netting_domain (tk_identity ticket) in
  bool_decide (rs_lifecycle_state scope = scope_active)
  && rs_entry_enabled scope
  && bool_decide (rs_runtime_scope_id scope = tk_runtime_scope_id ticket)
  && (rs_scope_version scope =? tk_runtime_scope_version ticket)
  && bool_decide (rs_strategy_group_id scope = ri_strategy_group_id runtime)
  && bool_decide (rs_strategy_version_id scope = ri_strategy_version_id runtime)
  && bool_decide (rs_event_spec_id scope = ri_event_spec_id runtime)
  && bool_decide (rs_runtime_profile_id scope = ri_runtime_profile_id runtime)
  && bool_decide (rs_owner_policy_id scope = tk_owner_policy_id ticket)
  && bool_decide (rs_universe_version_id scope = tk_universe_version_id ticket)
  && bool_decide (rs_universe_semantic_digest scope = tk_universe_semantic_digest ticket)
  && bool_decide (rs_exchange_instrument_id scope = nd_exchange_instrument_id domain)
  && bool_decide (rs_position_side scope = nd_position_side domain).

(** [_active_universe_matches] *)
Definition active_universe_matches (ticket : TradeTicket) (universe : ActiveStrategyUniverseSnapshot)
    : bool :=
  bool_decide (au_event_spec_id universe = ri_event_spec_id (ti_runtime (tk_identity ticket)))
  && bool_decide (au_universe_version_id universe = tk_universe_version_id ticket)
  && bool_decide (au_semantic_digest universe = tk_universe_semantic_digest ticket)
  && bool_decide (au_exchange_instrument_id universe
                  = nd_exchange_instrument_id (ti_netting_domain (tk_identity ticket))).

Definition strategy_authority_matches_ticket (strategy_group : option StrategyGroupSnapshot)
    (strategy_version : option StrategyVersionSnapshot) (event_spec : option EventSpecSnapshot)
    (ticket : TradeTicket) : bool :=
  let runtime := ti_runtime (tk_identity ticket) in
  opt_holds (λ g,
    bool_decide (gr_status g = "active")
    && bool_decide (gr_strategy_group_id g = ri_strategy_group_id runtime)
    && bool_decide (gr_active_version_id g = Some (ri_strategy_version_id runtime))) strategy_group
  && opt_holds (λ v,
    bool_decide (ve_status v = "active")
    && bool_decide (ve_strategy_group_id v = ri_strategy_group_id runtime)
    && bool_decide (ve_strategy_version_id v = ri_strategy_version_id runtime)) strategy_version
  && opt_holds (λ e,
    bool_decide (es_status e = "active")
    && bool_decide (es_event_spec_id e = ri_event_spec_id runtime)
    && bool_decide (es_strategy_version_id e = ri_strategy_version_id runtime)
    && bool_decide (es_position_side e = nd_position_side (ti_netting_domain (tk_identity ticket)))
    && bool_decide (es_entry_order_type e = entry_order_type_value (tk_entry_order_type ticket)))
    event_spec.

(** [_runtime_is_certified] *)
Definition runtime_is_certified (runtime_commit schema_revision : str)
    (capability : RuntimeCapabilitySnapshot) : bool :=
  bool_decide (rc_capability_key capability = "exchange_commands")
  && rc_enabled capability
  && bool_decide (rc_certified_commit capability = runtime_commit)
  && bool_decide (rc_schema_revision capability = schema_revision).

Definition entry_price_for (ticket : TradeTicket) (snapshot : EntryAdmissionSnapshot) : Decimal :=
  match nd_position_side (ti_netting_domain (tk_identity ticket)) with
  | long => as_best_ask_price snapshot
  | short => as_best_bid_price snapshot
  end.

(** [_netting_domain_is_flat_and_order_free] *)
Definition netting_domain_is_flat_and_order_free (snapshot : EntryAdmissionSnapshot)
    (ticket : TradeTicket) : bool :=
  let domain := ti_netting_domain (tk_identity ticket) in
  negb (existsb (λ p,
      bool_decide (arp_exchange_instrument_id p = nd_exchange_instrument_id domain)
      && bool_decide (arp_position_side p = nd_position_side domain)
      && (arp_quantity p >? d0)%dec) (ars_account_positions (as_account_risk_snapshot snapshot)))
  && negb (existsb (λ o,
      bool_decide (ao_exchange_instrument_id o = nd_exchange_instrument_id domain)
      && bool_decide (ao_position_side o = nd_position_side domain)) (as_open_orders snapshot)).

(** [_quote_preserves_protection] *)
Definition quote_preserves_protection (ticket : TradeTicket) (entry_price : Decimal) : bool :=
  match nd_position_side (ti_netting_domain (tk_identity ticket)) with
  | long => (tk_initial_stop_price ticket <? entry_price)%dec
  | short => (tk_initial_stop_price ticket >? entry_price)%dec
  end.

(** [_cross_margin_stress_passes] *)
Definition cross_margin_stress_passes (ticket : TradeTicket) (snapshot : EntryAdmissionSnapshot)
    (rules : InstrumentRulesFacts) : result bool :=
  let account_risk := as_account_risk_snapshot snapshot in
  let domain := ti_netting_domain (tk_identity ticket) in
  if negb (bool_decide (ars_exchange_instrument_id account_risk = nd_exchange_instrument_id domain))
  then mret false
  else
    let entry_price := entry_price_for ticket snapshot in
    projected_positions ← map_result validate_StressPosition
      (((λ p, mkStressPosition (arp_position_side p) (arp_quantity p) (arp_average_entry_price p)) <$>
          filter (λ p, arp_exchange_instrument_id p = nd_exchange_instrument_id domain)
            (ars_account_positions account_risk))
       ++ [mkStressPosition (nd_position_side domain) (tk_quantity ticket) entry_price]);
    request ← validate_CrossMarginStressRequest
      (mkStressRequest account_risk (rf_maintenance_margin_brackets rules)
         (rf_maintenance_margin_brackets_digest rules) (rf_notional_coefficient rules)
         (rf_notional_coefficient_certified rules) (nd_position_side domain) entry_price
         (tk_initial_stop_price ticket) (tk_post_stop_stress_multiple ticket) projected_positions);
    evidence ← evaluate_cross_margin_stress request;
    mret (bool_decide (csp_status (cse_proof evidence) = PASSED)).

Section preflight.
Context (r : EntryDispatchPreflightRequest).

Let command := pq_command r.
Let ticket := pq_ticket r.
Let claim := pq_capacity_claim r.
Let snapshot := pq_admission_snapshot r.
Let account_risk := as_account_risk_snapshot snapshot.
Let domain := ti_netting_domain (tk_identity ticket).
Let rules := pq_instrument_rules r.
Let entry_price := entry_price_for ticket snapshot.

(** [_snapshot_and_rules_are_current] *)
Definition snapshot_and_rules_are_current : bool :=
  (as_observed_at_ms snapshot <=? pq_now_ms r) && (pq_now_ms r <? as_valid_until_ms snapshot)
  && bool_decide (rf_exchange_instrument_id rules = nd_exchange_instrument_id domain)
  && (rf_observed_at_ms rules <=? pq_now_ms r) && (pq_now_ms r <? rf_valid_until_ms rules)
  && (tk_selected_leverage ticket <=? rf_exchange_max_leverage rules).

(** [_health_digest_matches] *)
Definition health_digest_matches : bool :=
  let digest := admission_snapshot_digest snapshot in
  bool_decide (ah_entry_admission_snapshot_digest (pq_account_entry_health r) = digest)
  && bool_decide (ih_entry_admission_snapshot_digest (pq_instrument_entry_health r) = digest).

(** The guards on authority, in the order of the source. *)
Definition authority_refusals (policy : OwnerPolicySnapshot) : list (bool * EntryDispatchPreflightStatus) :=
  let runtime := ti_runtime (tk_identity ticket) in
  [(negb (opt_holds (λ s, authorizes s (ri_event_spec_id runtime) (ri_runtime_profile_id runtime))
            (wp_scope policy)), POLICY_DRIFT);
   (negb (wp_new_entry_submit_enabled policy), NEW_ENTRY_DISABLED);
   (negb (pq_strategy_entry_enabled r), STRATEGY_PAUSED);
   (pq_selection_entry_vacuum_open r, SELECTION_ENTRY_VACUUM);
   (negb (pq_selection_authority_valid r), SELECTION_AUTHORITY_INVALID);
   (tk_family_ticket_limit ticket <? pq_active_family_ticket_count r,
    PREFLIGHT_FAMILY_CAPACITY_EXHAUSTED);
   (opt_test (λ limit, limit <? pq_active_strategy_side_ticket_count r)
      (wp_max_same_strategy_side policy), PREFLIGHT_STRATEGY_SIDE_CAPACITY_EXHAUSTED);
   (negb (opt_holds (scope_matches ticket) (pq_runtime_scope r)), SCOPE_DRIFT);
   (negb (opt_holds (active_universe_matches ticket) (pq_active_universe r)), SCOPE_DRIFT);
   (negb (strategy_authority_matches_ticket (pq_strategy_group r) (pq_strategy_version r)
            (pq_event_spec r) ticket), SCOPE_DRIFT);
   (negb (opt_holds (runtime_is_certified (pq_runtime_commit r) (pq_schema_revision r))
            (pq_runtime_capability r)), RUNTIME_FENCED)].

(** The guards on the account and its health.  (The position mode and the margin
    mode of the snapshot have one legal value each.) *)
Definition account_refusals : list (bool * EntryDispatchPreflightStatus) :=
  let account_health := pq_account_entry_health r in
  let instrument_health := pq_instrument_entry_health r in
  [(negb snapshot_and_rules_are_current, STALE_SNAPSHOT);
   (opt_test (λ d, negb (product_decision_allowed d)) (pq_product_entry_decision r),
    PRODUCT_ENTRY_BLOCKED);
   (negb (bool_decide (ars_venue_id account_risk = nd_venue_id domain))
    || negb (bool_decide (ars_account_id account_risk = nd_account_id domain)), ACCOUNT_MODE_INVALID);
   (negb health_digest_matches, STALE_SNAPSHOT);
   (negb (bool_decide (ah_status account_health = ACCOUNT_HEALTHY)),
    if bool_decide (ah_entry_block_scope account_health = scope_none) then OWNERSHIP_CONFLICT
    else INCIDENT_FENCED);
   (negb (bool_decide (ih_status instrument_health ∈ [HEALTHY_FLAT; HEALTHY_OPPOSITE_SIDE])),
    if bool_decide (ih_entry_block_scope instrument_health = scope_none) then OWNERSHIP_CONFLICT
    else INCIDENT_FENCED);
   (negb (netting_domain_is_flat_and_order_free snapshot ticket), OWNERSHIP_CONFLICT)].

Definition ticket_margin_limit (policy : OwnerPolicySnapshot) : Decimal :=
  (ars_total_margin_balance account_risk * wp_max_ticket_initial_margin_fraction policy)%dec.

Definition remaining_gross_margin (policy : OwnerPolicySnapshot) : Decimal :=
  dmax (ars_total_margin_balance account_risk * wp_max_gross_initial_margin_utilization policy
        - dmax (ars_total_initial_margin account_risk) (cc_current_reserved_margin_at_claim claim))%dec d0.

(** The guards on the budgets and the quote. *)
Definition budget_refusals (policy : OwnerPolicySnapshot) : list (bool * EntryDispatchPreflightStatus) :=
  [((tk_risk_at_stop ticket
       >? ars_total_wallet_balance account_risk * wp_max_ticket_stop_risk_fraction policy)%dec
    || (cc_gross_risk_at_stop_at_claim claim + tk_risk_at_stop ticket
          >? ars_total_wallet_balance account_risk * wp_max_gross_stop_risk_fraction policy)%dec,
    WALLET_RISK_DRIFT);
   ((pq_active_directional_risk_at_stop r
       >? ars_total_wallet_balance account_risk * wp_directional_stop_risk_limit_fraction policy)%dec,
    WALLET_RISK_DRIFT);
   ((tk_reserved_margin ticket
       >? dmin (dmin (ticket_margin_limit policy) (ars_available_margin account_risk))
            (remaining_gross_margin policy))%dec, MARGIN_DRIFT);
   (negb (quote_preserves_protection ticket entry_price), QUOTE_RISK);
   ((tk_quantity ticket * dabs (entry_price - tk_initial_stop_price ticket)
       >? tk_post_fill_stop_risk_limit ticket)%dec, QUOTE_RISK)].

(** [if cond: return _refused(status)], one after the other. *)
Fixpoint refuse_first (checks : list (bool * EntryDispatchPreflightStatus))
    (continue : result EntryDispatchPreflightStatus) : result EntryDispatchPreflightStatus :=
  match checks with
  | [] => continue
  | (true, status) :: _ => mret status
  | (false, _) :: checks => refuse_first checks continue
  end.

(** [revalidate_entry_dispatch]; the decision is its status. *)
Definition revalidate_entry_dispatch : result EntryDispatchPreflightStatus :=
  refuse_first
    [(negb (tk_selected_leverage ticket =? FIXED_EXCHANGE_CONFIGURED_LEVERAGE)
      || negb (cc_configured_leverage_at_claim claim =? FIXED_EXCHANGE_CONFIGURED_LEVERAGE)
      || negb (ars_configured_leverage account_risk =? FIXED_EXCHANGE_CONFIGURED_LEVERAGE),
      LEVERAGE_MISMATCH)]
    (command_matches ← command_matches_ticket_and_claim command ticket claim;
     refuse_first
       [(negb command_matches, COMMAND_MISMATCH);
        ((ec_deadline_at_ms command <=? pq_now_ms r) || (cc_expires_at_ms claim <=? pq_now_ms r),
         DEADLINE_EXPIRED)]
       (match pq_owner_policy r with
        | None => mret POLICY_DRIFT
        | Some policy =>
            refuse_first
              ([(negb (policy_matches policy ticket claim), POLICY_DRIFT)]
               ++ authority_refusals policy ++ account_refusals ++ budget_refusals policy)
              (stress ← cross_margin_stress_passes ticket snapshot rules;
               refuse_first
                 [(negb stress, STRESS_FAILED);
                  (negb (bool_decide (ars_exchange_instrument_id account_risk
                                      = nd_exchange_instrument_id domain)), SCOPE_DRIFT);
                  (bool_decide (ec_kind command = SET_LEVERAGE), LEVERAGE_MISMATCH)]
                 (mret PREFLIGHT_ALLOWED))
        end)).

End preflight.
