(* ===== verification/Arbitration.v ===== *)
(** * Admission decisions and arbitration ([domain/admission_decision.py],
      [domain/arbitration.py])

    The deterministic ranking of fresh candidates, the frozen candidate set,
    and the immutable evidence of one final portfolio-admission result. *)

From Stdlib Require Import QArith.
From S2P Require Import Prelude PyString Sha256 PyDecimal DecimalFacts Identities Ticket.
From S2P Require Import CrossMarginStress StrategyRegistry Signal.
#[local] Open Scope Z_scope.

(** ** Candidate sets *)

Record AdmissionCandidateSummary := mkSummary {
  am_rank : Z;
  am_signal_event_id : str;
  am_exposure_episode_id : str;
  am_strategy_group_id : str;
  am_strategy_version_id : str;
  am_event_spec_id : str;
  am_exchange_instrument_id : str;
  am_position_side : PositionSide;
  am_occurred_at_ms : Z
}.

Definition validate_AdmissionCandidateSummary (s : AdmissionCandidateSummary)
    : result AdmissionCandidateSummary :=
  validate_fields
    (((λ v, (blank v, "candidate summary identities must be non-blank")) <$>
        [am_signal_event_id s; am_exposure_episode_id s; am_strategy_group_id s;
         am_strategy_version_id s; am_event_spec_id s; am_exchange_instrument_id s]) ++
     ((λ v, (v <=? 0, "candidate summary rank and time must be positive")) <$>
        [am_rank s; am_occurred_at_ms s]));;
  mret (mkSummary (am_rank s) (strip (am_signal_event_id s)) (strip (am_exposure_episode_id s))
          (strip (am_strategy_group_id s)) (strip (am_strategy_version_id s))
          (strip (am_event_spec_id s)) (strip (am_exchange_instrument_id s))
          (am_position_side s) (am_occurred_at_ms s)).

Definition summary_json (s : AdmissionCandidateSummary) : JsonValue :=
  JObj [("rank", JInt (am_rank s)); ("signal_event_id", JStr (am_signal_event_id s));
        ("exposure_episode_id", JStr (am_exposure_episode_id s));
        ("strategy_group_id", JStr (am_strategy_group_id s));
        ("strategy_version_id", JStr (am_strategy_version_id s));
        ("event_spec_id", JStr (am_event_spec_id s));
        ("exchange_instrument_id", JStr (am_exchange_instrument_id s));
        ("position_side", JStr (side_value (am_position_side s)));
        ("occurred_at_ms", JInt (am_occurred_at_ms s))].

Definition summary_digest (summary : list AdmissionCandidateSummary) : str :=
  canonical_digest (JList (summary_json <$> summary)).

Record CandidateSetSnapshot := mkCandidateSet {
  cs_ranked_signal_event_ids : list str;
  cs_candidate_count : Z;
  cs_candidate_set_digest : str;
  cs_candidate_set_summary : list AdmissionCandidateSummary
}.

Definition validate_CandidateSetSnapshot (s : CandidateSetSnapshot) : result CandidateSetSnapshot :=
  validate_fields
    [(negb (is_sha256_digest (cs_candidate_set_digest s)),
      "candidate set requires a canonical sha256 digest")];;
  let count := cs_candidate_count s in
  let summary := cs_candidate_set_summary s in
  validate_model
    [((count <=? 0) || (64 <? count), "candidate set count must be between 1 and 64");
     (negb ((Z.of_nat (length (cs_ranked_signal_event_ids s)) =? count)
            && (Z.of_nat (length summary) =? count)),
      "candidate set count differs from its summary");
     (negb (bool_decide (NoDup (cs_ranked_signal_event_ids s))),
      "candidate set Signal identities must be unique");
     (negb (bool_decide (am_rank <$> summary = seqZ 1 count)
            && bool_decide (am_signal_event_id <$> summary = cs_ranked_signal_event_ids s)),
      "candidate set summary differs from ranked identities");
     (negb (bool_decide (cs_candidate_set_digest s = summary_digest summary)),
      "candidate set digest differs from its summary")];;
  mret s.

(** ** Portfolio usage *)

Record AdmissionPortfolioUsage := mkPortfolioUsage {
  pu_active_ticket_count : Z;
  pu_active_family_ticket_count : Z;
  pu_max_same_strategy_side : option Z;
  pu_active_strategy_side_ticket_count : option Z;
  pu_gross_risk_at_stop : Decimal;
  pu_directional_risk_at_stop : option Decimal;
  pu_current_reserved_margin : Decimal;
  pu_remaining_ticket_slots : Z;
  pu_remaining_family_slots : Z;
  pu_remaining_gross_stop_risk : option Decimal;
  pu_remaining_directional_stop_risk : option Decimal;
  pu_remaining_initial_margin : option Decimal
}.

Definition validate_AdmissionPortfolioUsage (u : AdmissionPortfolioUsage)
    : result AdmissionPortfolioUsage :=
  validate_fields
    (((λ v, (v <? 0, "admission usage counts cannot be negative")) <$>
        [pu_active_ticket_count u; pu_active_family_ticket_count u; pu_remaining_ticket_slots u;
         pu_remaining_family_slots u]) ++
     ((λ v, (negative v, "admission usage values must be finite and nonnegative")) <$>
        [pu_gross_risk_at_stop u; pu_current_reserved_margin u]) ++
     ((λ v, (opt_test negative v, "optional admission usage values must be finite and nonnegative"))
        <$> [pu_directional_risk_at_stop u; pu_remaining_gross_stop_risk u;
             pu_remaining_directional_stop_risk u; pu_remaining_initial_margin u]));;
  let limit := pu_max_same_strategy_side u in
  let count := pu_active_strategy_side_ticket_count u in
  validate_model
    [(negb (Bool.eqb (is_none limit) (is_none count)),
      "strategy-side usage evidence must be all-null or all-present");
     (match limit, count with
      | Some limit, Some count => (limit <=? 0) || (count <? 0) | _, _ => false end,
      "strategy-side usage limit/count are invalid")];;
  mret u.

Definition usage_json (u : AdmissionPortfolioUsage) : JsonValue :=
  JObj
    ([("active_ticket_count", JInt (pu_active_ticket_count u));
      ("active_family_ticket_count", JInt (pu_active_family_ticket_count u));
      ("gross_risk_at_stop", JDec (pu_gross_risk_at_stop u));
      ("directional_risk_at_stop", JOpt JDec (pu_directional_risk_at_stop u));
      ("current_reserved_margin", JDec (pu_current_reserved_margin u));
      ("remaining_ticket_slots", JInt (pu_remaining_ticket_slots u));
      ("remaining_family_slots", JInt (pu_remaining_family_slots u));
      ("remaining_gross_stop_risk", JOpt JDec (pu_remaining_gross_stop_risk u));
      ("remaining_directional_stop_risk", JOpt JDec (pu_remaining_directional_stop_risk u));
      ("remaining_initial_margin", JOpt JDec (pu_remaining_initial_margin u))] ++
     if is_none (pu_max_same_strategy_side u) && is_none (pu_active_strategy_side_ticket_count u)
     then []
     else [("max_same_strategy_side", JOpt JInt (pu_max_same_strategy_side u));
           ("active_strategy_side_ticket_count",
            JOpt JInt (pu_active_strategy_side_ticket_count u))]).

(** ** Decisions *)

Inductive AdmissionDecisionStatus := ADMITTED | REJECTED.
#[export] Instance AdmissionDecisionStatus_eq_dec : EqDecision AdmissionDecisionStatus.
Proof. solve_decision. Defined.

Record AdmissionDecision := mkAdmission {
  ad_admission_decision_id : str;
  ad_signal_event_id : str;
  ad_exposure_episode_id : str;
  ad_strategy_group_id : str;
  ad_strategy_version_id : str;
  ad_event_spec_id : str;
  ad_universe_version_id : str;
  ad_universe_semantic_digest : str;
  ad_runtime_profile_id : str;
  ad_runtime_scope_id : str;
  ad_runtime_scope_version : Z;
  ad_owner_policy_id : str;
  ad_owner_policy_version : Z;
  ad_venue_id : str;
  ad_account_id : str;
  ad_exchange_instrument_id : str;
  ad_position_side : PositionSide;
  ad_exposure_family : ExposureFamily;
  ad_candidate_rank : Z;
  ad_candidate_set : CandidateSetSnapshot;
  ad_portfolio_usage : AdmissionPortfolioUsage;
  ad_decision_status : AdmissionDecisionStatus;
  ad_first_blocker : option str;
  ad_binding_constraint : option str;
  ad_capacity_claim_id : option str;
  ad_ticket_id : option str;
  ad_entry_admission_snapshot_digest : option str;
  ad_decision_digest : str;
  ad_decided_at_ms : Z;
  ad_selection_authority_id : option str
}.

Definition candidate_set_json (s : CandidateSetSnapshot) : JsonValue :=
  JObj [("ranked_signal_event_ids", JList (JStr <$> cs_ranked_signal_event_ids s));
        ("candidate_count", JInt (cs_candidate_count s));
        ("candidate_set_digest", JStr (cs_candidate_set_digest s));
        ("candidate_set_summary", JList (summary_json <$> cs_candidate_set_summary s))].

(** [_decision_digest_payload] *)
Definition decision_digest_payload (d : AdmissionDecision) : JsonValue :=
  JObj
    ([("signal_event_id", JStr (ad_signal_event_id d));
      ("exposure_episode_id", JStr (ad_exposure_episode_id d));
      ("strategy_group_id", JStr (ad_strategy_group_id d));
      ("strategy_version_id", JStr (ad_strategy_version_id d));
      ("event_spec_id", JStr (ad_event_spec_id d));
      ("universe_version_id", JStr (ad_universe_version_id d));
      ("universe_semantic_digest", JStr (ad_universe_semantic_digest d));
      ("runtime_profile_id", JStr (ad_runtime_profile_id d));
      ("runtime_scope_id", JStr (ad_runtime_scope_id d));
      ("runtime_scope_version", JInt (ad_runtime_scope_version d));
      ("owner_policy_id", JStr (ad_owner_policy_id d));
      ("owner_policy_version", JInt (ad_owner_policy_version d));
      ("venue_id", JStr (ad_venue_id d)); ("account_id", JStr (ad_account_id d));
      ("exchange_instrument_id", JStr (ad_exchange_instrument_id d));
      ("position_side", JStr (side_value (ad_position_side d)));
      ("exposure_family", JStr (exposure_family_value (ad_exposure_family d)));
      ("candidate_rank", JInt (ad_candidate_rank d));
      ("candidate_set", candidate_set_json (ad_candidate_set d));
      ("portfolio_usage", usage_json (ad_portfolio_usage d));
      ("decision_status",
       JStr (match ad_decision_status d with ADMITTED => "admitted" | REJECTED => "rejected" end));
      ("first_blocker", JOpt JStr (ad_first_blocker d));
      ("binding_constraint", JOpt JStr (ad_binding_constraint d));
      ("capacity_claim_id", JOpt JStr (ad_capacity_claim_id d));
      ("ticket_id", JOpt JStr (ad_ticket_id d));
      ("entry_admission_snapshot_digest", JOpt JStr (ad_entry_admission_snapshot_digest d));
      ("decided_at_ms", JInt (ad_decided_at_ms d))] ++
     match ad_selection_authority_id d with
     | Some a => [("selection_authority_id", JStr a)]
     | None => []
     end).

Definition build_admission_decision_digest (d : AdmissionDecision) : str :=
  canonical_digest (decision_digest_payload d).

Definition admission_id_of (digest : str) : str :=
  "admission:" +:+ take_prefix 32 (remove_sha256_prefix digest).

(** The decision carries the identities of the candidate of its rank. *)
Definition differs_from_candidate (d : AdmissionDecision) (c : AdmissionCandidateSummary) : bool :=
  negb (bool_decide (am_signal_event_id c = ad_signal_event_id d)
        && bool_decide (am_exposure_episode_id c = ad_exposure_episode_id d)
        && bool_decide (am_strategy_group_id c = ad_strategy_group_id d)
        && bool_decide (am_strategy_version_id c = ad_strategy_version_id d)
        && bool_decide (am_event_spec_id c = ad_event_spec_id d)
        && bool_decide (am_exchange_instrument_id c = ad_exchange_instrument_id d)
        && bool_decide (am_position_side c = ad_position_side d)).

(** [_validate_decision] *)
Definition admission_model_checks (d : AdmissionDecision) : list (bool * str) :=
  let expected_digest := build_admission_decision_digest d in
  [((ad_runtime_scope_version d <=? 0) || (ad_owner_policy_version d <=? 0)
    || (ad_candidate_rank d <=? 0) || (ad_decided_at_ms d <=? 0),
    "AdmissionDecision versions, rank, and time must be positive");
   (cs_candidate_count (ad_candidate_set d) <? ad_candidate_rank d,
    "AdmissionDecision candidate rank is outside its set");
   (match cs_candidate_set_summary (ad_candidate_set d) !! Z.to_nat (ad_candidate_rank d - 1) with
    | Some candidate => differs_from_candidate d candidate
    | None => true
    end, "AdmissionDecision differs from its ranked candidate");
   match ad_decision_status d with
   | ADMITTED =>
       (negb (is_none (ad_first_blocker d)) || is_none (ad_capacity_claim_id d)
        || is_none (ad_ticket_id d) || is_none (ad_entry_admission_snapshot_digest d),
        "admitted AdmissionDecision requires Claim, Ticket, and snapshot")
   | REJECTED =>
       (is_none (ad_first_blocker d) || negb (is_none (ad_capacity_claim_id d))
        || negb (is_none (ad_ticket_id d)),
        "rejected AdmissionDecision requires blocker and forbids Claim/Ticket")
   end;
   (negb (bool_decide (ad_decision_digest d = expected_digest)),
    "AdmissionDecision digest differs from its payload");
   (negb (bool_decide (ad_admission_decision_id d = admission_id_of expected_digest)),
    "AdmissionDecision identity differs from its digest")].

Definition normalize_admission (d : AdmissionDecision) : AdmissionDecision :=
  mkAdmission (strip (ad_admission_decision_id d)) (strip (ad_signal_event_id d))
    (strip (ad_exposure_episode_id d)) (strip (ad_strategy_group_id d))
    (strip (ad_strategy_version_id d)) (strip (ad_event_spec_id d))
    (strip (ad_universe_version_id d)) (ad_universe_semantic_digest d)
    (strip (ad_runtime_profile_id d)) (strip (ad_runtime_scope_id d)) (ad_runtime_scope_version d)
    (strip (ad_owner_policy_id d)) (ad_owner_policy_version d) (strip (ad_venue_id d))
    (strip (ad_account_id d)) (strip (ad_exchange_instrument_id d)) (ad_position_side d)
    (ad_exposure_family d) (ad_candidate_rank d) (ad_candidate_set d) (ad_portfolio_usage d)
    (ad_decision_status d) (normalize_optional (ad_first_blocker d))
    (normalize_optional (ad_binding_constraint d)) (normalize_optional (ad_capacity_claim_id d))
    (normalize_optional (ad_ticket_id d)) (ad_entry_admission_snapshot_digest d)
    (ad_decision_digest d) (ad_decided_at_ms d) (normalize_optional (ad_selection_authority_id d)).

Definition validate_AdmissionDecision (d : AdmissionDecision) : result AdmissionDecision :=
  validate_fields
    (((λ v, (blank v, "AdmissionDecision identities must be non-blank")) <$>
        [ad_admission_decision_id d; ad_signal_event_id d; ad_exposure_episode_id d;
         ad_strategy_group_id d; ad_strategy_version_id d; ad_event_spec_id d;
         ad_universe_version_id d; ad_runtime_profile_id d; ad_runtime_scope_id d;
         ad_owner_policy_id d; ad_venue_id d; ad_account_id d; ad_exchange_instrument_id d]) ++
     ((λ v, (negb (is_sha256_digest v), "AdmissionDecision digests must be canonical sha256")) <$>
        [ad_universe_semantic_digest d; ad_decision_digest d]) ++
     [(opt_test (λ v, negb (is_sha256_digest v)) (ad_entry_admission_snapshot_digest d),
       "admission snapshot digest must be canonical sha256")]);;
  let d := normalize_admission d in
  validate_model (admission_model_checks d);;
  mret d.

(** ** Ranking *)

Definition MAX_CANDIDATES_PER_ARBITRATION : Z := 64.

Record EntryCandidate := mkCandidate {
  ec_signal : StrategySignal;
  ec_owner_policy_priority : Z
}.

Definition validate_EntryCandidate (c : EntryCandidate) : result EntryCandidate :=
  validate_fields [(ec_owner_policy_priority c <=? 0, "candidate priorities must be positive")];;
  mret c.

(** The sort key, compared as Python compares tuples. *)
Definition candidate_key (c : EntryCandidate) : Z * Z * Z * str :=
  (ec_owner_policy_priority c, sg_occurred_at_ms (ec_signal c), sg_observed_at_ms (ec_signal c),
   sg_signal_event_id (ec_signal c)).

Definition key_le (a b : Z * Z * Z * str) : bool :=
  let '(p, o, v, i) := a in
  let '(p', o', v', i') := b in
  if negb (p =? p') then p <? p'
  else if negb (o =? o') then o <? o'
  else if negb (v =? v') then v <? v'
  else String.leb i i'.

Definition candidate_le (c c' : EntryCandidate) : bool := key_le (candidate_key c) (candidate_key c').

(** [sorted(candidates, key=candidate_key)] *)
Definition sort_candidates (l : list EntryCandidate) : list EntryCandidate := sort_by candidate_le l.

Definition rank_candidates (candidates : list EntryCandidate) : result (list EntryCandidate) :=
  raise_if (MAX_CANDIDATES_PER_ARBITRATION <? Z.of_nat (length candidates))
    (ValueError "candidate arbitration accepts at most 64 candidates");;
  raise_if (negb (bool_decide (NoDup ((λ c, sg_signal_event_id (ec_signal c)) <$> candidates))))
    (ValueError "candidate arbitration requires unique signal identities");;
  mret (sort_candidates candidates).

(** [enumerate(ranked, start=1)] with the summary of each candidate. *)
Fixpoint summaries (index : Z) (ranked : list EntryCandidate)
    : result (list AdmissionCandidateSummary) :=
  match ranked with
  | [] => mret []
  | c :: ranked =>
      let s := ec_signal c in
      item ← validate_AdmissionCandidateSummary
               (mkSummary index (sg_signal_event_id s) (sg_exposure_episode_id s)
                  (sg_strategy_group_id s) (sg_strategy_version_id s) (sg_event_spec_id s)
                  (sg_exchange_instrument_id s) (sg_position_side s) (sg_occurred_at_ms s));
      rest ← summaries (index + 1) ranked;
      mret (item :: rest)
  end.

Definition freeze_candidate_set (candidates : list EntryCandidate) : result CandidateSetSnapshot :=
  ranked ← rank_candidates candidates;
  raise_if (match ranked with [] => true | _ => false end)
    (ValueError "candidate set cannot be empty");;
  summary ← summaries 1 ranked;
  validate_CandidateSetSnapshot
    (mkCandidateSet (am_signal_event_id <$> summary) (Z.of_nat (length summary))
       (summary_digest summary) summary).

(** The final result for the candidate [signal]. *)
Definition freeze_admission_decision (signal : StrategySignal) (candidate_set : CandidateSetSnapshot)
    (exposure_family : ExposureFamily) (runtime_profile_id owner_policy_id : str)
    (owner_policy_version : Z) (venue_id account_id : str)
    (portfolio_usage : AdmissionPortfolioUsage) (decision_status : AdmissionDecisionStatus)
    (first_blocker binding_constraint capacity_claim_id ticket_id
       entry_admission_snapshot_digest : option str) (decided_at_ms : Z)
    : result AdmissionDecision :=
  match list_find (λ i, i = sg_signal_event_id signal) (cs_ranked_signal_event_ids candidate_set) with
  | None => Raise (ValueError "Signal is absent from the candidate set")
  | Some (index, _) =>
      let payload admission_decision_id decision_digest :=
        mkAdmission admission_decision_id (sg_signal_event_id signal)
          (sg_exposure_episode_id signal) (sg_strategy_group_id signal)
          (sg_strategy_version_id signal) (sg_event_spec_id signal)
          (sg_universe_version_id signal) (sg_universe_semantic_digest signal)
          runtime_profile_id (sg_runtime_scope_id signal) (sg_runtime_scope_version signal)
          owner_policy_id owner_policy_version venue_id account_id
          (sg_exchange_instrument_id signal) (sg_position_side signal) exposure_family
          (Z.of_nat index + 1) candidate_set portfolio_usage decision_status first_blocker
          binding_constraint capacity_claim_id ticket_id entry_admission_snapshot_digest
          decision_digest decided_at_ms (sg_selection_authority_id signal) in
      let decision_digest :=
        build_admission_decision_digest (payload "admission:pending" ("sha256:" +:+ zeros 64)) in
      validate_AdmissionDecision (payload (admission_id_of decision_digest) decision_digest)
  end.
