(* ===== verification/BuildClaim.v ===== *)
(** * Building a Capacity Claim ([application/build_capacity_claim.py])

    From one fresh admission snapshot, a signal, the owner's policy, the usage
    and the exit binding to a frozen Claim or a refusal: the function that
    calls the health, sizing, stress and Claim components. *)

From Stdlib Require Import QArith.
From S2P Require Import Prelude PyString Sha256 PyDecimal DecimalFacts Identities Ticket.
From S2P Require Import CrossMarginStress CapacitySizing Capacity StrategyRegistry ExitPolicy.
From S2P Require Import Admission Signal.
#[local] Open Scope Z_scope.

(** [ExitProfileRecord] of [domain/exit_policy.py]: the profile and whether its
    status is "active". *)
Record ExitProfileRecord := mkProfileRecord {
  pr_profile : ExitProfile;
  pr_active : bool
}.

(** [_refused] *)
Definition refused_claim (status : CapacityClaimStatus) : result CapacityClaimDecision :=
  validate_CapacityClaimDecision (mkClaimDecision status None).

(** [_sizing_refusal] *)
Definition sizing_refusal (status : CapacitySizingStatus) : CapacityClaimStatus :=
  match status with
  | DIRECTIONAL_RISK_EXHAUSTED => CLAIM_DIRECTIONAL_RISK_EXHAUSTED
  | EXIT_PLAN_UNEXECUTABLE => EXIT_LEG_MATERIALIZATION_UNMET
  | COUNT_EXHAUSTED | STOP_RISK_EXHAUSTED | MARGIN_EXHAUSTED | VENUE_MINIMUM_UNMET
  | MINIMUM_MATERIALIZATION_UNMET => BUDGET_EXHAUSTED
  | SELECTED | INVALID_FACTS => INSTRUMENT_RULES_INVALID
  end.

(** A value that is a finite positive decimal. *)
Definition positive_decimal_value (v : JsonValue) : option Decimal :=
  match decimal_of_value v with
  | Some (Some d) => if (d >? d0)%dec then Some d else None
  | _ => None
  end.

(** [_protection_reference] *)
Definition protection_reference (signal : StrategySignal) : option Decimal :=
  match filter (λ f, sf_role f = role_protection_reference) (sg_facts signal) with
  | [fact] => positive_decimal_value (sf_value fact)
  | _ => None
  end.

(** [_contract_decimal_fact], for lifecycle references. *)
Definition contract_decimal_fact (signal : StrategySignal) (fact_name : option str)
    : result (option Decimal) :=
  match fact_name with
  | None => mret None
  | Some name =>
      contract ← strategy_contract_for (sg_event_spec_id signal);
      match list_find (λ r, fr_fact_name r = name ∧ fr_role r = role_lifecycle_reference)
              (sc_required_facts contract) with
      | None => mret None
      | Some (_, requirement) =>
          match filter (λ f, sf_fact_definition_id f = fr_fact_definition_id requirement
                             ∧ sf_role f = role_lifecycle_reference) (sg_facts signal) with
          | [fact] => mret (positive_decimal_value (sf_value fact))
          | _ => mret None
          end
      end
  end.

(** [_floor_step], [_ceil_step] *)
Definition floor_step (value step : Decimal) : result Decimal := round_to_step value step ROUND_FLOOR.
Definition ceil_step (value step : Decimal) : result Decimal := round_to_step value step ROUND_CEILING.

(** [_round_stop] *)
Definition round_stop (value tick : Decimal) (side : PositionSide) : result Decimal :=
  match side with long => floor_step value tick | short => ceil_step value tick end.

(** [_round_take_profit] *)
Definition round_take_profit (entry_price risk_per_unit tick : Decimal) (side : PositionSide)
    : result Decimal :=
  match side with
  | long => ceil_step (entry_price + risk_per_unit)%dec tick
  | short => floor_step (entry_price - risk_per_unit)%dec tick
  end.

(** The keyword arguments of [build_capacity_claim]. *)
Record ClaimInputs := mkClaimInputs {
  ci_signal : StrategySignal;
  ci_runtime_profile_id : str;
  ci_venue_id : str;
  ci_account_id : str;
  ci_position_mode : str;
  ci_policy : CapacityPolicy;
  ci_usage : CapacityUsage;
  ci_instrument_rules : CapacityInstrumentRules;
  ci_admission_snapshot : EntryAdmissionSnapshot;
  ci_account_entry_health : AccountEntryHealth;
  ci_instrument_entry_health : InstrumentEntryHealth;
  ci_entry_order_type : EntryOrderType;
  ci_current_exit_binding : CurrentEventExitBinding;
  ci_exit_binding : EventExitBinding;
  ci_exit_profile : ExitProfileRecord;
  ci_netting_domain_occupied : bool;
  ci_now_ms : Z
}.

Section build.
Context (i : ClaimInputs).

Let signal := ci_signal i.
Let policy := ci_policy i.
Let usage := ci_usage i.
Let rules := ci_instrument_rules i.
Let snapshot := ci_admission_snapshot i.
Let account := as_account_risk_snapshot snapshot.
Let side := sg_position_side signal.
Let profile := pr_profile (ci_exit_profile i).

(** The guards before the contract is looked up, in the order of the source,
    with the status each refuses with.  (The position mode and the margin mode
    of the snapshot have one legal value each.) *)
Definition early_refusals : list (bool * CapacityClaimStatus) :=
  let now_ms := ci_now_ms i in
  let snapshot_digest := admission_snapshot_digest snapshot in
  let instrument_status := ih_status (ci_instrument_entry_health i) in
  [((now_ms <? sg_observed_at_ms signal) || (sg_expires_at_ms signal <=? now_ms),
    SIGNAL_INVALID_OR_STALE);
   (negb (bool_decide (ars_venue_id account = ci_venue_id i)
          && bool_decide (ars_account_id account = ci_account_id i)
          && bool_decide (ir_venue_id rules = ci_venue_id i)
          && bool_decide (ir_exchange_instrument_id rules = sg_exchange_instrument_id signal)),
    SCOPE_OR_POLICY_MISMATCH);
   ((now_ms <? as_observed_at_ms snapshot) || (as_valid_until_ms snapshot <=? now_ms)
    || (now_ms <? ir_observed_at_ms rules) || (ir_valid_until_ms rules <=? now_ms),
    ACTION_FACTS_INVALID_OR_STALE);
   (negb (bool_decide (ci_position_mode i = "independent_sides"))
    || negb (ars_configured_leverage account =? FIXED_EXCHANGE_CONFIGURED_LEVERAGE),
    ACTION_FACTS_INVALID_OR_STALE);
   (negb (bool_decide (ah_entry_admission_snapshot_digest (ci_account_entry_health i)
                       = snapshot_digest)
          && bool_decide (ih_entry_admission_snapshot_digest (ci_instrument_entry_health i)
                          = snapshot_digest)), ACTION_FACTS_INVALID_OR_STALE);
   (negb (bool_decide (ah_status (ci_account_entry_health i) = ACCOUNT_HEALTHY)), BUDGET_EXHAUSTED);
   (bool_decide (instrument_status = SAME_DIRECTION_OCCUPIED), NETTING_DOMAIN_OCCUPIED);
   (negb (bool_decide (instrument_status ∈ [HEALTHY_FLAT; HEALTHY_OPPOSITE_SIDE])),
    BUDGET_EXHAUSTED);
   (ci_netting_domain_occupied i, NETTING_DOMAIN_OCCUPIED);
   (cp_max_concurrent_tickets policy <=? cu_active_ticket_count usage, BUDGET_EXHAUSTED)].

Definition family_limit (contract : RegisteredStrategyContract) : Z :=
  for_family (cp_family_ticket_limits policy) (sc_exposure_family contract).

(** The guards on the portfolio. *)
Definition portfolio_refusals (contract : RegisteredStrategyContract)
    : list (bool * CapacityClaimStatus) :=
  [(family_limit contract <=? cu_active_family_ticket_count usage,
    EXPOSURE_FAMILY_CAPACITY_EXHAUSTED);
   (opt_test (λ limit, limit <=? cu_active_strategy_side_ticket_count usage)
      (cp_max_same_strategy_side policy), STRATEGY_SIDE_CAPACITY_EXHAUSTED);
   ((cu_directional_risk_at_stop usage >=?
       ars_total_wallet_balance account * cp_directional_stop_risk_limit_fraction policy)%dec,
    CLAIM_DIRECTIONAL_RISK_EXHAUSTED)].

(** The guards on the instrument and the exit binding, once the stop is known. *)
Definition binding_refusals (entry_price stop_price : Decimal) : list (bool * CapacityClaimStatus) :=
  let current := ci_current_exit_binding i in
  let binding := ci_exit_binding i in
  [(match side with
    | long => (stop_price >=? entry_price)%dec
    | short => (stop_price <=? entry_price)%dec
    end, PROTECTION_UNAVAILABLE);
   (negb (bool_decide (ars_exchange_instrument_id account = sg_exchange_instrument_id signal)),
    SCOPE_OR_POLICY_MISMATCH);
   (negb (pr_active (ci_exit_profile i)
          && bool_decide (cb_event_spec_id current = sg_event_spec_id signal)
          && bool_decide (eb_event_spec_id binding = sg_event_spec_id signal)
          && bool_decide (cb_exit_binding_id current = eb_exit_binding_id binding)
          && bool_decide (cb_binding_semantic_hash current = eb_binding_semantic_hash binding)
          && bool_decide (eb_exit_profile_id binding = ep_exit_profile_id profile)
          && bool_decide (eb_exit_profile_semantic_hash binding
                          = exit_profile_semantic_hash profile)
          && bool_decide (ep_position_side profile = side)), SCOPE_OR_POLICY_MISMATCH)].

(** [if cond: return _refused(status)], one after the other. *)
Fixpoint refuse_first (checks : list (bool * CapacityClaimStatus))
    (continue : result CapacityClaimDecision) : result CapacityClaimDecision :=
  match checks with
  | [] => continue
  | (true, status) :: _ => refused_claim status
  | (false, _) :: checks => refuse_first checks continue
  end.

Definition sizing_request (entry_price stop_price take_profit_price : Decimal)
    : CapacitySizingRequest :=
  mkSizingRequest (ars_total_wallet_balance account) (ars_total_margin_balance account)
    (ars_total_initial_margin account) (cu_current_reserved_margin usage)
    (cu_gross_risk_at_stop usage) (cu_directional_risk_at_stop usage)
    (ars_available_margin account) (cu_active_ticket_count usage)
    (cp_max_concurrent_tickets policy) (cp_max_ticket_stop_risk_fraction policy)
    (cp_max_gross_stop_risk_fraction policy) (cp_max_ticket_initial_margin_fraction policy)
    (cp_max_gross_initial_margin_utilization policy)
    (cp_directional_stop_risk_limit_fraction policy) (cp_min_materialization_ratio policy)
    (Z.min (cp_max_leverage policy) (ir_exchange_max_leverage rules))
    (ars_configured_leverage account) entry_price stop_price take_profit_price
    (ir_quantity_step rules) (ir_min_quantity rules) (ir_min_notional rules)
    (tr_quantity_fraction (ep_tp1 profile)).

(** The positions on the instrument after the entry. *)
Definition projected_positions (entry_price quantity : Decimal) : result (list StressPosition) :=
  map_result validate_StressPosition
    (((λ p, mkStressPosition (arp_position_side p) (arp_quantity p) (arp_average_entry_price p)) <$>
        filter (λ p, arp_exchange_instrument_id p = sg_exchange_instrument_id signal)
          (ars_account_positions account))
     ++ [mkStressPosition side quantity entry_price]).

Definition stress_request (entry_price stop_price : Decimal) (positions : list StressPosition)
    : result CrossMarginStressRequest :=
  validate_CrossMarginStressRequest
    (mkStressRequest account (ir_maintenance_margin_brackets rules)
       (ir_maintenance_margin_brackets_digest rules) (ir_notional_coefficient rules)
       (ir_notional_coefficient_certified rules) side entry_price stop_price
       (cp_post_stop_stress_multiple policy) positions).

Definition ticket_identity_for : result TicketIdentity :=
  runtime ← validate_RuntimeIdentity
              (mkRuntimeIdentity (ci_runtime_profile_id i) (sg_strategy_group_id signal)
                 (sg_strategy_version_id signal) (sg_event_spec_id signal));
  netting_domain ← validate_NettingDomain
              (mkNettingDomain (ci_venue_id i) (ci_account_id i)
                 (sg_exchange_instrument_id signal) side);
  ticket_id ← build_ticket_id (sg_signal_event_id signal) runtime netting_domain;
  validate_TicketIdentity
    (mkTicketIdentity ticket_id (sg_exposure_episode_id signal) (sg_signal_event_id signal)
       runtime netting_domain).

(** The arguments of [freeze_capacity_claim]; the identity and the digest are
    overwritten by it. *)
Definition claim_arguments (contract : RegisteredStrategyContract) (identity : TicketIdentity)
    (entry_price stop_price take_profit_price : Decimal)
    (pre_tp1_reclaim_price : option Decimal) (exposure_session_end_ms : option Z)
    (selected : CapacitySizingSelection) (evidence : CrossMarginStressEvidence) : CapacityClaim :=
  {| cc_capacity_claim_id := EmptyString;
     cc_ticket_identity := identity;
     cc_owner_policy_id := cp_owner_policy_id policy;
     cc_owner_policy_version := cp_policy_version policy;
     cc_runtime_scope_id := sg_runtime_scope_id signal;
     cc_runtime_scope_version := sg_runtime_scope_version signal;
     cc_universe_version_id := sg_universe_version_id signal;
     cc_universe_semantic_digest := sg_universe_semantic_digest signal;
     cc_fact_digest := sg_fact_digest signal;
     cc_exit_policy_id := ep_exit_profile_id profile;
     cc_exit_policy_semantic_hash := exit_profile_semantic_hash profile;
     cc_exit_binding_id := Some (eb_exit_binding_id (ci_exit_binding i));
     cc_exit_binding_semantic_hash := Some (eb_binding_semantic_hash (ci_exit_binding i));
     cc_exit_binding_authority_version := Some (cb_projection_version (ci_current_exit_binding i));
     cc_entry_admission_snapshot_digest := admission_snapshot_digest snapshot;
     cc_account_entry_health_digest := ah_decision_digest (ci_account_entry_health i);
     cc_instrument_entry_health_digest := ih_decision_digest (ci_instrument_entry_health i);
     cc_instrument_rules_projection_version := ir_projection_version rules;
     cc_account_capacity_domain_key := ci_venue_id i +:+ ":" +:+ ci_account_id i;
     cc_leverage_domain_key := ci_venue_id i +:+ ":" +:+ ci_account_id i +:+ ":"
                               +:+ sg_exchange_instrument_id signal;
     cc_total_wallet_balance_at_claim := ars_total_wallet_balance account;
     cc_total_margin_balance_at_claim := ars_total_margin_balance account;
     cc_total_initial_margin_at_claim := ars_total_initial_margin account;
     cc_total_maintenance_margin_at_claim := ars_total_maintenance_margin account;
     cc_available_margin_at_claim := ars_available_margin account;
     cc_mark_price_at_claim := ars_mark_price account;
     cc_position_mode_at_claim := independent_sides;
     cc_margin_mode_at_claim := cross;
     cc_active_ticket_count_at_claim := cu_active_ticket_count usage;
     cc_remaining_slots_at_claim := ss_remaining_slots selected;
     cc_exposure_family := sc_exposure_family contract;
     cc_active_family_ticket_count_at_claim := cu_active_family_ticket_count usage;
     cc_family_ticket_limit := family_limit contract;
     cc_max_same_strategy_side := cp_max_same_strategy_side policy;
     cc_active_strategy_side_ticket_count_at_claim :=
       if is_none (cp_max_same_strategy_side policy) then None
       else Some (cu_active_strategy_side_ticket_count usage);
     cc_remaining_family_slots_at_claim :=
       family_limit contract - cu_active_family_ticket_count usage;
     cc_gross_risk_at_stop_at_claim := cu_gross_risk_at_stop usage;
     cc_directional_risk_at_stop_at_claim := cu_directional_risk_at_stop usage;
     cc_current_reserved_margin_at_claim := cu_current_reserved_margin usage;
     cc_max_ticket_stop_risk_fraction := cp_max_ticket_stop_risk_fraction policy;
     cc_max_gross_stop_risk_fraction := cp_max_gross_stop_risk_fraction policy;
     cc_directional_stop_risk_limit_fraction := cp_directional_stop_risk_limit_fraction policy;
     cc_max_ticket_initial_margin_fraction := cp_max_ticket_initial_margin_fraction policy;
     cc_max_gross_initial_margin_utilization := cp_max_gross_initial_margin_utilization policy;
     cc_min_materialization_ratio := cp_min_materialization_ratio policy;
     cc_minimum_stop_risk_budget := ss_minimum_stop_risk_budget selected;
     cc_planned_stop_risk_budget := ss_ticket_stop_risk_budget selected;
     cc_max_post_fill_stop_risk_overrun_fraction :=
       cp_max_post_fill_stop_risk_overrun_fraction policy;
     cc_post_fill_stop_risk_limit :=
       (ss_ticket_stop_risk_budget selected
        * (d1 + cp_max_post_fill_stop_risk_overrun_fraction policy))%dec;
     cc_post_stop_stress_multiple := cp_post_stop_stress_multiple policy;
     cc_ticket_margin_budget := ss_ticket_margin_budget selected;
     cc_required_leverage := ss_required_leverage selected;
     cc_selected_leverage := ss_selected_leverage selected;
     cc_configured_leverage_at_claim := ss_configured_leverage selected;
     cc_leverage_change_required := ss_leverage_change_required selected;
     cc_exchange_max_leverage := ir_exchange_max_leverage rules;
     cc_reserved_margin := ss_reserved_margin selected;
     cc_cross_margin_stress_evidence := evidence;
     cc_created_at_ms := ci_now_ms i;
     cc_expires_at_ms :=
       Z.min (Z.min (sg_expires_at_ms signal) (as_valid_until_ms snapshot)) (ir_valid_until_ms rules);
     cc_entry_reference_price := entry_price;
     cc_quantity := ss_quantity selected;
     cc_notional := ss_notional selected;
     cc_risk_at_stop := ss_planned_stop_risk selected;
     cc_entry_order_type := ci_entry_order_type i;
     cc_entry_limit_price :=
       match ci_entry_order_type i with LIMIT => Some entry_price | MARKET => None end;
     cc_initial_stop_price := stop_price;
     cc_pre_tp1_reclaim_price := pre_tp1_reclaim_price;
     cc_exposure_session_end_ms := exposure_session_end_ms;
     cc_take_profit_prices := [take_profit_price];
     cc_take_profit_quantities := [ss_tp1_quantity selected];
     cc_decision_digest := EmptyString;
     cc_selection_authority_id := sg_selection_authority_id signal |}.

(** From the sizing to the Claim. *)
Definition size_and_claim (contract : RegisteredStrategyContract)
    (entry_price stop_price : Decimal) (pre_tp1_reclaim_price : option Decimal)
    (exposure_session_end_ms : option Z) : result CapacityClaimDecision :=
  take_profit_price ← round_take_profit entry_price
    (dabs (entry_price - stop_price) * tr_reward_multiple (ep_tp1 profile))%dec
    (ir_price_tick rules) side;
  request ← validate_CapacitySizingRequest (sizing_request entry_price stop_price take_profit_price);
  sizing ← select_capacity_candidate request;
  match sd_status sizing, sd_selected sizing with
  | SELECTED, Some selected =>
      positions ← projected_positions entry_price (ss_quantity selected);
      stress ← stress_request entry_price stop_price positions;
      evidence ← evaluate_cross_margin_stress stress;
      match csp_status (cse_proof evidence) with
      | FACTS_CONTRADICTORY => refused_claim INSTRUMENT_RULES_INVALID
      | FAILED => refused_claim PROTECTION_UNAVAILABLE
      | PASSED =>
          identity ← ticket_identity_for;
          claim ← freeze_capacity_claim
            (claim_arguments contract identity entry_price stop_price take_profit_price
               pre_tp1_reclaim_price exposure_session_end_ms selected evidence);
          validate_CapacityClaimDecision (mkClaimDecision CLAIMED (Some claim))
      end
  | status, _ => refused_claim (sizing_refusal status)
  end.

(** The pre-TP1 references the guards of the profile need. *)
Definition guarded (guard : PreTp1GuardKind) : bool :=
  bool_decide (guard ∈ ep_pre_tp1_guards profile).

Definition guarded_fact (guard : PreTp1GuardKind) (name : option str) : result (option Decimal) :=
  if guarded guard then contract_decimal_fact signal name else mret None.

Definition plan_and_claim (contract : RegisteredStrategyContract) (entry_price stop_price : Decimal)
    : result CapacityClaimDecision :=
  pre_tp1_reclaim_price ← guarded_fact RECLAIM_REFERENCE (sc_pre_tp1_reclaim_reference_fact contract);
  session_end_decimal ← guarded_fact SESSION_EXPIRY (sc_exposure_session_end_reference_fact contract);
  if (guarded RECLAIM_REFERENCE && is_none pre_tp1_reclaim_price)
     || (guarded SESSION_EXPIRY && is_none session_end_decimal)
  then refused_claim PROTECTION_UNAVAILABLE
  else
    match session_end_decimal with
    | Some d =>
        if negb (d =? to_integral_value ROUND_HALF_EVEN d)%dec then refused_claim PROTECTION_UNAVAILABLE
        else size_and_claim contract entry_price stop_price pre_tp1_reclaim_price (Some (int_of d))
    | None => size_and_claim contract entry_price stop_price pre_tp1_reclaim_price None
    end.

Definition build_capacity_claim : result CapacityClaimDecision :=
  refuse_first early_refusals
    (contract ← strategy_contract_for (sg_event_spec_id signal);
     refuse_first (portfolio_refusals contract)
       (let entry_price :=
          match side with long => as_best_ask_price snapshot | short => as_best_bid_price snapshot end in
        match protection_reference signal with
        | None => refused_claim PROTECTION_UNAVAILABLE
        | Some stop_reference =>
            stop_price ← round_stop stop_reference (ir_price_tick rules) side;
            refuse_first (binding_refusals entry_price stop_price)
              (plan_and_claim contract entry_price stop_price)
        end)).

End build.
