(* ===== verification/Shadow.v ===== *)
(** * Shadow outcomes ([domain/shadow_outcome.py],
      [application/project_shadow_outcome.py])

    What the market did after a signal that was not traded: the frozen
    specification, the excursions and the first path over its closed candles,
    and when a specification is made. *)

From S2P Require Import Prelude PyString Sha256 PyDecimal Identities Ticket CrossMarginStress.
From S2P Require Import StrategyRegistry Admission Signal Product Market Detector Arbitration BuildClaim ProduceSignal.
#[local] Open Scope Z_scope.

(** ** The specification *)

Inductive ShadowSourceKind := portfolio_rejection | strategy_observation | signal_path.
#[export] Instance ShadowSourceKind_eq_dec : EqDecision ShadowSourceKind.
Proof. solve_decision. Defined.

Inductive ShadowEvaluationKind := SHADOW_EVALUATION_KIND | SOR_PATH_EVALUATION_KIND | GENERIC_SIGNAL_PATH_KIND.
#[export] Instance ShadowEvaluationKind_eq_dec : EqDecision ShadowEvaluationKind.
Proof. solve_decision. Defined.
Definition evaluation_kind_value (k : ShadowEvaluationKind) : str :=
  match k with
  | SHADOW_EVALUATION_KIND => "fixed_horizon_excursion_v1"
  | SOR_PATH_EVALUATION_KIND => "sor_path_observation_v1"
  | GENERIC_SIGNAL_PATH_KIND => "generic_signal_path_v1"
  end.

Inductive ShadowFirstPath :=
  | tp1_first | initial_stop_first | ambiguous_same_bar | opening_range_failure | path_time_stop
  | session_exit | horizon_complete.
#[export] Instance ShadowFirstPath_eq_dec : EqDecision ShadowFirstPath.
Proof. solve_decision. Defined.

(** [price_basis] is None or "signal_closed_bar". *)
Record ShadowOutcomeSpec := mkShadowSpec {
  so_shadow_outcome_id : str;
  so_signal_event_id : str;
  so_admission_decision_id : option str;
  so_source_kind : ShadowSourceKind;
  so_evaluation_kind : ShadowEvaluationKind;
  so_exchange_instrument_id : str;
  so_position_side : PositionSide;
  so_timeframe : Timeframe;
  so_entry_reference_price : option Decimal;
  so_initial_stop_price : option Decimal;
  so_take_profit_price : option Decimal;
  so_opening_range_boundary_price : option Decimal;
  so_session_exit_deadline_ms : option Z;
  so_mark_price : option Decimal;
  so_index_price : option Decimal;
  so_funding_rate : option Decimal;
  so_best_bid_price : option Decimal;
  so_best_ask_price : option Decimal;
  so_best_bid_quantity : option Decimal;
  so_best_ask_quantity : option Decimal;
  so_unavailable_reason : option str;
  so_horizon_start_ms : Z;
  so_horizon_end_ms : Z;
  so_created_at_ms : Z;
  so_reference_at_ms : option Z;
  so_signal_closed_bar_basis : bool;
  so_path_spec_digest : option str;
  so_source_runtime_commit : option str
}.

(** [ShadowOutcomeSpec.initial_risk_per_unit] *)
Definition initial_risk_per_unit (s : ShadowOutcomeSpec) : option Decimal :=
  match so_entry_reference_price s, so_initial_stop_price s with
  | Some entry, Some stop => Some (dabs (entry - stop)%dec)
  | _, _ => None
  end.

(** [ShadowOutcomeSpec.spread_bps] *)
Definition shadow_spread_bps (s : ShadowOutcomeSpec) : result (option Decimal) :=
  match so_best_bid_price s, so_best_ask_price s with
  | Some bid, Some ask =>
      midpoint ← ddiv (bid + ask)%dec (of_int 2);
      if (midpoint <=? d0)%dec then mret None
      else spread ← ddiv (ask - bid)%dec midpoint; mret (Some (spread * of_int 10000)%dec)
  | _, _ => mret None
  end.

(** [ShadowOutcomeSpec.mark_index_deviation_bps] *)
Definition shadow_mark_index_deviation_bps (s : ShadowOutcomeSpec) : result (option Decimal) :=
  match so_mark_price s, so_index_price s with
  | Some mark, Some index =>
      if (index <=? d0)%dec then mret None
      else deviation ← ddiv (dabs (mark - index)%dec) index; mret (Some (deviation * of_int 10000)%dec)
  | _, _ => mret None
  end.

(** [str(value or "").strip() or None] *)
Definition optional_text (o : option str) : option str :=
  match o with
  | None => None
  | Some s => if bool_decide (strip s = EmptyString) then None else Some (strip s)
  end.

Definition prices_complete (s : ShadowOutcomeSpec) : bool :=
  negb (is_none (so_entry_reference_price s)) && negb (is_none (so_initial_stop_price s)).

(** The stop on the wrong side of the entry, or on it. *)
Definition stop_misplaced (s : ShadowOutcomeSpec) : bool :=
  match so_entry_reference_price s, so_initial_stop_price s with
  | Some entry, Some stop =>
      match so_position_side s with
      | long => (stop >=? entry)%dec
      | short => (stop <=? entry)%dec
      end
  | _, _ => false
  end.

Definition shadow_source_checks (s : ShadowOutcomeSpec) : list (bool * str) :=
  match so_source_kind s with
  | portfolio_rejection =>
      [(is_none (so_admission_decision_id s)
        || negb (bool_decide (so_evaluation_kind s = SHADOW_EVALUATION_KIND))
        || negb (prices_complete s) || negb (is_none (so_unavailable_reason s)),
        "portfolio Shadow requires exact Admission inputs")]
  | signal_path =>
      [(negb (bool_decide (so_evaluation_kind s = GENERIC_SIGNAL_PATH_KIND))
        || negb (is_none (so_admission_decision_id s)) || negb (bool_decide (so_timeframe s = tf_1h))
        || negb (bool_decide (so_reference_at_ms s = Some (so_horizon_start_ms s)))
        || negb (so_signal_closed_bar_basis s)
        || match so_path_spec_digest s with None => true | Some d => negb (is_sha256_digest d) end
        || match so_source_runtime_commit s with None => true | Some c => blank c end,
        "generic Signal path requires exact frozen source");
       (negb (prices_complete s) && is_none (so_unavailable_reason s),
        "generic Signal path requires price or unavailable reason");
       (prices_complete s && is_none (so_unavailable_reason s)
        && opt_test (λ r, (r <=? d0)%dec) (initial_risk_per_unit s),
        "generic Signal path requires positive R0");
       (prices_complete s && is_none (so_unavailable_reason s) && stop_misplaced s,
        "generic Signal path stop direction invalid")]
  | strategy_observation =>
      let plan_complete :=
        prices_complete s && negb (is_none (so_take_profit_price s))
        && negb (is_none (so_opening_range_boundary_price s))
        && negb (is_none (so_session_exit_deadline_ms s)) in
      [(negb (bool_decide (so_evaluation_kind s = SOR_PATH_EVALUATION_KIND)),
        "strategy observation requires SOR path evaluation");
       (Bool.eqb plan_complete (negb (is_none (so_unavailable_reason s))),
        "strategy observation requires a complete plan or unavailable reason")]
  end.

Definition shadow_spec_checks (s : ShadowOutcomeSpec) : list (bool * str) :=
  [((so_horizon_start_ms s <=? 0) || (so_horizon_end_ms s <=? so_horizon_start_ms s)
    || (so_created_at_ms s <=? 0), "shadow horizon and creation time must be positive");
   (opt_test (λ t, t <=? so_horizon_start_ms s) (so_session_exit_deadline_ms s),
    "shadow Session exit must follow its horizon start")] ++ shadow_source_checks s.

(** The identities and the optional texts, stripped. *)
Definition normalize_shadow_spec (s : ShadowOutcomeSpec) : ShadowOutcomeSpec :=
  mkShadowSpec (strip (so_shadow_outcome_id s)) (strip (so_signal_event_id s))
    (optional_text (so_admission_decision_id s)) (so_source_kind s) (so_evaluation_kind s)
    (strip (so_exchange_instrument_id s)) (so_position_side s) (so_timeframe s)
    (so_entry_reference_price s) (so_initial_stop_price s) (so_take_profit_price s)
    (so_opening_range_boundary_price s) (so_session_exit_deadline_ms s) (so_mark_price s)
    (so_index_price s) (so_funding_rate s) (so_best_bid_price s) (so_best_ask_price s)
    (so_best_bid_quantity s) (so_best_ask_quantity s) (optional_text (so_unavailable_reason s))
    (so_horizon_start_ms s) (so_horizon_end_ms s) (so_created_at_ms s) (so_reference_at_ms s)
    (so_signal_closed_bar_basis s) (so_path_spec_digest s) (so_source_runtime_commit s).

Definition validate_ShadowOutcomeSpec (s : ShadowOutcomeSpec) : result ShadowOutcomeSpec :=
  validate_fields
    (((λ v, (blank v, "shadow identities must be non-blank")) <$>
        [so_shadow_outcome_id s; so_signal_event_id s; so_exchange_instrument_id s]) ++
     ((λ v, (opt_test (λ d, (d <=? d0)%dec) v, "shadow reference prices must be finite and positive")) <$>
        [so_entry_reference_price s; so_initial_stop_price s; so_take_profit_price s;
         so_opening_range_boundary_price s; so_mark_price s; so_index_price s; so_best_bid_price s;
         so_best_ask_price s]) ++
     ((λ v, (opt_test (λ d, (d <? d0)%dec) v, "shadow quote quantity must be finite and nonnegative")) <$>
        [so_best_bid_quantity s; so_best_ask_quantity s]));;
  let s := normalize_shadow_spec s in
  validate_model (shadow_spec_checks s);;
  mret s.

(** ** The claim of one attempt and its projection *)

Record ShadowOutcomeClaim := mkShadowClaim {
  sh_spec : ShadowOutcomeSpec;
  sh_claim_owner : str;
  sh_claim_token : str;
  sh_projection_version : Z;
  sh_lease_until_ms : Z
}.

Definition validate_ShadowOutcomeClaim (c : ShadowOutcomeClaim) : result ShadowOutcomeClaim :=
  validate_fields
    ((λ v, (blank v, "Shadow claim identities must be non-blank")) <$> [sh_claim_owner c; sh_claim_token c]);;
  validate_model
    [((sh_projection_version c <=? 0) || (sh_lease_until_ms c <=? 0),
      "Shadow claim version and lease must be positive")];;
  mret (mkShadowClaim (sh_spec c) (strip (sh_claim_owner c)) (strip (sh_claim_token c))
          (sh_projection_version c) (sh_lease_until_ms c)).

Inductive PathOrder := threshold_first | stop_first | same_bar_ambiguous | neither.
#[export] Instance PathOrder_eq_dec : EqDecision PathOrder.
Proof. solve_decision. Defined.

Record ShadowPathLevel := mkLevel {
  pl_first_touch_at_ms : option Z;
  pl_order_vs_stop : PathOrder
}.

(** [path_levels] is a dict: its entries in order of insertion. *)
Record ShadowOutcomeProjection := mkProjection {
  sp_evaluation_kind : ShadowEvaluationKind;
  sp_max_favorable_price : option Decimal;
  sp_max_adverse_price : option Decimal;
  sp_mfe_r : option Decimal;
  sp_mae_r : option Decimal;
  sp_observed_through_ms : option Z;
  sp_first_path : option ShadowFirstPath;
  sp_first_path_at_ms : option Z;
  sp_observed_bar_count : option Z;
  sp_path_levels : option (list (str * ShadowPathLevel));
  sp_initial_stop_first_touch_at_ms : option Z;
  sp_max_favorable_at_ms : option Z;
  sp_max_adverse_at_ms : option Z
}.

(** No value, or one that is not positive. *)
Definition not_positive_count (o : option Z) : bool :=
  match o with None => true | Some n => n <=? 0 end.

Definition projection_checks (p : ShadowOutcomeProjection) : list (bool * str) :=
  let generic := bool_decide (sp_evaluation_kind p = GENERIC_SIGNAL_PATH_KIND) in
  [(is_none (sp_max_favorable_price p) || is_none (sp_max_adverse_price p) || is_none (sp_mfe_r p)
    || is_none (sp_mae_r p) || is_none (sp_observed_through_ms p),
    "shadow projection values must be complete together");
   (opt_test (λ r, (r <? d0)%dec) (sp_mfe_r p), "shadow MFE R must be nonnegative");
   (opt_test (λ r, (r <? d0)%dec) (sp_mae_r p), "shadow MAE R must be nonnegative");
   (generic &&
    (match sp_path_levels p with
     | None => true
     | Some levels => negb (bool_decide (sorted levels.*1 = ["1R"; "3R"; "5R"]))
     end
     || is_none (sp_max_favorable_at_ms p) || is_none (sp_max_adverse_at_ms p)
     || not_positive_count (sp_observed_bar_count p) || negb (is_none (sp_first_path p))
     || negb (is_none (sp_first_path_at_ms p))),
    "generic Signal path projection requires threshold evidence");
   (negb generic &&
    (negb (is_none (sp_path_levels p)) || negb (is_none (sp_initial_stop_first_touch_at_ms p))
     || negb (is_none (sp_max_favorable_at_ms p)) || negb (is_none (sp_max_adverse_at_ms p))),
    "legacy Shadow projection forbids generic path evidence");
   (bool_decide (sp_evaluation_kind p = SHADOW_EVALUATION_KIND) &&
    (negb (is_none (sp_first_path p)) || negb (is_none (sp_first_path_at_ms p))
     || negb (is_none (sp_observed_bar_count p))),
    "fixed-horizon projection forbids SOR path fields");
   (bool_decide (sp_evaluation_kind p = SOR_PATH_EVALUATION_KIND) &&
    (is_none (sp_first_path p) || is_none (sp_first_path_at_ms p)
     || not_positive_count (sp_observed_bar_count p)),
    "SOR path projection requires complete path fields")].

Definition validate_ShadowOutcomeProjection (p : ShadowOutcomeProjection) : result ShadowOutcomeProjection :=
  validate_model (projection_checks p);; mret p.

(** ** Excursions *)

(** The candles that close inside the horizon. *)
Definition in_horizon (s : ShadowOutcomeSpec) (c : ClosedCandle) : bool :=
  (so_horizon_start_ms s <? ck_close_time_ms c) && (ck_close_time_ms c <=? so_horizon_end_ms s).
Definition horizon_candles (s : ShadowOutcomeSpec) (candles : list ClosedCandle) : list ClosedCandle :=
  filter (λ c, in_horizon s c = true) candles.

Definition unavailable {A} (reason : str) : result A := Raise (ShadowOutcomeUnavailable reason).

Definition evaluate_fixed_horizon_excursion (s : ShadowOutcomeSpec) (candles : list ClosedCandle)
    : result ShadowOutcomeProjection :=
  match so_entry_reference_price s, initial_risk_per_unit s with
  | Some entry, Some risk =>
      if (risk <=? d0)%dec then unavailable "zero_initial_risk_distance"
      else
        match horizon_candles s candles with
        | [] => unavailable "no_closed_candles_in_horizon"
        | selected =>
            '(favorable, adverse, mfe, mae) ←
              match so_position_side s with
              | long =>
                  favorable ← py_max (ck_high <$> selected);
                  adverse ← py_min (ck_low <$> selected);
                  mfe ← ddiv (favorable - entry)%dec risk;
                  mae ← ddiv (entry - adverse)%dec risk;
                  mret (favorable, adverse, mfe, mae)
              | short =>
                  favorable ← py_min (ck_low <$> selected);
                  adverse ← py_max (ck_high <$> selected);
                  mfe ← ddiv (entry - favorable)%dec risk;
                  mae ← ddiv (adverse - entry)%dec risk;
                  mret (favorable, adverse, mfe, mae)
              end;
            observed_through ← max_ms (ck_close_time_ms <$> selected);
            validate_ShadowOutcomeProjection
              (mkProjection SHADOW_EVALUATION_KIND (Some favorable) (Some adverse) (Some (dmax d0 mfe))
                 (Some (dmax d0 mae)) (Some observed_through) None None None None None None None)
        end
  | _, _ => unavailable "zero_initial_risk_distance"
  end.

(** ** The first path of a session breakout *)

(** What one candle, the [index]-th of the horizon, decides. *)
Definition path_of_candle (s : ShadowOutcomeSpec) (take_profit stop boundary : Decimal) (deadline : Z)
    (index : Z) (c : ClosedCandle) : option ShadowFirstPath :=
  let '(tp1_hit, stop_hit, failed) :=
    match so_position_side s with
    | long => ((ck_high c >=? take_profit)%dec, (ck_low c <=? stop)%dec, (ck_close c <=? boundary)%dec)
    | short => ((ck_low c <=? take_profit)%dec, (ck_high c >=? stop)%dec, (ck_close c >=? boundary)%dec)
    end in
  if tp1_hit && stop_hit then Some ambiguous_same_bar
  else if tp1_hit then Some tp1_first
  else if stop_hit then Some initial_stop_first
  else if failed then Some opening_range_failure
  else if 8 <=? index then Some path_time_stop
  else if deadline <=? ck_close_time_ms c then Some session_exit
  else None.

(** The loop: the path, its time and the number of candles seen. *)
Fixpoint first_path_from (decide_candle : Z → ClosedCandle → option ShadowFirstPath) (index : Z)
    (candles : list ClosedCandle) : option (ShadowFirstPath * Z * Z) :=
  match candles with
  | [] => None
  | c :: candles =>
      match decide_candle index c with
      | Some path => Some (path, ck_close_time_ms c, index)
      | None => first_path_from decide_candle (index + 1) candles
      end
  end.

Definition with_shadow_kind (s : ShadowOutcomeSpec) : ShadowOutcomeSpec :=
  mkShadowSpec (so_shadow_outcome_id s) (so_signal_event_id s) (so_admission_decision_id s)
    (so_source_kind s) SHADOW_EVALUATION_KIND (so_exchange_instrument_id s) (so_position_side s)
    (so_timeframe s) (so_entry_reference_price s) (so_initial_stop_price s) (so_take_profit_price s)
    (so_opening_range_boundary_price s) (so_session_exit_deadline_ms s) (so_mark_price s)
    (so_index_price s) (so_funding_rate s) (so_best_bid_price s) (so_best_ask_price s)
    (so_best_bid_quantity s) (so_best_ask_quantity s) (so_unavailable_reason s)
    (so_horizon_start_ms s) (so_horizon_end_ms s) (so_created_at_ms s) (so_reference_at_ms s)
    (so_signal_closed_bar_basis s) (so_path_spec_digest s) (so_source_runtime_commit s).

Definition evaluate_sor_path_observation (s : ShadowOutcomeSpec) (candles : list ClosedCandle)
    : result ShadowOutcomeProjection :=
  if negb (bool_decide (so_evaluation_kind s = SOR_PATH_EVALUATION_KIND))
  then unavailable "unsupported_sor_path_evaluation"
  else
    match so_unavailable_reason s with
    | Some reason => unavailable reason
    | None =>
        match so_entry_reference_price s, so_initial_stop_price s, so_take_profit_price s,
              so_opening_range_boundary_price s, so_session_exit_deadline_ms s, initial_risk_per_unit s with
        | Some _, Some stop, Some take_profit, Some boundary, Some deadline, Some risk =>
            if (risk <=? d0)%dec then unavailable "incomplete_sor_observation_plan"
            else
              let selected := horizon_candles s candles in
              match last selected with
              | None => unavailable "no_closed_candles_in_horizon"
              | Some final =>
                  let '(path, path_at, bars) :=
                    default (horizon_complete, ck_close_time_ms final, Z.of_nat (length selected))
                      (first_path_from (path_of_candle s take_profit stop boundary deadline) 1 selected) in
                  excursion ← evaluate_fixed_horizon_excursion (with_shadow_kind s) selected;
                  validate_ShadowOutcomeProjection
                    (mkProjection SOR_PATH_EVALUATION_KIND (sp_max_favorable_price excursion)
                       (sp_max_adverse_price excursion) (sp_mfe_r excursion) (sp_mae_r excursion)
                       (sp_observed_through_ms excursion) (Some path) (Some path_at) (Some bars)
                       None None None None)
              end
        | _, _, _, _, _, _ => unavailable "incomplete_sor_observation_plan"
        end
    end.

(** ** The path of a generic signal *)

Definition timeframe_ms (t : Timeframe) : Z := match t with tf_1h => 3600000 | tf_15m => 900000 end.

(** Every expected closed candle of the horizon, exactly once and in order. *)
Definition has_complete_closed_candle_sequence (s : ShadowOutcomeSpec) (candles : list ClosedCandle) : bool :=
  let duration := timeframe_ms (so_timeframe s) in
  let span := so_horizon_end_ms s - so_horizon_start_ms s in
  let expected :=
    (λ i, so_horizon_start_ms s + duration * Z.of_nat i) <$> seq 1 (Z.to_nat (span / duration)) in
  let selected := horizon_candles s candles in
  (span mod duration =? 0)
  && negb (bool_decide (so_evaluation_kind s = GENERIC_SIGNAL_PATH_KIND)
           && existsb (λ c, negb (ck_open_time_ms c =? ck_close_time_ms c - duration)) selected)
  && bool_decide (ck_close_time_ms <$> selected = expected).

(** [next((c.close_time_ms for c in selected if ...), None)] *)
Fixpoint first_time (touches : ClosedCandle → bool) (candles : list ClosedCandle) : option Z :=
  match candles with
  | [] => None
  | c :: candles => if touches c then Some (ck_close_time_ms c) else first_time touches candles
  end.

(** A candle reaches a price in the direction of the position, or against it. *)
Definition reaches (side : PositionSide) (target : Decimal) (c : ClosedCandle) : bool :=
  match side with long => (ck_high c >=? target)%dec | short => (ck_low c <=? target)%dec end.
Definition stops_out (side : PositionSide) (stop : Decimal) (c : ClosedCandle) : bool :=
  match side with long => (ck_low c <=? stop)%dec | short => (ck_high c >=? stop)%dec end.

Definition path_order (first_at stop_at : option Z) : PathOrder :=
  match first_at, stop_at with
  | None, None => neither
  | None, Some _ => stop_first
  | Some _, None => threshold_first
  | Some f, Some s => if s <? f then stop_first else if f <? s then threshold_first else same_bar_ambiguous
  end.

(** [entry + risk * multiple * (1 or -1)] *)
Definition level_target (side : PositionSide) (entry risk : Decimal) (multiple : Z) : Decimal :=
  (entry + risk * of_int multiple * of_int (match side with long => 1 | short => -1 end))%dec.

Definition path_level (side : PositionSide) (entry risk stop : Decimal) (selected : list ClosedCandle)
    (multiple : Z) : str * ShadowPathLevel :=
  let first_at := first_time (reaches side (level_target side entry risk multiple)) selected in
  (string_of_Z multiple +:+ "R",
   mkLevel first_at (path_order first_at (first_time (stops_out side stop) selected))).

(** The extremes of a horizon are reached in it, so the two searches for their
    times have a result. *)
Definition evaluate_generic_signal_path (s : ShadowOutcomeSpec) (candles : list ClosedCandle)
    : result ShadowOutcomeProjection :=
  if negb (bool_decide (so_evaluation_kind s = GENERIC_SIGNAL_PATH_KIND))
     || negb (is_none (so_unavailable_reason s))
  then unavailable (match so_unavailable_reason s with
                    | Some reason => if bool_decide (reason = EmptyString)
                                     then "unsupported_generic_signal_path" else reason
                    | None => "unsupported_generic_signal_path"
                    end)
  else if negb (has_complete_closed_candle_sequence s candles)
  then unavailable "incomplete_historical_window"
  else
    match so_entry_reference_price s, so_initial_stop_price s, initial_risk_per_unit s with
    | Some entry, Some stop, Some risk =>
        let selected := horizon_candles s candles in
        let side := so_position_side s in
        match selected with
        | [] => unavailable "no_closed_candles_in_horizon"
        | _ =>
            excursion ← evaluate_fixed_horizon_excursion s selected;
            match sp_max_favorable_price excursion, sp_max_adverse_price excursion with
            | Some favorable, Some adverse =>
                let best c := match side with long => ck_high c | short => ck_low c end in
                let worst c := match side with long => ck_low c | short => ck_high c end in
                validate_ShadowOutcomeProjection
                  (mkProjection GENERIC_SIGNAL_PATH_KIND (Some favorable) (Some adverse)
                     (sp_mfe_r excursion) (sp_mae_r excursion) (sp_observed_through_ms excursion) None None
                     (Some (Z.of_nat (length selected)))
                     (Some (path_level side entry risk stop selected <$> [1; 3; 5]))
                     (first_time (stops_out side stop) selected)
                     (first_time (λ c, (best c =? favorable)%dec) selected)
                     (first_time (λ c, (worst c =? adverse)%dec) selected))
            | _, _ => Raise (AssertionError EmptyString)
            end
        end
    | _, _, _ => unavailable "incomplete_signal_path_reference"
    end.

Definition evaluate_shadow_outcome (s : ShadowOutcomeSpec) (candles : list ClosedCandle)
    : result ShadowOutcomeProjection :=
  match so_evaluation_kind s with
  | SOR_PATH_EVALUATION_KIND => evaluate_sor_path_observation s candles
  | GENERIC_SIGNAL_PATH_KIND => evaluate_generic_signal_path s candles
  | SHADOW_EVALUATION_KIND => evaluate_fixed_horizon_excursion s candles
  end.

(** ** When a specification is made ([application/project_shadow_outcome.py]) *)

(** [_ELIGIBLE_REJECTION_BLOCKERS] *)
Definition eligible_rejection_blockers : list str :=
  ["budget_exhausted"; "exposure_family_capacity_exhausted"; "strategy_side_capacity_exhausted";
   "directional_risk_exhausted"; "active_netting_domain"].

(** [_fact_decimal] *)
Definition fact_decimal (signal : StrategySignal) (fact_name : str) : result (option Decimal) :=
  contract ← strategy_contract_for (sg_event_spec_id signal);
  match list_find (λ r, fr_fact_name r = fact_name) (sc_required_facts contract) with
  | None => mret None
  | Some (_, requirement) =>
      match filter (λ f, sf_fact_definition_id f = fr_fact_definition_id requirement) (sg_facts signal) with
      | [fact] => mret (positive_decimal_value (sf_value fact))
      | _ => mret None
      end
  end.

Definition integral (d : Decimal) : bool := (d =? to_integral_value ROUND_HALF_EVEN d)%dec.

(** [_fact_integer] *)
Definition fact_integer (signal : StrategySignal) (fact_name : str) : result (option Z) :=
  value ← fact_decimal signal fact_name;
  mret (match value with Some d => if integral d then Some (int_of d) else None | None => None end).

(** [_valid_stop_direction] *)
Definition valid_stop_direction (side : PositionSide) (entry stop : Decimal) : bool :=
  match side with long => (stop <=? entry)%dec | short => (stop >=? entry)%dec end.

(** [_horizon_end_ms] *)
Definition horizon_end_ms (signal : StrategySignal) (horizon_bars : Z) : result (option Z) :=
  contract ← strategy_contract_for (sg_event_spec_id signal);
  let maximum := sg_occurred_at_ms signal + horizon_bars * timeframe_ms (sc_timeframe contract) in
  if negb (bool_decide (sc_timeframe contract = tf_15m)) then mret (Some maximum)
  else
    mret
      match sc_exposure_session_end_reference_fact contract with
      | None => None
      | Some name =>
          match list_find (λ r, fr_fact_name r = name) (sc_required_facts contract) with
          | None => None
          | Some (_, requirement) =>
              match list_find (λ f, sf_fact_definition_id f = fr_fact_definition_id requirement)
                      (sg_facts signal) with
              | None => None
              | Some (_, fact) =>
                  match decimal_of_value (sf_value fact) with
                  | Some (Some session_end) =>
                      if negb (integral session_end)
                         || (session_end <=? of_int (sg_occurred_at_ms signal))%dec
                      then None else Some (Z.min maximum (int_of session_end))
                  | _ => None
                  end
              end
          end
      end.

(** ["shadow:" + digest.removeprefix("sha256:")[:32]] *)
Definition shadow_id (digest : str) : str := "shadow:" +:+ take_prefix 32 (remove_sha256_prefix digest).

Definition rejection_ineligible (d : AdmissionDecision) (signal : StrategySignal)
    (snapshot : EntryAdmissionSnapshot) : bool :=
  negb (bool_decide (ad_decision_status d = REJECTED))
  || match ad_first_blocker d with
     | Some b => negb (bool_decide (b ∈ eligible_rejection_blockers))
     | None => true
     end
  || negb (is_none (ad_capacity_claim_id d)) || negb (is_none (ad_ticket_id d))
  || negb (bool_decide (ad_signal_event_id d = sg_signal_event_id signal))
  || negb (bool_decide (ad_entry_admission_snapshot_digest d = Some (admission_snapshot_digest snapshot))).

Definition pending_shadow_spec_for_rejection (d : AdmissionDecision) (signal : StrategySignal)
    (snapshot : EntryAdmissionSnapshot) : result (option ShadowOutcomeSpec) :=
  if rejection_ineligible d signal snapshot then mret None
  else
    contract ← strategy_contract_for (sg_event_spec_id signal);
    if negb (bool_decide (sc_position_side contract = sg_position_side signal))
       || negb (bool_decide (sc_event_spec_id contract = ad_event_spec_id d)) then mret None
    else
      let entry :=
        match sg_position_side signal with
        | long => as_best_ask_price snapshot
        | short => as_best_bid_price snapshot
        end in
      match protection_reference signal with
      | None => mret None
      | Some stop =>
          if negb (valid_stop_direction (sg_position_side signal) entry stop) then mret None
          else
            horizon_end ← horizon_end_ms signal (sc_shadow_horizon_bars contract);
            match horizon_end with
            | None => mret None
            | Some horizon_end =>
                let digest := canonical_digest (JObj
                  [("admission_decision_id", JStr (ad_admission_decision_id d));
                   ("evaluation_kind", JStr (evaluation_kind_value SHADOW_EVALUATION_KIND))]) in
                spec ← validate_ShadowOutcomeSpec
                  (mkShadowSpec (shadow_id digest) (sg_signal_event_id signal)
                     (Some (ad_admission_decision_id d)) portfolio_rejection SHADOW_EVALUATION_KIND
                     (sg_exchange_instrument_id signal) (sg_position_side signal) (sc_timeframe contract)
                     (Some entry) (Some stop) None None None None None None None None None None None
                     (sg_occurred_at_ms signal) horizon_end (ad_decided_at_ms d) None false None None);
                mret (Some spec)
            end
      end.

(** The first reason a session breakout cannot be observed. *)
Definition observation_unavailable (side : PositionSide) (entry stop boundary : option Decimal)
    (deadline : option Z) : option str :=
  match entry, stop, boundary, deadline with
  | None, _, _, _ => Some "entry_quote_unavailable"
  | _, None, _, _ => Some "initial_stop_unavailable"
  | _, _, None, _ => Some "opening_range_boundary_unavailable"
  | _, _, _, None => Some "session_exit_deadline_unavailable"
  | Some entry, Some stop, _, _ =>
      if negb (valid_stop_direction side entry stop) then Some "invalid_initial_stop_direction"
      else if (dabs (entry - stop) <=? d0)%dec then Some "zero_initial_risk_distance" else None
  end.

Definition pending_shadow_spec_for_strategy_observation (signal : StrategySignal)
    (product : ProductSessionSnapshot) : result (option ShadowOutcomeSpec) :=
  if negb (bool_decide (sg_strategy_group_id signal = "SOR-US-EQ-PERP-001"))
     || negb (bool_decide (ps_exchange_instrument_id product = sg_exchange_instrument_id signal))
     || negb (bool_decide (ps_product_family product = tradfi_equity_perpetual))
     || (sg_occurred_at_ms signal <? ps_observed_at_ms product)
     || (ps_valid_until_ms product <=? sg_occurred_at_ms signal) then mret None
  else
    contract ← strategy_contract_for (sg_event_spec_id signal);
    match sc_pre_tp1_reclaim_reference_fact contract, sc_exposure_session_end_reference_fact contract with
    | Some reclaim_fact, Some session_fact =>
        if negb (bool_decide (sc_strategy_group_id contract = sg_strategy_group_id signal))
           || negb (bool_decide (sc_timeframe contract = tf_15m))
           || negb (bool_decide (sc_position_side contract = sg_position_side signal)) then mret None
        else
          horizon_end ← horizon_end_ms signal (sc_shadow_horizon_bars contract);
          match horizon_end with
          | None => mret None
          | Some horizon_end =>
              let side := sg_position_side signal in
              let entry := match side with long => ps_best_ask product | short => ps_best_bid product end in
              stop ← fact_decimal signal (sc_protection_reference_fact contract);
              boundary ← fact_decimal signal reclaim_fact;
              deadline ← fact_integer signal session_fact;
              let reason := observation_unavailable side entry stop boundary deadline in
              let take_profit :=
                match reason, entry, stop with
                | None, Some entry, Some stop =>
                    let risk := dabs (entry - stop)%dec in
                    Some (match side with long => entry + risk | short => entry - risk end)%dec
                | _, _, _ => None
                end in
              let digest := canonical_digest (JObj
                [("evaluation_kind", JStr (evaluation_kind_value SOR_PATH_EVALUATION_KIND));
                 ("signal_event_id", JStr (sg_signal_event_id signal))]) in
              spec ← validate_ShadowOutcomeSpec
                (mkShadowSpec (shadow_id digest) (sg_signal_event_id signal) None strategy_observation
                   SOR_PATH_EVALUATION_KIND (sg_exchange_instrument_id signal) side tf_15m entry stop
                   take_profit boundary deadline (ps_mark_price product) (ps_index_price product)
                   (ps_funding_rate product) (ps_best_bid product) (ps_best_ask product)
                   (ps_best_bid_quantity product) (ps_best_ask_quantity product) reason
                   (sg_occurred_at_ms signal) horizon_end (sg_observed_at_ms signal) None false None None);
              mret (Some spec)
          end
    | _, _ => mret None
    end.

(** The strategies whose signals have a generic path. *)
Definition generic_path_groups : list str := ["CPM-RO-001"; "MPG-001"; "MI-001"; "BRF2-001"; "SOR-1H-001"].

(** [candle.model_dump(mode="json")] *)
Definition candle_json (c : ClosedCandle) : JsonValue :=
  JObj [("open_time_ms", JInt (ck_open_time_ms c)); ("close_time_ms", JInt (ck_close_time_ms c));
        ("open", JStr (py_str (ck_open c))); ("high", JStr (py_str (ck_high c)));
        ("low", JStr (py_str (ck_low c))); ("close", JStr (py_str (ck_close c)));
        ("volume", JStr (py_str (ck_volume c)))].

(** A reference fact is a finite decimal by its validator. *)
Definition pending_generic_signal_path_spec (signal : StrategySignal) (snapshot : MarketSnapshot)
    (runtime_commit : str) : result ShadowOutcomeSpec :=
  contract ← strategy_contract_for (sg_event_spec_id signal);
  raise_if
    (negb (bool_decide (sg_strategy_group_id signal ∈ generic_path_groups))
     || negb (bool_decide (sc_strategy_group_id contract = sg_strategy_group_id signal))
     || negb (bool_decide (sc_strategy_version_id contract = sg_strategy_version_id signal))
     || negb (bool_decide (sc_position_side contract = sg_position_side signal))
     || negb (bool_decide (sc_timeframe contract = tf_1h)) || negb (sc_shadow_horizon_bars contract =? 24)
     || negb (bool_decide (mk_exchange_instrument_id snapshot = sg_exchange_instrument_id signal))
     || negb (mk_trigger_candle_close_time_ms snapshot =? sg_occurred_at_ms signal))
    (ValueError "generic Signal path identity differs from Registry or closed bar");;
  match filter (λ c, ck_close_time_ms c = sg_occurred_at_ms signal) (mk_candles_1h snapshot) with
  | [candle] =>
      match filter (λ f, sf_role f = role_protection_reference ∧
                         existsb (λ r, bool_decide (fr_fact_definition_id r = sf_fact_definition_id f)
                                       && bool_decide (fr_fact_name r = sc_protection_reference_fact contract))
                           (sc_required_facts contract) = true) (sg_facts signal) with
      | [fact] =>
          match decimal_of_value (sf_value fact) with
          | Some (Some stop) =>
              let reference := ck_close candle in
              let reason :=
                if (stop =? reference)%dec then Some "zero_initial_risk_distance"
                else if match sg_position_side signal with
                        | long => (stop >? reference)%dec
                        | short => (stop <? reference)%dec
                        end then Some "invalid_initial_stop_direction" else None in
              raise_if (blank runtime_commit) (ValueError "generic Signal path runtime commit is missing");;
              let digest := canonical_digest (JObj
                [("signal_event_id", JStr (sg_signal_event_id signal));
                 ("runtime_commit", JStr runtime_commit); ("fact_digest", JStr (sg_fact_digest signal));
                 ("evaluation_kind", JStr (evaluation_kind_value GENERIC_SIGNAL_PATH_KIND));
                 ("reference_price", JStr (py_str reference)); ("stop_price", JStr (py_str stop));
                 ("reference_close_ms", JInt (sg_occurred_at_ms signal)); ("horizon_bars", JInt 24);
                 ("source_candle", candle_json candle)]) in
              validate_ShadowOutcomeSpec
                (mkShadowSpec ("shadow:" +:+ String.substring 7 32 digest) (sg_signal_event_id signal) None
                   signal_path GENERIC_SIGNAL_PATH_KIND (sg_exchange_instrument_id signal)
                   (sg_position_side signal) tf_1h (Some reference) (Some stop) None None None None None
                   None None None None None reason (sg_occurred_at_ms signal)
                   (sg_occurred_at_ms signal + 24 * 3600000) (sg_observed_at_ms signal)
                   (Some (sg_occurred_at_ms signal)) true (Some digest) (Some runtime_commit))
          | _ => Raise DecimalInvalidOperation
          end
      | _ => Raise (ValueError "generic Signal path protection reference differs from Registry")
      end
  | _ => Raise (ValueError "generic Signal path requires exact trigger closed candle")
  end.

Definition positive_risk (risk : option Decimal) : bool :=
  match risk with Some r => (r >? d0)%dec | None => false end.

(** What [project_claimed_shadow_outcome] writes, and what it returns. *)
Inductive ShadowWrite :=
  | mark_unavailable (reason : str)
  | release_expired_claim
  | complete (projection : ShadowOutcomeProjection)
  | no_write.

Definition project_claimed_shadow_outcome (claim : ShadowOutcomeClaim) (candles : list ClosedCandle)
    : result (ShadowWrite * bool) :=
  let spec := sh_spec claim in
  if positive_risk (initial_risk_per_unit spec) then
    if negb (has_complete_closed_candle_sequence spec candles) then
      mret (if bool_decide (so_source_kind spec = signal_path) then no_write else release_expired_claim, false)
    else
      match evaluate_shadow_outcome spec candles with
      | Ok projection => mret (complete projection, true)
      | Raise (ShadowOutcomeUnavailable reason) => mret (mark_unavailable reason, true)
      | Raise e => Raise e
      end
  else mret (mark_unavailable "zero_initial_risk_distance", true).
