(* ===== verification/VacuumLateFill.v ===== *)
(** * Vacuum late fills ([domain/vacuum_late_fill.py])

    Attribution of a fill, found after a zero-fill observation, to one frozen
    ENTRY command, and the digests that prove it. *)

From S2P Require Import Prelude PyString Sha256 PyDecimal Identities Ticket CrossMarginStress.
From S2P Require Import Commands VenueTruth.

(** [s.rstrip(c)] *)
Fixpoint rstrip_char (c : ascii) (s : str) : str :=
  match s with
  | EmptyString => EmptyString
  | String x s' =>
      match rstrip_char c s' with
      | EmptyString => if bool_decide (x = c) then EmptyString else String x EmptyString
      | r => String x r
      end
  end.

Definition dot : ascii := ascii_of_N 46.
Definition zero_digit : ascii := ascii_of_N 48.

(** The decimal rendering of [_proof_digest]. *)
Definition render_proof_decimal (d : Decimal) : str :=
  let rendered := if (d =? d0)%dec then "0" else format_f d in
  if has_char dot rendered then rstrip_char dot (rstrip_char zero_digit rendered) else rendered.

Definition vacuum_late_fill_proof_digest (ticket_id entry_command_id exchange_order_id
    venue_client_order_id netting_domain_key : str) (filled_qty average_fill_price : Decimal)
    (position_observed_at_ms venue_observed_at_ms : Z) : str :=
  canonical_digest (JObj
    [("ticket_id", JStr ticket_id);
     ("entry_command_id", JStr entry_command_id);
     ("exchange_order_id", JStr exchange_order_id);
     ("venue_client_order_id", JStr venue_client_order_id);
     ("netting_domain_key", JStr netting_domain_key);
     ("filled_qty", JStr (render_proof_decimal filled_qty));
     ("average_fill_price", JStr (render_proof_decimal average_fill_price));
     ("position_observed_at_ms", JInt position_observed_at_ms);
     ("venue_observed_at_ms", JInt venue_observed_at_ms)]).

Definition vacuum_no_fill_proof_digest (ticket_id entry_command_id exchange_order_id
    venue_client_order_id netting_domain_key : str)
    (position_observed_at_ms venue_observed_at_ms : Z) : str :=
  canonical_digest (JObj
    [("ticket_id", JStr ticket_id);
     ("entry_command_id", JStr entry_command_id);
     ("exchange_order_id", JStr exchange_order_id);
     ("venue_client_order_id", JStr venue_client_order_id);
     ("netting_domain_key", JStr netting_domain_key);
     ("filled_qty", JStr (render_proof_decimal d0));
     ("position_observed_at_ms", JInt position_observed_at_ms);
     ("venue_observed_at_ms", JInt venue_observed_at_ms)]).

#[global] Arguments vacuum_late_fill_proof_digest : simpl never.
#[global] Arguments vacuum_no_fill_proof_digest : simpl never.

Inductive LateFillStatus := ATTRIBUTED | NO_FILL_VERIFIED | UNVERIFIED.
#[export] Instance LateFillStatus_eq_dec : EqDecision LateFillStatus.
Proof. solve_decision. Defined.

Record LateFillInput := mkLateFillInput {
  lf_ticket : TradeTicket;
  lf_entry_command : ExchangeCommand;
  lf_entry_exchange_order_id : str;
  lf_position : PositionSnapshot;
  lf_venue_truth : VenueTruthSnapshot;
  lf_contradiction_observed_at_ms : Z
}.

Definition validate_LateFillInput (f : LateFillInput) : result LateFillInput :=
  validate_model
    [(blank (lf_entry_exchange_order_id f),
      "late fill attribution requires original ENTRY order identity");
     (lf_contradiction_observed_at_ms f <=? 0,
      "late fill attribution requires positive contradiction time")];;
  mret f.

Record LateFillDecision := mkLateFillDecision {
  ld_status : LateFillStatus;
  ld_reason_code : str;
  ld_proof_digest : option str;
  ld_filled_qty : option Decimal;
  ld_average_fill_price : option Decimal
}.

Definition validate_LateFillDecision (d : LateFillDecision) : result LateFillDecision :=
  let no_digest := is_none (ld_proof_digest d) in
  let no_qty := is_none (ld_filled_qty d) in
  let no_price := is_none (ld_average_fill_price d) in
  validate_model
    [match ld_status d with
     | ATTRIBUTED => (no_digest || no_qty || no_price,
                      "late fill attribution decision has incomplete proof")
     | NO_FILL_VERIFIED => (no_digest || negb no_qty || negb no_price,
                            "no-fill decision requires only exact proof")
     | UNVERIFIED => (negb no_digest || negb no_qty || negb no_price,
                      "unverified decision cannot carry proof")
     end];;
  mret d.

(** [_unverified] *)
Definition unverified (reason_code : str) : result LateFillDecision :=
  validate_LateFillDecision (mkLateFillDecision UNVERIFIED reason_code None None None).

Definition order_identity_differs (f : LateFillInput) (p : OrderCommandPayload)
    (client_order_id : str) (o : VenueOrderTruth) : bool :=
  let domain := ti_netting_domain (tk_identity (lf_ticket f)) in
  negb (bool_decide (vo_exchange_order_id o = lf_entry_exchange_order_id f))
  || negb (bool_decide (vo_venue_client_order_id o = client_order_id))
  || negb (bool_decide (vo_exchange_instrument_id o = nd_exchange_instrument_id domain))
  || negb (bool_decide (vo_position_side o = nd_position_side domain))
  || negb (bool_decide (vo_order_side o = op_side p))
  || negb (vo_quantity o =? op_quantity p)%dec
  || vo_reduce_only o
  || negb (bool_decide (vo_order_namespace o = regular)).

(** The final branches: the closed order and the position agree. *)
Definition attribute_exact_fill (f : LateFillInput) (o : VenueOrderTruth)
    : result LateFillDecision :=
  let ticket_id := ti_ticket_id (tk_identity (lf_ticket f)) in
  let domain := ti_netting_domain (tk_identity (lf_ticket f)) in
  let position := lf_position f in
  let truth := lf_venue_truth f in
  let command_id := ec_command_id (lf_entry_command f) in
  if (ps_quantity position =? d0)%dec then
    if negb (is_none (vt_matching_fill_average_price truth)) then
      unverified "zero_fill_price_contradiction"
    else
      validate_LateFillDecision
        (mkLateFillDecision NO_FILL_VERIFIED "exact_closed_entry_no_fill"
           (Some (vacuum_no_fill_proof_digest ticket_id command_id (vo_exchange_order_id o)
                    (vo_venue_client_order_id o) (netting_domain_key domain)
                    (ps_observed_at_ms position) (vt_observed_at_ms truth)))
           None None)
  else
    match ps_average_entry_price position with
    | None => Raise (TypeError "AssertionError")
    | Some price =>
        if negb (match vt_matching_fill_average_price truth with
                 | Some v => (v =? price)%dec | None => false end) then
          unverified "entry_fill_price_mismatch"
        else
          validate_LateFillDecision
            (mkLateFillDecision ATTRIBUTED "exact_closed_entry_fill"
               (Some (vacuum_late_fill_proof_digest ticket_id command_id (vo_exchange_order_id o)
                        (vo_venue_client_order_id o) (netting_domain_key domain)
                        (ps_quantity position) price (ps_observed_at_ms position)
                        (vt_observed_at_ms truth)))
               (Some (ps_quantity position)) (Some price))
    end.

Definition decide_vacuum_late_fill_attribution (f : LateFillInput) : result LateFillDecision :=
  let ticket := lf_ticket f in
  let command := lf_entry_command f in
  let position := lf_position f in
  let truth := lf_venue_truth f in
  let domain := ti_netting_domain (tk_identity ticket) in
  if negb (bool_decide (ec_ticket_identity command = tk_identity ticket))
     || negb (bool_decide (ec_kind command = ENTRY)) then
    unverified "entry_command_identity_mismatch"
  else if negb (bool_decide (ec_status command ∈ [ACCEPTED; RECONCILED_ACCEPTED])) then
    unverified "entry_command_not_authoritatively_accepted"
  else
    match ec_payload command, ec_venue_client_order_id command with
    | OrderPayload payload, Some client_order_id =>
        if negb (op_quantity payload =? tk_quantity ticket)%dec || op_reduce_only payload then
          unverified "entry_command_quantity_or_side_invalid"
        else if negb (bool_decide (ps_netting_domain position = domain)) then
          unverified "position_netting_domain_mismatch"
        else if (ps_quantity position <? d0)%dec || (ps_quantity position >? tk_quantity ticket)%dec then
          unverified "position_quantity_outside_ticket"
        else if negb (Nat.eqb (length (ps_open_orders position)) 0) then
          unverified "position_has_residual_order"
        else if ps_observed_at_ms position <=? lf_contradiction_observed_at_ms f then
          unverified "position_observation_not_newer"
        else
          match vt_lookup_status truth, vt_order truth with
          | VISIBLE, Some o =>
              if order_identity_differs f payload client_order_id o then
                unverified "entry_order_identity_mismatch"
              else if vo_is_open o
                || bool_decide (client_order_id ∈ vt_regular_open_client_order_ids truth)
                || bool_decide (client_order_id ∈ vt_conditional_open_client_order_ids truth) then
                unverified "entry_order_still_open"
              else if (vt_observed_at_ms truth <? ps_observed_at_ms position)
                || negb (vt_position_quantity truth =? ps_quantity position)%dec
                || negb (vt_matching_fill_quantity truth =? ps_quantity position)%dec
                || negb (vt_matching_fill_complete truth) then
                unverified "entry_fill_or_position_truth_mismatch"
              else attribute_exact_fill f o
          | _, _ => unverified "entry_order_not_exactly_visible"
          end
    | _, _ => unverified "entry_command_payload_invalid"
    end.
