(* ===== verification/Events.v ===== *)
(** * Lifecycle facts ([domain/events.py])

    The sixty-six immutable events the reducer accepts.  Every event has the
    header of [_Event]; all but [TicketIssued] carry the Ticket identity of
    [_TicketEvent].  [validate_event] runs the pydantic validators. *)

From S2P Require Import Prelude PyString PyDecimal Identities Ticket PostFillRisk.
From S2P Require Import CrossMarginStress.

(** [Literal["passed", "failed"]] *)
Inductive StressOutcome := stress_passed | stress_failed.
#[export] Instance StressOutcome_eq_dec : EqDecision StressOutcome.
Proof. solve_decision. Defined.

(** The event classes; the fields beyond the header are the arguments. *)
Inductive EventBody :=
  | TicketIssued (ticket : TradeTicket)
  | LeverageConfirmed (exchange_configured_leverage leverage_verified_at_ms : Z)
      (leverage_verification_digest : str)
  | LeverageRejected (reason : str)
  | LeverageOutcomeUnknown (reason : str)
  | EntryAccepted (exchange_order_id : str)
  | EntryRejected (reason : str)
  | EntryOutcomeUnknown (reason : str)
  | EntryAbsenceConfirmed (command_id : str)
  | EntryFilled (filled_qty average_fill_price : Decimal) (post_fill_risk : PostFillRiskDecision)
      (venue_reported_liquidation_price : option Decimal) (position_observed_at_ms : Z)
  | EntryPartiallyFilled (filled_qty requested_qty average_fill_price : Decimal)
  | EntryRemainderCancelConfirmed (exchange_order_id : str)
  | EntryRemainderCancelRejected (exchange_order_id reason : str)
  | EntryRemainderCancelOutcomeUnknown (exchange_order_id reason : str)
  | EntryVacuumSuperseded (entry_vacuum_id command_id : str)
  | EntryVacuumCancelRequested (entry_vacuum_id exchange_order_id : str) (observed_qty : Decimal)
      (average_fill_price : option Decimal)
  | EntryVacuumCancelConfirmed (exchange_order_id : str)
  | EntryVacuumCancelRejected (exchange_order_id reason : str)
  | EntryVacuumCancelOutcomeUnknown (exchange_order_id reason : str)
  | EntryVacuumOrderAbsenceConfirmed (entry_vacuum_id exchange_order_id : str)
      (final_filled_qty : Decimal) (average_fill_price : option Decimal)
  | VacuumLateFillAttributed (entry_vacuum_id entry_command_id exchange_order_id
      venue_client_order_id : str) (filled_qty average_fill_price : Decimal)
      (position_observed_at_ms venue_observed_at_ms : Z) (attribution_digest : str)
  | VacuumPostAbsenceNoFillVerified (entry_vacuum_id entry_command_id exchange_order_id
      venue_client_order_id : str) (position_observed_at_ms venue_observed_at_ms : Z)
      (proof_digest : str)
  | EntryVacuumAbsenceConfirmed (entry_vacuum_id : str)
  | VacuumPartialRetained (entry_vacuum_id : str) (selection_authority_id : option str)
      (requested_qty final_filled_qty average_fill_price quantity_step effective_tp1_qty
       effective_runner_qty : Decimal) (post_fill_risk : PostFillRiskDecision)
  | VacuumPartialFlattenRequired (entry_vacuum_id : str)
      (final_filled_qty average_fill_price : Decimal) (reason : str)
  | InitialStopConfirmed (exchange_order_id : str) (protected_qty : Decimal)
  | PostFillStressAssessed (status : StressOutcome) (evidence : CrossMarginStressEvidence)
      (owner_policy_id : str) (owner_policy_version : Z)
      (filled_qty average_fill_price initial_stop_price : Decimal)
      (initial_stop_exchange_order_id : str)
  | InitialStopRejected (reason : str)
  | InitialStopOutcomeUnknown (reason : str)
  | InitialStopAbsenceConfirmed (command_id : str)
  | TakeProfitConfirmed (exchange_order_id : str) (target_qty : Decimal)
  | TakeProfitRejected (reason : str)
  | TakeProfitOutcomeUnknown (reason : str)
  | TakeProfitAbsenceConfirmed (command_id : str)
  | TakeProfitFilled (filled_qty average_fill_price runner_floor_price : Decimal)
  | RunnerStopRequested (stop_price : Decimal) (source_watermark_ms : Z)
  | ProtectionReplacementConfirmed (exchange_order_id : str) (protected_qty stop_price : Decimal)
      (replaces_exchange_order_id : str) (source_watermark_ms : Z)
  | ProtectionReplacementRejected (reason : str)
  | ProtectionReplacementOutcomeUnknown (reason : str)
  | ProtectionReplacementAbsenceConfirmed (command_id : str)
  | ExitRequested (reason : str)
  | ExitAccepted (exchange_order_id : str)
  | ExitRejected (reason : str)
  | ExitOutcomeUnknown (reason : str)
  | ExitAbsenceConfirmed (command_id : str)
  | ControlledFlattenAccepted (exchange_order_id : str)
  | ControlledFlattenRejected (reason : str)
  | ControlledFlattenOutcomeUnknown (reason : str)
  | ControlledFlattenAbsenceConfirmed (command_id : str)
  | PositionFlatConfirmed
  | ExternalFlatDetected
  | OwnedOrphanOrderDetected (exchange_order_id : str) (order_namespace : OrderNamespace)
  | OwnedOrderAbsenceConfirmed (exchange_order_id : str)
  | UnownedOrderDetected (exchange_order_id : str)
  | ProtectionCancelConfirmed (exchange_order_id : str)
  | ProtectionCancelRejected (exchange_order_id reason : str)
  | ProtectionCancelOutcomeUnknown (exchange_order_id reason : str)
  | ProtectionCancelAbsenceConfirmed (exchange_order_id : str)
  | OwnedOrphanCancelConfirmed (exchange_order_id : str)
  | CancelOrderRejected (exchange_order_id reason : str)
  | CancelOrderOutcomeUnknown (exchange_order_id reason : str)
  | CancelOrderAbsenceConfirmed (exchange_order_id : str)
  | CancelOrderStillOpenConfirmed (exchange_order_id : str)
  | ReconciliationMatched (resolved_incident_kind : option str)
  | BudgetSettled
  | ReviewRecorded (review_id : str)
  | ReviewRevised (review_id supersedes_review_id : str).

(** [ev_ticket_id] is the [ticket_id] of [_TicketEvent]; [TicketIssued] has no
    such field and the reducer never reads it there. *)
Record TradeEvent := mkEvent {
  ev_event_id : str;
  ev_sequence : Z;
  ev_occurred_at_ms : Z;
  ev_ticket_id : str;
  ev_body : EventBody
}.

Definition opt_price_shape (qty : Decimal) (price : option Decimal) : bool :=
  negb (Bool.eqb (qty =? d0)%dec (is_none price)).

(** The three-place observation window of the late-fill events. *)
Definition observation_window_invalid (position venue occurred : Z) : bool :=
  negb ((0 <? position) && (position <=? venue) && (venue <=? occurred)).

(** [a % b != 0] in a validator: an invalid operation escapes as itself. *)
Definition misaligned (a b : Decimal) : result bool :=
  r ← dmod a b; mret (negb (r =? d0)%dec).

(** The class-specific validators of each event. *)
Definition validate_body (occurred_at_ms : Z) (b : EventBody) : result unit :=
  match b with
  | LeverageConfirmed lev at_ms digest =>
      validate_fields
        [(lev <=? 0, "leverage confirmation integers must be positive");
         (at_ms <=? 0, "leverage confirmation integers must be positive");
         (negb (is_sha256_digest digest), "leverage confirmation requires a sha256 digest")]
  | LeverageRejected reason =>
      validate_fields [(blank reason, "leverage rejection requires reason")]
  | LeverageOutcomeUnknown reason =>
      validate_fields [(blank reason, "unknown leverage outcome requires reason")]
  | EntryVacuumSuperseded vac cmd =>
      validate_model [(blank vac || blank cmd, "Vacuum supersession requires exact identities")]
  | EntryVacuumCancelRequested vac oid qty price =>
      validate_model
        [(blank vac || blank oid, "Vacuum ENTRY cancel requires exact identities");
         ((qty <? d0)%dec, "Vacuum ENTRY observed quantity cannot be negative");
         (opt_price_shape qty price, "Vacuum ENTRY fill price must match observed exposure");
         (opt_test nonpositive price, "Vacuum ENTRY fill price must be positive")]
  | EntryVacuumOrderAbsenceConfirmed vac oid qty price =>
      validate_model
        [(blank vac || blank oid, "Vacuum order absence requires exact identities");
         ((qty <? d0)%dec, "Vacuum final filled quantity cannot be negative");
         (opt_price_shape qty price, "Vacuum final fill price must match final quantity");
         (opt_test nonpositive price, "Vacuum final fill price must be positive")]
  | VacuumLateFillAttributed vac cmd oid cid qty price pos venue digest =>
      validate_model
        [(existsb blank [vac; cmd; oid; cid], "late fill attribution requires exact identities");
         (nonpositive qty || nonpositive price,
          "late fill attribution requires positive finite quantity and price");
         (observation_window_invalid pos venue occurred_at_ms,
          "late fill attribution observation times are invalid");
         (negb (is_sha256_digest digest), "late fill attribution requires canonical digest")]
  | VacuumPostAbsenceNoFillVerified vac cmd oid cid pos venue digest =>
      validate_model
        [(existsb blank [vac; cmd; oid; cid],
          "post-absence no-fill proof requires exact identities");
         (observation_window_invalid pos venue occurred_at_ms,
          "post-absence no-fill proof times are invalid");
         (negb (is_sha256_digest digest), "post-absence no-fill proof requires canonical digest")]
  | VacuumPartialRetained vac authority requested final price step tp1 runner risk =>
      validate_model
        [(blank vac, "retained partial requires Vacuum identity");
         (opt_test blank authority, "retained partial Authority identity cannot be blank");
         (nonpositive (foldl dmin requested [final; price; step; tp1; runner]),
          "retained partial quantities and price must be positive");
         (negb (final <? requested)%dec,
          "retained partial must be smaller than requested quantity")];;
      bad ← misaligned final step;
      validate_model
        [(bad, "retained partial must align to certified quantity step");
         (negb (tp1 + runner =? final)%dec, "retained partial TP1 and runner must conserve quantity");
         ((pd_actual_stop_risk risk <? d0)%dec, "retained partial stop risk cannot be negative")]
  | VacuumPartialFlattenRequired vac qty price reason =>
      validate_model
        [(blank vac || blank reason || nonpositive qty || nonpositive price,
          "Vacuum partial flatten requires exact positive facts")]
  | PostFillStressAssessed status evidence policy version qty price stop oid =>
      let expected := match status with stress_passed => PASSED | stress_failed => FAILED end in
      validate_model
        [(negb (bool_decide (csp_status (cse_proof evidence) = expected)),
          "post-fill stress status differs from its evidence");
         ((version <=? 0) || nonpositive qty || nonpositive price || nonpositive stop,
          "post-fill stress identities must be positive");
         (blank policy, "post-fill stress policy identity must be non-blank");
         (blank oid, "post-fill stress Stop identity must be non-blank")]
  | _ => mret tt
  end.

(** The before-mode validators that rewrite a field of the body. *)
Definition normalize_body (b : EventBody) : EventBody :=
  match b with
  | LeverageRejected reason => LeverageRejected (strip reason)
  | LeverageOutcomeUnknown reason => LeverageOutcomeUnknown (strip reason)
  | b => b
  end.

(** [_Event._require_positive_integer] on [sequence] and [occurred_at_ms].
    [LeverageConfirmed] declares a field validator of the same name for two
    other fields, and pydantic keeps one validator per name: on that class the
    inherited check does not run. *)
Definition header_checks (e : TradeEvent) : list (bool * str) :=
  match ev_body e with
  | LeverageConfirmed _ _ _ => []
  | _ => [(ev_sequence e <=? 0, "event sequence and time must be positive");
          (ev_occurred_at_ms e <=? 0, "event sequence and time must be positive")]
  end.

Definition validate_event (e : TradeEvent) : result TradeEvent :=
  validate_fields
    ((blank (ev_event_id e), "event_id must be non-blank") :: header_checks e ++
     match ev_body e with
     | TicketIssued _ => []
     | _ => [(blank (ev_ticket_id e), "ticket_id must be non-blank")]
     end);;
  validate_body (ev_occurred_at_ms e) (ev_body e);;
  mret (mkEvent (strip (ev_event_id e)) (ev_sequence e) (ev_occurred_at_ms e)
          (strip (ev_ticket_id e)) (normalize_body (ev_body e))).
