(* ===== verification/Aggregate.v ===== *)
(** * The lifecycle projection ([domain/aggregate.py], [domain/effects.py])

    [AggregateStatus], [TradeAggregate] and its [model_copy(update=...)], and
    the typed effects the reducer emits. *)

From S2P Require Import Prelude PyString PyDecimal Identities Ticket Commands PostFillRisk.
From S2P Require Import Events.

Inductive AggregateStatus :=
  | LEVERAGE_PENDING
  | LEVERAGE_CONFIRMED
  | LEVERAGE_REJECTED
  | LEVERAGE_OUTCOME_UNKNOWN
  | ENTRY_PENDING
  | ENTRY_ACCEPTED
  | ENTRY_REJECTED
  | ENTRY_OUTCOME_UNKNOWN
  | ENTRY_RECONCILED_ABSENT
  | ENTRY_VACUUM_CANCEL_PENDING
  | ENTRY_VACUUM_CANCEL_REJECTED
  | ENTRY_VACUUM_CANCEL_OUTCOME_UNKNOWN
  | ENTRY_VACUUM_CANCELLED
  | PARTIAL_FILL_INCIDENT
  | PARTIAL_FILL_CANCEL_REJECTED
  | PARTIAL_FILL_CANCEL_OUTCOME_UNKNOWN
  | PROTECTION_PENDING
  | INITIAL_STOP_OUTCOME_UNKNOWN
  | POST_FILL_RISK_PENDING
  | TP1_PENDING
  | TP1_REJECTED
  | TP1_OUTCOME_UNKNOWN
  | POSITION_PROTECTED
  | RUNNER_REPLACEMENT_PENDING
  | RUNNER_REPLACEMENT_REJECTED
  | RUNNER_REPLACEMENT_OUTCOME_UNKNOWN
  | RUNNER_OLD_STOP_CANCEL_PENDING
  | RUNNER_OLD_STOP_CANCEL_REJECTED
  | RUNNER_OLD_STOP_CANCEL_OUTCOME_UNKNOWN
  | RUNNER_PROTECTED
  | EXIT_PENDING
  | EXIT_ACCEPTED
  | EXIT_REJECTED
  | EXIT_OUTCOME_UNKNOWN
  | CONTROLLED_FLATTEN_PENDING
  | CONTROLLED_FLATTEN_ACCEPTED
  | CONTROLLED_FLATTEN_REJECTED
  | CONTROLLED_FLATTEN_OUTCOME_UNKNOWN
  | RECONCILIATION_PENDING
  | CANCEL_REJECTED
  | CANCEL_OUTCOME_UNKNOWN
  | SETTLEMENT_PENDING
  | REVIEW_PENDING
  | TERMINAL.

#[export] Instance AggregateStatus_eq_dec : EqDecision AggregateStatus.
Proof. solve_decision. Defined.

(** [status.value] *)
Definition status_value (s : AggregateStatus) : str :=
  match s with
  | LEVERAGE_PENDING => "leverage_pending"
  | LEVERAGE_CONFIRMED => "leverage_confirmed"
  | LEVERAGE_REJECTED => "leverage_rejected"
  | LEVERAGE_OUTCOME_UNKNOWN => "leverage_outcome_unknown"
  | ENTRY_PENDING => "entry_pending"
  | ENTRY_ACCEPTED => "entry_accepted"
  | ENTRY_REJECTED => "entry_rejected"
  | ENTRY_OUTCOME_UNKNOWN => "entry_outcome_unknown"
  | ENTRY_RECONCILED_ABSENT => "entry_reconciled_absent"
  | ENTRY_VACUUM_CANCEL_PENDING => "entry_vacuum_cancel_pending"
  | ENTRY_VACUUM_CANCEL_REJECTED => "entry_vacuum_cancel_rejected"
  | ENTRY_VACUUM_CANCEL_OUTCOME_UNKNOWN => "entry_vacuum_cancel_outcome_unknown"
  | ENTRY_VACUUM_CANCELLED => "entry_vacuum_cancelled"
  | PARTIAL_FILL_INCIDENT => "partial_fill_incident"
  | PARTIAL_FILL_CANCEL_REJECTED => "partial_fill_cancel_rejected"
  | PARTIAL_FILL_CANCEL_OUTCOME_UNKNOWN => "partial_fill_cancel_outcome_unknown"
  | PROTECTION_PENDING => "protection_pending"
  | INITIAL_STOP_OUTCOME_UNKNOWN => "initial_stop_outcome_unknown"
  | POST_FILL_RISK_PENDING => "post_fill_risk_pending"
  | TP1_PENDING => "tp1_pending"
  | TP1_REJECTED => "tp1_rejected"
  | TP1_OUTCOME_UNKNOWN => "tp1_outcome_unknown"
  | POSITION_PROTECTED => "position_protected"
  | RUNNER_REPLACEMENT_PENDING => "runner_replacement_pending"
  | RUNNER_REPLACEMENT_REJECTED => "runner_replacement_rejected"
  | RUNNER_REPLACEMENT_OUTCOME_UNKNOWN => "runner_replacement_outcome_unknown"
  | RUNNER_OLD_STOP_CANCEL_PENDING => "runner_old_stop_cancel_pending"
  | RUNNER_OLD_STOP_CANCEL_REJECTED => "runner_old_stop_cancel_rejected"
  | RUNNER_OLD_STOP_CANCEL_OUTCOME_UNKNOWN => "runner_old_stop_cancel_outcome_unknown"
  | RUNNER_PROTECTED => "runner_protected"
  | EXIT_PENDING => "exit_pending"
  | EXIT_ACCEPTED => "exit_accepted"
  | EXIT_REJECTED => "exit_rejected"
  | EXIT_OUTCOME_UNKNOWN => "exit_outcome_unknown"
  | CONTROLLED_FLATTEN_PENDING => "controlled_flatten_pending"
  | CONTROLLED_FLATTEN_ACCEPTED => "controlled_flatten_accepted"
  | CONTROLLED_FLATTEN_REJECTED => "controlled_flatten_rejected"
  | CONTROLLED_FLATTEN_OUTCOME_UNKNOWN => "controlled_flatten_outcome_unknown"
  | RECONCILIATION_PENDING => "reconciliation_pending"
  | CANCEL_REJECTED => "cancel_rejected"
  | CANCEL_OUTCOME_UNKNOWN => "cancel_outcome_unknown"
  | SETTLEMENT_PENDING => "settlement_pending"
  | REVIEW_PENDING => "review_pending"
  | TERMINAL => "terminal"
  end.

Definition RECONCILIATION_POSITION_STATUSES : list AggregateStatus :=
  [ENTRY_ACCEPTED; ENTRY_VACUUM_CANCEL_PENDING; ENTRY_VACUUM_CANCEL_REJECTED;
   ENTRY_VACUUM_CANCEL_OUTCOME_UNKNOWN; ENTRY_VACUUM_CANCELLED; PARTIAL_FILL_INCIDENT;
   PARTIAL_FILL_CANCEL_REJECTED; PARTIAL_FILL_CANCEL_OUTCOME_UNKNOWN; PROTECTION_PENDING;
   INITIAL_STOP_OUTCOME_UNKNOWN; POST_FILL_RISK_PENDING; TP1_PENDING; TP1_REJECTED;
   TP1_OUTCOME_UNKNOWN; POSITION_PROTECTED; RUNNER_REPLACEMENT_PENDING;
   RUNNER_REPLACEMENT_REJECTED; RUNNER_REPLACEMENT_OUTCOME_UNKNOWN;
   RUNNER_OLD_STOP_CANCEL_PENDING; RUNNER_OLD_STOP_CANCEL_REJECTED;
   RUNNER_OLD_STOP_CANCEL_OUTCOME_UNKNOWN; RUNNER_PROTECTED; EXIT_PENDING; EXIT_ACCEPTED;
   EXIT_REJECTED; EXIT_OUTCOME_UNKNOWN; CONTROLLED_FLATTEN_PENDING;
   CONTROLLED_FLATTEN_ACCEPTED; CONTROLLED_FLATTEN_REJECTED;
   CONTROLLED_FLATTEN_OUTCOME_UNKNOWN; RECONCILIATION_PENDING; CANCEL_REJECTED;
   CANCEL_OUTCOME_UNKNOWN].

(** [entry_materialization_kind] is [Literal["VACUUM_PARTIAL_RETAINED"] | None]:
    a boolean. *)
Record TradeAggregate := mkAggregate {
  identity : TicketIdentity;
  ticket : TradeTicket;
  status : AggregateStatus;
  version : Z;
  last_event_sequence : Z;
  entry_lane_held : bool;
  position_qty : Decimal;
  average_fill_price : option Decimal;
  actual_stop_risk : option Decimal;
  venue_reported_liquidation_price : option Decimal;
  post_fill_risk_status : option PostFillRiskStatus;
  post_fill_disposition : option PostFillDisposition;
  post_fill_stress_status : option StressOutcome;
  post_fill_stress_proof_digest : option str;
  protected_qty : Decimal;
  entry_exchange_order_id : option str;
  initial_stop_exchange_order_id : option str;
  active_stop_exchange_order_id : option str;
  active_stop_price : option Decimal;
  tp1_exchange_order_id : option str;
  tp1_target_qty : Decimal;
  tp1_filled_qty : Decimal;
  break_even_floor_price : option Decimal;
  pending_replaced_stop_exchange_order_id : option str;
  pending_stop_price : option Decimal;
  pending_stop_watermark_ms : option Z;
  runner_stop_watermark_ms : option Z;
  pending_cancel_exchange_order_id : option str;
  entry_vacuum_id : option str;
  vacuum_partial_retained : bool;
  exit_exchange_order_id : option str;
  review_id : option str
}.

(** A new aggregate: the defaults of the class. *)
Definition new_aggregate (i : TicketIdentity) (t : TradeTicket) (s : AggregateStatus)
    (v seq : Z) : TradeAggregate :=
  mkAggregate i t s v seq true d0 None None None None None None None d0 None None None None None
    d0 d0 None None None None None None None false None None.

Definition eta_aggregate (a : TradeAggregate) : TradeAggregate :=
  mkAggregate (identity a) (ticket a) (status a) (version a) (last_event_sequence a)
    (entry_lane_held a) (position_qty a) (average_fill_price a) (actual_stop_risk a)
    (venue_reported_liquidation_price a) (post_fill_risk_status a) (post_fill_disposition a)
    (post_fill_stress_status a) (post_fill_stress_proof_digest a) (protected_qty a)
    (entry_exchange_order_id a) (initial_stop_exchange_order_id a)
    (active_stop_exchange_order_id a) (active_stop_price a) (tp1_exchange_order_id a)
    (tp1_target_qty a) (tp1_filled_qty a) (break_even_floor_price a)
    (pending_replaced_stop_exchange_order_id a) (pending_stop_price a)
    (pending_stop_watermark_ms a) (runner_stop_watermark_ms a)
    (pending_cancel_exchange_order_id a) (entry_vacuum_id a) (vacuum_partial_retained a)
    (exit_exchange_order_id a) (review_id a).

(** One entry of an [updates] dictionary: a field and its new value. *)
Inductive Update :=
  | U_entry_lane_held (v : bool)
  | U_position_qty (v : Decimal)
  | U_average_fill_price (v : option Decimal)
  | U_actual_stop_risk (v : option Decimal)
  | U_venue_reported_liquidation_price (v : option Decimal)
  | U_post_fill_risk_status (v : option PostFillRiskStatus)
  | U_post_fill_disposition (v : option PostFillDisposition)
  | U_post_fill_stress_status (v : option StressOutcome)
  | U_post_fill_stress_proof_digest (v : option str)
  | U_protected_qty (v : Decimal)
  | U_entry_exchange_order_id (v : option str)
  | U_initial_stop_exchange_order_id (v : option str)
  | U_active_stop_exchange_order_id (v : option str)
  | U_active_stop_price (v : option Decimal)
  | U_tp1_exchange_order_id (v : option str)
  | U_tp1_target_qty (v : Decimal)
  | U_tp1_filled_qty (v : Decimal)
  | U_break_even_floor_price (v : option Decimal)
  | U_pending_replaced_stop_exchange_order_id (v : option str)
  | U_pending_stop_price (v : option Decimal)
  | U_pending_stop_watermark_ms (v : option Z)
  | U_runner_stop_watermark_ms (v : option Z)
  | U_pending_cancel_exchange_order_id (v : option str)
  | U_entry_vacuum_id (v : option str)
  | U_vacuum_partial_retained (v : bool)
  | U_exit_exchange_order_id (v : option str)
  | U_review_id (v : option str).

Definition set_status : AggregateStatus → TradeAggregate → TradeAggregate :=
  ltac:(record_setter eta_aggregate status).
Definition set_version : Z → TradeAggregate → TradeAggregate :=
  ltac:(record_setter eta_aggregate version).
Definition set_last_event_sequence : Z → TradeAggregate → TradeAggregate :=
  ltac:(record_setter eta_aggregate last_event_sequence).
Definition set_entry_lane_held : bool → TradeAggregate → TradeAggregate :=
  ltac:(record_setter eta_aggregate entry_lane_held).
Definition set_position_qty : Decimal → TradeAggregate → TradeAggregate :=
  ltac:(record_setter eta_aggregate position_qty).
Definition set_average_fill_price : option Decimal → TradeAggregate → TradeAggregate :=
  ltac:(record_setter eta_aggregate average_fill_price).
Definition set_actual_stop_risk : option Decimal → TradeAggregate → TradeAggregate :=
  ltac:(record_setter eta_aggregate actual_stop_risk).
Definition set_venue_reported_liquidation_price : option Decimal → TradeAggregate → TradeAggregate :=
  ltac:(record_setter eta_aggregate venue_reported_liquidation_price).
Definition set_post_fill_risk_status : option PostFillRiskStatus → TradeAggregate → TradeAggregate :=
  ltac:(record_setter eta_aggregate post_fill_risk_status).
Definition set_post_fill_disposition : option PostFillDisposition → TradeAggregate → TradeAggregate :=
  ltac:(record_setter eta_aggregate post_fill_disposition).
Definition set_post_fill_stress_status : option StressOutcome → TradeAggregate → TradeAggregate :=
  ltac:(record_setter eta_aggregate post_fill_stress_status).
Definition set_post_fill_stress_proof_digest : option str → TradeAggregate → TradeAggregate :=
  ltac:(record_setter eta_aggregate post_fill_stress_proof_digest).
Definition set_protected_qty : Decimal → TradeAggregate → TradeAggregate :=
  ltac:(record_setter eta_aggregate protected_qty).
Definition set_entry_exchange_order_id : option str → TradeAggregate → TradeAggregate :=
  ltac:(record_setter eta_aggregate entry_exchange_order_id).
Definition set_initial_stop_exchange_order_id : option str → TradeAggregate → TradeAggregate :=
  ltac:(record_setter eta_aggregate initial_stop_exchange_order_id).
Definition set_active_stop_exchange_order_id : option str → TradeAggregate → TradeAggregate :=
  ltac:(record_setter eta_aggregate active_stop_exchange_order_id).
Definition set_active_stop_price : option Decimal → TradeAggregate → TradeAggregate :=
  ltac:(record_setter eta_aggregate active_stop_price).
Definition set_tp1_exchange_order_id : option str → TradeAggregate → TradeAggregate :=
  ltac:(record_setter eta_aggregate tp1_exchange_order_id).
Definition set_tp1_target_qty : Decimal → TradeAggregate → TradeAggregate :=
  ltac:(record_setter eta_aggregate tp1_target_qty).
Definition set_tp1_filled_qty : Decimal → TradeAggregate → TradeAggregate :=
  ltac:(record_setter eta_aggregate tp1_filled_qty).
Definition set_break_even_floor_price : option Decimal → TradeAggregate → TradeAggregate :=
  ltac:(record_setter eta_aggregate break_even_floor_price).
Definition set_pending_replaced_stop_exchange_order_id : option str → TradeAggregate → TradeAggregate :=
  ltac:(record_setter eta_aggregate pending_replaced_stop_exchange_order_id).
Definition set_pending_stop_price : option Decimal → TradeAggregate → TradeAggregate :=
  ltac:(record_setter eta_aggregate pending_stop_price).
Definition set_pending_stop_watermark_ms : option Z → TradeAggregate → TradeAggregate :=
  ltac:(record_setter eta_aggregate pending_stop_watermark_ms).
Definition set_runner_stop_watermark_ms : option Z → TradeAggregate → TradeAggregate :=
  ltac:(record_setter eta_aggregate runner_stop_watermark_ms).
Definition set_pending_cancel_exchange_order_id : option str → TradeAggregate → TradeAggregate :=
  ltac:(record_setter eta_aggregate pending_cancel_exchange_order_id).
Definition set_entry_vacuum_id : option str → TradeAggregate → TradeAggregate :=
  ltac:(record_setter eta_aggregate entry_vacuum_id).
Definition set_vacuum_partial_retained : bool → TradeAggregate → TradeAggregate :=
  ltac:(record_setter eta_aggregate vacuum_partial_retained).
Definition set_exit_exchange_order_id : option str → TradeAggregate → TradeAggregate :=
  ltac:(record_setter eta_aggregate exit_exchange_order_id).
Definition set_review_id : option str → TradeAggregate → TradeAggregate :=
  ltac:(record_setter eta_aggregate review_id).

Definition apply_update (a : TradeAggregate) (u : Update) : TradeAggregate :=
  match u with
  | U_entry_lane_held v => set_entry_lane_held v a
  | U_position_qty v => set_position_qty v a
  | U_average_fill_price v => set_average_fill_price v a
  | U_actual_stop_risk v => set_actual_stop_risk v a
  | U_venue_reported_liquidation_price v => set_venue_reported_liquidation_price v a
  | U_post_fill_risk_status v => set_post_fill_risk_status v a
  | U_post_fill_disposition v => set_post_fill_disposition v a
  | U_post_fill_stress_status v => set_post_fill_stress_status v a
  | U_post_fill_stress_proof_digest v => set_post_fill_stress_proof_digest v a
  | U_protected_qty v => set_protected_qty v a
  | U_entry_exchange_order_id v => set_entry_exchange_order_id v a
  | U_initial_stop_exchange_order_id v => set_initial_stop_exchange_order_id v a
  | U_active_stop_exchange_order_id v => set_active_stop_exchange_order_id v a
  | U_active_stop_price v => set_active_stop_price v a
  | U_tp1_exchange_order_id v => set_tp1_exchange_order_id v a
  | U_tp1_target_qty v => set_tp1_target_qty v a
  | U_tp1_filled_qty v => set_tp1_filled_qty v a
  | U_break_even_floor_price v => set_break_even_floor_price v a
  | U_pending_replaced_stop_exchange_order_id v => set_pending_replaced_stop_exchange_order_id v a
  | U_pending_stop_price v => set_pending_stop_price v a
  | U_pending_stop_watermark_ms v => set_pending_stop_watermark_ms v a
  | U_runner_stop_watermark_ms v => set_runner_stop_watermark_ms v a
  | U_pending_cancel_exchange_order_id v => set_pending_cancel_exchange_order_id v a
  | U_entry_vacuum_id v => set_entry_vacuum_id v a
  | U_vacuum_partial_retained v => set_vacuum_partial_retained v a
  | U_exit_exchange_order_id v => set_exit_exchange_order_id v a
  | U_review_id v => set_review_id v a
  end.

(** [current.model_copy(update={...})]: later entries override earlier ones. *)
Definition model_copy (a : TradeAggregate) (updates : list Update) : TradeAggregate :=
  foldl apply_update a updates.

(** ** Effects *)

Inductive KernelEffect :=
  | PrepareEntryCommand (ticket : TradeTicket) (leverage_verification_digest : option str)
  | PrepareSetLeverageCommand (ticket : TradeTicket)
  | PrepareInitialStopCommand (ticket_id : str) (quantity stop_price : Decimal)
  | PrepareTakeProfitCommand (ticket_id : str) (quantity limit_price : Decimal)
  | PrepareProtectionReplacementCommand (ticket_id : str) (quantity stop_price : Decimal)
      (replaces_exchange_order_id : str) (source_watermark_ms : Z)
  | PrepareExitCommand (ticket_id : str) (quantity : Decimal) (reason : str)
  | CancelEntryRemainder (ticket_id : str)
  | CancelVacuumEntryOrder (ticket_id exchange_order_id entry_vacuum_id : str)
  | RequestControlledFlatten (ticket_id : str) (quantity : Decimal)
  | PrepareControlledFlattenCommand (ticket_id : str) (quantity : Decimal)
  | CancelProtectionOrders (ticket_id exchange_order_id : str)
      (order_namespace : OrderNamespace) (purpose : CancelPurpose)
  | MarkCancelCommandReconciledAbsent (ticket_id exchange_order_id : str)
  | OpenIncident (ticket_id incident_kind : str)
  | ResolveIncident (ticket_id incident_kind : str)
  | ResolveTicketIncidentsAtClosure (ticket_id : str)
  | ReleaseEntryLane (ticket_id : str)
  | ReleaseCapitalAuthorities (ticket_id account_capacity_domain_key netting_domain_key : str)
      (notional risk_at_stop reserved_margin : Decimal) (released_at_ms : Z)
  | ReleaseBudget (ticket_id : str)
  | ProjectTerminalOwnerState (ticket_id : str).

(** [Reduction] *)
Record Reduction := mkReduction { aggregate : TradeAggregate; effects : list KernelEffect }.
