(* ===== verification/Reducer.v ===== *)
(** * The lifecycle reducer ([domain/reducer.py])

    [reduce_event] is the dispatch of the source, one definition per
    [isinstance] branch; every branch is the guards in source order, then
    [transition]. *)

From S2P Require Import Prelude PyString Sha256 PyDecimal Identities Ticket PostFillRisk.
From S2P Require Import CrossMarginStress Commands VenueTruth VacuumLateFill Events Aggregate.

Definition invalid (msg : str) : exn := InvalidLifecycleTransition msg.

(** [if not str(value or <empty>).strip(): raise] *)
Definition require_text (s msg : str) : result unit := raise_if (blank s) (invalid msg).

(** [_require_status] *)
Definition require_status (current : TradeAggregate) (expected : AggregateStatus) : result unit :=
  raise_if (negb (bool_decide (status current = expected)))
    (invalid ("event requires " +:+ status_value expected +:+ ", current is "
              +:+ status_value (status current))).

(** [_require_status_in] *)
Definition require_status_in (current : TradeAggregate) (expected : list AggregateStatus)
    : result unit :=
  raise_if (negb (bool_decide (status current ∈ expected)))
    (invalid ("event requires one of " +:+ join ", " (sorted (status_value <$> expected))
              +:+ ", current is " +:+ status_value (status current))).

(** [_transition] *)
Definition transition (current : TradeAggregate) (e : TradeEvent) (new_status : AggregateStatus)
    (updates : list Update) (effs : list KernelEffect) : result Reduction :=
  let a := set_last_event_sequence (ev_sequence e)
             (set_version (version current + 1) (set_status new_status current)) in
  Ok (mkReduction (model_copy a updates) effs).

(** [_require_event_identity_and_sequence] *)
Definition require_event_identity_and_sequence (current : TradeAggregate) (e : TradeEvent)
    : result unit :=
  raise_if (match ev_body e with TicketIssued _ => true | _ => false end)
    (invalid "Ticket cannot be issued twice");;
  raise_if (negb (bool_decide (ev_ticket_id e = ti_ticket_id (identity current))))
    (invalid "event Ticket identity mismatch");;
  raise_if (negb (ev_sequence e =? last_event_sequence current + 1))
    (invalid "event sequence is not monotonic").

(** [_post_fill_updates] *)
Definition post_fill_updates (filled_qty average_price : Decimal) (risk : PostFillRiskDecision)
    (liquidation : option Decimal) : list Update :=
  [U_position_qty filled_qty;
   U_average_fill_price (Some average_price);
   U_actual_stop_risk (Some (pd_actual_stop_risk risk));
   U_venue_reported_liquidation_price liquidation;
   U_post_fill_risk_status (Some (pd_status risk));
   U_post_fill_disposition (Some (pd_disposition risk))].

(** [_known_cleanup_order_ids] *)
Definition known_cleanup_order_ids (current : TradeAggregate) : list str :=
  foldl (λ identities o,
      match o with
      | Some i => if bool_decide (i ∈ identities) then identities else identities ++ [i]
      | None => identities
      end) []
    [tp1_exchange_order_id current; active_stop_exchange_order_id current;
     initial_stop_exchange_order_id current].

(** [_next_cleanup_order_id] *)
Definition next_cleanup_order_id (current : TradeAggregate) : option str :=
  head (known_cleanup_order_ids current).

(** [_clear_cleanup_order] *)
Definition clear_cleanup_order (current : TradeAggregate) (exchange_order_id : str) : list Update :=
  [U_pending_cancel_exchange_order_id None] ++
  (if bool_decide (Some exchange_order_id = tp1_exchange_order_id current)
   then [U_tp1_exchange_order_id None] else []) ++
  (if bool_decide (Some exchange_order_id = active_stop_exchange_order_id current)
   then [U_active_stop_exchange_order_id None; U_active_stop_price None; U_protected_qty d0]
   else []) ++
  (if bool_decide (Some exchange_order_id = initial_stop_exchange_order_id current)
   then [U_initial_stop_exchange_order_id None] else []).

(** [event.exchange_order_id != expected] against an optional field. *)
Definition require_order_id (oid : str) (expected : option str) (msg : str) : result unit :=
  raise_if (negb (bool_decide (Some oid = expected))) (invalid msg).

(** [if current.status is expected] *)
Definition status_is (current : TradeAggregate) (s : AggregateStatus) : bool :=
  bool_decide (status current = s).

Definition tid (current : TradeAggregate) : str := ti_ticket_id (identity current).

(** The three effects of an ENTRY that ends without exposure. *)
Definition abandon_entry (current : TradeAggregate) : list KernelEffect :=
  [ReleaseBudget (tid current); ReleaseEntryLane (tid current);
   ProjectTerminalOwnerState (tid current)].

(** ** Leverage *)

Definition on_LeverageConfirmed (current : TradeAggregate) (e : TradeEvent)
    (exchange_configured_leverage leverage_verified_at_ms : Z) (digest : str)
    : result Reduction :=
  require_status_in current [LEVERAGE_PENDING; LEVERAGE_OUTCOME_UNKNOWN];;
  raise_if (negb (exchange_configured_leverage =? tk_selected_leverage (ticket current)))
    (invalid "confirmed leverage differs from immutable Ticket");;
  raise_if (leverage_verified_at_ms <=? 0)
    (invalid "leverage confirmation time must be positive");;
  raise_if (negb (startswith digest sha256_prefix))
    (invalid "leverage confirmation requires a digest");;
  transition current e LEVERAGE_CONFIRMED []
    ((if status_is current LEVERAGE_OUTCOME_UNKNOWN
      then [ResolveIncident (tid current) "leverage_outcome_unknown"] else []) ++
     [PrepareEntryCommand (ticket current) (Some digest)]).

Definition on_LeverageRejected (current : TradeAggregate) (e : TradeEvent) (reason : str)
    : result Reduction :=
  require_status_in current [LEVERAGE_PENDING; LEVERAGE_OUTCOME_UNKNOWN];;
  require_text reason "leverage rejection requires reason";;
  transition current e LEVERAGE_REJECTED [U_entry_lane_held false]
    ((if status_is current LEVERAGE_OUTCOME_UNKNOWN
      then [ResolveIncident (tid current) "leverage_outcome_unknown"] else []) ++
     abandon_entry current).

Definition on_LeverageOutcomeUnknown (current : TradeAggregate) (e : TradeEvent) (reason : str)
    : result Reduction :=
  require_status current LEVERAGE_PENDING;;
  require_text reason "unknown leverage outcome requires reason";;
  transition current e LEVERAGE_OUTCOME_UNKNOWN []
    [OpenIncident (tid current) "leverage_outcome_unknown"].

(** ** ENTRY outcome *)

Definition on_EntryAccepted (current : TradeAggregate) (e : TradeEvent) (exchange_order_id : str)
    : result Reduction :=
  require_status_in current [ENTRY_PENDING; LEVERAGE_CONFIRMED; ENTRY_OUTCOME_UNKNOWN];;
  require_text exchange_order_id "ENTRY acceptance requires order identity";;
  transition current e ENTRY_ACCEPTED [U_entry_exchange_order_id (Some (strip exchange_order_id))]
    (if status_is current ENTRY_OUTCOME_UNKNOWN
     then [ResolveIncident (tid current) "entry_outcome_unknown"] else []).

Definition on_EntryOutcomeUnknown (current : TradeAggregate) (e : TradeEvent) (reason : str)
    : result Reduction :=
  require_status_in current [ENTRY_PENDING; LEVERAGE_CONFIRMED];;
  require_text reason "unknown ENTRY outcome requires reason";;
  transition current e ENTRY_OUTCOME_UNKNOWN []
    [OpenIncident (tid current) "entry_outcome_unknown"].

Definition on_EntryRejected (current : TradeAggregate) (e : TradeEvent) : result Reduction :=
  require_status_in current [ENTRY_PENDING; LEVERAGE_CONFIRMED];;
  transition current e ENTRY_REJECTED [U_entry_lane_held false] (abandon_entry current).

Definition on_EntryAbsenceConfirmed (current : TradeAggregate) (e : TradeEvent) (command_id : str)
    : result Reduction :=
  require_status current ENTRY_OUTCOME_UNKNOWN;;
  require_text command_id "reconciled ENTRY absence requires command identity";;
  transition current e ENTRY_RECONCILED_ABSENT [U_entry_lane_held false]
    (ResolveIncident (tid current) "entry_outcome_unknown" :: abandon_entry current).

Definition on_EntryFilled (current : TradeAggregate) (e : TradeEvent)
    (filled_qty average_price : Decimal) (assessment : PostFillRiskDecision)
    (liquidation : option Decimal) : result Reduction :=
  require_status_in current
    [ENTRY_PENDING; LEVERAGE_CONFIRMED; ENTRY_ACCEPTED; ENTRY_VACUUM_CANCELLED];;
  raise_if (status_is current ENTRY_VACUUM_CANCELLED && is_none (entry_vacuum_id current))
    (invalid "Vacuum full fill requires exact Vacuum lineage");;
  raise_if (negb (filled_qty =? tk_quantity (ticket current))%dec)
    (invalid "full entry fill must equal Ticket quantity");;
  raise_if (average_price <=? d0)%dec (invalid "average fill price must be positive");;
  let updates := post_fill_updates filled_qty average_price assessment liquidation in
  let open_incident :=
    OpenIncident (tid current) (post_fill_risk_status_value (pd_status assessment)) in
  let initial_stop :=
    PrepareInitialStopCommand (tid current) filled_qty (tk_initial_stop_price (ticket current)) in
  match pd_disposition assessment with
  | FLATTEN_IMMEDIATELY =>
      transition current e CONTROLLED_FLATTEN_PENDING updates
        [open_incident; PrepareControlledFlattenCommand (tid current) filled_qty]
  | FLATTEN_AFTER_PROTECTION =>
      transition current e PROTECTION_PENDING updates [open_incident; initial_stop]
  | NORMAL => transition current e PROTECTION_PENDING updates [initial_stop]
  end.

Definition on_EntryPartiallyFilled (current : TradeAggregate) (e : TradeEvent)
    (filled_qty requested_qty average_price : Decimal) : result Reduction :=
  require_status_in current [ENTRY_PENDING; LEVERAGE_CONFIRMED; ENTRY_ACCEPTED];;
  raise_if (negb ((d0 <? filled_qty)%dec && (filled_qty <? requested_qty)%dec))
    (invalid "partial fill quantity is contradictory");;
  raise_if (negb (requested_qty =? tk_quantity (ticket current))%dec)
    (invalid "partial fill request differs from Ticket");;
  transition current e PARTIAL_FILL_INCIDENT
    [U_position_qty filled_qty; U_average_fill_price (Some average_price)]
    [OpenIncident (tid current) "unsupported_partial_entry_fill";
     CancelEntryRemainder (tid current);
     RequestControlledFlatten (tid current) filled_qty].

Definition on_EntryRemainderCancelConfirmed (current : TradeAggregate) (e : TradeEvent)
    (exchange_order_id : str) : result Reduction :=
  require_status_in current [PARTIAL_FILL_INCIDENT; PARTIAL_FILL_CANCEL_OUTCOME_UNKNOWN];;
  require_order_id exchange_order_id (entry_exchange_order_id current)
    "ENTRY remainder cancel identity mismatch";;
  transition current e CONTROLLED_FLATTEN_PENDING []
    ((if status_is current PARTIAL_FILL_CANCEL_OUTCOME_UNKNOWN
      then [MarkCancelCommandReconciledAbsent (tid current) exchange_order_id;
            ResolveIncident (tid current) "entry_remainder_cancel_outcome_unknown"]
      else []) ++
     [PrepareControlledFlattenCommand (tid current) (position_qty current)]).

Definition on_EntryRemainderCancelRejected (current : TradeAggregate) (e : TradeEvent)
    (exchange_order_id reason : str) : result Reduction :=
  require_status current PARTIAL_FILL_INCIDENT;;
  require_order_id exchange_order_id (entry_exchange_order_id current)
    "rejected ENTRY cancel identity mismatch";;
  require_text reason "ENTRY cancel rejection requires reason";;
  transition current e PARTIAL_FILL_CANCEL_REJECTED []
    [OpenIncident (tid current) "entry_remainder_cancel_rejected"].

Definition on_EntryRemainderCancelOutcomeUnknown (current : TradeAggregate) (e : TradeEvent)
    (exchange_order_id reason : str) : result Reduction :=
  require_status current PARTIAL_FILL_INCIDENT;;
  require_order_id exchange_order_id (entry_exchange_order_id current)
    "unknown ENTRY cancel identity mismatch";;
  require_text reason "unknown ENTRY cancel requires reason";;
  transition current e PARTIAL_FILL_CANCEL_OUTCOME_UNKNOWN []
    [OpenIncident (tid current) "entry_remainder_cancel_outcome_unknown"].

(** ** Vacuum: the ENTRY order is withdrawn by a selection change *)

Definition on_EntryVacuumSuperseded (current : TradeAggregate) (e : TradeEvent) (vacuum_id : str)
    : result Reduction :=
  require_status_in current [LEVERAGE_PENDING; LEVERAGE_CONFIRMED; ENTRY_PENDING];;
  transition current e ENTRY_REJECTED
    [U_entry_lane_held false; U_entry_vacuum_id (Some vacuum_id)] (abandon_entry current).

Definition on_EntryVacuumCancelRequested (current : TradeAggregate) (e : TradeEvent)
    (vacuum_id exchange_order_id : str) (observed_qty : Decimal) (average_price : option Decimal)
    : result Reduction :=
  require_status_in current [ENTRY_ACCEPTED; ENTRY_VACUUM_CANCEL_REJECTED];;
  require_order_id exchange_order_id (entry_exchange_order_id current)
    "Vacuum ENTRY cancel identity mismatch";;
  raise_if (negb ((d0 <=? observed_qty)%dec && (observed_qty <? tk_quantity (ticket current))%dec))
    (invalid "Vacuum ENTRY cancel requires unfinished requested quantity");;
  transition current e ENTRY_VACUUM_CANCEL_PENDING
    [U_position_qty observed_qty; U_average_fill_price average_price;
     U_pending_cancel_exchange_order_id (Some exchange_order_id);
     U_entry_vacuum_id (Some vacuum_id)]
    ((if status_is current ENTRY_VACUUM_CANCEL_REJECTED
      then [ResolveIncident (tid current) "selection_vacuum_entry_cancel_rejected"] else []) ++
     [CancelVacuumEntryOrder (tid current) exchange_order_id vacuum_id]).

Definition on_EntryVacuumCancelConfirmed (current : TradeAggregate) (e : TradeEvent)
    (exchange_order_id : str) : result Reduction :=
  require_status_in current [ENTRY_VACUUM_CANCEL_PENDING; ENTRY_VACUUM_CANCEL_OUTCOME_UNKNOWN];;
  require_order_id exchange_order_id (pending_cancel_exchange_order_id current)
    "Vacuum ENTRY cancel result mismatch";;
  transition current e ENTRY_VACUUM_CANCEL_PENDING []
    (if status_is current ENTRY_VACUUM_CANCEL_OUTCOME_UNKNOWN
     then [MarkCancelCommandReconciledAbsent (tid current) exchange_order_id;
           ResolveIncident (tid current) "selection_vacuum_entry_cancel_outcome_unknown"]
     else []).

Definition on_EntryVacuumCancelRejected (current : TradeAggregate) (e : TradeEvent)
    (exchange_order_id : str) : result Reduction :=
  require_status_in current [ENTRY_VACUUM_CANCEL_PENDING; ENTRY_VACUUM_CANCEL_OUTCOME_UNKNOWN];;
  require_order_id exchange_order_id (pending_cancel_exchange_order_id current)
    "Vacuum ENTRY cancel rejection mismatch";;
  transition current e ENTRY_VACUUM_CANCEL_REJECTED []
    ((if status_is current ENTRY_VACUUM_CANCEL_OUTCOME_UNKNOWN
      then [ResolveIncident (tid current) "selection_vacuum_entry_cancel_outcome_unknown"]
      else []) ++
     [OpenIncident (tid current) "selection_vacuum_entry_cancel_rejected"]).

Definition on_EntryVacuumCancelOutcomeUnknown (current : TradeAggregate) (e : TradeEvent)
    (exchange_order_id : str) : result Reduction :=
  require_status current ENTRY_VACUUM_CANCEL_PENDING;;
  require_order_id exchange_order_id (pending_cancel_exchange_order_id current)
    "Vacuum ENTRY cancel unknown mismatch";;
  transition current e ENTRY_VACUUM_CANCEL_OUTCOME_UNKNOWN []
    [OpenIncident (tid current) "selection_vacuum_entry_cancel_outcome_unknown"].

Definition on_EntryVacuumOrderAbsenceConfirmed (current : TradeAggregate) (e : TradeEvent)
    (vacuum_id exchange_order_id : str) (final_filled_qty : Decimal)
    (average_price : option Decimal) : result Reduction :=
  require_status_in current
    [ENTRY_ACCEPTED; ENTRY_VACUUM_CANCEL_PENDING; ENTRY_VACUUM_CANCEL_REJECTED];;
  require_order_id exchange_order_id (entry_exchange_order_id current)
    "Vacuum ENTRY absence identity mismatch";;
  raise_if (negb ((d0 <=? final_filled_qty)%dec
                  && (final_filled_qty <=? tk_quantity (ticket current))%dec))
    (invalid "Vacuum final filled quantity is invalid");;
  raise_if (negb (is_none (entry_vacuum_id current))
            && negb (bool_decide (Some vacuum_id = entry_vacuum_id current)))
    (invalid "Vacuum ENTRY absence lineage mismatch");;
  transition current e ENTRY_VACUUM_CANCELLED
    [U_position_qty final_filled_qty; U_average_fill_price average_price;
     U_pending_cancel_exchange_order_id None; U_entry_vacuum_id (Some vacuum_id)]
    (if status_is current ENTRY_VACUUM_CANCEL_REJECTED
     then [ResolveIncident (tid current) "selection_vacuum_entry_cancel_rejected"] else []).

(** The identities both late-fill events are checked against. *)
Definition vacuum_lineage_differs (current : TradeAggregate) (vacuum_id exchange_order_id
    entry_command_id venue_client_order_id expected_command_id expected_client_id : str) : bool :=
  negb (bool_decide (Some vacuum_id = entry_vacuum_id current))
  || negb (bool_decide (Some exchange_order_id = entry_exchange_order_id current))
  || negb (bool_decide (entry_command_id = expected_command_id))
  || negb (bool_decide (venue_client_order_id = expected_client_id))
  || negb (position_qty current =? d0)%dec.

Definition on_VacuumLateFillAttributed (current : TradeAggregate) (e : TradeEvent)
    (vacuum_id entry_command_id exchange_order_id venue_client_order_id : str)
    (filled_qty average_price : Decimal) (position_at venue_at : Z) (digest : str)
    : result Reduction :=
  require_status current ENTRY_VACUUM_CANCELLED;;
  expected_command_id ← build_command_id (tid current) ENTRY 1;
  expected_client_id ← build_venue_client_order_id expected_command_id;
  raise_if
    (vacuum_lineage_differs current vacuum_id exchange_order_id entry_command_id
       venue_client_order_id expected_command_id expected_client_id
     || (filled_qty >? tk_quantity (ticket current))%dec
     || negb (bool_decide
          (digest = vacuum_late_fill_proof_digest (tid current) entry_command_id exchange_order_id
                      venue_client_order_id
                      (netting_domain_key (ti_netting_domain (identity current)))
                      filled_qty average_price position_at venue_at)))
    (invalid "late fill attribution differs from cancelled ENTRY");;
  transition current e ENTRY_VACUUM_CANCELLED
    [U_position_qty filled_qty; U_average_fill_price (Some average_price)] [].

Definition on_VacuumPostAbsenceNoFillVerified (current : TradeAggregate) (e : TradeEvent)
    (vacuum_id entry_command_id exchange_order_id venue_client_order_id : str)
    (position_at venue_at : Z) (digest : str) : result Reduction :=
  require_status current ENTRY_VACUUM_CANCELLED;;
  expected_command_id ← build_command_id (tid current) ENTRY 1;
  expected_client_id ← build_venue_client_order_id expected_command_id;
  raise_if
    (vacuum_lineage_differs current vacuum_id exchange_order_id entry_command_id
       venue_client_order_id expected_command_id expected_client_id
     || negb (bool_decide
          (digest = vacuum_no_fill_proof_digest (tid current) entry_command_id exchange_order_id
                      venue_client_order_id
                      (netting_domain_key (ti_netting_domain (identity current)))
                      position_at venue_at)))
    (invalid "post-absence no-fill proof differs from cancelled ENTRY");;
  transition current e ENTRY_RECONCILED_ABSENT [U_entry_lane_held false]
    (ResolveIncident (tid current) "vacuum_post_absence_contradiction" :: abandon_entry current).

Definition on_EntryVacuumAbsenceConfirmed (current : TradeAggregate) (e : TradeEvent)
    (vacuum_id : str) : result Reduction :=
  require_status current ENTRY_VACUUM_CANCELLED;;
  raise_if (negb (bool_decide (Some vacuum_id = entry_vacuum_id current)))
    (invalid "Vacuum ENTRY absence lineage mismatch");;
  raise_if (negb (position_qty current =? d0)%dec)
    (invalid "Vacuum ENTRY absence cannot discard filled exposure");;
  transition current e ENTRY_RECONCILED_ABSENT [U_entry_lane_held false] (abandon_entry current).

(** [price != field] for an optional field. *)
Definition price_differs (price : Decimal) (field : option Decimal) : bool :=
  match field with Some v => negb (price =? v)%dec | None => true end.

Definition on_VacuumPartialRetained (current : TradeAggregate) (e : TradeEvent)
    (vacuum_id : str) (authority : option str) (requested final price tp1 : Decimal)
    (risk : PostFillRiskDecision) : result Reduction :=
  let t := ticket current in
  require_status current ENTRY_VACUUM_CANCELLED;;
  raise_if
    (negb (bool_decide (Some vacuum_id = entry_vacuum_id current))
     || negb (requested =? tk_quantity t)%dec
     || negb (final =? position_qty current)%dec
     || price_differs price (average_fill_price current)
     || negb (bool_decide (pd_disposition risk = NORMAL))
     || negb (pd_actual_stop_risk risk
              =? final * dabs (price - tk_initial_stop_price t))%dec)
    (invalid "retained Vacuum partial differs from cancelled exposure");;
  raise_if (negb (is_none (tk_selection_authority_id t))
            && negb (bool_decide (authority = tk_selection_authority_id t)))
    (invalid "retained Vacuum partial Authority differs from Ticket birth");;
  raise_if (is_none (tk_selection_authority_id t) && negb (is_none authority))
    (invalid "retained Vacuum partial cannot invent Ticket Authority");;
  transition current e PROTECTION_PENDING
    [U_actual_stop_risk (Some (pd_actual_stop_risk risk));
     U_post_fill_risk_status (Some (pd_status risk));
     U_post_fill_disposition (Some (pd_disposition risk));
     U_tp1_target_qty tp1;
     U_vacuum_partial_retained true]
    [PrepareInitialStopCommand (tid current) final (tk_initial_stop_price t)].

Definition on_VacuumPartialFlattenRequired (current : TradeAggregate) (e : TradeEvent)
    (vacuum_id : str) (final price : Decimal) (reason : str) : result Reduction :=
  require_status current ENTRY_VACUUM_CANCELLED;;
  raise_if
    (negb (bool_decide (Some vacuum_id = entry_vacuum_id current))
     || negb (final =? position_qty current)%dec
     || price_differs price (average_fill_price current))
    (invalid "Vacuum partial flatten differs from cancelled exposure");;
  transition current e CONTROLLED_FLATTEN_PENDING []
    [OpenIncident (tid current) reason; PrepareControlledFlattenCommand (tid current) final].

(** ** Initial protection *)

Definition on_InitialStopConfirmed (current : TradeAggregate) (e : TradeEvent)
    (exchange_order_id : str) (qty : Decimal) : result Reduction :=
  require_status_in current [PROTECTION_PENDING; INITIAL_STOP_OUTCOME_UNKNOWN];;
  raise_if (negb (qty =? position_qty current)%dec)
    (invalid "initial stop does not cover exact position");;
  require_text exchange_order_id "initial stop order identity is required";;
  let initial_stop_effects :=
    if status_is current INITIAL_STOP_OUTCOME_UNKNOWN
    then [ResolveIncident (tid current) "initial_stop_outcome_unknown"] else [] in
  let stop_updates :=
    [U_protected_qty qty;
     U_initial_stop_exchange_order_id (Some (strip exchange_order_id));
     U_active_stop_exchange_order_id (Some (strip exchange_order_id));
     U_active_stop_price (Some (tk_initial_stop_price (ticket current)))] in
  if bool_decide (post_fill_disposition current = Some FLATTEN_AFTER_PROTECTION) then
    transition current e CONTROLLED_FLATTEN_PENDING stop_updates
      [PrepareControlledFlattenCommand (tid current) (position_qty current)]
  else transition current e POST_FILL_RISK_PENDING stop_updates initial_stop_effects.

(** The first condition of the stress branch. *)
Definition stress_identity_differs (current : TradeAggregate) (policy : str) (policy_version : Z)
    (qty price stop : Decimal) (stop_order_id : str) : bool :=
  let t := ticket current in
  negb (bool_decide (policy = tk_owner_policy_id t))
  || negb (policy_version =? tk_owner_policy_version t)
  || negb (qty =? position_qty current)%dec
  || price_differs price (average_fill_price current)
  || negb (stop =? tk_initial_stop_price t)%dec
  || negb (bool_decide (Some stop_order_id = initial_stop_exchange_order_id current)).

(** The second: the evidence against the Ticket's authority. *)
Definition stress_evidence_differs (current : TradeAggregate) (r : CrossMarginStressRequest)
    (price stop : Decimal) : bool :=
  let domain := ti_netting_domain (identity current) in
  let snapshot := csr_account_snapshot r in
  negb (bool_decide (ars_venue_id snapshot = nd_venue_id domain))
  || negb (bool_decide (ars_account_id snapshot = nd_account_id domain))
  || negb (bool_decide (ars_exchange_instrument_id snapshot = nd_exchange_instrument_id domain))
  || negb (bool_decide (csr_evaluated_side r = nd_position_side domain))
  || negb (csr_reference_entry_price r =? price)%dec
  || negb (csr_initial_stop_price r =? stop)%dec
  || negb (csr_post_stop_stress_multiple r =? tk_post_stop_stress_multiple (ticket current))%dec.

(** [(current.tp1_target_qty,) if current.tp1_target_qty > 0 else
    current.ticket.take_profit_quantities] *)
Definition tp_quantities (current : TradeAggregate) : list Decimal :=
  if (tp1_target_qty current >? d0)%dec then [tp1_target_qty current]
  else tk_take_profit_quantities (ticket current).

Definition on_PostFillStressAssessed (current : TradeAggregate) (e : TradeEvent)
    (outcome : StressOutcome) (evidence : CrossMarginStressEvidence) (policy : str)
    (policy_version : Z) (qty price stop : Decimal) (stop_order_id : str) : result Reduction :=
  require_status current POST_FILL_RISK_PENDING;;
  raise_if (stress_identity_differs current policy policy_version qty price stop stop_order_id)
    (invalid "post-fill stress identity differs from protected exposure");;
  raise_if (stress_evidence_differs current (cse_request evidence) price stop)
    (invalid "post-fill stress evidence differs from Ticket authority");;
  let stress_updates :=
    [U_post_fill_stress_status (Some outcome);
     U_post_fill_stress_proof_digest (Some (csp_proof_digest (cse_proof evidence)))] in
  match outcome with
  | stress_failed =>
      transition current e CONTROLLED_FLATTEN_PENDING stress_updates
        [OpenIncident (tid current) "post_fill_stress_failed";
         PrepareControlledFlattenCommand (tid current) (position_qty current)]
  | stress_passed =>
      match tk_take_profit_prices (ticket current), tp_quantities current with
      | [tp_price], [tp1_quantity] =>
          raise_if (tp1_quantity >=? position_qty current)%dec
            (invalid "TP1 must preserve a runner quantity");;
          transition current e TP1_PENDING
            (stress_updates ++ [U_entry_lane_held false; U_tp1_target_qty tp1_quantity])
            [ReleaseEntryLane (tid current);
             PrepareTakeProfitCommand (tid current) tp1_quantity tp_price]
      | _, _ => Raise (invalid "registered exit policy requires exactly one TP1 leg")
      end
  end.

Definition on_InitialStopRejected (current : TradeAggregate) (e : TradeEvent) (reason : str)
    : result Reduction :=
  require_status current PROTECTION_PENDING;;
  require_text reason "initial stop rejection requires reason";;
  if vacuum_partial_retained current then
    transition current e CONTROLLED_FLATTEN_PENDING []
      [OpenIncident (tid current) "vacuum_partial_initial_stop_rejected";
       PrepareControlledFlattenCommand (tid current) (position_qty current)]
  else
    transition current e EXIT_PENDING []
      [OpenIncident (tid current) "initial_stop_rejected";
       PrepareExitCommand (tid current) (position_qty current) "initial_stop_rejected"].

Definition on_InitialStopOutcomeUnknown (current : TradeAggregate) (e : TradeEvent) (reason : str)
    : result Reduction :=
  require_status current PROTECTION_PENDING;;
  require_text reason "unknown initial stop outcome requires reason";;
  transition current e INITIAL_STOP_OUTCOME_UNKNOWN []
    [OpenIncident (tid current) "initial_stop_outcome_unknown"].

Definition on_InitialStopAbsenceConfirmed (current : TradeAggregate) (e : TradeEvent)
    (command_id : str) : result Reduction :=
  require_status current INITIAL_STOP_OUTCOME_UNKNOWN;;
  require_text command_id "reconciled initial stop absence requires command identity";;
  let resolve := ResolveIncident (tid current) "initial_stop_outcome_unknown" in
  if vacuum_partial_retained current then
    transition current e CONTROLLED_FLATTEN_PENDING []
      [resolve; OpenIncident (tid current) "vacuum_partial_initial_stop_absent";
       PrepareControlledFlattenCommand (tid current) (position_qty current)]
  else
    transition current e EXIT_PENDING []
      [resolve; OpenIncident (tid current) "initial_stop_absent";
       PrepareExitCommand (tid current) (position_qty current) "initial_stop_absent"].

(** ** First take-profit *)

Definition on_TakeProfitConfirmed (current : TradeAggregate) (e : TradeEvent)
    (exchange_order_id : str) (target_qty : Decimal) : result Reduction :=
  require_status_in current [TP1_PENDING; POST_FILL_RISK_PENDING; TP1_OUTCOME_UNKNOWN];;
  require_text exchange_order_id "TP1 acceptance requires order identity";;
  raise_if (negb (target_qty =? tp1_target_qty current)%dec)
    (invalid "TP1 accepted quantity differs from Ticket");;
  transition current e POSITION_PROTECTED
    [U_tp1_exchange_order_id (Some (strip exchange_order_id))]
    (if status_is current TP1_OUTCOME_UNKNOWN
     then [ResolveIncident (tid current) "take_profit_outcome_unknown"] else []).

Definition on_TakeProfitRejected (current : TradeAggregate) (e : TradeEvent) (reason : str)
    : result Reduction :=
  require_status current TP1_PENDING;;
  require_text reason "TP1 rejection requires reason";;
  transition current e TP1_REJECTED [] [OpenIncident (tid current) "take_profit_rejected"].

Definition on_TakeProfitOutcomeUnknown (current : TradeAggregate) (e : TradeEvent) (reason : str)
    : result Reduction :=
  require_status current TP1_PENDING;;
  require_text reason "TP1 unknown outcome requires reason";;
  transition current e TP1_OUTCOME_UNKNOWN []
    [OpenIncident (tid current) "take_profit_outcome_unknown"].

Definition on_TakeProfitAbsenceConfirmed (current : TradeAggregate) (e : TradeEvent)
    (command_id : str) : result Reduction :=
  require_status current TP1_OUTCOME_UNKNOWN;;
  require_text command_id "reconciled TP1 absence requires command identity";;
  match tk_take_profit_prices (ticket current) with
  | [price] =>
      transition current e TP1_PENDING []
        [ResolveIncident (tid current) "take_profit_outcome_unknown";
         PrepareTakeProfitCommand (tid current) (tp1_target_qty current) price]
  | _ => Raise (invalid "TP1 retry requires one frozen price")
  end.

Definition on_TakeProfitFilled (current : TradeAggregate) (e : TradeEvent)
    (filled_qty average_price runner_floor_price : Decimal) : result Reduction :=
  require_status current POSITION_PROTECTED;;
  raise_if (negb (filled_qty =? tp1_target_qty current)%dec)
    (invalid "TP1 fill must equal the frozen target");;
  raise_if ((average_price <=? d0)%dec || (runner_floor_price <=? d0)%dec)
    (invalid "TP1 fill and runner floor must be positive");;
  match active_stop_exchange_order_id current with
  | None => Raise (invalid "TP1 fill has no active stop to replace")
  | Some stop_id =>
      let runner_qty := (position_qty current - filled_qty)%dec in
      raise_if (runner_qty <=? d0)%dec (invalid "TP1 fill must preserve runner exposure");;
      transition current e RUNNER_REPLACEMENT_PENDING
        [U_position_qty runner_qty; U_tp1_filled_qty filled_qty; U_tp1_exchange_order_id None;
         U_break_even_floor_price (Some runner_floor_price);
         U_pending_stop_price (Some runner_floor_price);
         U_pending_stop_watermark_ms (Some (ev_occurred_at_ms e))]
        [PrepareProtectionReplacementCommand (tid current) runner_qty runner_floor_price stop_id
           (ev_occurred_at_ms e)]
  end.

(** ** Runner protection *)

(** The monotone improvement test of [RunnerStopRequested]. *)
Definition stop_improves (side : PositionSide) (new_price old_price : Decimal) : bool :=
  match side with
  | long => (new_price >? old_price)%dec
  | short => (new_price <? old_price)%dec
  end.

Definition on_RunnerStopRequested (current : TradeAggregate) (e : TradeEvent)
    (stop_price : Decimal) (source_watermark_ms : Z) : result Reduction :=
  require_status current RUNNER_PROTECTED;;
  match active_stop_exchange_order_id current, active_stop_price current with
  | None, _ => Raise (invalid "runner move requires active stop identity")
  | Some _, None => Raise (invalid "runner move requires active stop price")
  | Some stop_id, Some old_price =>
      raise_if ((stop_price <=? d0)%dec || (source_watermark_ms <=? 0))
        (invalid "runner move requires price and watermark");;
      raise_if (negb (stop_improves (nd_position_side (ti_netting_domain (identity current)))
                        stop_price old_price))
        (invalid "runner stop must improve monotonically");;
      transition current e RUNNER_REPLACEMENT_PENDING
        [U_pending_stop_price (Some stop_price);
         U_pending_stop_watermark_ms (Some source_watermark_ms)]
        [PrepareProtectionReplacementCommand (tid current) (position_qty current) stop_price
           stop_id source_watermark_ms]
  end.

Definition on_ProtectionReplacementConfirmed (current : TradeAggregate) (e : TradeEvent)
    (exchange_order_id : str) (qty stop_price : Decimal) (replaces : str)
    (source_watermark_ms : Z) : result Reduction :=
  require_status_in current [RUNNER_REPLACEMENT_PENDING; RUNNER_REPLACEMENT_OUTCOME_UNKNOWN];;
  require_text exchange_order_id "protection replacement requires order identity";;
  raise_if (negb (qty =? position_qty current)%dec)
    (invalid "protection replacement must cover exact runner quantity");;
  require_order_id replaces (active_stop_exchange_order_id current)
    "replaced stop identity mismatch";;
  raise_if
    (price_differs stop_price (pending_stop_price current)
     || negb (bool_decide (Some source_watermark_ms = pending_stop_watermark_ms current)))
    (invalid "replacement terms differ from request");;
  transition current e RUNNER_OLD_STOP_CANCEL_PENDING
    [U_protected_qty qty;
     U_active_stop_exchange_order_id (Some (strip exchange_order_id));
     U_active_stop_price (Some stop_price);
     U_pending_replaced_stop_exchange_order_id (Some replaces);
     U_pending_stop_price None;
     U_pending_stop_watermark_ms None;
     U_runner_stop_watermark_ms (Some source_watermark_ms)]
    ((if status_is current RUNNER_REPLACEMENT_OUTCOME_UNKNOWN
      then [ResolveIncident (tid current) "protection_replacement_outcome_unknown"] else []) ++
     [CancelProtectionOrders (tid current) replaces conditional runner_old_stop]).

Definition on_ProtectionReplacementRejected (current : TradeAggregate) (e : TradeEvent)
    (reason : str) : result Reduction :=
  require_status current RUNNER_REPLACEMENT_PENDING;;
  require_text reason "protection replacement rejection requires reason";;
  transition current e RUNNER_REPLACEMENT_REJECTED []
    [OpenIncident (tid current) "protection_replacement_rejected"].

Definition on_ProtectionReplacementOutcomeUnknown (current : TradeAggregate) (e : TradeEvent)
    (reason : str) : result Reduction :=
  require_status current RUNNER_REPLACEMENT_PENDING;;
  require_text reason "protection replacement unknown outcome requires reason";;
  transition current e RUNNER_REPLACEMENT_OUTCOME_UNKNOWN []
    [OpenIncident (tid current) "protection_replacement_outcome_unknown"].

Definition on_ProtectionReplacementAbsenceConfirmed (current : TradeAggregate) (e : TradeEvent)
    (command_id : str) : result Reduction :=
  require_status current RUNNER_REPLACEMENT_OUTCOME_UNKNOWN;;
  require_text command_id "reconciled replacement absence requires command identity";;
  match active_stop_exchange_order_id current, pending_stop_price current,
        pending_stop_watermark_ms current with
  | Some stop_id, Some price, Some watermark =>
      transition current e RUNNER_REPLACEMENT_PENDING []
        [ResolveIncident (tid current) "protection_replacement_outcome_unknown";
         PrepareProtectionReplacementCommand (tid current) (position_qty current) price stop_id
           watermark]
  | _, _, _ => Raise (invalid "replacement retry requires exact pending terms")
  end.

(** ** Exit *)

Definition on_ExitRequested (current : TradeAggregate) (e : TradeEvent) (reason : str)
    : result Reduction :=
  require_status_in current [POSITION_PROTECTED; RUNNER_PROTECTED; EXIT_REJECTED];;
  require_text reason "exit reason is required";;
  transition current e EXIT_PENDING []
    [PrepareExitCommand (tid current) (position_qty current) (strip reason)].

Definition on_ExitAccepted (current : TradeAggregate) (e : TradeEvent) (exchange_order_id : str)
    : result Reduction :=
  require_status_in current [EXIT_PENDING; EXIT_OUTCOME_UNKNOWN];;
  require_text exchange_order_id "EXIT acceptance requires order identity";;
  transition current e EXIT_ACCEPTED [U_exit_exchange_order_id (Some (strip exchange_order_id))]
    (if status_is current EXIT_OUTCOME_UNKNOWN
     then [ResolveIncident (tid current) "exit_outcome_unknown"] else []).

Definition on_ExitRejected (current : TradeAggregate) (e : TradeEvent) (reason : str)
    : result Reduction :=
  require_status current EXIT_PENDING;;
  require_text reason "EXIT rejection requires reason";;
  transition current e EXIT_REJECTED [] [OpenIncident (tid current) "exit_rejected"].

Definition on_ExitOutcomeUnknown (current : TradeAggregate) (e : TradeEvent) (reason : str)
    : result Reduction :=
  require_status current EXIT_PENDING;;
  require_text reason "EXIT unknown outcome requires reason";;
  transition current e EXIT_OUTCOME_UNKNOWN [] [OpenIncident (tid current) "exit_outcome_unknown"].

Definition on_ExitAbsenceConfirmed (current : TradeAggregate) (e : TradeEvent) (command_id : str)
    : result Reduction :=
  require_status current EXIT_OUTCOME_UNKNOWN;;
  require_text command_id "reconciled EXIT absence requires command identity";;
  transition current e EXIT_REJECTED [] [ResolveIncident (tid current) "exit_outcome_unknown"].

Definition on_ControlledFlattenAccepted (current : TradeAggregate) (e : TradeEvent)
    (exchange_order_id : str) : result Reduction :=
  require_status_in current [CONTROLLED_FLATTEN_PENDING; CONTROLLED_FLATTEN_OUTCOME_UNKNOWN];;
  require_text exchange_order_id "controlled flatten requires order identity";;
  transition current e CONTROLLED_FLATTEN_ACCEPTED
    [U_exit_exchange_order_id (Some (strip exchange_order_id))]
    (if status_is current CONTROLLED_FLATTEN_OUTCOME_UNKNOWN
     then [ResolveIncident (tid current) "controlled_flatten_outcome_unknown"] else []).

Definition on_ControlledFlattenRejected (current : TradeAggregate) (e : TradeEvent) (reason : str)
    : result Reduction :=
  require_status current CONTROLLED_FLATTEN_PENDING;;
  require_text reason "controlled flatten rejection requires reason";;
  transition current e CONTROLLED_FLATTEN_REJECTED []
    [OpenIncident (tid current) "controlled_flatten_rejected"].

Definition on_ControlledFlattenOutcomeUnknown (current : TradeAggregate) (e : TradeEvent)
    (reason : str) : result Reduction :=
  require_status current CONTROLLED_FLATTEN_PENDING;;
  require_text reason "unknown controlled flatten requires reason";;
  transition current e CONTROLLED_FLATTEN_OUTCOME_UNKNOWN []
    [OpenIncident (tid current) "controlled_flatten_outcome_unknown"].

Definition on_ControlledFlattenAbsenceConfirmed (current : TradeAggregate) (e : TradeEvent)
    (command_id : str) : result Reduction :=
  require_status current CONTROLLED_FLATTEN_OUTCOME_UNKNOWN;;
  require_text command_id "reconciled controlled flatten absence requires command identity";;
  transition current e CONTROLLED_FLATTEN_REJECTED []
    [ResolveIncident (tid current) "controlled_flatten_outcome_unknown";
     OpenIncident (tid current) "controlled_flatten_absent"].

(** ** Flat position and reconciliation *)

Definition cleanup_cancel (current : TradeAggregate) (oid : str) : KernelEffect :=
  CancelProtectionOrders (tid current) oid conditional reconciliation_cleanup.

Definition on_PositionFlatConfirmed (current : TradeAggregate) (e : TradeEvent)
    : result Reduction :=
  require_status_in current
    [EXIT_PENDING; EXIT_ACCEPTED; EXIT_REJECTED; EXIT_OUTCOME_UNKNOWN;
     CONTROLLED_FLATTEN_PENDING; CONTROLLED_FLATTEN_ACCEPTED; CONTROLLED_FLATTEN_REJECTED;
     CONTROLLED_FLATTEN_OUTCOME_UNKNOWN];;
  let cleanup_order_id := next_cleanup_order_id current in
  transition current e RECONCILIATION_PENDING
    (U_position_qty d0 ::
     (match cleanup_order_id with
      | Some oid => [U_pending_cancel_exchange_order_id (Some oid)] | None => [] end) ++
     (if entry_lane_held current then [U_entry_lane_held false] else []))
    ((match cleanup_order_id with Some oid => [cleanup_cancel current oid] | None => [] end) ++
     (if entry_lane_held current then [ReleaseEntryLane (tid current)] else [])).

Definition on_ExternalFlatDetected (current : TradeAggregate) (e : TradeEvent)
    : result Reduction :=
  require_status_in current
    [TP1_PENDING; TP1_REJECTED; TP1_OUTCOME_UNKNOWN; POSITION_PROTECTED;
     RUNNER_REPLACEMENT_PENDING; RUNNER_REPLACEMENT_REJECTED; RUNNER_REPLACEMENT_OUTCOME_UNKNOWN;
     RUNNER_OLD_STOP_CANCEL_PENDING; RUNNER_OLD_STOP_CANCEL_REJECTED;
     RUNNER_OLD_STOP_CANCEL_OUTCOME_UNKNOWN; RUNNER_PROTECTED];;
  match next_cleanup_order_id current with
  | None => Raise (invalid "external flat has no owned order identity")
  | Some oid =>
      transition current e RECONCILIATION_PENDING
        [U_position_qty d0; U_pending_cancel_exchange_order_id (Some oid)]
        [OpenIncident (tid current) "external_flat"; cleanup_cancel current oid]
  end.

Definition on_OwnedOrphanOrderDetected (current : TradeAggregate) (e : TradeEvent)
    (exchange_order_id : str) (namespace : OrderNamespace) : result Reduction :=
  require_status_in current [RECONCILIATION_PENDING; CANCEL_REJECTED];;
  require_text exchange_order_id "owned orphan order identity is required";;
  transition current e RECONCILIATION_PENDING
    [U_pending_cancel_exchange_order_id (Some (strip exchange_order_id))]
    [CancelProtectionOrders (tid current) (strip exchange_order_id) namespace
       reconciliation_cleanup].

Definition on_OwnedOrderAbsenceConfirmed (current : TradeAggregate) (e : TradeEvent)
    (exchange_order_id : str) : result Reduction :=
  require_status current RECONCILIATION_PENDING;;
  require_text exchange_order_id "owned order absence requires identity";;
  raise_if (negb (bool_decide (exchange_order_id ∈ known_cleanup_order_ids current)))
    (invalid "absent order is not owned by Ticket");;
  transition current e RECONCILIATION_PENDING (clear_cleanup_order current exchange_order_id) [].

Definition on_UnownedOrderDetected (current : TradeAggregate) (e : TradeEvent)
    (exchange_order_id : str) : result Reduction :=
  require_status current RECONCILIATION_PENDING;;
  require_text exchange_order_id "unowned order identity is required";;
  transition current e RECONCILIATION_PENDING []
    [OpenIncident (tid current) "unowned_open_order"].

(** The updates that retire the replaced stop of the runner. *)
Definition retire_replaced_stop (current : TradeAggregate) (exchange_order_id : str) : list Update :=
  U_pending_replaced_stop_exchange_order_id None ::
  (if bool_decide (Some exchange_order_id = initial_stop_exchange_order_id current)
   then [U_initial_stop_exchange_order_id None] else []).

Definition on_ProtectionCancelConfirmed (current : TradeAggregate) (e : TradeEvent)
    (exchange_order_id : str) : result Reduction :=
  if status_is current RUNNER_OLD_STOP_CANCEL_PENDING then
    require_order_id exchange_order_id (pending_replaced_stop_exchange_order_id current)
      "runner replaced-stop cancel identity mismatch";;
    transition current e RUNNER_PROTECTED (retire_replaced_stop current exchange_order_id) []
  else
    require_status current RECONCILIATION_PENDING;;
    require_order_id exchange_order_id (pending_cancel_exchange_order_id current)
      "pending cancel identity mismatch";;
    raise_if (negb (bool_decide (exchange_order_id ∈ known_cleanup_order_ids current)))
      (invalid "cancelled order is not owned by Ticket");;
    transition current e RECONCILIATION_PENDING (clear_cleanup_order current exchange_order_id) [].

Definition on_ProtectionCancelRejected (current : TradeAggregate) (e : TradeEvent)
    (exchange_order_id reason : str) : result Reduction :=
  require_status current RUNNER_OLD_STOP_CANCEL_PENDING;;
  require_order_id exchange_order_id (pending_replaced_stop_exchange_order_id current)
    "rejected replaced-stop identity mismatch";;
  require_text reason "replaced-stop rejection requires reason";;
  transition current e RUNNER_OLD_STOP_CANCEL_REJECTED []
    [OpenIncident (tid current) "runner_old_stop_cancel_rejected"].

Definition on_ProtectionCancelOutcomeUnknown (current : TradeAggregate) (e : TradeEvent)
    (exchange_order_id reason : str) : result Reduction :=
  require_status current RUNNER_OLD_STOP_CANCEL_PENDING;;
  require_order_id exchange_order_id (pending_replaced_stop_exchange_order_id current)
    "unknown replaced-stop identity mismatch";;
  require_text reason "unknown replaced-stop cancel requires reason";;
  transition current e RUNNER_OLD_STOP_CANCEL_OUTCOME_UNKNOWN []
    [OpenIncident (tid current) "runner_old_stop_cancel_outcome_unknown"].

Definition on_ProtectionCancelAbsenceConfirmed (current : TradeAggregate) (e : TradeEvent)
    (exchange_order_id : str) : result Reduction :=
  require_status current RUNNER_OLD_STOP_CANCEL_OUTCOME_UNKNOWN;;
  require_order_id exchange_order_id (pending_replaced_stop_exchange_order_id current)
    "absent replaced-stop identity mismatch";;
  transition current e RUNNER_PROTECTED (retire_replaced_stop current exchange_order_id)
    [MarkCancelCommandReconciledAbsent (tid current) exchange_order_id;
     ResolveIncident (tid current) "runner_old_stop_cancel_outcome_unknown"].

Definition on_OwnedOrphanCancelConfirmed (current : TradeAggregate) (e : TradeEvent)
    (exchange_order_id : str) : result Reduction :=
  require_status current RECONCILIATION_PENDING;;
  require_text exchange_order_id "owned orphan cancel identity is required";;
  require_order_id exchange_order_id (pending_cancel_exchange_order_id current)
    "pending orphan cancel identity mismatch";;
  transition current e RECONCILIATION_PENDING (clear_cleanup_order current exchange_order_id) [].

Definition on_CancelOrderRejected (current : TradeAggregate) (e : TradeEvent)
    (exchange_order_id reason : str) : result Reduction :=
  require_status current RECONCILIATION_PENDING;;
  require_order_id exchange_order_id (pending_cancel_exchange_order_id current)
    "rejected cancel identity mismatch";;
  require_text reason "cancel rejection requires reason";;
  transition current e CANCEL_REJECTED [] [OpenIncident (tid current) "cancel_order_rejected"].

Definition on_CancelOrderOutcomeUnknown (current : TradeAggregate) (e : TradeEvent)
    (exchange_order_id reason : str) : result Reduction :=
  require_status current RECONCILIATION_PENDING;;
  require_order_id exchange_order_id (pending_cancel_exchange_order_id current)
    "unknown cancel identity mismatch";;
  require_text reason "unknown cancel outcome requires reason";;
  transition current e CANCEL_OUTCOME_UNKNOWN []
    [OpenIncident (tid current) "cancel_order_outcome_unknown"].

Definition on_CancelOrderStillOpenConfirmed (current : TradeAggregate) (e : TradeEvent)
    (exchange_order_id : str) : result Reduction :=
  require_status current CANCEL_OUTCOME_UNKNOWN;;
  require_order_id exchange_order_id (pending_cancel_exchange_order_id current)
    "still-open cancel identity mismatch";;
  transition current e CANCEL_REJECTED []
    [ResolveIncident (tid current) "cancel_order_outcome_unknown"].

Definition on_CancelOrderAbsenceConfirmed (current : TradeAggregate) (e : TradeEvent)
    (exchange_order_id : str) : result Reduction :=
  require_status_in current [CANCEL_REJECTED; CANCEL_OUTCOME_UNKNOWN];;
  require_order_id exchange_order_id (pending_cancel_exchange_order_id current)
    "absent cancel identity mismatch";;
  transition current e RECONCILIATION_PENDING (clear_cleanup_order current exchange_order_id)
    (if status_is current CANCEL_OUTCOME_UNKNOWN
     then [MarkCancelCommandReconciledAbsent (tid current) exchange_order_id;
           ResolveIncident (tid current) "cancel_order_outcome_unknown"]
     else []).

Definition on_ReconciliationMatched (current : TradeAggregate) (e : TradeEvent)
    : result Reduction :=
  require_status current RECONCILIATION_PENDING;;
  raise_if (negb (Nat.eqb (length (known_cleanup_order_ids current)) 0))
    (invalid "owned order identity residue remains");;
  raise_if (negb (protected_qty current =? d0)%dec) (invalid "protected quantity remains");;
  raise_if (negb (is_none (pending_cancel_exchange_order_id current)))
    (invalid "cancel outcome remains unresolved");;
  let t := ticket current in
  let domain := ti_netting_domain (tk_identity t) in
  transition current e SETTLEMENT_PENDING []
    [ResolveTicketIncidentsAtClosure (tid current);
     ReleaseCapitalAuthorities (tid current)
       (nd_venue_id domain +:+ ":" +:+ nd_account_id domain) (netting_domain_key domain)
       (tk_notional t) (tk_risk_at_stop t) (tk_reserved_margin t) (ev_occurred_at_ms e)].

(** ** Settlement and review *)

Definition on_BudgetSettled (current : TradeAggregate) (e : TradeEvent) : result Reduction :=
  require_status current SETTLEMENT_PENDING;;
  transition current e REVIEW_PENDING [] [].

Definition on_ReviewRecorded (current : TradeAggregate) (e : TradeEvent) (review : str)
    : result Reduction :=
  require_status current REVIEW_PENDING;;
  require_text review "review identity is required";;
  transition current e TERMINAL [U_review_id (Some (strip review))]
    [ProjectTerminalOwnerState (tid current)].

Definition on_ReviewRevised (current : TradeAggregate) (e : TradeEvent) (review supersedes : str)
    : result Reduction :=
  require_status current TERMINAL;;
  raise_if (blank review || blank supersedes) (invalid "review revision identities are required");;
  raise_if (negb (bool_decide (review_id current = Some (strip supersedes))))
    (invalid "review revision supersedes identity differs from current pointer");;
  raise_if (bool_decide (strip review = strip supersedes))
    (invalid "review revision must use a new review identity");;
  transition current e TERMINAL [U_review_id (Some (strip review))]
    [ProjectTerminalOwnerState (tid current)].

(** ** Dispatch *)

(** [_issue_ticket] *)
Definition issue_ticket (e : TradeEvent) : result Reduction :=
  match ev_body e with
  | TicketIssued t =>
      raise_if (negb (ev_sequence e =? 1)) (invalid "first event sequence must be one");;
      let requires_leverage_change := tk_leverage_change_required t in
      Ok (mkReduction
            (new_aggregate (tk_identity t) t
               (if requires_leverage_change then LEVERAGE_PENDING else ENTRY_PENDING)
               1 (ev_sequence e))
            [if requires_leverage_change then PrepareSetLeverageCommand t
             else PrepareEntryCommand t None])
  | _ => Raise (invalid "first event must issue a Ticket")
  end.

(** The [isinstance] chain of [reduce_event] on an existing aggregate. *)
Definition reduce_body (current : TradeAggregate) (e : TradeEvent) : result Reduction :=
  match ev_body e with
  | TicketIssued _ => Raise (invalid "unsupported event: TicketIssued")
  | LeverageConfirmed lev at_ms digest => on_LeverageConfirmed current e lev at_ms digest
  | LeverageRejected reason => on_LeverageRejected current e reason
  | LeverageOutcomeUnknown reason => on_LeverageOutcomeUnknown current e reason
  | EntryAccepted oid => on_EntryAccepted current e oid
  | EntryRejected _ => on_EntryRejected current e
  | EntryOutcomeUnknown reason => on_EntryOutcomeUnknown current e reason
  | EntryAbsenceConfirmed cmd => on_EntryAbsenceConfirmed current e cmd
  | EntryFilled qty price risk liq _ => on_EntryFilled current e qty price risk liq
  | EntryPartiallyFilled qty req price => on_EntryPartiallyFilled current e qty req price
  | EntryRemainderCancelConfirmed oid => on_EntryRemainderCancelConfirmed current e oid
  | EntryRemainderCancelRejected oid reason => on_EntryRemainderCancelRejected current e oid reason
  | EntryRemainderCancelOutcomeUnknown oid reason =>
      on_EntryRemainderCancelOutcomeUnknown current e oid reason
  | EntryVacuumSuperseded vac _ => on_EntryVacuumSuperseded current e vac
  | EntryVacuumCancelRequested vac oid qty price =>
      on_EntryVacuumCancelRequested current e vac oid qty price
  | EntryVacuumCancelConfirmed oid => on_EntryVacuumCancelConfirmed current e oid
  | EntryVacuumCancelRejected oid _ => on_EntryVacuumCancelRejected current e oid
  | EntryVacuumCancelOutcomeUnknown oid _ => on_EntryVacuumCancelOutcomeUnknown current e oid
  | EntryVacuumOrderAbsenceConfirmed vac oid qty price =>
      on_EntryVacuumOrderAbsenceConfirmed current e vac oid qty price
  | VacuumLateFillAttributed vac cmd oid cid qty price pos venue digest =>
      on_VacuumLateFillAttributed current e vac cmd oid cid qty price pos venue digest
  | VacuumPostAbsenceNoFillVerified vac cmd oid cid pos venue digest =>
      on_VacuumPostAbsenceNoFillVerified current e vac cmd oid cid pos venue digest
  | EntryVacuumAbsenceConfirmed vac => on_EntryVacuumAbsenceConfirmed current e vac
  | VacuumPartialRetained vac auth req final price _ tp1 _ risk =>
      on_VacuumPartialRetained current e vac auth req final price tp1 risk
  | VacuumPartialFlattenRequired vac qty price reason =>
      on_VacuumPartialFlattenRequired current e vac qty price reason
  | InitialStopConfirmed oid qty => on_InitialStopConfirmed current e oid qty
  | PostFillStressAssessed st ev pol ver qty price stop oid =>
      on_PostFillStressAssessed current e st ev pol ver qty price stop oid
  | InitialStopRejected reason => on_InitialStopRejected current e reason
  | InitialStopOutcomeUnknown reason => on_InitialStopOutcomeUnknown current e reason
  | InitialStopAbsenceConfirmed cmd => on_InitialStopAbsenceConfirmed current e cmd
  | TakeProfitConfirmed oid qty => on_TakeProfitConfirmed current e oid qty
  | TakeProfitRejected reason => on_TakeProfitRejected current e reason
  | TakeProfitOutcomeUnknown reason => on_TakeProfitOutcomeUnknown current e reason
  | TakeProfitAbsenceConfirmed cmd => on_TakeProfitAbsenceConfirmed current e cmd
  | TakeProfitFilled qty price floor => on_TakeProfitFilled current e qty price floor
  | RunnerStopRequested stop wm => on_RunnerStopRequested current e stop wm
  | ProtectionReplacementConfirmed oid qty stop repl wm =>
      on_ProtectionReplacementConfirmed current e oid qty stop repl wm
  | ProtectionReplacementRejected reason => on_ProtectionReplacementRejected current e reason
  | ProtectionReplacementOutcomeUnknown reason =>
      on_ProtectionReplacementOutcomeUnknown current e reason
  | ProtectionReplacementAbsenceConfirmed cmd =>
      on_ProtectionReplacementAbsenceConfirmed current e cmd
  | ExitRequested reason => on_ExitRequested current e reason
  | ExitAccepted oid => on_ExitAccepted current e oid
  | ExitRejected reason => on_ExitRejected current e reason
  | ExitOutcomeUnknown reason => on_ExitOutcomeUnknown current e reason
  | ExitAbsenceConfirmed cmd => on_ExitAbsenceConfirmed current e cmd
  | ControlledFlattenAccepted oid => on_ControlledFlattenAccepted current e oid
  | ControlledFlattenRejected reason => on_ControlledFlattenRejected current e reason
  | ControlledFlattenOutcomeUnknown reason => on_ControlledFlattenOutcomeUnknown current e reason
  | ControlledFlattenAbsenceConfirmed cmd => on_ControlledFlattenAbsenceConfirmed current e cmd
  | PositionFlatConfirmed => on_PositionFlatConfirmed current e
  | ExternalFlatDetected => on_ExternalFlatDetected current e
  | OwnedOrphanOrderDetected oid ns => on_OwnedOrphanOrderDetected current e oid ns
  | OwnedOrderAbsenceConfirmed oid => on_OwnedOrderAbsenceConfirmed current e oid
  | UnownedOrderDetected oid => on_UnownedOrderDetected current e oid
  | ProtectionCancelConfirmed oid => on_ProtectionCancelConfirmed current e oid
  | ProtectionCancelRejected oid reason => on_ProtectionCancelRejected current e oid reason
  | ProtectionCancelOutcomeUnknown oid reason =>
      on_ProtectionCancelOutcomeUnknown current e oid reason
  | ProtectionCancelAbsenceConfirmed oid => on_ProtectionCancelAbsenceConfirmed current e oid
  | OwnedOrphanCancelConfirmed oid => on_OwnedOrphanCancelConfirmed current e oid
  | CancelOrderRejected oid reason => on_CancelOrderRejected current e oid reason
  | CancelOrderOutcomeUnknown oid reason => on_CancelOrderOutcomeUnknown current e oid reason
  | CancelOrderAbsenceConfirmed oid => on_CancelOrderAbsenceConfirmed current e oid
  | CancelOrderStillOpenConfirmed oid => on_CancelOrderStillOpenConfirmed current e oid
  | ReconciliationMatched _ => on_ReconciliationMatched current e
  | BudgetSettled => on_BudgetSettled current e
  | ReviewRecorded r => on_ReviewRecorded current e r
  | ReviewRevised r s => on_ReviewRevised current e r s
  end.

Definition reduce_event (current : option TradeAggregate) (e : TradeEvent) : result Reduction :=
  match current with
  | None => issue_ticket e
  | Some current =>
      require_event_identity_and_sequence current e;;
      reduce_body current e
  end.
