(* ===== verification/Lifecycle.v ===== *)
(** * Histories of one Ticket

    The step relation of the kernel: a Ticket's history is the first event
    (which issues it) followed by events the reducer accepts.  The file gives
    the inversion tactic on accepted events, the status classes the
    properties speak about, and the invariants by rule induction. *)

From Stdlib Require Import QArith Lqa.
From S2P Require Import Prelude PyString PyDecimal DecimalFacts Identities Ticket PostFillRisk.
From S2P Require Import CrossMarginStress Commands VenueTruth VacuumLateFill Events Aggregate.
From S2P Require Import Reducer.
#[local] Open Scope Z_scope.

(** ** Constructed events

    An event object exists only if its constructor accepted it: its fields are
    normalized and pass the validators.  The Ticket of [TicketIssued] and its
    identity were constructed before.  The quantities that become the position carry at most
    28 significant digits. *)
Definition quantity_fits (b : EventBody) : bool :=
  match b with
  | TicketIssued t => fits (tk_quantity t)
  | EntryFilled q _ _ _ _ | EntryPartiallyFilled q _ _ | EntryVacuumCancelRequested _ _ q _
  | EntryVacuumOrderAbsenceConfirmed _ _ q _ | VacuumLateFillAttributed _ _ _ _ q _ _ _ _ => fits q
  | _ => true
  end.

Record constructed (e : TradeEvent) : Prop := {
  constructed_valid : validate_event e = Ok e;
  constructed_ticket : match ev_body e with
                       | TicketIssued t =>
                           validate_TradeTicket t = Ok t ∧
                           validate_TicketIdentity (tk_identity t) = Ok (tk_identity t)
                       | _ => True
                       end;
  constructed_fits : quantity_fits (ev_body e) = true
}.

Inductive history : list TradeEvent → TradeAggregate → list KernelEffect → Prop :=
  | history_issue e r :
      constructed e → reduce_event None e = Ok r → history [e] (aggregate r) (effects r)
  | history_step es a effs e r :
      history es a effs → constructed e → reduce_event (Some a) e = Ok r →
      history (es ++ [e]) (aggregate r) (effs ++ effects r).

Definition reachable (a : TradeAggregate) : Prop := ∃ es effs, history es a effs.

(** ** Inversion of accepted events *)

Create HintDb branches.
#[export] Hint Unfold on_LeverageConfirmed on_LeverageRejected on_LeverageOutcomeUnknown
  on_EntryAccepted on_EntryOutcomeUnknown on_EntryRejected on_EntryAbsenceConfirmed
  on_EntryFilled on_EntryPartiallyFilled on_EntryRemainderCancelConfirmed
  on_EntryRemainderCancelRejected on_EntryRemainderCancelOutcomeUnknown
  on_EntryVacuumSuperseded on_EntryVacuumCancelRequested on_EntryVacuumCancelConfirmed
  on_EntryVacuumCancelRejected on_EntryVacuumCancelOutcomeUnknown
  on_EntryVacuumOrderAbsenceConfirmed on_VacuumLateFillAttributed
  on_VacuumPostAbsenceNoFillVerified on_EntryVacuumAbsenceConfirmed on_VacuumPartialRetained
  on_VacuumPartialFlattenRequired on_InitialStopConfirmed on_PostFillStressAssessed
  on_InitialStopRejected on_InitialStopOutcomeUnknown on_InitialStopAbsenceConfirmed
  on_TakeProfitConfirmed on_TakeProfitRejected on_TakeProfitOutcomeUnknown
  on_TakeProfitAbsenceConfirmed on_TakeProfitFilled on_RunnerStopRequested
  on_ProtectionReplacementConfirmed on_ProtectionReplacementRejected
  on_ProtectionReplacementOutcomeUnknown on_ProtectionReplacementAbsenceConfirmed
  on_ExitRequested on_ExitAccepted on_ExitRejected on_ExitOutcomeUnknown
  on_ExitAbsenceConfirmed on_ControlledFlattenAccepted on_ControlledFlattenRejected
  on_ControlledFlattenOutcomeUnknown on_ControlledFlattenAbsenceConfirmed
  on_PositionFlatConfirmed on_ExternalFlatDetected on_OwnedOrphanOrderDetected
  on_OwnedOrderAbsenceConfirmed on_UnownedOrderDetected on_ProtectionCancelConfirmed
  on_ProtectionCancelRejected on_ProtectionCancelOutcomeUnknown
  on_ProtectionCancelAbsenceConfirmed on_OwnedOrphanCancelConfirmed on_CancelOrderRejected
  on_CancelOrderOutcomeUnknown on_CancelOrderStillOpenConfirmed on_CancelOrderAbsenceConfirmed
  on_ReconciliationMatched on_BudgetSettled on_ReviewRecorded on_ReviewRevised : branches.

Lemma reduce_event_Some a e r :
  reduce_event (Some a) e = Ok r ↔
  (∀ t, ev_body e ≠ TicketIssued t) ∧ ev_ticket_id e = tid a ∧
  ev_sequence e = last_event_sequence a + 1 ∧ reduce_body a e = Ok r.
Proof.
  cbn [reduce_event]. unfold require_event_identity_and_sequence, tid.
  rewrite !bind_Ok. setoid_rewrite bind_Ok. setoid_rewrite bind_Ok.
  setoid_rewrite raise_if_Ok. setoid_rewrite negb_false_iff.
  setoid_rewrite bool_decide_true. setoid_rewrite Z.eqb_eq.
  destruct (ev_body e); naive_solver.
Qed.

Lemma transition_Ok a e s ups effs r :
  transition a e s ups effs = Ok r →
  r = mkReduction (model_copy (set_last_event_sequence (ev_sequence e)
        (set_version (version a + 1) (set_status s a))) ups) effs.
Proof. intros H. by injection H as <-. Qed.

Lemma require_status_Ok a s u : require_status a s = Ok u ↔ status a = s.
Proof.
  unfold require_status. rewrite raise_if_Ok, negb_false. apply bool_decide_true.
Qed.

Lemma require_status_in_Ok a l u : require_status_in a l = Ok u ↔ status a ∈ l.
Proof.
  unfold require_status_in. rewrite raise_if_Ok, negb_false. apply bool_decide_true.
Qed.

Lemma require_text_Ok s m u : require_text s m = Ok u ↔ blank s = false.
Proof. apply raise_if_Ok. Qed.

Lemma require_order_id_Ok o x m u : require_order_id o x m = Ok u ↔ x = Some o.
Proof.
  unfold require_order_id. rewrite raise_if_Ok, negb_false, bool_decide_true. naive_solver.
Qed.

(** One guard or one branching of a handler. *)
Ltac guard_step H :=
  lazymatch type of H with
  | mbind _ _ = Ok _ =>
      let u := fresh "u" in let E := fresh "G" in
      apply bind_Ok in H as (u & E & H);
      lazymatch type of E with
      | require_status_in _ _ = _ => apply require_status_in_Ok in E
      | require_status _ _ = _ => apply require_status_Ok in E
      | require_text _ _ = _ => apply require_text_Ok in E
      | require_order_id _ _ _ = _ => apply require_order_id_Ok in E
      | raise_if _ _ = _ => apply raise_if_Ok in E
      | _ => idtac
      end;
      try clear u
  | transition _ _ _ _ _ = Ok _ => apply transition_Ok in H; subst
  | Raise _ = Ok _ => discriminate H
  | Ok _ = Ok _ => injection H as H; subst
  | (if status_is _ _ then _ else _) = Ok _ =>
      let B := fresh "G" in destruct status_is eqn:B in H;
      [apply bool_decide_eq_true_1 in B | apply bool_decide_eq_false_1 in B]
  | (if ?c then _ else _) = Ok _ => let B := fresh "B" in destruct c eqn:B
  | match ?x with _ => _ end = Ok _ => let B := fresh "B" in destruct x eqn:B in H
  end.

(** [step_cases H] opens an accepted event: one goal per outcome of a handler. *)
Ltac step_cases H :=
  let Hb := fresh "Hbody" in
  let Hni := fresh "Hni" in
  apply reduce_event_Some in H as (Hni & Hid & Hseq & H); unfold reduce_body in H;
  match type of H with
  | match ev_body ?e with _ => _ end = _ => destruct (ev_body e) eqn:Hb
  end; try clear Hni;
  autounfold with branches in H; cbv zeta in H; repeat guard_step H.

(** Decide the optional entries of the updates and effects in the goal. *)
Ltac split_updates :=
  repeat match goal with
  | |- context [if bool_decide ?P then _ else _] => destruct (bool_decide_reflect P)
  | |- context [if entry_lane_held ?a then _ else _] => destruct (entry_lane_held a) eqn:?
  | |- context [match next_cleanup_order_id ?a with _ => _ end] =>
      destruct (next_cleanup_order_id a) eqn:?
  end.

(** Compute the fields of an updated aggregate. *)
Ltac read_fields :=
  cbn [model_copy foldl apply_update app effects aggregate
    set_status set_version set_last_event_sequence set_entry_lane_held set_position_qty
    set_average_fill_price set_actual_stop_risk set_venue_reported_liquidation_price
    set_post_fill_risk_status set_post_fill_disposition set_post_fill_stress_status
    set_post_fill_stress_proof_digest set_protected_qty set_entry_exchange_order_id
    set_initial_stop_exchange_order_id set_active_stop_exchange_order_id set_active_stop_price
    set_tp1_exchange_order_id set_tp1_target_qty set_tp1_filled_qty set_break_even_floor_price
    set_pending_replaced_stop_exchange_order_id set_pending_stop_price
    set_pending_stop_watermark_ms set_runner_stop_watermark_ms
    set_pending_cancel_exchange_order_id set_entry_vacuum_id set_vacuum_partial_retained
    set_exit_exchange_order_id set_review_id status version last_event_sequence entry_lane_held
    position_qty average_fill_price actual_stop_risk venue_reported_liquidation_price
    post_fill_risk_status post_fill_disposition post_fill_stress_status
    post_fill_stress_proof_digest protected_qty entry_exchange_order_id
    initial_stop_exchange_order_id active_stop_exchange_order_id active_stop_price
    tp1_exchange_order_id tp1_target_qty tp1_filled_qty break_even_floor_price
    pending_replaced_stop_exchange_order_id pending_stop_price pending_stop_watermark_ms
    runner_stop_watermark_ms pending_cancel_exchange_order_id entry_vacuum_id
    vacuum_partial_retained exit_exchange_order_id review_id identity ticket].

Ltac step_outcomes H := step_cases H; cbn [aggregate effects]; unfold clear_cleanup_order,
  retire_replaced_stop, post_fill_updates, status_is; split_updates; read_fields.

(** ** Facts of the constructors *)

Lemma constructed_body e :
  constructed e → validate_body (ev_occurred_at_ms e) (ev_body e) = Ok tt.
Proof.
  intros [H _ _]. unfold validate_event in H. run_ok H. destruct a0.
  rewrite <- H at 2. cbn [ev_body]. destruct (ev_body e); cbn in *; try done;
    apply validate_fields_Ok in E0; apply validate_fields_Ok; by rewrite blank_strip.
Qed.

Lemma constructed_sequence e :
  constructed e → (∀ l t d, ev_body e ≠ LeverageConfirmed l t d) →
  0 < ev_sequence e ∧ 0 < ev_occurred_at_ms e.
Proof.
  intros [H _ _] Hb. unfold validate_event in H. run_ok H.
  apply validate_fields_Ok in E. apply Forall_cons in E as [_ E].
  apply Forall_app in E as [E _]. unfold header_checks in E.
  destruct (ev_body e); try (exfalso; by eapply Hb);
    apply Forall_cons in E as [E1 E]; apply Forall_cons in E as [E2 _]; cbn in *; lia.
Qed.

(** The validated facts of a Ticket the lifecycle relies on. *)
Record ticket_facts (t : TradeTicket) : Prop := {
  ticket_quantity_pos : (0 < dval (tk_quantity t))%Q;
  ticket_stop_pos : (0 < dval (tk_initial_stop_price t))%Q;
  ticket_tp_pos : Forall (λ q, (0 < dval q)%Q) (tk_take_profit_quantities t);
  ticket_leverage_pos : 0 < tk_selected_leverage t
}.

Lemma ticket_facts_ok t : validate_TradeTicket t = Ok t → ticket_facts t.
Proof.
  unfold validate_TradeTicket. intros H. run_ok H. clear E0.
  apply validate_fields_Ok in E. unfold ticket_field_checks in E.
  rewrite !Forall_app, !Forall_fmap in E.
  destruct E as (_ & _ & _ & _ & E1 & _ & E2).
  repeat (apply Forall_cons in E1 as [? E1]). repeat (apply Forall_cons in E2 as [? E2]).
  cbn in *. rewrite !nonpositive_false in *.
  assert (Htp : existsb nonpositive (tk_take_profit_quantities t) = false) by done.
  split; try done; [|lia].
  apply existsb_false in Htp. eapply Forall_impl; [exact Htp|]. intros q. apply nonpositive_false.
Qed.
