(* ===== verification/LifecycleInvariants.v ===== *)
(** * Invariants of reachable lifecycle states

    Status classes, and what every reachable aggregate of a class satisfies;
    each invariant is preserved by every accepted event. *)

From Stdlib Require Import QArith Lqa.
From S2P Require Import Prelude PyString PyDecimal DecimalFacts Identities Ticket PostFillRisk.
From S2P Require Import CrossMarginStress Commands VenueTruth VacuumLateFill Events Aggregate.
From S2P Require Import Reducer Lifecycle.
#[local] Open Scope Z_scope.

(** ** Status classes *)

(** No exposure exists, or it is already flat. *)
Definition flat_status (s : AggregateStatus) : bool :=
  match s with
  | LEVERAGE_PENDING | LEVERAGE_CONFIRMED | LEVERAGE_REJECTED | LEVERAGE_OUTCOME_UNKNOWN
  | ENTRY_PENDING | ENTRY_ACCEPTED | ENTRY_REJECTED | ENTRY_OUTCOME_UNKNOWN
  | ENTRY_RECONCILED_ABSENT | RECONCILIATION_PENDING | CANCEL_REJECTED | CANCEL_OUTCOME_UNKNOWN
  | SETTLEMENT_PENDING | REVIEW_PENDING | TERMINAL => true
  | _ => false
  end.

(** The ENTRY order is being withdrawn: filled or not. *)
Definition vacuum_status (s : AggregateStatus) : bool :=
  match s with
  | ENTRY_VACUUM_CANCEL_PENDING | ENTRY_VACUUM_CANCEL_REJECTED
  | ENTRY_VACUUM_CANCEL_OUTCOME_UNKNOWN | ENTRY_VACUUM_CANCELLED => true
  | _ => false
  end.

(** A confirmed stop covers exactly the position. *)
Definition protected_status (s : AggregateStatus) : bool :=
  match s with
  | POST_FILL_RISK_PENDING | TP1_PENDING | TP1_REJECTED | TP1_OUTCOME_UNKNOWN
  | POSITION_PROTECTED | RUNNER_OLD_STOP_CANCEL_PENDING | RUNNER_OLD_STOP_CANCEL_REJECTED
  | RUNNER_OLD_STOP_CANCEL_OUTCOME_UNKNOWN | RUNNER_PROTECTED => true
  | _ => false
  end.

(** A replacement stop is requested while the old one still covers. *)
Definition replacement_status (s : AggregateStatus) : bool :=
  match s with
  | RUNNER_REPLACEMENT_PENDING | RUNNER_REPLACEMENT_REJECTED
  | RUNNER_REPLACEMENT_OUTCOME_UNKNOWN => true
  | _ => false
  end.

(** The replacement stop of the runner is installed. *)
Definition installed_status (s : AggregateStatus) : bool :=
  match s with
  | RUNNER_OLD_STOP_CANCEL_PENDING | RUNNER_OLD_STOP_CANCEL_REJECTED
  | RUNNER_OLD_STOP_CANCEL_OUTCOME_UNKNOWN | RUNNER_PROTECTED => true
  | _ => false
  end.

(** Before the Ticket can give its account's entry lane back. *)
Definition lane_status (s : AggregateStatus) : bool :=
  match s with
  | LEVERAGE_PENDING | LEVERAGE_CONFIRMED | LEVERAGE_OUTCOME_UNKNOWN
  | ENTRY_PENDING | ENTRY_ACCEPTED | ENTRY_OUTCOME_UNKNOWN
  | ENTRY_VACUUM_CANCEL_PENDING | ENTRY_VACUUM_CANCEL_REJECTED
  | ENTRY_VACUUM_CANCEL_OUTCOME_UNKNOWN | ENTRY_VACUUM_CANCELLED
  | PARTIAL_FILL_INCIDENT | PARTIAL_FILL_CANCEL_REJECTED | PARTIAL_FILL_CANCEL_OUTCOME_UNKNOWN
  | PROTECTION_PENDING | INITIAL_STOP_OUTCOME_UNKNOWN | POST_FILL_RISK_PENDING => true
  | _ => false
  end.

(** The ENTRY ended without exposure. *)
Definition abandoned_status (s : AggregateStatus) : bool :=
  match s with LEVERAGE_REJECTED | ENTRY_REJECTED | ENTRY_RECONCILED_ABSENT => true | _ => false end.

(** The episode's accounts are closed or closing. *)
Definition settled_status (s : AggregateStatus) : bool :=
  match s with SETTLEMENT_PENDING | REVIEW_PENDING | TERMINAL => true | _ => false end.

(** The Ticket's capital is no longer reserved. *)
Definition released_status (s : AggregateStatus) : bool :=
  abandoned_status s || settled_status s.

(** No ENTRY order has been sent. *)
Definition unsent_status (s : AggregateStatus) : bool :=
  match s with LEVERAGE_PENDING | LEVERAGE_OUTCOME_UNKNOWN => true | _ => false end.

(** ** Rule induction *)

Lemma reachable_invariant (P : TradeAggregate → Prop) :
  (∀ e r, constructed e → reduce_event None e = Ok r → P (aggregate r)) →
  (∀ a e r, reachable a → P a → constructed e → reduce_event (Some a) e = Ok r →
            P (aggregate r)) →
  ∀ a, reachable a → P a.
Proof.
  intros Hissue Hstep a (es & effs & H).
  induction H as [e r Hc Hr|es a effs e r H IH Hc Hr]; [eauto|].
  eapply Hstep; eauto. by exists es, effs.
Qed.

Lemma reachable_step a e r :
  reachable a → constructed e → reduce_event (Some a) e = Ok r → reachable (aggregate r).
Proof. intros (es & effs & H) Hc Hr. eexists _, _. by eapply history_step. Qed.

(** The first event. *)
Lemma issue_inv e r :
  reduce_event None e = Ok r →
  ∃ t, ev_body e = TicketIssued t ∧ ev_sequence e = 1 ∧
       r = mkReduction (new_aggregate (tk_identity t) t
             (if tk_leverage_change_required t then LEVERAGE_PENDING else ENTRY_PENDING) 1 1)
             [if tk_leverage_change_required t then PrepareSetLeverageCommand t
              else PrepareEntryCommand t None].
Proof.
  cbn. unfold issue_ticket. destruct (ev_body e); try discriminate.
  intros H. run_ok H. apply negb_false, Z.eqb_eq in E. eexists. by rewrite E.
Qed.

(** ** Frame: what no event changes *)

Lemma step_frame a e r :
  reduce_event (Some a) e = Ok r →
  identity (aggregate r) = identity a ∧ ticket (aggregate r) = ticket a ∧
  version (aggregate r) = version a + 1 ∧
  last_event_sequence (aggregate r) = last_event_sequence a + 1.
Proof. intros H. step_outcomes H; repeat split; exact Hseq. Qed.

(** An identity as its constructor leaves it. *)
Definition canonical_id (s : str) : Prop := strip s = s ∧ blank s = false.

Record frame_inv (a : TradeAggregate) : Prop := {
  frame_identity : identity a = tk_identity (ticket a);
  frame_version : version a = last_event_sequence a;
  frame_sequence : 0 < last_event_sequence a;
  frame_ticket : ticket_facts (ticket a);
  frame_fits : fits (tk_quantity (ticket a)) = true;
  frame_ticket_id : canonical_id (tid a)
}.

Lemma ticket_identity_canonical i : validate_TicketIdentity i = Ok i → canonical_id (ti_ticket_id i).
Proof.
  unfold validate_TicketIdentity. intros H. run_ok H.
  apply validate_fields_Ok, Forall_cons in E as [E _]. split; [|exact E].
  by rewrite <- H at 2.
Qed.

Lemma reachable_frame a : reachable a → frame_inv a.
Proof.
  apply reachable_invariant; clear a.
  - intros e r Hc H. apply issue_inv in H as (t & Hb & _ & ->).
    destruct Hc as [_ Ht Hf]. rewrite Hb in Ht, Hf. destruct Ht as [Ht Hi].
    split; try done; [by apply ticket_facts_ok|by apply ticket_identity_canonical].
  - intros a e r _ [F1 F2 F3 F4 F5 F6] _ H.
    apply step_frame in H as (H1 & H2 & H3 & H4).
    split; unfold tid; rewrite ?H1, ?H2, ?H3, ?H4; try done; lia.
Qed.

(** ** Quantities *)

(** Split a membership [status a ∈ l] and use the status everywhere. *)
Ltac use_status a :=
  repeat match goal with
  | H : status a ∈ _ :: _ |- _ => apply elem_of_cons in H as [H|H]
  | H : status a ∈ [] |- _ => by apply not_elem_of_nil in H
  end;
  repeat match goal with
  | H : status a = _ |- _ => rewrite H in *; clear H
  end.

Record quantity_inv (a : TradeAggregate) : Prop := {
  position_nonneg : (0 <= dval (position_qty a))%Q;
  position_bound : (dval (position_qty a) <= dval (tk_quantity (ticket a)))%Q;
  position_fits : fits (position_qty a) = true;
  tp1_target_nonneg : (0 <= dval (tp1_target_qty a))%Q;
  position_flat : flat_status (status a) = true → (dval (position_qty a) == 0)%Q;
  position_exposed : flat_status (status a) = false → vacuum_status (status a) = false →
    (0 < dval (position_qty a))%Q
}.

Lemma existsb_tp_pos (l : list Decimal) q :
  Forall (λ q, (0 < dval q)%Q) l → l = [q] → (0 <= dval q)%Q.
Proof. intros H ->. apply Forall_cons in H as [H _]. lra. Qed.

Lemma tp_quantities_pos a q :
  ticket_facts (ticket a) → tp_quantities a = [q] → (0 <= dval q)%Q.
Proof.
  intros Ht. unfold tp_quantities. destruct (tp1_target_qty a >? d0)%dec eqn:E.
  - intros [= <-]. apply dltb_spec in E. rewrite dval_d0 in E. lra.
  - apply existsb_tp_pos, Ht.
Qed.

(** The quantities a constructed vacuum event carries. *)
Definition vacuum_quantities_pos (b : EventBody) : Prop :=
  match b with
  | VacuumLateFillAttributed _ _ _ _ q p _ _ _ => (0 < dval q)%Q ∧ (0 < dval p)%Q
  | VacuumPartialRetained _ _ _ q p _ tp1 runner _ =>
      (0 < dval q)%Q ∧ (0 < dval p)%Q ∧ (0 < dval tp1)%Q ∧ (0 < dval runner)%Q
  | VacuumPartialFlattenRequired _ q p _ => (0 < dval q)%Q ∧ (0 < dval p)%Q
  | _ => True
  end.

Lemma constructed_quantities e : constructed e → vacuum_quantities_pos (ev_body e).
Proof.
  intros Hc%constructed_body. destruct (ev_body e); cbn [validate_body vacuum_quantities_pos] in *; try done.
  - apply validate_model_Ok in Hc. do 2 (apply Forall_cons in Hc as [? Hc]). cbn in *.
    by rewrite orb_false, !nonpositive_false in *.
  - run_ok Hc. apply validate_model_Ok in E. do 3 (apply Forall_cons in E as [? E]).
    cbn [fst] in *. rewrite nonpositive_false in *.
    assert (Hp := foldl_dmin_pos [_;_;_;_;_] _ H1).
    repeat (apply Forall_cons in Hp as [? Hp]). done.
  - apply validate_model_Ok in Hc. apply Forall_cons in Hc as [Hc _]. cbn in Hc.
    rewrite !orb_false, !nonpositive_false in Hc. tauto.
Qed.

Lemma step_quantity a e r :
  frame_inv a → quantity_inv a → constructed e → reduce_event (Some a) e = Ok r →
  quantity_inv (aggregate r).
Proof.
  intros [_ _ _ Ht Hfit _] [Q1 Q2 Q3 Q4 Q5 Q6] Hc H.
  pose proof (constructed_quantities e Hc) as Hq. pose proof (constructed_fits e Hc) as Hf.
  pose proof (ticket_quantity_pos _ Ht) as Htq.
  step_outcomes H; cbn in Hq, Hf; try discriminate Hf.
  all: split; read_fields; try assumption; try (intros; discriminate); intros.
  all: use_status a; cbn in *; unfold vacuum_lineage_differs in *; decimal_facts;
    destruct_and?; try lra.
  - by eapply tp_quantities_pos.
  - pose proof (dsub_le (position_qty a) filled_qty (position_qty a) Q3) as Hsub. lra.
  - apply dsub_fits.
Qed.

Lemma reachable_quantity a : reachable a → quantity_inv a.
Proof.
  apply reachable_invariant; clear a.
  - intros e r Hc H. apply issue_inv in H as (t & Hb & _ & ->).
    destruct Hc as [_ Ht Hf]. rewrite Hb in Ht, Hf. destruct Ht as [[Ht _ _ _]%ticket_facts_ok _].
    split; cbn; rewrite ?dval_d0; try lra; try done. by destruct (tk_leverage_change_required t).
  - intros a e r Ha IH. apply step_quantity; [by apply reachable_frame|done].
Qed.

(** ** Protection *)

(** An optional order identity that is not blank. *)
Definition named (o : option str) : Prop := ∀ s, o = Some s → blank s = false.

(** The active stop of the position: an identity and a positive price. *)
Definition stop_active (a : TradeAggregate) : Prop :=
  ∃ s p, active_stop_exchange_order_id a = Some s ∧ active_stop_price a = Some p ∧
         (0 < dval p)%Q.

Record protection_inv (a : TradeAggregate) : Prop := {
  tp1_named : named (tp1_exchange_order_id a);
  active_stop_named : named (active_stop_exchange_order_id a);
  initial_stop_named : named (initial_stop_exchange_order_id a);
  protected_none : active_stop_exchange_order_id a = None → (dval (protected_qty a) == 0)%Q;
  protected_exact : protected_status (status a) = true →
    (dval (protected_qty a) == dval (position_qty a))%Q;
  protected_covers : replacement_status (status a) = true →
    (dval (position_qty a) <= dval (protected_qty a))%Q;
  protected_stop : protected_status (status a) || replacement_status (status a) = true →
    stop_active a;
  replacement_terms : replacement_status (status a) = true →
    ∃ p w, pending_stop_price a = Some p ∧ pending_stop_watermark_ms a = Some w ∧ (0 < dval p)%Q
}.

Lemma named_None : named None.
Proof. done. Qed.
Lemma named_strip s : blank s = false → named (Some (strip s)).
Proof. intros H ? [= <-]. by rewrite blank_strip. Qed.
#[export] Hint Resolve named_None named_strip : branches.

(** The decimal operations stay folded while a goal is computed. *)
Arguments dval : simpl never.
Arguments blank : simpl never.

(** Use the invariants whose class hypothesis has been computed. *)
Ltac simplify_protection :=
  repeat match goal with
  | H : true = true → _ |- _ => specialize (H eq_refl)
  | H : false = true → _ |- _ => clear H
  | H : ∃ _, _ |- _ => destruct H
  | H : _ ∧ _ |- _ => destruct H
  | H : ?x = Some _, H' : context [?x] |- _ => rewrite H in H'
  end; simplify_eq/=; eauto 8; try lra.

Lemma step_protection a e r :
  frame_inv a → quantity_inv a → protection_inv a → constructed e →
  reduce_event (Some a) e = Ok r → protection_inv (aggregate r).
Proof.
  intros [_ _ _ Ht _ _] [Q1 _ Q3 Q4 _ _] [P1 P2 P3 P4 P5 P6 P7 P8] Hc H.
  pose proof (ticket_stop_pos _ Ht) as Hstop.
  step_outcomes H.
  all: split; unfold stop_active in *; read_fields; try assumption;
    try (intros; discriminate); auto with branches; intros.
  all: use_status a; cbn in *; unfold price_differs in *; decimal_facts; try lra; simplify_protection.
  - pose proof (dsub_le (position_qty a) filled_qty (position_qty a) Q3) as Hsub. lra.
  - decimal_facts. do 2 eexists. repeat split; lra.
  - decimal_facts. do 2 eexists. repeat split; lra.
Qed.

Lemma issue_protection e r :
  constructed e → reduce_event None e = Ok r → protection_inv (aggregate r).
Proof.
  intros Hc H. apply issue_inv in H as (t & Hb & _ & ->).
  split; cbn; try done; intros; try apply named_None; try apply dval_d0;
    destruct (tk_leverage_change_required t); discriminate.
Qed.

Lemma reachable_protection a : reachable a → protection_inv a.
Proof.
  apply reachable_invariant; clear a; [apply issue_protection|].
  intros a e r Ha IH. apply step_protection; [by apply reachable_frame|by apply reachable_quantity|done].
Qed.

(** ** The ledger: lane, capital and ENTRY effects of a history *)

Definition releases_lane (f : KernelEffect) : bool :=
  match f with ReleaseEntryLane _ => true | _ => false end.
Definition releases_capital (f : KernelEffect) : bool :=
  match f with ReleaseBudget _ | ReleaseCapitalAuthorities _ _ _ _ _ _ _ => true | _ => false end.
Definition prepares_entry (f : KernelEffect) : bool :=
  match f with PrepareEntryCommand _ _ => true | _ => false end.

(** How many effects of a list satisfy a test. *)
Fixpoint count (f : KernelEffect → bool) (l : list KernelEffect) : nat :=
  match l with
  | [] => 0%nat
  | x :: l => (Nat.b2n (f x) + count f l)%nat
  end.

Lemma count_app f l1 l2 : count f (l1 ++ l2) = (count f l1 + count f l2)%nat.
Proof. induction l1 as [|x l1 IH]; cbn; [done|]. rewrite IH. lia. Qed.

Definition lane_inv (a : TradeAggregate) : Prop :=
  lane_status (status a) = true → entry_lane_held a = true.

Lemma step_lane a e r :
  lane_inv a → reduce_event (Some a) e = Ok r →
  lane_inv (aggregate r) ∧
  (count releases_lane (effects r) + Nat.b2n (entry_lane_held (aggregate r)))%nat
    = Nat.b2n (entry_lane_held a).
Proof.
  intros Ha H. unfold lane_inv in *. step_outcomes H.
  all: split; read_fields; try (intros; discriminate); intros.
  all: use_status a; cbn in *; try done; try (by apply Ha); try (by rewrite Ha);
    by match goal with B : entry_lane_held _ = _ |- _ => rewrite B end.
Qed.

Lemma step_capital a e r :
  reduce_event (Some a) e = Ok r →
  (count releases_capital (effects r) + Nat.b2n (released_status (status a)))%nat
    = Nat.b2n (released_status (status (aggregate r))).
Proof.
  intros H. step_outcomes H.
  all: use_status a; cbn in *; try done.
Qed.

Lemma step_entry a e r :
  reduce_event (Some a) e = Ok r →
  (unsent_status (status (aggregate r)) = true → unsent_status (status a) = true) ∧
  (count prepares_entry (effects r) +
     Nat.b2n (unsent_status (status (aggregate r))) <= Nat.b2n (unsent_status (status a)))%nat.
Proof.
  intros H. step_outcomes H.
  all: use_status a; cbn in *; try done; try (split; [done|lia]).
Qed.

(** The closed books of a history. *)
Record ledger_inv (a : TradeAggregate) (effs : list KernelEffect) : Prop := {
  ledger_lane_status : lane_inv a;
  ledger_lane : (count releases_lane effs + Nat.b2n (entry_lane_held a) = 1)%nat;
  ledger_capital : count releases_capital effs = Nat.b2n (released_status (status a));
  ledger_entry : (count prepares_entry effs + Nat.b2n (unsent_status (status a)) <= 1)%nat
}.

Lemma history_ledger es a effs : history es a effs → ledger_inv a effs.
Proof.
  induction 1 as [e r Hc H|es a effs e r _ IH Hc H].
  - apply issue_inv in H as (t & _ & _ & ->).
    destruct (tk_leverage_change_required t) eqn:E; split; cbn; rewrite ?E; cbn; done || lia.
  - destruct IH as [L1 L2 L3 L4]. destruct (step_lane _ _ _ L1 H) as [L1' L2'].
    pose proof (step_capital _ _ _ H) as L3'. destruct (step_entry _ _ _ H) as [_ L4'].
    split; [done|..]; rewrite count_app; lia.
Qed.

Lemma history_reachable es a effs : history es a effs → reachable a.
Proof. intros H. by exists es, effs. Qed.

Lemma reachable_lane a : reachable a → lane_inv a.
Proof. intros (es & effs & H). eapply ledger_lane_status, history_ledger, H. Qed.

(** ** Closure *)

Lemma known_cleanup_elem a x :
  x ∈ known_cleanup_order_ids a ↔
  tp1_exchange_order_id a = Some x ∨ active_stop_exchange_order_id a = Some x ∨
  initial_stop_exchange_order_id a = Some x.
Proof.
  unfold known_cleanup_order_ids.
  assert (Hgen : ∀ l acc, x ∈ foldl (λ identities o,
      match o with
      | Some i => if bool_decide (i ∈ identities) then identities else identities ++ [i]
      | None => identities
      end) acc l ↔ x ∈ acc ∨ Some x ∈ l).
  { induction l as [|[i|] l IH]; intros acc; cbn; rewrite ?IH, ?elem_of_cons.
    - rewrite elem_of_nil. tauto.
    - case_bool_decide; [|rewrite elem_of_app, list_elem_of_singleton]; naive_solver.
    - naive_solver. }
  rewrite Hgen, !elem_of_cons, !elem_of_nil. naive_solver.
Qed.

Lemma known_cleanup_nil a :
  known_cleanup_order_ids a = [] ↔
  tp1_exchange_order_id a = None ∧ active_stop_exchange_order_id a = None ∧
  initial_stop_exchange_order_id a = None.
Proof.
  split.
  - intros H. assert (Hn : ∀ x, x ∉ known_cleanup_order_ids a).
    { intros x. rewrite H. apply not_elem_of_nil. }
    setoid_rewrite known_cleanup_elem in Hn.
    repeat split; apply eq_None_not_Some; intros [x Hx]; apply (Hn x); tauto.
  - intros (H1 & H2 & H3). unfold known_cleanup_order_ids. by rewrite H1, H2, H3.
Qed.

(** Nothing of the episode remains on the venue. *)
Record clean (a : TradeAggregate) : Prop := {
  clean_orders : known_cleanup_order_ids a = [];
  clean_protection : (dval (protected_qty a) == 0)%Q;
  clean_cancel : pending_cancel_exchange_order_id a = None
}.

Lemma step_clean a e r :
  (settled_status (status a) = true → clean a) → reduce_event (Some a) e = Ok r →
  settled_status (status (aggregate r)) = true → clean (aggregate r).
Proof.
  intros Ha H. step_outcomes H.
  all: try (intros; discriminate); intros _; use_status a.
  all: try (by destruct (Ha eq_refl) as [C1 C2 C3]; split).
  decimal_facts. apply Nat.eqb_eq, nil_length_inv in G0. apply is_none_true in G2. by split.
Qed.

Lemma reachable_clean a : reachable a → settled_status (status a) = true → clean a.
Proof.
  revert a. apply (reachable_invariant (λ a, settled_status (status a) = true → clean a)).
  - intros e r Hc H. apply issue_inv in H as (t & _ & _ & ->). cbn.
    by destruct (tk_leverage_change_required t).
  - intros a e r _ Ha _ H. by eapply step_clean.
Qed.
