(* ===== verification/LifecycleSpec.v ===== *)
(** * The abstract lifecycle and its refinement

    The contract of the kernel without its retries, orders and prices: the
    phases of one exposure episode, in order.  Every accepted event is a step
    of the abstract machine ([step_phase]).

    Then liveness: from which phases an episode can be closed, and by which
    events. *)

From Stdlib Require Import QArith Lqa.
From S2P Require Import Prelude PyString PyDecimal DecimalFacts Identities Ticket PostFillRisk.
From S2P Require Import CrossMarginStress Commands VenueTruth VacuumLateFill Events Aggregate.
From S2P Require Import Reducer Lifecycle LifecycleInvariants.
#[local] Open Scope Z_scope.

Inductive Phase :=
  | Arming        (** leverage is being set; no ENTRY order exists *)
  | Entering      (** the ENTRY order may exist; no exposure is known *)
  | Withdrawing   (** the ENTRY order is being withdrawn *)
  | PartialIncident (** an unsupported partial fill *)
  | Protecting    (** exposure exists; its initial stop is requested *)
  | Protected     (** a confirmed stop covers the exposure *)
  | Exiting       (** the exposure is being closed *)
  | Reconciling   (** flat; owned orders are being removed *)
  | Settling
  | Reviewing
  | Closed
  | Abandoned.    (** the ENTRY ended without exposure *)

#[export] Instance Phase_eq_dec : EqDecision Phase.
Proof. solve_decision. Defined.

Definition phase_of (s : AggregateStatus) : Phase :=
  match s with
  | LEVERAGE_PENDING | LEVERAGE_OUTCOME_UNKNOWN => Arming
  | LEVERAGE_CONFIRMED | ENTRY_PENDING | ENTRY_ACCEPTED | ENTRY_OUTCOME_UNKNOWN => Entering
  | ENTRY_VACUUM_CANCEL_PENDING | ENTRY_VACUUM_CANCEL_REJECTED
  | ENTRY_VACUUM_CANCEL_OUTCOME_UNKNOWN | ENTRY_VACUUM_CANCELLED => Withdrawing
  | PARTIAL_FILL_INCIDENT | PARTIAL_FILL_CANCEL_REJECTED
  | PARTIAL_FILL_CANCEL_OUTCOME_UNKNOWN => PartialIncident
  | PROTECTION_PENDING | INITIAL_STOP_OUTCOME_UNKNOWN => Protecting
  | POST_FILL_RISK_PENDING | TP1_PENDING | TP1_REJECTED | TP1_OUTCOME_UNKNOWN
  | POSITION_PROTECTED | RUNNER_REPLACEMENT_PENDING | RUNNER_REPLACEMENT_REJECTED
  | RUNNER_REPLACEMENT_OUTCOME_UNKNOWN | RUNNER_OLD_STOP_CANCEL_PENDING
  | RUNNER_OLD_STOP_CANCEL_REJECTED | RUNNER_OLD_STOP_CANCEL_OUTCOME_UNKNOWN
  | RUNNER_PROTECTED => Protected
  | EXIT_PENDING | EXIT_ACCEPTED | EXIT_REJECTED | EXIT_OUTCOME_UNKNOWN
  | CONTROLLED_FLATTEN_PENDING | CONTROLLED_FLATTEN_ACCEPTED | CONTROLLED_FLATTEN_REJECTED
  | CONTROLLED_FLATTEN_OUTCOME_UNKNOWN => Exiting
  | RECONCILIATION_PENDING | CANCEL_REJECTED | CANCEL_OUTCOME_UNKNOWN => Reconciling
  | SETTLEMENT_PENDING => Settling
  | REVIEW_PENDING => Reviewing
  | TERMINAL => Closed
  | LEVERAGE_REJECTED | ENTRY_REJECTED | ENTRY_RECONCILED_ABSENT => Abandoned
  end.

(** A phase in which the episode can pause while events arrive. *)
Definition dwells (p : Phase) : bool :=
  match p with Settling | Reviewing | Abandoned => false | _ => true end.

(** The edges of the abstract machine. *)
Inductive phase_step : Phase → Phase → Prop :=
  | phase_stay p : dwells p = true → phase_step p p
  | phase_arm : phase_step Arming Entering
  | phase_abandon p : p ∈ [Arming; Entering; Withdrawing] → phase_step p Abandoned
  | phase_withdraw : phase_step Entering Withdrawing
  | phase_partial : phase_step Entering PartialIncident
  | phase_fill p : p ∈ [Entering; Withdrawing] → phase_step p Protecting
  | phase_protect : phase_step Protecting Protected
  | phase_exit p : p ∈ [Entering; Withdrawing; PartialIncident; Protecting; Protected] →
      phase_step p Exiting
  | phase_flat p : p ∈ [Protected; Exiting] → phase_step p Reconciling
  | phase_match : phase_step Reconciling Settling
  | phase_settle : phase_step Settling Reviewing
  | phase_review : phase_step Reviewing Closed.

Definition phase_rank (p : Phase) : nat :=
  match p with
  | Arming => 0 | Entering => 1 | Withdrawing => 2 | PartialIncident => 2 | Protecting => 3
  | Protected => 4 | Exiting => 5 | Reconciling => 6 | Settling => 7 | Reviewing => 8
  | Closed => 9 | Abandoned => 9
  end.

Lemma phase_step_rank p q : phase_step p q → p = q ∨ (phase_rank p < phase_rank q)%nat.
Proof.
  destruct 1 as [p Hp| |p Hp| | |p Hp| |p Hp|p Hp| | |]; try (by left); right; cbn; try lia;
    repeat (apply elem_of_cons in Hp as [->|Hp]; [cbn; lia|]);
    by apply not_elem_of_nil in Hp.
Qed.

Lemma step_phase a e r :
  reduce_event (Some a) e = Ok r → phase_step (phase_of (status a)) (phase_of (status (aggregate r))).
Proof.
  intros H. step_outcomes H.
  all: use_status a; cbn [phase_of].
  all: first [by apply phase_stay | constructor; repeat constructor | idtac].
Qed.

(** ** The runner's floor

    [at_floor side p f]: a stop at [p] is at or beyond the floor [f]. *)
Definition at_floor (side : PositionSide) (p f : Decimal) : Prop :=
  match side with
  | long => (dval f <= dval p)%Q
  | short => (dval p <= dval f)%Q
  end.

Definition position_side (a : TradeAggregate) : PositionSide :=
  nd_position_side (ti_netting_domain (identity a)).

(** A stop in force or requested respects the break-even floor. *)
Definition respects_floor (a : TradeAggregate) (price : option Decimal) : Prop :=
  ∃ p f, price = Some p ∧ break_even_floor_price a = Some f ∧ at_floor (position_side a) p f.

Record runner_inv (a : TradeAggregate) : Prop := {
  runner_installed : installed_status (status a) = true → respects_floor a (active_stop_price a);
  runner_requested : replacement_status (status a) = true →
    respects_floor a (pending_stop_price a)
}.

Lemma at_floor_refl side f : at_floor side f f.
Proof. destruct side; cbn; lra. Qed.

Lemma at_floor_eq side p q f :
  (dval p == dval q)%Q → at_floor side q f → at_floor side p f.
Proof. destruct side; cbn; lra. Qed.

Lemma stop_improves_floor side new old f :
  stop_improves side new old = true → at_floor side old f → at_floor side new f.
Proof. destruct side; cbn; rewrite dltb_spec; lra. Qed.

Lemma step_runner a e r :
  frame_inv a → runner_inv a → reduce_event (Some a) e = Ok r → runner_inv (aggregate r).
Proof.
  intros Hf [R1 R2] H. step_outcomes H.
  all: split; unfold respects_floor, position_side in *; read_fields; try (intros; discriminate);
    try assumption; intros.
  all: use_status a; cbn in *; unfold price_differs in *; decimal_facts.
  all: repeat match goal with
    | P : true = true → _ |- _ => specialize (P eq_refl)
    | P : false = true → _ |- _ => clear P
    end; destruct_and?; try done.
  - do 2 eexists. split_and!; [done..|apply at_floor_refl].
  - destruct R1 as (p & f & Hp & Hf' & Hpf). do 2 eexists. split_and!; [done..|].
    simplify_eq. by eapply stop_improves_floor.
  - destruct R2 as (p & f & Hp & Hf' & Hpf). do 2 eexists. split_and!; [done..|].
    rewrite Hp in *. decimal_facts. by eapply at_floor_eq.
  - destruct R2 as (p & f & Hp & Hf' & Hpf). do 2 eexists. split_and!; [done..|].
    rewrite Hp in *. decimal_facts. by eapply at_floor_eq.
Qed.

Lemma reachable_runner a : reachable a → runner_inv a.
Proof.
  apply reachable_invariant; clear a.
  - intros e r Hc H. apply issue_inv in H as (t & _ & _ & ->).
    split; cbn; by destruct (tk_leverage_change_required t).
  - intros a e r Ha IH _. apply step_runner; [by apply reachable_frame|done].
Qed.

(** ** The runner's stop only improves *)

(** A runner stop has been installed once. *)
Definition runner_started (a : TradeAggregate) : bool := negb (is_none (runner_stop_watermark_ms a)).

(** The runner leg, and everything after it. *)
Definition runner_leg (s : AggregateStatus) : bool :=
  replacement_status s || installed_status s || bool_decide (4 < phase_rank (phase_of s))%nat.

Record improvement_inv (a : TradeAggregate) : Prop := {
  started_late : runner_started a = true → runner_leg (status a) = true;
  started_request : runner_started a = true → replacement_status (status a) = true →
    ∃ p q, pending_stop_price a = Some p ∧ active_stop_price a = Some q ∧
           stop_improves (position_side a) p q = true
}.

Lemma step_improvement a e r :
  improvement_inv a → reduce_event (Some a) e = Ok r → improvement_inv (aggregate r).
Proof.
  intros [I1 I2] H. step_outcomes H.
  all: split; unfold runner_started, position_side in *; read_fields; try assumption;
    try (intros; reflexivity); try (intros; discriminate); intros.
  all: use_status a; cbn in *; try (specialize (I1 ltac:(assumption))); try discriminate.
  all: try (by apply I2); try (by eauto).
  do 2 eexists. split_and!; [done..|]. by apply negb_false.
Qed.

Lemma reachable_improvement a : reachable a → improvement_inv a.
Proof.
  apply reachable_invariant; clear a.
  - intros e r Hc H. apply issue_inv in H as (t & _ & _ & ->).
    split; cbn; by destruct (tk_leverage_change_required t).
  - intros a e r Ha IH _. by apply step_improvement.
Qed.

Lemma stop_improves_at side p q : stop_improves side p q = true → at_floor side p q.
Proof. destruct side; cbn; rewrite dltb_spec; lra. Qed.

(** One event never weakens an installed runner stop. *)
Lemma step_stop_monotone a e r p q :
  improvement_inv a → reduce_event (Some a) e = Ok r → runner_started a = true →
  active_stop_price a = Some p → active_stop_price (aggregate r) = Some q →
  at_floor (position_side a) q p.
Proof.
  intros [I1 I2] H Hst Hp. specialize (I1 Hst). step_outcomes H; intros Hq; simplify_eq/=;
    try apply at_floor_refl; use_status a; cbn in *; try discriminate.
  all: destruct (I2 Hst eq_refl) as (p' & q' & Hp' & Hq' & Hi); simplify_eq;
    unfold price_differs in *; rewrite Hp' in *; decimal_facts;
    eapply at_floor_eq, stop_improves_at; eassumption.
Qed.

(** ** The event log *)

Lemma history_log es a effs :
  history es a effs →
  ev_sequence <$> es = seqZ 1 (last_event_sequence a) ∧
  last_event_sequence a = Z.of_nat (length es) ∧
  head (ev_body <$> es) = Some (TicketIssued (ticket a)) ∧
  Forall (λ e, ev_ticket_id e = tid a) (tail es).
Proof.
  induction 1 as [e r Hc H|es a effs e r Hh (IH1 & IH2 & IH3 & IH4) Hc H].
  - apply issue_inv in H as (t & Hb & Hs & ->). cbn. rewrite Hb, Hs. split_and!; done || constructor.
  - pose proof (step_frame _ _ _ H) as (Hi & Ht & Hv & Hl).
    apply reduce_event_Some in H as (_ & Hid & Hseq & _).
    assert (Hn : (0 < length es)%nat) by (destruct es; [done|cbn; lia]).
    rewrite fmap_app, IH1, Hl, length_app, Ht. cbn. rewrite Hseq.
    split_and!.
    + rewrite (seqZ_app 1 (last_event_sequence a) 1) by lia. f_equal. unfold seqZ.
      replace (seq 0 (Z.to_nat 1)) with [0%nat] by done. cbn [fmap list_fmap]. f_equal. lia.
    + lia.
    + destruct es; [cbn in Hn; lia|]. done.
    + destruct es; [cbn in Hn; lia|]. cbn in *. apply Forall_app. unfold tid. rewrite Hi.
      split; [done|]. by repeat constructor.
Qed.

(** The Ticket an effect speaks about. *)
Definition effect_ticket_id (f : KernelEffect) : str :=
  match f with
  | PrepareEntryCommand t _ | PrepareSetLeverageCommand t => ti_ticket_id (tk_identity t)
  | PrepareInitialStopCommand i _ _ | PrepareTakeProfitCommand i _ _
  | PrepareProtectionReplacementCommand i _ _ _ _ | PrepareExitCommand i _ _
  | CancelEntryRemainder i | CancelVacuumEntryOrder i _ _ | RequestControlledFlatten i _
  | PrepareControlledFlattenCommand i _ | CancelProtectionOrders i _ _ _
  | MarkCancelCommandReconciledAbsent i _ | OpenIncident i _ | ResolveIncident i _
  | ResolveTicketIncidentsAtClosure i | ReleaseEntryLane i
  | ReleaseCapitalAuthorities i _ _ _ _ _ _ | ReleaseBudget i | ProjectTerminalOwnerState i => i
  end.

(** The exposure an effect orders to be opened, protected or closed. *)
Definition effect_quantity (f : KernelEffect) : option Decimal :=
  match f with
  | PrepareInitialStopCommand _ q _ | PrepareProtectionReplacementCommand _ q _ _ _
  | PrepareExitCommand _ q _ | RequestControlledFlatten _ q
  | PrepareControlledFlattenCommand _ q => Some q
  | _ => None
  end.

Lemma step_effects a e r :
  frame_inv a → reduce_event (Some a) e = Ok r →
  Forall (λ f, effect_ticket_id f = tid a ∧
               ∀ q, effect_quantity f = Some q →
                    (dval q == dval (position_qty (aggregate r)))%Q) (effects r).
Proof.
  intros Hf H. pose proof (frame_identity _ Hf) as Hi. step_outcomes H.
  all: repeat match goal with
    | |- context [if ?c then _ else _] => destruct c eqn:?
    end; cbn [app].
  all: unfold abandon_entry, cleanup_cancel;
    repeat (apply Forall_cons; split; [split; [cbn|intros q Hq]|]); try apply Forall_nil; try done.
  all: try (injection Hq as <-); try done; unfold tid in *; try (by rewrite Hi).
  all: by decimal_facts.
Qed.

(** ** Every episode can be closed

    [closes_within n a]: at most [n] further events take [a] to a final
    status.  Every reachable state that is not blocked has such a
    continuation; the blocked states accept no event at all. *)

(** The two ways an episode ends. *)
Definition final_status (s : AggregateStatus) : bool :=
  abandoned_status s || bool_decide (s = TERMINAL).

Fixpoint closes_within (n : nat) (a : TradeAggregate) : Prop :=
  final_status (status a) = true ∨
  match n with
  | O => False
  | S n => ∃ e r, constructed e ∧ reduce_event (Some a) e = Ok r ∧ closes_within n (aggregate r)
  end.

(** A partial fill whose remainder cannot be cancelled. *)
Definition blocked (a : TradeAggregate) : bool :=
  match status a with
  | PARTIAL_FILL_CANCEL_REJECTED => true
  | PARTIAL_FILL_INCIDENT => is_none (entry_exchange_order_id a)
  | _ => false
  end.

(** ** Order identities each waiting state holds *)

Definition known (o : option str) : Prop := ∃ s, o = Some s ∧ blank s = false.

Definition entry_order_status (s : AggregateStatus) : bool :=
  match s with
  | ENTRY_ACCEPTED | PARTIAL_FILL_CANCEL_OUTCOME_UNKNOWN => true
  | s => vacuum_status s
  end.
Definition cancel_status (s : AggregateStatus) : bool :=
  match s with
  | ENTRY_VACUUM_CANCEL_PENDING | ENTRY_VACUUM_CANCEL_REJECTED
  | ENTRY_VACUUM_CANCEL_OUTCOME_UNKNOWN | CANCEL_REJECTED | CANCEL_OUTCOME_UNKNOWN => true
  | _ => false
  end.

Definition entering_status (s : AggregateStatus) : bool :=
  match s with
  | LEVERAGE_PENDING | LEVERAGE_OUTCOME_UNKNOWN | LEVERAGE_CONFIRMED | ENTRY_PENDING
  | ENTRY_ACCEPTED | ENTRY_OUTCOME_UNKNOWN => true
  | _ => false
  end.

Record identity_inv (a : TradeAggregate) : Prop := {
  entry_named : named (entry_exchange_order_id a);
  cancel_named : named (pending_cancel_exchange_order_id a);
  entry_known : entry_order_status (status a) = true → is_Some (entry_exchange_order_id a);
  cancel_known : cancel_status (status a) = true → is_Some (pending_cancel_exchange_order_id a);
  vacuum_known : vacuum_status (status a) = true → known (entry_vacuum_id a);
  vacuum_absent : entering_status (status a) = true → entry_vacuum_id a = None;
  vacuum_price : status a = ENTRY_VACUUM_CANCELLED → (0 < dval (position_qty a))%Q →
    ∃ p, average_fill_price a = Some p ∧ (0 < dval p)%Q
}.

(** The identities and prices a constructed vacuum event carries. *)
Definition vacuum_identities (b : EventBody) : Prop :=
  match b with
  | EntryVacuumCancelRequested vac oid q p | EntryVacuumOrderAbsenceConfirmed vac oid q p =>
      blank vac = false ∧ blank oid = false ∧
      ((0 < dval q)%Q → ∃ v, p = Some v ∧ (0 < dval v)%Q)
  | VacuumLateFillAttributed _ _ _ _ _ p _ _ _ => (0 < dval p)%Q
  | _ => True
  end.

Lemma price_shape q p :
  opt_price_shape q p = false → opt_test nonpositive p = false → (0 < dval q)%Q →
  ∃ v, p = Some v ∧ (0 < dval v)%Q.
Proof.
  unfold opt_price_shape. intros H1 H2 Hq. apply negb_false, eqb_prop in H1.
  destruct p as [v|]; cbn in *.
  - exists v. split; [done|]. by apply nonpositive_false.
  - apply deqb_spec in H1. rewrite dval_d0 in H1. lra.
Qed.

Lemma constructed_vacuum e : constructed e → vacuum_identities (ev_body e).
Proof.
  intros Hc. pose proof (constructed_quantities e Hc) as Hq. apply constructed_body in Hc.
  destruct (ev_body e); cbn [validate_body vacuum_identities vacuum_quantities_pos] in *;
    try done; try tauto;
    apply validate_model_Ok in Hc; do 4 (apply Forall_cons in Hc as [? Hc]); cbn [fst] in *;
    match goal with B : blank _ || blank _ = false |- _ => apply orb_false in B as [? ?] end;
    split_and!; try done; by apply price_shape.
Qed.

Lemma next_cleanup_named a s :
  protection_inv a → next_cleanup_order_id a = Some s → named (Some s).
Proof.
  intros [P1 P2 P3 _ _ _ _ _] H. unfold next_cleanup_order_id in H.
  assert (Hs : s ∈ known_cleanup_order_ids a).
  { destruct (known_cleanup_order_ids a); simplify_eq/=. constructor. }
  apply known_cleanup_elem in Hs as [Hs|[Hs|Hs]]; by rewrite <- Hs.
Qed.

Lemma named_intro s : blank s = false → named (Some s).
Proof. by intros ? ? [= <-]. Qed.
Lemma known_intro s : blank s = false → known (Some s).
Proof. by exists s. Qed.

Lemma step_identity a e r :
  quantity_inv a → protection_inv a → identity_inv a → constructed e →
  reduce_event (Some a) e = Ok r → identity_inv (aggregate r).
Proof.
  intros [_ _ _ _ Q5 _] Hp [I1 I2 I3 I4 I5 I6 I7] Hc H.
  pose proof (constructed_vacuum e Hc) as Hv.
  step_outcomes H.
  all: split; read_fields; try assumption; try (intros; discriminate); auto with branches; intros.
  all: use_status a; cbn in *; try done; try (by auto); destruct_and?.
  all: first [by apply I6 | by apply named_intro | by apply known_intro
             | by eapply next_cleanup_named | by eauto].
Qed.

Lemma reachable_identity a : reachable a → identity_inv a.
Proof.
  apply reachable_invariant; clear a.
  - intros e r Hc H. apply issue_inv in H as (t & _ & _ & ->).
    split; cbn; try apply named_None; try done; destruct (tk_leverage_change_required t); done.
  - intros a e r Ha IH. apply step_identity; [by apply reachable_quantity|by apply reachable_protection|done].
Qed.

(** ** One more event *)

(** The next event of [a] with a given body. *)
Definition next_event (a : TradeAggregate) (b : EventBody) : TradeEvent :=
  mkEvent "event" (last_event_sequence a + 1) 1 (tid a) b.

Definition ordinary (b : EventBody) : Prop :=
  validate_body 1 b = Ok tt ∧ normalize_body b = b ∧ quantity_fits b = true ∧
  match b with TicketIssued _ => False | _ => True end.

Lemma next_event_constructed a b : frame_inv a → ordinary b → constructed (next_event a b).
Proof.
  intros [_ _ Hs _ _ [Ht1 Ht2]] (Hb & Hn & Hf & Hk). split; [|by destruct b|done].
  unfold validate_event, next_event; cbn [ev_body ev_event_id ev_sequence ev_occurred_at_ms ev_ticket_id].
  rewrite Hb, Hn, Ht1.
  assert (Hh : validate_fields
    ((blank "event", "event_id must be non-blank") ::
     header_checks (mkEvent "event" (last_event_sequence a + 1) 1 (tid a) b) ++
     match b with TicketIssued _ => [] | _ => [(blank (tid a), "ticket_id must be non-blank")] end)
    = Ok tt).
  { apply validate_fields_Ok. unfold header_checks. cbn [ev_body ev_sequence ev_occurred_at_ms].
    destruct b; try done; cbn [app]; repeat (apply Forall_cons; split; [cbn [fst]|]);
      try apply Forall_nil; try done; lia. }
  rewrite Hh. reflexivity.
Qed.

Lemma closes_by n a b r :
  reachable a → ordinary b → reduce_body a (next_event a b) = Ok r →
  (reachable (aggregate r) → closes_within n (aggregate r)) → closes_within (S n) a.
Proof.
  intros Ha Hb Hr Hn. right. exists (next_event a b), r.
  pose proof (next_event_constructed a b (reachable_frame a Ha) Hb) as Hc.
  assert (He : reduce_event (Some a) (next_event a b) = Ok r).
  { apply reduce_event_Some. cbn. destruct Hb as (_ & _ & _ & Hk). by destruct b. }
  split_and!; [done..|]. apply Hn. by eapply reachable_step.
Qed.

Lemma closes_mono n m a : (n <= m)%nat → closes_within n a → closes_within m a.
Proof.
  revert m a. induction n as [|n IH]; intros m a Hm.
  - intros [H|[]]. by destruct m; left.
  - intros [H|(e & r & Hc & Hr & H)]; [by destruct m; left|].
    destruct m as [|m]; [lia|]. right. exists e, r. split_and!; [done..|]. apply IH; [lia|done].
Qed.

Lemma closes_final n a : final_status (status a) = true → closes_within n a.
Proof. intros H. by destruct n; left. Qed.

(** Guards that pass. *)
Lemma require_status_pass a s : status a = s → require_status a s = Ok tt.
Proof. by rewrite require_status_Ok. Qed.
Lemma require_status_in_pass a l : bool_decide (status a ∈ l) = true → require_status_in a l = Ok tt.
Proof. rewrite require_status_in_Ok. apply bool_decide_eq_true_1. Qed.
Lemma require_text_pass s m : blank s = false → require_text s m = Ok tt.
Proof. by rewrite require_text_Ok. Qed.
Lemma require_order_id_pass o x m : x = Some o → require_order_id o x m = Ok tt.
Proof. by rewrite require_order_id_Ok. Qed.
Ltac pass Hs :=
  unfold reduce_body, next_event; cbn [ev_body]; autounfold with branches; cbv zeta;
  repeat (rewrite bind_pass;
    [| first [ by apply require_status_pass
             | apply require_status_in_pass; first [exact Hs | rewrite Hs; reflexivity]
             | by apply require_text_pass
             | by apply require_order_id_pass
             | apply raise_if_pass ]]);
  try reflexivity.

(** [close b]: append an event with body [b]. *)
Ltac close_with b Hs :=
  eapply (closes_by _ _ b); [assumption|split_and!; try done|pass Hs|].

(** ** Settlement and reconciliation *)

Lemma closes_settlement a : reachable a → status a = SETTLEMENT_PENDING → closes_within 2 a.
Proof.
  intros Ha Hs. close_with BudgetSettled Hs. intros Ha'.
  close_with (ReviewRecorded "review") Hs. intros _. by apply closes_final.
Qed.

Definition held {A} (o : option A) : nat := if is_none o then 0%nat else 1%nat.

(** How many order identities reconciliation still has to remove. *)
Definition owned_orders (a : TradeAggregate) : nat :=
  (held (tp1_exchange_order_id a) + held (active_stop_exchange_order_id a) +
   held (initial_stop_exchange_order_id a))%nat.

Lemma owned_orders_nil a : known_cleanup_order_ids a = [] → owned_orders a = 0%nat.
Proof. rewrite known_cleanup_nil. unfold owned_orders. by intros (-> & -> & ->). Qed.

Lemma owned_orders_zero a : owned_orders a = 0%nat → known_cleanup_order_ids a = [].
Proof.
  rewrite known_cleanup_nil. unfold owned_orders, held. intros H.
  by destruct (tp1_exchange_order_id a), (active_stop_exchange_order_id a),
    (initial_stop_exchange_order_id a); cbn in H; try lia.
Qed.

Lemma owned_orders_bound a : (owned_orders a <= 3)%nat.
Proof. unfold owned_orders, held. repeat case_match; lia. Qed.

(** The aggregate a cleanup event produces. *)
Definition after_cleanup (a : TradeAggregate) (e : TradeEvent) (x : str) : TradeAggregate :=
  model_copy (set_last_event_sequence (ev_sequence e)
    (set_version (version a + 1) (set_status RECONCILIATION_PENDING a)))
    (clear_cleanup_order a x).

Lemma after_cleanup_facts a e x :
  status (after_cleanup a e x) = RECONCILIATION_PENDING ∧
  pending_cancel_exchange_order_id (after_cleanup a e x) = None ∧
  (owned_orders (after_cleanup a e x) <= owned_orders a)%nat ∧
  (x ∈ known_cleanup_order_ids a → (owned_orders (after_cleanup a e x) < owned_orders a)%nat).
Proof.
  rewrite known_cleanup_elem. unfold after_cleanup, clear_cleanup_order, owned_orders.
  split_updates; read_fields; unfold held;
    repeat match goal with E : Some x = _ |- _ => rewrite <- E end; cbn;
    split_and!; try done; try (repeat case_match; lia);
    intros [?|[?|?]]; try (by symmetry in H); repeat case_match; try lia; congruence.
Qed.

Lemma closes_matched a :
  reachable a → status a = RECONCILIATION_PENDING → known_cleanup_order_ids a = [] →
  pending_cancel_exchange_order_id a = None → closes_within 3 a.
Proof.
  intros Ha Hs Hk Hp. close_with (ReconciliationMatched None) Hs.
  - by rewrite Hp.
  - apply negb_false, deqb_spec. rewrite dval_d0.
    apply (protected_none _ (reachable_protection a Ha)).
    by apply known_cleanup_nil in Hk as (_ & Hk & _).
  - by rewrite Hk.
  - intros Ha'. by apply closes_settlement.
Qed.

Lemma closes_reconciliation n a :
  reachable a → status a = RECONCILIATION_PENDING → (owned_orders a <= n)%nat →
  closes_within (n + 4) a.
Proof.
  revert a. induction n as [n IH] using lt_wf_ind. intros a Ha Hs Hn.
  destruct (known_cleanup_order_ids a) as [|x l] eqn:Hk.
  - destruct (pending_cancel_exchange_order_id a) as [x|] eqn:Hp.
    + apply closes_mono with 4%nat; [lia|].
      pose proof (cancel_named _ (reachable_identity a Ha) x Hp) as Hx.
      destruct (after_cleanup_facts a (next_event a (OwnedOrphanCancelConfirmed x)) x)
        as (H1 & H2 & H3 & _).
      close_with (OwnedOrphanCancelConfirmed x) Hs. intros Ha'.
      apply closes_matched; [exact Ha'|exact H1| |exact H2].
      rewrite (owned_orders_nil a Hk) in H3. apply owned_orders_zero.
      by apply Nat.le_0_r.
    + apply closes_mono with 3%nat; [lia|]. by apply closes_matched.
  - assert (Hx : x ∈ known_cleanup_order_ids a) by (rewrite Hk; constructor).
    destruct (after_cleanup_facts a (next_event a (OwnedOrderAbsenceConfirmed x)) x)
      as (H1 & _ & _ & H4). specialize (H4 Hx).
    apply closes_mono with (S ((n - 1) + 4)); [lia|].
    close_with (OwnedOrderAbsenceConfirmed x) Hs.
    + by apply negb_false, bool_decide_eq_true_2.
    + apply known_cleanup_elem in Hx. pose proof (reachable_protection a Ha) as [N1 N2 N3 _ _ _ _ _].
      destruct Hx as [Hx|[Hx|Hx]]; [by apply N1|by apply N2|by apply N3].
    + intros Ha'. apply IH; [lia|exact Ha'|exact H1|].
      by eapply Nat.lt_le_pred in H4; rewrite <- Nat.sub_1_r in H4; eapply Nat.le_trans; [exact H4|lia].
Qed.

(** ** Every other phase *)

Lemma closes_reconciling a : reachable a → status a = RECONCILIATION_PENDING → closes_within 7 a.
Proof. intros Ha Hs. apply (closes_reconciliation 3); [done..|apply owned_orders_bound]. Qed.

Lemma closes_cancel a :
  reachable a → status a = CANCEL_REJECTED ∨ status a = CANCEL_OUTCOME_UNKNOWN → closes_within 8 a.
Proof.
  intros Ha Hs.
  destruct (cancel_known _ (reachable_identity a Ha)) as [x Hx]; [by destruct Hs as [-> | ->]|].
  destruct (after_cleanup_facts a (next_event a (CancelOrderAbsenceConfirmed x)) x) as (H1 & _).
  destruct Hs as [Hs|Hs]; close_with (CancelOrderAbsenceConfirmed x) Hs; intros Ha';
    by apply closes_reconciling.
Qed.

Definition exiting_status (s : AggregateStatus) : bool :=
  match s with
  | EXIT_PENDING | EXIT_ACCEPTED | EXIT_REJECTED | EXIT_OUTCOME_UNKNOWN
  | CONTROLLED_FLATTEN_PENDING | CONTROLLED_FLATTEN_ACCEPTED | CONTROLLED_FLATTEN_REJECTED
  | CONTROLLED_FLATTEN_OUTCOME_UNKNOWN => true
  | _ => false
  end.

Lemma closes_exiting a : reachable a → exiting_status (status a) = true → closes_within 8 a.
Proof.
  intros Ha Hs. eapply (closes_by _ _ PositionFlatConfirmed); [done|done| |].
  - unfold reduce_body, next_event; cbn [ev_body]. autounfold with branches.
    rewrite bind_pass; [reflexivity|]. apply require_status_in_pass. by destruct (status a).
  - cbn [aggregate]. intros Ha'. apply closes_reconciling; [done|].
    by destruct (next_cleanup_order_id a), (entry_lane_held a).
Qed.

Lemma closes_protected a :
  reachable a → protected_status (status a) || replacement_status (status a) = true →
  status a ≠ POST_FILL_RISK_PENDING → closes_within 8 a.
Proof.
  intros Ha Hs Hn. destruct (protected_stop _ (reachable_protection a Ha) Hs) as (s & p & Hs1 & _).
  assert (Hx : ∃ x, next_cleanup_order_id a = Some x).
  { unfold next_cleanup_order_id. destruct (known_cleanup_order_ids a) as [|x l] eqn:Hk; [|by exists x].
    apply known_cleanup_nil in Hk as (_ & Hk & _). congruence. }
  destruct Hx as [x Hx].
  eapply (closes_by _ _ ExternalFlatDetected); [done|done| |].
  - unfold reduce_body, next_event; cbn [ev_body]. autounfold with branches.
    rewrite bind_pass; [by rewrite Hx|]. apply require_status_in_pass. by destruct (status a).
  - intros Ha'. by apply closes_reconciling.
Qed.

Lemma closes_stress a : reachable a → status a = POST_FILL_RISK_PENDING → closes_within 9 a.
Proof.
  intros Ha Hs. close_with (TakeProfitConfirmed "order" (tp1_target_qty a)) Hs.
  - by apply negb_false, deqb_spec.
  - intros Ha'. by apply closes_protected.
Qed.

Lemma closes_protecting a :
  reachable a → status a = PROTECTION_PENDING ∨ status a = INITIAL_STOP_OUTCOME_UNKNOWN →
  closes_within 9 a.
Proof.
  intros Ha [Hs|Hs]; destruct (vacuum_partial_retained a) eqn:Hv;
    [close_with (InitialStopRejected "reason") Hs|close_with (InitialStopRejected "reason") Hs|
     close_with (InitialStopAbsenceConfirmed "command") Hs|
     close_with (InitialStopAbsenceConfirmed "command") Hs];
    try (rewrite Hv; reflexivity); intros Ha'; by apply closes_exiting.
Qed.

Lemma closes_partial a :
  reachable a → blocked a = false →
  status a = PARTIAL_FILL_INCIDENT ∨ status a = PARTIAL_FILL_CANCEL_OUTCOME_UNKNOWN →
  closes_within 9 a.
Proof.
  intros Ha Hb Hs.
  assert (Hx : is_Some (entry_exchange_order_id a)).
  { destruct Hs as [Hs|Hs].
    - unfold blocked in Hb. rewrite Hs in Hb. by destruct (entry_exchange_order_id a).
    - apply (entry_known _ (reachable_identity a Ha)). by rewrite Hs. }
  destruct Hx as [x Hx]. destruct Hs as [Hs|Hs]; close_with (EntryRemainderCancelConfirmed x) Hs;
    intros Ha'; by apply closes_exiting.
Qed.

(** ** The ENTRY order *)

Lemma closes_cancelled a : reachable a → status a = ENTRY_VACUUM_CANCELLED → closes_within 9 a.
Proof.
  intros Ha Hs. pose proof (reachable_identity a Ha) as Hi. pose proof (reachable_quantity a Ha) as Hq.
  destruct (vacuum_known _ Hi) as (v & Hv & Hvb); [by rewrite Hs|].
  destruct (position_qty a =? d0)%dec eqn:Hz.
  - close_with (EntryVacuumAbsenceConfirmed v) Hs.
    + by rewrite Hz.
    + intros _. by apply closes_final.
  - apply deqb_false in Hz. rewrite dval_d0 in Hz. pose proof (position_nonneg _ Hq) as Hn.
    assert (Hpos : (0 < dval (position_qty a))%Q) by (apply Qle_lteq in Hn as [?|E]; [done|by rewrite <- E in Hz]).
    destruct (vacuum_price _ Hi Hs Hpos) as (p & Hp & Hpp).
    close_with (VacuumPartialFlattenRequired v (position_qty a) p "reason") Hs.
    + cbn [validate_body validate_model]. apply nonpositive_false in Hpos, Hpp.
      by rewrite Hvb, Hpos, Hpp.
    + rewrite !orb_false. split_and!.
      * by apply negb_false, bool_decide_eq_true_2.
      * by apply negb_false, deqb_spec.
      * rewrite Hp. by apply negb_false, deqb_spec.
    + intros Ha'. by apply closes_exiting.
Qed.

(** An ENTRY order known to be absent without a fill. *)
Lemma closes_absent a v x :
  reachable a → bool_decide (status a ∈
    [ENTRY_ACCEPTED; ENTRY_VACUUM_CANCEL_PENDING; ENTRY_VACUUM_CANCEL_REJECTED]) = true →
  entry_exchange_order_id a = Some x → blank v = false →
  is_none (entry_vacuum_id a) || bool_decide (Some v = entry_vacuum_id a) = true →
  closes_within 10 a.
Proof.
  intros Ha Hs Hx Hv Hl. pose proof (ticket_quantity_pos _ (frame_ticket _ (reachable_frame a Ha))) as Ht.
  pose proof (entry_named _ (reachable_identity a Ha) x Hx) as Hxb.
  close_with (EntryVacuumOrderAbsenceConfirmed v x d0 None) Hs.
  - cbn [validate_body validate_model]. by rewrite Hv, Hxb.
  - by rewrite <- negb_orb, Hl.
  - apply negb_false, andb_true. split; apply dleb_spec; rewrite dval_d0; [done|].
    by apply Qlt_le_weak.
  - intros Ha'. by apply closes_cancelled.
Qed.

Lemma closes_withdrawing a :
  reachable a → vacuum_status (status a) = true → closes_within 11 a.
Proof.
  intros Ha Hs. pose proof (reachable_identity a Ha) as Hi.
  destruct (vacuum_known _ Hi Hs) as (v & Hv & Hvb).
  destruct (entry_known _ Hi) as [x Hx]; [by destruct (status a)|].
  destruct (status a) eqn:E; try discriminate.
  1, 2: apply closes_mono with 10%nat; [lia|];
    apply (closes_absent a v x); rewrite ?E; try done;
    rewrite orb_true_iff; right; by apply bool_decide_eq_true_2.
  - destruct (cancel_known _ Hi) as [y Hy]; [by rewrite E|].
    close_with (EntryVacuumCancelConfirmed y) E. intros Ha'.
    apply (closes_absent _ v x); try done; read_fields.
    rewrite orb_true_iff; right; by apply bool_decide_eq_true_2.
  - apply closes_mono with 9%nat; [lia|]. by apply closes_cancelled.
Qed.

Lemma closes_entering a : reachable a → entering_status (status a) = true → closes_within 11 a.
Proof.
  intros Ha Hs. pose proof (reachable_identity a Ha) as Hi.
  pose proof (vacuum_absent _ Hi Hs) as Hv.
  destruct (status a) eqn:E; try discriminate.
  1, 3: close_with (LeverageRejected "reason") E; intros _; by apply closes_final.
  1, 2: close_with (EntryRejected "reason") E; intros _; by apply closes_final.
  - destruct (entry_known _ Hi) as [x Hx]; [by rewrite E|].
    apply closes_mono with 10%nat; [lia|].
    apply (closes_absent a "vacuum" x); rewrite ?E, ?Hv; done.
  - close_with (EntryAbsenceConfirmed "command") E. intros _. by apply closes_final.
Qed.

Lemma closes_reachable a : reachable a → blocked a = false → closes_within 11 a.
Proof.
  intros Ha Hb. destruct (status a) eqn:E.
  all: try (by apply closes_entering; rewrite ?E).
  all: try (by apply closes_withdrawing; rewrite ?E).
  all: try (by apply closes_final; rewrite E).
  all: try (by apply closes_mono with 8%nat; [lia|]; apply closes_exiting; rewrite ?E).
  all: try (by apply closes_mono with 8%nat; [lia|]; apply closes_protected; rewrite ?E).
  all: try (by apply closes_mono with 9%nat; [lia|]; apply closes_stress).
  all: try (by apply closes_mono with 9%nat; [lia|]; apply closes_protecting; auto).
  all: try (by apply closes_mono with 9%nat; [lia|]; apply closes_partial; auto).
  all: try (by apply closes_mono with 7%nat; [lia|]; apply closes_reconciling).
  all: try (by apply closes_mono with 8%nat; [lia|]; apply closes_cancel; auto).
  - unfold blocked in Hb. by rewrite E in Hb.
  - apply closes_mono with 2%nat; [lia|]. by apply closes_settlement.
  - close_with (ReviewRecorded "review") E. intros _. by apply closes_final.
Qed.

Lemma blocked_refuses a e r : blocked a = true → reduce_event (Some a) e ≠ Ok r.
Proof.
  unfold blocked. intros Hb H. step_cases H.
  all: use_status a; try discriminate.
  all: congruence || (apply is_none_true in Hb; congruence).
Qed.
