(* ===== verification/Samples.v ===== *)
(** * A sample episode

    One long episode, from issue to the recorded review, and three branches
    of it.  The witnesses of the lifecycle theorems apply them to these
    histories. *)

From S2P Require Import Prelude PyString Sha256 PyDecimal DecimalFacts Identities Ticket.
From S2P Require Import PostFillRisk CrossMarginStress Commands VenueTruth VacuumLateFill.
From S2P Require Import Events Aggregate Reducer Lifecycle.

(** The fold of [reduce_event] over a list of events. *)
Fixpoint replay_from (a : TradeAggregate) (effs : list KernelEffect) (es : list TradeEvent)
    : result (TradeAggregate * list KernelEffect) :=
  match es with
  | [] => Ok (a, effs)
  | e :: es => r ← reduce_event (Some a) e; replay_from (aggregate r) (effs ++ effects r) es
  end.

Definition replay (es : list TradeEvent) : result (TradeAggregate * list KernelEffect) :=
  match es with
  | [] => Raise (invalid "no event")
  | e :: es => r ← reduce_event None e; replay_from (aggregate r) (effects r) es
  end.

Lemma replay_from_history es a effs es' a' effs' :
  history es a effs → Forall constructed es' → replay_from a effs es' = Ok (a', effs') →
  history (es ++ es') a' effs'.
Proof.
  revert es a effs. induction es' as [|e es' IH]; cbn; intros es a effs H Hc Hr.
  - injection Hr as <- <-. by rewrite app_nil_r.
  - apply bind_Ok in Hr as (r & Hr & Hrest). apply Forall_cons in Hc as [Hc Hcs].
    rewrite (cons_middle e es es'), app_assoc. eapply IH; [|done|done]. by eapply history_step.
Qed.

Lemma replay_history es a effs :
  Forall constructed es → replay es = Ok (a, effs) → history es a effs.
Proof.
  destruct es as [|e es]; [done|]. cbn. intros [Hc Hcs]%Forall_cons Hr.
  apply bind_Ok in Hr as (r & Hr & Hrest).
  apply (replay_from_history [e] (aggregate r) (effects r) es); [by apply history_issue|done|done].
Qed.

Module Sample.

Definition hash64 : str := "0123456789abcdef0123456789abcdef0123456789abcdef0123456789abcdef".
Definition digest : str := "sha256:" +:+ hash64.

Definition domain : NettingDomain := mkNettingDomain "binance-usdm" "main" "BTCUSDT" long.
Definition runtime : RuntimeIdentity := mkRuntimeIdentity "profile" "SOR-001" "v3" "SOR-LONG:v3".
Definition ticket_identity : TicketIdentity :=
  mkTicketIdentity "ticket:1" "episode:1" "signal:1" runtime domain.

Definition trade_ticket (leverage_change : bool) : TradeTicket :=
  {| tk_identity := ticket_identity; tk_owner_policy_id := "policy"; tk_owner_policy_version := 1;
     tk_runtime_scope_id := "scope"; tk_runtime_scope_version := 1;
     tk_universe_version_id := "universe"; tk_universe_semantic_digest := digest;
     tk_fact_digest := digest; tk_exposure_family := opening_range;
     tk_active_family_ticket_count_at_claim := 0; tk_family_ticket_limit := 1;
     tk_directional_risk_at_stop_at_claim := d0;
     tk_directional_stop_risk_limit_fraction := mkDecimal 5 (-1);
     tk_min_materialization_ratio := mkDecimal 5 (-1);
     tk_minimum_stop_risk_budget := of_int 5; tk_exit_policy_id := "exit";
     tk_exit_policy_semantic_hash := digest; tk_exit_binding_id := None;
     tk_exit_binding_semantic_hash := None; tk_exit_binding_authority_version := None;
     tk_capacity_claim_id := "claim"; tk_created_at_ms := 10; tk_expires_at_ms := 100;
     tk_entry_reference_price := of_int 100; tk_quantity := of_int 2; tk_notional := of_int 200;
     tk_planned_stop_risk_budget := of_int 12; tk_post_fill_stop_risk_limit := of_int 15;
     tk_selected_leverage := 5; tk_leverage_change_required := leverage_change;
     tk_reserved_margin := of_int 40; tk_risk_reservation_basis := "stop";
     tk_post_stop_stress_multiple := of_int 2; tk_claim_stress_proof_digest := digest;
     tk_risk_at_stop := of_int 10; tk_entry_order_type := MARKET; tk_entry_limit_price := None;
     tk_initial_stop_price := of_int 95; tk_pre_tp1_reclaim_price := None;
     tk_exposure_session_end_ms := None; tk_take_profit_prices := [of_int 105];
     tk_take_profit_quantities := [of_int 1]; tk_status := ISSUED;
     tk_selection_authority_id := None |}.

Definition bracket : MaintenanceMarginBracket :=
  mkBracket "b1" d0 None (mkDecimal 1 (-2)) d0.

Definition risk_position : AccountRiskPosition :=
  mkAccountRiskPosition "BTCUSDT" long (of_int 2) (of_int 100) d0 (of_int 2).

Definition unsigned_snapshot (digest : str) : AccountRiskSnapshot :=
  mkAccountRiskSnapshot "binance-usdm" "main" "BTCUSDT" (of_int 100) 5 (of_int 1000)
    (of_int 1000) (of_int 40) (of_int 2) (of_int 960) [risk_position] 40 60 digest.
Definition snapshot :=
  Eval vm_compute in unsigned_snapshot (snapshot_payload_digest (unsigned_snapshot digest)).

Definition stress_request : CrossMarginStressRequest :=
  mkStressRequest snapshot [bracket] digest d1 true long (of_int 100) (of_int 95) (of_int 2)
    [mkStressPosition long (of_int 2) (of_int 100)].

(** The proof the evaluator builds. *)
Definition stress_proof :=
  Eval vm_compute in
    match evaluate_cross_margin_stress stress_request with
    | Ok e => cse_proof e
    | Raise _ => mkStressProof digest digest FAILED d0 false None None 0 None digest
    end.

Definition evidence : CrossMarginStressEvidence := mkStressEvidence stress_request stress_proof.

Definition risk : PostFillRiskDecision :=
  assess_post_fill_risk
    (mkPostFillRiskRequest long (of_int 2) (of_int 100) (of_int 95) (of_int 12) (of_int 15)).

Definition event (seq : Z) (b : EventBody) : TradeEvent :=
  mkEvent "event" seq (10 + seq) "ticket:1" b.

(** Events numbered from [n]. *)
Fixpoint events (n : Z) (bs : list EventBody) : list TradeEvent :=
  match bs with
  | [] => []
  | b :: bs => event n b :: events (n + 1) bs
  end.

Definition to_protected : list EventBody :=
  [TicketIssued (trade_ticket false);
   EntryAccepted "entry-1";
   EntryFilled (of_int 2) (of_int 100) risk None 30;
   InitialStopConfirmed "stop-1" (of_int 2);
   PostFillStressAssessed stress_passed evidence "policy" 1 (of_int 2) (of_int 100) (of_int 95)
     "stop-1";
   TakeProfitConfirmed "tp-1" (of_int 1)].

Definition to_runner : list EventBody :=
  to_protected ++
  [TakeProfitFilled (of_int 1) (of_int 105) (of_int 101);
   ProtectionReplacementConfirmed "stop-2" (of_int 1) (of_int 101) "stop-1" 17;
   ProtectionCancelConfirmed "stop-1";
   RunnerStopRequested (of_int 103) 40;
   ProtectionReplacementOutcomeUnknown "timeout"].

Definition to_closed : list EventBody :=
  to_runner ++
  [ProtectionReplacementConfirmed "stop-3" (of_int 1) (of_int 103) "stop-2" 40;
   ProtectionCancelConfirmed "stop-2";
   ExitRequested "owner";
   ExitAccepted "exit-1";
   PositionFlatConfirmed;
   OwnedOrderAbsenceConfirmed "stop-3";
   ReconciliationMatched None;
   BudgetSettled;
   ReviewRecorded "review-1"].

(** An ENTRY withdrawn after leverage was set. *)
Definition to_withdrawn : list EventBody :=
  [TicketIssued (trade_ticket true);
   LeverageConfirmed 5 11 digest;
   EntryAccepted "entry-1";
   EntryVacuumCancelRequested "vacuum-1" "entry-1" d0 None;
   EntryVacuumCancelConfirmed "entry-1";
   EntryVacuumOrderAbsenceConfirmed "vacuum-1" "entry-1" d0 None].

(** A partial fill whose remainder cannot be cancelled. *)
Definition to_blocked : list EventBody :=
  [TicketIssued (trade_ticket false);
   EntryAccepted "entry-1";
   EntryPartiallyFilled (of_int 1) (of_int 2) (of_int 100);
   EntryRemainderCancelRejected "entry-1" "filled"].

(** The take-profit of an event list confirmed before the stress assessment;
    the position is then found flat. *)
Definition to_leak : list EventBody :=
  take 4 to_protected ++
  [TakeProfitConfirmed "tp-1" d0;
   ExternalFlatDetected;
   OwnedOrderAbsenceConfirmed "tp-1";
   OwnedOrderAbsenceConfirmed "stop-1";
   ReconciliationMatched None;
   BudgetSettled;
   ReviewRecorded "review-1"].

(** A fill over the post-fill limit whose stop has an unknown outcome. *)
Definition overrun : PostFillRiskDecision :=
  mkPostFillRiskDecision HARD_OVERRUN FLATTEN_AFTER_PROTECTION (of_int 20).
Definition to_overrun : list EventBody :=
  take 2 to_protected ++
  [EntryFilled (of_int 2) (of_int 105) overrun None 30;
   InitialStopOutcomeUnknown "timeout";
   InitialStopConfirmed "stop-1" (of_int 2)].

Definition fill_event : TradeEvent := event 3 (EntryFilled (of_int 2) (of_int 100) risk None 30).

(** ** Commands and observations *)

Definition command_id := Eval vm_compute in
  match build_command_id "ticket:1" ENTRY 1 with Ok i => i | Raise _ => "command" end.
Definition client_id := Eval vm_compute in
  match build_venue_client_order_id command_id with Ok i => i | Raise _ => "client" end.

Definition entry_payload : OrderCommandPayload :=
  mkOrderPayload buy (of_int 2) order_market false None None None None None (Some 5) (Some digest).

Definition entry_command (s : ExchangeCommandStatus) : ExchangeCommand :=
  mkExchangeCommand command_id ticket_identity ENTRY 1 "key" (Some client_id)
    (OrderPayload entry_payload) s 20 90.

Definition cancel_command : ExchangeCommand :=
  mkExchangeCommand "command:2" ticket_identity CANCEL_ORDER 1 "key-2" (Some "brc-2")
    (CancelPayload (mkCancelPayload "stop-1" conditional reconciliation_cleanup None))
    OUTCOME_UNKNOWN 20 90.

Definition entry_order (is_open : bool) : VenueOrderTruth :=
  mkVenueOrderTruth "entry-1" client_id "BTCUSDT" long buy (of_int 2) false regular is_open.

Definition visible_truth (is_open : bool) (filled : Decimal) : VenueTruthSnapshot :=
  mkVenueTruthSnapshot VISIBLE (Some (entry_order is_open)) filled filled (Some (of_int 100)) true
    [] [] 75 None.

Definition absent_truth (at_ms : Z) : VenueTruthSnapshot :=
  mkVenueTruthSnapshot ABSENT None d0 d0 None true [] [] at_ms None.

Definition late_position : PositionSnapshot :=
  mkPositionSnapshot domain d1 (Some (of_int 100)) None (Some liq_missing) [] 70.

Definition late_fill : LateFillInput :=
  mkLateFillInput (trade_ticket true) (entry_command ACCEPTED) "entry-1" late_position
    (visible_truth false d1) 65.

Definition late_digest := Eval vm_compute in
  vacuum_late_fill_proof_digest "ticket:1" command_id "entry-1" client_id
    (netting_domain_key domain) d1 (of_int 100) 70 75.

Definition late_decision : LateFillDecision :=
  mkLateFillDecision ATTRIBUTED "exact_closed_entry_fill" (Some late_digest) (Some d1)
    (Some (of_int 100)).

Definition late_event : TradeEvent :=
  mkEvent "event" 7 80 "ticket:1"
    (VacuumLateFillAttributed "vacuum-1" command_id "entry-1" client_id d1 (of_int 100) 70 75
       late_digest).

Definition state_of (bs : list EventBody) : TradeAggregate :=
  match replay (events 1 bs) with
  | Ok (a, _) => a
  | Raise _ => new_aggregate ticket_identity (trade_ticket false) TERMINAL 0 0
  end.
Definition effects_of (bs : list EventBody) : list KernelEffect :=
  match replay (events 1 bs) with Ok (_, effs) => effs | Raise _ => [] end.

Definition protected_state := Eval vm_compute in state_of to_protected.
Definition protected_effects := Eval vm_compute in effects_of to_protected.
Definition runner_state := Eval vm_compute in state_of to_runner.
Definition runner_effects := Eval vm_compute in effects_of to_runner.
Definition closed_state := Eval vm_compute in state_of to_closed.
Definition closed_effects := Eval vm_compute in effects_of to_closed.
Definition withdrawn_state := Eval vm_compute in state_of to_withdrawn.
Definition withdrawn_effects := Eval vm_compute in effects_of to_withdrawn.
Definition blocked_state := Eval vm_compute in state_of to_blocked.
Definition blocked_effects := Eval vm_compute in effects_of to_blocked.
Definition leak_state := Eval vm_compute in state_of to_leak.
Definition leak_effects := Eval vm_compute in effects_of to_leak.
Definition overrun_state := Eval vm_compute in state_of to_overrun.
Definition overrun_effects := Eval vm_compute in effects_of to_overrun.
Definition installed_state := Eval vm_compute in state_of (take 9 to_runner).
Definition accepted_state := Eval vm_compute in state_of (take 2 to_protected).
Definition filled_state := Eval vm_compute in state_of (take 3 to_protected).

Ltac constructed_events :=
  repeat (apply Forall_cons; split; [split; vm_compute; repeat split; reflexivity|]);
  apply Forall_nil; exact I.

Lemma closed_constructed : Forall constructed (events 1 to_closed).
Proof. constructed_events. Qed.

Lemma closed_history : history (events 1 to_closed) closed_state closed_effects.
Proof. apply replay_history; [apply closed_constructed|vm_compute; reflexivity]. Qed.

Lemma runner_history : history (events 1 to_runner) runner_state runner_effects.
Proof.
  apply replay_history; [|vm_compute; reflexivity]. apply (Forall_take _ 11 _ closed_constructed).
Qed.

Lemma protected_history : history (events 1 to_protected) protected_state protected_effects.
Proof.
  apply replay_history; [|vm_compute; reflexivity]. apply (Forall_take _ 6 _ closed_constructed).
Qed.

Lemma withdrawn_history : history (events 1 to_withdrawn) withdrawn_state withdrawn_effects.
Proof. apply replay_history; [constructed_events|vm_compute; reflexivity]. Qed.

Lemma blocked_history : history (events 1 to_blocked) blocked_state blocked_effects.
Proof. apply replay_history; [constructed_events|vm_compute; reflexivity]. Qed.

Lemma leak_history : history (events 1 to_leak) leak_state leak_effects.
Proof. apply replay_history; [constructed_events|vm_compute; reflexivity]. Qed.

Lemma overrun_history : history (events 1 to_overrun) overrun_state overrun_effects.
Proof. apply replay_history; [constructed_events|vm_compute; reflexivity]. Qed.

End Sample.
