(* ===== verification/LifecycleProperties.v ===== *)
(** * What the lifecycle reducer guarantees

    The properties of [reduce_event] over the histories of a Ticket, each with
    a witness on a sample episode. *)

From Stdlib Require Import QArith Lqa.
From S2P Require Import Prelude PyString PyDecimal DecimalFacts Identities Ticket PostFillRisk.
From S2P Require Import CrossMarginStress Commands VenueTruth VacuumLateFill Events Aggregate.
From S2P Require Import Reducer Lifecycle LifecycleInvariants LifecycleSpec.
From S2P Require Import Samples.
#[local] Open Scope Z_scope.



(** C2: The position never goes negative and never exceeds the quantity the
    Ticket froze at issue, through every fill, partial fill, late fill and
    take-profit; it is exactly zero in every status without exposure and
    positive in every status that manages one. *)
Theorem position_within_ticket (a : TradeAggregate) :
  reachable a →
  (0 <= dval (position_qty a) <= dval (tk_quantity (ticket a)))%Q ∧
  (flat_status (status a) = true → (dval (position_qty a) == 0)%Q) ∧
  (flat_status (status a) = false → vacuum_status (status a) = false →
   (0 < dval (position_qty a))%Q).
Proof. intros Ha. by destruct (reachable_quantity a Ha). Qed.

Lemma position_within_ticket_witness :
  (0 <= dval (position_qty Sample.runner_state) <= 2)%Q.
Proof.
  apply (position_within_ticket Sample.runner_state).
  eapply history_reachable, Sample.runner_history.
Defined.

(** C3: The books close once and for all: over any history the Ticket gives
    its capital back exactly as often as its status says it has (once when it
    is abandoned or settled, never before), and whenever it has, the position
    is zero. *)
Theorem capital_released_once_and_flat es (a : TradeAggregate) effs :
  history es a effs →
  count releases_capital effs = Nat.b2n (released_status (status a)) ∧
  (released_status (status a) = true → (dval (position_qty a) == 0)%Q).
Proof.
  intros H. split; [apply (ledger_capital _ _ (history_ledger _ _ _ H))|].
  intros Hr. apply (position_flat _ (reachable_quantity a (history_reachable _ _ _ H))).
  by destruct (status a).
Qed.

Lemma capital_released_once_and_flat_witness :
  count releases_capital Sample.closed_effects = 1%nat.
Proof.
  apply (capital_released_once_and_flat _ _ _ Sample.closed_history).
Defined.

(** C4: The account's entry lane is conserved: over any history the number of
    lane releases plus the lane still held is exactly one. *)
Theorem entry_lane_conserved es (a : TradeAggregate) effs :
  history es a effs →
  (count releases_lane effs + Nat.b2n (entry_lane_held a) = 1)%nat ∧
  (lane_status (status a) = true → entry_lane_held a = true).
Proof. intros H. by destruct (history_ledger _ _ _ H). Qed.

Lemma entry_lane_conserved_witness :
  (count releases_lane Sample.protected_effects +
   Nat.b2n (entry_lane_held Sample.protected_state) = 1)%nat.
Proof. apply (entry_lane_conserved _ _ _ Sample.protected_history). Defined.

(** C5: A Ticket orders its ENTRY at most once, and not before leverage is
    settled: no history, whatever outcome is unknown, rejected or reconciled
    absent, contains a second [PrepareEntryCommand]. *)
Theorem entry_ordered_at_most_once es (a : TradeAggregate) effs :
  history es a effs →
  (count prepares_entry effs <= 1)%nat ∧
  (unsent_status (status a) = true → count prepares_entry effs = 0%nat).
Proof.
  intros H. pose proof (ledger_entry _ _ (history_ledger _ _ _ H)) as L.
  split; [lia|]. intros Hs. rewrite Hs in L. cbn in L. lia.
Qed.

Lemma entry_ordered_at_most_once_witness :
  (count prepares_entry Sample.withdrawn_effects <= 1)%nat.
Proof. apply (entry_ordered_at_most_once _ _ _ Sample.withdrawn_history). Defined.

(** C6: A settled, reviewed or terminal Ticket left nothing behind: no
    position, no protected quantity, no owned order identity, no cancel in
    flight. *)
Theorem settled_is_clean (a : TradeAggregate) :
  reachable a → settled_status (status a) = true →
  (dval (position_qty a) == 0)%Q ∧ (dval (protected_qty a) == 0)%Q ∧
  known_cleanup_order_ids a = [] ∧ pending_cancel_exchange_order_id a = None.
Proof.
  intros Ha Hs. destruct (reachable_clean a Ha Hs) as [C1 C2 C3]. split_and!; try done.
  apply (position_flat _ (reachable_quantity a Ha)). by destruct (status a).
Qed.

Lemma settled_is_clean_witness :
  known_cleanup_order_ids Sample.closed_state = [].
Proof.
  apply (settled_is_clean Sample.closed_state);
    [eapply history_reachable, Sample.closed_history|by vm_compute].
Defined.

(** C7: Refinement: every accepted event is a step of the abstract lifecycle
    ([phase_step]), so an episode passes through arming, entering, protecting,
    protected, exiting, reconciling, settling, reviewing and closed in that
    order, never goes back to an earlier phase, and leaves an abandoned one
    never. *)
Theorem reducer_refines_lifecycle (a : TradeAggregate) e r :
  reduce_event (Some a) e = Ok r →
  phase_step (phase_of (status a)) (phase_of (status (aggregate r))) ∧
  (phase_rank (phase_of (status a)) <= phase_rank (phase_of (status (aggregate r))))%nat.
Proof.
  intros H. pose proof (step_phase _ _ _ H) as Hp. split; [done|].
  apply phase_step_rank in Hp as [-> |Hp]; lia.
Qed.

Lemma reducer_refines_lifecycle_witness :
  ∃ r, reduce_event (Some Sample.protected_state)
         (Sample.event 7 (TakeProfitFilled (of_int 1) (of_int 105) (of_int 101))) = Ok r ∧
       phase_step Protected (phase_of (status (aggregate r))).
Proof.
  eexists. split; [vm_compute; reflexivity|].
  apply (reducer_refines_lifecycle Sample.protected_state
           (Sample.event 7 (TakeProfitFilled (of_int 1) (of_int 105) (of_int 101)))).
  vm_compute. reflexivity.
Defined.

(** C8: Liveness: from every reachable state that is not blocked, some
    sequence of at most eleven further well-formed events ends the episode
    (terminal, or abandoned without exposure).  No combination of unknown
    outcomes, rejections and reconciliations leads to any other dead end. *)
Theorem every_episode_can_close (a : TradeAggregate) :
  reachable a → blocked a = false → closes_within 11 a.
Proof. apply closes_reachable. Qed.

Lemma every_episode_can_close_witness : closes_within 11 Sample.runner_state.
Proof.
  apply (every_episode_can_close Sample.runner_state);
    [eapply history_reachable, Sample.runner_history|by vm_compute].
Defined.

(** C23: The two dead ends: after the cancel of a partial fill's remainder was
    rejected, or when a partial fill arrived before the ENTRY order identity
    was recorded, the Ticket accepts no event whatsoever — and such a state is
    reachable with an open, unprotected position and the entry lane held. *)
Theorem partial_fill_dead_end :
  (∀ (a : TradeAggregate) e r, blocked a = true → reduce_event (Some a) e ≠ Ok r) ∧
  ∃ a : TradeAggregate, reachable a ∧ blocked a = true ∧ (0 < dval (position_qty a))%Q ∧
    active_stop_exchange_order_id a = None ∧ entry_lane_held a = true.
Proof.
  split; [intros a e r; apply blocked_refuses|].
  exists Sample.blocked_state. split; [eapply history_reachable, Sample.blocked_history|].
  by split_and!; vm_compute.
Qed.

(** C24: After the first take-profit, the stop of the runner — in force, or
    requested as a replacement — is never on the losing side of the
    break-even floor the fill fixed. *)
Theorem runner_stop_respects_floor (a : TradeAggregate) :
  reachable a →
  (installed_status (status a) = true → respects_floor a (active_stop_price a)) ∧
  (replacement_status (status a) = true → respects_floor a (pending_stop_price a)).
Proof. intros Ha. by destruct (reachable_runner a Ha). Qed.

Lemma runner_stop_respects_floor_witness :
  respects_floor Sample.runner_state (pending_stop_price Sample.runner_state).
Proof.
  apply (runner_stop_respects_floor Sample.runner_state); [|by vm_compute].
  eapply history_reachable, Sample.runner_history.
Defined.

(** Once a runner stop is installed, no event weakens it: the active stop
    price after any accepted event is at or beyond the one before (above for
    a long, below for a short). *)
Theorem runner_stop_monotone (a : TradeAggregate) e r p q :
  reachable a → reduce_event (Some a) e = Ok r → runner_started a = true →
  active_stop_price a = Some p → active_stop_price (aggregate r) = Some q →
  at_floor (position_side a) q p.
Proof. intros Ha. apply step_stop_monotone, reachable_improvement, Ha. Qed.

Lemma runner_stop_monotone_witness : at_floor long (of_int 103) (of_int 101).
Proof.
  apply (runner_stop_monotone Sample.runner_state
           (Sample.event 12 (ProtectionReplacementConfirmed "stop-3" (of_int 1) (of_int 103)
                               "stop-2" 40))
           (match reduce_event (Some Sample.runner_state)
              (Sample.event 12 (ProtectionReplacementConfirmed "stop-3" (of_int 1) (of_int 103)
                               "stop-2" 40)) with
            | Ok r => r | Raise _ => mkReduction Sample.runner_state [] end));
    [eapply history_reachable, Sample.runner_history|by vm_compute..].
Defined.

(** C25: The event log of a Ticket is gap-free: its events carry the sequence
    numbers 1, 2, ..., n, the first issues the Ticket the aggregate still
    carries unchanged, all later ones name that Ticket, and the aggregate's
    version is the length of the log. *)
Theorem event_log_is_contiguous es (a : TradeAggregate) effs :
  history es a effs →
  ev_sequence <$> es = seqZ 1 (Z.of_nat (length es)) ∧
  version a = Z.of_nat (length es) ∧
  head (ev_body <$> es) = Some (TicketIssued (ticket a)) ∧
  identity a = tk_identity (ticket a) ∧
  Forall (λ e, ev_ticket_id e = tid a) (tail es).
Proof.
  intros H. pose proof (reachable_frame a (history_reachable _ _ _ H)) as Hf.
  destruct (history_log _ _ _ H) as (L1 & L2 & L3 & L4).
  rewrite <- L2, (frame_version a Hf). split_and!; try done. apply (frame_identity a Hf).
Qed.

Lemma event_log_is_contiguous_witness : version Sample.closed_state = 20.
Proof. apply (event_log_is_contiguous _ _ _ Sample.closed_history). Defined.

(** An event is applied at most once: whatever event is already in the
    log is refused, with the error of a broken sequence or of a second
    issue, and so is any event of another Ticket. *)
Theorem events_apply_once es (a : TradeAggregate) effs e :
  history es a effs → e ∈ es ∨ ev_ticket_id e ≠ tid a →
  ∃ msg, reduce_event (Some a) e = Raise (InvalidLifecycleTransition msg).
Proof.
  intros H He. destruct (history_log _ _ _ H) as (L1 & L2 & _).
  assert (Hs : e ∈ es → ev_sequence e ≠ last_event_sequence a + 1).
  { intros Hin. apply (list_elem_of_fmap_2 ev_sequence) in Hin.
    rewrite L1 in Hin. apply elem_of_seqZ in Hin. lia. }
  cbn [reduce_event]. unfold require_event_identity_and_sequence.
  destruct (ev_body e); try (eexists; reflexivity); cbn [raise_if mbind result_bind].
  all: destruct (bool_decide _) eqn:Hid; try (eexists; reflexivity); cbn [negb raise_if mbind result_bind].
  all: apply bool_decide_eq_true_1 in Hid; destruct He as [He|He]; [|done];
    apply Hs, Z.eqb_neq in He; rewrite He; eexists; reflexivity.
Qed.

Lemma events_apply_once_witness :
  ∃ msg, reduce_event (Some Sample.closed_state) (Sample.event 6 (TakeProfitConfirmed "tp-1" (of_int 1)))
         = Raise (InvalidLifecycleTransition msg).
Proof.
  apply (events_apply_once _ _ _ _ Sample.closed_history). left.
  apply list_elem_of_lookup. by exists 5%nat.
Defined.

(** The ends are ends: an abandoned Ticket accepts no event; a terminal
    one only a review revision that names the current review and a different
    new one, and that changes nothing but the review pointer, the version and
    the sequence. *)
Theorem final_states_absorb (a : TradeAggregate) e r :
  final_status (status a) = true → reduce_event (Some a) e = Ok r →
  status a = TERMINAL ∧
  ∃ new old, ev_body e = ReviewRevised new old ∧ review_id a = Some (strip old) ∧
    strip new ≠ strip old ∧
    aggregate r = set_review_id (Some (strip new))
      (set_last_event_sequence (last_event_sequence a + 1) (set_version (version a + 1) a)) ∧
    effects r = [ProjectTerminalOwnerState (tid a)].
Proof.
  unfold final_status. intros Hf H. destruct (decide (status a = TERMINAL)) as [Hs|Hs].
  - step_cases H; try (rewrite Hs in *; discriminate);
      try (exfalso; apply (bool_decide_eq_true_2 _) in G; rewrite Hs in G; discriminate G).
    all: try (unfold status_is in *; rewrite Hs in *; discriminate).
    decimal_facts. split; [done|]. do 2 eexists. split_and!; try done.
    rewrite <- Hseq. destruct a; cbn in *. by subst.
  - rewrite bool_decide_eq_false_2 in Hf by done. step_cases H; use_status a; discriminate.
Qed.

Lemma final_states_absorb_witness :
  status Sample.closed_state = TERMINAL.
Proof.
  apply (final_states_absorb Sample.closed_state
           (Sample.event 21 (ReviewRevised "review-2" "review-1"))
           (match reduce_event (Some Sample.closed_state)
                    (Sample.event 21 (ReviewRevised "review-2" "review-1")) with
            | Ok r => r | Raise _ => mkReduction Sample.closed_state [] end));
    vm_compute; reflexivity.
Defined.

(** Every effect of an accepted event names the aggregate's own Ticket,
    and every command it orders for the open exposure — initial stop, stop
    replacement, exit, controlled flatten — is for exactly the position the
    aggregate holds after the event. *)
Theorem effects_are_for_this_exposure (a : TradeAggregate) e r :
  reachable a → reduce_event (Some a) e = Ok r →
  Forall (λ f, effect_ticket_id f = tid a ∧
               ∀ q, effect_quantity f = Some q →
                    (dval q == dval (position_qty (aggregate r)))%Q) (effects r).
Proof. intros Ha. by apply step_effects, reachable_frame. Qed.

Lemma effects_are_for_this_exposure_witness :
  effect_ticket_id (PrepareExitCommand "ticket:1" (of_int 2) "owner") = tid Sample.protected_state.
Proof.
  assert (H := effects_are_for_this_exposure Sample.protected_state
    (Sample.event 7 (ExitRequested "owner"))
    (match reduce_event (Some Sample.protected_state) (Sample.event 7 (ExitRequested "owner")) with
     | Ok r => r | Raise _ => mkReduction Sample.protected_state [] end)
    (history_reachable _ _ _ Sample.protected_history) ltac:(vm_compute; reflexivity)).
  apply Forall_cons in H as [[H _] _]. exact H.
Defined.

(** [ReconciliationMatched] closes an episode exactly when nothing is
    left: it is accepted if and only if it is the Ticket's next event in
    reconciliation, with no owned order, no protected quantity and no cancel
    in flight; it then releases the claimed notional, risk and margin. *)
Theorem reconciliation_matches_iff_clean (a : TradeAggregate) (e : TradeEvent) kind :
  ev_body e = ReconciliationMatched kind →
  (∃ r, reduce_event (Some a) e = Ok r) ↔
  ev_ticket_id e = tid a ∧ ev_sequence e = last_event_sequence a + 1 ∧
  status a = RECONCILIATION_PENDING ∧ clean a.
Proof.
  intros Hb. split.
  - intros [r H]. apply reduce_event_Some in H as (_ & Hid & Hseq & H). unfold reduce_body in H.
    rewrite Hb in H. autounfold with branches in H. repeat guard_step H. decimal_facts.
    apply Nat.eqb_eq, nil_length_inv in G0. apply is_none_true in G2. by repeat split.
  - intros (Hid & Hseq & Hs & [C1 C2 C3]). eexists. apply reduce_event_Some.
    split_and!; [by rewrite Hb|done..|]. unfold reduce_body. rewrite Hb. autounfold with branches.
    rewrite bind_pass by (by apply require_status_pass).
    rewrite bind_pass by (apply raise_if_pass; by rewrite C1).
    rewrite bind_pass by (apply raise_if_pass, negb_false, deqb_spec; by rewrite dval_d0).
    rewrite bind_pass by (apply raise_if_pass; by rewrite C3). reflexivity.
Qed.

Lemma reconciliation_matches_iff_clean_witness :
  ¬ ∃ r, reduce_event (Some Sample.protected_state) (Sample.event 7 (ReconciliationMatched None)) = Ok r.
Proof.
  intros H. apply (reconciliation_matches_iff_clean Sample.protected_state
    (Sample.event 7 (ReconciliationMatched None)) None eq_refl) in H as (_ & _ & H & _). discriminate H.
Defined.

(** The order of the initial stop of a fill. *)
Definition initial_stop_for (q : Decimal) (t : TradeTicket) (i : str) : KernelEffect :=
  PrepareInitialStopCommand i q (tk_initial_stop_price t).

Lemma initial_stop_step b e r oid q :
  ev_body e = InitialStopConfirmed oid q → status b = PROTECTION_PENDING →
  reduce_event (Some b) e = Ok r →
  (dval q == dval (position_qty b))%Q ∧
  active_stop_price (aggregate r) = Some (tk_initial_stop_price (ticket b)) ∧
  match post_fill_disposition b with
  | Some FLATTEN_AFTER_PROTECTION =>
      status (aggregate r) = CONTROLLED_FLATTEN_PENDING ∧
      effects r = [PrepareControlledFlattenCommand (tid b) (position_qty b)]
  | _ => status (aggregate r) = POST_FILL_RISK_PENDING ∧ effects r = []
  end.
Proof.
  intros Hb Hs H. apply reduce_event_Some in H as (_ & _ & _ & H). unfold reduce_body in H.
  rewrite Hb in H. autounfold with branches in H. cbv zeta in H.
  unfold status_is in H. rewrite Hs in H. cbn [bool_decide decide] in H.
  repeat guard_step H; decimal_facts; (split; [done|]); (split; [done|]);
    destruct (post_fill_disposition b) as [[]|]; by split || congruence.
Qed.

Lemma entry_filled_step a e r q price risk liq at_ms :
  ev_body e = EntryFilled q price risk liq at_ms → reduce_event (Some a) e = Ok r →
  let stop := initial_stop_for q (ticket a) (tid a) in
  let incident := OpenIncident (tid a) (post_fill_risk_status_value (pd_status risk)) in
  status (aggregate r) = match pd_disposition risk with
                         | FLATTEN_IMMEDIATELY => CONTROLLED_FLATTEN_PENDING
                         | _ => PROTECTION_PENDING
                         end ∧
  effects r = match pd_disposition risk with
              | FLATTEN_IMMEDIATELY => [incident; PrepareControlledFlattenCommand (tid a) q]
              | FLATTEN_AFTER_PROTECTION => [incident; stop]
              | NORMAL => [stop]
              end ∧
  position_qty (aggregate r) = q ∧ ticket (aggregate r) = ticket a ∧
  identity (aggregate r) = identity a ∧
  post_fill_disposition (aggregate r) = Some (pd_disposition risk).
Proof.
  intros Hb H. apply reduce_event_Some in H as (_ & _ & _ & H). unfold reduce_body in H.
  rewrite Hb in H. autounfold with branches in H. cbv zeta in H.
  repeat guard_step H; cbn; rewrite B; by split_and!.
Qed.

(** A full fill is protected before anything else unless its stop would
    be on the wrong side: the reducer orders exactly one initial stop, for the
    whole fill at the Ticket's stop price, or flattens at once.  When the
    stop of a fill over the post-fill limit is confirmed the position is
    flattened; a normal fill goes on to the stress assessment and orders
    nothing. *)
Theorem full_fill_disposition (a : TradeAggregate) e e' r r' qty price risk liq at_ms oid qty' :
  ev_body e = EntryFilled qty price risk liq at_ms → reduce_event (Some a) e = Ok r →
  (pd_disposition risk = FLATTEN_IMMEDIATELY →
     status (aggregate r) = CONTROLLED_FLATTEN_PENDING ∧
     PrepareControlledFlattenCommand (tid a) qty ∈ effects r ∧
     initial_stop_for qty (ticket a) (tid a) ∉ effects r) ∧
  (pd_disposition risk ≠ FLATTEN_IMMEDIATELY →
     status (aggregate r) = PROTECTION_PENDING ∧
     initial_stop_for qty (ticket a) (tid a) ∈ effects r ∧
     (ev_body e' = InitialStopConfirmed oid qty' → reduce_event (Some (aggregate r)) e' = Ok r' →
      (dval qty' == dval qty)%Q ∧ active_stop_price (aggregate r') = Some (tk_initial_stop_price (ticket a)) ∧
      match pd_disposition risk with
      | NORMAL => status (aggregate r') = POST_FILL_RISK_PENDING ∧ effects r' = []
      | _ => status (aggregate r') = CONTROLLED_FLATTEN_PENDING ∧
             effects r' = [PrepareControlledFlattenCommand (tid a) qty]
      end)).
Proof.
  intros Hb H. destruct (entry_filled_step _ _ _ _ _ _ _ _ Hb H) as (H1 & H2 & H3 & H4 & H5 & H6).
  rewrite H1, H2.
  split; intros Hd; destruct (pd_disposition risk); try done;
    (split; [done|]); (split; [rewrite !elem_of_cons; naive_solver|]).
  { rewrite !elem_of_cons, elem_of_nil. naive_solver. }
  all: intros Hb' H'; apply (initial_stop_step _ _ _ _ _ Hb') in H' as (S1 & S2 & S3); [|done];
    unfold tid in *; rewrite H6, ?H3, ?H4, ?H5 in *; by split_and!; destruct S3.
Qed.

Lemma full_fill_disposition_witness :
  status Sample.filled_state = PROTECTION_PENDING.
Proof.
  destruct (full_fill_disposition Sample.accepted_state Sample.fill_event Sample.fill_event
    (mkReduction Sample.filled_state
       [PrepareInitialStopCommand "ticket:1" (of_int 2) (of_int 95)])
    (mkReduction Sample.filled_state []) (of_int 2) (of_int 100) Sample.risk None 30
    "stop-1" (of_int 2)) as [_ H].
  - reflexivity.
  - vm_compute. reflexivity.
  - destruct H as [H _]; [vm_compute; discriminate|exact H].
Defined.

(** The entry lane can leak.  [TakeProfitConfirmed] is accepted while the
    post-fill stress assessment is still due; the position then leaves the
    assessment without the lane release that a passed stress carries, and an
    external flat never releases it.  A history reaches the terminal status
    with the lane still held and never released. *)
Theorem entry_lane_can_leak :
  ∃ es (a : TradeAggregate) effs,
    history es a effs ∧ status a = TERMINAL ∧ entry_lane_held a = true ∧
    count releases_lane effs = 0%nat.
Proof.
  exists (Sample.events 1 Sample.to_leak), Sample.leak_state, Sample.leak_effects.
  split; [apply Sample.leak_history|]. by split_and!; vm_compute.
Qed.

Definition opens_incident (kind : str) (f : KernelEffect) : bool :=
  match f with OpenIncident _ k => bool_decide (k = kind) | _ => false end.
Definition resolves_incident (kind : str) (f : KernelEffect) : bool :=
  match f with ResolveIncident _ k => bool_decide (k = kind) | _ => false end.

(** The incident of an unknown initial stop is not always resolved: when
    that stop is confirmed for a fill over the post-fill limit, the reducer
    goes to the controlled flatten without the [ResolveIncident] it emits on
    the normal path. *)
Theorem stop_incident_stays_open :
  ∃ es (a : TradeAggregate) effs,
    history es a effs ∧ status a = CONTROLLED_FLATTEN_PENDING ∧
    initial_stop_exchange_order_id a = Some "stop-1" ∧
    count (opens_incident "initial_stop_outcome_unknown") effs = 1%nat ∧
    count (resolves_incident "initial_stop_outcome_unknown") effs = 0%nat.
Proof.
  exists (Sample.events 1 Sample.to_overrun), Sample.overrun_state, Sample.overrun_effects.
  split; [apply Sample.overrun_history|]. by split_and!; vm_compute.
Qed.
