(* ===== verification/DecisionProperties.v ===== *)
(** * Identities, commands and venue-truth decisions

    The properties of the pure decisions around the reducer: identity keys,
    command identities and retries, recovery of unknown outcomes, attribution
    of late fills, post-fill risk.

    Then the sizing of a Claim: it always decides, within its budgets. *)

From Stdlib Require Import QArith Qabs Lqa.
From S2P Require Import Prelude PyString Sha256 PyDecimal DecimalFacts Identities Ticket.
From S2P Require Import PostFillRisk CrossMarginStress Commands VenueTruth VacuumLateFill.
From S2P Require Import Events Aggregate Reducer Lifecycle LifecycleInvariants.
From S2P Require Import LifecycleSpec Samples.
From S2P Require Import CapacitySizing.
#[local] Open Scope Z_scope.

(** ** Shared lemmas *)

Lemma length_take_prefix n s :
  (n <= String.length s)%nat → String.length (take_prefix n s) = n.
Proof.
  unfold take_prefix. revert n. induction s as [|c s IH]; intros [|n] Hn; cbn in *; try lia; try done.
  rewrite IH; lia.
Qed.

Lemma first_mismatch_None l :
  first_mismatch l = None ↔ Forall (λ c : bool * str, c.1 = true) l.
Proof.
  induction l as [|[[] r] l IH]; cbn; [by split| |]; rewrite Forall_cons; cbn; naive_solver.
Qed.

Lemma decision_Ok st t reason d :
  decision st t reason = Ok d → rd_status d = st ∧ rd_observed_at_ms d = vt_observed_at_ms t.
Proof. unfold decision, validate_UnknownRecoveryDecision. intros H. by run_ok H. Qed.

Lemma decision_total st t reason :
  st ≠ RECONCILED_SUBMITTED → blank reason = false →
  decision st t reason = Ok (mkRecoveryDecision st (vt_observed_at_ms t) None (Some reason)).
Proof.
  intros Hs Hr. unfold decision, validate_UnknownRecoveryDecision.
  cbn [rd_status]. destruct st; try done; cbn; by rewrite Hr.
Qed.

(** ** Identities and commands *)

(** A netting domain's key identifies it: two domains whose venue and
    account names hold no colon share a key only if they are the same venue,
    account, instrument and side — and without that restriction distinct
    domains do collide. *)
Theorem netting_domain_key_identifies :
  (∀ d d' : NettingDomain,
     existsb (has_char colon) [nd_venue_id d; nd_account_id d; nd_venue_id d'; nd_account_id d'] = false →
     netting_domain_key d = netting_domain_key d' → d = d') ∧
  ∃ d d' : NettingDomain,
     validate_NettingDomain d = Ok d ∧ validate_NettingDomain d' = Ok d' ∧
     netting_domain_key d = netting_domain_key d' ∧ d ≠ d'.
Proof.
  split.
  - intros d d' Hc. cbn in Hc. rewrite !orb_false in Hc. destruct Hc as (H1 & H2 & H3 & H4 & _).
    by apply netting_domain_key_inj_aux.
  - exists (mkNettingDomain "venue:a" "b" "BTCUSDT" long),
           (mkNettingDomain "venue" "a:b" "BTCUSDT" long).
    by split_and!; vm_compute.
Qed.

(** The client order identity built for any command has exactly 32
    characters, within the venue's limit of 36 that [ExchangeCommand]
    enforces, and every proof digest of the kernel has the canonical
    [sha256:] form its consumers require. *)
Theorem identities_fit_their_consumers :
  (∀ command_id i, build_venue_client_order_id command_id = Ok i → len i = 32) ∧
  (∀ ticket kind generation i, build_command_id ticket kind generation = Ok i → len i = 40) ∧
  (∀ ensure_ascii v, is_sha256_digest (json_digest ensure_ascii v) = true).
Proof.
  split_and!; [| |apply json_digest_ok].
  - intros c i H. unfold build_venue_client_order_id in H. run_ok H.
    unfold len. rewrite length_append, length_take_prefix; [done|]. rewrite hexdigest_length. lia.
  - intros t k g i H. unfold build_command_id in H. run_ok H.
    unfold len. rewrite length_append, length_take_prefix; [done|]. rewrite hexdigest_length. lia.
Qed.

Lemma identities_fit_their_consumers_witness :
  ∃ i, build_venue_client_order_id "command:1" = Ok i ∧ len i = 32.
Proof.
  exists (match build_venue_client_order_id "command:1" with Ok i => i | Raise _ => "command:1" end).
  split; [vm_compute; reflexivity|].
  apply (proj1 identities_fit_their_consumers "command:1"). vm_compute. reflexivity.
Defined.

(** The retry policy, exactly: a new generation of a command is allowed
    precisely when its number exceeds one, the command is neither the
    leverage change nor the ENTRY, and the prior outcome is known to be
    rejected or absent (or, for a stop replacement, accepted).  With the
    command validator this means an ENTRY is never retried. *)
Theorem retry_policy (kind : ExchangeCommandKind) (prior : ExchangeCommandStatus) (next : Z) :
  (require_next_generation_allowed kind prior next = Ok tt ↔
   1 < next ∧ kind ∉ [SET_LEVERAGE; ENTRY] ∧
   (prior ∈ [REJECTED; RECONCILED_ABSENT] ∨
    kind = REPLACE_PROTECTION ∧ prior ∈ [ACCEPTED; RECONCILED_ACCEPTED])) ∧
  (∀ c c', validate_ExchangeCommand c = Ok c' → ec_kind c ∈ [SET_LEVERAGE; ENTRY] →
           ec_generation c' = 1).
Proof.
  split.
  - rewrite !elem_of_cons, !elem_of_nil. unfold require_next_generation_allowed.
    destruct (Z.leb_spec next 1); [cbn; split; [done|lia]|].
    destruct kind, prior; cbn; naive_solver.
  - intros c c' H Hk. unfold validate_ExchangeCommand in H. run_ok H.
    apply validate_model_Ok in E0. unfold command_model_checks in E0.
    rewrite !elem_of_cons in Hk. cbn [app] in E0. apply Forall_cons in E0 as [E0 _].
    cbn [fst ec_kind ec_generation] in *. apply Z.eqb_eq.
    destruct Hk as [Hk|[Hk|Hk]]; [rewrite Hk in E0; by apply negb_false in E0..|by apply elem_of_nil in Hk].
Qed.

Lemma retry_policy_witness :
  require_next_generation_allowed REPLACE_PROTECTION ACCEPTED 2 = Ok tt.
Proof.
  apply (proj1 (retry_policy REPLACE_PROTECTION ACCEPTED 2)). rewrite !elem_of_cons, !elem_of_nil.
  split_and!; [lia|naive_solver|right; split; [done|by left]].
Defined.

(** ** Recovery of unknown outcomes *)

(** What the decision on an order command (not a cancel) relies on. *)
Definition exact_order (c : ExchangeCommand) (o : VenueOrderTruth) : Prop :=
  let domain := ti_netting_domain (ec_ticket_identity c) in
  Some (vo_venue_client_order_id o) = ec_venue_client_order_id c ∧
  vo_exchange_instrument_id o = nd_exchange_instrument_id domain ∧
  vo_position_side o = nd_position_side domain ∧
  ∃ p, ec_payload c = OrderPayload p ∧ vo_order_side o = op_side p ∧
       (dval (vo_quantity o) == dval (op_quantity p))%Q ∧ vo_reduce_only o = op_reduce_only p.

Lemma identity_contradiction_None c o : identity_contradiction c o = None → exact_order c o.
Proof.
  unfold identity_contradiction. intros H.
  destruct (first_mismatch [_; _; _]) eqn:E in H; [done|].
  apply first_mismatch_None in E. repeat (apply Forall_cons in E as [? E]).
  cbn [fst] in *. decimal_facts. destruct (ec_payload c) as [p| |] eqn:Hp; try done.
  apply first_mismatch_None in H. repeat (apply Forall_cons in H as [? H]). cbn [fst] in *.
  decimal_facts. repeat (split; [done|]). exists p. split_and!; try done. by apply eqb_prop.
Qed.


(** Recovery of an unknown cancel concludes ABSENT only from the absent
    target after the visibility deadline or from the exact target order seen
    closed; a target still open is never taken for cancelled. *)
Theorem cancel_recovery_sound (c : ExchangeCommand) (t : VenueTruthSnapshot) deadline d :
  ec_kind c = CANCEL_ORDER → decide_unknown_recovery c t deadline = Ok d →
  rd_status d = RECOVERY_RECONCILED_ABSENT →
  ∃ p, ec_payload c = CancelPayload p ∧
    ((vt_lookup_status t = ABSENT ∧ deadline <= vt_observed_at_ms t) ∨
     ∃ o, vt_order t = Some o ∧ vo_is_open o = false ∧
          vo_exchange_order_id o = cp_exchange_order_id p ∧
          vo_order_namespace o = cp_order_namespace p).
Proof.
  intros Hk H Hd. unfold decide_unknown_recovery in H.
  apply bind_Ok in H as (u & _ & H). apply bind_Ok in H as (u' & _ & H).
  rewrite (bool_decide_eq_true_2 _ Hk) in H.
  destruct (vt_lookup_status t) eqn:Hl;
    [..|apply decision_Ok in H as [Hs _]; congruence];
    unfold decide_cancel_recovery in H; rewrite Hl in H;
    destruct (ec_payload c) as [|p|]; try done; exists p; (split; [done|]).
  - right. destruct (vt_order t) as [o|]; [|done]. exists o. split; [done|].
    destruct (first_mismatch _) eqn:E in H; [apply decision_Ok in H as [Hs _]; congruence|].
    apply first_mismatch_None in E. repeat (apply Forall_cons in E as [? E]). cbn [fst] in *.
    decimal_facts. destruct (vo_is_open o); [|done]. cbn in H.
    destruct (deadline <=? vt_observed_at_ms t) in H; apply decision_Ok in H as [Hs _]; congruence.
  - left. split; [done|]. destruct (Z.ltb_spec (vt_observed_at_ms t) deadline); [|done].
    apply decision_Ok in H as [Hs _]; congruence.
Qed.

Lemma first_mismatch_named l r :
  Forall (λ c : bool * str, blank c.2 = false) l → first_mismatch l = Some r → blank r = false.
Proof.
  induction 1 as [|[[] m] l Hm _ IH]; cbn; [done|done|]. by intros [= <-].
Qed.

Lemma identity_contradiction_named c o r :
  identity_contradiction c o = Some r → blank r = false.
Proof.
  unfold identity_contradiction. intros H.
  destruct (first_mismatch [_; _; _]) eqn:E in H.
  - injection H as <-. eapply first_mismatch_named, E. by repeat constructor.
  - destruct (ec_payload c); try (injection H as <-; done).
    eapply first_mismatch_named, H. by repeat constructor.
Qed.

Lemma cancel_command_payload c c' :
  validate_ExchangeCommand c = Ok c' → ec_kind c = CANCEL_ORDER →
  ∃ p, ec_payload c = CancelPayload p.
Proof.
  intros H Hk. unfold validate_ExchangeCommand in H. run_ok H.
  apply validate_model_Ok in E0. unfold command_model_checks, order_command_checks in E0.
  cbn [ec_kind ec_payload] in E0. rewrite Hk in E0.
  apply Forall_app in E0 as [_ E0]. apply Forall_app in E0 as [E0 _].
  apply Forall_cons in E0 as [_ E0]. apply Forall_cons in E0 as [E0 _]. cbn [fst] in E0.
  destruct (ec_payload c); [done|by eexists|done].
Qed.

(** Recovery is total: on a constructed command of unknown outcome, a
    constructed observation and a deadline after the command's creation it
    always returns a well-formed decision; none of its exceptions fires. *)
Theorem unknown_recovery_total (c : ExchangeCommand) (t : VenueTruthSnapshot) deadline :
  validate_ExchangeCommand c = Ok c → validate_VenueTruthSnapshot t = Ok t →
  (∀ o, vt_order t = Some o → validate_VenueOrderTruth o = Ok o) →
  ec_status c = OUTCOME_UNKNOWN → ec_created_at_ms c < deadline →
  ∃ d, decide_unknown_recovery c t deadline = Ok d.
Proof.
  intros Hc Ht Ho Hs Hd. unfold decide_unknown_recovery. rewrite (bool_decide_eq_true_2 _ Hs).
  destruct (Z.leb_spec deadline (ec_created_at_ms c)); [lia|]. cbn [negb raise_if mbind result_bind].
  unfold validate_VenueTruthSnapshot in Ht. run_ok Ht. clear E Ht.
  apply validate_model_Ok in E0. apply Forall_cons in E0 as [_ E0].
  apply Forall_cons in E0 as [E0 _].
  assert (Hdec : ∀ st r, st ≠ RECONCILED_SUBMITTED → blank r = false → ∃ d, decision st t r = Ok d)
    by (intros; eexists; by apply decision_total).
  destruct (bool_decide (ec_kind c = CANCEL_ORDER)) eqn:Hk.
  - apply bool_decide_eq_true_1 in Hk. destruct (vt_lookup_status t) eqn:Hl; cbn [fst] in E0.
    3: { apply orb_false in E0 as [_ E0]. destruct (vt_reason t); [|done]. by apply Hdec. }
    all: destruct (cancel_command_payload c c Hc Hk) as [p Hp]; unfold decide_cancel_recovery; rewrite Hp, Hl.
    + apply orb_false in E0 as [E0 _]. destruct (vt_order t) as [o|]; [|done].
      destruct (first_mismatch _) as [r|] eqn:E.
      * apply Hdec; [done|]. eapply first_mismatch_named, E. by repeat constructor.
      * destruct (negb (vo_is_open o)); [by apply Hdec|].
        destruct (deadline <=? vt_observed_at_ms t); by apply Hdec.
    + destruct (vt_observed_at_ms t <? deadline); by apply Hdec.
  - destruct (vt_lookup_status t) eqn:Hl; cbn [fst] in E0.
    + apply orb_false in E0 as [E0 _]. destruct (vt_order t) as [o|] eqn:Hor; [|done].
      destruct (identity_contradiction c o) as [r|] eqn:E.
      * apply Hdec; [done|]. by eapply identity_contradiction_named.
      * specialize (Ho o eq_refl). unfold validate_VenueOrderTruth in Ho. run_ok Ho.
        apply validate_fields_Ok in E1. apply Forall_app in E1 as [E1 _].
        apply Forall_cons in E1 as [E1 _]. cbn [fst] in E1.
        eexists. unfold validate_UnknownRecoveryDecision; cbn. by rewrite E1.
    + destruct (submission_evidence c t); [by apply Hdec|].
      destruct (vt_observed_at_ms t <? deadline); by apply Hdec.
    + apply orb_false in E0 as [_ E0]. destruct (vt_reason t); [|done]. by apply Hdec.
Qed.


Lemma cancel_recovery_sound_witness :
  ∃ p, ec_payload Sample.cancel_command = CancelPayload p.
Proof.
  destruct (cancel_recovery_sound Sample.cancel_command (Sample.absent_truth 80) 60
              (mkRecoveryDecision RECOVERY_RECONCILED_ABSENT 80 None
                 (Some "cancel_target_absent_after_visibility_window")))
    as (p & Hp & _); [done|vm_compute; reflexivity|done|]. by exists p.
Defined.

Lemma unknown_recovery_total_witness :
  ∃ d, decide_unknown_recovery (Sample.entry_command OUTCOME_UNKNOWN) (Sample.absent_truth 80) 60 = Ok d.
Proof.
  apply (unknown_recovery_total (Sample.entry_command OUTCOME_UNKNOWN) (Sample.absent_truth 80) 60);
    [vm_compute; reflexivity|vm_compute; reflexivity|done|done|vm_compute; reflexivity].
Defined.

(** ** Late fills *)

Lemma validate_LateFillDecision_Ok d d' : validate_LateFillDecision d = Ok d' → d' = d.
Proof. unfold validate_LateFillDecision. intros H. by run_ok H. Qed.

Lemma unverified_Ok reason d : unverified reason = Ok d → ld_status d = UNVERIFIED.
Proof. unfold unverified. by intros ->%validate_LateFillDecision_Ok. Qed.

(** What the attribution has checked when it attributes a fill. *)
Definition attributed (f : LateFillInput) (d : LateFillDecision) : Prop :=
  ∃ payload client o price,
    ec_payload (lf_entry_command f) = OrderPayload payload ∧
    ec_venue_client_order_id (lf_entry_command f) = Some client ∧
    vt_order (lf_venue_truth f) = Some o ∧
    ec_ticket_identity (lf_entry_command f) = tk_identity (lf_ticket f) ∧
    order_identity_differs f payload client o = false ∧ vo_is_open o = false ∧
    (0 <= dval (ps_quantity (lf_position f)) <= dval (tk_quantity (lf_ticket f)))%Q ∧
    ¬ (dval (ps_quantity (lf_position f)) == 0)%Q ∧
    (dval (vt_matching_fill_quantity (lf_venue_truth f)) == dval (ps_quantity (lf_position f)))%Q ∧
    ps_observed_at_ms (lf_position f) <= vt_observed_at_ms (lf_venue_truth f) ∧
    ps_average_entry_price (lf_position f) = Some price ∧
    d = mkLateFillDecision ATTRIBUTED "exact_closed_entry_fill"
          (Some (vacuum_late_fill_proof_digest (ti_ticket_id (tk_identity (lf_ticket f)))
                   (ec_command_id (lf_entry_command f)) (vo_exchange_order_id o)
                   (vo_venue_client_order_id o)
                   (netting_domain_key (ti_netting_domain (tk_identity (lf_ticket f))))
                   (ps_quantity (lf_position f)) price (ps_observed_at_ms (lf_position f))
                   (vt_observed_at_ms (lf_venue_truth f))))
          (Some (ps_quantity (lf_position f))) (Some price).

Ltac late_step H :=
  match type of H with
  | (if ?c then _ else _) = Ok _ =>
      let B := fresh "B" in destruct c eqn:B in H;
      [apply unverified_Ok in H; congruence|]
  end.

Lemma attribution_inv f d :
  decide_vacuum_late_fill_attribution f = Ok d → ld_status d = ATTRIBUTED → attributed f d.
Proof.
  unfold decide_vacuum_late_fill_attribution. intros H Hd. cbv zeta in H.
  do 2 late_step H.
  destruct (ec_payload _) as [payload| |] eqn:Hp in H; try (apply unverified_Ok in H; congruence).
  destruct (ec_venue_client_order_id _) as [client|] eqn:Hcl in H;
    [|apply unverified_Ok in H; congruence].
  do 5 late_step H.
  destruct (vt_lookup_status _) in H; try (apply unverified_Ok in H; congruence).
  destruct (vt_order _) as [o|] eqn:Ho in H; [|apply unverified_Ok in H; congruence].
  do 3 late_step H. unfold attribute_exact_fill in H.
  destruct (ps_quantity _ =? d0)%dec eqn:Hz in H.
  { late_step H. apply validate_LateFillDecision_Ok in H. by subst d. }
  destruct (ps_average_entry_price _) as [price|] eqn:Hpr in H; [|done].
  late_step H. apply validate_LateFillDecision_Ok in H.
  exists payload, client, o, price. decimal_facts.
  repeat match goal with B : _ <? _ = false |- _ => apply Z.ltb_ge in B end.
  by split_and!.
Qed.

(** An attributed late fill is a fact the reducer accepts: the event the
    decision stands for takes the cancelled ENTRY of that Ticket to the
    venue's exact position, never beyond the Ticket's quantity. *)
Theorem attributed_fill_is_reducible (f : LateFillInput) (d : LateFillDecision)
    (a : TradeAggregate) (vacuum_id client event_id : str) (at_ms : Z) q price digest :
  decide_vacuum_late_fill_attribution f = Ok d → ld_status d = ATTRIBUTED →
  ld_filled_qty d = Some q → ld_average_fill_price d = Some price → ld_proof_digest d = Some digest →
  status a = ENTRY_VACUUM_CANCELLED → entry_vacuum_id a = Some vacuum_id →
  entry_exchange_order_id a = Some (lf_entry_exchange_order_id f) →
  (dval (position_qty a) == 0)%Q → frame_inv a → ticket a = lf_ticket f →
  build_command_id (tid a) ENTRY 1 = Ok (ec_command_id (lf_entry_command f)) →
  build_venue_client_order_id (ec_command_id (lf_entry_command f)) = Ok client →
  ec_venue_client_order_id (lf_entry_command f) = Some client →
  ∃ r, reduce_event (Some a)
         (mkEvent event_id (last_event_sequence a + 1) at_ms (tid a)
            (VacuumLateFillAttributed vacuum_id (ec_command_id (lf_entry_command f))
               (lf_entry_exchange_order_id f) client q price
               (ps_observed_at_ms (lf_position f)) (vt_observed_at_ms (lf_venue_truth f)) digest))
       = Ok r ∧
       position_qty (aggregate r) = ps_quantity (lf_position f) ∧
       status (aggregate r) = ENTRY_VACUUM_CANCELLED ∧
       (dval (position_qty (aggregate r)) <= dval (tk_quantity (ticket a)))%Q.
Proof.
  intros H Hd Hq Hpr Hdig Hs Hv He Hz Hf Ht Hcmd Hcid Hcl.
  destruct (attribution_inv f d H Hd)
    as (payload & cl & o & p & Hp & Hcl' & Ho & Hid & Hor & Hop & Hb & _ & _ & _ & Hp' & ->).
  cbn in Hq, Hpr, Hdig. simplify_eq. unfold order_identity_differs in Hor. decimal_facts.
  pose proof (frame_identity a Hf) as Hi.
  eexists. split; [apply reduce_event_Some; split_and!; try done|].
  - unfold reduce_body. cbn [ev_body]. unfold on_VacuumLateFillAttributed.
    rewrite (bind_pass _ _ (require_status_pass _ _ Hs)), Hcmd. cbn [mbind result_bind].
    rewrite Hcid. cbn [mbind result_bind]. rewrite bind_pass; [reflexivity|apply raise_if_pass].
    rewrite !orb_false. unfold vacuum_lineage_differs. rewrite !orb_false, !negb_false, Hv, He.
    rewrite !bool_decide_true, deqb_spec, dltb_false, dval_d0. unfold tid. rewrite Hi, Ht.
    split_and!; congruence || tauto.
  - read_fields. rewrite Ht. split_and!; try done. apply Hb.
Qed.

Lemma attributed_fill_is_reducible_witness :
  ∃ r, reduce_event (Some Sample.withdrawn_state) Sample.late_event = Ok r ∧
       position_qty (aggregate r) = d1.
Proof.
  destruct (attributed_fill_is_reducible Sample.late_fill Sample.late_decision
    Sample.withdrawn_state "vacuum-1" Sample.client_id "event" 80 d1 (of_int 100)
    Sample.late_digest) as (r & Hr & Hq & _).
  - vm_compute. reflexivity.
  - reflexivity.
  - reflexivity.
  - reflexivity.
  - reflexivity.
  - reflexivity.
  - reflexivity.
  - reflexivity.
  - vm_compute. reflexivity.
  - apply reachable_frame. eapply history_reachable, Sample.withdrawn_history.
  - reflexivity.
  - vm_compute. reflexivity.
  - vm_compute. reflexivity.
  - reflexivity.
  - exists r. split; [exact Hr|exact Hq].
Defined.

(** ** Post-fill risk *)

(** The exact risk of a fill: quantity times the distance to the stop. *)
Definition exact_stop_risk (r : PostFillRiskRequest) : Q :=
  (dval (pr_filled_quantity r) * Qabs (dval (pr_average_fill_price r) - dval (pr_initial_stop_price r)))%Q.

Lemma dabs_sub a b : (dval (dabs (a - b)%dec) == Qabs (dval (a - b)%dec))%Q.
Proof.
  unfold dabs. rewrite fix_prec_id; [apply dval_raw_abs|].
  pose proof (dsub_fits a b) as H. unfold fits in *. cbn. by rewrite Z.abs_involutive.
Qed.

Lemma dabs_sub_bounds a b :
  (Qabs (dval a - dval b) * (1 - eps) <= dval (dabs (a - b)%dec) <= Qabs (dval a - dval b) * (1 + eps))%Q.
Proof.
  rewrite dabs_sub. pose proof (fix_prec_err (raw_add a (raw_neg b))) as H.
  change (fix_prec (raw_add a (raw_neg b))) with (a - b)%dec in H.
  rewrite dval_raw_add, dval_raw_neg in H. change (dval a + - dval b)%Q with (dval a - dval b)%Q in H.
  pose proof (Qabs_triangle_reverse (dval (a - b)%dec) (dval a - dval b)) as H1.
  pose proof (Qabs_triangle_reverse (dval a - dval b) (dval (a - b)%dec)) as H2.
  rewrite (Qabs_Qminus (dval a - dval b)) in H2. unfold eps in *. lra.
Qed.

(** The post-fill classification.  A fill is kept exactly when its stop
    is on the protective side and its risk at the stop is within the Ticket's
    post-fill limit; it is flattened at once exactly when the stop is on the
    wrong side; and the risk it reports is the exact quantity times the
    distance to the stop up to two roundings at 28 digits. *)
Theorem post_fill_risk_classifies (r : PostFillRiskRequest) :
  validate_PostFillRiskRequest r = Ok r →
  let d := assess_post_fill_risk r in
  (pd_disposition d = NORMAL ↔ stop_is_protective r = true ∧
     (dval (pd_actual_stop_risk d) <= dval (pr_post_fill_stop_risk_limit r))%Q) ∧
  (pd_disposition d = FLATTEN_IMMEDIATELY ↔ stop_is_protective r = false) ∧
  (pd_status d = WITHIN_BUDGET → (dval (pd_actual_stop_risk d) <= dval (pr_planned_stop_risk_budget r))%Q) ∧
  (exact_stop_risk r * (1 - eps) * (1 - eps) <= dval (pd_actual_stop_risk d)
   <= exact_stop_risk r * (1 + eps) * (1 + eps))%Q.
Proof.
  intros Hv d. assert (Hq : (0 < dval (pr_filled_quantity r))%Q).
  { unfold validate_PostFillRiskRequest in Hv. run_ok Hv. apply validate_fields_Ok in E.
    apply Forall_cons in E as [E _]. cbn [fst] in E. by apply nonpositive_false. }
  assert (Hlim : (dval (pr_planned_stop_risk_budget r) <= dval (pr_post_fill_stop_risk_limit r))%Q).
  { unfold validate_PostFillRiskRequest in Hv. run_ok Hv. apply validate_model_Ok in E0.
    apply Forall_cons in E0 as [E0 _]. by apply dltb_false. }
  assert (Hrisk : pd_actual_stop_risk d = (pr_filled_quantity r *
    dabs (pr_average_fill_price r - pr_initial_stop_price r))%dec).
  { subst d. unfold assess_post_fill_risk. by repeat case_match. }
  split; [|split; [|split]].
  - rewrite Hrisk. subst d. unfold assess_post_fill_risk. cbv zeta.
    destruct (stop_is_protective r); [|naive_solver].
    cbn [negb]. destruct (_ >? pr_post_fill_stop_risk_limit r)%dec eqn:E1.
    + apply dltb_spec in E1. split; [done|]. intros [_ H]. lra.
    + apply dltb_false in E1. destruct (_ >? _)%dec; split; done.
  - subst d. unfold assess_post_fill_risk. cbv zeta.
    destruct (stop_is_protective r); cbn [negb]; [|done].
    destruct (_ >? pr_post_fill_stop_risk_limit r)%dec; [done|]. by destruct (_ >? _)%dec.
  - rewrite Hrisk. subst d. unfold assess_post_fill_risk. cbv zeta.
    destruct (stop_is_protective r); cbn [negb]; [|done].
    destruct (_ >? pr_post_fill_stop_risk_limit r)%dec; [done|].
    destruct (_ >? _)%dec eqn:E; [done|]. intros _. by apply dltb_false.
  - rewrite Hrisk. pose proof (dabs_sub_bounds (pr_average_fill_price r) (pr_initial_stop_price r)) as [B1 B2].
    apply dmul_bounds; [by apply Qlt_le_weak|apply Qabs_nonneg|by split].
Qed.

Lemma post_fill_risk_classifies_witness :
  pd_disposition (assess_post_fill_risk
    (mkPostFillRiskRequest long (of_int 2) (of_int 100) (of_int 95) (of_int 12) (of_int 15))) = NORMAL.
Proof.
  apply (post_fill_risk_classifies
    (mkPostFillRiskRequest long (of_int 2) (of_int 100) (of_int 95) (of_int 12) (of_int 15)));
    [vm_compute; reflexivity|split; [reflexivity|]].
  intro H. vm_compute in H. discriminate H.
Defined.

(** ** Properties of the capacity sizing

    [select_capacity_candidate] on every validated request: it decides, and
    what it selects is executable and within its budgets, up to the decimal
    roundings between the budget and the committed risk. *)

Module SampleSizing.

(** A request with a ticket budget of 10 and a stop distance of 5. *)
Definition request (budget_fraction : Decimal) : CapacitySizingRequest :=
  {| sr_total_wallet_balance := of_int 1000; sr_total_margin_balance := of_int 1000;
     sr_total_initial_margin := d0; sr_current_reserved_margin := d0;
     sr_gross_risk_at_stop := d0; sr_directional_risk_at_stop := d0;
     sr_available_margin := of_int 1000; sr_active_ticket_count := 0;
     sr_max_concurrent_tickets := 2; sr_max_ticket_stop_risk_fraction := budget_fraction;
     sr_max_gross_stop_risk_fraction := mkDecimal 5 (-2);
     sr_max_ticket_initial_margin_fraction := mkDecimal 3 (-1);
     sr_max_gross_initial_margin_utilization := mkDecimal 8 (-1);
     sr_directional_stop_risk_limit_fraction := mkDecimal 4 (-2);
     sr_min_materialization_ratio := mkDecimal 5 (-1); sr_permitted_max_leverage := 20;
     sr_configured_leverage := 5; sr_entry_reference_price := of_int 100;
     sr_initial_stop_price := of_int 95; sr_take_profit_price := of_int 110;
     sr_quantity_step := d1; sr_min_quantity := d1; sr_min_notional := of_int 5;
     sr_tp1_quantity_fraction := mkDecimal 5 (-1) |}.

Definition plain := request (mkDecimal 1 (-2)).

(** 0.009999999999999999999999999999 of 1000. *)
Definition tight := request (mkDecimal 9999999999999999999999999999 (-30)).

Definition plain_decision := Eval vm_compute in
  match select_capacity_candidate plain with
  | Ok d => d
  | Raise _ => mkSizingDecision INVALID_FACTS None
  end.
Definition plain_selection := Eval vm_compute in
  match sd_selected plain_decision with
  | Some c => c
  | None => mkSizingSelection 0 d0 d0 d0 d0 d0 d0 d0 d0 d0 0 0 0 false d0 d0 d0 d0 d0 d0
  end.

Lemma plain_valid : validate_CapacitySizingRequest plain = Ok plain.
Proof. vm_compute. reflexivity. Qed.

End SampleSizing.

(** The guards before the budgets. *)
Definition leverage_facts_valid (r : CapacitySizingRequest) : Prop :=
  sr_configured_leverage r = FIXED_EXCHANGE_CONFIGURED_LEVERAGE ∧
  FIXED_EXCHANGE_CONFIGURED_LEVERAGE <= sr_permitted_max_leverage r.

Lemma leverage_guard r :
  (negb (sr_configured_leverage r =? FIXED_EXCHANGE_CONFIGURED_LEVERAGE)
   || (sr_permitted_max_leverage r <? FIXED_EXCHANGE_CONFIGURED_LEVERAGE)) = false ↔
  leverage_facts_valid r.
Proof.
  unfold leverage_facts_valid. rewrite orb_false_iff, negb_false_iff, Z.eqb_eq, Z.ltb_ge. done.
Qed.

(** The four refusals of [select_capacity_candidate], then the sizing proper. *)
Lemma select_cases r :
  (sr_max_concurrent_tickets r <= sr_active_ticket_count r ∧
     select_capacity_candidate r = refused COUNT_EXHAUSTED) ∨
  (sr_active_ticket_count r < sr_max_concurrent_tickets r ∧ ¬ leverage_facts_valid r ∧
     select_capacity_candidate r = refused INVALID_FACTS) ∨
  (sr_active_ticket_count r < sr_max_concurrent_tickets r ∧ leverage_facts_valid r ∧
     ((∃ s, s ∈ [DIRECTIONAL_RISK_EXHAUSTED; STOP_RISK_EXHAUSTED; MARGIN_EXHAUSTED] ∧
        select_capacity_candidate r = refused s) ∨
      ((0 < dval (sb_ticket_stop_risk_budget (sizing_budgets r)))%Q ∧
       (0 < dval (sb_ticket_margin_budget (sizing_budgets r)))%Q ∧
       select_capacity_candidate r = size_within r (sizing_budgets r)))).
Proof.
  unfold select_capacity_candidate. destruct (_ <=? _) eqn:E1; [left; split; [lia|done]|right].
  destruct (_ || _) eqn:E2.
  { left. split_and!; [lia| |done]. intros H%leverage_guard. congruence. }
  apply leverage_guard in E2. right. split_and!; [lia|done|]. cbv zeta.
  destruct (sb_ticket_stop_risk_budget _ <=? d0)%dec eqn:E3.
  { left. destruct (sb_remaining_directional_stop_risk _ <=? d0)%dec; eexists; (split; [|reflexivity]); repeat constructor. }
  destruct (sb_ticket_margin_budget _ <=? d0)%dec eqn:E4.
  { left. eexists; (split; [|reflexivity]); repeat constructor. }
  right. decimal_facts. done.
Qed.

(** Sizing is total: on every request that passes its validators,
    [select_capacity_candidate] returns a decision (no division by zero, no
    rejected result), which carries a candidate exactly when it is SELECTED;
    COUNT_EXHAUSTED is the answer exactly when every slot is taken, and
    INVALID_FACTS exactly when a slot is free but the configured leverage is
    not 5 or the permitted one is below 5. *)
Theorem sizing_always_decides r :
  validate_CapacitySizingRequest r = Ok r →
  ∃ d, select_capacity_candidate r = Ok d ∧
    (sd_status d = SELECTED ↔ is_Some (sd_selected d)) ∧
    (sd_status d = COUNT_EXHAUSTED ↔ sr_max_concurrent_tickets r <= sr_active_ticket_count r) ∧
    (sd_status d = INVALID_FACTS ↔
       sr_active_ticket_count r < sr_max_concurrent_tickets r ∧ ¬ leverage_facts_valid r).
Proof.
  intros Hr%validated_sizing_facts.
  assert (Hrefused : ∀ s, s ≠ SELECTED → is_Some (sd_selected (mkSizingDecision s None)) → False)
    by (intros s _ [c [=]]).
  destruct (select_cases r) as [[G ->]|[(G & L & ->)|(G & L & [(s & Hs & ->)|(B1 & B2 & ->)])]].
  - rewrite refused_total by done. eexists. split; [done|]. cbn.
    split_and!; split; try done; try lia; try (by intros [c [=]]); tauto.
  - rewrite refused_total by done. eexists. split; [done|]. cbn.
    split_and!; split; try done; try lia; try (by intros [c [=]]); tauto.
  - rewrite !elem_of_cons in Hs.
    assert (s ≠ SELECTED ∧ s ≠ COUNT_EXHAUSTED ∧ s ≠ INVALID_FACTS) as (N1 & N2 & N3)
      by (destruct Hs as [->|[->|[->|Hs]]]; try done; by apply elem_of_nil in Hs).
    rewrite refused_total by done. eexists. split; [done|]. cbn.
    split_and!; split; try done; try (by intros [c [=]]); try lia; tauto.
  - destruct (size_within_total r (sizing_budgets r) Hr) as (d & Hd & N1 & N2);
      [exact (dmin3_pos _ _ _ B1)|done|].
    exists d. split; [done|]. split; [by eapply size_within_shape|]. split; split; try done; lia || tauto.
Qed.

Lemma sizing_always_decides_witness :
  validate_CapacitySizingRequest SampleSizing.plain = Ok SampleSizing.plain ∧
  ∃ d, select_capacity_candidate SampleSizing.plain = Ok d.
Proof.
  split; [vm_compute; reflexivity|].
  destruct (sizing_always_decides SampleSizing.plain SampleSizing.plain_valid) as (d & H & _).
  by exists d.
Defined.

(** C27: A selected candidate is safe: a slot was free; the leverage is the
    fixed 5, configured and permitted; the planned stop risk is at least the
    minimum materialisation budget and exceeds the ticket's stop-risk budget
    by less than one part in 10^26 (six roundings of the decimal context);
    the reserved margin stays within the ticket's margin budget up to the same
    rounding; the quantity, the take-profit part and the runner part each meet
    the venue's minimum quantity, the entry and both exits its minimum
    notional, and the two parts are the split of the quantity. *)
Theorem selected_sizing_is_safe r d c :
  validate_CapacitySizingRequest r = Ok r → select_capacity_candidate r = Ok d →
  sd_selected d = Some c →
  let b := sizing_budgets r in
  sd_status d = SELECTED ∧
  sr_active_ticket_count r < sr_max_concurrent_tickets r ∧
  ss_selected_leverage c = 5 ∧ sr_configured_leverage r = 5 ∧ 5 <= sr_permitted_max_leverage r ∧
  (dval (sb_minimum_stop_risk_budget b) <= dval (ss_planned_stop_risk c)
    <= dval (sb_ticket_stop_risk_budget b) * (1 + (1 # 100000000000000000000000000)))%Q ∧
  (dval (ss_reserved_margin c)
    <= dval (sb_ticket_margin_budget b) * (1 + (1 # 100000000000000000000000000)))%Q ∧
  Forall (λ q, (dval (sr_min_quantity r) <= dval q)%Q)
    [ss_quantity c; ss_tp1_quantity c; ss_runner_quantity c] ∧
  ss_runner_quantity c = (ss_quantity c - ss_tp1_quantity c)%dec ∧
  Forall (λ n, (dval (sr_min_notional r) <= dval n)%Q)
    [ss_notional c; (ss_tp1_quantity c * sr_take_profit_price r)%dec;
     (ss_runner_quantity c * sr_initial_stop_price r)%dec].
Proof.
  intros Hr%validated_sizing_facts H Hc. cbv zeta.
  destruct (select_cases r) as [[_ E]|[(_ & _ & E)|(G & [L1 L2] & [(s & _ & E)|(B1 & B2 & E)])]];
    rewrite E in H; try (apply refused_Ok in H as [-> _]; discriminate Hc).
  destruct (size_within_selected _ _ _ _ Hr B2 H Hc) as (u & q & Hu & Hq & Hok & Hmin).
  assert (Hs : sd_status d = SELECTED) by (apply (size_within_shape _ _ _ H); by eexists).
  pose proof (planned_risk_bound _ _ _ _ _ _ _ Hr B1 Hu Hq Hok) as Hrisk.
  pose proof (grown_le 6 9 (dval (sb_ticket_stop_risk_budget (sizing_budgets r)))) as H69.
  pose proof (grown_9 _ (Qlt_le_weak _ _ B1)) as Hg1.
  pose proof (grown_9 _ (Qlt_le_weak _ _ B2)) as Hg2.
  destruct Hok. rewrite !Forall_cons, !Forall_nil. split_and!; try done.
  - eapply Qle_trans; [exact Hrisk|]. eapply Qle_trans; [|exact Hg1].
    apply H69; [lia|by apply Qlt_le_weak].
  - by eapply Qle_trans.
Qed.

Lemma selected_sizing_is_safe_witness :
  validate_CapacitySizingRequest SampleSizing.plain = Ok SampleSizing.plain ∧
  select_capacity_candidate SampleSizing.plain = Ok SampleSizing.plain_decision ∧
  ss_quantity SampleSizing.plain_selection = mkDecimal 2 0 ∧
  ss_selected_leverage SampleSizing.plain_selection = 5.
Proof.
  assert (H : select_capacity_candidate SampleSizing.plain = Ok SampleSizing.plain_decision)
    by (vm_compute; reflexivity).
  split_and!; [vm_compute; reflexivity|exact H|vm_compute; reflexivity|].
  exact (proj1 (proj2 (proj2 (selected_sizing_is_safe SampleSizing.plain
    SampleSizing.plain_decision SampleSizing.plain_selection SampleSizing.plain_valid H
    eq_refl)))).
Defined.

(** The rounding allowance of the bound above is needed: the division of the budget
    by the risk per unit is rounded half-even before it is floored to the
    step, so the selected candidate's planned stop risk can exceed the
    ticket's stop-risk budget: here the budget is 9.999999999999999999999999999,
    the stop distance 5, and the selected quantity 2 plans a risk of 10. *)
Theorem planned_risk_can_exceed_the_budget :
  ∃ r d c, validate_CapacitySizingRequest r = Ok r ∧ select_capacity_candidate r = Ok d ∧
    sd_selected d = Some c ∧
    (dval (sb_ticket_stop_risk_budget (sizing_budgets r)) < dval (ss_planned_stop_risk c))%Q.
Proof.
  exists SampleSizing.tight. do 2 eexists. split; [vm_compute; reflexivity|].
  split; [vm_compute; reflexivity|]. split; [reflexivity|]. vm_compute. reflexivity.
Qed.
