(* ===== verification/CapacityProperties.v ===== *)
(** * What a Capacity Claim guarantees

    A validated Claim is a fixed point of its validators and issues its Ticket
    exactly under three conditions; freezing is conservative, ends at the
    storage boundary, and is idempotent. *)

From Stdlib Require Import QArith Lqa.
From S2P Require Import Prelude PyString Sha256 PyDecimal DecimalFacts Identities Ticket.
From S2P Require Import PostFillRisk CrossMarginStress Capacity Events Aggregate Reducer Lifecycle.
From S2P Require Import Samples.
#[local] Open Scope Z_scope.

Module SampleClaim.

(** The values of a Claim, with a trailing-zero budget and an identity that
    freezing replaces. *)
Definition claim_values : CapacityClaim :=
  {| cc_capacity_claim_id := "claim"; cc_ticket_identity := Sample.ticket_identity;
     cc_owner_policy_id := "policy"; cc_owner_policy_version := 1; cc_runtime_scope_id := "scope";
     cc_runtime_scope_version := 1; cc_universe_version_id := "universe";
     cc_universe_semantic_digest := Sample.digest; cc_fact_digest := Sample.digest; cc_exit_policy_id := "exit";
     cc_exit_policy_semantic_hash := Sample.digest; cc_exit_binding_id := Some "binding";
     cc_exit_binding_semantic_hash := Some Sample.digest; cc_exit_binding_authority_version := Some 1;
     cc_entry_admission_snapshot_digest := Sample.digest; cc_account_entry_health_digest := Sample.digest;
     cc_instrument_entry_health_digest := Sample.digest; cc_instrument_rules_projection_version := 1;
     cc_account_capacity_domain_key := "binance-usdm:main"; cc_leverage_domain_key := "leverage";
     cc_total_wallet_balance_at_claim := of_int 1000; cc_total_margin_balance_at_claim := of_int 1000;
     cc_total_initial_margin_at_claim := of_int 40; cc_total_maintenance_margin_at_claim := of_int 2;
     cc_available_margin_at_claim := of_int 960; cc_mark_price_at_claim := of_int 100;
     cc_position_mode_at_claim := independent_sides; cc_margin_mode_at_claim := cross;
     cc_active_ticket_count_at_claim := 0; cc_remaining_slots_at_claim := 2;
     cc_exposure_family := opening_range; cc_active_family_ticket_count_at_claim := 0;
     cc_family_ticket_limit := 1; cc_max_same_strategy_side := Some 2;
     cc_active_strategy_side_ticket_count_at_claim := Some 0; cc_remaining_family_slots_at_claim := 1;
     cc_gross_risk_at_stop_at_claim := d0; cc_directional_risk_at_stop_at_claim := d0;
     cc_current_reserved_margin_at_claim := d0; cc_max_ticket_stop_risk_fraction := mkDecimal 2 (-2);
     cc_max_gross_stop_risk_fraction := mkDecimal 6 (-2);
     cc_directional_stop_risk_limit_fraction := mkDecimal 5 (-2);
     cc_max_ticket_initial_margin_fraction := mkDecimal 1 (-1);
     cc_max_gross_initial_margin_utilization := mkDecimal 5 (-1);
     cc_min_materialization_ratio := mkDecimal 25 (-2); cc_minimum_stop_risk_budget := of_int 5;
     cc_planned_stop_risk_budget := of_int 12;
     cc_max_post_fill_stop_risk_overrun_fraction := mkDecimal 1 (-1);
     cc_post_fill_stop_risk_limit := mkDecimal 132 (-1); cc_post_stop_stress_multiple := of_int 2;
     cc_ticket_margin_budget := mkDecimal 50000000000000000000000000 (-24); cc_required_leverage := 4; cc_selected_leverage := 5;
     cc_configured_leverage_at_claim := 5; cc_leverage_change_required := false;
     cc_exchange_max_leverage := 20; cc_reserved_margin := of_int 40;
     cc_cross_margin_stress_evidence := Sample.evidence; cc_created_at_ms := 10; cc_expires_at_ms := 100;
     cc_entry_reference_price := of_int 100; cc_quantity := of_int 2; cc_notional := of_int 200;
     cc_risk_at_stop := of_int 10; cc_entry_order_type := MARKET; cc_entry_limit_price := None;
     cc_initial_stop_price := of_int 95; cc_pre_tp1_reclaim_price := Some (of_int 97);
     cc_exposure_session_end_ms := Some 90; cc_take_profit_prices := [of_int 105];
     cc_take_profit_quantities := [of_int 1]; cc_decision_digest := Sample.digest;
     cc_selection_authority_id := None |}.

Definition claim := Eval vm_compute in
  match freeze_capacity_claim claim_values with Ok c => c | Raise _ => claim_values end.

Lemma frozen : freeze_capacity_claim claim_values = Ok claim.
Proof. vm_compute. reflexivity. Qed.

Lemma valid : validate_CapacityClaim claim = Ok claim.
Proof. vm_compute. reflexivity. Qed.

Lemma proved : validate_CrossMarginStressProof Sample.stress_proof
  = Ok (cse_proof (cc_cross_margin_stress_evidence claim)).
Proof. vm_compute. reflexivity. Qed.

End SampleClaim.

(** ** Validation is a fixed point *)

Lemma normalize_optional_idemp o : normalize_optional (normalize_optional o) = normalize_optional o.
Proof.
  destruct o as [s|]; [|done]. cbn. destruct (blank s) eqn:E; [done|]. cbn.
  by rewrite blank_strip, E, strip_idemp.
Qed.

#[local] Arguments strip : simpl never.
#[local] Arguments blank : simpl never.
#[local] Arguments normalize_optional : simpl never.

Lemma normalize_claim_idemp c : normalize_claim (normalize_claim c) = normalize_claim c.
Proof. unfold normalize_claim. cbn. by rewrite !strip_idemp, !normalize_optional_idemp. Qed.

Lemma claim_field_checks_normal c : claim_field_checks (normalize_claim c) = claim_field_checks c.
Proof. unfold claim_field_checks. cbn. by rewrite !blank_strip. Qed.

Lemma validate_claim_Ok c0 c :
  validate_CapacityClaim c0 = Ok c ↔
    c = normalize_claim c0 ∧ Forall (λ k, k.1 = false) (claim_field_checks c) ∧
    Forall (λ k, k.1 = false) (claim_model_checks c).
Proof.
  unfold validate_CapacityClaim. rewrite bind_Ok. split.
  - intros (u & Hf & H). apply validate_fields_Ok in Hf. apply bind_Ok in H as (v & Hm & H).
    apply validate_model_Ok in Hm. apply Ok_inj in H as <-. by rewrite claim_field_checks_normal.
  - intros (-> & Hf & Hm). rewrite claim_field_checks_normal in Hf. exists tt.
    split; [by apply validate_fields_Ok|]. apply bind_Ok. exists tt.
    split; [by apply validate_model_Ok|done].
Qed.

Lemma validate_claim_fixed c0 c :
  validate_CapacityClaim c0 = Ok c → validate_CapacityClaim c = Ok c.
Proof.
  rewrite !validate_claim_Ok. intros (-> & Hf & Hm). split_and!; [|done..].
  by rewrite normalize_claim_idemp.
Qed.

(** ** The Ticket *)

(** Binding facts of a validated Claim, one per Ticket validator. *)
Lemma claim_facts c :
  validate_CapacityClaim c = Ok c → normalize_claim c = c ∧
  Forall (λ k, k.1 = false) (claim_field_checks c) ∧
  Forall (λ k, k.1 = false) (claim_shape_checks c) ∧
  Forall (λ k, k.1 = false) (claim_budget_checks c).
Proof.
  rewrite validate_claim_Ok. unfold claim_model_checks. rewrite !Forall_app. naive_solver.
Qed.

(** The facts in the context, one per check. *)
Ltac claim_context Hc :=
  let Hn := fresh "Hn" in let Hf := fresh "Hf" in let Hs := fresh "Hs" in let Hb := fresh "Hb" in
  destruct (claim_facts _ Hc) as (Hn & Hf & Hs & Hb);
  unfold claim_field_checks in Hf; unfold claim_shape_checks in Hs; unfold claim_budget_checks in Hb;
  cbn [fmap list_fmap app] in Hf;
  repeat match goal with
  | H : Forall _ (_ :: _) |- _ => apply Forall_cons in H as [? H]; cbn [fst] in *
  end.

(** The minimum is a product of positive factors. *)
Lemma claim_minimum_positive c :
  validate_CapacityClaim c = Ok c → nonpositive (cc_minimum_stop_risk_budget c) = false.
Proof.
  intros Hc. claim_context Hc. rewrite negb_false, deqb_spec in *.
  rewrite nonpositive_false in *. lazymatch goal with
  | H : (dval (cc_minimum_stop_risk_budget c) == _)%Q |- _ => rewrite H end.
  apply dmul_pos; [apply dmul_pos|]; assumption.
Qed.

Lemma claim_ticket_fields c :
  validate_CapacityClaim c = Ok c →
  is_sha256_digest (csp_proof_digest (cse_proof (cc_cross_margin_stress_evidence c))) = true →
  Forall (λ k, k.1 = false) (ticket_field_checks (claim_ticket c)).
Proof.
  intros Hc Hp. pose proof (claim_minimum_positive c Hc) as Hmin. claim_context Hc.
  unfold ticket_field_checks, claim_ticket. cbn [fmap list_fmap app].
  each_check ltac:(cbn; first
    [ assumption | reflexivity
    | rewrite digest_strip, negb_false in *; first [assumption|by apply negb_false] | lia ]).
Qed.

Lemma claim_ticket_models c :
  validate_CapacityClaim c = Ok c →
  Forall (λ k, k.1 = false) (ticket_model_checks (claim_ticket c)) ↔
  0 < cc_remaining_family_slots_at_claim c.
Proof.
  intros Hc. claim_context Hc. split.
  - unfold ticket_model_checks, claim_ticket. cbn [fst]. intros F.
    do 7 (apply Forall_cons in F as [_ F]). apply Forall_cons in F as [F _]. cbn in F.
    rewrite negb_false in *. lia.
  - intros Hslots. unfold ticket_model_checks, claim_ticket.
    each_check ltac:(cbn; first [assumption | rewrite negb_false in *; lia
                                |by destruct (cc_entry_order_type c)]).
Qed.

(** The rewritten fields of a normal Claim. *)
Lemma normal_claim_fields c :
  normalize_claim c = c →
  strip (cc_owner_policy_id c) = cc_owner_policy_id c ∧
  strip (cc_runtime_scope_id c) = cc_runtime_scope_id c ∧
  strip (cc_universe_version_id c) = cc_universe_version_id c ∧
  strip (cc_exit_policy_id c) = cc_exit_policy_id c ∧
  strip (cc_capacity_claim_id c) = cc_capacity_claim_id c ∧
  normalize_optional (cc_exit_binding_id c) = cc_exit_binding_id c ∧
  normalize_optional (cc_selection_authority_id c) = cc_selection_authority_id c.
Proof.
  intros H. split_and!;
    [exact (f_equal cc_owner_policy_id H)|exact (f_equal cc_runtime_scope_id H)
    |exact (f_equal cc_universe_version_id H)|exact (f_equal cc_exit_policy_id H)
    |exact (f_equal cc_capacity_claim_id H)|exact (f_equal cc_exit_binding_id H)
    |exact (f_equal cc_selection_authority_id H)].
Qed.

(** The Ticket's own normalisation has nothing left to do. *)
Lemma claim_ticket_normal c :
  validate_CapacityClaim c = Ok c →
  is_sha256_digest (csp_proof_digest (cse_proof (cc_cross_margin_stress_evidence c))) = true →
  normalize_ticket (claim_ticket c) = claim_ticket c.
Proof.
  intros Hc Hp. claim_context Hc. rewrite !negb_false in *.
  destruct (normal_claim_fields c Hn) as (E1 & E2 & E3 & E4 & E5 & E6 & E7).
  unfold normalize_ticket, claim_ticket. cbn.
  change (strip "planned_stop_distance") with "planned_stop_distance".
  by rewrite E1, E2, E3, E4, E5, E6, E7, !digest_strip.
Qed.

Lemma stress_proof_digests p0 p :
  validate_CrossMarginStressProof p0 = Ok p → is_sha256_digest (csp_proof_digest p) = true.
Proof.
  unfold validate_CrossMarginStressProof. intros H. apply bind_Ok in H as (u & Hf & H).
  apply validate_fields_Ok in Hf. cbn [fmap list_fmap app] in Hf.
  repeat (apply Forall_cons in Hf as [? Hf]). cbn [fst] in *. rewrite !negb_false in *.
  cbn [csp_status] in H.
  destruct (csp_status p0); apply bind_Ok in H as (v & _ & H); apply Ok_inj in H as <-; done.
Qed.

Lemma claim_ticket_valid c :
  validate_CapacityClaim c = Ok c →
  is_sha256_digest (csp_proof_digest (cse_proof (cc_cross_margin_stress_evidence c))) = true →
  0 < cc_remaining_family_slots_at_claim c →
  validate_TradeTicket (claim_ticket c) = Ok (claim_ticket c).
Proof.
  intros Hc Hp Hs. unfold validate_TradeTicket.
  rewrite bind_pass by by apply validate_fields_Ok, claim_ticket_fields.
  cbv zeta. rewrite claim_ticket_normal by done.
  rewrite bind_pass by by apply validate_model_Ok, claim_ticket_models. done.
Qed.

Lemma to_ticket_iff c t :
  validate_CapacityClaim c = Ok c →
  is_sha256_digest (csp_proof_digest (cse_proof (cc_cross_margin_stress_evidence c))) = true →
  to_ticket c = Ok t ↔
    t = claim_ticket c ∧ cc_margin_mode_at_claim c = cross ∧ is_Some (cc_exit_binding_id c) ∧
    0 < cc_remaining_family_slots_at_claim c.
Proof.
  intros Hc Hp. unfold to_ticket. split.
  - intros H. apply bind_Ok in H as (u & G1%raise_if_Ok & H).
    apply bind_Ok in H as (v & G2%raise_if_Ok & H). decimal_facts.
    assert (Hs : 0 < cc_remaining_family_slots_at_claim c).
    { apply claim_ticket_models; [done|]. unfold validate_TradeTicket in H.
      apply bind_Ok in H as (w & _ & H). cbv zeta in H. rewrite claim_ticket_normal in H by done.
      apply bind_Ok in H as (w' & Hm & _). by apply validate_model_Ok in Hm. }
    rewrite claim_ticket_valid in H by done. apply Ok_inj in H as <-. split_and!; try done.
    by destruct (cc_exit_binding_id c).
  - intros (-> & Hm & [b Hb] & Hs). rewrite bind_pass by (apply raise_if_pass; by rewrite Hm).
    rewrite bind_pass; [by apply claim_ticket_valid|]. apply raise_if_pass. claim_context Hc.
    rewrite Hb in *. by destruct (cc_exit_binding_semantic_hash c), (cc_exit_binding_authority_version c).
Qed.

Lemma claim_budgets c :
  validate_CapacityClaim c = Ok c →
  (dval (cc_risk_at_stop c) <= dval (cc_planned_stop_risk_budget c))%Q ∧
  (dval (cc_minimum_stop_risk_budget c) <= dval (cc_risk_at_stop c))%Q ∧
  (dval (cc_reserved_margin c) <= dval (cc_ticket_margin_budget c))%Q.
Proof. intros Hc. claim_context Hc. rewrite ?dltb_false in *. by split_and!. Qed.

(** A constructed Claim issues its Ticket exactly when its account is in
    cross margin mode, its exit binding is recorded, and a slot of its family
    is left; the Ticket then carries the Claim's values unchanged, satisfies
    every validator of the Ticket, and opens an episode with the capital of
    the Claim.  (A Claim without a free family slot passes its own validators
    and is refused by those of the Ticket.) *)
Theorem claim_issues_its_ticket c0 c p0 :
  validate_CapacityClaim c0 = Ok c →
  validate_CrossMarginStressProof p0 = Ok (cse_proof (cc_cross_margin_stress_evidence c)) →
  (∀ t, to_ticket c = Ok t ↔
     t = claim_ticket c ∧ cc_margin_mode_at_claim c = cross ∧ is_Some (cc_exit_binding_id c) ∧
     0 < cc_remaining_family_slots_at_claim c) ∧
  (∀ t, to_ticket c = Ok t → validate_TradeTicket t = Ok t ∧
     (dval (tk_risk_at_stop t) <= dval (tk_planned_stop_risk_budget t))%Q ∧
     (dval (tk_minimum_stop_risk_budget t) <= dval (tk_risk_at_stop t))%Q ∧
     (dval (tk_reserved_margin t) <= dval (cc_ticket_margin_budget c))%Q).
Proof.
  intros Hc%validate_claim_fixed Hp%stress_proof_digests. split; [by intros; apply to_ticket_iff|].
  intros t (-> & _ & _ & Hs)%to_ticket_iff; try done. split; [by apply claim_ticket_valid|].
  by apply claim_budgets.
Qed.

Lemma claim_issues_its_ticket_witness :
  ∃ t, to_ticket SampleClaim.claim = Ok t ∧ (dval (tk_risk_at_stop t) <= 12)%Q.
Proof.
  destruct (claim_issues_its_ticket _ _ _ SampleClaim.valid SampleClaim.proved) as [H1 H2].
  assert (E : to_ticket SampleClaim.claim = Ok (claim_ticket SampleClaim.claim)).
  { apply H1. split; [reflexivity|]. split; [reflexivity|]. split; [by eexists|]. vm_compute. reflexivity. }
  exists (claim_ticket SampleClaim.claim). split; [exact E|]. destruct (H2 _ E) as (_ & H & _).
  eapply Qle_trans; [exact H|]. vm_compute. discriminate.
Defined.

(** ** Freezing *)

(** A value of the storage type: 18 decimal places, at most 60 digits. *)
Definition stored (d : Decimal) : Prop := expo d = -18 ∧ 0 <= coef d ∧ ndigits (coef d) <= 60.

Lemma quantize_stored v mode q :
  quantize_storage_decimal v mode = Ok q → stored q ∧
  match mode with
  | ROUND_FLOOR => (dval q <= dval v)%Q
  | ROUND_CEILING => (dval v <= dval q)%Q
  | ROUND_HALF_EVEN => True
  end.
Proof.
  unfold quantize_storage_decimal, quantize. intros H. apply bind_Ok in H as (u & Hn%raise_if_Ok & H).
  apply negative_false, dval_sign_nonneg in Hn. cbv zeta in H. cbn [expo PERSISTED_DECIMAL_QUANTUM] in H.
  set (c := if -18 <=? expo v then scale v (-18)
            else div_round mode (coef v) (10 ^ (-18 - expo v))) in H. destruct (Z.ltb_spec 60 (ndigits c)) as [|Hd]; [done|].
  apply Ok_inj in H as <-. unfold stored. cbn [coef expo]. 
  assert (Hc : 0 <= c ∧
    match mode with
    | ROUND_FLOOR => (dval (mkDecimal c (-18)) <= dval v)%Q
    | ROUND_CEILING => (dval v <= dval (mkDecimal c (-18)))%Q
    | ROUND_HALF_EVEN => True
    end); [|tauto].
  subst c. destruct (Z.leb_spec (-18) (expo v)) as [He|He].
  - split; [unfold scale; apply Z.mul_nonneg_nonneg; [done|]; pose proof (pow10_pos (expo v - -18)); lia|].
    pose proof (dval_scale v (-18) He) as E.
    destruct mode; [done|apply Qle_lteq; right; symmetry; exact E|apply Qle_lteq; right; exact E].
  - assert (Hp : 0 < 10 ^ (-18 - expo v)) by (apply pow10_pos; lia).
    split; [apply div_round_ge; lia|].
    assert (Hv : (dval v == inject_Z (coef v) * p10 (expo v))%Q) by reflexivity.
    assert (Hq : ∀ c, (dval (mkDecimal c (-18)) == inject_Z (c * 10 ^ (-18 - expo v)) * p10 (expo v))%Q).
    { intros c. rewrite <- p10_shift by lia. unfold dval. cbn [coef expo].
      replace (expo v + (-18 - expo v)) with (-18) by lia. reflexivity. }
    destruct mode; [done|..]; rewrite Hq, Hv; apply scaled_le; cbn [div_round].
    + pose proof (Z.mul_div_le (coef v) _ Hp). lia.
    + pose proof (Z.mul_div_le (- coef v) _ Hp). lia.
Qed.

Lemma stored_fixed d mode : stored d → quantize_storage_decimal d mode = Ok d.
Proof.
  destruct d as [c e]. intros (He & Hc & Hd). cbn [coef expo] in *. subst e.
  unfold quantize_storage_decimal. rewrite bind_pass.
  - unfold quantize, scale. cbn [coef expo PERSISTED_DECIMAL_QUANTUM]. cbv zeta.
    rewrite Z.leb_refl, Z.sub_diag, Z.mul_1_r. by destruct (Z.ltb_spec 60 (ndigits c)); [lia|].
  - apply raise_if_pass, negative_false, dval_sign_nonneg. done.
Qed.

Lemma map_result_Forall2 {A B} (f : A → result B) l l' :
  map_result f l = Ok l' → Forall2 (λ x y, f x = Ok y) l l'.
Proof.
  revert l'. induction l as [|x l IH]; cbn; intros l' H.
  - apply Ok_inj in H as <-. constructor.
  - apply bind_Ok in H as (y & Hy & H). apply bind_Ok in H as (ys & Hys & H). apply Ok_inj in H as <-.
    constructor; auto.
Qed.

Lemma map_result_fixed {A} (f : A → result A) l : Forall (λ x, f x = Ok x) l → map_result f l = Ok l.
Proof. induction 1 as [|x l Hx Hl IH]; cbn; [done|]. by rewrite Hx; cbn; rewrite IH. Qed.

(** The decimals a frozen Claim stores. *)
Definition floored (c : CapacityClaim) : list Decimal :=
  [cc_total_wallet_balance_at_claim c; cc_total_margin_balance_at_claim c;
   cc_available_margin_at_claim c; cc_ticket_margin_budget c; cc_max_ticket_stop_risk_fraction c;
   cc_max_gross_stop_risk_fraction c; cc_max_ticket_initial_margin_fraction c;
   cc_max_gross_initial_margin_utilization c; cc_post_stop_stress_multiple c;
   cc_max_post_fill_stop_risk_overrun_fraction c; cc_quantity c; cc_mark_price_at_claim c;
   cc_entry_reference_price c; cc_initial_stop_price c] ++
  option_list (cc_entry_limit_price c) ++ cc_take_profit_prices c ++ cc_take_profit_quantities c.
Definition ceiled (c : CapacityClaim) : list Decimal :=
  [cc_total_initial_margin_at_claim c; cc_total_maintenance_margin_at_claim c;
   cc_gross_risk_at_stop_at_claim c; cc_directional_risk_at_stop_at_claim c;
   cc_current_reserved_margin_at_claim c; cc_minimum_stop_risk_budget c;
   cc_planned_stop_risk_budget c; cc_post_fill_stop_risk_limit c; cc_reserved_margin c;
   cc_notional c; cc_risk_at_stop c].

Lemma storage_fixed c :
  Forall stored (floored c ++ ceiled c) → normalize_claim_decimals_for_storage c = Ok c.
Proof.
  unfold floored, ceiled. rewrite !Forall_app. intros [(HF & HL & HP & HQ) HC].
  repeat match goal with H : Forall _ (_ :: _) |- _ => apply Forall_cons in H as [? H] end.
  assert (EL : match cc_entry_limit_price c with
               | None => mret None
               | Some v => v ← quantize_storage_decimal v ROUND_FLOOR; mret (Some v)
               end = Ok (cc_entry_limit_price c)).
  { destruct (cc_entry_limit_price c); [|done]. apply Forall_cons in HL as [HL _].
    by rewrite (stored_fixed _ _ HL). }
  assert (EP := map_result_fixed (λ v, quantize_storage_decimal v ROUND_FLOOR) _
    (Forall_impl _ _ _ HP (λ v, stored_fixed v _))).
  assert (EQ := map_result_fixed (λ v, quantize_storage_decimal v ROUND_FLOOR) _
    (Forall_impl _ _ _ HQ (λ v, stored_fixed v _))).
  unfold normalize_claim_decimals_for_storage.
  repeat (rewrite stored_fixed by done; cbn [mbind result_bind]).
  rewrite EL, EP, EQ. cbn [mbind result_bind]. by destruct c.
Qed.

Lemma storage_normalises c p :
  normalize_claim_decimals_for_storage c = Ok p →
  Forall stored (floored p ++ ceiled p) ∧
  Forall2 (λ v q, dval q <= dval v)%Q (floored c) (floored p) ∧
  Forall2 (λ v q, dval v <= dval q)%Q (ceiled c) (ceiled p).
Proof.
  unfold normalize_claim_decimals_for_storage. intros H.
  repeat match type of H with
  | mbind _ (quantize_storage_decimal _ _) = _ =>
      let q := fresh "q" in let E := fresh "E" in
      apply bind_Ok in H as (q & E & H); apply quantize_stored in E as [? ?]
  end.
  apply bind_Ok in H as (limit & EL & H). apply bind_Ok in H as (prices & EP%map_result_Forall2 & H).
  apply bind_Ok in H as (quantities & EQ%map_result_Forall2 & H). apply Ok_inj in H as <-.
  assert (L : Forall stored (option_list limit) ∧
    Forall2 (λ v q, dval q <= dval v)%Q (option_list (cc_entry_limit_price c)) (option_list limit)).
  { destruct (cc_entry_limit_price c); [|by apply Ok_inj in EL as <-].
    apply bind_Ok in EL as (q' & Eq%quantize_stored & EL). apply Ok_inj in EL as <-. cbn.
    destruct Eq. by split; constructor. }
  assert (R : ∀ l l', Forall2 (λ x y, quantize_storage_decimal x ROUND_FLOOR = Ok y) l l' →
    Forall stored l' ∧ Forall2 (λ v q, dval q <= dval v)%Q l l').
  { induction 1 as [|x y l l' Hxy Hl [IH1 IH2]]; [by split|].
    apply quantize_stored in Hxy as [? ?]. by split; constructor. }
  apply R in EP as [? ?], EQ as [? ?]. destruct L as [? ?]. unfold floored, ceiled. cbn.
  split_and!; repeat first [assumption|apply Forall_app; split|apply Forall2_app|constructor].
Qed.

(** Freezing writes the digest of what it stores, and stores what it validated. *)
Lemma freeze_inv v c :
  freeze_capacity_claim v = Ok c →
  ∃ p, normalize_claim_decimals_for_storage (with_identity v "claim:pending" ("sha256:" +:+ zeros 64))
       = Ok p ∧
    c = normalize_claim (with_identity p (claim_id_of (build_capacity_claim_digest p))
          (build_capacity_claim_digest p)) ∧
    validate_CapacityClaim c = Ok c.
Proof.
  unfold freeze_capacity_claim. intros H. apply bind_Ok in H as (p & Hp & H). exists p.
  split; [done|]. cbv zeta in H. pose proof (validate_claim_fixed _ _ H).
  by apply validate_claim_Ok in H as [-> _].
Qed.

Lemma claim_identity_facts c :
  validate_CapacityClaim c = Ok c →
  cc_decision_digest c = build_capacity_claim_digest c ∧
  cc_capacity_claim_id c = claim_id_of (build_capacity_claim_digest c).
Proof.
  intros (_ & _ & Hm)%validate_claim_Ok. unfold claim_model_checks in Hm. cbv zeta in Hm.
  rewrite !Forall_app, !Forall_cons in Hm. cbn [fst] in Hm.
  destruct Hm as (_ & _ & _ & H1 & H2 & _). by decimal_facts.
Qed.


