(* ===== verification/AdmissionProperties.v ===== *)
(** * What admission guarantees

    When a new ENTRY is admissible, and that the arbitration of candidates is
    independent of the order they arrive in. *)

From Stdlib Require Import QArith Lqa.
From S2P Require Import Prelude PyString Sha256 PyDecimal DecimalFacts Identities Ticket.
From S2P Require Import CrossMarginStress StrategyRegistry Admission Signal Arbitration TextFacts Samples.
#[local] Open Scope Z_scope.

(** ** Health *)

(** The account and the instrument are free for a new ENTRY of [side]. *)
Record admissible (s : EntryAdmissionSnapshot) (w : AdmissionOwnership) (i : str)
    (side : PositionSide) : Prop := {
  adm_no_incident : ∀ scope, scope ∈ aw_open_incident_scopes w → scope = scope_none;
  adm_no_unknown : aw_unknown_command_outcome_ticket_ids w = [];
  adm_positions_owned : ∀ p, p ∈ ars_account_positions (as_account_risk_snapshot s) →
    (0 < dval (arp_quantity p))%Q → position_domain_key s p ∈ aw_owned_position_domain_keys w;
  adm_orders_owned : ∀ o, o ∈ as_open_orders s →
    ao_exchange_order_id o ∈ aw_owned_exchange_order_ids w;
  adm_side_free : ∀ p, p ∈ ars_account_positions (as_account_risk_snapshot s) →
    (0 < dval (arp_quantity p))%Q →
    arp_exchange_instrument_id p = i → arp_position_side p ≠ side;
  adm_no_residue : (∃ o, o ∈ as_open_orders s ∧ ao_exchange_instrument_id o = i) →
    ∃ p, p ∈ ars_account_positions (as_account_risk_snapshot s) ∧ (0 < dval (arp_quantity p))%Q ∧
      arp_exchange_instrument_id p = i
}.

Lemma existsb_elem {A} (f : A → bool) l : existsb f l = true ↔ ∃ x, x ∈ l ∧ f x = true.
Proof.
  rewrite existsb_exists. split; intros (x & Hx & Hf); exists x; split; try done;
    by apply list_elem_of_In.
Qed.

Lemma occupied_spec p : occupied p = true ↔ (0 < dval (arp_quantity p))%Q.
Proof. unfold occupied. by rewrite dltb_spec, dval_d0. Qed.

Lemma account_health_Ok s status scope :
  ars_venue_id (as_account_risk_snapshot s) ≠ EmptyString →
  ars_account_id (as_account_risk_snapshot s) ≠ EmptyString → scope ≠ scope_leverage_domain →
  ∃ a, account_health s status scope = Ok a ∧ ah_status a = status ∧ ah_entry_block_scope a = scope.
Proof.
  intros Hv Ha Hs. unfold account_health, canonical_entry_block_key, is_empty.
  rewrite !bool_decide_eq_false_2 with (P := _ = EmptyString) by done. cbn [orb raise_if].
  destruct scope; try done; eexists; split_and!; reflexivity.
Qed.

Lemma instrument_health_Ok s lev status allowed scope i :
  ars_venue_id (as_account_risk_snapshot s) ≠ EmptyString →
  ars_account_id (as_account_risk_snapshot s) ≠ EmptyString → i ≠ EmptyString →
  ∃ h, instrument_health s lev status allowed scope i = Ok h ∧ ih_status h = status ∧
    ih_entry_block_scope h = scope ∧ ih_leverage_change_allowed h = allowed ∧
    ih_configured_leverage h = lev.
Proof.
  intros Hv Ha Hi. unfold instrument_health, canonical_entry_block_key, is_empty.
  rewrite !bool_decide_eq_false_2 with (P := _ = EmptyString) by done. cbn [orb raise_if].
  destruct scope; eexists; split_and!; reflexivity.
Qed.

Lemma account_healthy_exactly s w :
  ars_venue_id (as_account_risk_snapshot s) ≠ EmptyString →
  ars_account_id (as_account_risk_snapshot s) ≠ EmptyString →
  ∃ a, classify_account_entry_health s w = Ok a ∧
    (ah_status a = ACCOUNT_HEALTHY ↔ ah_entry_block_scope a = scope_none) ∧
    (ah_status a = ACCOUNT_HEALTHY ↔
       incident_open scope_runtime w = false ∧ outcome_unknown w = false ∧
       incident_open scope_account_capacity w = false ∧
       existsb (unowned_position s w) (ars_account_positions (as_account_risk_snapshot s)) = false ∧
       existsb (unowned_order w) (as_open_orders s) = false).
Proof.
  intros Hv Ha. unfold classify_account_entry_health.
  repeat match goal with |- context [if ?b then _ else _] => destruct b eqn:? end;
  match goal with |- ∃ a, account_health _ ?st ?sc = _ ∧ _ =>
    destruct (account_health_Ok s st sc Hv Ha ltac:(done)) as (a & E & H1 & H2) end;
  exists a; rewrite E, H1, H2; split_and!; try done; naive_solver.
Qed.

Definition same_side (side : PositionSide) (p : AccountRiskPosition) : bool :=
  occupied p && bool_decide (arp_position_side p = side).

Lemma instrument_healthy_exactly s w i side :
  ars_venue_id (as_account_risk_snapshot s) ≠ EmptyString →
  ars_account_id (as_account_risk_snapshot s) ≠ EmptyString → i ≠ EmptyString →
  ars_exchange_instrument_id (as_account_risk_snapshot s) = i →
  ∃ h, classify_instrument_entry_health s w i side = Ok h ∧
    ih_configured_leverage h = ars_configured_leverage (as_account_risk_snapshot s) ∧
    (ih_leverage_change_allowed h = true ↔ ih_status h = HEALTHY_FLAT) ∧
    (ih_status h = HEALTHY_FLAT →
       existsb occupied (exact_positions s i) = false ∧ exact_orders s i = []) ∧
    (ih_status h = HEALTHY_FLAT ∨ ih_status h = HEALTHY_OPPOSITE_SIDE ↔
       incident_open scope_runtime w = false ∧ outcome_unknown w = false ∧
       incident_open scope_leverage_domain w = false ∧
       existsb (unowned_position s w) (exact_positions s i) = false ∧
       existsb (unowned_order w) (exact_orders s i) = false ∧
       existsb (same_side side) (exact_positions s i) = false ∧
       (exact_orders s i ≠ [] → existsb occupied (exact_positions s i) = true)).
Proof.
  intros Hv Ha Hi Hs. unfold classify_instrument_entry_health.
  rewrite bind_pass by (apply raise_if_pass; by rewrite bool_decide_eq_true_2). cbv zeta.
  fold (same_side side).
  assert (Hn : exact_orders s i = [] ↔ negb (bool_decide (length (exact_orders s i) = 0%nat)) = false)
    by (rewrite negb_false, bool_decide_true; by destruct (exact_orders s i)).
  set (residue := negb (bool_decide (length (exact_orders s i) = 0%nat))) in *. clearbody residue.
  repeat match goal with
  | |- context [if ?b then _ else _] =>
      lazymatch b with _ && _ => destruct residue eqn:?, (existsb occupied _) eqn:?; cbn [andb negb]
                     | _ => destruct b eqn:? end
  end;
  match goal with |- ∃ h, instrument_health _ ?lev ?st ?al ?sc _ = _ ∧ _ =>
    destruct (instrument_health_Ok s lev st al sc i Hv Ha Hi) as (h & E & H1 & H2 & H3 & H4) end;
  exists h; rewrite E, H1, H3, H4, Hn; repeat split; intuition congruence.
Qed.

Lemma existsb_none {A} (f : A → bool) l : existsb f l = false ↔ ∀ x, x ∈ l → f x = false.
Proof. by rewrite existsb_false, Forall_forall. Qed.

Lemma unowned_position_false s w p :
  unowned_position s w p = false ↔
  ((0 < dval (arp_quantity p))%Q → position_domain_key s p ∈ aw_owned_position_domain_keys w).
Proof.
  unfold unowned_position. rewrite <- occupied_spec. unfold occupied.
  destruct (_ >? _)%dec; cbn [andb]; [|naive_solver]. rewrite negb_false, bool_decide_true. naive_solver.
Qed.

Lemma unowned_order_false w o :
  unowned_order w o = false ↔ ao_exchange_order_id o ∈ aw_owned_exchange_order_ids w.
Proof. unfold unowned_order. by rewrite negb_false, bool_decide_true. Qed.

Lemma same_side_false side p :
  same_side side p = false ↔ ((0 < dval (arp_quantity p))%Q → arp_position_side p ≠ side).
Proof.
  unfold same_side. rewrite <- occupied_spec. destruct (occupied p); cbn [andb]; [|naive_solver].
  rewrite bool_decide_false. naive_solver.
Qed.

Lemma incidents_closed w :
  incident_open scope_runtime w = false ∧ incident_open scope_account_capacity w = false ∧
  incident_open scope_leverage_domain w = false ↔
  ∀ scope, scope ∈ aw_open_incident_scopes w → scope = scope_none.
Proof.
  unfold incident_open. rewrite !bool_decide_false. split.
  - intros (H1 & H2 & H3) [] H; done.
  - intros H. split_and!; intros E; by apply H in E.
Qed.

Lemma outcome_unknown_false w :
  outcome_unknown w = false ↔ aw_unknown_command_outcome_ticket_ids w = [].
Proof. unfold outcome_unknown. by destruct (aw_unknown_command_outcome_ticket_ids w). Qed.

Lemma elem_of_exact_positions s i p :
  p ∈ exact_positions s i ↔
  p ∈ ars_account_positions (as_account_risk_snapshot s) ∧ arp_exchange_instrument_id p = i.
Proof. unfold exact_positions. rewrite list_elem_of_filter. tauto. Qed.

Lemma elem_of_exact_orders s i o :
  o ∈ exact_orders s i ↔ o ∈ as_open_orders s ∧ ao_exchange_instrument_id o = i.
Proof. unfold exact_orders. rewrite list_elem_of_filter. tauto. Qed.

Lemma nonempty_elem {A} (l : list A) : l ≠ [] ↔ ∃ x, x ∈ l.
Proof.
  split; [destruct l as [|x l]; [done|exists x; by left]|]. intros [x Hx] ->. by apply not_elem_of_nil in Hx.
Qed.

Lemma account_snapshot_named a0 a :
  validate_AccountRiskSnapshot a0 = Ok a →
  ars_venue_id a ≠ EmptyString ∧ ars_account_id a ≠ EmptyString ∧
  ars_exchange_instrument_id a ≠ EmptyString.
Proof.
  unfold validate_AccountRiskSnapshot. intros H. apply bind_Ok in H as (u & Hf & H).
  apply validate_fields_Ok in Hf. cbn [fmap list_fmap app] in Hf.
  do 3 (apply Forall_cons in Hf as [? Hf]). cbv zeta in H. apply bind_Ok in H as (v & _ & H).
  apply Ok_inj in H as <-. cbn [fst] in *. rewrite !blank_false in *. done.
Qed.

(** C30: A new ENTRY is allowed exactly when nothing on the account stands
    against it.  On a constructed snapshot both classifications always answer;
    the account is healthy and the instrument free exactly when no incident is
    open, no command outcome is unknown, every held position and every open
    order is owned by the kernel, the requested side of the instrument is
    free, and no order is left on an instrument without position.  An
    unhealthy account always names a blocking scope, and the leverage may be
    changed only where the instrument has neither position nor order. *)
Theorem new_entry_admissible_exactly a0 s w side :
  validate_AccountRiskSnapshot a0 = Ok (as_account_risk_snapshot s) →
  let i := ars_exchange_instrument_id (as_account_risk_snapshot s) in
  ∃ a h, classify_account_entry_health s w = Ok a ∧
    classify_instrument_entry_health s w i side = Ok h ∧
    (ah_status a = ACCOUNT_HEALTHY ∧
       (ih_status h = HEALTHY_FLAT ∨ ih_status h = HEALTHY_OPPOSITE_SIDE) ↔ admissible s w i side) ∧
    (ah_status a = ACCOUNT_HEALTHY ↔ ah_entry_block_scope a = scope_none) ∧
    (ih_leverage_change_allowed h = true →
       (∀ p, p ∈ ars_account_positions (as_account_risk_snapshot s) →
          arp_exchange_instrument_id p = i → (dval (arp_quantity p) <= 0)%Q) ∧
       ∀ o, o ∈ as_open_orders s → ao_exchange_instrument_id o ≠ i).
Proof.
  intros Hs i. destruct (account_snapshot_named _ _ Hs) as (Hv & Ha & Hi).
  destruct (account_healthy_exactly s w Hv Ha) as (a & Ea & Ascope & Aok).
  destruct (instrument_healthy_exactly s w i side Hv Ha Hi eq_refl) as (h & Eh & _ & Hlev & Hflat & Iok).
  exists a, h. split; [done|]. split; [done|]. split; [|split; [done|]].
  - rewrite Aok, Iok, !existsb_none. setoid_rewrite elem_of_exact_positions.
    setoid_rewrite elem_of_exact_orders. setoid_rewrite unowned_position_false.
    setoid_rewrite unowned_order_false. setoid_rewrite same_side_false.
    rewrite nonempty_elem, existsb_elem. setoid_rewrite elem_of_exact_positions.
    setoid_rewrite elem_of_exact_orders. setoid_rewrite occupied_spec. rewrite outcome_unknown_false.
    pose proof (incidents_closed w) as Hinc. split.
    + intros ((? & ? & ? & ? & ?) & (? & ? & ? & ? & ? & ? & Hres)).
      split; [by apply Hinc|done|done|done|eauto|]. intros Ho.
      destruct (Hres Ho) as (p & (? & ?) & ?). by exists p.
    + intros [H1 H2 H3 H4 H5 H6]. apply Hinc in H1 as (? & ? & ?).
      split; [split_and!; done|]. split_and!; try done; [naive_solver..|].
      intros Ho. destruct (H6 Ho) as (p & ? & ? & ?). by exists p.
  - intros Hl%Hlev. apply Hflat in Hl as [Hp Ho]. split.
    + intros p Hin Hpi. rewrite existsb_none in Hp.
      specialize (Hp p (proj2 (elem_of_exact_positions s i p) (conj Hin Hpi))).
      unfold occupied in Hp. apply dltb_false in Hp. by rewrite dval_d0 in Hp.
    + intros o Hin Hoi. assert (E : o ∈ exact_orders s i) by (by apply elem_of_exact_orders).
      rewrite Ho in E. by apply not_elem_of_nil in E.
Qed.

(** ** Arbitration *)

#[local] Arguments strip : simpl never.
#[local] Arguments blank : simpl never.

Lemma key_le_total a b : key_le a b = true ∨ key_le b a = true.
Proof.
  destruct a as [[[p o] v] i], b as [[[p' o'] v'] i']. unfold key_le.
  rewrite (Z.eqb_sym p' p), (Z.eqb_sym o' o), (Z.eqb_sym v' v).
  destruct (Z.eqb_spec p p'), (Z.eqb_spec o o'), (Z.eqb_spec v v'); cbn [negb];
    first [apply String.leb_total|lia].
Qed.

Lemma key_le_trans a b c : key_le a b = true → key_le b c = true → key_le a c = true.
Proof.
  destruct a as [[[p o] v] i], b as [[[p' o'] v'] i'], c as [[[p'' o''] v''] i'']. unfold key_le.
  destruct (Z.eqb_spec p p'), (Z.eqb_spec p' p''), (Z.eqb_spec p p''); cbn [negb]; try lia;
  destruct (Z.eqb_spec o o'), (Z.eqb_spec o' o''), (Z.eqb_spec o o''); cbn [negb]; try lia;
  destruct (Z.eqb_spec v v'), (Z.eqb_spec v' v''), (Z.eqb_spec v v''); cbn [negb]; try lia;
  apply string_leb_trans.
Qed.

Lemma key_le_antisym a b : key_le a b = true → key_le b a = true → a = b.
Proof.
  destruct a as [[[p o] v] i], b as [[[p' o'] v'] i']. unfold key_le.
  rewrite (Z.eqb_sym p' p), (Z.eqb_sym o' o), (Z.eqb_sym v' v).
  destruct (Z.eqb_spec p p'), (Z.eqb_spec o o'), (Z.eqb_spec v v'); cbn [negb]; try lia.
  subst. intros H1 H2. by rewrite (String.leb_antisym _ _ H1 H2).
Qed.

(** What the summary of a candidate takes from its signal. *)
Record summarisable (s : StrategySignal) : Prop := {
  sm_names : Forall (λ v, blank v = false ∧ strip v = v)
    [sg_signal_event_id s; sg_exposure_episode_id s; sg_strategy_group_id s;
     sg_strategy_version_id s; sg_event_spec_id s; sg_exchange_instrument_id s];
  sm_occurred : 0 < sg_occurred_at_ms s
}.

Lemma signal_summarisable s0 s : validate_StrategySignal s0 = Ok s → summarisable s.
Proof.
  unfold validate_StrategySignal. intros H. apply bind_Ok in H as (u & Hf & H).
  apply validate_fields_Ok in Hf. cbn [fmap list_fmap app] in Hf.
  repeat (apply Forall_cons in Hf as [? Hf]). cbv zeta in H. apply bind_Ok in H as (v & Hm & H).
  apply validate_model_Ok in Hm. apply Ok_inj in H as <-. cbn [fst] in *. split.
  - each_check ltac:(cbn; rewrite blank_strip, strip_idemp; by split).
  - apply Forall_cons in Hm as [Hm _]. cbn [fst sg_occurred_at_ms] in Hm.
    rewrite !orb_false in Hm. cbn. lia.
Qed.

Definition summary_of (index : Z) (c : EntryCandidate) : AdmissionCandidateSummary :=
  let s := ec_signal c in
  mkSummary index (sg_signal_event_id s) (sg_exposure_episode_id s) (sg_strategy_group_id s)
    (sg_strategy_version_id s) (sg_event_spec_id s) (sg_exchange_instrument_id s)
    (sg_position_side s) (sg_occurred_at_ms s).

Lemma summary_valid index c :
  summarisable (ec_signal c) → 0 < index →
  validate_AdmissionCandidateSummary (summary_of index c) = Ok (summary_of index c).
Proof.
  intros [Hn Ho] Hi. repeat (apply Forall_cons in Hn as [[? ?] Hn]).
  unfold validate_AdmissionCandidateSummary, summary_of. cbn.
  rewrite bind_pass; [by repeat match goal with H : strip _ = _ |- _ => rewrite H; clear H end|].
  apply validate_fields_Ok. each_check ltac:(cbn; first [done|lia]).
Qed.

Lemma summaries_Ok index l :
  Forall (λ c, summarisable (ec_signal c)) l → 0 < index →
  ∃ summary, summaries index l = Ok summary ∧ am_rank <$> summary = seqZ index (Z.of_nat (length l)) ∧
    am_signal_event_id <$> summary = (λ c, sg_signal_event_id (ec_signal c)) <$> l ∧
    length summary = length l.
Proof.
  intros Hl. revert index. induction Hl as [|c l Hc Hl IH]; intros index Hi; cbn [summaries].
  - by exists [].
  - destruct (IH (index + 1) ltac:(lia)) as (rest & Hr & Hrank & Hids & Hlen).
    exists (summary_of index c :: rest). cbv zeta. fold (summary_of index c).
    rewrite summary_valid by done. cbn [mbind result_bind]. rewrite Hr. cbn [mbind result_bind].
    split; [done|]. split; [|split; cbn; congruence].
    rewrite fmap_cons, Hrank. cbn [length]. rewrite (seqZ_cons index) by lia. f_equal. f_equal; lia.
Qed.

Lemma candidate_set_valid summary :
  0 < Z.of_nat (length summary) <= 64 → am_rank <$> summary = seqZ 1 (Z.of_nat (length summary)) →
  NoDup (am_signal_event_id <$> summary) →
  let s := mkCandidateSet (am_signal_event_id <$> summary) (Z.of_nat (length summary))
             (summary_digest summary) summary in
  validate_CandidateSetSnapshot s = Ok s.
Proof.
  intros Hlen Hrank Hnd s. unfold validate_CandidateSetSnapshot.
  rewrite bind_pass by (apply validate_fields_Ok;
    each_check ltac:(unfold s; cbn [cs_candidate_set_digest]; unfold summary_digest, canonical_digest;
      by rewrite json_digest_ok)). cbv zeta.
  rewrite bind_pass; [done|]. apply validate_model_Ok. unfold s. cbn.
  rewrite length_fmap, Z.eqb_refl, !bool_decide_eq_true_2 by done.
  each_check ltac:(cbn; first [done|lia]).
Qed.

Definition signal_ids (l : list EntryCandidate) : list str :=
  (λ c, sg_signal_event_id (ec_signal c)) <$> l.

Lemma NoDup_fmap_key {A B} (f : A → B) l a b :
  NoDup (f <$> l) → a ∈ l → b ∈ l → f a = f b → a = b.
Proof.
  rewrite NoDup_alt. intros H [i Hi]%list_elem_of_lookup [j Hj]%list_elem_of_lookup E.
  assert (i = j) as ->; [|congruence].
  apply (H i j (f a)); rewrite list_lookup_fmap; [by rewrite Hi|rewrite Hj; cbn; by rewrite E].
Qed.

Lemma ranking_canonical l l' :
  NoDup (signal_ids l) → l ≡ₚ l' → sort_candidates l = sort_candidates l'.
Proof.
  intros Hnd Hp. apply sort_by_unique; [..|done].
  - intros. apply key_le_total.
  - intros ???. apply key_le_trans.
  - intros a b Ha Hb Hab Hba. pose proof (key_le_antisym _ _ Hab Hba) as E.
    injection E as _ _ _ E. by eapply (NoDup_fmap_key _ l).
Qed.

Definition arbitrable (l : list EntryCandidate) : Prop :=
  Z.of_nat (length l) <= MAX_CANDIDATES_PER_ARBITRATION ∧ NoDup (signal_ids l).

Lemma rank_candidates_Ok l r : rank_candidates l = Ok r ↔ arbitrable l ∧ r = sort_candidates l.
Proof.
  unfold rank_candidates, arbitrable. rewrite bind_Ok. setoid_rewrite bind_Ok.
  setoid_rewrite raise_if_Ok. setoid_rewrite negb_false. setoid_rewrite bool_decide_true.
  setoid_rewrite Z.ltb_ge. split.
  - intros (u & ? & v & ? & E). apply Ok_inj in E as <-. done.
  - intros [[? ?] ->]. by exists tt; split; [|exists tt].
Qed.

Lemma rank_candidates_perm l l' : l ≡ₚ l' → rank_candidates l = rank_candidates l'.
Proof.
  intros Hp. unfold rank_candidates. fold (signal_ids l) (signal_ids l').
  assert (Hi : signal_ids l ≡ₚ signal_ids l') by by apply fmap_Permutation.
  rewrite (Permutation_length Hp), (bool_decide_ext (NoDup (signal_ids l)) (NoDup (signal_ids l')))
    by by rewrite Hi.
  destruct (bool_decide (NoDup (signal_ids l'))) eqn:E; [|by destruct (_ <? _)].
  apply bool_decide_true in E. rewrite <- Hi in E. by rewrite (ranking_canonical l l').
Qed.

(** Freezing an arbitrable set of constructed candidates. *)
Lemma freeze_arbitrable l :
  Forall (λ c, summarisable (ec_signal c)) l → l ≠ [] → arbitrable l →
  ∃ summary, am_rank <$> summary = seqZ 1 (Z.of_nat (length l)) ∧
    am_signal_event_id <$> summary = signal_ids (sort_candidates l) ∧
    freeze_candidate_set l = Ok (mkCandidateSet (am_signal_event_id <$> summary)
      (Z.of_nat (length summary)) (summary_digest summary) summary).
Proof.
  intros Hs Hne Ha. assert (Hp : sort_candidates l ≡ₚ l) by apply sort_by_perm.
  destruct (summaries_Ok 1 (sort_candidates l)) as (summary & Es & Er & Ei & El); [by rewrite Hp|done|].
  rewrite Hp in Er, El. exists summary. split; [done|]. split; [done|]. unfold freeze_candidate_set.
  rewrite (proj2 (rank_candidates_Ok l _) (conj Ha eq_refl)). cbn [mbind result_bind].
  rewrite bind_pass by (destruct (sort_candidates l); [by apply Permutation_nil_l in Hp|done]).
  rewrite Es. cbn [mbind result_bind]. destruct Ha as [Ha Hnd]. unfold MAX_CANDIDATES_PER_ARBITRATION in Ha.
  apply candidate_set_valid; [|by rewrite Er, El|].
  - rewrite El. destruct l; [done|cbn in *; lia].
  - rewrite Ei. by rewrite Hp.
Qed.

(** C31: The arbitration of candidates does not depend on the order they
    arrive in.  On constructed signals the candidate set is frozen exactly when
    there are one to 64 candidates with distinct signals; it lists them all,
    each once, by policy priority, then occurrence, then observation, then
    identity, numbered from one; and any permutation of the candidates freezes
    to the same set, digest included. *)
Theorem arbitration_is_canonical cands :
  Forall (λ c, ∃ s0, validate_StrategySignal s0 = Ok (ec_signal c)) cands →
  (is_ok (freeze_candidate_set cands) = true ↔ 0 < Z.of_nat (length cands) <= 64 ∧ NoDup (signal_ids cands)) ∧
  ∀ frozen, freeze_candidate_set cands = Ok frozen →
    (∃ ranked, ranked ≡ₚ cands ∧ StronglySorted candidate_le ranked ∧
       cs_ranked_signal_event_ids frozen = signal_ids ranked ∧
       am_rank <$> cs_candidate_set_summary frozen = seqZ 1 (Z.of_nat (length cands))) ∧
    ∀ cands', cands ≡ₚ cands' → freeze_candidate_set cands' = Ok frozen.
Proof.
  intros Hc. assert (Hs : Forall (λ c, summarisable (ec_signal c)) cands).
  { eapply Forall_impl; [exact Hc|]. intros c [s0 H]. by eapply signal_summarisable. }
  assert (Hiff : ∀ frozen, freeze_candidate_set cands = Ok frozen → cands ≠ [] ∧ arbitrable cands).
  { intros frozen H. unfold freeze_candidate_set in H. apply bind_Ok in H as (r & Hr & H).
    apply rank_candidates_Ok in Hr as [Ha ->]. apply bind_Ok in H as (u & G%raise_if_Ok & _).
    split; [|done]. by intros ->. }
  assert (Hlen : 0 < Z.of_nat (length cands) <= 64 ∧ NoDup (signal_ids cands) ↔
    cands ≠ [] ∧ arbitrable cands).
  { unfold arbitrable, MAX_CANDIDATES_PER_ARBITRATION. destruct cands; cbn [length]; split; naive_solver lia. }
  rewrite Hlen. split.
  - split; [destruct (freeze_candidate_set cands); [intros _; by eapply Hiff|done]|].
    intros [Hne Ha]. by destruct (freeze_arbitrable cands Hs Hne Ha) as (? & _ & _ & ->).
  - intros frozen Hf. destruct (Hiff _ Hf) as [Hne Ha].
    destruct (freeze_arbitrable cands Hs Hne Ha) as (summary & Er & Ei & E).
    assert (Hfr := Hf). rewrite E in Hfr. apply Ok_inj in Hfr as <-. split.
    + exists (sort_candidates cands). split_and!; [apply sort_by_perm| |done|done].
      apply sort_by_sorted; intros; [apply key_le_total|by eapply key_le_trans].
    + intros cands' Hp. rewrite <- Hf. unfold freeze_candidate_set. by rewrite (rank_candidates_perm _ _ Hp).
Qed.

(** ** Samples *)

Module SampleAdmission.

Definition snapshot : EntryAdmissionSnapshot :=
  mkAdmissionSnapshot Sample.snapshot (of_int 99) (of_int 100) [] 40 60.
Definition ownership : AdmissionOwnership :=
  mkOwnership ["binance-usdm:main:BTCUSDT:long"]
    [mkOwnedProjection "binance-usdm:main:BTCUSDT:long" (of_int 2)] [] [] [].

Definition facts : list SignalFactSnapshot :=
  [mkFactSnapshot "fact:breakout:v1" role_condition (JBool true) true 40 200 1;
   mkFactSnapshot "fact:range_low:v1" role_protection_reference (JStr "95.50") true 40 200 1].

Definition digest := Eval vm_compute in
  match build_signal_fact_digest facts with Ok d => d | Raise _ => EmptyString end.

Definition signal (name : str) (occurred : Z) : StrategySignal :=
  mkSignal name ("episode:" +:+ name) "scope" 1 "SOR-001" "v3" "SOR-LONG:v3" "universe"
    Sample.digest "BTCUSDT" long digest occurred (occurred + 5) 200 facts None.

Definition late : EntryCandidate := mkCandidate (signal "signal:late" 60) 1.
Definition early : EntryCandidate := mkCandidate (signal "signal:early" 50) 1.
Definition minor : EntryCandidate := mkCandidate (signal "signal:minor" 45) 2.

Definition frozen := Eval vm_compute in
  match freeze_candidate_set [late; minor; early] with
  | Ok s => s | Raise _ => mkCandidateSet [] 0 EmptyString [] end.

Lemma frozen_ok : freeze_candidate_set [late; minor; early] = Ok frozen.
Proof. vm_compute. reflexivity. Qed.

Lemma constructed_signal name occurred :
  In (name, occurred) [("signal:late", 60); ("signal:early", 50); ("signal:minor", 45)] →
  validate_StrategySignal (signal name occurred) = Ok (signal name occurred).
Proof. intros [E|[E|[E|[]]]]; injection E as <- <-; vm_compute; reflexivity. Qed.

Lemma snapshot_ok : validate_AccountRiskSnapshot Sample.snapshot = Ok Sample.snapshot.
Proof. vm_compute. reflexivity. Qed.

End SampleAdmission.

Lemma arbitration_is_canonical_witness :
  freeze_candidate_set [SampleAdmission.early; SampleAdmission.late; SampleAdmission.minor]
    = Ok SampleAdmission.frozen ∧
  cs_ranked_signal_event_ids SampleAdmission.frozen = ["signal:early"; "signal:late"; "signal:minor"].
Proof.
  split; [|vm_compute; reflexivity].
  assert (H : Forall (λ c, ∃ s0, validate_StrategySignal s0 = Ok (ec_signal c))
    [SampleAdmission.late; SampleAdmission.minor; SampleAdmission.early]).
  { repeat (apply Forall_cons; split; [eexists; apply SampleAdmission.constructed_signal; cbn; tauto|]).
    apply List.Forall_nil. }
  destruct (arbitration_is_canonical _ H) as [_ C].
  apply (C _ SampleAdmission.frozen_ok).
  apply Permutation_sym.
  exact (Permutation_cons_append [SampleAdmission.late; SampleAdmission.minor] SampleAdmission.early).
Defined.

Lemma new_entry_admissible_exactly_witness :
  admissible SampleAdmission.snapshot SampleAdmission.ownership "BTCUSDT" short.
Proof.
  destruct (new_entry_admissible_exactly Sample.snapshot SampleAdmission.snapshot
    SampleAdmission.ownership short SampleAdmission.snapshot_ok) as (a & h & Ea & Eh & H & _).
  apply H. split.
  - assert (E : ah_status <$> classify_account_entry_health SampleAdmission.snapshot
      SampleAdmission.ownership = Ok ACCOUNT_HEALTHY) by (vm_compute; reflexivity).
    rewrite Ea in E. exact (Ok_inj _ _ E).
  - right. assert (E : ih_status <$> classify_instrument_entry_health SampleAdmission.snapshot
      SampleAdmission.ownership "BTCUSDT" short = Ok HEALTHY_OPPOSITE_SIDE) by (vm_compute; reflexivity).
    cbn [ars_exchange_instrument_id as_account_risk_snapshot SampleAdmission.snapshot Sample.snapshot] in Eh.
    rewrite Eh in E. exact (Ok_inj _ _ E).
Defined.
