(* ===== verification/ClaimProperties.v ===== *)
(** * From the signal to the Ticket

    What a decision of [build_capacity_claim] guarantees, across the health,
    sizing, stress, Claim and Ticket components and up to the reducer. *)

From Stdlib Require Import QArith Lqa.
From S2P Require Import Prelude PyString Sha256 PyDecimal DecimalFacts Identities Ticket.
From S2P Require Import PostFillRisk CrossMarginStress CapacitySizing Capacity StrategyRegistry.
From S2P Require Import ExitPolicy Admission Signal BuildClaim Events Aggregate Reducer Samples.
From S2P Require Import CapacityProperties.
#[local] Open Scope Z_scope.

(** ** The stress evidence *)

Definition evidence_for (r : CrossMarginStressRequest) (e : CrossMarginStressEvidence) : Prop :=
  cse_request e = r ∧ is_sha256_digest (csp_proof_digest (cse_proof e)) = true.

Lemma evidence_of_proof r p0 p e :
  validate_CrossMarginStressProof p0 = Ok p →
  validate_CrossMarginStressEvidence (mkStressEvidence r p) = Ok e → evidence_for r e ∧ cse_proof e = p.
Proof.
  unfold validate_CrossMarginStressEvidence. intros Hp%stress_proof_digests H.
  apply bind_Ok in H as (u & _ & H). apply Ok_inj in H as <-. done.
Qed.

Lemma contradictory_evidence r price clamped reason e :
  contradictory r price clamped reason = Ok e → evidence_for r e.
Proof.
  unfold contradictory, build_proof. intros H. apply bind_Ok in H as (p & Hp & H).
  by eapply evidence_of_proof.
Qed.

Lemma evaluated_evidence r e : evaluate_cross_margin_stress r = Ok e → evidence_for r e.
Proof.
  unfold evaluate_cross_margin_stress. destruct (stress_boundary r) as [price clamped].
  destruct (negb (csr_notional_coefficient_certified r)); [apply contradictory_evidence|].
  destruct (negb _); [apply contradictory_evidence|]. intros H. apply bind_Ok in H as (points & _ & H).
  destruct (negb _); [by eapply contradictory_evidence|]. cbv zeta in H.
  destruct (_ <? _)%dec; [by eapply contradictory_evidence|]. apply bind_Ok in H as (l & _ & H).
  destruct l as [|first rest]; [done|]. destruct (min_surplus first rest) as [price' surplus].
  apply bind_Ok in H as (p & Hp & H). unfold build_proof in Hp. by eapply evidence_of_proof.
Qed.

(** ** Refusals carry no Claim *)

Lemma refused_claim_Ok status d : refused_claim status = Ok d → cd_claim d = None.
Proof.
  unfold refused_claim, validate_CapacityClaimDecision. intros H. apply bind_Ok in H as (u & _ & H).
  by apply Ok_inj in H as <-.
Qed.

Lemma refuse_first_claim checks k d c :
  refuse_first checks k = Ok d → cd_claim d = Some c → Forall (λ x, x.1 = false) checks ∧ k = Ok d.
Proof.
  induction checks as [|[[] status] checks IH]; cbn; intros H Hc; [done| |].
  - apply refused_claim_Ok in H. congruence.
  - destruct (IH H Hc). by split; [constructor|].
Qed.

(** A frozen Claim keeps what is neither rounded nor renamed. *)
Lemma frozen_fields v c :
  freeze_capacity_claim v = Ok c →
  cc_ticket_identity c = cc_ticket_identity v ∧ cc_margin_mode_at_claim c = cc_margin_mode_at_claim v ∧
  cc_exit_binding_id c = normalize_optional (cc_exit_binding_id v) ∧
  cc_remaining_family_slots_at_claim c = cc_remaining_family_slots_at_claim v ∧
  cc_cross_margin_stress_evidence c = cc_cross_margin_stress_evidence v ∧
  cc_created_at_ms c = cc_created_at_ms v ∧ cc_expires_at_ms c = cc_expires_at_ms v ∧
  cc_selected_leverage c = cc_selected_leverage v ∧
  cc_leverage_change_required c = cc_leverage_change_required v.
Proof.
  intros H. destruct (freeze_inv _ _ H) as (p & Hp & -> & _).
  unfold normalize_claim_decimals_for_storage in Hp.
  repeat match type of Hp with
  | mbind _ _ = _ => let q := fresh "q" in apply bind_Ok in Hp as (q & _ & Hp)
  end.
  apply Ok_inj in Hp as <-. repeat split.
Qed.

(** The stop of a validated Claim is on the protective side of its entry. *)
Lemma claim_stop_protective c r0 :
  validate_CapacityClaim c = Ok c →
  validate_CrossMarginStressRequest r0 = Ok (cse_request (cc_cross_margin_stress_evidence c)) →
  match nd_position_side (ti_netting_domain (cc_ticket_identity c)) with
  | long => (dval (cc_initial_stop_price c) < dval (cc_entry_reference_price c))%Q
  | short => (dval (cc_entry_reference_price c) < dval (cc_initial_stop_price c))%Q
  end ∧ csp_status (cse_proof (cc_cross_margin_stress_evidence c)) = PASSED.
Proof.
  intros (_ & _ & Hm)%validate_claim_Ok Hr. unfold claim_model_checks in Hm. cbv zeta in Hm.
  rewrite !Forall_app in Hm. destruct Hm as (_ & _ & Hs & _). unfold claim_stress_checks in Hs.
  do 5 (apply Forall_cons in Hs as [? Hs]; cbn [fst] in *). clear Hs. decimal_facts.
  rewrite ?deqb_spec in *. split; [|done].
  unfold validate_CrossMarginStressRequest in Hr. apply bind_Ok in Hr as (u & _ & Hr). cbv zeta in Hr.
  apply bind_Ok in Hr as (v & Hp & Hr). apply validate_model_Ok in Hp.
  do 3 (apply Forall_cons in Hp as [_ Hp]). apply Forall_cons in Hp as [Hp _]. cbn [fst] in Hp.
  apply Ok_inj in Hr. set (r := cse_request _) in *. clearbody r. subst r. cbn in *.
  cbn [fst] in *. rewrite <- H1. destruct (csr_evaluated_side r0); apply dleb_false in Hp; lra.
Qed.

(** The sizing of this kernel never asks for another leverage. *)
Lemma sized_keeps_leverage r d c :
  select_capacity_candidate r = Ok d → sd_selected d = Some c → ss_leverage_change_required c = false.
Proof.
  unfold select_capacity_candidate. intros H Hc.
  assert (R : ∀ s, refused s ≠ Ok d) by (intros s [-> _]%refused_Ok; discriminate Hc).
  destruct (_ <=? _); [by apply R in H|]. destruct (_ || _); [by apply R in H|]. cbv zeta in H.
  destruct (_ <=? d0)%dec; [destruct (_ <=? d0)%dec; by apply R in H|].
  destruct (_ <=? d0)%dec; [by apply R in H|]. unfold size_within in H. cbv zeta in H.
  do 2 (apply bind_Ok in H as (? & _ & H)). destruct (_ <=? d0)%dec; [by apply R in H|].
  apply bind_Ok in H as (? & _ & H). apply bind_Ok in H as (ev & Hev & H). cbn [map_result] in Hev.
  apply bind_Ok in Hev as (found & Hx & Hev). apply Ok_inj in Hev as <-.
  destruct found as [c'|s]; cbn [omap list_omap candidate_of existsb] in H;
    [|repeat case_match; by apply R in H].
  rewrite choose_single in H. destruct (_ <? _)%dec in H; [by apply R in H|].
  unfold validate_CapacitySizingDecision in H. run_ok H. cbn in Hc. injection Hc as <-.
  unfold evaluate_candidate in Hx. cbv zeta in Hx. do 2 (apply bind_Ok in Hx as (? & _ & Hx)).
  destruct (_ || _); [discriminate Hx|]. apply bind_Ok in Hx as (? & _ & Hx).
  do 2 (destruct (_ || _); [discriminate Hx|]). do 2 (apply bind_Ok in Hx as (? & _ & Hx)).
  apply Ok_inj in Hx.
  exact (eq_sym (f_equal (λ x, match x with inl s => ss_leverage_change_required s | inr _ => false end) Hx)).
Qed.

(** ** The decision *)

(** What stands between the inputs and a Claim: every guard passed, and the
    Claim was frozen from a sized, stress-tested plan. *)
Lemma claimed_inv i d c :
  build_capacity_claim i = Ok d → cd_claim d = Some c →
  ∃ contract entry_price stop_price selected evidence identity take_profit reclaim session r0,
    Forall (λ x, x.1 = false) (early_refusals i) ∧
    Forall (λ x, x.1 = false) (portfolio_refusals i contract) ∧
    validate_CrossMarginStressRequest r0 = Ok (cse_request evidence) ∧
    is_sha256_digest (csp_proof_digest (cse_proof evidence)) = true ∧
    ss_leverage_change_required selected = false ∧
    ticket_identity_for i = Ok identity ∧
    freeze_capacity_claim (claim_arguments i contract identity entry_price stop_price take_profit
      reclaim session selected evidence) = Ok c.
Proof.
  unfold build_capacity_claim. intros H Hc.
  destruct (refuse_first_claim _ _ _ _ H Hc) as [He H1]. clear H.
  apply bind_Ok in H1 as (contract & _ & H1).
  destruct (refuse_first_claim _ _ _ _ H1 Hc) as [Hp H2]. clear H1. cbv zeta in H2.
  set (entry_price := match sg_position_side _ with long => _ | short => _ end) in H2.
  assert (R : ∀ s, refused_claim s ≠ Ok d) by (intros s ?%refused_claim_Ok; congruence).
  destruct (protection_reference _); [|by apply R in H2]. apply bind_Ok in H2 as (stop_price & _ & H2).
  destruct (refuse_first_claim _ _ _ _ H2 Hc) as [_ H3]. clear H2.
  assert (S : ∃ reclaim session, size_and_claim i contract entry_price stop_price reclaim session = Ok d).
  { unfold plan_and_claim in H3. apply bind_Ok in H3 as (reclaim & _ & H3).
    apply bind_Ok in H3 as (session & _ & H3). destruct (_ || _); [by apply R in H3|].
    destruct session; [|by eauto]. destruct (negb _); [by apply R in H3|by eauto]. }
  clear H3. destruct S as (reclaim & session & H). unfold size_and_claim in H.
  apply bind_Ok in H as (take_profit & _ & H). apply bind_Ok in H as (request & _ & H).
  apply bind_Ok in H as (sizing & Hs & H).
  destruct (sd_status sizing); try by apply R in H.
  destruct (sd_selected sizing) as [selected|] eqn:Hsel; [|by apply R in H].
  apply bind_Ok in H as (positions & _ & H). apply bind_Ok in H as (stress & Hst & H).
  apply bind_Ok in H as (evidence & [Er Ed]%evaluated_evidence & H).
  destruct (csp_status _); try by apply R in H. apply bind_Ok in H as (identity & Hid & H).
  apply bind_Ok in H as (claim & Hf & H). unfold validate_CapacityClaimDecision in H.
  apply bind_Ok in H as (u & _ & H). apply Ok_inj in H as <-. cbn in Hc. injection Hc as ->.
  unfold stress_request in Hst. rewrite <- Er in Hst.
  do 9 eexists. eexists. split_and!; [exact He|exact Hp|exact Hst|exact Ed| |exact Hid|exact Hf].
  by eapply sized_keeps_leverage.
Qed.

Lemma binding_named b0 b :
  validate_EventExitBinding b0 = Ok b → normalize_optional (Some (eb_exit_binding_id b)) = Some (eb_exit_binding_id b).
Proof.
  unfold validate_EventExitBinding. intros H. apply bind_Ok in H as (u & Hf & H).
  apply validate_fields_Ok in Hf. cbn [fmap list_fmap app] in Hf. apply Forall_cons in Hf as [Hf _].
  cbn [fst] in Hf. cbv zeta in H. apply bind_Ok in H as (v & _ & H). apply Ok_inj in H as <-.
  cbn [eb_exit_binding_id]. unfold normalize_optional. by rewrite blank_strip, Hf, strip_idemp.
Qed.

(** C9: A decision that claims capacity is safe to act on.  Its signal, its
    snapshot and its instrument rules were all current; the account and the
    instrument were healthy on exactly that snapshot and the netting domain
    was free; the stop is strictly on the protective side of the entry and
    the cross-margin stress passed.  The Claim issues its Ticket without
    further conditions, every Ticket validator accepts it, it expires no
    later than any of its facts, and the reducer opens the episode by
    ordering the ENTRY at once, with no leverage command before it. *)
Theorem claimed_capacity_is_actionable i d c b0 :
  validate_EventExitBinding b0 = Ok (ci_exit_binding i) →
  build_capacity_claim i = Ok d → cd_claim d = Some c →
  ∃ t, to_ticket c = Ok t ∧ validate_TradeTicket t = Ok t ∧ ticket_identity_for i = Ok (tk_identity t) ∧
    ah_status (ci_account_entry_health i) = ACCOUNT_HEALTHY ∧
    ih_status (ci_instrument_entry_health i) ∈ [HEALTHY_FLAT; HEALTHY_OPPOSITE_SIDE] ∧
    ah_entry_admission_snapshot_digest (ci_account_entry_health i)
      = admission_snapshot_digest (ci_admission_snapshot i) ∧
    ih_entry_admission_snapshot_digest (ci_instrument_entry_health i)
      = admission_snapshot_digest (ci_admission_snapshot i) ∧
    ci_netting_domain_occupied i = false ∧
    match nd_position_side (ti_netting_domain (tk_identity t)) with
    | long => (dval (tk_initial_stop_price t) < dval (tk_entry_reference_price t))%Q
    | short => (dval (tk_entry_reference_price t) < dval (tk_initial_stop_price t))%Q
    end ∧
    csp_status (cse_proof (cc_cross_margin_stress_evidence c)) = PASSED ∧
    ci_now_ms i = tk_created_at_ms t ∧ tk_created_at_ms t < tk_expires_at_ms t ∧
    Z.max (sg_observed_at_ms (ci_signal i)) (Z.max (as_observed_at_ms (ci_admission_snapshot i))
      (ir_observed_at_ms (ci_instrument_rules i))) ≤ ci_now_ms i ∧
    tk_expires_at_ms t ≤ sg_expires_at_ms (ci_signal i) ∧
    tk_expires_at_ms t ≤ as_valid_until_ms (ci_admission_snapshot i) ∧
    tk_expires_at_ms t ≤ ir_valid_until_ms (ci_instrument_rules i) ∧
    ∀ e, ev_body e = TicketIssued t → ev_sequence e = 1 →
      ∃ a, reduce_event None e = Ok (mkReduction a [PrepareEntryCommand t None]) ∧
           status a = ENTRY_PENDING.
Proof.
  intros Hb Hd Hc.
  destruct (claimed_inv i d c Hd Hc)
    as (contract & entry_price & stop_price & selected & evidence & identity & tp & reclaim & session
        & r0 & He & Hp & Hr & Hdig & Hlev & Hid & Hf).
  destruct (frozen_fields _ _ Hf) as (F1 & F2 & F3 & F4 & F5 & F6 & F7 & F8 & F9).
  destruct (freeze_inv _ _ Hf) as (_ & _ & _ & Hv). clear Hf.
  cbn [cc_ticket_identity cc_margin_mode_at_claim cc_exit_binding_id
       cc_remaining_family_slots_at_claim cc_cross_margin_stress_evidence cc_created_at_ms
       cc_expires_at_ms cc_leverage_change_required claim_arguments] in F1, F2, F3, F4, F5, F6, F7, F9.
  rewrite (binding_named _ _ Hb) in F3. rewrite Hlev in F9. rewrite <- F5 in Hr, Hdig.
  destruct (claim_stop_protective c r0 Hv Hr) as [Hstop Hpass].
  unfold early_refusals in He. cbv zeta in He. unfold portfolio_refusals in Hp.
  repeat match goal with H : Forall _ (_ :: _) |- _ => apply Forall_cons in H as [? H] end.
  cbn [fst] in *. decimal_facts.
  assert (Hslots : 0 < cc_remaining_family_slots_at_claim c) by (rewrite F4; lia).
  exists (claim_ticket c).
  split; [apply to_ticket_iff; by rewrite ?F2, ?F3; eauto|].
  split; [by apply claim_ticket_valid|].
  split; [by cbn; rewrite F1|]. do 5 (split; [done|]). split; [exact Hstop|]. split; [done|].
  cbn [claim_ticket tk_created_at_ms tk_expires_at_ms]. rewrite F6, F7.
  do 6 (split; [lia|]). intros e Hbody Hseq. unfold reduce_event, issue_ticket. rewrite Hbody, Hseq.
  cbn. rewrite F9. by eexists.
Qed.

(** ** A claim of the registered opening-range strategy *)

Module SampleBuild.

Definition event_spec : str := "event_spec:SOR-001:SOR-LONG:v4".

Definition registered := Eval vm_compute in
  (bindings ← registered_event_exit_bindings;
   profiles ← registered_exit_profiles;
   mret (b ← head (filter (λ b, eb_event_spec_id b = event_spec) bindings);
         p ← head (filter (λ p, ep_exit_profile_id p = eb_exit_profile_id b) profiles);
         Some (b, p))).
Definition binding : EventExitBinding :=
  Eval vm_compute in
    match registered with Ok (Some (b, _)) => b | _ => mkBinding "" 0 "" "" "" "" "" 0 end.
Definition profile : option ExitProfile :=
  Eval vm_compute in match registered with Ok (Some (_, p)) => Some p | _ => None end.

Definition facts : list SignalFactSnapshot :=
  [mkFactSnapshot "fact:breakout_edge_crossed_v3:v3" role_condition (JBool true) true 40 200 1;
   mkFactSnapshot "fact:opening_range_high_reference_v3:v3" role_lifecycle_reference
     (JStr "97.5") true 40 200 1;
   mkFactSnapshot "fact:opening_range_low_reference_v3:v3" role_protection_reference
     (JStr "95.03") true 40 200 1;
   mkFactSnapshot "fact:session_end_ms_v3:v3" role_lifecycle_reference (JStr "900") true 40 200 1].
Definition fact_digest := Eval vm_compute in
  match build_signal_fact_digest facts with Ok d => d | Raise _ => EmptyString end.
Definition signal : StrategySignal :=
  mkSignal "signal:1" "episode:1" "scope" 1 "SOR-001" "sgv:SOR-001:v4" event_spec "universe"
    Sample.digest "BTCUSDT" long fact_digest 45 50 200 facts None.

Definition account (digest : str) : AccountRiskSnapshot :=
  mkAccountRiskSnapshot "binance-usdm" "main" "BTCUSDT" (of_int 100) 5 (of_int 1000)
    (of_int 1000) d0 d0 (of_int 1000) [] 50 80 digest.
Definition snapshot : EntryAdmissionSnapshot := Eval vm_compute in
  mkAdmissionSnapshot (account (snapshot_payload_digest (account Sample.digest))) (mkDecimal 999 (-1))
    (of_int 100) [] 50 80.
Definition ownership : AdmissionOwnership := mkOwnership [] [] [] [] [].
Definition account_verdict : AccountEntryHealth := Eval vm_compute in
  match classify_account_entry_health snapshot ownership with
  | Ok h => h | Raise _ => mkAccountHealth ACCOUNT_HEALTHY scope_none None "" "" end.
Definition instrument_verdict : InstrumentEntryHealth := Eval vm_compute in
  match classify_instrument_entry_health snapshot ownership "BTCUSDT" long with
  | Ok h => h | Raise _ => mkInstrumentHealth HEALTHY_FLAT 5 false scope_none None "" "" end.

Definition policy : CapacityPolicy :=
  mkPolicy "policy" 1 3 (Some 2) (mkFamilyLimits 1 1 1) (mkDecimal 2 (-2)) (mkDecimal 6 (-2))
    (mkDecimal 2 (-1)) (mkDecimal 6 (-1)) (mkDecimal 4 (-2)) (mkDecimal 5 (-1)) 10 (mkDecimal 15 (-1))
    (mkDecimal 1 (-1)).
Definition usage : CapacityUsage := mkUsage d0 d0 d0 0 0 0 d0.
Definition rules : CapacityInstrumentRules :=
  mkInstrumentRules "binance-usdm" "BTCUSDT" (mkDecimal 1 (-3)) (mkDecimal 1 (-1)) (mkDecimal 1 (-3))
    (of_int 5) 20 [Sample.bracket] Sample.digest d1 true 1 40 100.

Definition inputs (p : ExitProfile) : ClaimInputs :=
  {| ci_signal := signal; ci_runtime_profile_id := "profile"; ci_venue_id := "binance-usdm";
     ci_account_id := "main"; ci_position_mode := "independent_sides"; ci_policy := policy;
     ci_usage := usage; ci_instrument_rules := rules; ci_admission_snapshot := snapshot;
     ci_account_entry_health := account_verdict; ci_instrument_entry_health := instrument_verdict;
     ci_entry_order_type := MARKET;
     ci_current_exit_binding := mkCurrentBinding event_spec (eb_exit_binding_id binding)
       (eb_binding_semantic_hash binding) 1 1;
     ci_exit_binding := binding; ci_exit_profile := mkProfileRecord p true;
     ci_netting_domain_occupied := false; ci_now_ms := 60 |}.

(** The exact inputs, and the Claim they lead to. *)
Definition decided := Eval vm_compute in
  (p ← profile; match build_capacity_claim (inputs p) with
                | Ok d => c ← cd_claim d; Some (p, d, c) | Raise _ => None end).

Lemma decided_ok :
  match decided with
  | Some (p, d, c) => build_capacity_claim (inputs p) = Ok d ∧ cd_claim d = Some c
  | None => False
  end.
Proof. split; vm_compute; reflexivity. Qed.

Lemma signal_ok : validate_StrategySignal signal = Ok signal.
Proof. vm_compute. reflexivity. Qed.

Lemma binding_ok : validate_EventExitBinding binding = Ok binding.
Proof. vm_compute. reflexivity. Qed.

End SampleBuild.

Lemma claimed_capacity_is_actionable_witness :
  ∃ p d c t, build_capacity_claim (SampleBuild.inputs p) = Ok d ∧ cd_claim d = Some c ∧
    to_ticket c = Ok t ∧ csp_status (cse_proof (cc_cross_margin_stress_evidence c)) = PASSED ∧
    tk_created_at_ms t = 60 ∧ tk_expires_at_ms t ≤ 80.
Proof.
  destruct SampleBuild.decided as [[[p d] c]|] eqn:E; [|discriminate E].
  pose proof SampleBuild.decided_ok as H. rewrite E in H. destruct H as [H1 H2].
  destruct (claimed_capacity_is_actionable (SampleBuild.inputs p) d c _ SampleBuild.binding_ok H1 H2)
    as (t & Ht & _ & _ & _ & _ & _ & _ & _ & _ & Hpass & Hnow & _ & _ & _ & Hexp & _).
  exists p, d, c, t. split; [exact H1|]. split; [exact H2|]. split; [exact Ht|].
  split; [exact Hpass|]. split; [exact (eq_sym Hnow)|exact Hexp].
Defined.
