(* ===== verification/DispatchProperties.v ===== *)
(** * What leaves the last look

    An allowed dispatch is an ENTRY of the Ticket its Claim issues, on current
    facts, under a policy that authorizes it, within every budget, with a stop
    on the protective side and a passed stress. *)

From Stdlib Require Import QArith.
From S2P Require Import Prelude PyString PyDecimal DecimalFacts Identities Ticket CrossMarginStress CapacitySizing.
From S2P Require Import Commands Capacity Admission Product Control ProduceSignal Dispatch StrategyRegistry.
From S2P Require Import Samples ClaimProperties.
#[local] Open Scope Z_scope.

(** A list of guards lets through exactly what none of them catches. *)
Lemma refuse_first_through checks continue s :
  Forall (λ c : bool * EntryDispatchPreflightStatus, c.2 ≠ s) checks →
  refuse_first checks continue = Ok s → Forall (λ c, c.1 = false) checks ∧ continue = Ok s.
Proof.
  induction 1 as [|[[] status] checks Hs _ IH]; cbn; intros H; [done|by apply Ok_inj in H|].
  destruct (IH H). split; [by constructor|done].
Qed.

Lemma refuse_first_pass checks continue :
  Forall (λ c : bool * EntryDispatchPreflightStatus, c.1 = false) checks →
  refuse_first checks continue = continue.
Proof. induction 1 as [|[[] status] checks Hc _ IH]; [done|done|exact IH]. Qed.

Lemma same_ticket_identity a b : same_ticket a b = true → tk_identity a = tk_identity b.
Proof. unfold same_ticket. intros H. repeat apply andb_true in H as [H _]. by apply bool_decide_eq_true_1 in H. Qed.

(** The order the command carries is the ENTRY of this Ticket. *)
Lemma command_matches_Ok command ticket claim :
  command_matches_ticket_and_claim command ticket claim = Ok true →
  ec_status command = Commands.CLAIMED ∧ ec_generation command = 1 ∧ ec_ticket_identity command = tk_identity ticket ∧
  (∃ issued, to_ticket claim = Ok issued ∧ same_ticket issued ticket = true) ∧
  tk_capacity_claim_id ticket = cc_capacity_claim_id claim ∧
  (ec_kind command = SET_LEVERAGE ∨ ec_kind command = ENTRY ∧ ∃ p, ec_payload command = OrderPayload p ∧
     op_required_configured_leverage p = Some FIXED_EXCHANGE_CONFIGURED_LEVERAGE).
Proof.
  unfold command_matches_ticket_and_claim. intros H.
  destruct (bool_decide_reflect (ec_kind command ∈ [SET_LEVERAGE; ENTRY])) as [Hk|]; [|done]. cbn [negb] in H.
  destruct (_ || _) eqn:Hs; [done|]. apply orb_false in Hs as [Hs Hg].
  apply negb_false, bool_decide_eq_true_1 in Hs. apply negb_false, Z.eqb_eq in Hg.
  destruct (bool_decide_reflect (ec_ticket_identity command = tk_identity ticket)) as [Hi|]; [|done].
  cbn [negb] in H. apply bind_Ok in H as (issued & Hissued & H).
  destruct (same_ticket issued ticket) eqn:Hsame; [|done]. cbn [negb] in H.
  destruct (bool_decide_reflect (tk_capacity_claim_id ticket = cc_capacity_claim_id claim)) as [Hc|]; [|done].
  cbn [negb] in H. apply Ok_inj in H. split_and!; try done; [by exists issued|].
  apply elem_of_cons in Hk as [Hk|Hk%list_elem_of_singleton]; [by left|]. right. split; [done|].
  rewrite Hk in H. rewrite bool_decide_eq_false_2 in H by done.
  destruct (ec_payload command) as [p| |]; [|done..]. exists p. split; [done|].
  apply andb_true in H as [_ H]. by apply bool_decide_eq_true_1 in H.
Qed.

(** What a passed stress was computed on. *)
Lemma stress_passes_Ok ticket snapshot rules :
  cross_margin_stress_passes ticket snapshot rules = Ok true →
  ∃ request evidence, evaluate_cross_margin_stress request = Ok evidence ∧
    csp_status (cse_proof evidence) = PASSED ∧
    csr_account_snapshot request = as_account_risk_snapshot snapshot ∧
    csr_evaluated_side request = nd_position_side (ti_netting_domain (tk_identity ticket)) ∧
    csr_reference_entry_price request = entry_price_for ticket snapshot ∧
    csr_initial_stop_price request = tk_initial_stop_price ticket.
Proof.
  unfold cross_margin_stress_passes. intros H. destruct (negb _); [done|]. cbv zeta in H.
  apply bind_Ok in H as (positions & _ & H). apply bind_Ok in H as (request & Hr & H).
  apply bind_Ok in H as (evidence & He & H). apply Ok_inj, bool_decide_eq_true_1 in H.
  unfold validate_CrossMarginStressRequest in Hr. apply bind_Ok in Hr as (? & _ & Hr). cbv zeta in Hr.
  apply bind_Ok in Hr as (? & _ & Hr). apply Ok_inj in Hr.
  exists request, evidence. split_and!; try done; by rewrite <- Hr.
Qed.

Section allowed.
Context (r : EntryDispatchPreflightRequest).

Let ticket := pq_ticket r.
Let claim := pq_capacity_claim r.
Let command := pq_command r.
Let snapshot := pq_admission_snapshot r.
Let account := as_account_risk_snapshot snapshot.
Let domain := ti_netting_domain (tk_identity ticket).
Let price := entry_price_for ticket snapshot.

(** The guards an allowed request has passed. *)
Lemma allowed_passes :
  revalidate_entry_dispatch r = Ok PREFLIGHT_ALLOWED →
  command_matches_ticket_and_claim command ticket claim = Ok true ∧
  pq_now_ms r < ec_deadline_at_ms command ∧ pq_now_ms r < cc_expires_at_ms claim ∧
  ec_kind command ≠ SET_LEVERAGE ∧ cross_margin_stress_passes ticket snapshot (pq_instrument_rules r) = Ok true ∧
  ∃ policy, pq_owner_policy r = Some policy ∧ policy_matches policy ticket claim = true ∧
    Forall (λ c, c.1 = false) (authority_refusals r policy) ∧
    Forall (λ c, c.1 = false) (account_refusals r) ∧
    Forall (λ c, c.1 = false) (budget_refusals r policy).
Proof.
  intros H. unfold revalidate_entry_dispatch in H. fold ticket claim command snapshot account domain in H.
  apply refuse_first_through in H as [_ H]; [|by repeat constructor].
  apply bind_Ok in H as (matches & Hm & H).
  apply refuse_first_through in H as [Hd H]; [|by repeat constructor].
  destruct (pq_owner_policy r) as [policy|]; [|done].
  apply refuse_first_through in H as [Hg H].
  2: { cbn. repeat constructor; repeat case_bool_decide; done. }
  apply bind_Ok in H as (stress & Hst & H).
  apply refuse_first_through in H as [Hend _]; [|by repeat constructor].
  autorewrite with checks in Hd, Hend. cbn [fst] in Hd, Hend.
  destruct Hd as (Hmm & Hd & _). apply negb_false in Hmm as ->. apply orb_false in Hd as [Hd1 Hd2]. apply Z.leb_gt in Hd1, Hd2.
  destruct Hend as (Hs & _ & Hk & _). apply negb_false in Hs as ->. apply bool_decide_eq_false_1 in Hk.
  apply Forall_cons in Hg as [Hp Hg]. rewrite !Forall_app in Hg. cbn [fst] in Hp. apply negb_false in Hp.
  split_and!; try done. exists policy. tauto.
Qed.

Lemma flat_and_free :
  netting_domain_is_flat_and_order_free snapshot ticket = true →
  (∀ p, p ∈ ars_account_positions account → arp_exchange_instrument_id p = nd_exchange_instrument_id domain →
     arp_position_side p = nd_position_side domain → (dval (arp_quantity p) <= 0)%Q) ∧
  (∀ o, o ∈ as_open_orders snapshot → ao_exchange_instrument_id o = nd_exchange_instrument_id domain →
     ao_position_side o ≠ nd_position_side domain).
Proof.
  unfold netting_domain_is_flat_and_order_free. fold domain account. intros [Hp Ho]%andb_true.
  apply negb_true, existsb_false in Hp. apply negb_true, existsb_false in Ho. rewrite Forall_forall in Hp. rewrite Forall_forall in Ho. split.
  - intros p Hin Hi Hs. specialize (Hp p Hin). rewrite !bool_decide_eq_true_2 in Hp by done. cbn [andb] in Hp.
    apply dltb_false in Hp. eapply Qle_trans; [exact Hp|]. by vm_compute.
  - intros o Hin Hi Hs. specialize (Ho o Hin). by rewrite !bool_decide_eq_true_2 in Ho.
Qed.

Lemma within_budgets policy :
  Forall (λ c, c.1 = false) (budget_refusals r policy) →
  (dval (tk_risk_at_stop ticket)
     <= dval (ars_total_wallet_balance account * wp_max_ticket_stop_risk_fraction policy))%Q ∧
  (dval (cc_gross_risk_at_stop_at_claim claim + tk_risk_at_stop ticket)
     <= dval (ars_total_wallet_balance account * wp_max_gross_stop_risk_fraction policy))%Q ∧
  (dval (tk_reserved_margin ticket) <= dval (ars_available_margin account))%Q ∧
  (dval (tk_reserved_margin ticket) <= dval (ticket_margin_limit r policy))%Q ∧
  (dval (tk_quantity ticket * dabs (price - tk_initial_stop_price ticket))
     <= dval (tk_post_fill_stop_risk_limit ticket))%Q ∧
  quote_preserves_protection ticket price = true.
Proof.
  unfold budget_refusals. fold ticket claim snapshot account price. intros H. autorewrite with checks in H.
  cbn [fst] in H. destruct H as (H1 & _ & H3 & H4 & H5 & _). apply orb_false in H1 as [H1 H2].
  apply dltb_false in H1, H2, H3, H5. apply negb_false in H4.
  pose proof (dmin_le_l (dmin (ticket_margin_limit r policy) (ars_available_margin account)) (remaining_gross_margin r policy)).
  pose proof (dmin_le_l (ticket_margin_limit r policy) (ars_available_margin account)).
  pose proof (dmin_le_r (ticket_margin_limit r policy) (ars_available_margin account)).
  split_and!; try done; by eapply Qle_trans, Qle_trans.
Qed.

End allowed.

(** ** A sample dispatch, of the Claim of the sample build *)

Module SampleDispatch.
Definition claim : option CapacityClaim := Eval vm_compute in
  match SampleBuild.decided with Some (_, _, c) => Some c | None => None end.
Definition ticket : option TradeTicket := Eval vm_compute in
  (c ← claim; match to_ticket c with Ok t => Some t | Raise _ => None end).

Definition order (t : TradeTicket) : OrderCommandPayload :=
  mkOrderPayload buy (tk_quantity t) order_market false None None None None None
    (Some 5) None.

Definition command (t : TradeTicket) : ExchangeCommand :=
  mkExchangeCommand "command:1" (tk_identity t) ENTRY 1 "key" (Some "client")
    (OrderPayload (order t)) Commands.CLAIMED 61 75.

Definition policy : OwnerPolicySnapshot :=
  mkOwnerPolicy "policy" 1 true true 1 3 (Some 2) (mkFamilyLimits 1 1 1) (mkDecimal 2 (-2)) (mkDecimal 6 (-2))
    (mkDecimal 2 (-1)) (mkDecimal 6 (-1)) (mkDecimal 4 (-2)) (mkDecimal 5 (-1)) 10 (mkDecimal 15 (-1))
    (mkDecimal 1 (-1)) (Some [mkEventProfile SampleBuild.event_spec "profile"]).

Definition runtime_scope : RuntimeScopeSnapshot :=
  mkRuntimeScope "scope" "SOR-001" "sgv:SOR-001:v4" SampleBuild.event_spec "profile" "policy" "BTCUSDT" long
    "universe" Sample.digest scope_active true true 1 0 None None None None.

Definition rules : InstrumentRulesFacts :=
  mkRulesFacts "BTCUSDT" (mkDecimal 1 (-3)) (mkDecimal 1 (-1)) (mkDecimal 1 (-3)) (of_int 5) 20
    [Sample.bracket] Sample.digest d1 true 40 100.

Definition request (c : CapacityClaim) (t : TradeTicket) : EntryDispatchPreflightRequest :=
  {| pq_command := command t; pq_ticket := t; pq_capacity_claim := c; pq_owner_policy := Some policy;
     pq_runtime_scope := Some runtime_scope;
     pq_active_universe := Some (mkActiveUniverse SampleBuild.event_spec "universe" Sample.digest "BTCUSDT");
     pq_strategy_group := Some (mkGroup "SOR-001" (Some "sgv:SOR-001:v4") "active");
     pq_strategy_version := Some (mkVersion "sgv:SOR-001:v4" "SOR-001" "active");
     pq_event_spec := Some (mkEventSpec SampleBuild.event_spec "sgv:SOR-001:v4" long "market" "active");
     pq_runtime_capability := Some (mkCapability "exchange_commands" true "commit" "schema");
     pq_runtime_commit := "commit"; pq_schema_revision := "schema";
     pq_admission_snapshot := SampleBuild.snapshot; pq_instrument_rules := rules;
     pq_account_entry_health := SampleBuild.account_verdict;
     pq_instrument_entry_health := SampleBuild.instrument_verdict;
     pq_active_family_ticket_count := 1; pq_active_strategy_side_ticket_count := 1;
     pq_active_directional_risk_at_stop := d1; pq_now_ms := 62; pq_product_entry_decision := None;
     pq_strategy_entry_enabled := true; pq_selection_entry_vacuum_open := false;
     pq_selection_authority_valid := true |}.

Lemma allowed :
  match claim, ticket with
  | Some c, Some t => revalidate_entry_dispatch (request c t) = Ok PREFLIGHT_ALLOWED
  | _, _ => False
  end.
Proof. vm_compute. reflexivity. Qed.
End SampleDispatch.

