(* ===== verification/Catalog.v ===== *)
(** * The evaluated catalog

    The contracts, exit profiles, bindings and legacy policies the code
    registers, evaluated once; their digests are compared by [vm_compute]
    only.

    Its theorems follow: the catalog is closed under its own validators and
    reproduces the certified hashes. *)

From S2P Require Import Prelude PyString Sha256 PyDecimal Identities Ticket StrategyRegistry ExitPolicy.
#[local] Open Scope Z_scope.

Definition value_or {A} (d : A) (r : result A) : A := match r with Ok a => a | Raise _ => d end.
Definition contracts := Eval vm_compute in value_or [] registered_strategy_contracts.
Definition profiles := Eval vm_compute in value_or [] registered_exit_profiles.
Definition bindings := Eval vm_compute in value_or [] registered_event_exit_bindings.
Definition policies := Eval vm_compute in value_or [] registered_exit_policies.

Lemma contracts_ok : registered_strategy_contracts = Ok contracts.
Proof. vm_compute. reflexivity. Qed.
Lemma profiles_ok : registered_exit_profiles = Ok profiles.
Proof. vm_compute. reflexivity. Qed.
Lemma bindings_ok : registered_event_exit_bindings = Ok bindings.
Proof. vm_compute. reflexivity. Qed.
Lemma policies_ok : registered_exit_policies = Ok policies.
Proof. vm_compute. reflexivity. Qed.

(** ** The registered catalog

    The contracts, exit profiles, bindings and legacy policies the code
    registers, as a whole ([Catalog.v] evaluates them); every digest is compared
    by [vm_compute] only. *)

(** A binding is the one of the contract and leads to the profile. *)
Definition binds (c : RegisteredStrategyContract) (b : EventExitBinding) (p : ExitProfile) : Prop :=
  eb_event_spec_id b = sc_event_spec_id c ∧ eb_exit_profile_id b = ep_exit_profile_id p ∧
  eb_exit_profile_semantic_hash b = exit_profile_semantic_hash p ∧
  ep_position_side p = sc_position_side c ∧
  (RECLAIM_REFERENCE ∈ ep_pre_tp1_guards p → is_Some (sc_pre_tp1_reclaim_reference_fact c)) ∧
  (SESSION_EXPIRY ∈ ep_pre_tp1_guards p → is_Some (sc_exposure_session_end_reference_fact c)).

#[local] Instance binds_dec c b p : Decision (binds c b p).
Proof. unfold binds. apply _. Defined.

(** The binding and the profile a contract leads to. *)
Definition bound_to (c : RegisteredStrategyContract) : option (EventExitBinding * ExitProfile) :=
  b ← list_find (λ b, eb_event_spec_id b = sc_event_spec_id c) Catalog.bindings;
  p ← list_find (λ p, ep_exit_profile_id p = eb_exit_profile_id b.2) Catalog.profiles;
  Some (b.2, p.2).

Definition bound (c : RegisteredStrategyContract) : bool :=
  match bound_to c with Some (b, p) => bool_decide (binds c b p) | None => false end.

Lemma bound_spec c :
  bound c = true → ∃ b p, b ∈ Catalog.bindings ∧ p ∈ Catalog.profiles ∧ binds c b p.
Proof.
  unfold bound, bound_to. destruct (list_find _ Catalog.bindings) as [[i b]|] eqn:Hb; [|done].
  cbn [mbind option_bind snd]. destruct (list_find _ Catalog.profiles) as [[k p]|] eqn:Hp; [|done].
  cbn [mbind option_bind snd]. intros H%bool_decide_eq_true_1. exists b, p.
  apply list_find_Some in Hb as (Hb & _), Hp as (Hp & _).
  split_and!; [..|done]; by eapply list_elem_of_lookup_2.
Qed.

(** The registered catalog is closed: every contract, profile and binding
    the code registers passes its own validators; contracts and profiles have
    distinct identities; and every contract resolves by its Event identity
    and is bound to a registered profile of its own side, by hash, whose
    pre-TP1 guards it supplies with the references they need. *)
Theorem registered_catalog_is_closed :
  ∃ contracts profiles bindings,
    registered_strategy_contracts = Ok contracts ∧ registered_exit_profiles = Ok profiles ∧
    registered_event_exit_bindings = Ok bindings ∧
    NoDup (sc_event_spec_id <$> contracts) ∧ NoDup (ep_exit_profile_id <$> profiles) ∧
    length bindings = length contracts ∧
    ∀ c, c ∈ contracts →
      strategy_contract_for (sc_event_spec_id c) = Ok c ∧
      ∃ b p, b ∈ bindings ∧ p ∈ profiles ∧ binds c b p.
Proof.
  exists Catalog.contracts, Catalog.profiles, Catalog.bindings.
  split; [apply Catalog.contracts_ok|]. split; [apply Catalog.profiles_ok|].
  split; [apply Catalog.bindings_ok|]. split; [apply (bool_decide_unpack _); vm_compute; exact I|].
  split; [apply (bool_decide_unpack _); vm_compute; exact I|]. split; [reflexivity|].
  assert (R : Forall (λ c, strategy_contract_for (sc_event_spec_id c) = Ok c) Catalog.contracts)
    by (repeat (apply Forall_cons; split; [vm_compute; reflexivity|]); by apply Forall_nil).
  assert (B : forallb bound Catalog.contracts = true) by (vm_compute; reflexivity).
  intros c Hc. split; [by eapply Forall_forall in R|].
  rewrite forallb_forall in B. apply bound_spec, B. by apply list_elem_of_In.
Qed.

(** The rows of the certified revision 0003: the Event, its semantic hash, and
    the semantic hash of its exit policy. *)
Definition certified_0003 : list (str * str * str) :=
  [("event_spec:CPM-RO-001:CPM-LONG:v3",
    "sha256:9b83f84c170686b8bb1aaef886fe5b364580f6bb91cfacfdaae0a2665eb60bb2",
    "sha256:aaf031d95771068434c03ceea83e770bd302c7c1073139e0d16fc02e2148b053");
   ("event_spec:MPG-001:MPG-LONG:v3",
    "sha256:4a5de575897430b7345c47bb7d30669aeb4b489af4fcb31af5bb0309d1c00a34",
    "sha256:e36d5c92db351f2dbfe480c326e57dfae13f258f11bc9c04b9fe785c37ea1637");
   ("event_spec:MI-001:MI-LONG:v3",
    "sha256:2d078dc0b4491a3a8ca46b31d232e8f9f15519b533e0bc9c3702e6cb84557a7c",
    "sha256:70695ea6bcecbbc65411c271e11ab3546ff25bdd07953f9291c23d4c7cc9e3ad");
   ("event_spec:SOR-001:SOR-LONG:v4",
    "sha256:098e0367328e1041be4ce1ed570f5a72a475a2898191c6f8831e49d0b91de496",
    "sha256:7632a2ce5f7618fcc547cac4c2daf6c6816390449abbf13ae21dc6e8bd2305b6");
   ("event_spec:SOR-001:SOR-SHORT:v4",
    "sha256:bbb50f9b1348b0cdec1834c482c63dd5713b6d6354ff4934af92b429b87698c9",
    "sha256:0b344d752855c951499933794167eeb797cacdf9efecc41ffd802eeec07b9a3a");
   ("event_spec:BRF2-001:BRF2-SHORT:v3",
    "sha256:94a6ef6b3ae3db0e01d780d3f6d1abea8c27264043657ab6cfcd7ef580d91bb4",
    "sha256:746632f69e3640b6e5604580d25fe872af2a55a9ebdd3a6a804dc034d25ff639")].

(** What the code rebuilds of one row. *)
Definition rebuilt (row : str * str * str) (c : RegisteredStrategyContract) (p : ExitPolicy) : Prop :=
  sc_event_spec_id c = row.1.1 ∧ xp_event_spec_id p = row.1.1 ∧
  build_registry_semantic_hash [c] = Ok row.1.2 ∧
  (exit_policy_semantic_hash p = row.2 ↔ xp_time_stop p = None).

#[local] Instance rebuilt_dec row c p : Decision (rebuilt row c p).
Proof. unfold rebuilt. apply _. Defined.

Definition rebuilt_somewhere (row : str * str * str) : bool :=
  match list_find (λ c, sc_event_spec_id c = row.1.1) Catalog.contracts,
        list_find (λ p, xp_event_spec_id p = row.1.1) Catalog.policies with
  | Some (_, c), Some (_, p) => bool_decide (rebuilt row c p)
  | _, _ => false
  end.

Lemma rebuilt_somewhere_spec row :
  rebuilt_somewhere row = true →
  ∃ c p, c ∈ Catalog.contracts ∧ p ∈ Catalog.policies ∧ rebuilt row c p.
Proof.
  unfold rebuilt_somewhere. destruct (list_find _ Catalog.contracts) as [[i c]|] eqn:Hc; [|done].
  destruct (list_find _ Catalog.policies) as [[k p]|] eqn:Hp; [|done].
  intros H%bool_decide_eq_true_1. exists c, p.
  apply list_find_Some in Hc as (Hc & _), Hp as (Hp & _).
  split_and!; [..|done]; by eapply list_elem_of_lookup_2.
Qed.

(** The registry reproduces the revision a migration certified, but not
    all of its exit policies: for each of the six Events of revision 0003 the
    code rebuilds exactly the certified Event hash; the hash of its legacy
    exit policy equals the certified one precisely when the policy has no time
    stop (the time-stop rule has gained a field since). *)
Theorem certified_revision_reproduced :
  ∃ contracts policies,
    registered_strategy_contracts = Ok contracts ∧ registered_exit_policies = Ok policies ∧
    Forall (λ row, ∃ c p, c ∈ contracts ∧ p ∈ policies ∧ rebuilt row c p) certified_0003.
Proof.
  exists Catalog.contracts, Catalog.policies.
  split; [apply Catalog.contracts_ok|]. split; [apply Catalog.policies_ok|].
  assert (R : forallb rebuilt_somewhere certified_0003 = true) by (vm_compute; reflexivity).
  rewrite forallb_forall in R. apply Forall_forall. intros row Hrow.
  apply rebuilt_somewhere_spec, R. by apply list_elem_of_In.
Qed.
