(* ===== verification/DetectorFacts.v ===== *)
(** * Windows and reports of the detectors

    What the detectors share: windows of constructed candles, the facts a
    report is made of, and for every registered contract the lemma that its
    report is sound when the trigger closed beyond the protection reference.

    The second half proves what the detectors promise their callers: they answer
    on every constructed snapshot, and a triggered report protects. *)

From Stdlib Require Import QArith Lqa.
From S2P Require Import Prelude PyString Sha256 PyDecimal DecimalFacts Identities Ticket.
From S2P Require Import StrategyRegistry ExitPolicy Signal DecimalText Product Market Detector.
From S2P Require Import Detectors ProduceSignal Catalog.
#[local] Open Scope Z_scope.

#[local] Arguments strip : simpl never.
#[local] Arguments blank : simpl never.

(** ** Candles and windows *)

Record candle_shape (k : ClosedCandle) : Prop := {
  candle_times : 0 < ck_open_time_ms k < ck_close_time_ms k;
  candle_low : (0 < dval (ck_low k))%Q;
  candle_open : (dval (ck_low k) <= dval (ck_open k) <= dval (ck_high k))%Q;
  candle_close : (dval (ck_low k) <= dval (ck_close k) <= dval (ck_high k))%Q
}.

Lemma candle_facts k : validate_ClosedCandle k = Ok k → candle_shape k.
Proof.
  unfold validate_ClosedCandle. intros H. apply bind_Ok in H as (u & Hm & _).
  apply validate_model_Ok in Hm. unfold candle_checks in Hm.
  repeat (apply Forall_cons in Hm as [? Hm]). cbn [fst] in *. decimal_facts. pose proof dval_d0.
  pose proof (dmin_le_r (dmin (ck_open k) (ck_high k)) (ck_low k)).
  pose proof (dmin_le_l (dmin (dmin (ck_open k) (ck_high k)) (ck_low k)) (ck_close k)).
  pose proof (dmax_ge_l (ck_open k) (ck_close k)). pose proof (dmax_ge_r (ck_open k) (ck_close k)).
  pose proof (dmin_le_l (ck_open k) (ck_close k)). pose proof (dmin_le_r (ck_open k) (ck_close k)).
  split; [lia|..]; repeat split; lra.
Qed.

(** A sequence of constructed candles of a snapshot. *)
Definition real (l : list ClosedCandle) : Prop := ∀ k, k ∈ l → validate_ClosedCandle k = Ok k.

Lemma nth_back_in {A} n (l : list A) :
  (0 < n <= length l)%nat → ∃ x, nth_back n l = Ok x ∧ l !! (length l - n)%nat = Some x.
Proof.
  intros H. unfold nth_back. destruct (lookup_lt_is_Some_2 l (length l - n)) as [x Hx]; [lia|].
  exists x. split; [|done]. rewrite reverse_lookup by lia.
  replace (length l - S (pred n))%nat with (length l - n)%nat by lia. by rewrite Hx.
Qed.

Lemma elem_slice_back {A} n m (l : list A) i x :
  (m <= n <= length l)%nat → (length l - n <= i < length l - m)%nat → l !! i = Some x →
  x ∈ slice_back n m l.
Proof.
  intros Hn Hi Hx. unfold slice_back. apply list_elem_of_lookup.
  exists (i - (length l - n))%nat. rewrite lookup_drop, lookup_take_lt by lia.
  replace (length l - n + (i - (length l - n)))%nat with i by lia. done.
Qed.

Lemma slice_back_sub {A} n m (l : list A) x : x ∈ slice_back n m l → x ∈ l.
Proof.
  unfold slice_back. intros H%list_elem_of_lookup. destruct H as [i Hi]. rewrite lookup_drop in Hi.
  apply list_elem_of_lookup. eexists. apply lookup_take_Some in Hi as [Hi _]. exact Hi.
Qed.

Lemma foldl_min_spec l x : foldl dmin x l ∈ x :: l ∧ ∀ y, y ∈ x :: l → (dval (foldl dmin x l) <= dval y)%Q.
Proof.
  revert x. induction l as [|z l IH]; intros x; cbn.
  - split; [left|]. intros y [->|[]%elem_of_nil]%elem_of_cons. apply Qle_refl.
  - destruct (IH (dmin x z)) as [H1 H2]. split.
    + apply elem_of_cons in H1 as [->|H1]; [|right; by right].
      destruct (dmin_cases x z) as [-> | ->]; [left|right; left].
    + intros y. rewrite !elem_of_cons. intros [->|[->|Hy]].
      * eapply Qle_trans; [apply (H2 (dmin x z)); left|apply dmin_le_l].
      * eapply Qle_trans; [apply (H2 (dmin x z)); left|apply dmin_le_r].
      * apply H2. by right.
Qed.

Lemma foldl_max_spec l x : foldl dmax x l ∈ x :: l ∧ ∀ y, y ∈ x :: l → (dval y <= dval (foldl dmax x l))%Q.
Proof.
  revert x. induction l as [|z l IH]; intros x; cbn.
  - split; [left|]. intros y [->|[]%elem_of_nil]%elem_of_cons. apply Qle_refl.
  - destruct (IH (dmax x z)) as [H1 H2]. split.
    + apply elem_of_cons in H1 as [->|H1]; [|right; by right].
      destruct (dmax_cases x z) as [-> | ->]; [left|right; left].
    + intros y. rewrite !elem_of_cons. intros [->|[->|Hy]].
      * eapply Qle_trans; [apply dmax_ge_l|apply (H2 (dmax x z)); left].
      * eapply Qle_trans; [apply dmax_ge_r|apply (H2 (dmax x z)); left].
      * apply H2. by right.
Qed.

Lemma py_min_spec (f : ClosedCandle → Decimal) l k :
  k ∈ l → ∃ m, py_min (f <$> l) = Ok m ∧ (∃ k', k' ∈ l ∧ m = f k') ∧
    ∀ k', k' ∈ l → (dval m <= dval (f k'))%Q.
Proof.
  destruct l as [|x l]; [by intros ?%elem_of_nil|]. intros _. cbn.
  destruct (foldl_min_spec (f <$> l) (f x)) as [H1 H2]. eexists. split; [done|]. split.
  - change (f x :: (f <$> l)) with (f <$> x :: l) in H1. apply list_elem_of_fmap in H1 as (k' & -> & Hk).
    by exists k'.
  - intros k' Hk. apply H2. change (f x :: (f <$> l)) with (f <$> x :: l). by apply list_elem_of_fmap_2.
Qed.

Lemma py_max_spec (f : ClosedCandle → Decimal) l k :
  k ∈ l → ∃ m, py_max (f <$> l) = Ok m ∧ (∃ k', k' ∈ l ∧ m = f k') ∧
    ∀ k', k' ∈ l → (dval (f k') <= dval m)%Q.
Proof.
  destruct l as [|x l]; [by intros ?%elem_of_nil|]. intros _. cbn.
  destruct (foldl_max_spec (f <$> l) (f x)) as [H1 H2]. eexists. split; [done|]. split.
  - change (f x :: (f <$> l)) with (f <$> x :: l) in H1. apply list_elem_of_fmap in H1 as (k' & -> & Hk).
    by exists k'.
  - intros k' Hk. apply H2. change (f x :: (f <$> l)) with (f <$> x :: l). by apply list_elem_of_fmap_2.
Qed.

Lemma pct_answers x y : ∃ q, pct x y = Ok q.
Proof.
  unfold pct. destruct (y =? d0)%dec eqn:E; [by eexists|].
  destruct (ddiv_total x y) as [q Hq].
  { intros H. apply deqb_false in E. apply E. by rewrite dval_d0. }
  rewrite Hq. by eexists.
Qed.

Lemma strip_zeros_nonneg fuel q e ideal : 0 <= q → 0 <= coef (strip_zeros fuel q e ideal).
Proof.
  revert q e. induction fuel as [|fuel IH]; intros q e Hq; [done|]. cbn [strip_zeros].
  destruct (_ && _); [|done]. apply IH. by apply Z.div_pos.
Qed.

(** A quotient by a positive number is positive only for a positive numerator. *)
Lemma quotient_positive a b q :
  (0 < dval b)%Q → ddiv a b = Ok q → (0 < dval q)%Q → (0 < dval a)%Q.
Proof.
  intros Hb%dval_sign H Hq. apply dval_sign. unfold ddiv in H.
  destruct (Z.eqb_spec (coef b) 0); [lia|]. destruct (Z.eqb_spec (coef a) 0).
  { apply Ok_inj in H as <-. apply dval_sign in Hq. cbn in Hq. lia. }
  cbv zeta in H. rewrite (Z.sgn_pos (coef b)) in H by done.
  destruct (Z.lt_ge_cases 0 (coef a)) as [|Ha]; [done|]. rewrite (Z.sgn_neg (coef a)) in H by lia.
  fold (div_shift a b) in H. fold (div_num a b) (div_den a b) (div_expo a b) in H.
  assert (Hn : 0 <= div_num a b / div_den a b).
  { apply Z.div_pos; [|by apply div_den_pos]. unfold div_num. apply Z.mul_nonneg_nonneg; [lia|].
    apply Z.pow_nonneg. lia. }
  destruct (_ =? 0); apply Ok_inj in H as <-; apply fix_prec_pos, dval_sign in Hq; cbn [coef] in Hq.
  - pose proof (strip_zeros_nonneg 32 _ (div_expo a b) (expo a - expo b) Hn). lia.
  - destruct (_ =? 0) in Hq; lia.
Qed.

Lemma dadd_nonneg a b : (0 <= dval a)%Q → (0 <= dval b)%Q → (0 <= dval (a + b)%dec)%Q.
Proof. intros Ha Hb. apply fix_prec_nonneg. rewrite dval_raw_add. lra. Qed.

Lemma dadd_pos a b : (0 < dval a)%Q → (0 <= dval b)%Q → (0 < dval (a + b)%dec)%Q.
Proof. intros Ha Hb. unfold dadd. rewrite <- fix_prec_pos, dval_raw_add. lra. Qed.

Lemma dsum_nonneg l : Forall (λ d, (0 <= dval d)%Q) l → (0 <= dval (dsum l))%Q.
Proof.
  unfold dsum. assert (H : (0 <= dval d0)%Q) by (rewrite dval_d0; lra). revert H. generalize d0.
  induction l as [|x l IH]; intros a Ha Hl; [done|]. apply Forall_cons in Hl as [Hx Hl]. cbn.
  apply IH; [by apply dadd_nonneg|done].
Qed.

(** ** The facts of a report *)

(** A reported value as the fact of its requirement. *)
Definition reported (c : RegisteredStrategyContract) (observed until : Z)
    (v : str * JsonValue * bool) : option SignalFactSnapshot :=
  match list_find (λ q, fr_fact_name q = v.1.1) (registered_facts c) with
  | Some (_, q) => Some (mkFactSnapshot (fr_fact_definition_id q) (fr_role q) v.1.2 v.2 observed until 1)
  | None => None
  end.

(** The value has a requirement and passes the value checks of its role. *)
Definition reportable (c : RegisteredStrategyContract) (v : str * JsonValue * bool) : Prop :=
  match list_find (λ q, fr_fact_name q = v.1.1) (registered_facts c) with
  | Some (_, q) =>
      blank (fr_fact_definition_id q) = false ∧ strip (fr_fact_definition_id q) = fr_fact_definition_id q ∧
      fr_freshness_ms q = sc_freshness_window_ms c ∧
      Forall (λ k, k.1 = false) (fact_value_checks (fr_role q) v.1.2)
  | None => False
  end.

Lemma fact_reported c s name value satisfied observed until :
  reportable c (name, value, satisfied) →
  0 < default (mk_trigger_candle_close_time_ms s) observed
    < default (default (mk_trigger_candle_close_time_ms s) observed + sc_freshness_window_ms c) until →
  ∃ f, fact_snapshot_within c s name value satisfied observed until = Ok f ∧
    reported c (default (mk_trigger_candle_close_time_ms s) observed)
      (default (default (mk_trigger_candle_close_time_ms s) observed + sc_freshness_window_ms c) until)
      (name, value, satisfied) = Some f.
Proof.
  unfold reportable, reported, fact_snapshot_within. cbn [fst snd].
  destruct (list_find _ _) as [[i q]|]; [|done]. intros (Hb & Hs & Hf & Hv) Hw. rewrite Hf.
  eexists. split; [|done]. unfold validate_SignalFactSnapshot. cbn [sf_fact_definition_id].
  rewrite bind_pass by (apply validate_fields_Ok; by repeat constructor).
  rewrite bind_pass; [by rewrite Hs|]. apply validate_model_Ok. apply Forall_cons. split; [|exact Hv].
  cbn. lia.
Qed.

Lemma facts_reported c s values :
  0 < mk_trigger_candle_close_time_ms s → 0 < sc_freshness_window_ms c → Forall (reportable c) values →
  fact_snapshots c s values = Ok (omap (reported c (mk_trigger_candle_close_time_ms s)
    (mk_trigger_candle_close_time_ms s + sc_freshness_window_ms c)) values).
Proof.
  intros Ht Hw. induction 1 as [|[[name value] satisfied] values Hv Hvs IH]; [done|].
  destruct (fact_reported c s name value satisfied None None Hv) as (f & Hok & Hf); [cbn; lia|].
  cbn [default from_option id] in Hf. unfold fact_snapshots in *. cbn [map_result omap list_omap].
  fold (fact_snapshot c s name value satisfied) in Hok. rewrite Hok, Hf.
  cbn [mbind result_bind]. by rewrite IH.
Qed.

Lemma condition_reportable role b :
  role = role_condition ∨ role = role_disable →
  Forall (λ k : bool * str, k.1 = false) (fact_value_checks role (JBool b)).
Proof. intros [-> | ->]; by repeat constructor. Qed.

Lemma decimal_reportable role d :
  (0 < dval d)%Q → role ≠ role_condition ∧ role ≠ role_disable →
  Forall (λ k : bool * str, k.1 = false) (fact_value_checks role (decimal_fact d)).
Proof.
  intros Hd [H1 H2]. assert (Hn : nonpositive d = false) by by apply nonpositive_false.
  unfold fact_value_checks, decimal_fact, decimal_of_value. rewrite parse_py_str.
  destruct role; try done; repeat constructor; cbn; by rewrite ?Hn.
Qed.

Lemma ms_reportable role n :
  0 < n → role ≠ role_condition ∧ role ≠ role_disable →
  Forall (λ k : bool * str, k.1 = false) (fact_value_checks role (ms_fact n)).
Proof.
  intros Hn [H1 H2]. assert (Hp : nonpositive (of_int n) = false).
  { apply nonpositive_false. rewrite dval_of_int. change 0%Q with (inject_Z 0). by rewrite <- Zlt_Qlt. }
  unfold fact_value_checks, ms_fact, decimal_of_value. rewrite parse_string_of_Z by lia.
  destruct role; try done; repeat constructor; cbn; by rewrite ?Hp.
Qed.

(** What a triggered report must be for a signal. *)
Record sound_report (c : RegisteredStrategyContract) (trigger : Z) (p : Decimal)
    (facts : list SignalFactSnapshot) : Prop := {
  rp_sorted : sort_facts facts = facts;
  rp_unique : bool_decide (NoDup (sf_fact_definition_id <$> facts)) = true;
  rp_identities : same_identities (sf_fact_definition_id <$> facts)
                    (fr_fact_definition_id <$> registered_facts c) = true;
  rp_window : Forall (λ f, sf_observed_at_ms f ≤ trigger < sf_valid_until_ms f) facts;
  rp_current : Exists (λ f, sf_observed_at_ms f = trigger) facts;
  rp_eligible : Forall (λ f, sf_satisfied f = negb (is_disable f)) facts;
  rp_protection : ∃ f, filter (λ f, sf_role f = role_protection_reference) facts = [f] ∧
                    decimal_of_value (sf_value f) = Some (Some p);
  rp_identity : match sc_episode_policy c with
                | rising_edge => filter (λ f, sf_role f = role_identity_reference) facts = []
                | session_reference => ∃ f d,
                    filter (λ f, sf_role f = role_identity_reference) facts = [f] ∧
                    decimal_of_value (sf_value f) = Some (Some d)
                end
}.

(** Strictly on the protective side of a close. *)
Definition protective (side : PositionSide) (p close : Decimal) : Prop :=
  match side with
  | long => (0 < dval p < dval close)%Q
  | short => (0 < dval close < dval p)%Q
  end.

(** The last candle closed at the trigger, beyond the reference [p]. *)
Definition trigger_close (c : RegisteredStrategyContract) (s : MarketSnapshot) (p : Decimal) : Prop :=
  ∃ latest, last (market_candles s (sc_timeframe c)) = Some latest ∧
    ck_close_time_ms latest = mk_trigger_candle_close_time_ms s ∧
    protective (sc_position_side c) p (ck_close latest).

Definition detection (c : RegisteredStrategyContract) (s : MarketSnapshot) (r : DetectorResult) : Prop :=
  dr_event_spec_id r = sc_event_spec_id c ∧
  (detector_triggered r = true →
   dr_occurred_at_ms r = Some (mk_trigger_candle_close_time_ms s) ∧
   ∃ p, trigger_close c s p ∧ sound_report c (mk_trigger_candle_close_time_ms s) p (dr_facts r)).

Definition answers (c : RegisteredStrategyContract) (s : MarketSnapshot) (m : result DetectorResult) : Prop :=
  ∃ r, m = Ok r ∧ detection c s r.

(** The parts of a contract every detector uses. *)
Record contract_shape (c : RegisteredStrategyContract) : Prop := {
  shape_event : blank (sc_event_spec_id c) = false;
  shape_stripped : strip (sc_event_spec_id c) = sc_event_spec_id c;
  shape_window : 0 < sc_freshness_window_ms c
}.

Lemma invalid_answers c s reason :
  contract_shape c → blank reason = false → answers c s (invalid_result c reason).
Proof.
  intros [H1 H2 H3] Hr. unfold answers, invalid_result, validate_DetectorResult.
  rewrite bind_pass by (apply validate_fields_Ok; each_check ltac:(first [done|reflexivity])).
  cbv zeta. rewrite bind_pass by (apply validate_model_Ok; each_check ltac:(reflexivity)).
  eexists. split; [done|]. split; [exact H2|]. intros H. discriminate H.
Qed.

Lemma computed_answers c s triggered reason facts :
  contract_shape c → 0 < mk_trigger_candle_close_time_ms s → blank reason = false →
  bool_decide (NoDup (sf_fact_definition_id <$> sort_facts facts)) = true → sort_facts facts ≠ [] →
  (triggered = true →
   same_identities (sf_fact_definition_id <$> facts) (fr_fact_definition_id <$> registered_facts c) = true ∧
   ∃ p, trigger_close c s p ∧
     sound_report c (mk_trigger_candle_close_time_ms s) p (sort_facts facts)) →
  answers c s (computed_result c s triggered reason facts).
Proof.
  intros [H1 H2 H3] Ht Hr Hn Hne Hreport. unfold answers, computed_result, validate_DetectorResult.
  rewrite bind_pass.
  2:{ apply raise_if_pass. destruct triggered; [|done]. destruct (Hreport eq_refl) as [-> _]. done. }
  cbn [dr_event_spec_id dr_reason_code dr_facts]. cbv zeta.
  rewrite bind_pass by (apply validate_fields_Ok; each_check ltac:(first [done|by rewrite Hn])).
  rewrite bind_pass.
  2:{ apply validate_model_Ok. unfold detector_result_checks.
      each_check ltac:(cbn; destruct triggered; cbn; try done; destruct (sort_facts facts); try done; lia). }
  eexists. split; [done|]. split; [exact H2|]. destruct triggered; [|discriminate].
  intros _. destruct (Hreport eq_refl) as [_ Hp]. done.
Qed.

Lemma in_scope_answers c s m :
  contract_shape c →
  (∀ k, last (market_candles s (sc_timeframe c)) = Some k →
     ck_close_time_ms k = mk_trigger_candle_close_time_ms s → answers c s m) →
  (last (market_candles s (sc_timeframe c)) = None → answers c s m) →
  answers c s (in_scope c s m).
Proof.
  intros Hc Hm Hn. unfold in_scope, validate_snapshot_scope.
  destruct (last _) as [k|] eqn:E; [|by apply Hn].
  destruct (_ =? _) eqn:Ht; [apply (Hm k); [done|lia]|]. by apply invalid_answers.
Qed.

(** The facts a detector reports in one go. *)
Lemma report_answers c s values triggered reason :
  contract_shape c → 0 < mk_trigger_candle_close_time_ms s → blank reason = false →
  Forall (reportable c) values →
  (let facts := omap (reported c (mk_trigger_candle_close_time_ms s)
     (mk_trigger_candle_close_time_ms s + sc_freshness_window_ms c)) values in
   bool_decide (NoDup (sf_fact_definition_id <$> sort_facts facts)) = true ∧ sort_facts facts ≠ [] ∧
   (triggered = true →
    same_identities (sf_fact_definition_id <$> facts) (fr_fact_definition_id <$> registered_facts c) = true ∧
    ∃ p, trigger_close c s p ∧ sound_report c (mk_trigger_candle_close_time_ms s) p (sort_facts facts))) →
  answers c s (facts ← fact_snapshots c s values; computed_result c s triggered reason facts).
Proof.
  intros Hc Ht Hr Hv (Hn & Hne & Hp). rewrite facts_reported by (try done; apply Hc).
  cbn [mbind result_bind]. by apply computed_answers.
Qed.

(** A registered fact of a role, with a value for it. *)
Definition registered_as (c : RegisteredStrategyContract) (name : str) (role : FactRole) : bool :=
  match list_find (λ q, fr_fact_name q = name) (registered_facts c) with
  | Some (_, q) =>
      negb (blank (fr_fact_definition_id q))
      && bool_decide (strip (fr_fact_definition_id q) = fr_fact_definition_id q)
      && (fr_freshness_ms q =? sc_freshness_window_ms c) && bool_decide (fr_role q = role)
  | None => false
  end.

Lemma reportable_as c name role v b :
  registered_as c name role = true → Forall (λ k : bool * str, k.1 = false) (fact_value_checks role v) →
  reportable c (name, v, b).
Proof.
  unfold registered_as, reportable. cbn [fst snd]. destruct (list_find _ _) as [[i q]|]; [|done].
  intros H Hv. rewrite !andb_true_iff, !bool_decide_eq_true, negb_true_iff in H.
  destruct H as (((H1 & H2) & H3) & <-). split_and!; try done. by apply Z.eqb_eq.
Qed.


Lemma last_nth_back {A} (l : list A) x : nth_back 1 l = Ok x → last l = Some x.
Proof.
  unfold nth_back. rewrite last_lookup. intros H.
  destruct (decide (length l = 0)%nat) as [E|E].
  - apply nil_length_inv in E as ->. discriminate.
  - rewrite reverse_lookup in H by lia. replace (length l - S (pred 1))%nat with (pred (length l)) in H by lia.
    destruct (l !! _); [|done]. by apply Ok_inj in H as ->.
Qed.

(** ** Contracts of the catalog *)

Definition default_contract : RegisteredStrategyContract := Eval vm_compute in
  List.hd (mkContract "" "" "" "" long tf_1h 0 MARKET rising_edge long_continuation 0 "" None None [] [] "" false)
    contracts.
Definition CPM_LONG := Eval vm_compute in List.nth 0 contracts default_contract.
Definition MPG_LONG := Eval vm_compute in List.nth 1 contracts default_contract.
Definition MI_LONG := Eval vm_compute in List.nth 2 contracts default_contract.
Definition SOR_LONG := Eval vm_compute in List.nth 3 contracts default_contract.
Definition SOR_SHORT := Eval vm_compute in List.nth 4 contracts default_contract.
Definition BRF2_SHORT := Eval vm_compute in List.nth 5 contracts default_contract.
Definition SOR_1H_LONG := Eval vm_compute in List.nth 6 contracts default_contract.
Definition SOR_1H_SHORT := Eval vm_compute in List.nth 7 contracts default_contract.
Definition SOR_US_LONG := Eval vm_compute in List.nth 8 contracts default_contract.
Definition SOR_US_SHORT := Eval vm_compute in List.nth 9 contracts default_contract.

Ltac shape := split; vm_compute; reflexivity.

Lemma decimal_fact_value d : decimal_of_value (decimal_fact d) = Some (Some d).
Proof. apply parse_py_str. Qed.

Lemma ms_fact_value n : 0 < n → decimal_of_value (ms_fact n) = Some (Some (of_int n)).
Proof. intros H. apply parse_string_of_Z. lia. Qed.

Lemma reference_decimal role d :
  (0 < dval d)%Q → bool_decide (role ∈ [role_condition; role_disable]) = false →
  Forall (λ k : bool * str, k.1 = false) (fact_value_checks role (decimal_fact d)).
Proof.
  intros Hd Hr%bool_decide_eq_false. apply decimal_reportable; [done|].
  split; intros ->; apply Hr; rewrite !elem_of_cons; auto.
Qed.

Lemma reference_ms role n :
  0 < n → bool_decide (role ∈ [role_condition; role_disable]) = false →
  Forall (λ k : bool * str, k.1 = false) (fact_value_checks role (ms_fact n)).
Proof.
  intros Hd Hr%bool_decide_eq_false. apply ms_reportable; [done|].
  split; intros ->; apply Hr; rewrite !elem_of_cons; auto.
Qed.

(** The values a detector reports, one by one, for a contract of the catalog. *)
Ltac as_registered role :=
  apply (reportable_as _ _ role); [vm_compute; reflexivity|].
Ltac each_reportable :=
  repeat (apply List.Forall_cons;
    [first
       [ as_registered role_condition; apply condition_reportable; by left
       | as_registered role_disable; apply condition_reportable; by right
       | (first [ as_registered role_protection_reference | as_registered role_lifecycle_reference
                | as_registered role_identity_reference ]);
         (first [ apply reference_decimal | apply reference_ms ]);
         [try done|vm_compute; reflexivity] ]
    |]);
  apply List.Forall_nil.

(** The reported bundle, computed with the values and the window abstract. *)
Ltac sound :=
  match goal with
  | |- sound_report _ _ _ (sort_facts ?l) =>
      let b := eval vm_compute in (sort_facts l) in
      let E := fresh in
      assert (E : sort_facts l = b) by (vm_compute; reflexivity); rewrite E; clear E
  end;
  split;
  [ vm_compute; reflexivity | vm_compute; reflexivity | vm_compute; reflexivity
  | each_check ltac:(cbn [sf_observed_at_ms sf_valid_until_ms]; lia)
  | repeat (first [left; reflexivity | right])
  | each_check ltac:(reflexivity)
  | eexists; split; [vm_compute; reflexivity|eassumption]
  | first [vm_compute; reflexivity | eexists _, _; split; [vm_compute; reflexivity|eassumption]] ].

Ltac abstract_window s :=
  let t := fresh "t" in let u := fresh "u" in let Hu := fresh in
  match goal with
  | |- context [reported ?c ?t0 ?u0] =>
      assert (Hu : t0 < u0) by (apply Z.lt_add_pos_r; vm_compute; reflexivity);
      generalize dependent u0; intros u Hu
  end;
  generalize dependent (mk_trigger_candle_close_time_ms s); intros t; intros.

Ltac abstract_decimal d :=
  let v := fresh "v" in
  pose proof (decimal_fact_value d); generalize dependent (decimal_fact d); intros v; intros.
Ltac abstract_ms n :=
  let v := fresh "v" in
  pose proof (ms_fact_value n ltac:(done)); generalize dependent (ms_fact n); intros v; intros.

(** The whole report: abstract the references, then compute. *)
Ltac reports abstract_references s Hc :=
  apply report_answers; [shape|done|done|each_reportable|]; cbv zeta; abstract_references;
  split; [vm_compute; reflexivity|]; split; [vm_compute; discriminate|];
  let Htr := fresh "Htr" in
  intros Htr; destruct (Hc Htr) as (? & ?); destruct_and!; subst;
  split; [vm_compute; reflexivity|];
  eexists; split; [eassumption|]; clear Hc; abstract_window s; sound.

Lemma cpm_report s trend reclaim p (triggered : bool) reason :
  0 < mk_trigger_candle_close_time_ms s → blank reason = false → (0 < dval p)%Q →
  (triggered = true → ∃ q, trigger_close CPM_LONG s q ∧ q = p ∧ trend = true ∧ reclaim = true) →
  answers CPM_LONG s
    (facts ← fact_snapshots CPM_LONG s
       [condition "htf_trend_intact" trend; condition "reclaim_confirmed" reclaim;
        reference "pullback_low_reference" (decimal_fact p)];
     computed_result CPM_LONG s triggered reason facts).
Proof. intros Ht Hr Hp Hc. reports ltac:(abstract_decimal p) s Hc. Qed.

Lemma brf2_report s failure disable p (triggered : bool) reason :
  0 < mk_trigger_candle_close_time_ms s → blank reason = false → (0 < dval p)%Q →
  (triggered = true → ∃ q, trigger_close BRF2_SHORT s q ∧ q = p ∧ failure = true ∧ disable = false) →
  answers BRF2_SHORT s
    (facts ← fact_snapshots BRF2_SHORT s
       [condition "rally_failure_confirmed" failure;
        condition "short_side_not_disabled" (negb disable);
        reference "rally_high_reference" (decimal_fact p);
        condition "strong_uptrend_disable" disable];
     computed_result BRF2_SHORT s triggered reason facts).
Proof. intros Ht Hr Hp Hc. reports ltac:(abstract_decimal p) s Hc. Qed.

(** The reports of the opening-range detectors: [p] protects, [q] is the other
    edge. *)
Section session.
Context (s : MarketSnapshot) (triggered crossed eligible : bool) (p q : Decimal) (start stop : Z).
Context (reason : str).
Hypothesis trigger_positive : 0 < mk_trigger_candle_close_time_ms s.
Hypothesis named : blank reason = false.
Hypothesis values_positive : (0 < dval p)%Q ∧ (0 < dval q)%Q ∧ 0 < start ∧ 0 < stop.

Ltac session_report :=
  let Hc := fresh "Hc" in
  destruct values_positive as (? & ? & ? & ?); clear values_positive; intros Hc;
  reports ltac:(abstract_decimal p; abstract_decimal q; abstract_ms start; abstract_ms stop) s Hc.

Lemma sor_long_report :
  (crossed = true → ∃ p', trigger_close SOR_LONG s p' ∧ p' = p) →
  answers SOR_LONG s
    (facts ← fact_snapshots SOR_LONG s
       [condition "opening_range_defined_v3" true; condition "breakout_edge_crossed_v3" crossed;
        reference "opening_range_high_reference_v3" (decimal_fact q);
        reference "opening_range_low_reference_v3" (decimal_fact p);
        reference "session_start_ms_v3" (ms_fact start); reference "session_end_ms_v3" (ms_fact stop)];
     computed_result SOR_LONG s crossed reason facts).
Proof. session_report. Qed.

Lemma sor_short_report :
  (crossed = true → ∃ p', trigger_close SOR_SHORT s p' ∧ p' = p) →
  answers SOR_SHORT s
    (facts ← fact_snapshots SOR_SHORT s
       [condition "opening_range_defined_v3" true; condition "breakdown_edge_crossed_v3" crossed;
        reference "opening_range_low_reference_v3" (decimal_fact q);
        reference "opening_range_high_reference_v3" (decimal_fact p);
        reference "session_start_ms_v3" (ms_fact start); reference "session_end_ms_v3" (ms_fact stop)];
     computed_result SOR_SHORT s crossed reason facts).
Proof. session_report. Qed.

Lemma sor_1h_long_report :
  (crossed = true → ∃ p', trigger_close SOR_1H_LONG s p' ∧ p' = p ∧ eligible = true) →
  answers SOR_1H_LONG s
    (facts ← fact_snapshots SOR_1H_LONG s
       [condition "opening_range_defined_1h_v1" true;
        condition "entry_hour_eligible_1h_v1" eligible; condition "breakout_edge_crossed_1h_v1" crossed;
        reference "opening_range_low_reference_1h_v1" (decimal_fact p);
        reference "opening_range_high_reference_1h_v1" (decimal_fact q);
        reference "session_start_ms_1h_v1" (ms_fact start);
        reference "session_end_ms_1h_v1" (ms_fact stop)];
     computed_result SOR_1H_LONG s crossed reason facts).
Proof. session_report. Qed.

Lemma sor_1h_short_report :
  (crossed = true → ∃ p', trigger_close SOR_1H_SHORT s p' ∧ p' = p ∧ eligible = true) →
  answers SOR_1H_SHORT s
    (facts ← fact_snapshots SOR_1H_SHORT s
       [condition "opening_range_defined_1h_v1" true;
        condition "entry_hour_eligible_1h_v1" eligible; condition "breakdown_edge_crossed_1h_v1" crossed;
        reference "opening_range_high_reference_1h_v1" (decimal_fact p);
        reference "opening_range_low_reference_1h_v1" (decimal_fact q);
        reference "session_start_ms_1h_v1" (ms_fact start);
        reference "session_end_ms_1h_v1" (ms_fact stop)];
     computed_result SOR_1H_SHORT s crossed reason facts).
Proof. session_report. Qed.

Lemma us_long_report :
  (triggered = true → ∃ p', trigger_close SOR_US_LONG s p' ∧ p' = p ∧ eligible = true ∧ crossed = true) →
  answers SOR_US_LONG s
    (facts ← fact_snapshots SOR_US_LONG s
       [condition "regular_session_confirmed_us_v1" true;
        condition "opening_range_defined_us_v1" true; condition "breakout_edge_crossed_us_v1" crossed;
        reference "opening_range_high_reference_us_v1" (decimal_fact q);
        ("initial_stop_reference_us_v1", decimal_fact p, eligible);
        reference "regular_session_open_ms_us_v1" (ms_fact start);
        reference "session_exit_deadline_ms_us_v1" (ms_fact stop)];
     computed_result SOR_US_LONG s triggered reason facts).
Proof. session_report. Qed.

Lemma us_short_report :
  (triggered = true → ∃ p', trigger_close SOR_US_SHORT s p' ∧ p' = p ∧ eligible = true ∧ crossed = true) →
  answers SOR_US_SHORT s
    (facts ← fact_snapshots SOR_US_SHORT s
       [condition "regular_session_confirmed_us_v1" true;
        condition "opening_range_defined_us_v1" true; condition "breakdown_edge_crossed_us_v1" crossed;
        reference "opening_range_low_reference_us_v1" (decimal_fact q);
        ("initial_stop_reference_us_v1", decimal_fact p, eligible);
        reference "regular_session_open_ms_us_v1" (ms_fact start);
        reference "session_exit_deadline_ms_us_v1" (ms_fact stop)];
     computed_result SOR_US_SHORT s triggered reason facts).
Proof. session_report. Qed.

End session.

(** ** What the detectors guarantee

    Every registered detector answers on a constructed snapshot, and a
    triggered result becomes a valid signal whose protection reference lies on
    the protective side of the trigger close. *)

#[local] Arguments strip : simpl never.
#[local] Arguments blank : simpl never.

(** ** Comparative strength *)

Lemma comparative_answers c s group prefix lookback decide :
  contract_shape c → constructed_market s →
  Forall (λ text, blank (prefix +:+ text) = false)
    ["_invalid_comparative_strength_missing"; "_invalid_comparative_strength_scope";
     "_invalid_comparative_strength_stale"; "_invalid_comparative_strength_member_missing"] →
  (∀ x m, 0 < cx_observed_at_ms x ≤ mk_trigger_candle_close_time_ms s →
     mk_trigger_candle_close_time_ms s < cx_valid_until_ms x → answers c s (decide x m)) →
  answers c s (with_comparative_member c s group prefix lookback decide).
Proof.
  intros Hc Hs Hp Hd. repeat (apply Forall_cons in Hp as [? Hp]).
  unfold with_comparative_member, comparative_invalid_reason.
  destruct (mk_comparative_strength s) as [x|] eqn:Ex; [|by apply invalid_answers].
  match goal with |- context [if ?b then Some _ else _] => destruct b end; [by apply invalid_answers|].
  match goal with |- context [if ?b then Some _ else _] => destruct b eqn:E2 end; [by apply invalid_answers|].
  destruct (comparative_member _ _) as [m|e]; [|by apply invalid_answers].
  apply orb_false_iff in E2 as [E2 E3]. apply Hd; [|lia].
  destruct (market_comparative s Hs x Ex) as [(x0 & Hx) _].
  unfold validate_ComparativeStrengthSnapshot in Hx. apply bind_Ok in Hx as (u & _ & Hx).
  apply bind_Ok in Hx as (u' & Hm & Hx). apply validate_model_Ok in Hm.
  apply Ok_inj in Hx as <-. unfold comparative_checks in Hm.
  do 2 (apply Forall_cons in Hm as [? Hm]). cbn in *. lia.
Qed.

Lemma strength_replaced c s x strength ok local :
  registered_as c strength role_condition = true →
  0 < cx_observed_at_ms x < cx_valid_until_ms x →
  ∃ f, replace_strength c s x strength ok local = Ok (<[1%nat := f]> local) ∧
    reported c (cx_observed_at_ms x) (cx_valid_until_ms x) (condition strength ok) = Some f.
Proof.
  intros Hr Hw.
  destruct (fact_reported c s strength (JBool ok) ok (Some (cx_observed_at_ms x))
              (Some (cx_valid_until_ms x))) as (f & Hok & Hf); [|done|].
  { apply (reportable_as _ _ role_condition); [done|]. apply condition_reportable. by left. }
  exists f. split; [|exact Hf]. unfold replace_strength. by rewrite Hok.
Qed.

(** A momentum detector: the three facts, the strength fact replaced by the one
    with the window of the ranking. *)
Ltac momentum_reports s x p ok Hc :=
  match goal with
  | |- context [replace_strength ?c s x ?name ok ?local] =>
      let f := fresh "f" in let Hok := fresh "Hok" in let Hf := fresh "Hf" in
      destruct (strength_replaced c s x name ok local) as (f & Hok & Hf);
      [vm_compute; reflexivity|lia|rewrite Hok; clear Hok; cbn [mbind result_bind]]
  end;
  abstract_decimal p; apply computed_answers;
  [ shape | done | done | | |
    let Hok := fresh "Hok" in intros Hok; specialize (Hc Hok); subst ok;
    split; [|exists p; split; [exact Hc|]]; clear Hc ];
  generalize dependent (cx_observed_at_ms x); intros o; intros;
  generalize dependent (cx_valid_until_ms x); intros e; intros;
  abstract_window s;
  match goal with H : reported _ _ _ _ = Some ?f |- _ => vm_compute in H; apply Some_inj in H; subst f end;
  [ vm_compute; reflexivity | vm_compute; discriminate | vm_compute; reflexivity | sound ].

Section ranked.
Context (s : MarketSnapshot) (x : ComparativeStrengthSnapshot) (ok : bool) (p : Decimal) (reason : str).
Hypothesis trigger_positive : 0 < mk_trigger_candle_close_time_ms s.
Hypothesis named : blank reason = false.
Hypothesis observed : 0 < cx_observed_at_ms x ≤ mk_trigger_candle_close_time_ms s.
Hypothesis fresh_enough : mk_trigger_candle_close_time_ms s < cx_valid_until_ms x.

Lemma mi_report :
  (ok = true → trigger_close MI_LONG s p) →
  answers MI_LONG s
    (facts ← replace_strength MI_LONG s x "relative_strength_confirmed" ok
       (omap (reported MI_LONG (mk_trigger_candle_close_time_ms s)
                (mk_trigger_candle_close_time_ms s + sc_freshness_window_ms MI_LONG))
          [condition "impulse_confirmed" true; condition "relative_strength_confirmed" false;
           reference "impulse_invalidation_reference" (decimal_fact p)]);
     computed_result MI_LONG s ok reason facts).
Proof. intros Hc. momentum_reports s x p ok Hc. Qed.

Lemma mpg_report :
  (ok = true → trigger_close MPG_LONG s p) →
  answers MPG_LONG s
    (facts ← replace_strength MPG_LONG s x "leader_strength_confirmed" ok
       (omap (reported MPG_LONG (mk_trigger_candle_close_time_ms s)
                (mk_trigger_candle_close_time_ms s + sc_freshness_window_ms MPG_LONG))
          [condition "momentum_persistence_confirmed" true;
           condition "leader_strength_confirmed" false;
           reference "momentum_floor_reference" (decimal_fact p)]);
     computed_result MPG_LONG s ok reason facts).
Proof. intros Hc. momentum_reports s x p ok Hc. Qed.

End ranked.

(** ** The evaluations *)

Lemma sma_answers l : length l ≠ 0%nat → ∃ q, CPM.sma l = Ok q.
Proof.
  intros H. apply ddiv_pos_total. rewrite dval_of_int. change 0%Q with (inject_Z 0).
  rewrite <- Zlt_Qlt. lia.
Qed.

Lemma positive_factor a n : 0 < n → (0 < dval (a * of_int n)%dec)%Q → (0 < dval a)%Q.
Proof.
  intros Hn H. unfold dmul in H. rewrite <- fix_prec_pos, dval_raw_mul, dval_of_int in H.
  apply Qnot_le_lt. intros Ha. apply (Qlt_not_le _ _ H).
  assert (0 < inject_Z n)%Q by (change 0%Q with (inject_Z 0); by rewrite <- Zlt_Qlt).
  nra.
Qed.

Section evaluations.
Context (s : MarketSnapshot).
Hypothesis constructed : constructed_market s.

Lemma trigger_of : 0 < mk_trigger_candle_close_time_ms s.
Proof.
  destruct (market_own s constructed) as [s0 H]. unfold validate_MarketSnapshot in H.
  apply bind_Ok in H as (u & _ & H). cbv zeta in H. apply bind_Ok in H as (u' & Hm & H).
  apply validate_model_Ok in Hm. apply Ok_inj in H as <-. unfold market_checks in Hm.
  apply Forall_app in Hm as [Hm _]. apply Forall_cons in Hm as [Hm _]. cbn in *. lia.
Qed.

Lemma real_candle k :
  k ∈ mk_candles_15m s ∨ k ∈ mk_candles_1h s ∨ k ∈ mk_candles_4h s → validate_ClosedCandle k = Ok k.
Proof. intros H. apply (market_candle s constructed). by rewrite !elem_of_app. Qed.

Lemma real_1h k : k ∈ mk_candles_1h s → candle_shape k.
Proof. intros H. apply candle_facts, real_candle. auto. Qed.
Lemma real_15m k : k ∈ mk_candles_15m s → candle_shape k.
Proof. intros H. apply candle_facts, real_candle. auto. Qed.

(** Look at one candle counted from the back, and at the extreme of a window. *)
Ltac at_back n l k :=
  let Hb := fresh "Hb" in let Hi := fresh "Hi" in
  destruct (nth_back_in n l ltac:(lia)) as (k & Hb & Hi); rewrite Hb; cbn [mbind result_bind].
Ltac answered q H := destruct H as [q ->]; cbn [mbind result_bind].

Lemma cpm_answers : answers CPM_LONG s (CPM.cpm_evaluate CPM_LONG s).
Proof.
  pose proof trigger_of as Ht. unfold CPM.cpm_evaluate. cbv zeta.
  apply in_scope_answers; [shape| |intros E; cbn in E; apply last_None in E; rewrite E; by apply invalid_answers].
  intros k0 Hk0 Hclose. destruct (_ || _) eqn:E; [by apply invalid_answers|].
  apply orb_false_iff in E as [E1%Nat.ltb_ge E2%Nat.ltb_ge].
  at_back 1%nat (mk_candles_1h s) latest. at_back 2%nat (mk_candles_1h s) previous.
  at_back 1%nat (mk_candles_4h s) latest4. at_back 2%nat (mk_candles_4h s) previous4.
  assert (Hp : previous ∈ slice_back 21 1 (mk_candles_1h s))
    by (eapply elem_slice_back; [| |exact Hi0]; lia).
  apply last_nth_back in Hb as Hl. cbn in Hk0. rewrite Hl in Hk0. apply Some_inj in Hk0 as <-.
  destruct (sma_answers (ck_close <$> last_n 20 (mk_candles_1h s))) as [sma1 ->].
  { unfold last_n. rewrite length_fmap, length_drop. lia. }
  destruct (sma_answers (ck_close <$> last_n 20 (mk_candles_4h s))) as [sma4 ->].
  { unfold last_n. rewrite length_fmap, length_drop. lia. }
  cbn [mbind result_bind].
  destruct (py_max_spec ck_high _ _ Hp) as (high & -> & (kh & Hkh & ->) & Hmax).
  destruct (py_min_spec ck_low _ _ Hp) as (low & -> & (kl & Hkl & ->) & Hmin). cbn [mbind result_bind].
  apply slice_back_sub, real_1h in Hkh as [_ Hh1 Hh2 _]. apply slice_back_sub, real_1h in Hkl as [_ Hl1 _ _].
  destruct (ddiv_pos_total (ck_high kh - ck_low kl)%dec (ck_high kh)) as [depth ->]; [lra|].
  cbn [mbind result_bind]. specialize (Hmin previous Hp). apply slice_back_sub, real_1h in Hp as [_ _ _ Hp].
  apply cpm_report; [done|by repeat case_match|done|].
  intros H. rewrite !andb_true_iff in H. destruct H as (((T1 & T2) & _) & (T3 & T4)).
  exists (ck_low kl). split; [|by rewrite T1, T2, T3, T4].
  exists latest. split; [done|]. split; [done|]. decimal_facts. split; lra.
Qed.

Ltac scoped :=
  apply in_scope_answers;
  [ shape | | let E := fresh in intros E; cbn in E; apply last_None in E; rewrite E; by apply invalid_answers ];
  let k0 := fresh "k0" in let Hlast := fresh "Hlast" in let Hclose := fresh "Hclose" in
  intros k0 Hlast Hclose; change (market_candles s _) with (mk_candles_1h s) in Hlast
    || change (market_candles s _) with (mk_candles_15m s) in Hlast.
(** A report that did not trigger. *)
Ltac quiet d :=
  apply computed_answers; [shape|done|done| | |discriminate]; abstract_decimal d;
  [vm_compute; reflexivity|vm_compute; discriminate].
(** The candle at the trigger. *)
Ltac is_last Hb :=
  match goal with
  | Hlast : last ?l = Some ?k0 |- _ =>
      let Hl := fresh "Hl" in
      pose proof (last_nth_back _ _ Hb) as Hl; rewrite Hl in Hlast; apply Some_inj in Hlast; subst k0
  end.

Lemma brf2_answers : answers BRF2_SHORT s (BRF2.brf2_evaluate BRF2_SHORT s).
Proof.
  pose proof trigger_of as Ht. unfold BRF2.brf2_evaluate. cbv zeta. scoped.
  destruct (_ <? _)%nat eqn:E1; [by apply invalid_answers|]. apply Nat.ltb_ge in E1.
  destruct (length (mk_candles_4h s) <? 2)%nat eqn:E2; [by apply invalid_answers|]. apply Nat.ltb_ge in E2.
  at_back 1%nat (mk_candles_1h s) latest. is_last Hb. at_back 2%nat (mk_candles_1h s) previous.
  assert (Hm : ∃ m, BRF2.measure (mk_candles_1h s) (mk_candles_4h s) latest = Ok m ∧
                 (dval (ck_high latest) <= dval (BRF2.rally_high m))%Q).
  { unfold BRF2.measure. cbv zeta.
    assert (Hp : previous ∈ slice_back 9 1 (mk_candles_1h s))
      by (eapply elem_slice_back; [| |exact Hi0]; lia).
    destruct (py_min_spec ck_low _ _ Hp) as (low & -> & _).
    destruct (py_max_spec ck_high (slice_back 9 1 (mk_candles_1h s) ++ [latest]) latest)
      as (high & -> & _ & Hmax); [apply elem_of_app; right; by left|].
    cbn [mbind result_bind]. answered p1 (pct_answers (high - low)%dec low).
    match goal with |- context [if ?b then ddiv ?x ?y else _] =>
      assert (Hw : ∃ w, (if b then ddiv x y else mret d0) = Ok w) end.
    { case_match; [|by eexists]. apply ddiv_pos_total. decimal_facts. done. }
    answered w Hw. answered p2 (pct_answers (ck_high latest - ck_close latest)%dec (ck_high latest)).
    at_back 1%nat (mk_candles_4h s) l4. at_back (length (mk_candles_4h s)) (mk_candles_4h s) f4.
    answered p3 (pct_answers (ck_close l4 - ck_close f4)%dec (ck_close f4)).
    eexists. split; [done|]. cbn [BRF2.rally_high]. apply Hmax, elem_of_app. right. by left. }
  destruct Hm as (m & -> & Hh). cbn [mbind result_bind].
  assert (Hk : candle_shape latest) by (apply real_1h; by apply list_elem_of_lookup_2 in Hi).
  destruct Hk as [_ K1 K2 K3]. apply brf2_report; [done|by repeat case_match|lra|].
  intros H. rewrite !andb_true_iff, negb_true_iff in H. destruct H as ((T1 & T2) & T3).
  exists (BRF2.rally_high m). split; [|by rewrite T1, T2, T3].
  exists latest. split; [done|]. split; [done|].
  unfold BRF2.rejection_confirmed in T2. decimal_facts. split; lra.
Qed.

Lemma mi_answers : answers MI_LONG s (MI.mi_evaluate MI_LONG s).
Proof.
  pose proof trigger_of as Ht. unfold MI.mi_evaluate. cbv zeta. scoped.
  destruct (_ <? _)%nat eqn:E1; [by apply invalid_answers|]. apply Nat.ltb_ge in E1.
  at_back 1%nat (mk_candles_1h s) latest. is_last Hb. at_back 13%nat (mk_candles_1h s) lookback.
  assert (Hk : candle_shape lookback) by (apply real_1h; by apply list_elem_of_lookup_2 in Hi0).
  destruct Hk as [_ K1 _ K3].
  destruct (ddiv_pos_total (ck_close latest - ck_close lookback)%dec (ck_close lookback))
    as [change Hchange]; [lra|]. rewrite Hchange. cbn [mbind result_bind].
  unfold momentum_facts. rewrite facts_reported; [|done|vm_compute; reflexivity|].
  2:{ assert (0 < dval (ck_close lookback))%Q by lra. each_reportable. }
  cbn [mbind result_bind]. destruct (negb (_ >=? _)%dec) eqn:Ei.
  - rewrite negb_true_iff in Ei. rewrite Ei.
    quiet (ck_close lookback).
  - apply negb_false_iff in Ei. rewrite Ei.
    apply comparative_answers; [shape|done|by repeat constructor|]. intros x m Hx Hu.
    destruct (negb _); [by apply invalid_answers|].
    apply mi_report; [done|by case_match|done|done|]. intros _. exists latest.
    split; [done|]. split; [done|]. decimal_facts. split; [lra|].
    apply dsub_pos. eapply quotient_positive; [|exact Hchange|]; [lra|].
    apply (positive_factor change 100); [done|]. assert (0 < dval (of_int 3))%Q by reflexivity. lra.
Qed.

Lemma mpg_answers : answers MPG_LONG s (MPG.mpg_evaluate MPG_LONG s).
Proof.
  pose proof trigger_of as Ht. unfold MPG.mpg_evaluate. cbv zeta. scoped.
  destruct (_ <? _)%nat eqn:E1; [by apply invalid_answers|]. apply Nat.ltb_ge in E1.
  destruct (length (mk_candles_4h s) <? 4)%nat eqn:E2; [by apply invalid_answers|]. apply Nat.ltb_ge in E2.
  at_back 1%nat (mk_candles_1h s) latest. is_last Hb. at_back 9%nat (mk_candles_1h s) opening.
  at_back 1%nat (mk_candles_4h s) l4. at_back (length (mk_candles_4h s)) (mk_candles_4h s) f4.
  answered p1 (pct_answers (ck_close latest - ck_close opening)%dec (ck_close opening)).
  answered p2 (pct_answers (ck_close l4 - ck_close f4)%dec (ck_close f4)).
  destruct (nth_back_in 2 (mk_candles_1h s) ltac:(lia)) as (previous & _ & Hp).
  assert (H9 : previous ∈ slice_back 9 1 (mk_candles_1h s)) by (eapply elem_slice_back; [| |exact Hp]; lia).
  assert (H6 : previous ∈ slice_back 6 1 (mk_candles_1h s)) by (eapply elem_slice_back; [| |exact Hp]; lia).
  destruct (py_max_spec ck_high _ _ H9) as (high & -> & _ & Hmax).
  destruct (py_min_spec ck_low _ _ H6) as (low & -> & (kl & Hkl & ->) & Hmin). cbn [mbind result_bind].
  specialize (Hmax previous H9). specialize (Hmin previous H6).
  apply slice_back_sub, real_1h in Hkl as [_ Hl1 _ _]. apply slice_back_sub, real_1h in H6 as [_ _ _ Hpc].
  unfold momentum_facts. rewrite facts_reported; [|done|vm_compute; reflexivity|each_reportable].
  cbn [mbind result_bind]. destruct (negb (_ && _)) eqn:Ei.
  - apply negb_true_iff in Ei. rewrite Ei. quiet (ck_low kl).
  - apply negb_false_iff in Ei. rewrite Ei.
    apply comparative_answers; [shape|done|by repeat constructor|]. intros x m Hx Hu.
    apply mpg_report; [done|by case_match|done|done|]. intros _. exists latest.
    split; [done|]. split; [done|]. decimal_facts. split; lra.
Qed.

(** The range of the first [n] candles of a session. *)
Lemma session_range n l start width :
  (∀ k, k ∈ l → candle_shape k) → (0 < n <= length l)%nat → consecutive_from width start l = true →
  0 < start ∧ ∃ high low, py_max (ck_high <$> take n l) = Ok high ∧
    py_min (ck_low <$> take n l) = Ok low ∧ (0 < dval low <= dval high)%Q.
Proof.
  intros Hl Hn Hc. destruct l as [|k l]; [cbn in Hn; lia|].
  assert (Hk : k ∈ take n (k :: l)) by (destruct n; [lia|left]).
  cbn in Hc. rewrite !andb_true_iff in Hc. destruct Hc as ((Hopen%Z.eqb_eq & _) & _).
  destruct (Hl k) as [[? _] K1 K2 _]; [left|]. split; [lia|].
  destruct (py_max_spec ck_high _ _ Hk) as (high & Hhigh & _ & Hmax).
  destruct (py_min_spec ck_low _ _ Hk) as (low & Hlow & (kl & Hkl & ->) & Hmin).
  exists high, (ck_low kl). split; [done|]. split; [done|].
  specialize (Hmax k Hk). specialize (Hmin k Hk).
  apply elem_of_take in Hkl as (i & Hkl%list_elem_of_lookup_2 & _).
  destruct (Hl kl Hkl) as [_ ? _ _]. split; [done|lra].
Qed.

Lemma day_end d : 0 < d → 0 < d + DAY_MS.
Proof. unfold DAY_MS. lia. Qed.

Lemma sor_answers c : c = SOR_LONG ∨ c = SOR_SHORT → answers c s (SOR.sor_evaluate c s).
Proof.
  pose proof trigger_of as Ht. intros Hc.
  assert (Hshape : contract_shape c ∧ sc_timeframe c = tf_15m) by (destruct Hc as [-> | ->]; split; [shape|done|shape|done]).
  destruct Hshape as [Hshape Htf]. unfold SOR.sor_evaluate. cbv zeta.
  apply in_scope_answers; [done| |rewrite Htf; intros E; cbn in E; apply last_None in E; rewrite E; by apply invalid_answers].
  rewrite Htf. intros k0 Hlast Hclose. cbn [market_candles] in Hlast.
  destruct (_ <? _)%nat eqn:E1; [by apply invalid_answers|]. apply Nat.ltb_ge in E1.
  destruct (negb (consecutive_from _ _ _)) eqn:E2; [by apply invalid_answers|]. apply negb_false_iff in E2.
  at_back 1%nat (mk_candles_15m s) latest. is_last Hb. at_back 2%nat (mk_candles_15m s) previous.
  destruct (session_range 4 _ _ _ real_15m ltac:(lia) E2) as (Hstart & high & low & -> & -> & Hlow & Hhl).
  cbn [mbind result_bind]. pose proof (day_end _ Hstart) as Hend.
  assert (Hk : candle_shape latest) by (apply real_15m; by apply list_elem_of_lookup_2 in Hi).
  destruct Hk as [_ K1 _ K3]. assert (Hh : (0 < dval high)%Q) by lra.
  destruct Hc as [-> | ->].
  - change (SOR.event_side SOR_LONG) with long. change (sc_position_side SOR_LONG) with long. cbv iota.
    apply sor_long_report; [done|by case_match|done|]. intros Hx. exists low. split; [|done].
    exists latest. split; [done|]. split; [done|]. unfold edge_crossed in Hx. decimal_facts. split; lra.
  - change (SOR.event_side SOR_SHORT) with short. change (sc_position_side SOR_SHORT) with short. cbv iota.
    apply sor_short_report; [done|by case_match|done|]. intros Hx. exists high. split; [|done].
    exists latest. split; [done|]. split; [done|]. unfold edge_crossed in Hx. decimal_facts. split; lra.
Qed.

Lemma consecutive_last width start l k :
  consecutive_from width start l = true → last l = Some k →
  ck_close_time_ms k = start + width * Z.of_nat (length l).
Proof.
  revert start. induction l as [|x l IH]; intros start Hc Hl; [done|]. cbn in Hc.
  rewrite !andb_true_iff in Hc. destruct Hc as ((_ & Hx%Z.eqb_eq) & Hc).
  destruct l as [|y l]; [cbn in Hl; apply Some_inj in Hl as <-; cbn; lia|].
  rewrite (IH _ Hc Hl). cbn [length]. lia.
Qed.

Lemma sor_1h_answers c : c = SOR_1H_LONG ∨ c = SOR_1H_SHORT → answers c s (SOR1H.sor_1h_evaluate c s).
Proof.
  pose proof trigger_of as Ht. intros Hc.
  assert (Hshape : contract_shape c ∧ sc_timeframe c = tf_1h) by (destruct Hc as [-> | ->]; split; [shape|done|shape|done]).
  destruct Hshape as [Hshape Htf]. unfold SOR1H.sor_1h_evaluate. cbv zeta.
  set (now := mk_trigger_candle_close_time_ms s) in *. set (d := now / DAY_MS * DAY_MS).
  destruct (_ || _) eqn:E; [by apply invalid_answers|].
  rewrite !orb_false_iff, !negb_false_iff, bool_decide_eq_false in E.
  destruct E as ((((E1 & E2) & E3) & E4) & E5).
  assert (Hn : (0 < length (mk_candles_1h s))%nat) by lia.
  destruct (session_range 1 _ _ _ real_1h ltac:(lia) E5) as (Hstart & _).
  at_back (length (mk_candles_1h s)) (mk_candles_1h s) opening.
  assert (Ho : candle_shape opening) by (apply real_1h; by apply list_elem_of_lookup_2 in Hi).
  destruct Ho as [_ O1 O2 _].
  destruct (_ <=? _)%dec eqn:E6; [by apply invalid_answers|].
  destruct (nth_back_in 1 (mk_candles_1h s) ltac:(lia)) as (latest & Hlatest & _).
  pose proof (last_nth_back _ _ Hlatest) as Hl.
  assert (Hclose : ck_close_time_ms latest = now).
  { rewrite (consecutive_last _ _ _ _ E5 Hl). apply Z.eqb_eq in E1, E4. rewrite E4.
    assert (Hd : d mod HOUR_MS = 0).
    { unfold d. change DAY_MS with (24 * HOUR_MS). rewrite Z.mul_assoc. apply Z_mod_mult. }
    rewrite <- Z_div_exact_full_2; [lia|done|]. rewrite Zminus_mod, E1, Hd. done. }
  assert (Hk : candle_shape latest).
  { apply real_1h. rewrite last_lookup in Hl. by apply list_elem_of_lookup_2 in Hl. }
  destruct Hk as [_ K1 _ K3]. assert (Hh : (0 < dval (ck_high opening))%Q) by lra.
  assert (Hend : 0 < d + DAY_MS) by (unfold DAY_MS; lia).
  assert (Hcross : ∀ side high low,
    (2 <=? length (mk_candles_1h s))%nat &&
      match reverse (mk_candles_1h s) with
      | latest :: previous :: _ => edge_crossed side high low (ck_close previous) (ck_close latest)
      | _ => false
      end = true →
    (2 <=? length (mk_candles_1h s))%nat = true ∧
    ∃ previous, edge_crossed side high low (ck_close previous) (ck_close latest) = true).
  { intros side high low [H2 H]%andb_true_iff. split; [done|].
    assert (Hr : reverse (mk_candles_1h s) !! 0%nat = Some latest).
    { unfold nth_back in Hlatest. cbn in Hlatest. destruct (reverse _ !! 0%nat); [|done].
      by apply Ok_inj in Hlatest as ->. }
    destruct (reverse (mk_candles_1h s)) as [|k1 [|k2 l]]; [done|done|].
    cbn in Hr. apply Some_inj in Hr as ->. by exists k2. }
  destruct Hc as [-> | ->].
  - change (sc_position_side SOR_1H_LONG) with long. cbv iota.
    apply sor_1h_long_report; [done|by repeat case_match|done|]. intros Hx.
    destruct (Hcross _ _ _ Hx) as (He & previous & Hp). exists (ck_low opening). split; [|done].
    exists latest. split; [done|]. split; [done|]. unfold edge_crossed in Hp. decimal_facts. split; lra.
  - change (sc_position_side SOR_1H_SHORT) with short. cbv iota.
    apply sor_1h_short_report; [done|by repeat case_match|done|]. intros Hx.
    destruct (Hcross _ _ _ Hx) as (He & previous & Hp). exists (ck_high opening). split; [|done].
    exists latest. split; [done|]. split; [done|]. unfold edge_crossed in Hp. decimal_facts. split; lra.
Qed.

Lemma pairwise_in {A} (l : list A) p : p ∈ pairwise l → p.1 ∈ l ∧ p.2 ∈ l.
Proof.
  induction l as [|x [|y l] IH]; [intros []%elem_of_nil..|].
  change (pairwise (x :: y :: l)) with ((x, y) :: pairwise (y :: l)). rewrite elem_of_cons.
  intros [->|H]; cbn.
  - split; [left|right; left].
  - destruct (IH H). split; by right.
Qed.

Lemma length_pairwise {A} (l : list A) : length (pairwise l) = pred (length l).
Proof.
  induction l as [|x [|y l] IH]; [done..|].
  change (pairwise (x :: y :: l)) with ((x, y) :: pairwise (y :: l)). cbn [length] in *. by rewrite IH.
Qed.

Lemma atr_answers l :
  (∀ k, k ∈ l → candle_shape k) → (2 <= length l)%nat → ∃ a, USSOR.atr l = Ok a ∧ (0 <= dval a)%Q.
Proof.
  intros Hl Hn. unfold USSOR.atr. cbv zeta.
  assert (Hp : (0 < dval (of_int (Z.of_nat (length (USSOR.true_range <$> pairwise l)))))%Q).
  { rewrite dval_of_int, length_fmap, length_pairwise. change 0%Q with (inject_Z 0).
    rewrite <- Zlt_Qlt. lia. }
  destruct (ddiv_pos_total (dsum (USSOR.true_range <$> pairwise l)) _ Hp) as [a Ha].
  exists a. split; [exact Ha|]. refine (ddiv_nonneg _ _ _ _ Hp Ha). apply dsum_nonneg.
  apply Forall_fmap, Forall_forall. intros p Hin%pairwise_in. cbn.
  destruct Hin as [_ Hin]. destruct (Hl _ Hin) as [_ _ H1 H2].
  unfold USSOR.true_range. eapply Qle_trans; [|apply dmax_ge_l]. eapply Qle_trans; [|apply dmax_ge_l].
  apply dsub_nonneg. lra.
Qed.

(** The candles of a constructed snapshot open in order. *)
Lemma ordered_15m k0 k :
  last (mk_candles_15m s) = Some k0 → k ∈ mk_candles_15m s → ck_open_time_ms k ≤ ck_open_time_ms k0.
Proof.
  destruct (market_own s constructed) as [s0 H]. unfold validate_MarketSnapshot in H.
  apply bind_Ok in H as (u & _ & H). cbv zeta in H. apply bind_Ok in H as (u' & Hm & H).
  apply validate_model_Ok in Hm. apply Ok_inj in H as <-. unfold market_checks in Hm.
  apply Forall_app in Hm as [_ Hm]. apply Forall_app in Hm as [Hm _]. cbn [mk_candles_15m] in *.
  unfold candle_sequence_checks in Hm. apply Forall_cons in Hm as [Hm _]. cbn [fst] in Hm.
  apply orb_false_iff in Hm as [Hm _]. apply negb_false_iff, bool_decide_eq_true in Hm.
  intros [l Hl]%last_Some Hk. rewrite Hl in Hm, Hk.
  apply elem_of_app in Hk as [Hk| ->%list_elem_of_singleton]; [|lia].
  assert (Hs : StronglySorted Z.leb (ck_open_time_ms <$> l ++ [k0]))
    by (rewrite Hm; apply sort_by_sorted; lia).
  rewrite fmap_app in Hs.
  assert (Hle : Z.leb (ck_open_time_ms k) (ck_open_time_ms k0)).
  { eapply (StronglySorted_app_1_elem_of _ _ _ _ _ Hs); [by apply list_elem_of_fmap_2|by left]. }
  apply Is_true_true in Hle. lia.
Qed.

Lemma last_filter {A} (P : A → Prop) `{∀ x, Decision (P x)} l x :
  last l = Some x → P x → last (filter P l) = Some x.
Proof.
  intros [l' ->]%last_Some Hx. rewrite filter_app, filter_cons_True, filter_nil by done.
  by rewrite last_snoc.
Qed.

(** The stop of a short Event is positive. *)
Lemma short_stop_positive high low latest a :
  (0 < dval low)%Q → (0 <= dval a)%Q → (0 < dval (USSOR.initial_stop short high low latest a))%Q.
Proof.
  intros Hl Ha. cbn [USSOR.initial_stop]. apply dadd_pos.
  - eapply Qlt_le_trans; [exact Hl|apply dmax_ge_l].
  - apply dmul_nonneg; [done|]. unfold USSOR.STOP_ATR_BUFFER. by vm_compute.
Qed.

(** A fact that is refused ends the report. *)
Lemma facts_refused c s' pre name d b post :
  0 < mk_trigger_candle_close_time_ms s' → 0 < sc_freshness_window_ms c → Forall (reportable c) pre →
  registered_as c name role_protection_reference = true → nonpositive d = true →
  fact_snapshots c s' (pre ++ (name, decimal_fact d, b) :: post) =
  Raise (ValidationError ["reference facts must be positive finite decimals"]).
Proof.
  intros Ht Hw Hpre Hr Hd. pose proof (facts_reported c s' pre Ht Hw Hpre) as Hok.
  unfold fact_snapshots in *. revert Hok. generalize (omap (reported c (mk_trigger_candle_close_time_ms s')
    (mk_trigger_candle_close_time_ms s' + sc_freshness_window_ms c)) pre).
  induction Hpre as [|v pre _ _ IH]; intros facts Hok; cbn [app map_result].
  - unfold fact_snapshot, fact_snapshot_within. unfold registered_as in Hr.
    destruct (list_find _ _) as [[i q]|]; [|done].
    rewrite !andb_true_iff, !bool_decide_eq_true, negb_true_iff in Hr.
    destruct Hr as (((Hb & _) & Hf%Z.eqb_eq) & Hrole). cbn [default from_option id].
    unfold validate_SignalFactSnapshot. cbn [sf_fact_definition_id].
    rewrite bind_pass by (apply validate_fields_Ok; by repeat constructor).
    cbn [sf_observed_at_ms sf_valid_until_ms sf_projection_version sf_role sf_value].
    rewrite Hrole, Hf. unfold fact_value_checks. rewrite decimal_fact_value. cbn [is_none orb].
    match goal with |- context [validate_model ((?w, _) :: _)] =>
      replace w with false by (symmetry; lia) end.
    cbn [validate_model]. by rewrite Hd.
  - cbn [map_result] in Hok. apply bind_Ok in Hok as (f & Hf & Hok). rewrite Hf.
    apply bind_Ok in Hok as (fs & Hfs & _). cbn [mbind result_bind]. by rewrite (IH fs Hfs).
Qed.

Definition refused_stop : exn := ValidationError ["reference facts must be positive finite decimals"].

(** The evaluation over the regular session: the answer, or, for a long Event
    whose initial stop is not positive, the refusal of the stop fact. *)
Lemma us_regular_answers c k0 regular_open_ms regular_close_ms :
  c = SOR_US_LONG ∨ c = SOR_US_SHORT →
  last (mk_candles_15m s) = Some k0 → ck_close_time_ms k0 = mk_trigger_candle_close_time_ms s →
  mk_trigger_candle_close_time_ms s ≤ regular_close_ms - BAR_MS →
  answers c s (USSOR.evaluate_regular c s regular_open_ms regular_close_ms) ∨
  c = SOR_US_LONG ∧ USSOR.evaluate_regular c s regular_open_ms regular_close_ms = Raise refused_stop.
Proof.
  pose proof trigger_of as Ht. intros Hc Hlast Hclose Hend.
  assert (Hshape : contract_shape c) by (destruct Hc as [-> | ->]; shape).
  unfold USSOR.evaluate_regular. cbv zeta.
  set (regular := filter _ (mk_candles_15m s)).
  assert (Hsub : ∀ k, k ∈ regular → k ∈ mk_candles_15m s) by (intros k Hk; by apply list_elem_of_filter in Hk as [_ Hk]).
  destruct (_ || _) eqn:E1; [left; by apply invalid_answers|].
  destruct (negb (consecutive_from _ _ _)) eqn:E2; [left; by apply invalid_answers|].
  destruct (length (mk_candles_15m s) <? _)%nat eqn:E3; [left; by apply invalid_answers|].
  apply orb_false_iff in E1 as [E1%Nat.ltb_ge _]. apply negb_false_iff in E2. apply Nat.ltb_ge in E3.
  at_back 2%nat regular previous. at_back 1%nat regular latest.
  destruct (session_range 2 _ _ _ (λ k Hk, real_15m k (Hsub k Hk)) ltac:(lia) E2)
    as (Hstart & high & low & -> & -> & Hlow & Hhl). cbn [mbind result_bind].
  assert (Hin : k0 ∈ mk_candles_15m s) by (rewrite last_lookup in Hlast; by apply list_elem_of_lookup_2 in Hlast).
  assert (Hl : last (mk_candles_15m s) = Some latest).
  { apply last_nth_back in Hb0 as Hl. rewrite <- Hl, Hlast. symmetry. apply last_filter; [done|].
    split; [|lia]. destruct regular as [|x l] eqn:Er; [cbn in E1; lia|].
    cbn in E2. rewrite !andb_true_iff in E2. destruct E2 as ((<-%Z.eqb_eq & _) & _).
    apply ordered_15m; [done|]. apply Hsub. by left. }
  rewrite Hlast in Hl. apply Some_inj in Hl as <-.
  destruct (atr_answers (last_n (USSOR.ATR_PERIOD + 1) (mk_candles_15m s))) as (a & -> & Ha).
  { intros k Hk. apply real_15m. unfold last_n in Hk. apply list_elem_of_lookup in Hk as [i Hk].
    rewrite lookup_drop in Hk. by apply list_elem_of_lookup_2 in Hk. }
  { unfold last_n. rewrite length_drop. change USSOR.ATR_PERIOD with 14%nat in *. lia. }
  cbn [mbind result_bind]. destruct (real_15m _ Hin) as [_ K1 _ K3].
  assert (Hh : (0 < dval high)%Q) by lra.
  assert (Hdeadline : 0 < regular_close_ms - BAR_MS) by lia.
  destruct Hc as [-> | ->].
  - change (sc_position_side SOR_US_LONG) with long. cbv iota. cbn [USSOR.stop_distance].
    destruct (USSOR.initial_stop _ _ _ _ _ >? d0)%dec eqn:Es.
    + left. rewrite andb_true_l. apply us_long_report; [done|by repeat case_match| |].
      { split_and!; try done. by decimal_facts. }
      intros Hx. apply andb_true_iff in Hx as [H1 H2]. eexists. split; [|done].
      exists k0. split; [done|]. split; [done|]. apply andb_true_iff in H2 as [H2 _].
      decimal_facts. split; [done|]. by apply dsub_pos.
    + right. split; [done|]. 
      match goal with |- context [fact_snapshots _ _ [?v1; ?v2; ?v3; ?v4; ?v5; ?v6; ?v7]] =>
        change [v1; v2; v3; v4; v5; v6; v7] with ([v1; v2; v3; v4] ++ v5 :: [v6; v7]) end.
      rewrite facts_refused; [done|done|vm_compute; reflexivity|each_reportable|vm_compute; reflexivity|].
      apply not_false_is_true. rewrite nonpositive_false. decimal_facts. lra.
  - left. change (sc_position_side SOR_US_SHORT) with short. cbv iota. cbn [USSOR.stop_distance].
    pose proof (short_stop_positive high low k0 a Hlow Ha) as Hstop.
    apply us_short_report; [done|by repeat case_match|done|].
    intros Hx. apply andb_true_iff in Hx as [H1 H2]. eexists. split; [|done].
    exists k0. split; [done|]. split; [done|]. apply andb_true_iff in H2 as [H2 _].
    apply andb_true_iff in H2 as [_ H2]. decimal_facts. split; [lra|]. by apply dsub_pos.
Qed.

Lemma not_triggered_answers c reason :
  contract_shape c → blank reason = false → answers c s (USSOR.not_triggered c reason).
Proof.
  intros [H1 H2 H3] Hr. unfold answers, USSOR.not_triggered, validate_DetectorResult.
  rewrite bind_pass by (apply validate_fields_Ok; each_check ltac:(first [done|reflexivity])).
  cbv zeta. rewrite bind_pass by (apply validate_model_Ok; each_check ltac:(reflexivity)).
  eexists. split; [done|]. split; [exact H2|]. intros H. discriminate H.
Qed.

Lemma us_answers c :
  c = SOR_US_LONG ∨ c = SOR_US_SHORT →
  answers c s (USSOR.us_evaluate c s) ∨
  c = SOR_US_LONG ∧ USSOR.us_evaluate c s = Raise refused_stop.
Proof.
  intros Hc.
  assert (Hshape : contract_shape c ∧ sc_timeframe c = tf_15m) by (destruct Hc as [-> | ->]; split; [shape|done|shape|done]).
  destruct Hshape as [Hshape Htf]. unfold USSOR.us_evaluate, in_scope, validate_snapshot_scope. cbv zeta.
  rewrite Htf. cbn [market_candles].
  match goal with |- answers _ _ (match _ with Some _ => invalid_result _ _ | None => ?m end) ∨ _ =>
    assert (Hm : answers c s m ∨ ∃ open close, mk_trigger_candle_close_time_ms s ≤ close - BAR_MS ∧
                   m = USSOR.evaluate_regular c s open close) end.
  { destruct (mk_product_session s) as [product|]; [|left; by apply invalid_answers].
    destruct (_ || _); [left; by apply invalid_answers|].
    destruct (negb (bool_decide (ps_product_status product = _))); [left; by apply invalid_answers|].
    destruct (negb (bool_decide _)); [left; by apply not_triggered_answers|].
    destruct (negb (usable_for_regular_observation _ _)) eqn:Eu; [left; by apply invalid_answers|].
    apply negb_false_iff in Eu. unfold usable_for_regular_observation in Eu.
    rewrite !andb_true_iff, !negb_true_iff in Eu. destruct Eu as ((_ & Ho) & Hx).
    apply is_none_false in Ho as [o ->]. apply is_none_false in Hx as [x ->].
    destruct (negb _) eqn:Ew; [left; by apply not_triggered_answers|].
    right. exists o, x. split; [lia|done]. }
  destruct (last (mk_candles_15m s)) as [k0|] eqn:Hlast.
  - destruct (_ =? _) eqn:Hclose; [|left; by apply invalid_answers].
    destruct Hm as [Hm|(o & x & Hx & ->)]; [by left|]. apply (us_regular_answers c k0); [done|done|lia|done].
  - destruct Hm as [Hm|(o & x & _ & ->)]; [by left|]. left. apply last_None in Hlast.
    unfold USSOR.evaluate_regular. rewrite Hlast. cbn. by apply invalid_answers.
Qed.

(** Every contract of the catalog is routed to its detector. *)
Ltac routed c :=
  unfold detect; rewrite contracts_ok; cbn [mbind result_bind];
  let n := eval vm_compute in (list_find (λ c', sc_event_spec_id c' = sc_event_spec_id c) (reverse contracts)) in
  match n with Some (?i, _) =>
    assert (list_find (λ c', sc_event_spec_id c' = sc_event_spec_id c) (reverse contracts) = Some (i, c)) as ->
      by (vm_compute; reflexivity) end;
  cbv zeta;
  repeat match goal with
  | |- context [@bool_decide ?P ?d] =>
      let b := eval vm_compute in (@bool_decide P d) in change (@bool_decide P d) with b; cbv iota
  end.

Lemma detector_outcome c :
  c ∈ contracts →
  answers c s (detect (sc_event_spec_id c) s) ∨
  c = SOR_US_LONG ∧ detect (sc_event_spec_id c) s = Raise refused_stop.
Proof.
  intros Hc.
  assert (H : c ∈ [CPM_LONG; MPG_LONG; MI_LONG; SOR_LONG; SOR_SHORT; BRF2_SHORT; SOR_1H_LONG; SOR_1H_SHORT;
                   SOR_US_LONG; SOR_US_SHORT]) by exact Hc.
  clear Hc. rewrite !elem_of_cons in H.
  destruct H as [->|[->|[->|[->|[->|[->|[->|[->|[->|[->|[]%elem_of_nil]]]]]]]]]].
  - left. routed CPM_LONG. apply cpm_answers.
  - left. routed MPG_LONG. apply mpg_answers.
  - left. routed MI_LONG. apply mi_answers.
  - left. routed SOR_LONG. apply sor_answers. by left.
  - left. routed SOR_SHORT. apply sor_answers. by right.
  - left. routed BRF2_SHORT. apply brf2_answers.
  - left. routed SOR_1H_LONG. apply sor_1h_answers. by left.
  - left. routed SOR_1H_SHORT. apply sor_1h_answers. by right.
  - routed SOR_US_LONG. apply us_answers. by left.
  - routed SOR_US_SHORT. apply us_answers. by right.
Qed.
End evaluations.
