(* ===== verification/ShadowProperties.v ===== *)
(** * What a shadow outcome says

    The excursions are the extremes of the horizon; the path of a session
    breakout is the first thing that happened; the order of a level and the stop
    is the order of their first touches. *)

From Stdlib Require Import QArith.
From S2P Require Import Prelude PyString Sha256 PyDecimal DecimalFacts Identities Ticket CrossMarginStress.
From S2P Require Import StrategyRegistry Signal Market Detector DetectorFacts ProduceSignal Shadow.
#[local] Open Scope Z_scope.

(** ** The excursions *)

(** The best and the worst price of a candle for a side, and the order of prices
    in its direction. *)
Definition best (side : PositionSide) (c : ClosedCandle) : Decimal :=
  match side with long => ck_high c | short => ck_low c end.
Definition worst (side : PositionSide) (c : ClosedCandle) : Decimal :=
  match side with long => ck_low c | short => ck_high c end.
Definition at_least (side : PositionSide) (a b : Decimal) : Prop :=
  match side with long => (dval b <= dval a)%Q | short => (dval a <= dval b)%Q end.

(** The move from [a] to [b] in the direction of the side. *)
Definition gain (side : PositionSide) (a b : Decimal) : Decimal :=
  match side with long => (b - a)%dec | short => (a - b)%dec end.

Lemma foldl_latest l x : foldl Z.max x l ∈ x :: l ∧ ∀ y, y ∈ x :: l → y <= foldl Z.max x l.
Proof.
  revert x. induction l as [|z l IH]; intros x; cbn.
  - split; [left|]. intros y ->%list_elem_of_singleton. lia.
  - destruct (IH (Z.max x z)) as [H1 H2]. split.
    + apply elem_of_cons in H1 as [->|H1]; [|right; by right].
      destruct (Z.max_spec x z) as [[_ ->]|[_ ->]]; [right; left|left].
    + intros y. rewrite !elem_of_cons. intros [->|[->|Hy]].
      * specialize (H2 (Z.max x z) ltac:(left)). lia.
      * specialize (H2 (Z.max x z) ltac:(left)). lia.
      * apply H2. by right.
Qed.

Lemma latest_close l c : c ∈ l → ∃ t, max_ms (ck_close_time_ms <$> l) = Ok t ∧
  (∃ c', c' ∈ l ∧ t = ck_close_time_ms c') ∧ ∀ c', c' ∈ l → ck_close_time_ms c' <= t.
Proof.
  destruct l as [|x l]; [by intros ?%not_elem_of_nil|]. intros _. cbn.
  destruct (foldl_latest (ck_close_time_ms <$> l) (ck_close_time_ms x)) as [H1 H2]. eexists. split; [done|]. split.
  - change (ck_close_time_ms x :: (ck_close_time_ms <$> l)) with (ck_close_time_ms <$> x :: l) in H1.
    apply list_elem_of_fmap in H1 as (k' & -> & Hk). by exists k'.
  - intros k' Hk. apply H2. change (ck_close_time_ms x :: (ck_close_time_ms <$> l)) with (ck_close_time_ms <$> x :: l).
    by apply list_elem_of_fmap_2.
Qed.

Lemma horizon_elem s candles c : c ∈ horizon_candles s candles ↔ c ∈ candles ∧
  so_horizon_start_ms s < ck_close_time_ms c <= so_horizon_end_ms s.
Proof.
  unfold horizon_candles. rewrite list_elem_of_filter. unfold in_horizon. rewrite andb_true_iff, Z.ltb_lt, Z.leb_le. tauto.
Qed.

Lemma dmax_zero_nonneg r : (dmax d0 r <? d0)%dec = false.
Proof. apply dltb_false. apply dmax_ge_l. Qed.

Lemma excursion_facts s candles entry risk c :
  so_entry_reference_price s = Some entry → initial_risk_per_unit s = Some risk → (0 < dval risk)%Q →
  c ∈ horizon_candles s candles →
  let side := so_position_side s in let selected := horizon_candles s candles in
  ∃ p favorable adverse mfe mae through,
    evaluate_fixed_horizon_excursion s candles = Ok p ∧
    (sp_max_favorable_price p = Some favorable ∧ sp_max_adverse_price p = Some adverse ∧
     sp_observed_through_ms p = Some through) ∧
    ((∃ k, k ∈ selected ∧ favorable = best side k) ∧ ∀ k, k ∈ selected → at_least side favorable (best side k)) ∧
    ((∃ k, k ∈ selected ∧ adverse = worst side k) ∧ ∀ k, k ∈ selected → at_least side (worst side k) adverse) ∧
    (sp_mfe_r p = Some (dmax d0 mfe) ∧ ddiv (gain side entry favorable) risk = Ok mfe) ∧
    (sp_mae_r p = Some (dmax d0 mae) ∧ ddiv (gain side adverse entry) risk = Ok mae) ∧
    (∃ k, k ∈ selected ∧ through = ck_close_time_ms k) ∧ ∀ k, k ∈ selected → ck_close_time_ms k <= through.
Proof.
  intros Hentry Hrisk Hpos Hin side selected. unfold evaluate_fixed_horizon_excursion. rewrite Hentry, Hrisk.
  assert (Hle : (risk <=? d0)%dec = false) by (apply dleb_false; by rewrite dval_d0). rewrite Hle.
  fold selected. fold selected in Hin. fold side.
  destruct (latest_close selected c Hin) as (through & Ht & Hthrough & Hlatest).
  destruct (py_max_spec ck_high selected c Hin) as (high & Hh & Hhigh & Hmax).
  destruct (py_min_spec ck_low selected c Hin) as (low & Hl & Hlow & Hmin).
  destruct (ddiv_pos_total (gain side entry (match side with long => high | short => low end)) risk Hpos) as [mfe Hmfe].
  destruct (ddiv_pos_total (gain side (match side with long => low | short => high end) entry) risk Hpos) as [mae Hmae].
  assert (Hvalid : ∀ f a, validate_ShadowOutcomeProjection
    (mkProjection SHADOW_EVALUATION_KIND (Some f) (Some a) (Some (dmax d0 mfe)) (Some (dmax d0 mae))
       (Some through) None None None None None None None) =
    Ok (mkProjection SHADOW_EVALUATION_KIND (Some f) (Some a) (Some (dmax d0 mfe)) (Some (dmax d0 mae))
       (Some through) None None None None None None None)).
  { intros f a. unfold validate_ShadowOutcomeProjection. rewrite bind_pass; [done|]. apply validate_model_Ok.
    unfold projection_checks. cbn [sp_mfe_r sp_mae_r opt_test]. rewrite !dmax_zero_nonneg. each_check done. }
  destruct selected as [|x l] eqn:Esel; [by apply not_elem_of_nil in Hin|]. rewrite <- Esel in *.
  destruct side; cbn [gain best worst at_least] in *; rewrite Hh, Hl; cbn [mbind result_bind]; rewrite Hmfe;
    cbn [mbind result_bind]; rewrite Hmae; cbn [mbind result_bind mret result_ret]; rewrite Ht; cbn [mbind result_bind];
    rewrite Hvalid.
  - eexists _, high, low, mfe, mae, through. split_and!; try done.
  - eexists _, low, high, mfe, mae, through. split_and!; try done.
Qed.

(** The excursions of a horizon are its extremes: the favorable price is one
    its candles reached and none passed, the adverse one likewise; the multiples
    of the risk are their moves from the entry, never negative; and they are
    always computed. *)
Theorem excursions_are_the_extremes s candles entry risk c :
  so_entry_reference_price s = Some entry → initial_risk_per_unit s = Some risk → (0 < dval risk)%Q →
  c ∈ horizon_candles s candles →
  let side := so_position_side s in let selected := horizon_candles s candles in
  ∃ p favorable adverse mfe mae through,
    evaluate_fixed_horizon_excursion s candles = Ok p ∧
    (sp_max_favorable_price p = Some favorable ∧ sp_max_adverse_price p = Some adverse ∧
     sp_observed_through_ms p = Some through) ∧
    ((∃ k, k ∈ selected ∧ favorable = best side k) ∧ ∀ k, k ∈ selected → at_least side favorable (best side k)) ∧
    ((∃ k, k ∈ selected ∧ adverse = worst side k) ∧ ∀ k, k ∈ selected → at_least side (worst side k) adverse) ∧
    (sp_mfe_r p = Some (dmax d0 mfe) ∧ ddiv (gain side entry favorable) risk = Ok mfe) ∧
    (sp_mae_r p = Some (dmax d0 mae) ∧ ddiv (gain side adverse entry) risk = Ok mae) ∧
    (∃ k, k ∈ selected ∧ through = ck_close_time_ms k) ∧ ∀ k, k ∈ selected → ck_close_time_ms k <= through.
Proof. exact (excursion_facts s candles entry risk c). Qed.

(** ** The first path of a session breakout *)

(** [d] decides the [k]-th candle of [l], counted from [i], and none before. *)
Definition decided_at (d : Z → ClosedCandle → option ShadowFirstPath) (i : Z) (l : list ClosedCandle) (k : nat)
    (c : ClosedCandle) (path : ShadowFirstPath) : Prop :=
  l !! k = Some c ∧ d (i + Z.of_nat k) c = Some path ∧
  ∀ j c', (j < k)%nat → l !! j = Some c' → d (i + Z.of_nat j) c' = None.

Lemma first_path_spec d i l :
  match first_path_from d i l with
  | Some (path, at_ms, n) => ∃ k c, decided_at d i l k c path ∧ at_ms = ck_close_time_ms c ∧ n = i + Z.of_nat k
  | None => ∀ j c, l !! j = Some c → d (i + Z.of_nat j) c = None
  end.
Proof.
  revert i. induction l as [|x l IH]; intros i; cbn [first_path_from]; [done|].
  destruct (d i x) as [path|] eqn:E.
  - exists 0%nat, x. split_and!; [split_and!; [done|by rewrite Z.add_0_r|lia]|done|lia].
  - assert (Hshift : ∀ j, i + 1 + Z.of_nat j = i + Z.of_nat (S j)) by lia. specialize (IH (i + 1)).
    destruct (first_path_from d (i + 1) l) as [[[path at_ms] n]|].
    + destruct IH as (k & c & (H1 & H2 & H3) & H4 & H5). exists (S k), c. rewrite Hshift in H2.
      split_and!; [split_and!; try done|done|lia]. intros [|j] c' Hj Hc.
      * cbn in Hc. injection Hc as <-. by rewrite Z.add_0_r.
      * rewrite <- Hshift. apply (H3 j c'); [lia|done].
    + intros [|j] c Hc; [cbn in Hc; injection Hc as <-; by rewrite Z.add_0_r|]. rewrite <- Hshift. by apply IH.
Qed.

Lemma path_decided s take_profit stop boundary deadline i c :
  path_of_candle s take_profit stop boundary deadline i c ≠ Some horizon_complete ∧
  (8 <= i → path_of_candle s take_profit stop boundary deadline i c ≠ None).
Proof.
  unfold path_of_candle. destruct (match so_position_side s with long => _ | short => _ end) as [[tp st] fl].
  destruct tp, st, fl; cbn; try done; destruct (Z.leb_spec 8 i); try done; destruct (_ <=? _); split; done || lia.
Qed.

(** C36: The path of a session breakout is the first thing that happened in the
    horizon: the first candle that reaches the target, the stop, the opening
    range, the eighth bar or the session end decides it, none before does, and
    it is decided within eight bars; only a shorter horizon without any of them
    is complete. *)
Theorem sor_path_is_the_first_event s candles p :
  evaluate_sor_path_observation s candles = Ok p →
  let selected := horizon_candles s candles in
  ∃ stop take_profit boundary deadline bars,
    so_initial_stop_price s = Some stop ∧ so_take_profit_price s = Some take_profit ∧
    so_opening_range_boundary_price s = Some boundary ∧ so_session_exit_deadline_ms s = Some deadline ∧
    sp_observed_bar_count p = Some bars ∧ 1 <= bars <= 8 ∧
    let d := path_of_candle s take_profit stop boundary deadline in
    ((∃ k c path, decided_at d 1 selected k c path ∧ sp_first_path p = Some path ∧
        sp_first_path_at_ms p = Some (ck_close_time_ms c) ∧ bars = Z.of_nat k + 1) ∨
     (sp_first_path p = Some horizon_complete ∧ bars = Z.of_nat (length selected) ∧
        ∀ j c, selected !! j = Some c → d (1 + Z.of_nat j) c = None)).
Proof.
  intros H selected. unfold evaluate_sor_path_observation in H. destruct (negb _); [done|].
  destruct (so_unavailable_reason s); [done|].
  destruct (so_entry_reference_price s) as [entry|]; [|done]. destruct (so_initial_stop_price s) as [stop|]; [|done].
  destruct (so_take_profit_price s) as [take_profit|]; [|done].
  destruct (so_opening_range_boundary_price s) as [boundary|]; [|done].
  destruct (so_session_exit_deadline_ms s) as [deadline|]; [|done].
  destruct (initial_risk_per_unit s) as [risk|]; [|done]. destruct (_ <=? _)%dec; [done|]. cbv zeta in H. fold selected in H.
  destruct (last selected) as [final|] eqn:Hlast; [|done].
  set (d := path_of_candle s take_profit stop boundary deadline) in *.
  pose proof (first_path_spec d 1 selected) as Hspec.
  assert (Hnone : ∀ j c, selected !! j = Some c → d (1 + Z.of_nat j) c = None → (j < 7)%nat).
  { intros j c _ Hd. destruct (path_decided s take_profit stop boundary deadline (1 + Z.of_nat j) c) as [_ Hp].
    destruct (decide (j < 7)%nat); [done|]. destruct (Hp ltac:(lia) Hd). }
  assert (Hp : ∀ path at_ms bars q, validate_ShadowOutcomeProjection q = Ok p →
    sp_first_path q = Some path → sp_first_path_at_ms q = Some at_ms → sp_observed_bar_count q = Some bars →
    sp_first_path p = Some path ∧ sp_first_path_at_ms p = Some at_ms ∧ sp_observed_bar_count p = Some bars).
  { intros path at_ms bars q Hq. unfold validate_ShadowOutcomeProjection in Hq.
    apply bind_Ok in Hq as (? & _ & Hq). apply Ok_inj in Hq. by subst q. }
  exists stop, take_profit, boundary, deadline.
  destruct (first_path_from d 1 selected) as [[[path at_ms] bars]|]; cbn [default from_option] in H.
  - destruct Hspec as (k & c & Hdec & -> & ->). apply bind_Ok in H as (excursion & _ & H).
    destruct (Hp path (ck_close_time_ms c) (1 + Z.of_nat k) _ H eq_refl eq_refl eq_refl) as (E1 & E2 & E3).
    exists (1 + Z.of_nat k). split_and!; try done; [lia| |].
    + destruct k as [|k]; [lia|]. destruct Hdec as (Hk & _ & Hbefore).
      destruct (selected !! k) as [c'|] eqn:Ek; [|apply lookup_ge_None in Ek; apply lookup_lt_Some in Hk; lia].
      specialize (Hnone k c' Ek (Hbefore k c' ltac:(lia) Ek)). lia.
    + left. exists k, c, path. split_and!; try done. lia.
  - apply bind_Ok in H as (excursion & _ & H).
    destruct (Hp _ _ _ _ H eq_refl eq_refl eq_refl) as (E1 & E2 & E3). eexists. split_and!; try done.
    + destruct selected; [done|]. cbn [length]. lia.
    + rewrite last_lookup in Hlast. specialize (Hnone _ _ Hlast (Hspec _ _ Hlast)). lia.
    + right. split_and!; done.
Qed.

(** ** The order of a level and the stop *)

(** Which of two touches comes first in a list of candles. *)
Definition first_touch_order (a b : ClosedCandle → bool) (l : list ClosedCandle) (o : PathOrder) : Prop :=
  match o with
  | threshold_first => ∃ i c, l !! i = Some c ∧ a c = true ∧ ∀ j c', (j <= i)%nat → l !! j = Some c' → b c' = false
  | stop_first => ∃ i c, l !! i = Some c ∧ b c = true ∧ ∀ j c', (j <= i)%nat → l !! j = Some c' → a c' = false
  | same_bar_ambiguous =>
      ∃ i c, l !! i = Some c ∧ a c = true ∧ b c = true ∧
        ∀ j c', (j < i)%nat → l !! j = Some c' → a c' = false ∧ b c' = false
  | neither => ∀ c, c ∈ l → a c = false ∧ b c = false
  end.

Lemma first_touch_cons_skip a b x l o : a x = false → b x = false →
  first_touch_order a b l o → first_touch_order a b (x :: l) o.
Proof.
  intros Ha Hb. destruct o; cbn.
  - intros (i & c & H1 & H2 & H3). exists (S i), c. split_and!; try done.
    intros [|j] c' Hj Hc; [by injection Hc as <-|]. apply (H3 j); [lia|done].
  - intros (i & c & H1 & H2 & H3). exists (S i), c. split_and!; try done.
    intros [|j] c' Hj Hc; [by injection Hc as <-|]. apply (H3 j); [lia|done].
  - intros (i & c & H1 & H2 & H3 & H4). exists (S i), c. split_and!; try done.
    intros [|j] c' Hj Hc; [by injection Hc as <-|]. apply (H4 j); [lia|done].
  - intros H c [->|Hc]%elem_of_cons; [done|by apply H].
Qed.

(** Closes that follow one another. *)
Definition ascending_closes (l : list ClosedCandle) : Prop :=
  StronglySorted (λ x y, ck_close_time_ms x < ck_close_time_ms y) l.

Lemma first_time_elem f l t : first_time f l = Some t → ∃ c, c ∈ l ∧ f c = true ∧ t = ck_close_time_ms c.
Proof.
  induction l as [|x l IH]; cbn; [done|]. destruct (f x) eqn:E.
  - intros [= <-]. exists x. split; [left|done].
  - intros (c & Hc & Hf)%IH. exists c. split; [by right|done].
Qed.

Lemma path_order_is_first_touch a b l : ascending_closes l →
  first_touch_order a b l (path_order (first_time a l) (first_time b l)).
Proof.
  induction 1 as [|x l Hl IH Hx]; [by intros c ?%not_elem_of_nil|]. cbn [first_time].
  rewrite Forall_forall in Hx.
  assert (Hlater : ∀ f t, first_time f l = Some t → ck_close_time_ms x < t).
  { intros f t (c & Hc & _ & ->)%first_time_elem. by apply Hx. }
  assert (Hhead : ∀ f j c', (j <= 0)%nat → (x :: l) !! j = Some c' → f x = false → f c' = false).
  { intros f [|j] c' Hj Hc; [by injection Hc as <-|lia]. }
  destruct (a x) eqn:Ea, (b x) eqn:Eb.
  - unfold path_order. rewrite Z.ltb_irrefl. exists 0%nat, x. split_and!; try done. lia.
  - assert (E : path_order (Some (ck_close_time_ms x)) (first_time b l) = threshold_first).
    { unfold path_order. destruct (first_time b l) as [t|] eqn:Et; [|done]. apply Hlater in Et.
      destruct (Z.ltb_spec t (ck_close_time_ms x)); [lia|]. by destruct (Z.ltb_spec (ck_close_time_ms x) t); [|lia]. }
    rewrite E. exists 0%nat, x. split_and!; try done. intros j c' Hj Hc. by apply (Hhead b j).
  - assert (E : path_order (first_time a l) (Some (ck_close_time_ms x)) = stop_first).
    { unfold path_order. destruct (first_time a l) as [t|] eqn:Et; [|done]. apply Hlater in Et.
      by destruct (Z.ltb_spec (ck_close_time_ms x) t); [|lia]. }
    rewrite E. exists 0%nat, x. split_and!; try done. intros j c' Hj Hc. by apply (Hhead a j).
  - by apply first_touch_cons_skip.
Qed.

Lemma complete_ascends s candles : has_complete_closed_candle_sequence s candles = true →
  ascending_closes (horizon_candles s candles).
Proof.
  unfold has_complete_closed_candle_sequence. intros [_ H]%andb_true. apply bool_decide_eq_true_1 in H.
  revert H. generalize (horizon_candles s candles). set (start := so_horizon_start_ms s).
  assert (Hd : 0 < timeframe_ms (so_timeframe s)) by (by destruct (so_timeframe s)).
  set (d := timeframe_ms (so_timeframe s)) in *. clearbody d start. generalize 1%nat as i.
  generalize (Z.to_nat ((so_horizon_end_ms s - start) / d)) as n.
  induction n as [|n IH]; intros i l H; cbn in H.
  - apply fmap_nil_inv in H as ->. constructor.
  - destruct l as [|x l]; [done|]. cbn in H. injection H as Hx Hl. constructor; [by apply (IH (S i))|].
    apply Forall_forall. intros y Hy. apply (list_elem_of_fmap_2 ck_close_time_ms) in Hy. rewrite Hl in Hy.
    apply list_elem_of_fmap in Hy as (k & -> & Hk%elem_of_seq). nia.
Qed.

(** In a complete horizon every level of a generic path is classified by the
    first touches: the level first, the stop first, both in the same candle or
    neither; the times of the projection are those of the first touches. *)
Theorem levels_follow_first_touches s candles p :
  evaluate_generic_signal_path s candles = Ok p →
  let selected := horizon_candles s candles in let side := so_position_side s in
  ∃ entry stop risk levels,
    so_entry_reference_price s = Some entry ∧ so_initial_stop_price s = Some stop ∧
    initial_risk_per_unit s = Some risk ∧ sp_path_levels p = Some levels ∧ levels.*1 = ["1R"; "3R"; "5R"] ∧
    sp_observed_bar_count p = Some (Z.of_nat (length selected)) ∧ ascending_closes selected ∧
    Forall2 (λ multiple level,
      let target := reaches side (level_target side entry risk multiple) in
      pl_first_touch_at_ms level = first_time target selected ∧
      first_touch_order target (stops_out side stop) selected (pl_order_vs_stop level)) [1; 3; 5] levels.*2.
Proof.
  intros H selected side. unfold evaluate_generic_signal_path in H. destruct (_ || _); [done|].
  destruct (has_complete_closed_candle_sequence s candles) eqn:Hc; [|done]. cbn [negb] in H.
  apply complete_ascends in Hc. fold selected in Hc, H. fold side in H.
  destruct (so_entry_reference_price s) as [entry|]; [|done]. destruct (so_initial_stop_price s) as [stop|]; [|done].
  destruct (initial_risk_per_unit s) as [risk|]; [|done]. cbv zeta in H.
  exists entry, stop, risk, (path_level side entry risk stop selected <$> [1; 3; 5]).
  destruct selected as [|x l] eqn:Esel; [done|]. rewrite <- Esel in *. clear Esel x l.
  apply bind_Ok in H as (excursion & _ & H).
  destruct (sp_max_favorable_price excursion); [|done]. destruct (sp_max_adverse_price excursion); [|done].
  unfold validate_ShadowOutcomeProjection in H. apply bind_Ok in H as (? & _ & H). apply Ok_inj in H. subst p.
  split_and!; try done. cbn. repeat constructor; by apply path_order_is_first_touch.
Qed.

(** ** A claimed outcome ends *)

Definition answers (m : result ShadowOutcomeProjection) : Prop :=
  (∃ p, m = Ok p) ∨ ∃ reason, m = Raise (ShadowOutcomeUnavailable reason).

Lemma fixed_horizon_answers s candles : answers (evaluate_fixed_horizon_excursion s candles).
Proof.
  destruct (so_entry_reference_price s) as [entry|] eqn:Ee; [|right; unfold evaluate_fixed_horizon_excursion; rewrite Ee; by eexists].
  destruct (initial_risk_per_unit s) as [risk|] eqn:Er; [|right; unfold evaluate_fixed_horizon_excursion; rewrite Ee, Er; by eexists].
  destruct (risk <=? d0)%dec eqn:Hr.
  { right. unfold evaluate_fixed_horizon_excursion. rewrite Ee, Er, Hr. by eexists. }
  destruct (horizon_candles s candles) as [|c l] eqn:Es.
  { right. unfold evaluate_fixed_horizon_excursion. rewrite Ee, Er, Hr, Es. by eexists. }
  apply dleb_false in Hr. rewrite dval_d0 in Hr.
  destruct (excursion_facts s candles entry risk c Ee Er Hr) as (p & _ & _ & _ & _ & _ & Hp & _); [rewrite Es; left|].
  left. by exists p.
Qed.

Lemma horizon_of_horizon s candles : horizon_candles s (horizon_candles s candles) = horizon_candles s candles.
Proof. unfold horizon_candles. rewrite list_filter_filter_r; [done|]. by intros x Hx. Qed.

Lemma sor_path_answers s candles : answers (evaluate_sor_path_observation s candles).
Proof.
  unfold evaluate_sor_path_observation. assert (Hu : ∀ reason, answers (unavailable reason)) by (intros r; right; by exists r).
  destruct (negb _); [apply Hu|]. destruct (so_unavailable_reason s); [apply Hu|].
  destruct (so_entry_reference_price s) as [entry|] eqn:Ee; [|apply Hu].
  destruct (so_initial_stop_price s) as [stop|]; [|apply Hu].
  destruct (so_take_profit_price s) as [take_profit|]; [|apply Hu].
  destruct (so_opening_range_boundary_price s) as [boundary|]; [|apply Hu].
  destruct (so_session_exit_deadline_ms s) as [deadline|]; [|apply Hu].
  destruct (initial_risk_per_unit s) as [risk|] eqn:Er; [|apply Hu].
  destruct (risk <=? d0)%dec eqn:Hr; [apply Hu|]. cbv zeta. apply dleb_false in Hr. rewrite dval_d0 in Hr.
  destruct (last (horizon_candles s candles)) as [final|] eqn:Hlast; [|apply Hu].
  set (d := path_of_candle s take_profit stop boundary deadline).
  pose proof (first_path_spec d 1 (horizon_candles s candles)) as Hspec.
  destruct (excursion_facts (with_shadow_kind s) (horizon_candles s candles) entry risk final Ee Er Hr)
    as (p & favorable & adverse & mfe & mae & through & Hp & (F1 & F2 & F3) & _ & _ & (F4 & _) & (F5 & _) & _).
  { change (final ∈ horizon_candles s (horizon_candles s candles)). rewrite horizon_of_horizon. by apply last_Some_elem_of. }
  assert (Hn : (0 < length (horizon_candles s candles))%nat) by (destruct (horizon_candles s candles); [done|cbn; lia]).
  destruct (default _ (first_path_from d 1 (horizon_candles s candles))) as [[path at_ms] bars] eqn:E.
  assert (Hbars : (bars <=? 0) = false).
  { apply Z.leb_gt. destruct (first_path_from d 1 (horizon_candles s candles)) as [[[path' at_ms'] n]|].
    - cbn in E. injection E as -> -> ->. destruct Hspec as (k & c & _ & _ & ->). lia.
    - cbn in E. injection E as <- <- <-. lia. }
  rewrite Hp. cbn [mbind result_bind]. left. eexists. unfold validate_ShadowOutcomeProjection.
  rewrite bind_pass; [done|]. apply validate_model_Ok. unfold projection_checks.
  cbn [sp_max_favorable_price sp_max_adverse_price sp_mfe_r sp_mae_r sp_observed_through_ms sp_observed_bar_count
    sp_first_path sp_first_path_at_ms sp_path_levels sp_initial_stop_first_touch_at_ms sp_max_favorable_at_ms
    sp_max_adverse_at_ms sp_evaluation_kind not_positive_count].
  rewrite F1, F2, F3, F4, F5, Hbars. cbn [opt_test]. rewrite !dmax_zero_nonneg. each_check done.
Qed.

Lemma first_time_found f l c : c ∈ l → f c = true → ∃ t, first_time f l = Some t.
Proof.
  induction l as [|x l IH]; [by intros ?%not_elem_of_nil|]. cbn. intros [->|Hc]%elem_of_cons Hf; [rewrite Hf; by eexists|].
  destruct (f x); [by eexists|by apply IH].
Qed.

Lemma generic_path_answers s candles : answers (evaluate_generic_signal_path s candles).
Proof.
  unfold evaluate_generic_signal_path. assert (Hu : ∀ reason, answers (unavailable reason)) by (intros r; right; by exists r).
  destruct (_ || _); [apply Hu|]. destruct (negb _); [apply Hu|].
  destruct (so_entry_reference_price s) as [entry|] eqn:Ee; [|apply Hu].
  destruct (so_initial_stop_price s) as [stop|]; [|apply Hu].
  destruct (initial_risk_per_unit s) as [risk|] eqn:Er; [|apply Hu]. cbv zeta.
  destruct (horizon_candles s candles) as [|c l] eqn:Es; [apply Hu|]. rewrite <- Es.
  pose proof (fixed_horizon_answers s (horizon_candles s candles)) as [[p Hp]|[reason Hp]]; rewrite Hp; [|right; by eexists].
  cbn [mbind result_bind]. pose proof Hp as Hp'. unfold evaluate_fixed_horizon_excursion in Hp'. rewrite Ee, Er in Hp'.
  destruct (risk <=? d0)%dec eqn:Hr; [done|]. clear Hp'. apply dleb_false in Hr. rewrite dval_d0 in Hr.
  assert (Hin : c ∈ horizon_candles s (horizon_candles s candles)) by (rewrite horizon_of_horizon, Es; left).
  destruct (excursion_facts s (horizon_candles s candles) entry risk c Ee Er Hr Hin)
    as (p' & favorable & adverse & mfe & mae & through & E & (F1 & F2 & F3) & ((kf & Hkf & ->) & _) & ((ka & Hka & ->) & _)
        & (F4 & _) & (F5 & _) & _).
  rewrite Hp in E. apply Ok_inj in E. subst p'. rewrite F1, F2. rewrite horizon_of_horizon in Hkf, Hka.
  destruct (first_time_found (λ c, (best (so_position_side s) c =? best (so_position_side s) kf)%dec) _ kf Hkf) as [tf Hf];
    [by apply deqb_spec|].
  destruct (first_time_found (λ c, (worst (so_position_side s) c =? worst (so_position_side s) ka)%dec) _ ka Hka) as [ta Ha];
    [by apply deqb_spec|].
  unfold best in Hf at 1. unfold worst in Ha at 1. rewrite Hf, Ha. left. eexists. unfold validate_ShadowOutcomeProjection.
  rewrite bind_pass; [done|]. apply validate_model_Ok. unfold projection_checks.
  cbn [sp_max_favorable_price sp_max_adverse_price sp_mfe_r sp_mae_r sp_observed_through_ms sp_observed_bar_count
    sp_first_path sp_first_path_at_ms sp_path_levels sp_initial_stop_first_touch_at_ms sp_max_favorable_at_ms
    sp_max_adverse_at_ms sp_evaluation_kind not_positive_count].
  rewrite F3, F4, F5. cbn [opt_test]. rewrite !dmax_zero_nonneg.
  assert (Hn : (Z.of_nat (length (horizon_candles s candles)) <=? 0) = false) by (apply Z.leb_gt; rewrite Es; cbn [length]; lia).
  rewrite Hn. each_check done.
Qed.

Lemma shadow_outcome_answers s candles : answers (evaluate_shadow_outcome s candles).
Proof.
  unfold evaluate_shadow_outcome.
  destruct (so_evaluation_kind s); [apply fixed_horizon_answers|apply sor_path_answers|apply generic_path_answers].
Qed.

(** Projecting a claimed outcome always ends in one of its writes: it asks
    for another attempt exactly while candles of the horizon are missing, and
    otherwise the outcome is complete or unavailable for good. *)
Theorem claimed_outcome_ends claim candles :
  let spec := sh_spec claim in
  ∃ write ended, project_claimed_shadow_outcome claim candles = Ok (write, ended) ∧
    (ended = false ↔ positive_risk (initial_risk_per_unit spec) = true ∧
                     has_complete_closed_candle_sequence spec candles = false) ∧
    (ended = true → (∃ p, write = complete p) ∨ ∃ reason, write = mark_unavailable reason) ∧
    (ended = false → write = if bool_decide (so_source_kind spec = signal_path) then no_write else release_expired_claim).
Proof.
  intros spec. unfold project_claimed_shadow_outcome. fold spec. destruct (positive_risk _).
  - destruct (has_complete_closed_candle_sequence spec candles); cbn [negb].
    + destruct (shadow_outcome_answers spec candles) as [[p ->]|[reason ->]]; eexists _, true;
        (split; [reflexivity|]); split_and!; try done; try (by split; [|intros []]); intros _; [left|right]; by eexists.
    + eexists _, false. split; [reflexivity|]. by split_and!.
  - eexists _, true. split; [reflexivity|]. split_and!; try done; [by split; [|intros []]|]. intros _. right. by eexists.
Qed.

(** A frozen specification without a price says why; the projection replaces its
    reason by one that is not its own. *)
Theorem frozen_reason_is_replaced claim candles :
  prices_complete (sh_spec claim) = false →
  project_claimed_shadow_outcome claim candles = Ok (mark_unavailable "zero_initial_risk_distance", true).
Proof.
  unfold prices_complete, project_claimed_shadow_outcome, initial_risk_per_unit.
  destruct (so_entry_reference_price _); [|done]. by destruct (so_initial_stop_price _).
Qed.

(** ** Samples *)

Module SampleShadow.
Definition hour : Z := 3600000.

(** A long entry at 100 with its stop at 95 and its target at 105. *)
Definition shadow_spec (kind : ShadowEvaluationKind) (source : ShadowSourceKind) (tf : Timeframe) : ShadowOutcomeSpec :=
  mkShadowSpec "shadow:1" "signal:1" None source kind "binance:BTCUSDT" long tf
    (Some (of_int 100)) (Some (of_int 95)) (Some (of_int 105)) (Some (of_int 98)) (Some (9 * hour)) None None None None
    None None None None hour (4 * hour) hour (Some hour) true None None.
Definition bar (i : Z) (low high close : Z) : ClosedCandle :=
  mkCandle (i * hour) ((i + 1) * hour) (of_int 100) (of_int high) (of_int low) (of_int close) (of_int 10).

(** The second bar reaches the target and 1R, the third one the stop. *)
Definition bars : list ClosedCandle := [bar 1 99 103 101; bar 2 100 106 104; bar 3 94 101 96].

Definition sor_spec : ShadowOutcomeSpec := shadow_spec SOR_PATH_EVALUATION_KIND strategy_observation tf_15m.
Definition path_spec : ShadowOutcomeSpec := shadow_spec GENERIC_SIGNAL_PATH_KIND signal_path tf_1h.
Definition projected (m : result ShadowOutcomeProjection) : ShadowOutcomeProjection :=
  match m with Ok p => p | Raise _ => mkProjection SHADOW_EVALUATION_KIND None None None None None None None None None None None None end.
Definition sor_projection : ShadowOutcomeProjection := Eval vm_compute in projected (evaluate_sor_path_observation sor_spec bars).
Definition path_projection : ShadowOutcomeProjection := Eval vm_compute in projected (evaluate_generic_signal_path path_spec bars).

Lemma sor_evaluates : evaluate_sor_path_observation sor_spec bars = Ok sor_projection.
Proof. vm_compute. reflexivity. Qed.
Lemma path_evaluates : evaluate_generic_signal_path path_spec bars = Ok path_projection.
Proof. vm_compute. reflexivity. Qed.
Example target_first : sp_first_path sor_projection = Some tp1_first ∧ sp_observed_bar_count sor_projection = Some 2.
Proof. done. Qed.
Example level_before_stop :
  (λ l, pl_order_vs_stop l.2) <$> default [] (sp_path_levels path_projection) = [threshold_first; stop_first; stop_first].
Proof. done. Qed.
End SampleShadow.

Lemma excursions_are_the_extremes_witness : ∃ p, evaluate_fixed_horizon_excursion SampleShadow.path_spec SampleShadow.bars = Ok p.
Proof.
  destruct (excursions_are_the_extremes SampleShadow.path_spec SampleShadow.bars (of_int 100) (dabs (of_int 100 - of_int 95)%dec)
    (SampleShadow.bar 2 100 106 104)) as (p & _ & _ & _ & _ & _ & Hp & _).
  - reflexivity.
  - reflexivity.
  - vm_compute. reflexivity.
  - apply horizon_elem. split; [right; left|vm_compute; split; [reflexivity|discriminate]].
  - exact (ex_intro _ p Hp).
Defined.

Lemma sor_path_is_the_first_event_witness : ∃ bars, sp_observed_bar_count SampleShadow.sor_projection = Some bars ∧ 1 <= bars <= 8.
Proof.
  destruct (sor_path_is_the_first_event SampleShadow.sor_spec SampleShadow.bars SampleShadow.sor_projection SampleShadow.sor_evaluates)
    as (_ & _ & _ & _ & bars & _ & _ & _ & _ & H & Hb & _).
  exact (ex_intro _ bars (conj H Hb)).
Defined.

Lemma levels_follow_first_touches_witness : ∃ levels, sp_path_levels SampleShadow.path_projection = Some levels ∧ levels.*1 = ["1R"; "3R"; "5R"].
Proof.
  destruct (levels_follow_first_touches SampleShadow.path_spec SampleShadow.bars SampleShadow.path_projection SampleShadow.path_evaluates)
    as (_ & _ & _ & levels & _ & _ & _ & H1 & H2 & _).
  exact (ex_intro _ levels (conj H1 H2)).
Defined.

Lemma frozen_reason_is_replaced_witness : ∃ claim,
  so_unavailable_reason (sh_spec claim) = Some "entry_quote_unavailable" ∧
  project_claimed_shadow_outcome claim [] = Ok (mark_unavailable "zero_initial_risk_distance", true).
Proof.
  set (s := mkShadowSpec "shadow:1" "signal:1" None strategy_observation SOR_PATH_EVALUATION_KIND "binance:BTCUSDT" long tf_15m
    None (Some (of_int 95)) None (Some (of_int 98)) (Some 9000000) None None None None None None None
    (Some "entry_quote_unavailable") 3600000 7200000 3600000 None false None None).
  exists (mkShadowClaim s "worker" "token" 1 3700000). split; [reflexivity|].
  exact (frozen_reason_is_replaced (mkShadowClaim s "worker" "token" 1 3700000) [] eq_refl).
Defined.
