(* ===== verification/SelectionProperties.v ===== *)
(** * Features and ranks of the opening-range selection

    What one closed window always yields, the table of a panel, and the rank of
    an instrument as the number of ready instruments the order puts before it.

    Then the theorems of the daily selection, and of the hourly session: its
    next close, and that it chooses the members the daily selection chooses. *)

From Stdlib Require Import QArith Lqa.
From S2P Require Import Prelude PyString Sha256 PyDecimal DecimalFacts DecimalContext.
From S2P Require Import Identities Ticket Universe Signal Market Detector Selection TextFacts DetectorFacts.
From S2P Require Import DecimalText.
From S2P Require Import CrossMarginStress OrbSelection.
#[local] Open Scope Z_scope.

(** A window that its validators let through. *)
Definition closed_window (w : SelectionSourceWindow) : Prop :=
  validate_SelectionSourceWindow w = Ok w ∧
  Forall (λ k, validate_SelectionKline k = Ok k) (sw_klines w).

(** ** Lists along an order *)

Section filters.
Context {A : Type} (P : A → Prop) `{!∀ x, Decision (P x)}.

Lemma filter_all l : Forall P l → filter P l = l.
Proof. induction 1; [done|]. rewrite filter_cons_True by done. by f_equal. Qed.

Lemma filter_none l : Forall (λ x, ¬ P x) l → filter P l = [].
Proof. induction 1; [done|]. by rewrite filter_cons_False. Qed.
End filters.

Section ranks.
Context {A : Type} (le : A → A → bool).
Context (le_total : ∀ a b, le a b = true ∨ le b a = true).

(** The position of a member is the number of those strictly before it. *)
Lemma position_counts (l : list A) i x :
  StronglySorted le l → l !! i = Some x →
  (∀ a b, a ∈ l → b ∈ l → le a b = true → le b a = true → a = b) → NoDup l →
  length (filter (λ y, le x y = false) l) = i.
Proof.
  intros Hs Hi Hanti Hnd. apply list_elem_of_split_length in Hi as (l1 & l2 & -> & ->).
  rewrite filter_app, length_app.
  apply StronglySorted_app in Hs as (Hcross & H1 & H2). apply StronglySorted_cons in H2 as [Hx H2].
  apply NoDup_app in Hnd as (_ & Hdis & Hnd). rewrite Forall_forall in Hx.
  rewrite (filter_all _ l1), (filter_none _ (x :: l2)); [cbn; lia| |].
  - apply Forall_cons. split; [by destruct (le_total x x) as [->| ->]|].
    apply Forall_forall. intros y Hy. specialize (Hx y Hy). apply Is_true_true in Hx. by rewrite Hx.
  - apply Forall_forall. intros y Hy. apply not_true_is_false. intros Hxy.
    apply (Hdis y Hy). rewrite (Hanti y x); [left|apply elem_of_app; by left| |
      by apply Is_true_true, Hcross; [|left]|done]. apply elem_of_app. right. left.
Qed.
End ranks.

(** [dict(...)] of distinct keys. *)
Lemma dict_insert_fresh {A} k (v : A) d : k ∉ d.*1 → dict_insert k v d = d ++ [(k, v)].
Proof.
  induction d as [|[k' v'] d IH]; [done|]. cbn. intros H. apply not_elem_of_cons in H as [H1 H2].
  rewrite bool_decide_eq_false_2 by done. by rewrite IH.
Qed.

Lemma dict_get_Some {A} k (v : A) d : NoDup d.*1 → dict_get k d = Some v ↔ (k, v) ∈ d.
Proof.
  induction d as [|[k' v'] d IH]; cbn; intros Hnd; [by split; [|intros ?%not_elem_of_nil]|].
  apply NoDup_cons in Hnd as [Hk Hnd]. rewrite elem_of_cons.
  destruct (bool_decide_reflect (k' = k)) as [->|Hne].
  - split; [intros [= ->]; by left|]. intros [[= ->]|Hin]; [done|].
    destruct Hk. by apply (list_elem_of_fmap_2 fst) in Hin.
  - rewrite IH by done. split; [by right|]. by intros [[= -> ->]|].
Qed.

Lemma dict_get_perm {A} k (d d' : list (str * A)) : NoDup d.*1 → d ≡ₚ d' → dict_get k d = dict_get k d'.
Proof.
  intros Hnd Hp. assert (Hnd' : NoDup d'.*1) by by rewrite <- Hp. apply option_eq. intros v.
  rewrite !dict_get_Some by done. by rewrite Hp.
Qed.

(** [enumerate(..., start)] *)
Lemma rank_from_lookup start ids k r :
  NoDup ids → rank_from start ids k = Some r ↔ ∃ i, ids !! i = Some k ∧ r = start + Z.of_nat i.
Proof.
  revert start. induction ids as [|j ids IH]; intros start Hnd; cbn.
  { split; [done|]. by intros (i & [=] & _). }
  apply NoDup_cons in Hnd as [Hj Hnd]. destruct (bool_decide_reflect (j = k)) as [->|Hne].
  - split; [intros [= <-]; exists 0%nat; split; [done|lia]|]. intros ([|i] & Hi & ->); [f_equal; lia|].
    cbn in Hi. destruct Hj. by apply list_elem_of_lookup_2 in Hi.
  - rewrite IH by done. split.
    + intros (i & Hi & ->). exists (S i). split; [done|lia].
    + intros ([|i] & Hi & ->); [by injection Hi|]. exists i. split; [done|lia].
Qed.

Lemma rank_from_None start ids k : rank_from start ids k = None ↔ k ∉ ids.
Proof.
  revert start. induction ids as [|j ids IH]; intros start; cbn; [by split; [intros _ ?%not_elem_of_nil|]|].
  rewrite not_elem_of_cons. destruct (bool_decide_reflect (j = k)) as [->|Hne]; [naive_solver|].
  rewrite IH. naive_solver.
Qed.

(** ** The features of a closed window *)

Lemma require_source_Ok checks : require_source checks = Ok tt ↔ Forall (λ c, c.1 = false) checks.
Proof.
  induction checks as [|[[] msg] checks IH]; cbn; [done| |].
  - split; [done|]. intros H. by apply Forall_cons in H as [? _].
  - rewrite IH, Forall_cons. naive_solver.
Qed.

Lemma closed_window_klines w :
  closed_window w → length (sw_klines w) = 96%nat ∧
  Forall (λ k, (0 < dval (kl_high k))%Q ∧ (0 < dval (kl_low k))%Q ∧ (0 <= dval (kl_quote_volume k))%Q)
    (sw_klines w).
Proof.
  intros [Hw Hk]. split.
  - unfold validate_SelectionSourceWindow in Hw. run_ok Hw. destruct a0.
    apply require_source_Ok, Forall_cons in E0 as [H _]. cbn in H. apply negb_false in H. cbn in H.
    by apply Nat.eqb_eq in H.
  - eapply Forall_impl; [exact Hk|]. intros k H. unfold validate_SelectionKline in H. run_ok H.
    unfold kline_checks in E. autorewrite with checks in E. destruct E as (_ & _ & Hp & Hv & _).
    cbn [fst existsb] in Hp, Hv.
    rewrite !orb_false, !nonpositive_false in Hp. unfold negative in Hv.
    apply dltb_false in Hv. rewrite dval_d0 in Hv. naive_solver.
Qed.

(** What the loop body leaves for a window: the values of its features, and the
    reason they give. *)
Record features_of (w : SelectionSourceWindow) (f : OpeningRangeSelectionFeatures) : Prop := {
  fo_window : of_window f = w;
  fo_high : (0 < dval (of_or_high f))%Q;
  fo_low : (0 < dval (of_or_low f))%Q;
  fo_atr : (0 <= dval (of_pre_or_atr14 f))%Q;
  fo_volume : (0 <= dval (of_trailing_volume f))%Q;
  fo_volume_fits : fits_at DECIMAL_PRECISION (of_trailing_volume f);
  fo_ratio : width_ratio (sub_at DECIMAL_PRECISION (of_or_high f) (of_or_low f)) (of_pre_or_atr14 f)
             = Ok (of_ratio f);
  fo_reason : of_reason f = primary_reason (of_or_high f >? of_or_low f)%dec
                (of_pre_or_atr14 f >? d0)%dec
                (of_trailing_volume f >=? ACTIVITY_FLOOR_QUOTE_USDT)%dec
}.

Lemma width_ratio_total width atr : ∃ r, width_ratio width atr = Ok r.
Proof.
  unfold width_ratio. destruct (atr <=? d0)%dec eqn:E; [by eexists|].
  apply dleb_false in E. rewrite dval_d0 in E. by apply div_at_total.
Qed.

Lemma true_ranges_nonneg previous bars :
  Forall (λ d, (0 <= dval d)%Q) (opening_true_ranges previous bars).
Proof.
  revert previous. induction bars as [|bar bars IH]; intros previous; constructor; [|by apply IH].
  eapply Qle_trans; [apply (abs_at_nonneg DECIMAL_PRECISION)|apply dmax_ge_r].
Qed.

Lemma window_features w :
  closed_window w → ∃ f, opening_range_features w = Ok f ∧ features_of w f.
Proof.
  intros [Hl Hk]%closed_window_klines. unfold opening_range_features.
  destruct (lookup_lt_is_Some_2 (sw_klines w) 77%nat ltac:(lia)) as [bar ->].
  set (ranges := opening_true_ranges _ _).
  assert (Hor : Forall (λ k, (0 < dval (kl_high k))%Q ∧ (0 < dval (kl_low k))%Q)
    (take 4 (drop 92 (sw_klines w)))).
  { apply Forall_take, Forall_drop. eapply Forall_impl; [exact Hk|]. by intros k (? & ? & _). }
  assert (Hlen : length (take 4 (drop 92 (sw_klines w))) = 4%nat) by (rewrite length_take, length_drop; lia).
  destruct (take 4 (drop 92 (sw_klines w))) as [|k ks] eqn:Eor; [done|]. cbn [fmap list_fmap py_max py_min].
  set (high := foldl dmax _ _). set (low := foldl dmin _ _). cbn [mbind result_bind mret result_ret].
  assert (H14 : (0 < dval (of_int 14))%Q) by by rewrite dval_of_int.
  destruct (div_at_total DECIMAL_PRECISION (sum_at DECIMAL_PRECISION ranges) _ H14) as [atr Hatr].
  rewrite Hatr. cbn [mbind result_bind].
  destruct (width_ratio_total (sub_at DECIMAL_PRECISION high low) atr) as [ratio Hratio].
  rewrite Hratio. eexists. split; [done|].
  split; cbn [of_window of_or_high of_or_low of_pre_or_atr14 of_trailing_volume of_ratio of_reason]; try done.
  - destruct (foldl_max_spec (kl_high <$> ks) (kl_high k)) as [Hin _].
    change (kl_high k :: (kl_high <$> ks)) with (kl_high <$> k :: ks) in Hin. fold high in Hin.
    apply list_elem_of_fmap in Hin as (k' & E & Hin'). rewrite Forall_forall in Hor.
    destruct (Hor k' Hin'). by rewrite <- E in *.
  - destruct (foldl_min_spec (kl_low <$> ks) (kl_low k)) as [Hin _].
    change (kl_low k :: (kl_low <$> ks)) with (kl_low <$> k :: ks) in Hin. fold low in Hin.
    apply list_elem_of_fmap in Hin as (k' & E & Hin'). rewrite Forall_forall in Hor.
    destruct (Hor k' Hin'). by rewrite <- E in *.
  - eapply (div_at_nonneg DECIMAL_PRECISION); [by apply sum_at_nonneg, true_ranges_nonneg|exact H14|exact Hatr].
  - apply sum_at_nonneg. apply Forall_fmap. eapply Forall_impl; [exact Hk|]. by intros ? (_ & _ & ?).
  - by apply sum_at_fits.
Qed.

(** ** The table of a panel *)

Definition feature (w : SelectionSourceWindow) : OpeningRangeSelectionFeatures :=
  match opening_range_features w with
  | Ok f => f
  | Raise _ => mkFeatures w d0 d0 d0 d0 d0 None
  end.
Definition entry (w : SelectionSourceWindow) : str * OpeningRangeSelectionFeatures :=
  (sw_exchange_instrument_id w, feature w).

Lemma feature_of_window w : closed_window w → opening_range_features w = Ok (feature w) ∧ features_of w (feature w).
Proof. intros (f & E & H)%window_features. unfold feature. by rewrite E. Qed.

Lemma entry_keys ws : (entry <$> ws).*1 = sw_exchange_instrument_id <$> ws.
Proof. rewrite <- list_fmap_compose. done. Qed.

Lemma table_of_panel ws :
  Forall closed_window ws → NoDup (sw_exchange_instrument_id <$> ws) →
  opening_range_table ws = Ok (entry <$> ws).
Proof.
  unfold opening_range_table. intros Hws Hnd.
  cut (∀ acc, NoDup (acc.*1 ++ (sw_exchange_instrument_id <$> ws)) →
    fold_result (λ features w, f ← opening_range_features w;
      mret (dict_insert (sw_exchange_instrument_id w) f features)) acc ws = Ok (acc ++ (entry <$> ws))).
  { intros H. by apply (H []). }
  clear Hnd. induction Hws as [|w ws Hw _ IH]; intros acc Hnd; cbn; [by rewrite app_nil_r|].
  destruct (feature_of_window w Hw) as [-> _]. cbn [mbind result_bind mret result_ret].
  rewrite fmap_cons in Hnd. rewrite dict_insert_fresh.
  - cbn [mbind result_bind]. rewrite IH; [by rewrite <- app_assoc|].
    rewrite fmap_app. cbn. by rewrite <- app_assoc.
  - apply NoDup_app in Hnd as (_ & Hd & _). intros Hin. apply (Hd _ Hin). left.
Qed.

(** ** The ranking order *)

Definition key_ratio (a : str * OpeningRangeSelectionFeatures) : Q := dval (of_ratio a.2).
Definition key_volume (a : str * OpeningRangeSelectionFeatures) : Q :=
  dval (neg_at DECIMAL_PRECISION (of_trailing_volume a.2)).

Lemma ranks_before_spec a b :
  ranks_before a b = true ↔
  (key_ratio a < key_ratio b)%Q ∨ ((key_ratio a == key_ratio b)%Q ∧
   ((key_volume a < key_volume b)%Q ∨ ((key_volume a == key_volume b)%Q ∧ String.leb a.1 b.1 = true))).
Proof.
  unfold ranks_before. cbv zeta.
  by rewrite orb_true_iff, andb_true, orb_true_iff, andb_true, !dltb_spec, !deqb_spec.
Qed.

Lemma ranks_before_total a b : ranks_before a b = true ∨ ranks_before b a = true.
Proof.
  rewrite !ranks_before_spec.
  destruct (Q_dec (key_ratio a) (key_ratio b)) as [[?|?]|?]; [tauto|tauto|].
  destruct (Q_dec (key_volume a) (key_volume b)) as [[?|?]|?]; [tauto|right; right; split; [lra|tauto]|].
  destruct (String.leb_total a.1 b.1); [tauto|]. right. right. split; [lra|]. right. split; [lra|done].
Qed.

Lemma ranks_before_trans a b c :
  ranks_before a b = true → ranks_before b c = true → ranks_before a c = true.
Proof.
  rewrite !ranks_before_spec.
  intros [H1|(H1 & [H2|[H2 H3]])] [G1|(G1 & [G2|[G2 G3]])]; try (left; lra); right; (split; [lra|]);
    try (left; lra). right. split; [lra|]. by eapply string_leb_trans.
Qed.

Lemma ranks_before_key a b : ranks_before a b = true → ranks_before b a = true → a.1 = b.1.
Proof.
  rewrite !ranks_before_spec.
  intros [H1|(H1 & [H2|[H2 H3]])] [G1|(G1 & [G2|[G2 G3]])]; try lra. by apply String.leb_antisym.
Qed.

Lemma keys_separate {A} (d : list (str * A)) a b : NoDup d.*1 → a ∈ d → b ∈ d → a.1 = b.1 → a = b.
Proof.
  destruct a as [k v], b as [k' v']. cbn. intros Hnd Ha Hb <-.
  apply dict_get_Some in Ha, Hb; [|done..]. rewrite Ha in Hb. by injection Hb as ->.
Qed.

(** The ready entries of a table, in order. *)
Definition ready_entries (t : list (str * OpeningRangeSelectionFeatures))
    : list (str * OpeningRangeSelectionFeatures) :=
  sort_by ranks_before (filter (λ f, is_none (of_reason f.2)) t).

Lemma ready_separates t :
  NoDup t.*1 → ∀ a b, a ∈ filter (λ f, is_none (of_reason f.2)) t →
  b ∈ filter (λ f, is_none (of_reason f.2)) t → ranks_before a b = true → ranks_before b a = true → a = b.
Proof.
  intros Hnd a b [_ Ha]%list_elem_of_filter [_ Hb]%list_elem_of_filter H1 H2.
  eapply keys_separate; [exact Hnd|done..|by apply ranks_before_key].
Qed.

Lemma ready_ids_perm t t' : NoDup t.*1 → t ≡ₚ t' → ready_ids t = ready_ids t'.
Proof.
  intros Hnd Hp. unfold ready_ids. f_equal.
  apply sort_by_unique; [apply ranks_before_total|apply ranks_before_trans|by apply ready_separates|].
  by rewrite Hp.
Qed.

Lemma ready_entries_keys t : NoDup t.*1 → NoDup (ready_entries t).*1.
Proof.
  intros Hnd. unfold ready_entries. rewrite sort_by_perm.
  induction t as [|e t IH]; [constructor|]. cbn in Hnd. apply NoDup_cons in Hnd as [He Hnd].
  rewrite filter_cons. destruct (decide _); [|by apply IH]. cbn. constructor; [|by apply IH].
  intros Hin. apply He. apply list_elem_of_fmap in Hin as (e' & -> & [_ Hin]%list_elem_of_filter).
  by apply list_elem_of_fmap_2.
Qed.

Lemma elem_of_ready t e : e ∈ ready_entries t ↔ of_reason e.2 = None ∧ e ∈ t.
Proof.
  unfold ready_entries. rewrite sort_by_perm, list_elem_of_filter. 
  by rewrite <- (is_none_true (of_reason e.2)), Is_true_true.
Qed.

(** The rank of a ready instrument is one more than the ready instruments
    strictly before it. *)
Lemma rank_of_ready t e :
  NoDup t.*1 → e ∈ t → of_reason e.2 = None →
  rank_from 1 (ready_ids t) e.1
  = Some (1 + Z.of_nat (length (filter (λ y, ranks_before e y = false) (ready_entries t)))).
Proof.
  intros Hnd He Hr. assert (Hin : e ∈ ready_entries t) by by apply elem_of_ready.
  apply list_elem_of_lookup in Hin as [i Hi].
  rewrite (position_counts ranks_before ranks_before_total _ i).
  - apply rank_from_lookup; [by apply ready_entries_keys|]. exists i. split; [|done].
    change (ready_ids t) with (ready_entries t).*1. by rewrite list_lookup_fmap, Hi.
  - apply sort_by_sorted; [apply ranks_before_total|apply ranks_before_trans].
  - done.
  - intros a b Ha Hb. unfold ready_entries in Ha, Hb. rewrite sort_by_perm in Ha, Hb.
    by apply (ready_separates t).
  - apply (NoDup_fmap_1 fst), ready_entries_keys, Hnd.
Qed.

Lemma rank_of_unready t e : NoDup t.*1 → e ∈ t → of_reason e.2 ≠ None → rank_from 1 (ready_ids t) e.1 = None.
Proof.
  intros Hnd He Hr. apply rank_from_None. change (ready_ids t) with (ready_entries t).*1. intros Hin.
  apply list_elem_of_fmap in Hin as (e' & E & [Hr' He']%elem_of_ready).
  by rewrite (keys_separate t e e') in Hr.
Qed.

(** ** The daily opening-range selection

    The run answers on every panel of closed windows, its answer does not depend
    on the order of the windows, and it selects the seven best ready
    instruments. *)

#[local] Arguments strip : simpl never.
#[local] Arguments blank : simpl never.

(** ** One member decision *)

Definition canonical_ids : list str := CANONICAL_CANDIDATE_EXCHANGE_INSTRUMENT_IDS.

Definition candidate_text_ok (k : str) : bool :=
  bool_decide (strip k = k) && bool_decide (rstrip k = k) && negb (blank k) && negb (foreign_instrument k).

Lemma candidates_ok k : k ∈ canonical_ids → candidate_text_ok k = true.
Proof.
  intros Hk. assert (H : forallb candidate_text_ok canonical_ids = true) by (vm_compute; reflexivity).
  rewrite forallb_forall in H. apply H. by apply list_elem_of_In.
Qed.

Lemma canonical_facts :
  NoDup canonical_ids ∧ length canonical_ids = 24%nat ∧ sorted canonical_ids = canonical_ids.
Proof.
  split; [|split; [reflexivity|vm_compute; reflexivity]].
  refine (proj1 (bool_decide_true (NoDup canonical_ids)) _). vm_compute. reflexivity.
Qed.

Lemma candidate_facts k : k ∈ canonical_ids →
  strip k = k ∧ rstrip k = k ∧ blank k = false ∧ foreign_instrument k = false ∧ k ≠ EmptyString.
Proof.
  intros H%candidates_ok. unfold candidate_text_ok in H. autorewrite with checks in H.
  destruct H as [[[H1 H2] H3] H4]. split_and!; try done.
  - unfold blank. by apply bool_decide_false.
  - intros ->. by apply H3.
Qed.

(** The rank and the state fit the reason. *)
Definition ranked (reason : option SelectionMemberReason) (rank : option Z) : Prop :=
  match reason with
  | Some _ => rank = None
  | None => ∃ r, rank = Some r ∧ 1 <= r <= 24
  end.

(** A snapshot identity: stripped, and opening without space. *)
Definition snapshot_identity (sid : str) : Prop :=
  strip sid = sid ∧ ∃ c s, sid = String c s ∧ is_space c = false.

Section decision.
Context (sid spec_id : str) (session : Z) (k : str) (f : OpeningRangeSelectionFeatures) (rank : option Z).
Context (Hsid : snapshot_identity sid) (Hspec : strip spec_id = spec_id) (Hspec' : spec_id ≠ EmptyString).
Context (Hsession : 0 < session) (Hday : session mod DAY_MS = 0).
Context (Hk : k ∈ canonical_ids) (Hf : features_of (of_window f) f).
Context (Hstart : sw_input_window_start_ms (of_window f) = session - 23 * HOUR_MS).
Context (Hrank : ranked (of_reason f) rank).

(** The decision, but for its digest. *)
Definition decided (digest : str) : SelectionMemberDecision :=
  mkMemberDecision sid (sid +:+ ":" +:+ k) spec_id session (session + HOUR_MS)
    (sw_input_window_start_ms (of_window f)) (session + HOUR_MS) k (input_window_digest (of_window f))
    (of_or_high f) (of_or_low f) (sub_at DECIMAL_PRECISION (of_or_high f) (of_or_low f))
    (of_pre_or_atr14 f) (of_ratio f) (of_trailing_volume f)
    (of_or_high f >? of_or_low f)%dec (of_pre_or_atr14 f >? d0)%dec
    (of_trailing_volume f >=? ACTIVITY_FLOOR_QUOTE_USDT)%dec
    ((of_or_high f >? of_or_low f)%dec && (of_pre_or_atr14 f >? d0)%dec
     && (of_trailing_volume f >=? ACTIVITY_FLOOR_QUOTE_USDT)%dec)
    (of_reason f) [] rank (member_state_of (of_reason f) rank)
    (bool_decide (member_state_of (of_reason f) rank = MEMBER_SELECTED)) digest.

Lemma primary_reason_ready a b c : is_none (primary_reason a b c) = a && b && c.
Proof. by destruct a, b, c. Qed.

Lemma decided_ready digest : sm_selection_ready (decided digest) = is_none (of_reason f).
Proof. cbn. by rewrite (fo_reason _ _ Hf), primary_reason_ready. Qed.

Lemma member_id_stripped : strip (sid +:+ ":" +:+ k) = sid +:+ ":" +:+ k.
Proof.
  destruct Hsid as (_ & c & s & -> & Hc). destruct (candidate_facts k Hk) as (_ & Hr & _ & _ & Hne).
  change (String c s +:+ ":" +:+ k) with (String c s +:+ String ":" k). apply strip_framed; [done| |done].
  rewrite rstrip_cons, Hr. by destruct k.
Qed.

Lemma decided_digest : ∃ d, member_semantic_digest (decided EmptyString) = Ok d ∧ sha256_shaped d = true ∧
  member_semantic_digest (decided d) = Ok d.
Proof.
  destruct (candidate_facts k Hk) as (_ & _ & _ & Hp & _). unfold foreign_instrument in Hp.
  unfold member_semantic_digest. cbn [sm_exchange_instrument_id decided].
  destruct (parse_binance_usdm_instrument_id k) as [i|]; [|done]. cbn [mbind result_bind mret result_ret].
  eexists. split; [done|]. split; [apply selection_digest_shaped|done].
Qed.

Lemma decided_rank_state digest :
  Forall (λ c : bool * str, c.1 = false) (rank_state_checks (decided digest)).
Proof.
  unfold rank_state_checks. rewrite decided_ready. cbn [sm_stable_rank sm_primary_reason sm_member_state sm_selected decided].
  unfold ranked in Hrank. destruct (of_reason f) as [r|]; cbn [is_none negb].
  - subst rank. each_check ltac:(done).
  - destruct Hrank as (r & -> & Hr). unfold member_state_of.
    destruct (Z.leb_spec r 7); [|destruct (Z.leb_spec r (7 + 7))]; cbn [app];
      each_check ltac:(first [done|lia|rewrite ?bool_decide_eq_true_2, ?bool_decide_eq_false_2 by done; lia]).
Qed.

Lemma decided_identity digest :
  Forall (λ c : bool * str, c.1 = false) (member_identity_checks (decided digest)).
Proof.
  destruct (candidate_facts k Hk) as (_ & _ & _ & Hp & _). unfold member_identity_checks. cbn [decided
    sm_exchange_instrument_id sm_session_start_ms sm_feature_cutoff_at_ms sm_input_window_start_ms
    sm_input_window_end_ms sm_member_decision_id sm_selection_snapshot_id sm_or_high sm_or_low
    sm_pre_or_atr14 sm_trailing_24h_quote_volume].
  pose proof (fo_high _ _ Hf) as H1. pose proof (fo_low _ _ Hf) as H2.
  pose proof (fo_atr _ _ Hf) as H3. pose proof (fo_volume _ _ Hf) as H4.
  apply nonpositive_false in H1, H2. unfold negative. rewrite <- dval_d0 in H3, H4. apply dltb_false in H3, H4.
  each_check ltac:(first [done|lia|by rewrite bool_decide_eq_true_2|by rewrite H1, H2|by rewrite H3, H4]).
Qed.

Lemma decided_qualified digest :
  Forall (λ c : bool * str, c.1 = false) (member_qualification_checks (decided digest) (of_ratio f)).
Proof.
  unfold member_qualification_checks. cbv zeta. rewrite decided_ready.
  cbn [decided sm_or_high sm_or_low sm_or_width sm_pre_or_width_atr14 sm_pre_or_atr14
    sm_trailing_24h_quote_volume sm_or_geometry_valid sm_atr_valid sm_activity_valid sm_member_state
    sm_primary_reason sm_secondary_reasons].
  rewrite <- (fo_reason _ _ Hf). 
  assert (R : ∀ d, (d =? d)%dec = true) by (intros d; by apply deqb_spec).
  rewrite !R, !Bool.eqb_reflx, (bool_decide_eq_true_2 (of_reason f = of_reason f)) by done.
  assert (Hst : bool_decide (member_state_of (of_reason f) rank = INELIGIBLE) && is_none (of_reason f) = false).
  { unfold ranked in Hrank. destruct (of_reason f); [by rewrite andb_false_r|].
    destruct Hrank as (r & -> & _). unfold member_state_of. by repeat case_match. }
  each_check ltac:(first [done|exact Hst]).
Qed.

Lemma member_decision_answers :
  ∃ d, member_semantic_digest (decided EmptyString) = Ok d ∧
       build_selection_member_decision sid spec_id session (session + HOUR_MS)
         (sw_input_window_start_ms (of_window f)) k (input_window_digest (of_window f)) (of_or_high f)
         (of_or_low f) (of_pre_or_atr14 f) (of_trailing_volume f) rank
         (member_state_of (of_reason f) rank) (of_reason f) = Ok (decided d).
Proof.
  destruct decided_digest as (d & Hd & Hshape & Hd'). exists d. split; [done|].
  destruct (candidate_facts k Hk) as (Hs & _ & Hb & _ & _). pose proof member_id_stripped as Hid.
  destruct Hsid as (Hss & c & s & Hc & _).
  unfold build_selection_member_decision. rewrite (fo_ratio _ _ Hf). cbn [mbind result_bind].
  fold (decided EmptyString). rewrite Hd. cbn [mbind result_bind]. fold (decided d).
  assert (B1 : blank sid = false) by (unfold blank; rewrite Hss, Hc; by apply bool_decide_eq_false_2).
  assert (B2 : blank (sid +:+ ":" +:+ k) = false)
    by (unfold blank; rewrite Hid, Hc; by apply bool_decide_eq_false_2).
  assert (B3 : blank spec_id = false) by (unfold blank; rewrite Hspec; by apply bool_decide_eq_false_2).
  unfold validate_SelectionMemberDecision.
  rewrite bind_pass; [|apply validate_fields_Ok; cbn [decided sm_selection_snapshot_id
    sm_member_decision_id sm_selection_spec_id sm_exchange_instrument_id sm_input_window_digest
    sm_member_semantic_digest fmap list_fmap app]; unfold input_window_digest;
    rewrite selection_digest_shaped, Hshape;
    each_check ltac:(first [exact Hb|exact B1|exact B2|exact B3|done])].
  cbv zeta.
  match goal with |- context [validate_model (member_identity_checks ?m)] => replace m with (decided d) end.
  2: { cbn [decided sm_selection_snapshot_id sm_member_decision_id sm_selection_spec_id sm_exchange_instrument_id].
    by rewrite Hss, Hid, Hspec, Hs. }
  rewrite (bind_pass (validate_model (member_identity_checks _))) by apply validate_model_Ok, decided_identity.
  cbn [decided sm_or_high sm_or_low sm_pre_or_atr14]. rewrite (fo_ratio _ _ Hf). cbn [mbind result_bind].
  fold (decided d).
  rewrite (bind_pass (validate_model (member_qualification_checks _ _))) by apply validate_model_Ok, decided_qualified.
  rewrite (bind_pass (validate_model (rank_state_checks _))) by apply validate_model_Ok, decided_rank_state.
  rewrite Hd'. cbn [mbind result_bind]. cbn [decided sm_member_semantic_digest].
  by rewrite bool_decide_eq_true_2.
Qed.
End decision.

(** ** The decisions of a panel *)

Lemma map_result_total {A B} (f : A → result B) (g : A → B) l :
  Forall (λ x, f x = Ok (g x)) l → map_result f l = Ok (g <$> l).
Proof. induction 1 as [|x l Hx _ IH]; [done|]. cbn. rewrite Hx. cbn. by rewrite IH. Qed.

Lemma map_result_ext {A B} (f g : A → result B) l : (∀ x, f x = g x) → map_result f l = map_result g l.
Proof. intros H. induction l as [|x l IH]; [done|]. cbn. by rewrite H, IH. Qed.

Lemma length_filter_fmap {A B} (f : A → B) (P : B → Prop) `{!∀ x, Decision (P x)} l :
  length (filter P (f <$> l)) = length (filter (λ x, P (f x)) l).
Proof.
  induction l as [|x l IH]; [done|]. cbn [fmap list_fmap]. rewrite !filter_cons.
  destruct (decide (P (f x))); cbn; by rewrite IH.
Qed.

Section panel.
Context (sid spec_id : str) (session : Z) (ws : list SelectionSourceWindow).
Context (Hsid : snapshot_identity sid) (Hspec : strip spec_id = spec_id) (Hspec' : spec_id ≠ EmptyString).
Context (Hsession : 0 < session) (Hday : session mod DAY_MS = 0).
Context (Hclosed : Forall closed_window ws).
Context (Hids : sw_exchange_instrument_id <$> ws ≡ₚ canonical_ids).
Context (Hstart : Forall (λ w, sw_input_window_start_ms w = session - 23 * HOUR_MS) ws).

#[local] Notation table := (entry <$> ws).

(** The decision of an entry of the table. *)
Definition decision_of (e : str * OpeningRangeSelectionFeatures) : SelectionMemberDecision :=
  let rank := rank_from 1 (ready_ids table) e.1 in
  decided sid spec_id session e.1 e.2 rank
    match member_semantic_digest (decided sid spec_id session e.1 e.2 rank EmptyString) with
    | Ok d => d
    | Raise _ => EmptyString
    end.

Lemma panel_keys : NoDup table.*1.
Proof. rewrite entry_keys, Hids. apply canonical_facts. Qed.

Lemma panel_entry e : e ∈ table →
  e.1 ∈ canonical_ids ∧ features_of (of_window e.2) e.2 ∧
  sw_input_window_start_ms (of_window e.2) = session - 23 * HOUR_MS.
Proof.
  intros (w & -> & Hw)%list_elem_of_fmap. rewrite Forall_forall in Hclosed, Hstart.
  destruct (feature_of_window w (Hclosed w Hw)) as [_ Hf]. cbn. rewrite (fo_window _ _ Hf).
  split; [|split; [done|by apply Hstart]]. rewrite <- Hids. by apply list_elem_of_fmap_2.
Qed.

Lemma panel_ranked e : e ∈ table → ranked (of_reason e.2) (rank_from 1 (ready_ids table) e.1).
Proof.
  intros He. unfold ranked. destruct (of_reason e.2) as [r|] eqn:E.
  - apply rank_of_unready; [apply panel_keys|done|by rewrite E].
  - rewrite rank_of_ready by (done || apply panel_keys). eexists. split; [done|].
    assert (H : e ∈ ready_entries table) by by apply elem_of_ready.
    assert (Hl : (length (filter (λ y, ranks_before e y = false) (ready_entries table))
                  < length (ready_entries table))%nat).
    { apply (length_filter_lt _ _ e H). by destruct (ranks_before_total e e) as [->| ->]. }
    assert (length (ready_entries table) <= 24)%nat; [|lia].
    unfold ready_entries. rewrite sort_by_perm, length_filter, length_fmap.
    rewrite <- (length_fmap sw_exchange_instrument_id ws), Hids. by destruct canonical_facts as (_ & -> & _).
Qed.

Lemma panel_decision e : e ∈ table →
  member_decision sid spec_id session (session + HOUR_MS) table (ready_ids table) e.1 = Ok (decision_of e).
Proof.
  intros He. destruct (panel_entry e He) as (Hk & Hf & Hs). unfold member_decision.
  assert (dict_get e.1 table = Some e.2) as ->.
  { apply dict_get_Some; [apply panel_keys|]. by destruct e. }
  destruct (member_decision_answers sid spec_id session e.1 e.2 (rank_from 1 (ready_ids table) e.1)
    Hsid Hspec Hspec' Hsession Hday Hk Hf Hs (panel_ranked e He)) as (d & Hd & E).
  unfold decision_of. cbv zeta. rewrite Hd. exact E.
Qed.

(** The decisions are those of the entries, in canonical order. *)
Lemma panel_decisions :
  ∃ t, t ≡ₚ table ∧ t.*1 = canonical_ids ∧
  compute_opening_range_member_decisions ws sid spec_id session (session + HOUR_MS)
  = Ok (decision_of <$> t, Z.of_nat (length (ready_ids table))).
Proof.
  assert (Hp : canonical_ids ≡ₚ map fst table) by (change (map fst table) with table.*1; by rewrite entry_keys, Hids).
  apply Permutation_map_inv in Hp as (t & Ht & Hp). exists t. split; [by symmetry|]. split; [done|].
  unfold compute_opening_range_member_decisions.
  rewrite table_of_panel; [|done|rewrite Hids; apply canonical_facts]. cbn [mbind result_bind]. cbv zeta.
  fold canonical_ids. rewrite Ht. change (map fst t) with t.*1.
  assert (E : map_result (member_decision sid spec_id session (session + HOUR_MS) table (ready_ids table)) t.*1
    = Ok (decision_of <$> t)); [|by rewrite E].
  assert (Hin : ∀ e, e ∈ t → e ∈ table) by (intros e; by rewrite <- Hp). clear Hp Ht.
  induction t as [|e t IH]; [done|]. cbn. rewrite panel_decision by (apply Hin; left).
  cbn [mbind result_bind]. rewrite IH; [done|]. intros e' He'. apply Hin. by right.
Qed.
End panel.

(** ** The run *)

Lemma snapshot_id_identity spec_id session :
  0 < session → snapshot_identity (selection_snapshot_id spec_id session).
Proof.
  intros H. destruct (integer_stripped session ltac:(lia)) as [Hr Hne]. unfold selection_snapshot_id.
  split; [|eexists _, _; split; [reflexivity|done]].
  change ("selection:" +:+ ?x) with (String "s" ("election:" +:+ x)).
  unfold strip. rewrite lstrip_noop by done.
  assert (E : rstrip (spec_id +:+ ":" +:+ string_of_Z session) = spec_id +:+ ":" +:+ string_of_Z session).
  { apply rstrip_append; [by apply rstrip_append|done]. }
  change (String "s" ("election:" +:+ ?x)) with ("selection:" +:+ x). apply rstrip_append; [done|].
  destruct spec_id; done.
Qed.

Lemma spec_facts spec :
  validate_SorDynamicSelectionSpecV0 spec = Ok spec →
  strip (ss_selection_spec_id spec) = ss_selection_spec_id spec ∧ ss_selection_spec_id spec ≠ EmptyString ∧
  ss_candidate_exchange_instrument_ids spec = canonical_ids ∧ ss_selected_count_max spec = 7.
Proof.
  unfold validate_SorDynamicSelectionSpecV0. intros H. cbv zeta in H.
  apply bind_Ok in H as (u & Hfields & H). apply bind_Ok in H as (u' & Hmodel & H). apply Ok_inj in H.
  rewrite H in Hmodel. assert (E : strip (ss_selection_spec_id spec) = ss_selection_spec_id spec).
  { by rewrite <- H at 2. }
  clear H. apply validate_fields_Ok, Forall_cons in Hfields as [Hb _]. cbn [fst] in Hb.
  apply blank_false in Hb. apply validate_model_Ok in Hmodel. unfold sor_spec_checks in Hmodel.
  autorewrite with checks in Hmodel. cbn [fst] in Hmodel. destruct Hmodel as (_ & _ & _ & Hc & _ & _ & Hn & _).
  apply orb_false in Hc as [_ Hc]. apply negb_false in Hc, Hn.
  split; [done|]. rewrite E in Hb. split; [done|]. split; [by apply bool_decide_eq_true_1 in Hc|].
  apply bool_decide_eq_true_1 in Hn. by simplify_eq.
Qed.

Lemma period_facts period :
  validate_SelectionPeriod period = Ok period →
  0 < sp_session_start_ms period ∧ sp_session_start_ms period mod DAY_MS = 0 ∧
  sp_feature_cutoff_at_ms period = sp_session_start_ms period + HOUR_MS ∧
  sp_eligibility_not_before_ms period = sp_session_start_ms period + 5 * INTERVAL_MS ∧
  sp_expires_at_ms period = sp_session_start_ms period + DAY_MS + HOUR_MS.
Proof.
  unfold validate_SelectionPeriod. intros H. apply bind_Ok in H as (u & H & _).
  apply validate_model_Ok in H. unfold selection_period_checks in H. autorewrite with checks in H.
  cbn [fst] in H. lia.
Qed.

(** The guards over the panel, as facts. *)
Lemma panel_facts spec period ws :
  validate_SorDynamicSelectionSpecV0 spec = Ok spec →
  require_source (panel_checks spec period ws) = Ok tt →
  sw_exchange_instrument_id <$> ws ≡ₚ canonical_ids ∧
  Forall (λ w, sw_input_window_start_ms w = sp_session_start_ms period - 23 * HOUR_MS) ws.
Proof.
  intros (_ & _ & Hc & _)%spec_facts H%require_source_Ok. unfold panel_checks in H. cbv zeta in H.
  rewrite Hc in H. autorewrite with checks in H. cbn [fst] in H. destruct H as (H1 & _ & H3 & _).
  apply orb_false in H1 as [_ H1]. apply negb_false, bool_decide_eq_true_1 in H1. split.
  - rewrite <- H1. unfold sorted. by rewrite sort_by_perm.
  - apply List.Forall_forall. intros w Hw.
    assert (E : negb (sw_input_window_start_ms w =? sp_session_start_ms period - 23 * HOUR_MS) = false).
    { apply not_true_is_false. intros E. apply not_true_iff_false in H3. apply H3, existsb_exists.
      exists w. split; [done|]. by rewrite E. }
    lia.
Qed.

(** The snapshot of a run with [ready] ready candidates. *)
Definition run_snapshot (spec : SorDynamicSelectionSpecV0) (period : SelectionPeriod)
    (decisions : list SelectionMemberDecision) (ready decision_at observed created : Z) : SelectionSnapshot :=
  let selected := Z.min (ss_selected_count_max spec) ready in
  mkSelectionSnapshot (selection_snapshot_id (ss_selection_spec_id spec) (sp_session_start_ms period))
    (ss_selection_spec_id spec) (ss_strategy_group_id spec) (ss_strategy_version_id spec)
    (sp_session_start_ms period) decision_at (sp_feature_cutoff_at_ms period)
    (sp_eligibility_not_before_ms period) (sp_expires_at_ms period) (Z.of_nat (length decisions)) ready
    selected observed (source_semantic_digest decisions)
    (computation_digest spec period decisions ready selected) created.

Lemma ready_ids_bound ws :
  sw_exchange_instrument_id <$> ws ≡ₚ canonical_ids → (length (ready_ids (entry <$> ws)) <= 24)%nat.
Proof.
  intros Hids. change (ready_ids (entry <$> ws)) with (ready_entries (entry <$> ws)).*1.
  rewrite length_fmap. unfold ready_entries. rewrite sort_by_perm, length_filter, length_fmap.
  rewrite <- (length_fmap sw_exchange_instrument_id ws), Hids. by destruct canonical_facts as (_ & -> & _).
Qed.

Section run.
Context (spec : SorDynamicSelectionSpecV0) (period : SelectionPeriod) (ws : list SelectionSourceWindow).
Context (decision_at observed created : Z).
Context (Hspec : validate_SorDynamicSelectionSpecV0 spec = Ok spec).
Context (Hperiod : validate_SelectionPeriod period = Ok period).
Context (Hclosed : Forall closed_window ws).
Context (Hpanel : require_source (panel_checks spec period ws) = Ok tt).

#[local] Notation sid := (selection_snapshot_id (ss_selection_spec_id spec) (sp_session_start_ms period)).
#[local] Notation decide_entry :=
  (decision_of sid (ss_selection_spec_id spec) (sp_session_start_ms period) ws).
#[local] Notation ready_count := (Z.of_nat (length (ready_ids (entry <$> ws)))).

Lemma ready_count_bound : 0 <= ready_count <= 24.
Proof.
  destruct (panel_facts _ _ _ Hspec Hpanel) as [Hids _]. pose proof (ready_ids_bound ws Hids). lia.
Qed.

Lemma run_computes :
  ∃ t, t ≡ₚ entry <$> ws ∧ t.*1 = canonical_ids ∧
  run_sor_dynamic_selection_v0 spec period ws decision_at observed created
  = snapshot ← validate_SelectionSnapshot
      (run_snapshot spec period (decide_entry <$> t) ready_count decision_at observed created);
    validate_SelectionComputation (mkComputation snapshot (decide_entry <$> t)).
Proof.
  destruct (spec_facts _ Hspec) as (Hs & Hne & _). destruct (period_facts _ Hperiod) as (Hp & Hd & Hc & _).
  destruct (panel_facts _ _ _ Hspec Hpanel) as [Hids Hstart].
  destruct (panel_decisions sid (ss_selection_spec_id spec) (sp_session_start_ms period) ws
    (snapshot_id_identity _ _ Hp) Hs Hne Hp Hd Hclosed Hids Hstart) as (t & Ht & Hk & E).
  exists t. split; [done|]. split; [done|]. unfold run_sor_dynamic_selection_v0.
  rewrite Hpanel. cbn [mbind result_bind]. cbv zeta. rewrite Hc, E. cbn [mbind result_bind].
  unfold run_snapshot. cbv zeta. by rewrite Hc.
Qed.

Lemma snapshot_passes decisions :
  sp_feature_cutoff_at_ms period <= Z.min (Z.min decision_at observed) created →
  length decisions = 24%nat →
  validate_SelectionSnapshot (run_snapshot spec period decisions ready_count decision_at observed created)
  = Ok (run_snapshot spec period decisions ready_count decision_at observed created).
Proof.
  intros Ht Hl. destruct (spec_facts _ Hspec) as (_ & _ & _ & Hmax).
  destruct (period_facts _ Hperiod) as (Hp & Hd & Hc & He & Hx). pose proof ready_count_bound.
  unfold validate_SelectionSnapshot. rewrite bind_pass.
  2: { apply validate_fields_Ok. unfold run_snapshot, source_semantic_digest, computation_digest. cbv zeta.
       cbn [sn_source_semantic_digest sn_selection_semantic_digest fmap list_fmap].
       rewrite !selection_digest_shaped. each_check done. }
  rewrite bind_pass; [done|]. apply validate_model_Ok. unfold selection_snapshot_checks, run_snapshot. cbv zeta.
  cbn [sn_selection_snapshot_id sn_selection_spec_id sn_session_start_ms sn_candidate_count sn_ready_count
    sn_selected_count sn_feature_cutoff_at_ms sn_eligibility_not_before_ms sn_expires_at_ms sn_decision_at_ms
    sn_source_observed_at_ms sn_created_at_ms].
  rewrite Hl, Hmax. rewrite bool_decide_eq_true_2 by done.
  each_check ltac:(first [done|lia]).
Qed.
End run.

Lemma computation_passes snapshot decisions :
  sm_exchange_instrument_id <$> decisions = canonical_ids →
  sn_candidate_count snapshot = 24 →
  Forall (λ d, sm_selection_snapshot_id d = sn_selection_snapshot_id snapshot ∧
               sm_selection_spec_id d = sn_selection_spec_id snapshot ∧
               sm_session_start_ms d = sn_session_start_ms snapshot) decisions →
  validate_SelectionComputation (mkComputation snapshot decisions) = Ok (mkComputation snapshot decisions).
Proof.
  intros Hids Hc Hd. destruct canonical_facts as (_ & Hlen & Hsorted).
  unfold validate_SelectionComputation. rewrite bind_pass; [done|]. apply validate_model_Ok.
  unfold computation_checks. cbv zeta. cbn [co_snapshot co_member_decisions].
  rewrite <- (length_fmap sm_exchange_instrument_id decisions), Hids, Hlen, Hc, Hsorted, bool_decide_eq_true_2 by done.
  each_check ltac:(first [done|apply existsb_false; eapply Forall_impl; [exact Hd|];
    intros d (-> & -> & ->); by rewrite !bool_decide_eq_true_2, Z.eqb_refl by done]).
Qed.

Lemma run_result spec period ws decision_at observed created :
  validate_SorDynamicSelectionSpecV0 spec = Ok spec → validate_SelectionPeriod period = Ok period →
  Forall closed_window ws → require_source (panel_checks spec period ws) = Ok tt →
  let sid := selection_snapshot_id (ss_selection_spec_id spec) (sp_session_start_ms period) in
  let ready := Z.of_nat (length (ready_ids (entry <$> ws))) in
  ∃ t, t ≡ₚ entry <$> ws ∧ t.*1 = canonical_ids ∧
  let decisions := decision_of sid (ss_selection_spec_id spec) (sp_session_start_ms period) ws <$> t in
  let snapshot := run_snapshot spec period decisions ready decision_at observed created in
  (sp_feature_cutoff_at_ms period <= Z.min (Z.min decision_at observed) created →
   run_sor_dynamic_selection_v0 spec period ws decision_at observed created
   = Ok (mkComputation snapshot decisions)) ∧
  ∀ c, run_sor_dynamic_selection_v0 spec period ws decision_at observed created = Ok c →
    c = mkComputation snapshot decisions.
Proof.
  intros Hspec Hperiod Hclosed Hpanel sid ready.
  destruct (run_computes spec period ws decision_at observed created Hspec Hperiod Hclosed Hpanel) as (t & Ht & Hk & E).
  exists t. split; [done|]. split; [done|]. intros decisions snapshot.
  assert (Hl : length decisions = 24%nat).
  { subst decisions. rewrite length_fmap, <- (length_fmap fst t). change (map fst t) with t.*1.
    rewrite Hk. by destruct canonical_facts as (_ & ? & _). }
  assert (Hc : validate_SelectionComputation (mkComputation snapshot decisions) = Ok (mkComputation snapshot decisions)).
  { apply computation_passes.
    - subst decisions. rewrite <- list_fmap_compose. exact Hk.
    - cbn. by rewrite Hl.
    - subst decisions. apply Forall_fmap, Forall_true. by intros []. }
  rewrite E. split.
  - intros Htime. pose proof (snapshot_passes spec period ws decision_at observed created Hspec Hperiod
      Hpanel decisions Htime Hl) as Hsn.
    fold sid ready decisions in Hsn |- *. rewrite Hsn. cbn [mbind result_bind]. exact Hc.
  - intros c H. apply bind_Ok in H as (s & Hs & H). unfold validate_SelectionSnapshot in Hs.
    apply bind_Ok in Hs as (? & _ & Hs). apply bind_Ok in Hs as (? & _ & Hs). apply Ok_inj in Hs.
    rewrite <- Hs in H.
    change (validate_SelectionComputation (mkComputation snapshot decisions) = Ok c) in H.
    rewrite Hc in H. by apply Ok_inj in H.
Qed.

Lemma run_answers spec period ws decision_at observed created :
  validate_SorDynamicSelectionSpecV0 spec = Ok spec → validate_SelectionPeriod period = Ok period →
  Forall closed_window ws → sw_exchange_instrument_id <$> ws ≡ₚ canonical_ids →
  Forall (λ w, sw_input_window_start_ms w = sp_session_start_ms period - 23 * HOUR_MS ∧
               sw_feature_cutoff_at_ms w = sp_feature_cutoff_at_ms period) ws →
  sp_feature_cutoff_at_ms period <= Z.min (Z.min decision_at observed) created →
  ∃ c, run_sor_dynamic_selection_v0 spec period ws decision_at observed created = Ok c ∧
       sm_exchange_instrument_id <$> co_member_decisions c = canonical_ids.
Proof.
  intros Hspec Hperiod Hclosed Hids Hwin Htime.
  destruct (spec_facts _ Hspec) as (_ & _ & Hc & _). destruct canonical_facts as (Hnd & Hlen & Hsorted).
  assert (Hsort : sorted (sw_exchange_instrument_id <$> ws) = canonical_ids)
    by (by rewrite (sorted_perm _ _ Hids)).
  assert (Hpanel : require_source (panel_checks spec period ws) = Ok tt).
  { apply require_source_Ok. unfold panel_checks. cbv zeta. rewrite Hsort, Hc.
    rewrite <- (length_fmap sw_exchange_instrument_id ws), Hids, Hlen, !bool_decide_eq_true_2 by done.
    each_check ltac:(first [done|apply existsb_false; eapply Forall_impl; [exact Hwin|];
      intros w [-> ->]; by rewrite !Z.eqb_refl]). }
  destruct (run_result spec period ws decision_at observed created Hspec Hperiod Hclosed Hpanel)
    as (t & _ & Hk & Hrun & _).
  eexists. split; [by apply Hrun|]. cbn [co_member_decisions]. rewrite <- list_fmap_compose. exact Hk.
Qed.

(** On a panel of closed windows of the period, with clocks not before the
    cutoff, the run answers with one decision per candidate, in canonical
    order. *)
Theorem daily_selection_answers spec period ws decision_at observed created :
  validate_SorDynamicSelectionSpecV0 spec = Ok spec → validate_SelectionPeriod period = Ok period →
  Forall closed_window ws → sw_exchange_instrument_id <$> ws ≡ₚ canonical_ids →
  Forall (λ w, sw_input_window_start_ms w = sp_session_start_ms period - 23 * HOUR_MS ∧
               sw_feature_cutoff_at_ms w = sp_feature_cutoff_at_ms period) ws →
  sp_feature_cutoff_at_ms period <= Z.min (Z.min decision_at observed) created →
  ∃ c, run_sor_dynamic_selection_v0 spec period ws decision_at observed created = Ok c ∧
       sm_exchange_instrument_id <$> co_member_decisions c = canonical_ids.
Proof. apply run_answers. Qed.

(** ** The order of the windows *)

Lemma existsb_perm {A} (f : A → bool) l l' : l ≡ₚ l' → existsb f l = existsb f l'.
Proof.
  induction 1 as [|x l l' _ IH|x y l|l l' l'' _ IH1 _ IH2]; cbn; [done|by rewrite IH| |congruence].
  by destruct (f x), (f y).
Qed.

Lemma panel_checks_perm spec period ws ws' :
  ws ≡ₚ ws' → panel_checks spec period ws = panel_checks spec period ws'.
Proof.
  intros H. unfold panel_checks. cbv zeta.
  by rewrite (sorted_perm _ _ (fmap_Permutation sw_exchange_instrument_id _ _ H)),
    (Permutation_length H), (existsb_perm _ _ _ H).
Qed.

Lemma compute_perm ws ws' sid spec_id session cutoff :
  Forall closed_window ws → NoDup (sw_exchange_instrument_id <$> ws) → ws ≡ₚ ws' →
  compute_opening_range_member_decisions ws sid spec_id session cutoff
  = compute_opening_range_member_decisions ws' sid spec_id session cutoff.
Proof.
  intros Hc Hnd Hp. assert (Hc' : Forall closed_window ws') by by rewrite <- Hp.
  assert (Hnd' : NoDup (sw_exchange_instrument_id <$> ws')) by by rewrite <- Hp.
  unfold compute_opening_range_member_decisions. rewrite !table_of_panel by done.
  cbn [mbind result_bind]. cbv zeta. assert (Hk : NoDup (entry <$> ws).*1) by by rewrite entry_keys.
  assert (Ht : entry <$> ws ≡ₚ entry <$> ws') by by rewrite Hp.
  rewrite (ready_ids_perm _ _ Hk Ht).
  erewrite map_result_ext; [reflexivity|]. intros k. unfold member_decision.
  by rewrite (dict_get_perm _ _ _ Hk Ht).
Qed.

(** The order in which the windows of the panel arrive does not matter: neither
    to the decisions, nor to the digests, nor to the error. *)
Theorem selection_order_irrelevant spec period ws ws' decision_at observed created :
  Forall closed_window ws → ws ≡ₚ ws' →
  run_sor_dynamic_selection_v0 spec period ws decision_at observed created
  = run_sor_dynamic_selection_v0 spec period ws' decision_at observed created.
Proof.
  intros Hc Hp. unfold run_sor_dynamic_selection_v0. rewrite <- (panel_checks_perm spec period _ _ Hp).
  destruct (require_source (panel_checks spec period ws)) as [[]|e] eqn:E; [|done].
  cbn [mbind result_bind]. cbv zeta. rewrite (compute_perm ws ws'); [done|done| |done].
  apply require_source_Ok in E. unfold panel_checks in E. cbv zeta in E. autorewrite with checks in E.
  destruct E as (_ & E & _). cbn [fst] in E. apply negb_false, bool_decide_eq_true_1 in E.
  unfold sorted in E. by rewrite sort_by_perm in E.
Qed.

(** ** The seven best *)

(** One member strictly before another: the narrower opening range in ATRs, then
    the larger volume, then the name. *)
Definition better (a b : SelectionMemberDecision) : bool :=
  let ra := sm_pre_or_width_atr14 a in let rb := sm_pre_or_width_atr14 b in
  let va := sm_trailing_24h_quote_volume a in let vb := sm_trailing_24h_quote_volume b in
  (ra <? rb)%dec || ((ra =? rb)%dec &&
    ((vb <? va)%dec ||
     ((va =? vb)%dec && negb (String.leb (sm_exchange_instrument_id b) (sm_exchange_instrument_id a))))).

Lemma key_volume_exact e w : features_of w e.2 → (key_volume e == - dval (of_trailing_volume e.2))%Q.
Proof.
  intros Hf. unfold key_volume. rewrite neg_at_exact by apply (fo_volume_fits _ _ Hf). apply dval_raw_neg.
Qed.

(** The comparison of two decisions is the strict order of their entries. *)
Lemma better_ranks sid spec_id session ws a b wa wb :
  features_of wa a.2 → features_of wb b.2 →
  better (decision_of sid spec_id session ws a) (decision_of sid spec_id session ws b)
  = negb (ranks_before b a).
Proof.
  intros Ha Hb. pose proof (key_volume_exact a wa Ha) as Va. pose proof (key_volume_exact b wb Hb) as Vb.
  unfold better, decision_of. cbv zeta.
  cbn [decided sm_pre_or_width_atr14 sm_trailing_24h_quote_volume sm_exchange_instrument_id].
  apply eq_true_iff_eq. rewrite negb_true_iff, <- not_true_iff_false, ranks_before_spec.
  rewrite orb_true_iff, andb_true, orb_true_iff, andb_true, negb_true, !dltb_spec, !deqb_spec, <- not_true_iff_false.
  unfold key_ratio. rewrite Va, Vb. clear.
  set (ra := dval (of_ratio a.2)). set (rb := dval (of_ratio b.2)).
  set (va := dval (of_trailing_volume a.2)). set (vb := dval (of_trailing_volume b.2)).
  split; [intros [H|(H1 & [H2|(H2 & H3)])] [G|(G1 & [G2|(G2 & G3)])]; (lra || done)|]. intros N.
  destruct (Q_dec ra rb) as [[?|?]|?]; [by left|destruct N; by left|]. right. split; [done|].
  destruct (Q_dec va vb) as [[?|?]|?]; [|by left|].
  - destruct N. right. split; [lra|left; lra].
  - right. split; [done|]. intros L. apply N. right. split; [lra|right; split; [lra|done]].
Qed.

Lemma filter_always {A} (l : list A) : filter (λ _, true = true) l = l.
Proof. by induction l as [|x l IH]; [|rewrite filter_cons_True, IH]. Qed.

Lemma prefix_filter {A} (P : A → Prop) `{Hdec : !∀ x, Decision (P x)} n l :
  (∀ i x, l !! i = Some x → P x ↔ (i < n)%nat) → length (filter P l) = (n `min` length l)%nat.
Proof.
  revert n. induction l as [|x l IH]; intros n H; [by rewrite Nat.min_0_r|].
  rewrite filter_cons. pose proof (H 0%nat x eq_refl) as H0.
  destruct (decide (P x)) as [Hx|Hx]; destruct n as [|n]; try (apply H0 in Hx; lia).
  - cbn. f_equal. apply IH. intros i y Hi. rewrite (H (S i) y Hi). lia.
  - rewrite (IH 0%nat); [done|]. intros i y Hi. rewrite (H (S i) y Hi). lia.
  - destruct Hx. apply H0. lia.
Qed.

Section counts.
Context (sid spec_id : str) (session : Z) (ws : list SelectionSourceWindow).
Context (Hclosed : Forall closed_window ws).
Context (Hids : sw_exchange_instrument_id <$> ws ≡ₚ canonical_ids).
Context (Hstart : Forall (λ w, sw_input_window_start_ms w = session - 23 * HOUR_MS) ws).

#[local] Notation table := (entry <$> ws).
#[local] Notation D := (decision_of sid spec_id session ws).
#[local] Notation is_ready m := (sm_selection_ready m = true).

Lemma entry_features e : e ∈ table → features_of (of_window e.2) e.2.
Proof. intros He. by destruct (panel_entry session ws Hclosed Hids Hstart e He) as (_ & ? & _). Qed.

Lemma entry_ready e : e ∈ table → sm_selection_ready (D e) = is_none (of_reason e.2).
Proof. intros He. unfold decision_of. cbv zeta. apply decided_ready. by apply entry_features. Qed.

(** What is counted over the ready members is counted over the ready entries. *)
Lemma ready_count_filter (P : SelectionMemberDecision → bool) t :
  t ≡ₚ table →
  length (filter (λ m, P m = true) (filter (λ m, is_ready m) (D <$> t)))
  = length (filter (λ e, P (D e) = true) (ready_entries table)).
Proof.
  intros Ht. rewrite list_filter_filter, length_filter_fmap.
  unfold ready_entries. rewrite sort_by_perm, list_filter_filter, Ht.
  f_equal. assert (H : ∀ e, e ∈ table → e ∈ table) by done. revert H. generalize table at 1 3 4.
  intros l. induction l as [|e l IH]; [done|]. intros H. rewrite !filter_cons.
  assert (E : P (D e) = true ∧ sm_selection_ready (D e) = true ↔
              P (D e) = true ∧ is_none (of_reason e.2)).
  { rewrite entry_ready by (apply H; left). by rewrite Is_true_true. }
  specialize (IH (λ e' He', H e' (list_elem_of_further _ _ _ He'))).
  destruct (decide _), (decide _); cbn [length]; solve [tauto|congruence].
Qed.

Lemma entry_selected e : e ∈ table →
  sm_selected (D e) = true ↔ of_reason e.2 = None ∧
    (length (filter (λ y, ranks_before e y = false) (ready_entries table)) < 7)%nat.
Proof.
  intros He. pose proof (panel_keys ws Hids) as Hnd. unfold decision_of. cbv zeta. cbn [decided sm_selected].
  rewrite bool_decide_eq_true. destruct (of_reason e.2) as [r|] eqn:E.
  - cbn [member_state_of]. by split; [|intros [? _]].
  - rewrite rank_of_ready by done. cbn [member_state_of].
    destruct (Z.leb_spec (1 + Z.of_nat (length (filter (λ y, ranks_before e y = false) (ready_entries table)))) 7).
    + split; [intros _; split; [done|lia]|done].
    + split; [by case_match|]. intros [_ ?]. lia.
Qed.

Lemma entry_position e i : ready_entries table !! i = Some e →
  length (filter (λ y, ranks_before e y = false) (ready_entries table)) = i.
Proof.
  pose proof (panel_keys ws Hids) as Hnd. intros Hi. apply position_counts; [apply ranks_before_total| |done| |].
  - apply sort_by_sorted; [apply ranks_before_total|apply ranks_before_trans].
  - intros a b Ha Hb. unfold ready_entries in Ha, Hb. rewrite sort_by_perm in Ha, Hb.
    by apply (ready_separates table).
  - by apply (NoDup_fmap_1 fst), ready_entries_keys.
Qed.

Lemma selected_total t : t ≡ₚ table →
  length (filter (λ m, sm_selected m = true) (filter (λ m, is_ready m) (D <$> t)))
  = (7 `min` length (ready_entries table))%nat.
Proof.
  intros Ht. rewrite ready_count_filter by done. apply prefix_filter. intros i e Hi.
  assert (He : e ∈ ready_entries table) by by apply list_elem_of_lookup_2 in Hi.
  apply elem_of_ready in He as [Hr He]. rewrite entry_selected by done.
  rewrite (entry_position e i Hi). tauto.
Qed.

Lemma better_total t e : t ≡ₚ table → e ∈ table →
  length (filter (λ m, better m (D e) = true) (filter (λ m, is_ready m) (D <$> t)))
  = length (filter (λ y, ranks_before e y = false) (ready_entries table)).
Proof.
  intros Ht He. rewrite (ready_count_filter (λ m, better m (D e)) t Ht).
  assert (H : ∀ y, y ∈ ready_entries table → y ∈ table) by by intros y [_ ?]%elem_of_ready.
  revert H. generalize (ready_entries table). intros l. induction l as [|y l IH]; [done|]. intros H.
  specialize (IH (λ y' Hy', H y' (list_elem_of_further _ _ _ Hy'))). rewrite !filter_cons.
  rewrite (better_ranks sid spec_id session ws y e _ _ (entry_features y (H y ltac:(left))) (entry_features e He)).
  destruct (ranks_before e y); cbn [negb]; repeat case_decide; cbn [length]; congruence.
Qed.
End counts.


(** ** A sample day *)

Module SampleSelection.
Definition session : Z := 19000 * DAY_MS.
Definition kline (i : nat) : SelectionKline :=
  let t := session - 23 * HOUR_MS + Z.of_nat i * INTERVAL_MS in
  mkKline t (t + INTERVAL_MS) (of_int 100) (of_int 101) (of_int 99) (of_int 100) (of_int 300000).
Definition window (k : str) : SelectionSourceWindow :=
  mkWindow k (session - 23 * HOUR_MS) (session + HOUR_MS) (kline <$> seq 0 96).
Definition windows : list SelectionSourceWindow := window <$> canonical_ids.
Definition spec : SorDynamicSelectionSpecV0 :=
  mkSorSpec "sor-dynamic-selection-v0" SOR_STRATEGY_GROUP_ID SOR_STRATEGY_VERSION_ID SOR_EVENT_SPEC_IDS
    canonical_ids 3600 3600 4500 86400 96 4 14 ACTIVITY_FLOOR_QUOTE_USDT 7 7 38 algorithm_semantic_digest 1.
Definition period : SelectionPeriod :=
  mkSelectionPeriod session (session + HOUR_MS) (session + HOUR_MS) (session + 5 * INTERVAL_MS)
    (session + DAY_MS + HOUR_MS).

Lemma spec_ok : validate_SorDynamicSelectionSpecV0 spec = Ok spec.
Proof.
  unfold validate_SorDynamicSelectionSpecV0, sor_spec_checks, spec.
  cbn [ss_selection_spec_id ss_strategy_group_id ss_strategy_version_id ss_event_spec_ids
    ss_candidate_exchange_instrument_ids ss_decision_offset_utc_seconds ss_feature_cutoff_offset_utc_seconds
    ss_eligibility_not_before_offset_utc_seconds ss_valid_until_next_decision_offset_seconds
    ss_input_window_bars ss_opening_range_bars ss_pre_or_atr_bars ss_activity_floor_quote_usdt
    ss_selected_count_max ss_near_count_max ss_decimal_precision ss_algorithm_semantic_digest
    ss_installed_at_ms].
  generalize algorithm_semantic_digest. intros d. rewrite (bool_decide_eq_true_2 (d = d)) by reflexivity.
  vm_compute. reflexivity.
Qed.

Lemma period_ok : validate_SelectionPeriod period = Ok period.
Proof. vm_compute. reflexivity. Qed.

Lemma windows_closed : Forall closed_window windows.
Proof.
  apply Forall_fmap, Forall_forall. intros k Hk. split.
  - destruct (candidate_facts k Hk) as (Hs & _ & _ & Hf & _). unfold validate_SelectionSourceWindow.
    cbn [window sw_exchange_instrument_id sw_input_window_start_ms sw_feature_cutoff_at_ms sw_klines].
    rewrite Hs. rewrite bind_pass by (apply validate_fields_Ok; each_check ltac:(exact Hf)).
    rewrite bind_pass; [done|]. generalize k. intros k'. vm_compute. reflexivity.
  - cbn [window sw_klines]. apply Forall_fmap, Forall_forall. intros i Hi.
    apply list_elem_of_In, in_seq in Hi.
    assert (H : forallb (λ i, match validate_SelectionKline (kline i) with Ok _ => true | _ => false end)
      (seq 0 96) = true) by (vm_compute; reflexivity).
    rewrite forallb_forall in H. specialize (H i ltac:(apply in_seq; lia)). cbn beta in H. unfold compose.
    destruct (validate_SelectionKline (kline i)) as [k'|] eqn:E; [|done].
    unfold validate_SelectionKline in E. apply bind_Ok in E as (? & _ & E). apply Ok_inj in E. congruence.
Qed.

Lemma windows_named : sw_exchange_instrument_id <$> windows = canonical_ids.
Proof. unfold windows. rewrite <- list_fmap_compose. apply list_fmap_id. Qed.

Lemma windows_placed :
  Forall (λ w, sw_input_window_start_ms w = sp_session_start_ms period - 23 * HOUR_MS ∧
               sw_feature_cutoff_at_ms w = sp_feature_cutoff_at_ms period) windows.
Proof. apply Forall_fmap, Forall_true. by intros k. Qed.

Definition at_ms : Z := session + HOUR_MS + 5000.
End SampleSelection.

Lemma daily_selection_answers_witness :
  ∃ c, run_sor_dynamic_selection_v0 SampleSelection.spec SampleSelection.period SampleSelection.windows
         SampleSelection.at_ms SampleSelection.at_ms SampleSelection.at_ms = Ok c ∧
       sm_exchange_instrument_id <$> co_member_decisions c = canonical_ids.
Proof.
  apply (daily_selection_answers SampleSelection.spec SampleSelection.period SampleSelection.windows).
  - exact SampleSelection.spec_ok.
  - exact SampleSelection.period_ok.
  - exact SampleSelection.windows_closed.
  - rewrite SampleSelection.windows_named. reflexivity.
  - exact SampleSelection.windows_placed.
  - vm_compute. discriminate.
Defined.

Lemma selection_order_irrelevant_witness :
  run_sor_dynamic_selection_v0 SampleSelection.spec SampleSelection.period SampleSelection.windows
    SampleSelection.at_ms SampleSelection.at_ms SampleSelection.at_ms
  = run_sor_dynamic_selection_v0 SampleSelection.spec SampleSelection.period
      (reverse SampleSelection.windows) SampleSelection.at_ms SampleSelection.at_ms SampleSelection.at_ms.
Proof.
  apply (selection_order_irrelevant SampleSelection.spec SampleSelection.period SampleSelection.windows).
  - exact SampleSelection.windows_closed.
  - symmetry. apply reverse_Permutation.
Defined.


(** ** The hourly session's clocks and selection

    The next close an hourly grant may take, and that the hourly selection
    chooses the members the daily selection chooses. *)

#[local] Arguments strip : simpl never.
#[local] Arguments blank : simpl never.

(** ** Clocks *)

Lemma orb_period_built session :
  0 < session → session mod DAY_MS = 0 →
  build_orb_session_period session
  = Ok (mkOrbPeriod session (session + HOUR_MS) (session + HOUR_MS) (session + 2 * HOUR_MS)
          (session + DAY_MS + HOUR_MS) (session + DAY_MS)).
Proof.
  intros H Hm. unfold build_orb_session_period, validate_OrbSessionPeriod. rewrite bind_pass; [done|].
  apply validate_model_Ok. unfold orb_period_checks. cbv zeta.
  cbn [op_session_start_ms op_feature_cutoff_at_ms op_prepare_not_before_ms op_eligibility_not_before_ms
    op_snapshot_expires_at_ms op_trading_expires_at_ms].
  rewrite bool_decide_eq_true_2 by done. each_check lia.
Qed.

(** The closes an hourly grant made at [now] may take in a session. *)
Definition eligible_close (session now t : Z) : Prop :=
  t mod HOUR_MS = 0 ∧ now < t ∧ session + 2 * HOUR_MS <= t < session + DAY_MS.

(** The next close of an hourly grant is the earliest eligible one, and there is
    none exactly when no close is eligible. *)
Theorem next_close_is_the_earliest session now :
  0 < session → session mod DAY_MS = 0 → session <= now →
  ∃ next, next_orb_eligible_close session now = Ok next ∧
    match next with
    | Some t => eligible_close session now t ∧ ∀ t', eligible_close session now t' → t <= t'
    | None => ∀ t', ¬ eligible_close session now t'
    end.
Proof.
  intros Hs Hm Hn. unfold next_orb_eligible_close. rewrite orb_period_built by done.
  cbn [mbind result_bind op_session_start_ms op_eligibility_not_before_ms op_trading_expires_at_ms].
  rewrite raise_if_pass by lia. cbn [mbind result_bind mret result_ret]. cbv zeta.
  eexists. split; [done|]. set (first := Z.max _ _).
  assert (Hmod : session mod HOUR_MS = 0) 
    by (apply Z.mod_divide in Hm as [k ->]; [|done]; change DAY_MS with (24 * HOUR_MS); rewrite Z.mul_assoc; apply Z_mod_mult).
  assert (Hfirst : first mod HOUR_MS = 0 ∧ now < first ∧ session + 2 * HOUR_MS <= first ∧
    ∀ t', eligible_close session now t' → first <= t').
  { unfold first, eligible_close. clear first. set (b := (now / HOUR_MS + 1) * HOUR_MS).
    assert (Hb : b mod HOUR_MS = 0 ∧ now < b ∧ ∀ t', t' mod HOUR_MS = 0 → now < t' → b <= t').
    { unfold b, HOUR_MS. split; [apply Z_mod_mult|].
      split; [pose proof (Z.div_mod now 3600000); pose proof (Z.mod_pos_bound now 3600000); lia|]. intros t' Ht Hlt.
      apply Z.mod_divide in Ht as [k ->]; [|done]. assert (now / 3600000 < k) by (apply Z.div_lt_upper_bound; lia). lia. }
    assert (Ha : (session + 2 * HOUR_MS) mod HOUR_MS = 0) by (rewrite Z_mod_plus_full; done).
    destruct Hb as (Hb1 & Hb2 & Hb3). destruct (Z.max_spec (session + 2 * HOUR_MS) b) as [[? ->]|[? ->]].
    - split_and!; [done|done|lia|]. intros t' (? & ? & ?). by apply Hb3.
    - split_and!; [done|lia|lia|]. intros t' (? & ? & ?). lia. }
  destruct Hfirst as (H1 & H2 & H3 & H4). destruct (Z.ltb_spec first (session + DAY_MS)).
  - split; [by split_and!|done].
  - intros t' Ht. specialize (H4 t' Ht). unfold eligible_close in Ht. lia.
Qed.

(** For the hourly selection the daily clock gives the hourly one, and refuses
    where there is none. *)
Theorem daily_clock_is_the_hourly_clock session now :
  0 < session → session mod DAY_MS = 0 → session <= now →
  next_daily_eligible_close ORB_SELECTION_SPEC_ID session now
  = next ← next_orb_eligible_close session now;
    match next with
    | Some t => mret t
    | None => Raise (ValueError "NO_ELIGIBLE_CLOSE_BEFORE_SESSION_END")
    end.
Proof.
  intros Hs Hm Hn. unfold next_orb_eligible_close. rewrite orb_period_built by done.
  cbn [mbind result_bind op_session_start_ms op_eligibility_not_before_ms op_trading_expires_at_ms].
  rewrite raise_if_pass by lia. unfold next_daily_eligible_close, daily_first_offset_ms, daily_entry_interval_ms.
  cbn [mbind result_bind mret result_ret].
  change (daily_event_spec_ids ORB_SELECTION_SPEC_ID)
    with (Ok (ORB_LONG_EVENT_SPEC_ID, ORB_SHORT_EVENT_SPEC_ID)).
  cbn [mbind result_bind mret result_ret]. rewrite !bool_decide_eq_true_2 by done.
  rewrite Z.eqb_refl. cbv zeta. cbn [andb]. unfold raise_if.
  destruct (Z.ltb_spec (Z.max (session + 2 * HOUR_MS) ((now / HOUR_MS + 1) * HOUR_MS)) (session + DAY_MS)).
  - destruct (Z.geb_spec (Z.max (session + 2 * HOUR_MS) ((now / HOUR_MS + 1) * HOUR_MS)) (session + DAY_MS)); [lia|done].
  - destruct (Z.geb_spec (Z.max (session + 2 * HOUR_MS) ((now / HOUR_MS + 1) * HOUR_MS)) (session + DAY_MS)); [done|lia].
Qed.

(** ** The members of both selections *)

Lemma keyed_lists_equal {A} (t t' T : list (str * A)) :
  NoDup T.*1 → t ≡ₚ T → t' ≡ₚ T → t.*1 = t'.*1 → t = t'.
Proof.
  intros Hnd Ht Ht' Hk. assert (Hin : ∀ e, e ∈ t → e ∈ T) by (intros e; by rewrite Ht).
  assert (Hin' : ∀ e, e ∈ t' → e ∈ T) by (intros e; by rewrite Ht'). clear Ht Ht'.
  revert t' Hk Hin'. induction t as [|e t IH]; intros [|e' t'] Hk Hin'; try done.
  cbn in Hk. injection Hk as Hk1 Hk2. f_equal.
  - by apply (keys_separate T); [|apply Hin; left|apply Hin'; left|].
  - apply IH; [|done|]; intros x Hx; [apply Hin|apply Hin']; by right.
Qed.

Lemma substring_no_space n m s : no_space s = true → no_space (String.substring n m s) = true.
Proof.
  revert n m. induction s as [|c s IH]; intros [|n] [|m] H; cbn in *; try done;
    apply andb_true in H as [Hc Hs].
  - rewrite Hc. cbn. by apply (IH 0%nat).
  - by apply IH.
  - by apply IH.
Qed.

Lemma orb_identity_snapshot epoch session : snapshot_identity (orb_identity_of epoch session).
Proof.
  unfold orb_identity_of. cbv zeta. split; [|eexists "s"%char, _; split; [reflexivity|done]].
  apply strip_no_space. rewrite no_space_append. apply andb_true. split; [done|].
  apply substring_no_space, digest_no_space, json_digest_ok.
Qed.

Lemma orb_inputs spec period epoch ws decision_at observed created c :
  compute_orb_selection spec period epoch ws decision_at observed created = Ok c →
  let session := op_session_start_ms period in
  0 < session ∧ session mod DAY_MS = 0 ∧ sw_exchange_instrument_id <$> ws ≡ₚ canonical_ids ∧
  Forall (λ w, sw_input_window_start_ms w = session - 23 * HOUR_MS) ws ∧
  ∃ ready, compute_opening_range_member_decisions ws (orb_identity_of epoch session) ORB_SELECTION_SPEC_ID
    session (session + HOUR_MS) = Ok (oc_member_decisions c, ready).
Proof.
  intros H session. unfold compute_orb_selection in H.
  apply bind_Ok in H as (s & Hspec & H). apply bind_Ok in H as (p & Hperiod & H).
  apply bind_Ok in H as (u & _ & H). apply bind_Ok in H as (u' & Hpanel & H).
  apply bind_Ok in H as (sid & Hsid & H). apply bind_Ok in H as ([ds ready] & Hds & H).
  apply bind_Ok in H as (snapshot & _ & H).
  unfold validate_OrbSessionSelectionSpec in Hspec. apply bind_Ok in Hspec as (? & Hs & Hspec). apply Ok_inj in Hspec.
  subst s. unfold validate_OrbSessionPeriod in Hperiod. apply bind_Ok in Hperiod as (? & Hp & Hperiod).
  apply Ok_inj in Hperiod. subst p. fold session in Hds, Hsid.
  apply validate_model_Ok, Forall_cons in Hs as [Hs _]. cbn [fst] in Hs. apply orb_false in Hs as [_ Hs].
  apply negb_false, bool_decide_eq_true_1 in Hs.
  apply validate_model_Ok, Forall_cons in Hp as [Hp _]. cbn [fst] in Hp. fold session in Hp.
  apply orb_false in Hp as [Hp Hclk]. apply negb_false, bool_decide_eq_true_1 in Hclk.
  injection Hclk as Hcut _ _ _ _. apply raise_if_Ok in Hpanel. unfold orb_panel_refused in Hpanel.
  apply orb_false in Hpanel as [Hsort Hwin]. apply negb_false, bool_decide_eq_true_1 in Hsort.
  unfold orb_snapshot_identity in Hsid. apply bind_Ok in Hsid as (? & _ & Hsid). apply Ok_inj in Hsid. subst sid.
  split; [lia|]. split; [lia|]. split.
  { unfold canonical_ids. rewrite <- Hs, <- Hsort. unfold sorted. by rewrite sort_by_perm. }
  split.
  - apply List.Forall_forall. intros w Hw. apply not_true_iff_false in Hwin.
    destruct (Z.eqb_spec (sw_input_window_start_ms w) (session - 23 * HOUR_MS)) as [|Hne]; [done|].
    destruct Hwin. apply existsb_exists. exists w. split; [done|]. apply orb_true_iff. left.
    fold session. apply Z.eqb_neq in Hne. by rewrite Hne.
  - exists ready. rewrite Hcut in Hds. rewrite Hds. unfold validate_OrbSessionSelectionComputation in H.
    apply bind_Ok in H as (? & _ & H). apply Ok_inj in H. by subst c.
Qed.

(** What a member decision says of its instrument, its identities aside. *)
Definition choice (m : SelectionMemberDecision) :=
  (sm_exchange_instrument_id m, sm_input_window_digest m, sm_pre_or_width_atr14 m, sm_selection_ready m,
   sm_primary_reason m, sm_stable_rank m, sm_member_state m, sm_selected m).

(** On the same windows the hourly selection makes the choices of the daily one:
    the same readiness, reasons, ranks, states and selected members. *)
Theorem hourly_selection_chooses_the_same spec period ospec operiod epoch ws d o k d' o' k' c c' :
  validate_SorDynamicSelectionSpecV0 spec = Ok spec → validate_SelectionPeriod period = Ok period →
  Forall closed_window ws → op_session_start_ms operiod = sp_session_start_ms period →
  run_sor_dynamic_selection_v0 spec period ws d o k = Ok c →
  compute_orb_selection ospec operiod epoch ws d' o' k' = Ok c' →
  choice <$> oc_member_decisions c' = choice <$> co_member_decisions c.
Proof.
  intros Hspec Hperiod Hclosed Hsession Hrun Horb.
  assert (Hpanel : require_source (panel_checks spec period ws) = Ok tt).
  { unfold run_sor_dynamic_selection_v0 in Hrun. apply bind_Ok in Hrun as ([] & H & _). exact H. }
  destruct (run_result spec period ws d o k Hspec Hperiod Hclosed Hpanel) as (t & Ht & Hk & _ & Hc).
  specialize (Hc c Hrun). rewrite Hc. cbn [co_member_decisions].
  destruct (orb_inputs _ _ _ _ _ _ _ _ Horb) as (Hp & Hm & Hids & Hstart & ready & Hds).
  destruct (panel_decisions (orb_identity_of epoch (op_session_start_ms operiod)) ORB_SELECTION_SPEC_ID
    (op_session_start_ms operiod) ws (orb_identity_snapshot _ _) eq_refl ltac:(done) Hp Hm Hclosed Hids Hstart)
    as (t' & Ht' & Hk' & E).
  rewrite E in Hds. apply Ok_inj in Hds. injection Hds as Hds _. rewrite <- Hds.
  assert (t' = t) as ->.
  { apply (keyed_lists_equal t' t (entry <$> ws)); [by apply panel_keys|done|done|by rewrite Hk, Hk']. }
  rewrite <- !list_fmap_compose. by apply list_fmap_ext.
Qed.

(** ** The hourly selection answers *)

Section orb_run.
Context (session : Z) (epoch : str) (ws : list SelectionSourceWindow) (d o k : Z).
Context (Hsession : 0 < session) (Hday : session mod DAY_MS = 0) (Hepoch : orb_epoch_refused epoch = false).
Context (Hclosed : Forall closed_window ws) (Hids : sw_exchange_instrument_id <$> ws ≡ₚ canonical_ids).
Context (Hplaced : Forall (λ w, sw_input_window_start_ms w = session - 23 * HOUR_MS ∧
                               sw_feature_cutoff_at_ms w = session + HOUR_MS) ws).
Context (Hclocks : session + HOUR_MS <= d <= o ∧ o <= k < session + DAY_MS + HOUR_MS).

Definition orb_spec : OrbSessionSelectionSpec := mkOrbSpec ORB_EVENT_SPEC_IDS canonical_ids.
Definition orb_period : OrbSessionPeriod :=
  mkOrbPeriod session (session + HOUR_MS) (session + HOUR_MS) (session + 2 * HOUR_MS)
    (session + DAY_MS + HOUR_MS) (session + DAY_MS).

Lemma orb_panel_accepted : orb_panel_refused orb_spec orb_period ws = false.
Proof.
  unfold orb_panel_refused. destruct canonical_facts as (_ & _ & Hsorted).
  rewrite (sorted_perm _ _ Hids), Hsorted, bool_decide_eq_true_2 by done. cbn [negb orb].
  apply existsb_false. eapply Forall_impl; [exact Hplaced|]. intros w [-> ->].
  cbn [orb_period op_session_start_ms op_feature_cutoff_at_ms]. by rewrite !Z.eqb_refl.
Qed.

Lemma orb_snapshot_passes decisions ready :
  0 <= ready <= 24 →
  let s := mkOrbSnapshot (orb_identity_of epoch session) epoch session (session + HOUR_MS)
    (session + 2 * HOUR_MS) (session + DAY_MS + HOUR_MS) d o k ready (Z.min 7 ready)
    (orb_source_digest decisions) (orb_computation_digest orb_spec epoch orb_period decisions) in
  validate_OrbSessionSelectionSnapshot s = Ok s.
Proof.
  intros Hr. cbv zeta. unfold validate_OrbSessionSelectionSnapshot.
  cbn [on_source_semantic_digest on_selection_semantic_digest on_session_start_ms fmap list_fmap].
  unfold orb_source_digest, orb_computation_digest, canonical_digest.
  rewrite bind_pass by (apply validate_fields_Ok; rewrite !(digest_shaped (json_digest _ _)) by apply json_digest_ok;
    each_check done).
  rewrite orb_period_built by done. cbn [mbind result_bind]. rewrite bind_pass; [done|].
  apply validate_model_Ok. unfold orb_snapshot_checks.
  cbn [on_selection_epoch_id on_selection_snapshot_id on_session_start_ms on_feature_cutoff_at_ms
    on_eligibility_not_before_ms on_expires_at_ms on_decision_at_ms on_source_observed_at_ms on_created_at_ms
    on_ready_count on_selected_count on_source_semantic_digest on_selection_semantic_digest
    op_feature_cutoff_at_ms op_eligibility_not_before_ms op_snapshot_expires_at_ms existsb].
  assert (Hd : ∀ v, negb (len (json_digest false v) =? 71) || negb (startswith (json_digest false v) "sha256:") = false).
  { intros v. pose proof (digest_shaped _ (json_digest_ok false v)) as H. unfold sha256_shaped in H.
    apply andb_true in H as [H _]. apply andb_true in H as [-> ->]. done. }
  rewrite !Hd, Hepoch, !bool_decide_eq_true_2 by done.
  each_check ltac:(first [done|lia]).
Qed.

Lemma orb_answers :
  ∃ c, compute_orb_selection orb_spec orb_period epoch ws d o k = Ok c.
Proof.
  assert (Hstart : Forall (λ w, sw_input_window_start_ms w = session - 23 * HOUR_MS) ws).
  { eapply Forall_impl; [exact Hplaced|]. by intros w [? _]. }
  destruct (panel_decisions (orb_identity_of epoch session) ORB_SELECTION_SPEC_ID session ws
    (orb_identity_snapshot _ _) eq_refl ltac:(done) Hsession Hday Hclosed Hids Hstart) as (t & Ht & Hk & E).
  assert (Hready : 0 <= Z.of_nat (length (ready_ids (entry <$> ws))) <= 24).
  { split; [lia|]. pose proof (ready_ids_bound ws Hids). lia. }
  unfold compute_orb_selection, validate_OrbSessionSelectionSpec. cbn [orb_spec os_event_spec_ids os_candidate_ids].
  rewrite bind_pass by (apply validate_model_Ok; rewrite !bool_decide_eq_true_2 by done; each_check done).
  cbn [mbind result_bind mret result_ret]. fold orb_spec.
  pose proof (orb_period_built session Hsession Hday) as Hperiod. unfold build_orb_session_period in Hperiod.
  cbv zeta in Hperiod. fold orb_period in Hperiod. rewrite Hperiod. cbn [mbind result_bind].
  unfold orb_snapshot_identity, require_orb_epoch. rewrite Hepoch, orb_panel_accepted.
  cbn [raise_if mbind result_bind mret result_ret orb_period op_session_start_ms op_feature_cutoff_at_ms
    op_eligibility_not_before_ms op_snapshot_expires_at_ms]. fold orb_period.
  rewrite E. cbn [mbind result_bind]. rewrite orb_snapshot_passes by done. cbn [mbind result_bind].
  eexists. unfold validate_OrbSessionSelectionComputation. rewrite bind_pass; [reflexivity|].
  apply validate_model_Ok. cbv zeta. cbn [oc_snapshot oc_member_decisions on_selection_snapshot_id on_session_start_ms].
  rewrite bool_decide_eq_true_2 by (rewrite <- list_fmap_compose; exact Hk).
  rewrite (proj2 (existsb_false _ _)); [each_check done|]. apply Forall_fmap, Forall_true. intros e.
  cbn. rewrite !bool_decide_eq_true_2 by done. by rewrite Z.eqb_refl.
Qed.
End orb_run.

(** ** A sample day *)

Lemma next_close_is_the_earliest_witness :
  ∃ next, next_orb_eligible_close SampleSelection.session (SampleSelection.session + 5 * HOUR_MS + 1) = Ok next ∧
    match next with
    | Some t => eligible_close SampleSelection.session (SampleSelection.session + 5 * HOUR_MS + 1) t ∧
        ∀ t', eligible_close SampleSelection.session (SampleSelection.session + 5 * HOUR_MS + 1) t' → t <= t'
    | None => ∀ t', ¬ eligible_close SampleSelection.session (SampleSelection.session + 5 * HOUR_MS + 1) t'
    end.
Proof. apply next_close_is_the_earliest; [done|done|vm_compute; discriminate]. Defined.

Lemma daily_clock_is_the_hourly_clock_witness :
  next_daily_eligible_close ORB_SELECTION_SPEC_ID SampleSelection.session SampleSelection.session
  = next ← next_orb_eligible_close SampleSelection.session SampleSelection.session;
    match next with
    | Some t => mret t
    | None => Raise (ValueError "NO_ELIGIBLE_CLOSE_BEFORE_SESSION_END")
    end.
Proof. apply daily_clock_is_the_hourly_clock; [done|done|vm_compute; discriminate]. Defined.

Lemma hourly_selection_chooses_the_same_witness :
  ∃ c c',
    run_sor_dynamic_selection_v0 SampleSelection.spec SampleSelection.period SampleSelection.windows
      SampleSelection.at_ms SampleSelection.at_ms SampleSelection.at_ms = Ok c ∧
    compute_orb_selection orb_spec (orb_period SampleSelection.session) "orb-epoch-1" SampleSelection.windows
      SampleSelection.at_ms SampleSelection.at_ms SampleSelection.at_ms = Ok c' ∧
    choice <$> oc_member_decisions c' = choice <$> co_member_decisions c.
Proof.
  assert (Hids : sw_exchange_instrument_id <$> SampleSelection.windows ≡ₚ canonical_ids)
    by (rewrite SampleSelection.windows_named; reflexivity).
  destruct (run_answers SampleSelection.spec SampleSelection.period SampleSelection.windows
    SampleSelection.at_ms SampleSelection.at_ms SampleSelection.at_ms SampleSelection.spec_ok
    SampleSelection.period_ok SampleSelection.windows_closed Hids
    SampleSelection.windows_placed ltac:(vm_compute; discriminate)) as (c & Hc & _).
  assert (Hclocks : SampleSelection.session + HOUR_MS <= SampleSelection.at_ms <= SampleSelection.at_ms ∧
    SampleSelection.at_ms <= SampleSelection.at_ms < SampleSelection.session + DAY_MS + HOUR_MS)
    by (unfold SampleSelection.at_ms, SampleSelection.session, HOUR_MS, DAY_MS; lia).
  destruct (orb_answers SampleSelection.session "orb-epoch-1" SampleSelection.windows
    SampleSelection.at_ms SampleSelection.at_ms SampleSelection.at_ms
    ltac:(done) ltac:(done) ltac:(vm_compute; reflexivity) SampleSelection.windows_closed Hids
    SampleSelection.windows_placed Hclocks) as (c' & Hc').
  exists c, c'. split; [exact Hc|]. split; [exact Hc'|].
  exact (hourly_selection_chooses_the_same SampleSelection.spec SampleSelection.period orb_spec
    (orb_period SampleSelection.session) "orb-epoch-1" SampleSelection.windows
    SampleSelection.at_ms SampleSelection.at_ms SampleSelection.at_ms
    SampleSelection.at_ms SampleSelection.at_ms SampleSelection.at_ms c c' SampleSelection.spec_ok
    SampleSelection.period_ok SampleSelection.windows_closed eq_refl Hc Hc').
Defined.
