(* ===== verification/ProduceProperties.v ===== *)
(** * What signal production guarantees

    A triggered result of a registered detector, in an active scope, becomes a
    validated signal, and the protection reference the Claim builder reads off
    it lies on the protective side of the close it triggered on. *)

From Stdlib Require Import QArith Lqa.
From S2P Require Import Prelude PyString Sha256 PyDecimal DecimalFacts Identities Ticket.
From S2P Require Import StrategyRegistry ExitPolicy Admission Signal DecimalText Product Market Detector.
From S2P Require Import Detectors ProduceSignal Capacity Arbitration BuildClaim Catalog DetectorFacts.
#[local] Open Scope Z_scope.
#[local] Arguments strip : simpl never.
#[local] Arguments blank : simpl never.

Lemma min_ms_spec t l :
  l ≠ [] → Forall (λ x, t < x) l → ∃ m, min_ms l = Ok m ∧ t < m ∧ Forall (λ x, m ≤ x) l.
Proof.
  destruct l as [|x l]; [done|]. intros _ [Hx Hl]%Forall_cons. cbn. eexists. split; [done|].
  revert x Hx. induction Hl as [|y l Hy Hl IH]; intros x Hx; cbn.
  - split; [done|]. by repeat constructor.
  - destruct (IH (Z.min x y)) as [H1 H2]; [lia|]. split; [done|].
    apply Forall_cons in H2 as [H2 H3]. repeat (apply Forall_cons; split; [lia|]). exact H3.
Qed.

Lemma max_ms_spec t l :
  Forall (λ x, x ≤ t) l → Exists (λ x, x = t) l → max_ms l = Ok t.
Proof.
  destruct l as [|x l]; [by intros _ ?%Exists_nil|]. cbn. intros [Hx Hl]%Forall_cons H. f_equal.
  revert x Hx H. induction Hl as [|y l Hy Hl IH]; intros x Hx H; cbn.
  - apply Exists_cons in H as [->|[]%Exists_nil]. done.
  - apply IH; [lia|]. rewrite !Exists_cons in H. rewrite Exists_cons. 
    destruct H as [->|[->|H]]; [left; lia|left; lia|by right].
Qed.

Lemma signal_digest_named prefix v :
  no_space prefix = true → strip (signal_digest prefix v) = signal_digest prefix v.
Proof.
  intros Hp. apply strip_no_space. unfold signal_digest. rewrite !no_space_append, Hp.
  rewrite (hex_no_space (sha256_hexdigest _)) by apply hexdigest_is_hex. done.
Qed.

(** ** From a sound report to a signal *)

(** The parts of a constructed contract a signal copies. *)
Record contract_identity (c : RegisteredStrategyContract) : Prop := {
  identity_group : blank (sc_strategy_group_id c) = false;
  identity_version : blank (sc_strategy_version_id c) = false;
  identity_event : blank (sc_event_spec_id c) = false
}.

(** The parts of an active scope a signal copies. *)
Record scope_identity (scope : RuntimeScopeSnapshot) : Prop := {
  scope_id : blank (rs_runtime_scope_id scope) = false;
  scope_universe : blank (rs_universe_version_id scope) = false;
  scope_instrument : blank (rs_exchange_instrument_id scope) = false;
  scope_digest : is_sha256_digest (strip (rs_universe_semantic_digest scope)) = true;
  scope_positive : 0 < rs_scope_version scope
}.

(** The Episode argument a caller owes: an identity for a rising-edge Event,
    none for a session Event. *)
Definition episode_argument (c : RegisteredStrategyContract) (episode : option str) : Prop :=
  match sc_episode_policy c with
  | rising_edge => ∃ id, episode = Some id ∧ startswith (strip id) "episode:" = true
  | session_reference => episode = None
  end.

Lemma starts_not_blank s p : p ≠ EmptyString → startswith (strip s) p = true → blank s = false.
Proof.
  intros Hp H. apply blank_false. intros E. rewrite E in H. destruct p; done.
Qed.

Lemma episode_resolved c scope trigger p facts episode :
  sound_report c trigger p facts → episode_argument c episode →
  ∃ refs id,
    map_result (λ f, canonical_reference (sf_value f))
      (filter (λ f, sf_role f = role_identity_reference) facts) = Ok refs ∧
    resolve_episode c scope refs episode = Ok id ∧ blank id = false.
Proof.
  intros Hs He. pose proof (rp_identity _ _ _ _ Hs) as Hi. unfold episode_argument in He.
  unfold resolve_episode. destruct (sc_episode_policy c) eqn:Ep.
  - destruct He as (e & -> & Hid). rewrite Hi. exists [], (strip e). split; [done|].
    cbn [default from_option id].
    rewrite bind_pass by (apply raise_if_pass; by rewrite Hid).
    split; [done|]. apply starts_not_blank with "episode:"; [done|].
    by rewrite strip_idemp.
  - subst episode. destruct Hi as (f & d & -> & Hd).
    exists [format_f (normalize d)]. eexists. split.
    + cbn [map_result]. unfold canonical_reference. by rewrite Hd.
    + rewrite bool_decide_eq_false_2 by done. cbn [is_none negb raise_if mbind result_bind].
      split; [done|]. apply blank_false. rewrite signal_digest_named by done. done.
Qed.

Lemma digest_built facts :
  sort_facts facts = facts → bool_decide (NoDup (sf_fact_definition_id <$> facts)) = true →
  ∃ d, build_signal_fact_digest facts = Ok d ∧ is_sha256_digest d = true ∧ strip d = d.
Proof.
  intros Hs Hn. unfold build_signal_fact_digest. rewrite Hs, Hn. cbv zeta.
  eexists. split; [done|]. split; [apply json_digest_ok|apply digest_strip, json_digest_ok].
Qed.

Lemma bundle_accepted c trigger p facts :
  sound_report c trigger p facts → (fact_bundle_check facts).1 = false.
Proof.
  intros Hs. unfold fact_bundle_check. cbv zeta. rewrite (rp_sorted _ _ _ _ Hs), (rp_unique _ _ _ _ Hs).
  destruct (rp_protection _ _ _ _ Hs) as (f & -> & _). destruct facts as [|f0 facts].
  { by destruct (proj1 (Exists_nil _) (rp_current _ _ _ _ Hs)). }
  pose proof (rp_eligible _ _ _ _ Hs) as He. revert He. generalize (f0 :: facts). intros l He.
  assert (H1 : existsb (λ f, is_disable f && sf_satisfied f) l = false).
  { induction He as [|x l Hx He IH]; [done|]. cbn. rewrite Hx, IH. by destruct (is_disable x). }
  assert (H2 : existsb (λ f, negb (is_disable f) && negb (sf_satisfied f)) l = false).
  { induction He as [|x l Hx He IH]; [done|]. cbn in *. apply orb_false_iff in H1 as [_ H1].
    rewrite Hx, (IH H1). by destruct (is_disable x). }
  rewrite H1, H2. reflexivity.
Qed.

Lemma window_accepted c trigger p facts expires :
  sound_report c trigger p facts → Forall (λ x, expires ≤ x) (sf_valid_until_ms <$> facts) →
  existsb (λ f, (trigger <? sf_observed_at_ms f) || (sf_valid_until_ms f <? expires)) facts = false.
Proof.
  intros Hs Hx. pose proof (rp_window _ _ _ _ Hs) as Hw. clear Hs.
  induction Hw as [|f facts Hf Hw IH]; [done|]. apply Forall_cons in Hx as [Hx Hxs]. cbn.
  rewrite (IH Hxs). lia.
Qed.

Lemma sound_report_signals c s r p scope episode auth :
  contract_identity c → scope_identity scope → scope_serves c scope = true → episode_argument c episode →
  0 < mk_trigger_candle_close_time_ms s → dr_event_spec_id r = sc_event_spec_id c →
  detector_triggered r = true → dr_occurred_at_ms r = Some (mk_trigger_candle_close_time_ms s) →
  (0 < dval p)%Q → sound_report c (mk_trigger_candle_close_time_ms s) p (dr_facts r) →
  ∃ sg, produce_strategy_signal c scope r (dr_facts r) episode auth = Ok sg ∧
    protection_reference sg = Some p ∧ sg_facts sg = dr_facts r ∧
    sg_occurred_at_ms sg = mk_trigger_candle_close_time_ms s ∧
    sg_observed_at_ms sg = mk_trigger_candle_close_time_ms s ∧
    mk_trigger_candle_close_time_ms s < sg_expires_at_ms sg.
Proof.
  intros [C1 C2 C3] [S1 S2 S3 S4 S5] Hserves He Ht Hev Htr Hocc Hp Hs.
  set (t := mk_trigger_candle_close_time_ms s) in *.
  destruct (episode_resolved c scope t p (dr_facts r) episode Hs He) as (refs & eid & Hrefs & Heid & Hb).
  destruct (digest_built (dr_facts r) (rp_sorted _ _ _ _ Hs) (rp_unique _ _ _ _ Hs)) as (fd & Hfd & Hfd1 & Hfd2).
  destruct (min_ms_spec t (sf_valid_until_ms <$> dr_facts r)) as (x & Hx & Htx & Hxs).
  { intros E. apply fmap_nil_inv in E. pose proof (rp_current _ _ _ _ Hs) as H. rewrite E in H.
    by apply Exists_nil in H. }
  { apply Forall_fmap. eapply Forall_impl; [exact (rp_window _ _ _ _ Hs)|]. cbn. lia. }
  assert (Ho : max_ms (sf_observed_at_ms <$> dr_facts r) = Ok t).
  { apply max_ms_spec.
    - apply Forall_fmap. eapply Forall_impl; [exact (rp_window _ _ _ _ Hs)|]. cbn. lia.
    - apply Exists_fmap. exact (rp_current _ _ _ _ Hs). }
  unfold produce_strategy_signal. rewrite Htr, Hocc.
  rewrite bind_pass by (apply raise_if_pass; rewrite Hserves, bool_decide_eq_true_2 by done; done).
  rewrite bind_pass by (apply raise_if_pass; by rewrite (rp_identities _ _ _ _ Hs)).
  cbv zeta. rewrite (rp_sorted _ _ _ _ Hs), Hfd. cbn [mbind result_bind].
  rewrite Hx. cbn [mbind result_bind]. rewrite Hrefs. cbn [mbind result_bind].
  rewrite Heid. cbn [mbind result_bind]. rewrite Ho. cbn [mbind result_bind].
  unfold validate_StrategySignal.
  cbn [sg_signal_event_id sg_exposure_episode_id sg_runtime_scope_id sg_runtime_scope_version
       sg_strategy_group_id sg_strategy_version_id sg_event_spec_id sg_universe_version_id
       sg_universe_semantic_digest sg_exchange_instrument_id sg_position_side sg_fact_digest
       sg_occurred_at_ms sg_observed_at_ms sg_expires_at_ms sg_facts sg_selection_authority_id].
  rewrite bind_pass.
  2:{ apply validate_fields_Ok. cbn [fmap list_fmap app].
      repeat (apply List.Forall_cons; [cbn [fst]|]); [..|apply List.Forall_nil].
      - apply blank_false. by rewrite signal_digest_named.
      - done. - done. - done. - done. - done. - done. - done.
      - by rewrite Hfd2, Hfd1. 
      - by rewrite S4.
      - lia.
      - by apply (bundle_accepted c t p). }
  cbv zeta. rewrite (rp_sorted _ _ _ _ Hs), Hfd2. rewrite bind_pass.
  2:{ apply validate_model_Ok. unfold signal_model_checks.
      cbn [sg_occurred_at_ms sg_observed_at_ms sg_expires_at_ms sg_facts sg_fact_digest].
      repeat (apply List.Forall_cons; [cbn [fst]|]); [..|apply List.Forall_nil].
      - lia.
      - by apply (window_accepted c t p).
      - by rewrite Hfd, bool_decide_eq_true_2. }
  eexists. split; [done|]. cbn [sg_facts sg_occurred_at_ms sg_observed_at_ms sg_expires_at_ms].
  split_and!; try done. unfold protection_reference. cbn [sg_facts].
  destruct (rp_protection _ _ _ _ Hs) as (f & -> & Hf). unfold positive_decimal_value. rewrite Hf.
  by rewrite (proj2 (dltb_spec _ _)).
Qed.

(** ** The contracts of the catalog *)

Lemma catalog_identity c : c ∈ contracts → contract_identity c.
Proof.
  intros Hc.
  assert (H : forallb (λ c, negb (blank (sc_strategy_group_id c)) && negb (blank (sc_strategy_version_id c))
                            && negb (blank (sc_event_spec_id c))) contracts = true)
    by (vm_compute; reflexivity).
  rewrite forallb_forall in H. specialize (H c (proj1 (list_elem_of_In _ _) Hc)).
  rewrite !andb_true_iff, !negb_true_iff in H. destruct H as ((? & ?) & ?). done.
Qed.

(** C32: Every registered Event is answered by its detector on every constructed
    snapshot; the one exception is the long US opening range, whose stop fact
    may be refused. *)
Theorem detectors_answer c s :
  c ∈ contracts → constructed_market s →
  (∃ r, detect (sc_event_spec_id c) s = Ok r ∧ dr_event_spec_id r = sc_event_spec_id c) ∨
  sc_event_id c = "SOR-US-LONG-15M" ∧ detect (sc_event_spec_id c) s = Raise refused_stop.
Proof.
  intros Hc Hs. destruct (detector_outcome s Hs c Hc) as [(r & Hr & He & _)|[-> H]]; [left|right].
  - exists r. split; [exact Hr|exact He].
  - split; [reflexivity|exact H].
Qed.

(** C10: A triggered result of a registered detector becomes a validated signal in
    every scope that serves its contract, and the protection reference the Claim
    builder reads off that signal lies strictly on the protective side of the
    close of the trigger candle. *)
Theorem triggered_detection_signals c s r scope episode auth :
  c ∈ contracts → constructed_market s →
  detect (sc_event_spec_id c) s = Ok r → detector_triggered r = true →
  scope_identity scope → scope_serves c scope = true → episode_argument c episode →
  ∃ sg p latest,
    produce_strategy_signal c scope r (dr_facts r) episode auth = Ok sg ∧
    protection_reference sg = Some p ∧
    last (market_candles s (sc_timeframe c)) = Some latest ∧
    ck_close_time_ms latest = sg_occurred_at_ms sg ∧
    protective (sc_position_side c) p (ck_close latest) ∧
    sg_facts sg = dr_facts r ∧
    mk_trigger_candle_close_time_ms s = sg_occurred_at_ms sg ∧
    sg_observed_at_ms sg = mk_trigger_candle_close_time_ms s ∧
    sg_observed_at_ms sg < sg_expires_at_ms sg.
Proof.
  intros Hc Hs Hr Htr Hscope Hserves He.
  destruct (detector_outcome s Hs c Hc) as [(r' & Hr' & Hev & Hd)|[_ H]]; [|rewrite H in Hr; discriminate Hr].
  rewrite Hr in Hr'. apply Ok_inj in Hr' as <-.
  destruct (Hd Htr) as (Hocc & p & (latest & Hl & Hlt & Hp) & Hsound).
  assert (Hpos : (0 < dval p)%Q) by (destruct (sc_position_side c); cbn in Hp; lra).
  destruct (sound_report_signals c s r p scope episode auth (catalog_identity c Hc) Hscope Hserves He
              (trigger_of s Hs) Hev Htr Hocc Hpos Hsound) as (sg & H1 & H2 & H3 & H4 & H5 & H6).
  exists sg, p, latest. rewrite H4, H5.
  repeat (split; [first [exact H1|exact H2|exact Hl|exact Hlt|exact Hp|exact H3|reflexivity]|]).
  exact H6.
Qed.

(** ** A concrete market

    Two hours of an hourly session whose second close leaves the opening range
    upwards. *)
Module SampleMarket.

Definition hour : Z := 3600000.
Definition day : Z := 1700006400000.
Definition d (z : Z) : Decimal := mkDecimal z 0.
Definition candle (start width o h l c : Z) : ClosedCandle :=
  mkCandle start (start + width) (d o) (d h) (d l) (d c) (d 5).
Definition market : MarketSnapshot :=
  mkMarket "binance-usdm:BTCUSDT" (day + 2 * hour) []
    [candle day hour 100 110 90 105; candle (day + hour) hour 105 120 104 115] [] None None.

Definition accepted (c : ClosedCandle) : bool :=
  match validate_ClosedCandle c with Ok _ => true | Raise _ => false end.

Lemma all_accepted l c : forallb accepted l = true → c ∈ l → validate_ClosedCandle c = Ok c.
Proof.
  rewrite forallb_forall. intros H Hc. specialize (H c (proj1 (list_elem_of_In _ _) Hc)).
  unfold accepted, validate_ClosedCandle in *. by destruct (validate_model (candle_checks c)) as [[]|].
Qed.

Lemma market_constructed : constructed_market market.
Proof.
  split.
  - exists market. vm_compute. reflexivity.
  - intros c. apply all_accepted. vm_compute. reflexivity.
  - discriminate.
  - discriminate.
Qed.

Definition detected : DetectorResult := Eval vm_compute in
  value_or (mkDetectorResult "" INVALID None "" []) (detect (sc_event_spec_id SOR_1H_LONG) market).
Lemma detected_ok : detect (sc_event_spec_id SOR_1H_LONG) market = Ok detected.
Proof. vm_compute. reflexivity. Qed.
Lemma in_catalog : SOR_1H_LONG ∈ contracts.
Proof. apply list_elem_of_lookup. exists 6%nat. vm_compute. reflexivity. Qed.

Definition scope : RuntimeScopeSnapshot :=
  mkRuntimeScope "scope:1" (sc_strategy_group_id SOR_1H_LONG) (sc_strategy_version_id SOR_1H_LONG)
    (sc_event_spec_id SOR_1H_LONG) "profile:1" "policy:1" "binance-usdm:BTCUSDT" long "universe:1"
    "sha256:0123456789abcdef0123456789abcdef0123456789abcdef0123456789abcdef" scope_active true true 3 1
    None None None None.
Lemma scope_ok : scope_identity scope ∧ scope_serves SOR_1H_LONG scope = true.
Proof. split; [split; vm_compute; reflexivity|vm_compute; reflexivity]. Qed.

(** A regular session of an equity perpetual so volatile that a tenth of its
    range lies below every low. *)
Definition bar : Z := 900000.
Definition session_open : Z := day + 60 * bar.
Definition wild (n : Z) (c : Z) : ClosedCandle :=
  candle (session_open + n * bar) bar 50 100 1 c.
Definition wild_session : ProductSessionSnapshot :=
  mkProductSession "binance-usdm:TSLAUSDT" tradfi_equity_perpetual product_active
    session_regular (Some session_open) (Some (session_open + 26 * bar)) None None None None None
    None None corporate_clear (session_open + 3 * bar) (session_open + 4 * bar) "calendar:1".
Definition wild_market : MarketSnapshot :=
  mkMarket "binance-usdm:TSLAUSDT" (session_open + 3 * bar)
    ((λ n, wild n 50) <$> seqZ (-13) 16) [] [] None (Some wild_session).

Lemma wild_constructed : constructed_market wild_market.
Proof.
  split.
  - exists wild_market. vm_compute. reflexivity.
  - intros c. apply all_accepted. vm_compute. reflexivity.
  - discriminate.
  - intros p Hp. apply Some_inj in Hp as <-. exists wild_session. vm_compute. reflexivity.
Qed.

End SampleMarket.

Lemma detectors_answer_witness :
  ∃ r, detect (sc_event_spec_id SOR_1H_LONG) SampleMarket.market = Ok r ∧ detector_triggered r = true.
Proof.
  destruct (detectors_answer SOR_1H_LONG SampleMarket.market SampleMarket.in_catalog
              SampleMarket.market_constructed) as [(r & Hr & _)|[H _]]; [|discriminate H].
  exists r. split; [exact Hr|]. rewrite SampleMarket.detected_ok in Hr. apply Ok_inj in Hr as <-.
  vm_compute. reflexivity.
Defined.

Lemma triggered_detection_signals_witness :
  ∃ sg, protection_reference sg = Some (mkDecimal 90 0) ∧
    sg_facts sg = dr_facts SampleMarket.detected.
Proof.
  destruct (triggered_detection_signals SOR_1H_LONG SampleMarket.market SampleMarket.detected
              SampleMarket.scope None None SampleMarket.in_catalog SampleMarket.market_constructed
              SampleMarket.detected_ok ltac:(vm_compute; reflexivity) (proj1 SampleMarket.scope_ok)
              (proj2 SampleMarket.scope_ok) eq_refl)
    as (sg & p & latest & _ & Hp & _ & _ & _ & Hf & _).
  exists sg. split; [|exact Hf]. unfold protection_reference. rewrite Hf. vm_compute. reflexivity.
Defined.

(** A long US opening-range Event whose initial stop is not positive is not
    answered with the refusal its guard names: the stop is built into a fact
    first, and the fact refuses it with an exception. *)
Theorem us_stop_guard_unreachable :
  ∃ s, constructed_market s ∧ detect (sc_event_spec_id SOR_US_LONG) s = Raise refused_stop.
Proof.
  exists SampleMarket.wild_market. split; [exact SampleMarket.wild_constructed|].
  vm_compute. reflexivity.
Qed.

(** What a detector writes as a fact is read back as the same decimal, digit
    for digit. *)
Theorem fact_text_round_trip d : decimal_of_value (decimal_fact d) = Some (Some d).
Proof. exact (decimal_fact_value d). Qed.
