(* ===== verification/EpisodeProperties.v ===== *)
(** * What Exposure Episodes guarantee

    The reducer finds exactly the rising edges of a history of closes, and the
    comparison barrier lets no trigger through that was not armed under the
    binding in force.

    Then the gate after an authority recovery, and its composition with both
    Episode reducers. *)

From Stdlib Require Import QArith.
From S2P Require Import Prelude PyString Sha256 PyDecimal DecimalFacts Identities Ticket.
From S2P Require Import StrategyRegistry Signal Detector Episode.
From S2P Require Import CrossMarginStress Selection GenericSpec Recovery.
#[local] Open Scope Z_scope.

#[local] Arguments strip : simpl never.
#[local] Arguments blank : simpl never.

(** A valid closed-bar result: quiet, or fired by an occurrence. *)
Inductive Close := quiet (observed : Z) | fired (occurred observed : Z).

Definition close_status (k : Close) : DetectorStatus :=
  match k with quiet _ => NOT_TRIGGERED | fired _ _ => TRIGGERED end.
Definition close_occurred (k : Close) : option Z :=
  match k with quiet _ => None | fired t _ => Some t end.
Definition close_observed (k : Close) : Z := match k with quiet t | fired _ t => t end.
Definition positive_close (k : Close) : Prop :=
  0 < close_observed k ∧ match k with quiet _ => True | fired t _ => 0 < t end.

(** Positive times, each close later than the one before it. *)
Fixpoint ascending (after : Z) (l : list Close) : Prop :=
  match l with
  | [] => True
  | k :: l => after < close_observed k ∧ positive_close k ∧ ascending (close_observed k) l
  end.

Lemma digest_named prefix v :
  no_space prefix = true → prefix ≠ EmptyString →
  strip (episode_digest prefix v) = episode_digest prefix v ∧ blank (episode_digest prefix v) = false.
Proof.
  intros Hp Hne. assert (E : strip (episode_digest prefix v) = episode_digest prefix v).
  { apply strip_no_space. unfold episode_digest. rewrite !no_space_append, Hp.
    rewrite (hex_no_space (sha256_hexdigest _)) by apply hexdigest_is_hex. done. }
  split; [done|]. rewrite blank_false, E. unfold episode_digest. by destruct prefix.
Qed.

Section scope.
Context (c0 c : RegisteredStrategyContract) (instrument : str).
Hypothesis contract_ok : validate_RegisteredStrategyContract c0 = Ok c.
Hypothesis rising : sc_episode_policy c = rising_edge.
Hypothesis instrument_named : blank instrument = false.

Let event := sc_event_spec_id c.
Let side := sc_position_side c.
Let name := strip instrument.
Let key := build_episode_domain_key event name side.

Definition scope_episode_id (occurred : Z) : str :=
  episode_digest "episode"
    (JObj [("event_spec_id", JStr event); ("exchange_instrument_id", JStr name);
           ("position_side", JStr (side_value side)); ("occurred_at_ms", JInt occurred)]).

Definition advance (current : option ExposureEpisodeState) (k : Close)
    : result ExposureEpisodeTransition :=
  advance_exposure_episode c current (close_status k) (close_occurred k) (close_observed k) instrument.

(** The closes of a history, one after the other. *)
Fixpoint observe_all (current : option ExposureEpisodeState) (l : list Close)
    : result (list ExposureEpisodeTransition) :=
  match l with
  | [] => mret []
  | k :: l =>
      t ← advance current k;
      ts ← observe_all (Some (et_current t)) l;
      mret (t :: ts)
  end.

(** The reference: an Episode opens on a fired close that follows none, stays
    open while the closes fire, and is closed by a quiet one. *)
Fixpoint rising_edges (open : option str) (l : list Close) : list (option str * bool) :=
  match l with
  | [] => []
  | quiet _ :: l => (None, false) :: rising_edges None l
  | fired occurred _ :: l =>
      match open with
      | Some id => (Some id, false) :: rising_edges open l
      | None => (Some (scope_episode_id occurred), true)
                :: rising_edges (Some (scope_episode_id occurred)) l
      end
  end.

(** An armed or triggered state of this scope, as the reducer writes it. *)
Record scope_state (e : ExposureEpisodeState) : Prop := {
  state_key : ex_episode_domain_key e = key;
  state_event : ex_event_spec_id e = event;
  state_instrument : ex_exchange_instrument_id e = name;
  state_side : ex_position_side e = side;
  state_valid : validate_ExposureEpisodeState e = Ok e;
  state_observing : is_rebase (ex_state e) = false
}.

Lemma names : strip event = event ∧ blank event = false ∧ strip name = name ∧ blank name = false ∧
  strip key = key ∧ blank key = false.
Proof.
  assert (He : strip event = event ∧ blank event = false).
  { pose proof contract_ok as H. unfold validate_RegisteredStrategyContract in H.
    apply bind_Ok in H as (u & Hf & H). apply validate_fields_Ok in Hf. cbn [fmap list_fmap app] in Hf.
    do 2 (apply Forall_cons in Hf as [_ Hf]). apply Forall_cons in Hf as [Hf _]. cbn [fst] in Hf.
    cbv zeta in H. apply bind_Ok in H as (v & _ & H). apply Ok_inj in H.
    unfold event. rewrite <- H. cbn. by rewrite strip_idemp, blank_strip. }
  destruct He as [E1 E2]. split; [done|]. split; [done|].
  unfold name. rewrite strip_idemp, blank_strip. split; [done|]. split; [done|].
  by apply digest_named.
Qed.

(** A state the reducer writes passes its own validators. *)
Lemma written_valid s id triggered_at rearmed observed version :
  let e := mkEpisode key event name side s id triggered_at rearmed (Some observed) version in
  Forall (λ k, k.1 = false) (episode_checks e) → validate_ExposureEpisodeState e = Ok e.
Proof.
  intros e He. destruct names as (E1 & E2 & E3 & E4 & E5 & E6).
  unfold validate_ExposureEpisodeState. rewrite bind_pass.
  - cbv zeta. subst e. cbn [ex_episode_domain_key ex_event_spec_id ex_exchange_instrument_id
      ex_position_side ex_state ex_exposure_episode_id ex_triggered_at_ms ex_rearmed_at_ms
      ex_last_observed_at_ms ex_projection_version].
    rewrite E1, E3, E5, bind_pass; [done|]. by apply validate_model_Ok.
  - apply validate_fields_Ok. by repeat constructor.
Qed.

Definition open_id (current : option ExposureEpisodeState) : option str :=
  current ≫= ex_exposure_episode_id.

Lemma state_facts e :
  scope_state e → 0 < ex_projection_version e ∧ opt_test (λ t, t <=? 0) (ex_rearmed_at_ms e) = false ∧
  match ex_state e with
  | triggered => ∃ id t, ex_exposure_episode_id e = Some id ∧ ex_triggered_at_ms e = Some t ∧ 0 < t
  | _ => ex_exposure_episode_id e = None ∧ ex_triggered_at_ms e = None
  end.
Proof.
  intros [_ _ _ _ H Hs]. unfold validate_ExposureEpisodeState in H. apply bind_Ok in H as (u & _ & H).
  cbv zeta in H. apply bind_Ok in H as (v & Hm & H). apply validate_model_Ok in Hm. apply Ok_inj in H.
  rewrite H in Hm. unfold episode_checks in Hm. cbv zeta in Hm.
  repeat (apply Forall_cons in Hm as [? Hm]). cbn [fst] in *.
  destruct e as [k0 e0 i0 s0 st id t r o ver]. cbn in *.
  assert (Hv : 0 < ver) by (decimal_facts; lia). split; [done|]. split; [done|].
  assert (B : ∀ s, bool_decide (s = triggered) = match s with triggered => true | _ => false end)
    by (intros []; reflexivity).
  repeat match goal with H : context [bool_decide (_ = triggered)] |- _ => rewrite B in H end.
  destruct st, id, t; cbn in *; try done. do 2 eexists. split; [done|]. split; [done|]. lia.
Qed.

(** The guards pass on a valid close of the scope. *)
Lemma request_ok k : positive_close k →
  require_episode_request c (close_status k) (close_occurred k) (close_observed k) name = Ok tt.
Proof.
  destruct names as (_ & _ & E3 & E4 & _). intros [Hk Ho]. unfold require_episode_request.
  rewrite bind_pass by (apply raise_if_pass; rewrite rising; reflexivity).
  rewrite bind_pass by by destruct k.
  rewrite bind_pass by (apply raise_if_pass; lia).
  rewrite bind_pass by (apply raise_if_pass, bool_decide_false; rewrite blank_false, E3 in E4; done).
  destruct k as [t|t o]; cbn in *; [done|]. apply raise_if_pass. lia.
Qed.

Lemma current_ok e k :
  scope_state e → opt_test (λ t, close_observed k <? t) (ex_last_observed_at_ms e) = false →
  require_current_episode c e key name (close_status k) (close_observed k) = Ok tt.
Proof.
  intros [K1 K2 K3 K4 K5 K6] Ht. unfold require_current_episode. rewrite K5, K6, K1, K2, K3, K4.
  cbn [mbind result_bind andb]. rewrite bind_pass by done.
  rewrite bind_pass; [by apply raise_if_pass|]. apply raise_if_pass.
  by rewrite !bool_decide_eq_true_2.
Qed.

(** What one later close does. *)
Definition later (current : option ExposureEpisodeState) (k : Close) : Prop :=
  match current with
  | None => True
  | Some e => scope_state e ∧ ∃ t, ex_last_observed_at_ms e = Some t ∧ t < close_observed k
  end.

Definition edge (current : option ExposureEpisodeState) (k : Close) : option str * bool :=
  match k, open_id current with
  | quiet _, _ => (None, false)
  | fired _ _, Some id => (Some id, false)
  | fired t _, None => (Some (scope_episode_id t), true)
  end.

Lemma scope_id_ok t : 0 < t → build_exposure_episode_id event name side t = Ok (scope_episode_id t).
Proof. intros H. unfold build_exposure_episode_id. rewrite bind_pass; [done|]. apply raise_if_pass. lia. Qed.

Lemma transition_ok e id created :
  ex_exposure_episode_id e = id → (created = true → is_Some id) →
  validate_ExposureEpisodeTransition (mkTransition e id created) = Ok (mkTransition e id created).
Proof.
  intros <- Hc. unfold validate_ExposureEpisodeTransition. rewrite bind_pass; [done|].
  apply validate_model_Ok. each_check ltac:(cbn; rewrite ?bool_decide_eq_true_2 by done;
    destruct created; try done; by destruct (Hc eq_refl) as [x ->]).
Qed.

(** Every state the reducer writes on a later close is one of the scope. *)
Lemma written_state s id triggered_at r observed version :
  0 < version → 0 < observed → opt_test (λ t, t <=? 0) r = false → is_rebase s = false →
  match s with
  | triggered => is_Some id ∧ ∃ t, triggered_at = Some t ∧ 0 < t
  | _ => id = None ∧ triggered_at = None
  end →
  let e := mkEpisode key event name side s id triggered_at r (Some observed) version in
  validate_ExposureEpisodeState e = Ok e ∧ scope_state e.
Proof.
  intros Hv Ho Hr Hs Hshape e. assert (V : validate_ExposureEpisodeState e = Ok e); [|by split].
  apply written_valid. each_check ltac:(cbn; rewrite ?Hr, ?Hs; cbn;
    try (apply orb_false; split; apply Z.leb_gt; lia); destruct s; cbn;
    repeat match goal with H : _ ∧ _ |- _ => destruct H | H : ∃ _, _ |- _ => destruct H
           | H : is_Some _ |- _ => destruct H end; subst; cbn; try done; try lia).
Qed.

Definition version_after (current : option ExposureEpisodeState) : Z :=
  match current with None => 1 | Some e => ex_projection_version e + 1 end.

Lemma later_facts current k :
  later current k → 0 < version_after current ∧
  opt_test (λ t, t <=? 0) (current ≫= ex_rearmed_at_ms) = false.
Proof.
  destruct current as [e|]; [|done]. intros [H _]. destruct (state_facts e H) as (? & ? & _).
  split; cbn; [lia|done].
Qed.

Definition writes (current : option ExposureEpisodeState) (k : Close)
    (r : result ExposureEpisodeTransition) : Prop :=
  ∃ t, r = Ok t ∧ (et_exposure_episode_id t, et_created_new_episode t) = edge current k ∧
    scope_state (et_current t) ∧ ex_last_observed_at_ms (et_current t) = Some (close_observed k) ∧
    ex_exposure_episode_id (et_current t) = et_exposure_episode_id t ∧
    ex_state (et_current t) = observed_state (close_status k).

Lemma project_quiet current observed :
  positive_close (quiet observed) → later current (quiet observed) →
  writes current (quiet observed)
    (project_episode c current key name NOT_TRIGGERED None observed).
Proof.
  intros [Hk _] Hl. destruct (later_facts _ _ Hl) as [Hv Hr].
  set (r := match current with
            | Some e => if bool_decide (ex_state e = armed) then current ≫= ex_rearmed_at_ms
                        else Some observed
            | None => Some observed end).
  destruct (written_state armed None None r observed (version_after current)) as [V S]; try done.
  { subst r. destruct current as [e|]; [destruct (bool_decide _)|]; try done; apply Z.leb_gt; done. }
  eexists (mkTransition _ None false). split; [|done].
  unfold project_episode. rewrite bool_decide_eq_false_2 by done. cbv zeta. fold r.
  change (validate_ExposureEpisodeState (mkEpisode key event name side armed None None r
    (Some observed) (version_after current)) ≫= (λ state, validate_ExposureEpisodeTransition
    (mkTransition state None false)) = Ok (mkTransition (mkEpisode key event name side armed None
    None r (Some observed) (version_after current)) None false)).
  rewrite V. cbn [mbind result_bind]. by rewrite transition_ok.
Qed.

Lemma project_fired current occurred observed :
  positive_close (fired occurred observed) → later current (fired occurred observed) →
  writes current (fired occurred observed)
    (project_episode c current key name TRIGGERED (Some occurred) observed).
Proof.
  intros [Hk Ho] Hl. destruct (later_facts _ _ Hl) as [Hv Hr].
  assert (W : ∀ id t created, edge current (fired occurred observed) = (Some id, created) → 0 < t →
    writes current (fired occurred observed)
      (state ← validate_ExposureEpisodeState (mkEpisode key event name side triggered (Some id)
                 (Some t) (current ≫= ex_rearmed_at_ms) (Some observed) (version_after current));
       validate_ExposureEpisodeTransition (mkTransition state (Some id) created))).
  { intros id t created He Ht.
    destruct (written_state triggered (Some id) (Some t) (current ≫= ex_rearmed_at_ms) observed
      (version_after current)) as [V S]; try done; [by eauto|].
    eexists (mkTransition _ (Some id) created). rewrite V. cbn [mbind result_bind].
    rewrite transition_ok by done. by rewrite He. }
  unfold project_episode. rewrite bool_decide_eq_true_2 by done. cbv zeta.
  fold event. fold side. rewrite scope_id_ok by done.
  destruct current as [e|]; [|by apply W].
  destruct (state_facts e (proj1 Hl)) as (_ & _ & Hs). pose proof (state_observing e (proj1 Hl)) as Hb.
  destruct e as [k0 e0 i0 s0 st id trig re ob ver]. cbn in Hs, Hb. destruct st; try done.
  - apply W; [|done]. unfold edge, open_id. cbn. by rewrite (proj1 Hs).
  - destruct Hs as (id' & t & -> & -> & Ht). by apply W.
Qed.

Lemma advance_later current k :
  positive_close k → later current k → writes current k (advance current k).
Proof.
  intros Hk Hl. unfold advance, advance_exposure_episode. cbv zeta. fold name event side key.
  rewrite request_ok by done. cbn [mbind result_bind].
  assert (P : writes current k (project_episode c current key name (close_status k)
    (close_occurred k) (close_observed k))).
  { destruct k; [by apply project_quiet|by apply project_fired]. }
  destruct current as [e|]; [|done]. destruct Hl as (Hs & t & Ht & Hlt).
  rewrite current_ok; [|done|rewrite Ht; cbn; lia]. cbn [mbind result_bind].
  rewrite bool_decide_eq_false_2; [done|]. rewrite Ht. intros [= ->]. lia.
Qed.

Lemma advance_again e k :
  positive_close k → scope_state e → ex_last_observed_at_ms e = Some (close_observed k) →
  ex_state e = observed_state (close_status k) →
  advance (Some e) k = Ok (mkTransition e (ex_exposure_episode_id e) false).
Proof.
  intros Hk Hs Ht Hst. unfold advance, advance_exposure_episode. cbv zeta. fold name event side key.
  rewrite request_ok by done. cbn [mbind result_bind].
  rewrite current_ok; [|done|rewrite Ht; cbn; apply Z.ltb_irrefl]. cbn [mbind result_bind].
  rewrite bool_decide_eq_true_2 by done. unfold replay_episode. rewrite bind_pass.
  - by apply transition_ok.
  - apply raise_if_pass. rewrite bool_decide_eq_true_2 by done. done.
Qed.

Lemma observe_later current l after :
  ascending after l → match current with
    | None => True | Some e => scope_state e ∧ ex_last_observed_at_ms e = Some after end →
  ∃ ts, observe_all current l = Ok ts ∧
    (λ t, (et_exposure_episode_id t, et_created_new_episode t)) <$> ts
      = rising_edges (open_id current) l ∧
    Forall2 (λ k t, advance (Some (et_current t)) k
                    = Ok (mkTransition (et_current t) (et_exposure_episode_id t) false)) l ts.
Proof.
  revert current after. induction l as [|k l IH]; intros current after Ha Hcur.
  { exists []. repeat split; constructor. }
  destruct Ha as (Hlt & Hk & Ha). cbn [observe_all].
  destruct (advance_later current k Hk) as (t & -> & He & Hs & Ho & Hid & Hst).
  { destruct current as [e|]; [|done]. destruct Hcur. split; eauto. }
  cbn [mbind result_bind].
  destruct (IH (Some (et_current t)) (close_observed k) Ha (conj Hs Ho)) as (ts & -> & Hts & Hrep).
  exists (t :: ts). split; [done|]. split.
  - cbn [fmap list_fmap]. rewrite Hts, He. cbn [open_id mbind option_bind]. rewrite Hid.
    apply (f_equal fst) in He. cbn in He. rewrite He.
    destruct k; cbn; [done|]. by destruct (open_id current).
  - constructor; [|done]. rewrite <- Hid. by apply advance_again.
Qed.

End scope.

(** C11: The reducer finds exactly the rising edges.  On any history of valid closes with
    strictly increasing times it always answers; it opens an Episode on
    precisely those fired closes that follow no other fired close, keeps its
    identity while the closes keep firing, and drops it on a quiet close; and
    feeding any close again changes nothing and opens nothing. *)
Theorem rising_edges_found c0 c instrument l :
  validate_RegisteredStrategyContract c0 = Ok c → sc_episode_policy c = rising_edge →
  blank instrument = false → ascending 0 l →
  ∃ ts, observe_all c instrument None l = Ok ts ∧
    (λ t, (et_exposure_episode_id t, et_created_new_episode t)) <$> ts
      = rising_edges c instrument None l ∧
    Forall2 (λ k t, advance c instrument (Some (et_current t)) k
                    = Ok (mkTransition (et_current t) (et_exposure_episode_id t) false)) l ts.
Proof. intros Hc Hr Hi Ha. by apply (observe_later c0 c instrument Hc Hr Hi None l 0). Qed.

(** ** The comparison barrier *)

(** A history of accepted Observations of one scope, oldest first, and the
    projections it leaves. *)
Definition next_episode (current : option ExposureEpisodeState)
    (t : ComparisonBoundExposureEpisodeTransition) : option ExposureEpisodeState :=
  match bt_episode_transition t with Some tr => Some (et_current tr) | None => current end.

Inductive observed (c : RegisteredStrategyContract)
    : list Observation → option ExposureEpisodeState →
      option ComparisonBindingEpisodeCheckpoint → Prop :=
  | observed_nothing : observed c [] None None
  | observed_one h e k o t :
      observed c h e k → advance_comparison_bound_exposure_episode c e k o = Ok t →
      observed c (h ++ [o]) (next_episode e t) (Some (bt_checkpoint t)).

(** The checkpoint was armed by a quiet close under its own binding, and the
    binding has not changed since. *)
Definition armed_by (h : list Observation) (k : ComparisonBindingEpisodeCheckpoint) : Prop :=
  ∃ h1 o h2, h = h1 ++ o :: h2 ∧ ob_status o = NOT_TRIGGERED ∧
    ch_armed_at_ms k = Some (ob_observed_at_ms o) ∧
    strip (ob_digest o) = ch_comparison_binding_digest k ∧
    Forall (λ x, ob_revision x = ch_comparison_transition_revision k) (o :: h2).

Definition truly_armed (h : list Observation) (k : ComparisonBindingEpisodeCheckpoint) : Prop :=
  ch_state k = ARMED_UNDER_BINDING → armed_by h k.

Lemma transition_fixed t t' :
  validate_ComparisonBoundExposureEpisodeTransition t = Ok t' → t' = t.
Proof.
  unfold validate_ComparisonBoundExposureEpisodeTransition. intros H.
  apply bind_Ok in H as (u & _ & H). by apply Ok_inj in H.
Qed.

Lemma checkpoint_fields k k' :
  validate_ComparisonBindingEpisodeCheckpoint k = Ok k' →
  ch_comparison_binding_digest k' = strip (ch_comparison_binding_digest k) ∧
  ch_comparison_transition_revision k' = ch_comparison_transition_revision k ∧
  ch_state k' = ch_state k ∧ ch_armed_at_ms k' = ch_armed_at_ms k.
Proof.
  unfold validate_ComparisonBindingEpisodeCheckpoint. intros H. apply bind_Ok in H as (u & _ & H).
  cbv zeta in H. apply bind_Ok in H as (v & _ & H). by apply Ok_inj in H as <-.
Qed.

Lemma arm_arms c h e k o t :
  arm_under_comparison_binding c e k o = Ok t →
  armed_by (h ++ [o]) (bt_checkpoint t) ∧ bt_signal_eligible t = false.
Proof.
  unfold arm_under_comparison_binding. intros H. apply bind_Ok in H as (u & Hg & H).
  apply raise_if_Ok in Hg. apply orb_false in Hg as [Hg _]. apply negb_false, bool_decide_true in Hg.
  apply bind_Ok in H as (tr & _ & H). apply bind_Ok in H as (k' & Hk & H).
  apply transition_fixed in H as ->. cbn. destruct (checkpoint_fields _ _ Hk) as (D & R & S & A).
  split; [|done]. exists h, o, []. rewrite D, R, A. by repeat constructor.
Qed.

Lemma armed_longer h k k' o :
  truly_armed h k → ob_revision o = ch_comparison_transition_revision k →
  ch_state k' = ch_state k → ch_armed_at_ms k' = ch_armed_at_ms k →
  ch_comparison_binding_digest k' = ch_comparison_binding_digest k →
  ch_comparison_transition_revision k' = ch_comparison_transition_revision k →
  truly_armed (h ++ [o]) k'.
Proof.
  unfold truly_armed, armed_by. intros Ht Hr -> -> -> -> Hs.
  destruct (Ht Hs) as (h1 & o' & h2 & -> & H1 & H2 & H3 & H4). exists h1, o', (h2 ++ [o]).
  rewrite <- app_assoc. split_and!; try done. rewrite app_comm_cons. apply Forall_app. auto.
Qed.

(** What one accepted Observation does to a truly armed checkpoint. *)
Definition accepted (h : list Observation) (k : option ComparisonBindingEpisodeCheckpoint)
    (o : Observation) (t : ComparisonBoundExposureEpisodeTransition) : Prop :=
  truly_armed (h ++ [o]) (bt_checkpoint t) ∧
  (bt_signal_eligible t = true → ∃ k' tr, k = Some k' ∧ ch_state k' = ARMED_UNDER_BINDING ∧
     ob_digest o = ch_comparison_binding_digest k' ∧
     ob_revision o = ch_comparison_transition_revision k' ∧ ob_status o = TRIGGERED ∧
     opt_test (λ a, ob_observed_at_ms o <=? a) (ch_armed_at_ms k') = false ∧
     bt_episode_transition t = Some tr ∧ et_created_new_episode tr = true).

Lemma change_accepted c h e k key o t :
  change_binding c e k key o = Ok t → accepted h k o t.
Proof.
  unfold change_binding. intros H. do 2 (apply bind_Ok in H as (? & _ & H)).
  destruct (bool_decide _).
  - apply bind_Ok in H as (k' & Hk & H). apply transition_fixed in H as ->.
    destruct (checkpoint_fields _ _ Hk) as (_ & _ & S & _). split; [|done].
    intros S'. cbn in *. congruence.
  - destruct (arm_arms c h e k o t H) as [A E]. split; [by intros _|by rewrite E].
Qed.

Lemma same_accepted c h e k o t :
  truly_armed h k → ob_digest o = ch_comparison_binding_digest k →
  ob_revision o = ch_comparison_transition_revision k →
  same_binding c e k o = Ok t → accepted h (Some k) o t.
Proof.
  intros Ht Hd Hr H. unfold same_binding in H. apply bind_Ok in H as (u & _ & H).
  destruct (_ =? _).
  { apply bind_Ok in H as (v & _ & H). destruct (bool_decide _).
    - apply transition_fixed in H as ->. split; [by eapply armed_longer|done].
    - apply bind_Ok in H as (w & _ & H). apply bind_Ok in H as (replay & _ & H).
      apply transition_fixed in H as ->. split; [by eapply armed_longer|done]. }
  destruct (bool_decide (ch_state k = _)) eqn:Es.
  { destruct (bool_decide (ob_status o = _)).
    - apply transition_fixed in H as ->. split; [by eapply armed_longer|done].
    - destruct (arm_arms c h e (Some k) o t H) as [A E]. split; [by intros _|by rewrite E]. }
  destruct (ch_armed_at_ms k) as [a|] eqn:Ea; [|done].
  apply bind_Ok in H as (v & Hg & H). apply raise_if_Ok in Hg. apply bind_Ok in H as (tr & _ & H).
  apply transition_fixed in H as ->. split; [by eapply armed_longer|].
  cbn. intros [Hst Hcr]%andb_true. rewrite Hst in Hg. cbn in Hg.
  apply bool_decide_eq_false_1 in Es. apply bool_decide_eq_true_1 in Hst. exists k, tr.
  split_and!; try done; [by destruct (ch_state k)|by rewrite Ea].
Qed.

Lemma advance_accepted c h e k o t :
  match k with Some k => truly_armed h k | None => True end →
  advance_comparison_bound_exposure_episode c e k o = Ok t → accepted h k o t.
Proof.
  intros Ht H. unfold advance_comparison_bound_exposure_episode in H.
  apply bind_Ok in H as (? & _ & H). cbv zeta in H. do 3 (apply bind_Ok in H as (? & _ & H)).
  destruct k as [k|]; [|by eapply change_accepted].
  destruct (_ || _) eqn:E; [by eapply change_accepted|]. decimal_facts.
  apply (same_accepted c h e); try done. symmetry. lia.
Qed.

Lemma observed_armed c h e k :
  observed c h e k → match k with Some k => truly_armed h k | None => True end.
Proof. induction 1 as [|h e k o t H IH Ha]; [done|]. by destruct (advance_accepted c h e k o t IH Ha). Qed.

(** The comparison barrier.  In every history of accepted Observations of a scope, a
    trigger is eligible for a Signal only when it opens a new Episode and an
    earlier quiet close armed the scope under exactly the binding the trigger
    is judged by: the same digest and the same transition revision, with no
    other revision in between.  A change of the comparison universe alone can
    therefore never fabricate an edge. *)
Theorem eligible_only_when_armed c h e k o t :
  observed c h e k → advance_comparison_bound_exposure_episode c e k o = Ok t →
  bt_signal_eligible t = true →
  ob_status o = TRIGGERED ∧
  (∃ tr, bt_episode_transition t = Some tr ∧ et_created_new_episode tr = true) ∧
  ∃ h1 q h2, h = h1 ++ q :: h2 ∧ ob_status q = NOT_TRIGGERED ∧
    ob_observed_at_ms q < ob_observed_at_ms o ∧ strip (ob_digest q) = ob_digest o ∧
    Forall (λ x, ob_revision x = ob_revision o) (q :: h2).
Proof.
  intros Hh Ha He. destruct (advance_accepted c h e k o t (observed_armed c h e k Hh) Ha) as [_ H].
  destruct (H He) as (k' & tr & -> & Hs & Hd & Hr & Ht & Harm & Htr & Hc).
  split; [done|]. split; [by exists tr|].
  destruct (observed_armed c h e _ Hh Hs) as (h1 & q & h2 & -> & Hq & Hat & Hdq & Hall).
  exists h1, q, h2. rewrite Hat in Harm. cbn in Harm. rewrite Hr, Hd. split_and!; try done. lia.
Qed.

(** ** The barrier answers, and equals its reference machine *)

(** A close under a comparison binding. *)
Record BoundClose := mkBound { bc_digest : str; bc_revision : Z; bc_close : Close }.

Inductive Phase := unarmed | ready | in_episode.
Inductive Verdict := suppressed_close | passed_close | eligible_signal.
#[export] Instance Verdict_eq_dec : EqDecision Verdict.
Proof. solve_decision. Defined.

(** The reference: a new binding starts unarmed; a quiet close arms; a fired
    close is suppressed while unarmed, opens a Signal when armed, and belongs
    to the open Episode afterwards. *)
Definition phase_under (binding : option (str * Z)) (phase : Phase) (b : BoundClose) : Phase :=
  if bool_decide (binding = Some (bc_digest b, bc_revision b)) then phase else unarmed.

Definition reference_step (phase : Phase) (k : Close) : Verdict * Phase :=
  match k, phase with
  | quiet _, _ => (passed_close, ready)
  | fired _ _, unarmed => (suppressed_close, unarmed)
  | fired _ _, ready => (eligible_signal, in_episode)
  | fired _ _, in_episode => (passed_close, in_episode)
  end.

Fixpoint reference_barrier (binding : option (str * Z)) (phase : Phase) (l : list BoundClose)
    : list Verdict :=
  match l with
  | [] => []
  | b :: l =>
      let '(v, phase') := reference_step (phase_under binding phase b) (bc_close b) in
      v :: reference_barrier (Some (bc_digest b, bc_revision b)) phase' l
  end.

Definition verdict (t : ComparisonBoundExposureEpisodeTransition) : Verdict :=
  if bt_signal_eligible t then eligible_signal
  else if is_none (bt_suppression_reason t) then passed_close else suppressed_close.

(** Canonical digests, positive revisions that never go back and name one
    digest each, closes in order. *)
Fixpoint bound_history (binding : option (str * Z)) (after : Z) (l : list BoundClose) : Prop :=
  match l with
  | [] => True
  | b :: l =>
      strip (bc_digest b) = bc_digest b ∧ comparison_digest_ok (bc_digest b) = true ∧
      0 < bc_revision b ∧ positive_close (bc_close b) ∧ after < close_observed (bc_close b) ∧
      match binding with
      | Some (d, r) => r ≤ bc_revision b ∧ (r = bc_revision b → d = bc_digest b)
      | None => True
      end ∧
      bound_history (Some (bc_digest b, bc_revision b)) (close_observed (bc_close b)) l
  end.

Section barrier.
Context (c0 c : RegisteredStrategyContract) (instrument : str).
Hypothesis contract_ok : validate_RegisteredStrategyContract c0 = Ok c.
Hypothesis rising : sc_episode_policy c = rising_edge.
Hypothesis instrument_named : blank instrument = false.
Hypothesis instrument_stripped : strip instrument = instrument.

Let key := build_episode_domain_key (sc_event_spec_id c) instrument (sc_position_side c).

Definition observation (b : BoundClose) : Observation :=
  mkObservation (close_status (bc_close b)) (close_occurred (bc_close b))
    (close_observed (bc_close b)) instrument (bc_digest b) (bc_revision b).

Fixpoint observe_bound (e : option ExposureEpisodeState)
    (k : option ComparisonBindingEpisodeCheckpoint) (l : list BoundClose)
    : result (list ComparisonBoundExposureEpisodeTransition) :=
  match l with
  | [] => mret []
  | b :: l =>
      t ← advance_comparison_bound_exposure_episode c e k (observation b);
      ts ← observe_bound (next_episode e t) (Some (bt_checkpoint t)) l;
      mret (t :: ts)
  end.

(** How the projections stand for a phase of the reference. *)
Definition episode_stands (phase : Phase) (after : Z) (e : option ExposureEpisodeState) : Prop :=
  match phase with
  | unarmed => match e with
               | None => True
               | Some e => scope_state c instrument e ∧
                   ∃ t, ex_last_observed_at_ms e = Some t ∧ t ≤ after
               end
  | ready => ∃ e', e = Some e' ∧ scope_state c instrument e' ∧
               ex_last_observed_at_ms e' = Some after ∧ ex_state e' = armed
  | in_episode => ∃ e', e = Some e' ∧ scope_state c instrument e' ∧
               ex_last_observed_at_ms e' = Some after ∧ ex_state e' = triggered
  end.

Definition checkpoint_stands (binding : option (str * Z)) (phase : Phase) (after : Z)
    (k : option ComparisonBindingEpisodeCheckpoint) : Prop :=
  match binding, k with
  | None, None => phase = unarmed
  | Some (d, r), Some k =>
      ch_episode_domain_key k = key ∧ ch_comparison_binding_digest k = d ∧
      ch_comparison_transition_revision k = r ∧ ch_last_observed_at_ms k = after ∧
      0 < ch_projection_version k ∧
      match phase with
      | unarmed => ch_state k = REBASE_REQUIRED
      | _ => ch_state k = ARMED_UNDER_BINDING ∧ ∃ a, ch_armed_at_ms k = Some a ∧ a ≤ after
      end
  | _, _ => False
  end.

Lemma key_named : strip key = key ∧ blank key = false.
Proof. by apply digest_named. Qed.

Lemma later_of_stands phase after e b :
  episode_stands phase after e → after < close_observed (bc_close b) → later c instrument e (bc_close b).
Proof.
  intros He Ha. destruct phase; cbn in He.
  - destruct e as [e|]; [|done]. destruct He as (Hs & t & Ht & Hle). split; [done|]. exists t. split; [done|lia].
  - destruct He as (e' & -> & Hs & Ho & _). split; eauto.
  - destruct He as (e' & -> & Hs & Ho & _). split; eauto.
Qed.

(** The guards of an Observation pass. *)
Lemma request_passes b :
  strip (bc_digest b) = bc_digest b → comparison_digest_ok (bc_digest b) = true →
  0 < bc_revision b → positive_close (bc_close b) →
  validate_comparison_request c (observation b) = Ok tt.
Proof.
  intros Hd Hok Hr [Ho Hk]. unfold validate_comparison_request, observation. cbn [ob_status
    ob_occurred_at_ms ob_observed_at_ms ob_exchange_instrument_id ob_digest ob_revision].
  rewrite bind_pass by (apply raise_if_pass; rewrite rising; reflexivity).
  rewrite bind_pass by by destruct (bc_close b).
  rewrite bind_pass by (apply raise_if_pass; rewrite instrument_named; lia).
  rewrite bind_pass by (apply raise_if_pass; lia).
  unfold validate_ComparisonBindingEpisodeCheckpoint at 1. cbn [ch_episode_domain_key
    ch_comparison_binding_digest]. rewrite Hd. cbv zeta.
  rewrite (bind_pass (validate_fields _)).
  - rewrite (bind_pass (validate_model _)).
    + destruct (bc_close b) as [t|t o]; cbn in *; [done|]. apply raise_if_pass. lia.
    + apply validate_model_Ok. unfold checkpoint_checks. each_check ltac:(cbn; try done; try lia).
  - apply validate_fields_Ok. each_check ltac:(try done; by rewrite Hok).
Qed.

Lemma new_checkpoint s a last st version b :
  strip (bc_digest b) = bc_digest b → comparison_digest_ok (bc_digest b) = true →
  let k := mkCheckpoint key (bc_digest b) (bc_revision b) s a last st version in
  Forall (λ x, x.1 = false) (checkpoint_checks k) →
  validate_ComparisonBindingEpisodeCheckpoint k = Ok k.
Proof.
  intros Hd Hok k Hk. destruct key_named as [K1 K2].
  unfold validate_ComparisonBindingEpisodeCheckpoint. subst k. cbn [ch_episode_domain_key
    ch_comparison_binding_digest]. rewrite bind_pass.
  - cbv zeta. cbn [ch_comparison_transition_revision ch_state ch_armed_at_ms ch_last_observed_at_ms
      ch_last_detector_status ch_projection_version]. rewrite K1, Hd. rewrite bind_pass; [done|].
    by apply validate_model_Ok.
  - apply validate_fields_Ok. each_check ltac:(try done; by rewrite Hd, Hok).
Qed.

(** One Observation follows the reference. *)
Definition follows (b : BoundClose) (phase : Phase) (e : option ExposureEpisodeState)
    (r : result ComparisonBoundExposureEpisodeTransition) : Prop :=
  ∃ t, r = Ok t ∧ verdict t = (reference_step phase (bc_close b)).1 ∧
    let phase' := (reference_step phase (bc_close b)).2 in
    episode_stands phase' (close_observed (bc_close b)) (next_episode e t) ∧
    checkpoint_stands (Some (bc_digest b, bc_revision b)) phase' (close_observed (bc_close b))
      (Some (bt_checkpoint t)).

Lemma observation_advances e b :
  positive_close (bc_close b) → later c instrument e (bc_close b) →
  writes c instrument e (bc_close b) (advance_observation c e (observation b)).
Proof. intros Hk Hl. by apply (advance_later c0 c instrument contract_ok rising instrument_named). Qed.

Lemma arm_follows b phase after e k version :
  strip (bc_digest b) = bc_digest b → comparison_digest_ok (bc_digest b) = true →
  0 < bc_revision b → positive_close (bc_close b) → after < close_observed (bc_close b) →
  (∃ t, bc_close b = quiet t) → episode_stands phase after e →
  next_version k = version → 0 < version →
  follows b phase e (arm_under_comparison_binding c e k (observation b)).
Proof.
  intros Hd Hok Hr Hp Ha [q Hq] He Hv Hpos.
  destruct (observation_advances e b Hp (later_of_stands _ _ _ _ He Ha)) as (tr & Htr & Hedge & Hs & Ho & Hid & Hst).
  unfold follows, arm_under_comparison_binding. rewrite bind_pass by (apply raise_if_pass; cbn; rewrite Hq; reflexivity).
  rewrite Htr. cbn [mbind result_bind]. rewrite (state_key _ _ _ Hs), Hv, instrument_stripped. fold key.
  cbn [observation ob_digest ob_revision ob_observed_at_ms].
  rewrite (new_checkpoint ARMED_UNDER_BINDING _ _ NOT_TRIGGERED version b Hd Hok)
    by (unfold checkpoint_checks; each_check ltac:(cbn; try done; destruct Hp; lia)).
  cbn [mbind result_bind]. eexists. split; [reflexivity|]. rewrite Hq. cbn.
  split; [done|]. split.
  - eexists. split; [done|]. split; [done|]. rewrite Hq in *. by split.
  - repeat (split; [done|]). eexists. split; [done|]. lia.
Qed.

Lemma stands_unarmed phase after e : episode_stands phase after e → episode_stands unarmed after e.
Proof.
  destruct phase; cbn; [done|..]; intros (e' & -> & Hs & Ho & _); (split; [done|]); exists after;
    (split; [done|lia]).
Qed.

Lemma suppressed_follows b phase after e k :
  (∃ t o, bc_close b = fired t o) → phase = unarmed → episode_stands unarmed after e →
  after < close_observed (bc_close b) → ch_state k = REBASE_REQUIRED →
  checkpoint_stands (Some (bc_digest b, bc_revision b)) unarmed (close_observed (bc_close b)) (Some k) →
  follows b phase e (suppressed k).
Proof.
  intros (t & o & Hq) -> He Ha Hs Hk. unfold follows, suppressed,
    validate_ComparisonBoundExposureEpisodeTransition.
  rewrite bind_pass by (apply validate_model_Ok; each_check ltac:(reflexivity)).
  eexists. split; [done|]. rewrite Hq. cbn. split; [done|].
  split; [|by rewrite Hq in Hk]. destruct e as [e|]; [|done]. destruct He as (H1 & t' & H2 & H3).
  split; [done|]. exists t'. split; [done|]. rewrite Hq in Ha. cbn in Ha. lia.
Qed.

Lemma armed_follows b phase after e k a :
  positive_close (bc_close b) → after < close_observed (bc_close b) → episode_stands phase after e →
  phase ≠ unarmed → checkpoint_stands (Some (bc_digest b, bc_revision b)) phase after (Some k) →
  ch_armed_at_ms k = Some a → a ≤ after →
  follows b phase e
    (transition ← advance_observation c e (observation b);
     validate_ComparisonBoundExposureEpisodeTransition
       (mkBoundTransition (observe_checkpoint k (observation b)) (Some transition)
          (bool_decide (ob_status (observation b) = TRIGGERED) && et_created_new_episode transition)
          None)).
Proof.
  intros Hp Ha He Hphase Hk Harm Hle.
  destruct (observation_advances e b Hp (later_of_stands _ _ _ _ He Ha))
    as (tr & -> & Hedge & Hs & Ho & Hid & Hst).
  destruct Hk as (K1 & K2 & K3 & K4 & K5 & K6).
  assert (Hstate : ch_state k = ARMED_UNDER_BINDING) by (destruct phase; [done|apply K6..]).
  unfold follows, validate_ComparisonBoundExposureEpisodeTransition. cbn [mbind result_bind].
  rewrite bind_pass by (apply validate_model_Ok; each_check ltac:(cbn; rewrite ?Hstate; done)).
  eexists. split; [done|]. 
  pose proof (f_equal fst Hedge) as Hid'. pose proof (f_equal snd Hedge) as Hcr. cbn [fst snd] in Hid', Hcr.
  destruct (bc_close b) as [t|t o] eqn:Eb; cbn [close_observed close_status] in *.
  - unfold verdict, observe_checkpoint. cbn. rewrite Eb. cbn. split; [done|]. split; [by eexists|]. repeat (split; [first [done|lia]|]).
    exists a. split; [done|lia].
  - assert (Hopen : open_id e = match phase with in_episode => et_exposure_episode_id tr | _ => None end).
    { destruct phase; [done|..]; destruct He as (e' & -> & He' & _ & Hst'); cbn;
        destruct (state_facts c instrument e' He') as (_ & _ & Hf); rewrite Hst' in Hf; [by apply Hf|].
      destruct Hf as (id & t' & Hid1 & _). rewrite Hid', Hid1. cbn. by rewrite Hid1. }
    unfold verdict, observe_checkpoint. destruct phase; [done|..]; cbn; rewrite Eb, Hcr; unfold edge in *; cbn.
    + rewrite Hopen. cbn. split; [done|]. split; [by eexists|]. repeat (split; [first [done|lia]|]).
      exists a. split; [done|lia].
    + destruct He as (e' & -> & He' & _ & Hst'). cbn in *.
      destruct (state_facts c instrument e' He') as (_ & _ & Hf). rewrite Hst' in Hf.
      destruct Hf as (id & t' & Hid1 & _). rewrite Hid1. cbn. split; [done|].
      split; [by eexists|]. repeat (split; [first [done|lia]|]).
      exists a. split; [done|lia].
Qed.

(** The binding changed: the phase starts over. *)
Lemma change_follows b phase after e k :
  strip (bc_digest b) = bc_digest b → comparison_digest_ok (bc_digest b) = true →
  0 < bc_revision b → positive_close (bc_close b) → after < close_observed (bc_close b) →
  episode_stands phase after e →
  match k with Some k => ch_last_observed_at_ms k = after ∧ 0 < ch_projection_version k
             | None => True end →
  follows b unarmed e (change_binding c e k key (observation b)).
Proof.
  intros Hd Hok Hr Hp Ha He%stands_unarmed Hk. unfold change_binding. cbn [observation ob_observed_at_ms].
  assert (Hv : 0 < next_version k) by (destruct k; cbn; lia).
  rewrite bind_pass.
  2:{ apply raise_if_pass. destruct e as [e|]; [|done]. destruct He as (_ & t & Ht & Hle). cbn.
      rewrite Ht. cbn. lia. }
  rewrite bind_pass by (apply raise_if_pass; destruct k; [cbn; destruct Hk; lia|done]).
  destruct (bc_close b) as [t|t o] eqn:Eb.
  - rewrite bool_decide_eq_false_2 by (cbn; rewrite Eb; done).
    rewrite <- Eb in Hp, Ha. by eapply arm_follows; eauto.
  - rewrite bool_decide_eq_true_2 by (cbn; rewrite Eb; done).
    cbn [observation ob_digest ob_revision ob_observed_at_ms].
    rewrite (new_checkpoint REBASE_REQUIRED None _ _ _ b) by first
      [done | unfold checkpoint_checks; each_check ltac:(cbn; try done; destruct Hp; cbn in *; lia)].
    cbn [mbind result_bind]. rewrite <- Eb in Ha. apply (suppressed_follows b unarmed after); eauto.
    rewrite Eb. by cbn.
Qed.

(** The binding of the checkpoint goes on. *)
Lemma same_follows b phase after e k :
  strip (bc_digest b) = bc_digest b → comparison_digest_ok (bc_digest b) = true →
  0 < bc_revision b → positive_close (bc_close b) → after < close_observed (bc_close b) →
  episode_stands phase after e →
  checkpoint_stands (Some (bc_digest b, bc_revision b)) phase after (Some k) →
  follows b phase e (same_binding c e k (observation b)).
Proof.
  intros Hd Hok Hr Hp Ha He Hk. pose proof Hk as (K1 & K2 & K3 & K4 & K5 & K6).
  unfold same_binding. cbn [observation ob_observed_at_ms]. rewrite K4.
  rewrite bind_pass by (apply raise_if_pass; lia).
  destruct (Z.eqb_spec (close_observed (bc_close b)) after); [lia|]. fold (observation b).
  destruct phase.
  - rewrite bool_decide_eq_true_2 by done. destruct (bc_close b) as [t|t o] eqn:Eb.
    + rewrite bool_decide_eq_false_2 by (cbn; rewrite Eb; done).
      rewrite <- Eb in Hp, Ha. apply (arm_follows b unarmed after e _ (ch_projection_version k + 1)); eauto. lia.
    + rewrite bool_decide_eq_true_2 by (cbn; rewrite Eb; done). rewrite <- Eb in Ha.
      apply (suppressed_follows b unarmed after); eauto. cbn. repeat (split; [first [done|lia]|]). done.
  - destruct K6 as (Hs & a & Harm & Hle). rewrite Hs, Harm. rewrite bool_decide_eq_false_2 by done.
    rewrite bind_pass by (apply raise_if_pass; apply andb_false_intro2; lia).
    by eapply armed_follows.
  - destruct K6 as (Hs & a & Harm & Hle). rewrite Hs, Harm. rewrite bool_decide_eq_false_2 by done.
    rewrite bind_pass by (apply raise_if_pass; apply andb_false_intro2; lia).
    by eapply armed_follows.
Qed.

Lemma barrier_follows b binding phase after e k :
  strip (bc_digest b) = bc_digest b → comparison_digest_ok (bc_digest b) = true →
  0 < bc_revision b → positive_close (bc_close b) → after < close_observed (bc_close b) →
  match binding with
  | Some (d, r) => r ≤ bc_revision b ∧ (r = bc_revision b → d = bc_digest b)
  | None => True
  end →
  episode_stands phase after e → checkpoint_stands binding phase after k →
  follows b (phase_under binding phase b) e
    (advance_comparison_bound_exposure_episode c e k (observation b)).
Proof.
  intros Hd Hok Hr Hp Ha Hb He Hk. unfold advance_comparison_bound_exposure_episode. cbv zeta.
  rewrite request_passes by done. cbn [mbind result_bind observation ob_exchange_instrument_id
    ob_digest ob_revision]. fold key. fold (observation b).
  rewrite bind_pass.
  2:{ apply raise_if_pass. destruct e as [e|]; [|done]. apply stands_unarmed in He as [Hs _]. cbn.
      rewrite (state_key _ _ _ Hs), instrument_stripped. fold key. by rewrite bool_decide_eq_true_2. }
  destruct binding as [[d r]|], k as [k|]; try done.
  2:{ do 2 rewrite bind_pass by done. unfold phase_under. rewrite bool_decide_eq_false_2 by done.
      by eapply change_follows. }
  pose proof Hk as (K1 & K2 & K3 & K4 & K5 & _). destruct Hb as [Hle Heq].
  rewrite bind_pass by (apply raise_if_pass; cbn; by rewrite bool_decide_eq_true_2).
  rewrite bind_pass.
  2:{ apply raise_if_pass. cbn. rewrite K2, K3. apply orb_false. split; [lia|].
      destruct (Z.eqb_spec (bc_revision b) r) as [E|]; [|done]. cbn.
      by rewrite bool_decide_eq_true_2 by by rewrite Heq. }
  rewrite K2, K3. unfold phase_under.
  destruct (decide (Some (d, r) = Some (bc_digest b, bc_revision b))) as [E|E].
  - rewrite (bool_decide_eq_true_2 (Some (d, r) = _)) by done. injection E as -> ->.
    rewrite bool_decide_eq_true_2, Z.eqb_refl by done. by eapply same_follows.
  - rewrite (bool_decide_eq_false_2 (Some (d, r) = _)) by done.
    destruct (_ || _) eqn:G.
    + by eapply change_follows.
    + decimal_facts. exfalso. apply E. f_equal. f_equal; [done|lia].
Qed.

Lemma observe_follows binding phase after e k l :
  bound_history binding after l → episode_stands phase after e →
  checkpoint_stands binding phase after k →
  ∃ ts, observe_bound e k l = Ok ts ∧ verdict <$> ts = reference_barrier binding phase l.
Proof.
  revert binding phase after e k. induction l as [|b l IH]; intros binding phase after e k Hl He Hk.
  { by exists []. }
  destruct Hl as (Hd & Hok & Hr & Hp & Ha & Hb & Hl). cbn [observe_bound reference_barrier].
  destruct (barrier_follows b binding phase after e k) as (t & -> & Hv & He' & Hk'); try done.
  cbn [mbind result_bind]. destruct (reference_step _ _) as [v phase']. cbn [fst snd] in *.
  destruct (IH _ _ _ _ _ Hl He' Hk') as (ts & -> & Hts). exists (t :: ts). split; [done|].
  cbn [fmap list_fmap]. by rewrite Hv, Hts.
Qed.

End barrier.

(** The barrier always answers.  On any history of closes in order, under
    canonical binding digests whose revisions never go back, every Observation
    is accepted, and each is suppressed, passed or eligible for a Signal
    exactly as the three-phase reference machine says. *)
Theorem barrier_equals_reference c0 c instrument l :
  validate_RegisteredStrategyContract c0 = Ok c → sc_episode_policy c = rising_edge →
  blank instrument = false → strip instrument = instrument → bound_history None 0 l →
  ∃ ts, observe_bound c instrument None None l = Ok ts ∧
    verdict <$> ts = reference_barrier None unarmed l.
Proof. intros Hc Hr Hn Hs Hl. by apply (observe_follows c0 c instrument Hc Hr Hn Hs None unarmed 0). Qed.

(** ** Samples *)

Module SampleEpisode.

Definition found := Eval vm_compute in strategy_contract_for "event_spec:MPG-001:MPG-LONG:v3".
Definition none : RegisteredStrategyContract :=
  mkContract "" "" "" "" long tf_1h 0 MARKET rising_edge long_continuation 0 "" None None [] [] "" false.
Definition sample_contract := Eval vm_compute in match found with Ok c => c | Raise _ => none end.
Lemma contract_ok : validate_RegisteredStrategyContract sample_contract = Ok sample_contract.
Proof. vm_compute. reflexivity. Qed.

Definition closes : list Close := [quiet 10; fired 15 20; fired 25 30; quiet 40; fired 45 50].

Definition digest_a : str := "sha256:0123456789abcdef0123456789abcdef0123456789abcdef0123456789abcdef".
Definition digest_b : str := "sha256:fedcba9876543210fedcba9876543210fedcba9876543210fedcba9876543210".
Definition bound_closes : list BoundClose :=
  [mkBound digest_a 1 (quiet 10); mkBound digest_a 1 (fired 15 20);
   mkBound digest_b 2 (fired 25 30); mkBound digest_b 2 (quiet 40); mkBound digest_b 2 (fired 45 50)].

Definition at_close (k : Close) : Observation :=
  observation "binance-usdm:BTCUSDT" (mkBound digest_a 1 k).
Definition after_quiet := Eval vm_compute in
  advance_comparison_bound_exposure_episode sample_contract None None (at_close (quiet 10)).
Definition left_by (r : result ComparisonBoundExposureEpisodeTransition)
    : option ExposureEpisodeState * option ComparisonBindingEpisodeCheckpoint :=
  match r with
  | Ok t => (next_episode None t, Some (bt_checkpoint t))
  | Raise _ => (None, None)
  end.
Definition after_fired := Eval vm_compute in
  let '(e, k) := left_by after_quiet in
  advance_comparison_bound_exposure_episode sample_contract e k (at_close (fired 15 20)).

End SampleEpisode.

Lemma rising_edges_found_witness :
  ∃ ts, observe_all SampleEpisode.sample_contract "binance-usdm:BTCUSDT" None SampleEpisode.closes = Ok ts ∧
    et_created_new_episode <$> ts = [false; true; false; false; true].
Proof.
  destruct (rising_edges_found SampleEpisode.sample_contract SampleEpisode.sample_contract "binance-usdm:BTCUSDT"
    SampleEpisode.closes SampleEpisode.contract_ok eq_refl eq_refl) as (ts & Hts & He & _).
  { repeat split; cbn; try done; lia. }
  exists ts. split; [exact Hts|]. apply (f_equal (fmap snd)) in He.
  rewrite <- list_fmap_compose in He. exact He.
Defined.

Lemma barrier_equals_reference_witness :
  ∃ ts, observe_bound SampleEpisode.sample_contract "binance-usdm:BTCUSDT" None None
          SampleEpisode.bound_closes = Ok ts ∧
    verdict <$> ts = [passed_close; eligible_signal; suppressed_close; passed_close; eligible_signal].
Proof.
  destruct (barrier_equals_reference SampleEpisode.sample_contract SampleEpisode.sample_contract
    "binance-usdm:BTCUSDT" SampleEpisode.bound_closes SampleEpisode.contract_ok eq_refl eq_refl eq_refl)
    as (ts & Hts & Hv).
  { repeat split; try reflexivity; try (cbn; lia); cbn; intros; try lia; discriminate. }
  exists ts. split; [exact Hts|]. rewrite Hv. vm_compute. reflexivity.
Defined.

Lemma eligible_only_when_armed_witness :
  ∃ t, SampleEpisode.after_fired = Ok t ∧ bt_signal_eligible t = true ∧
    ob_status (SampleEpisode.at_close (fired 15 20)) = TRIGGERED.
Proof.
  destruct SampleEpisode.after_quiet as [t1|] eqn:E1; [|discriminate E1].
  destruct SampleEpisode.after_fired as [t2|] eqn:E2; [|discriminate E2].
  assert (A1 : advance_comparison_bound_exposure_episode SampleEpisode.sample_contract None None
    (SampleEpisode.at_close (quiet 10)) = Ok t1) by (rewrite <- E1; vm_compute; reflexivity).
  pose proof (observed_one _ _ _ _ _ _ (observed_nothing SampleEpisode.sample_contract) A1) as H.
  assert (A2 : advance_comparison_bound_exposure_episode SampleEpisode.sample_contract
    (next_episode None t1) (Some (bt_checkpoint t1)) (SampleEpisode.at_close (fired 15 20)) = Ok t2)
    by (apply Ok_inj in E1 as <-; rewrite <- E2; vm_compute; reflexivity).
  assert (E : bt_signal_eligible t2 = true) by (apply Ok_inj in E2 as <-; reflexivity).
  exists t2. split; [reflexivity|]. split; [exact E|].
  exact (proj1 (eligible_only_when_armed _ _ _ _ _ _ H A2 E)).
Defined.

(** ** What the recovery barrier lets through

    After a recovery, a trigger may enter exactly when it is the latest close and
    an earlier close of the same recovery was observed without a trigger; and a
    signal the composed transition makes eligible passes both ENTRY gates. *)

#[local] Arguments strip : simpl never.
#[local] Arguments blank : simpl never.

Lemma validate_recovery_Ok c : validate_AuthorityRecoveryCheckpoint c = Ok c ↔ Forall (λ k, k.1 = false) (recovery_checks c).
Proof.
  unfold validate_AuthorityRecoveryCheckpoint. rewrite bind_Ok. split.
  - intros (u & H & _). by apply validate_model_Ok in H.
  - intros H. exists tt. split; [by apply validate_model_Ok|done].
Qed.

Lemma validate_recovery_same c c' : validate_AuthorityRecoveryCheckpoint c = Ok c' → c' = c.
Proof. unfold validate_AuthorityRecoveryCheckpoint. intros (u & _ & H)%bind_Ok. by apply Ok_inj in H. Qed.

Lemma fold_result_snoc {A B} (f : A → B → result A) acc l x :
  fold_result f acc (l ++ [x]) = a ← fold_result f acc l; f a x.
Proof.
  revert acc. induction l as [|y l IH]; intros acc; cbn; [by destruct (f acc x)|].
  destruct (f acc y); cbn; [apply IH|done].
Qed.

(** ** Observations under one recovery *)

Section recovery.
Context (key id : str) (revision effective first : Z) (cursor : option Z) (c0 : AuthorityRecoveryCheckpoint).
Context (Hbegin : begin_authority_recovery_rebase None key id revision effective first cursor = Ok c0).

Notation observed_close := (Z * DetectorStatus)%type.

(** The closes of one recovery, each observed once, in order. *)
Definition observe_closes (l : list observed_close) : result AuthorityRecoveryCheckpoint :=
  fold_result (λ c o, t ← advance_authority_recovery_rebase (Some c) key id revision effective first o.1 o.2;
                      mret (rt_checkpoint t)) c0 l.

Definition close_ok (o : observed_close) : Prop := first <= o.1 ∧ o.1 mod HOUR_MS = 0 ∧ o.2 ≠ INVALID.
Definition closes_ok (l : list observed_close) : Prop :=
  Forall close_ok l ∧ StronglySorted (λ a b, a.1 < b.1) l.

(** The first close without a trigger. *)
Definition armed_of (l : list observed_close) : option Z := fst <$> head (filter (λ o, o.2 = NOT_TRIGGERED) l).

Definition recovery_reference (l : list observed_close) : AuthorityRecoveryCheckpoint :=
  mkRecovery key id revision effective first
    (if is_none (armed_of l) then RECOVERY_REBASE_REQUIRED else RECOVERY_ARMED) (armed_of l)
    (match last l with Some o => Some o.1 | None => cursor end) (snd <$> last l) (1 + Z.of_nat (length l)).

Lemma begin_reference : c0 = recovery_reference [].
Proof.
  unfold begin_authority_recovery_rebase in Hbegin. apply bind_Ok in Hbegin as (u & _ & H).
  apply validate_recovery_same in H. rewrite H. unfold recovery_reference. cbn. by destruct cursor.
Qed.

Lemma reference_valid_nil : Forall (λ k, k.1 = false) (recovery_checks (recovery_reference [])).
Proof.
  rewrite <- begin_reference. unfold begin_authority_recovery_rebase in Hbegin.
  apply bind_Ok in Hbegin as (u & _ & H). pose proof (validate_recovery_same _ _ H) as E.
  rewrite <- E in H. by apply validate_recovery_Ok in H.
Qed.

Lemma armed_of_snoc l o :
  armed_of (l ++ [o]) = match armed_of l with
                        | Some a => Some a
                        | None => if bool_decide (o.2 = NOT_TRIGGERED) then Some o.1 else None
                        end.
Proof.
  unfold armed_of. rewrite filter_app. destruct (filter _ l) as [|x l'] eqn:E; [|done].
  rewrite app_nil_l, filter_cons, filter_nil. case_decide as H; [by rewrite bool_decide_eq_true_2|].
  by rewrite bool_decide_eq_false_2.
Qed.

Lemma armed_of_elem l a : armed_of l = Some a → (a, NOT_TRIGGERED) ∈ l.
Proof.
  unfold armed_of. destruct (filter _ l) as [|[t s] l'] eqn:E; [done|]. cbn. intros [= <-].
  assert (H : (t, s) ∈ filter (λ o, o.2 = NOT_TRIGGERED) l) by (rewrite E; left).
  apply list_elem_of_filter in H as [Hs H]. cbn in Hs. by subst s.
Qed.

Lemma armed_of_None l : armed_of l = None ↔ ∀ a, (a, NOT_TRIGGERED) ∉ l.
Proof.
  split.
  - unfold armed_of. destruct (filter _ l) as [|[t s] l'] eqn:E; [|done]. intros _ a Ha.
    assert (H : (a, NOT_TRIGGERED) ∈ filter (λ o, o.2 = NOT_TRIGGERED) l) by (by apply list_elem_of_filter).
    rewrite E in H. by apply not_elem_of_nil in H.
  - intros H. destruct (armed_of l) as [a|] eqn:E; [|done]. by apply armed_of_elem, H in E.
Qed.

Lemma closes_ok_snoc l o : closes_ok (l ++ [o]) →
  closes_ok l ∧ close_ok o ∧ ∀ x, x ∈ l → x.1 < o.1.
Proof.
  intros [H1 H2]. apply Forall_app in H1 as [H1 H3]. rewrite Forall_singleton in H3.
  apply StronglySorted_app in H2 as (H4 & H5 & _). split; [by split|]. split; [done|].
  intros x Hx. apply H4; [done|left].
Qed.

(** The reference is a checkpoint its validator lets through. *)
Lemma reference_valid l : closes_ok l → Forall (λ k, k.1 = false) (recovery_checks (recovery_reference l)).
Proof.
  destruct l as [|o l _] using rev_ind; [intros _; apply reference_valid_nil|].
  intros Hok. pose proof reference_valid_nil as Hnil. destruct (closes_ok_snoc _ _ Hok) as (Hl & (H1 & H2 & H3) & Hlt).
  assert (Ha : ∀ a, armed_of (l ++ [o]) = Some a → first <= a <= o.1 ∧ a mod HOUR_MS = 0 ∧ (o.2 = TRIGGERED → a < o.1)).
  { intros a Ha%armed_of_elem. apply elem_of_app in Ha as [Ha|Ha%list_elem_of_singleton].
    - destruct Hl as [Hl _]. rewrite Forall_forall in Hl. destruct (Hl _ Ha) as (? & ? & _).
      specialize (Hlt _ Ha). cbn in *. split_and!; first [lia|done|by intros _].
    - subst o. cbn in *. split_and!; first [lia|done]. }
  unfold recovery_checks, recovery_reference in Hnil |- *.
  cbn [rc_episode_domain_key rc_recovery_id rc_recovery_revision rc_projection_version rc_effective_from_ms
    rc_first_eligible_close_time_ms rc_state rc_armed_at_close_time_ms rc_last_observed_close_time_ms
    rc_last_detector_status] in Hnil |- *.
  rewrite last_snoc. cbn [fmap option_fmap option_map].
  apply Forall_app in Hnil as [Hnil _]. autorewrite with checks in Hnil. cbn [fst] in Hnil.
  destruct Hnil as (N1 & N2 & N3 & N4 & _). rewrite length_app. cbn [length].
  assert (E : o.1 <? first = false) by lia. rewrite E.
  unfold opt_test in N4. cbn [last fmap option_fmap option_map length] in *.
  apply orb_false in N2 as [N2 _]. apply orb_false in N4 as [N4 _].
  assert (Ho : off_hour o.1 = false).
  { unfold off_hour. rewrite H2. apply orb_false. split; [|done]. apply negb_false, andb_true in N3 as [Hx Hy].
    clear - H1 Hx Hy. lia. }
  assert (Hv : (1 + Z.of_nat (length l + 1) <=? 0) = false) by (apply Z.leb_gt; lia).
  apply Forall_app. split; [each_check ltac:(first [exact N1|exact N3|by rewrite N2, Hv|cbn [opt_test]; by rewrite Ho, N4])|].
  rewrite (bool_decide_eq_false_2 (Some o.2 = Some INVALID)) by congruence.
  destruct (armed_of (l ++ [o])) as [a|] eqn:Ea; cbn [is_none].
  - specialize (Ha a eq_refl) as ([Ha0 Ha1] & Ha2 & Ha3).
    apply Z.leb_le in Ha0, Ha1. rewrite Ha0, Ha1, Ha2.
    assert (Ht : bool_decide (Some o.2 = Some TRIGGERED) && bool_decide (Some o.1 = Some a) = false).
    { apply andb_false_iff. rewrite !bool_decide_eq_false. destruct (decide (o.2 = TRIGGERED)) as [E2|E2].
      - right. intros [= E3]. specialize (Ha3 E2). lia.
      - left. congruence. }
    each_check ltac:(first [done|exact Ht]).
  - rewrite armed_of_snoc in Ea. destruct (armed_of l); [done|]. case_bool_decide; [done|].
    assert (E2 : o.2 = TRIGGERED) by (by destruct (o.2)).
    rewrite E2. each_check done.
Qed.

Lemma cursor_before t : cursor = Some t → t < first.
Proof.
  intros Ht. pose proof reference_valid_nil as H. unfold recovery_checks, recovery_reference in H. rewrite Ht in H.
  cbn [last rc_last_observed_close_time_ms rc_first_eligible_close_time_ms rc_last_detector_status fmap
    option_fmap option_map] in H.
  destruct (Z.ltb_spec t first) as [|Hge]; [done|].
  apply Forall_app in H as [_ H]. apply Forall_cons in H as [H _]. done.
Qed.

Lemma last_before l o t : closes_ok (l ++ [o]) →
  match last l with Some x => Some x.1 | None => cursor end = Some t → t < o.1.
Proof.
  intros (Hl & (H1 & _) & Hlt)%closes_ok_snoc. destruct (last l) as [x|] eqn:E.
  - intros [= <-]. apply Hlt. by apply last_Some_elem_of in E.
  - intros H%cursor_before. lia.
Qed.

(** One more close advances the reference. *)
Lemma advance_reference l o : closes_ok (l ++ [o]) →
  ∃ t, advance_authority_recovery_rebase (Some (recovery_reference l)) key id revision effective first o.1 o.2 = Ok t ∧
       rt_checkpoint t = recovery_reference (l ++ [o]).
Proof.
  intros Hok. destruct (closes_ok_snoc _ _ Hok) as (Hl & (H1 & H2 & H3) & Hlt).
  unfold advance_authority_recovery_rebase.
  rewrite (raise_if_pass ((o.1 <? first) || negb (o.1 mod HOUR_MS =? 0)))
    by (rewrite H2; apply Z.ltb_ge in H1; by rewrite H1).
  cbn [mbind result_bind]. cbv zeta.
  rewrite (proj2 (validate_recovery_Ok _) (reference_valid l Hl)). cbn [mbind result_bind].
  cbn [recovery_reference rc_episode_domain_key rc_recovery_revision rc_recovery_id rc_effective_from_ms
    rc_first_eligible_close_time_ms rc_last_observed_close_time_ms rc_armed_at_close_time_ms].
  rewrite (bool_decide_eq_true_2 (key = key)), (bool_decide_eq_true_2 (id = id)), Z.ltb_irrefl, !Z.eqb_refl by done.
  cbn [negb orb andb raise_if mbind result_bind].
  pose proof (λ t, last_before l o t Hok) as Hlast.
  set (before := match last l with Some _ => _ | None => _ end) in *.
  rewrite (raise_if_pass (opt_test _ before)).
  2: { clearbody before. destruct before as [t|]; [|done]. specialize (Hlast t eq_refl). apply Z.ltb_ge. lia. }
  cbn [mbind result_bind]. rewrite bool_decide_eq_false_2 by (intros E; apply Hlast in E; lia).
  rewrite raise_if_pass by by apply bool_decide_eq_false_2. cbn [mbind result_bind].
  change (option_bind _ _ rc_armed_at_close_time_ms (Some (recovery_reference l))) with (armed_of l).
  set (c := mkRecovery _ _ _ _ _ _ _ _ _ _).
  assert (E : c = recovery_reference (l ++ [o])).
  { subst c. unfold recovery_reference, recovery_version. rewrite armed_of_snoc, last_snoc, length_app.
    cbn [rc_projection_version recovery_reference length fmap option_fmap option_map].
    assert (V : 1 + Z.of_nat (length l) + 1 = 1 + Z.of_nat (length l + 1)) by lia. rewrite V.
    destruct (armed_of l); cbn [is_none andb]; [done|]. by case_bool_decide. }
  rewrite E, (proj2 (validate_recovery_Ok _) (reference_valid _ Hok)). cbn [mbind result_bind].
  eexists. split; [reflexivity|done].
Qed.

(** C14: In a recovery observed close by close, each once and in order, the gate of a
    new ENTRY opens for a signal exactly when its close is the last one observed,
    triggered, and an earlier close of the recovery was not: no trigger is
    admitted that the recovery itself did not arm. *)
Theorem recovery_gate_opens_exactly l : closes_ok l →
  ∃ c, observe_closes l = Ok c ∧
  ∀ signal, recovery_rebase_entry_rejection (Some c) key id revision effective first signal = Ok None ↔
    ∃ earlier t, l = earlier ++ [(signal, TRIGGERED)] ∧ (t, NOT_TRIGGERED) ∈ earlier.
Proof.
  intros Hok. exists (recovery_reference l). split.
  - induction l as [|o l IH] using rev_ind; [unfold observe_closes; cbn; by rewrite begin_reference|].
    unfold observe_closes in *. rewrite fold_result_snoc, IH by (by destruct (closes_ok_snoc _ _ Hok)).
    cbn [mbind result_bind]. destruct (advance_reference l o Hok) as (t & -> & E). cbn. by rewrite E.
  - intros signal. unfold recovery_rebase_entry_rejection.
    rewrite (proj2 (validate_recovery_Ok _) (reference_valid l Hok)). cbn [mbind result_bind].
    cbn [recovery_reference rc_episode_domain_key rc_recovery_revision rc_recovery_id rc_effective_from_ms rc_state
      rc_first_eligible_close_time_ms rc_last_observed_close_time_ms rc_armed_at_close_time_ms rc_last_detector_status].
    rewrite (bool_decide_eq_true_2 (key = key)), (bool_decide_eq_true_2 (id = id)), !Z.eqb_refl by done.
    cbn [negb orb]. destruct l as [|o l _] using rev_ind.
    { cbn. split; [done|]. intros (e & t & E & _). by destruct e. }
    destruct (closes_ok_snoc _ _ Hok) as (_ & _ & Hlt). rewrite last_snoc. cbn [fmap option_fmap option_map].
    assert (Hin : ∀ a, o.2 = TRIGGERED → armed_of (l ++ [o]) = Some a → (a, NOT_TRIGGERED) ∈ l).
    { intros a Ho Ha%armed_of_elem. apply elem_of_app in Ha as [|Ha%list_elem_of_singleton]; [done|by subst o]. }
    split.
    + destruct (armed_of (l ++ [o])) as [a|] eqn:Ea; [|done]. cbn [is_none].
      rewrite bool_decide_eq_true_2 by done. cbn [negb]. destruct (_ || _) eqn:E; [done|]. intros _.
      apply orb_false in E as [E _]. apply orb_false in E as [E1 E2].
      apply negb_false, bool_decide_eq_true_1 in E1, E2. injection E1 as E1. injection E2 as E2.
      exists l, a. split; [|by apply Hin]. f_equal. f_equal. destruct o. cbn in *. by subst.
    + intros (earlier & t & E & Ht). apply app_inj_tail in E as [<- ->]. cbn [fst snd].
      destruct (armed_of (l ++ [(signal, TRIGGERED)])) as [a|] eqn:Ea.
      * specialize (Hin a eq_refl eq_refl). apply Hlt in Hin. cbn [fst] in Hin. cbn [is_none].
        rewrite !bool_decide_eq_true_2 by done. cbn [negb orb].
        destruct (Z.leb_spec signal a); [lia|done].
      * apply (armed_of_None (l ++ [(signal, TRIGGERED)])) with (a := t) in Ea. destruct Ea.
        apply elem_of_app. by left.
Qed.
End recovery.

(** ** A signal the composition makes eligible passes the gates *)

Lemma recovery_advance_shape current key id revision effective first observed status t :
  advance_authority_recovery_rebase current key id revision effective first observed status = Ok t →
  rt_allow_episode_advance t = true →
  ∃ a version, rt_checkpoint t = mkRecovery key id revision effective first RECOVERY_ARMED (Some a)
    (Some observed) (Some status) version ∧
    validate_AuthorityRecoveryCheckpoint (rt_checkpoint t) = Ok (rt_checkpoint t).
Proof.
  unfold advance_authority_recovery_rebase. intros H Hallow. apply bind_Ok in H as (u & _ & H). cbv zeta in H.
  match type of H with context [match current with None => ?x | _ => _ end] =>
    assert (Hobs : x = Ok t) end.
  { destruct current as [c|]; [|exact H]. do 4 (apply bind_Ok in H as (? & _ & H)).
    destruct (bool_decide _); [|exact H]. apply bind_Ok in H as (? & _ & H). apply Ok_inj in H. by subst t. }
  apply bind_Ok in Hobs as (? & _ & Hobs). apply bind_Ok in Hobs as (c & Hc & Hobs). apply Ok_inj in Hobs.
  subst t. cbn [rt_allow_episode_advance rt_checkpoint] in *. apply negb_true, is_none_false in Hallow as [a Ha].
  rewrite Ha in Hc. pose proof (validate_recovery_same _ _ Hc) as E. rewrite E in *. cbn [is_none] in Hc |- *.
  by eexists _, _.
Qed.

(** The checkpoint of an eligible comparison: armed before, observed at the
    trigger. *)
Lemma eligible_checkpoint c e k o t :
  advance_comparison_bound_exposure_episode c e k o = Ok t → bt_signal_eligible t = true →
  ∃ k' a, k = Some k' ∧ bt_checkpoint t = observe_checkpoint k' o ∧ ob_status o = TRIGGERED ∧
    ch_state k' = ARMED_UNDER_BINDING ∧ ch_armed_at_ms k' = Some a ∧ a < ob_observed_at_ms o ∧
    ch_last_observed_at_ms k' <= ob_observed_at_ms o ∧
    ch_comparison_binding_digest k' = ob_digest o ∧ ch_comparison_transition_revision k' = ob_revision o.
Proof.
  assert (Hfix : ∀ t t', validate_ComparisonBoundExposureEpisodeTransition t = Ok t' → t' = t).
  { unfold validate_ComparisonBoundExposureEpisodeTransition. intros x x' H.
    apply bind_Ok in H as (u & _ & H). by apply Ok_inj in H. }
  assert (Harm : ∀ k0, arm_under_comparison_binding c e k0 o = Ok t → bt_signal_eligible t = false).
  { intros k0 H. unfold arm_under_comparison_binding in H. do 3 (apply bind_Ok in H as (? & _ & H)).
    apply Hfix in H. by subst t. }
  assert (Hchange : ∀ k0 key, change_binding c e k0 key o = Ok t → bt_signal_eligible t = false).
  { intros k0 key H. unfold change_binding in H. do 2 (apply bind_Ok in H as (? & _ & H)).
    destruct (bool_decide _); [|by eapply Harm]. apply bind_Ok in H as (? & _ & H). apply Hfix in H. by subst t. }
  intros H He. unfold advance_comparison_bound_exposure_episode in H.
  apply bind_Ok in H as (? & _ & H). cbv zeta in H. do 3 (apply bind_Ok in H as (? & _ & H)).
  destruct k as [k|]; [|apply Hchange in H; congruence].
  destruct (_ || _) eqn:E; [apply Hchange in H; congruence|]. apply orb_false in E as [Ed Er].
  apply negb_false, bool_decide_eq_true_1 in Ed. apply negb_false, Z.eqb_eq in Er.
  unfold same_binding in H. apply bind_Ok in H as (? & Hback & H). apply raise_if_Ok, Z.ltb_ge in Hback.
  destruct (_ =? _).
  { apply bind_Ok in H as (? & _ & H). destruct (bool_decide _); [apply Hfix in H; by subst t|].
    do 2 (apply bind_Ok in H as (? & _ & H)). apply Hfix in H. by subst t. }
  destruct (bool_decide (ch_state k = _)) eqn:Es.
  { destruct (bool_decide (ob_status o = _)); [apply Hfix in H; by subst t|apply Harm in H; congruence]. }
  destruct (ch_armed_at_ms k) as [a|] eqn:Ea; [|done].
  apply bind_Ok in H as (? & Hg & H). apply raise_if_Ok in Hg. apply bind_Ok in H as (tr & _ & H).
  apply Hfix in H. subst t. cbn in He. apply andb_true in He as [Hst _]. rewrite Hst in Hg.
  apply bool_decide_eq_true_1 in Hst. apply bool_decide_eq_false_1 in Es. cbn in Hg. apply Z.leb_gt in Hg.
  exists k, a. split_and!; try done. by destruct (ch_state k).
Qed.

(** The trigger's checkpoint is one its validator lets through unchanged. *)
Lemma observed_valid k k0 o a :
  validate_ComparisonBindingEpisodeCheckpoint k0 = Ok k → ch_state k = ARMED_UNDER_BINDING →
  ch_armed_at_ms k = Some a → a < ob_observed_at_ms o → ch_last_observed_at_ms k <= ob_observed_at_ms o →
  ob_status o = TRIGGERED →
  validate_ComparisonBindingEpisodeCheckpoint (observe_checkpoint k o) = Ok (observe_checkpoint k o).
Proof.
  intros Hk Hs Ha Hlt Hle Hst. unfold validate_ComparisonBindingEpisodeCheckpoint in *.
  apply bind_Ok in Hk as (u & Hf & Hk). cbv zeta in Hk. apply bind_Ok in Hk as (v & Hm & Hk). apply Ok_inj in Hk.
  rewrite Hk in Hm. apply validate_fields_Ok in Hf. apply validate_model_Ok in Hm.
  unfold checkpoint_checks in Hm. autorewrite with checks in Hm. autorewrite with checks in Hf. cbn [fst] in *.
  destruct Hf as (Hb & Hd & _). destruct Hm as (Hp & _ & _ & _ & Harm & _).
  assert (E1 : strip (ch_episode_domain_key k) = ch_episode_domain_key k) by (rewrite <- Hk; apply strip_idemp).
  assert (E2 : strip (ch_comparison_binding_digest k) = ch_comparison_binding_digest k)
    by (rewrite <- Hk; apply strip_idemp).
  assert (F1 : blank (ch_episode_domain_key k) = false).
  { apply blank_false in Hb. apply blank_false. rewrite E1, <- Hk. exact Hb. }
  assert (F2 : comparison_digest_ok (ch_comparison_binding_digest k) = true) by (rewrite <- Hk; by apply negb_false in Hd).
  rewrite Hs, Ha in Harm. rewrite bool_decide_eq_false_2 in Harm by done. cbn [negb andb] in Harm.
  apply orb_false in Harm as [Harm _]. apply Z.leb_gt in Harm.
  apply orb_false in Hp as [Hp Hp3]. apply orb_false in Hp as [Hp1 Hp2]. apply Z.leb_gt in Hp2, Hp3.
  rewrite bind_pass.
  2: { apply validate_fields_Ok. unfold observe_checkpoint. cbn [ch_episode_domain_key ch_comparison_binding_digest].
       rewrite E2. each_check ltac:(first [exact F1|by rewrite F2]). }
  cbv zeta. unfold observe_checkpoint. cbn [ch_episode_domain_key ch_comparison_binding_digest
    ch_comparison_transition_revision ch_state ch_armed_at_ms ch_last_observed_at_ms ch_last_detector_status
    ch_projection_version]. rewrite E1, E2.
  rewrite bind_pass; [done|]. apply validate_model_Ok. unfold checkpoint_checks.
  cbn [ch_comparison_transition_revision ch_state ch_armed_at_ms ch_last_observed_at_ms ch_last_detector_status
    ch_projection_version]. rewrite Hst, Hs, Ha, Hp1.
  assert (G1 : (ob_observed_at_ms o <=? 0) = false) by (apply Z.leb_gt; lia).
  assert (G2 : (ch_projection_version k + 1 <=? 0) = false) by (apply Z.leb_gt; lia).
  assert (G3 : (a <=? 0) = false) by by apply Z.leb_gt.
  assert (G4 : (ob_observed_at_ms o <? a) = false) by (apply Z.ltb_ge; lia).
  rewrite G1, G2, G3, G4. each_check done.
Qed.

Lemma armed_trigger_enters key id revision effective first a observed version :
  let c := mkRecovery key id revision effective first RECOVERY_ARMED (Some a) (Some observed)
             (Some TRIGGERED) version in
  validate_AuthorityRecoveryCheckpoint c = Ok c →
  recovery_rebase_entry_rejection (Some c) key id revision effective first observed = Ok None.
Proof.
  intros c Hc. unfold recovery_rebase_entry_rejection. rewrite Hc. cbn [mbind result_bind].
  apply validate_recovery_Ok in Hc. unfold recovery_checks in Hc.
  subst c. cbn [rc_episode_domain_key rc_recovery_revision rc_recovery_id rc_effective_from_ms rc_state
    rc_first_eligible_close_time_ms rc_last_observed_close_time_ms rc_armed_at_close_time_ms rc_last_detector_status] in *.
  rewrite !bool_decide_eq_true_2, !Z.eqb_refl by done. cbn [negb orb].
  apply Forall_app in Hc as [_ Hc]. destruct (observed <? first).
  - apply Forall_cons in Hc as [Hc _]. done.
  - autorewrite with checks in Hc. cbn [fst] in Hc. destruct Hc as (_ & _ & _ & H4 & H5 & _).
    rewrite bool_decide_eq_false_2 in H4 by done. cbn [negb andb] in H4. apply orb_false in H4 as [H4 _].
    apply negb_false, andb_true in H4 as [_ H4]. apply Z.leb_le in H4.
    rewrite (bool_decide_eq_false_2 (RECOVERY_ARMED = _)), bool_decide_eq_true_2 in H5 by done. cbn [negb andb] in H5.
    apply bool_decide_eq_false_1 in H5. destruct (Z.leb_spec observed a); [|done].
    destruct H5. f_equal. lia.
Qed.

Lemma recovery_comparison_binding c spec o key duplicate k cmp :
  recovery_comparison c spec o key duplicate k = Ok cmp →
  match cmp with
  | None => ro_comparison_binding o = None
  | Some (b, k') => ro_comparison_binding o = Some b ∧ validate_ComparisonUniverseBinding b = Ok b ∧
      ∀ k1, k' = Some k1 → ∃ k0, validate_ComparisonBindingEpisodeCheckpoint k0 = Ok k1
  end.
Proof.
  unfold recovery_comparison. intros H. destruct (bool_decide _).
  - destruct (ro_comparison_binding o) as [b|]; [|done]. apply bind_Ok in H as (k' & Hk & H). apply Ok_inj in H.
    subst cmp. split; [done|]. unfold require_recovery_comparison in Hk. cbv zeta in Hk.
    apply bind_Ok in Hk as (b' & Hb & Hk). apply bind_Ok in Hk as (? & _ & Hk). split.
    + rewrite Hb. f_equal. unfold validate_ComparisonUniverseBinding in Hb. apply bind_Ok in Hb as (? & _ & Hb).
      by apply Ok_inj in Hb.
    + intros k1 ->. destruct k as [k|]; [|done]. apply bind_Ok in Hk as (k2 & Hk2 & Hk).
      do 2 (apply bind_Ok in Hk as (? & _ & Hk)). apply Ok_inj in Hk. injection Hk as ->. by exists k.
  - apply bind_Ok in H as (? & Hr & H). apply Ok_inj in H. subst cmp. apply raise_if_Ok, orb_false in Hr as [_ Hr].
    by destruct (ro_comparison_binding o).
Qed.

Lemma recovery_transition_same x x' : validate_RecoveryBoundExposureEpisodeTransition x = Ok x' →
  x' = x ∧ Forall (λ p, p.1 = false) (recovery_transition_checks x).
Proof.
  unfold validate_RecoveryBoundExposureEpisodeTransition. intros H.
  apply bind_Ok in H as (u & Hu & H). apply Ok_inj in H. by apply validate_model_Ok in Hu.
Qed.

(** What the comparison barrier makes eligible passes the comparison gate. *)
Lemma eligible_comparison_enters c e k' st occurred observed inst b compared key :
  advance_comparison_bound_exposure_episode c e k' (mkObservation st occurred observed inst
    (cb_member_set_digest b) (cb_comparison_transition_revision b)) = Ok compared →
  bt_signal_eligible compared = true → cb_comparison_transition_revision b ≠ 0 →
  validate_ComparisonUniverseBinding b = Ok b →
  (∀ k1, k' = Some k1 → ∃ k0, validate_ComparisonBindingEpisodeCheckpoint k0 = Ok k1) →
  ch_episode_domain_key (bt_checkpoint compared) = key →
  st = TRIGGERED ∧
  recovery_comparison_entry_rejection (Some (bt_checkpoint compared)) b key observed = Ok None.
Proof.
  intros Hc He Hr Hb Hk Hkey.
  destruct (eligible_checkpoint _ _ _ _ _ Hc He) as (k1 & a & Hk1 & Hbt & Hst & Hs & Ha & Hlt & Hle & Hd & Hrev).
  destruct (Hk k1 Hk1) as (k0 & Hk0). cbn [ob_status ob_observed_at_ms ob_digest ob_revision] in *.
  split; [done|]. unfold recovery_comparison_entry_rejection. rewrite Hb. cbn [mbind result_bind].
  apply Z.eqb_neq in Hr. rewrite Hr. rewrite Hbt in Hkey |- *.
  match goal with |- context [observe_checkpoint k1 ?x] =>
    rewrite (observed_valid k1 k0 x a Hk0 Hs Ha Hlt Hle Hst) end.
  cbn [mbind result_bind].
  unfold observe_checkpoint in Hkey |- *. cbn [ch_episode_domain_key ch_comparison_binding_digest
    ch_comparison_transition_revision ch_state ch_armed_at_ms ch_last_observed_at_ms
    ch_last_detector_status ob_observed_at_ms ob_status] in *.
  rewrite Hd, Hrev, Hs, Ha, Hst, !bool_decide_eq_true_2, !Z.eqb_refl by done. cbn [negb orb].
  by destruct (Z.leb_spec observed a); [lia|].
Qed.

(** A Signal that the composed transition makes eligible is one both ENTRY gates
    let through at that close: the recovery gate, and for a comparative Event
    the comparison gate. *)
Theorem eligible_recovery_signal_enters c e r k o t :
  advance_recovery_bound_exposure_episode c e r k o = Ok t → rb_signal_eligible t = true →
  let key := rc_episode_domain_key (rb_recovery_checkpoint t) in
  ro_detector_status o = TRIGGERED ∧
  recovery_rebase_entry_rejection (Some (rb_recovery_checkpoint t)) key (ro_recovery_id o)
    (ro_recovery_revision o) (ro_effective_from_ms o) (ro_first_eligible_close_time_ms o)
    (ro_observed_at_ms o) = Ok None ∧
  ∀ b, ro_comparison_binding o = Some b →
    recovery_comparison_entry_rejection (rb_comparison_checkpoint t) b key (ro_observed_at_ms o) = Ok None.
Proof.
  intros H He key. unfold advance_recovery_bound_exposure_episode in H.
  apply bind_Ok in H as (spec & Hspec & H). apply bind_Ok in H as (? & Hreq & H). cbv zeta in H.
  apply bind_Ok in H as (? & _ & H). apply bind_Ok in H as (e' & _ & H).
  apply bind_Ok in H as (cmp & Hcmp & H). apply bind_Ok in H as (rt & Hrt & H).
  destruct (rt_allow_episode_advance rt) eqn:Hallow; cbn [negb] in H.
  2: { apply recovery_transition_same in H as [-> _]. done. }
  destruct (recovery_advance_shape _ _ _ _ _ _ _ _ _ Hrt Hallow) as (a & version & Hck & Hvalid).
  rewrite Hck in H, Hvalid.
  set (ck := mkRecovery _ _ _ _ _ _ _ _ _ _) in H, Hvalid.
  assert (Hgate : rb_recovery_checkpoint t = ck → ro_detector_status o = TRIGGERED →
    recovery_rebase_entry_rejection (Some (rb_recovery_checkpoint t)) key (ro_recovery_id o)
      (ro_recovery_revision o) (ro_effective_from_ms o) (ro_first_eligible_close_time_ms o)
      (ro_observed_at_ms o) = Ok None).
  { intros Et Hst. unfold key. rewrite Et. unfold ck in Hvalid |- *. rewrite Hst in *. by apply armed_trigger_enters. }
  pose proof (recovery_comparison_binding _ _ _ _ _ _ _ Hcmp) as Hb.
  match type of H with context [match cmp with Some _ => _ | None => ?p end] =>
    assert (Hplain : p = Ok t → rb_recovery_checkpoint t = ck ∧ rb_comparison_checkpoint t = None ∧
                     ro_detector_status o = TRIGGERED) end.
  { intros Hp. apply bind_Ok in Hp as (ep & _ & Hp). apply recovery_transition_same in Hp as [-> _]. cbn in He |- *.
    apply andb_true in He as [_ He]. by apply bool_decide_eq_true_1 in He. }
  destruct cmp as [[b k']|].
  - destruct Hb as (Hbind & Hbv & Hk'). destruct (Z.eqb_spec (cb_comparison_transition_revision b) 0) as [Hr|Hr].
    + destruct (Hplain H) as (E1 & E2 & E3). split; [done|]. split; [by apply Hgate|].
      intros b' Hb'. rewrite Hb' in Hbind. injection Hbind as ->. unfold recovery_comparison_entry_rejection.
      rewrite E2, Hbv, Hr. done.
    + clear Hplain. apply bind_Ok in H as (compared & Hcompared & H). apply recovery_transition_same in H as [Et Hchecks].
      assert (Ec : rb_comparison_checkpoint t = Some (bt_checkpoint compared)) by (by rewrite Et).
      destruct (eligible_comparison_enters _ _ _ _ _ _ _ _ _ key Hcompared) as [Hst Hgo]; [by rewrite Et in He|done..| |].
      { apply Forall_cons in Hchecks as [Hkey _]. unfold key. rewrite Et. by apply negb_false, bool_decide_eq_true_1 in Hkey. }
      split; [done|]. split; [apply Hgate; [by rewrite Et|done]|]. intros b' Hb'. rewrite Hb' in Hbind.
      injection Hbind as ->. by rewrite Ec.
  - destruct (Hplain H) as (E1 & E2 & E3). split; [done|]. split; [by apply Hgate|].
    intros b' Hb'. by rewrite Hb' in Hb.
Qed.

(** ** A sample recovery *)

Module SampleRecovery.
Definition hour : Z := 3600000.
Definition pending : AuthorityRecoveryCheckpoint :=
  mkRecovery "episode-domain:sample" "recovery-1" 1 (1000 * hour + 1) (1001 * hour) RECOVERY_REBASE_REQUIRED
    None None None 1.
Definition closes : list (Z * DetectorStatus) :=
  [(1001 * hour, TRIGGERED); (1002 * hour, NOT_TRIGGERED); (1003 * hour, TRIGGERED)].

Definition found := Eval vm_compute in strategy_contract_for "event_spec:MPG-001:MPG-LONG:v3".
Definition no_contract : RegisteredStrategyContract :=
  mkContract "" "" "" "" long tf_1h 0 MARKET rising_edge long_continuation 0 "" None None [] [] "" false.
Definition momentum := Eval vm_compute in match found with Ok c => c | Raise _ => no_contract end.

Definition binding : ComparisonUniverseBinding := Eval vm_compute in
  let members := CANONICAL_CANDIDATE_EXCHANGE_INSTRUMENT_IDS in
  let digest := comparison_member_digest members in
  mkComparisonBinding MPG_LONG_EVENT ("comparison:" +:+ after_7 digest) digest members 2 None.

Definition at_close (t : Z) (status : DetectorStatus) (occurred : option Z) : RecoveryObservation :=
  mkRecoveryObservation "recovery-1" 1 (1000 * hour + 1) (1001 * hour) status occurred t
    "binance-usdm:BTCUSDT:perpetual" "dynamic_selection" "universe-1" (Some binding).

Definition after_quiet := Eval vm_compute in
  advance_recovery_bound_exposure_episode momentum None None None
    (at_close (1001 * hour) NOT_TRIGGERED None).
Definition fired : RecoveryObservation := at_close (1002 * hour) TRIGGERED (Some (1002 * hour - 5)).
Definition left_by (r : result RecoveryBoundExposureEpisodeTransition)
    : option ExposureEpisodeState * option AuthorityRecoveryCheckpoint
      * option ComparisonBindingEpisodeCheckpoint :=
  match r with
  | Ok t => (et_current <$> rb_episode_transition t, Some (rb_recovery_checkpoint t), rb_comparison_checkpoint t)
  | Raise _ => (None, None, None)
  end.
Definition state := Eval vm_compute in left_by after_quiet.
Definition after_fired := Eval vm_compute in
  advance_recovery_bound_exposure_episode momentum state.1.1 state.1.2 state.2 fired.
Definition sample_transition := Eval vm_compute in
  match after_fired with Ok t => t | Raise _ => mkRecoveryTransition pending None None false None end.

Lemma fired_ok : advance_recovery_bound_exposure_episode momentum state.1.1 state.1.2 state.2 fired = Ok sample_transition.
Proof. vm_compute. reflexivity. Qed.
End SampleRecovery.

Lemma recovery_gate_opens_exactly_witness :
  ∃ c, observe_closes "episode-domain:sample" "recovery-1" 1 (1000 * SampleRecovery.hour + 1)
         (1001 * SampleRecovery.hour) SampleRecovery.pending SampleRecovery.closes = Ok c ∧
    recovery_rebase_entry_rejection (Some c) "episode-domain:sample" "recovery-1" 1
      (1000 * SampleRecovery.hour + 1) (1001 * SampleRecovery.hour) (1003 * SampleRecovery.hour) = Ok None.
Proof.
  destruct (recovery_gate_opens_exactly "episode-domain:sample" "recovery-1" 1 (1000 * SampleRecovery.hour + 1)
    (1001 * SampleRecovery.hour) None SampleRecovery.pending eq_refl SampleRecovery.closes) as (c & Hc & Hgate).
  { split; [|repeat constructor; cbn; lia].
    repeat constructor; cbn; try done; unfold SampleRecovery.hour; lia. }
  exists c. split; [exact Hc|]. apply Hgate. exists [(1001 * SampleRecovery.hour, TRIGGERED);
    (1002 * SampleRecovery.hour, NOT_TRIGGERED)], (1002 * SampleRecovery.hour).
  split; [reflexivity|right; left].
Defined.

Lemma eligible_recovery_signal_enters_witness :
  rb_signal_eligible SampleRecovery.sample_transition = true ∧
  recovery_comparison_entry_rejection (rb_comparison_checkpoint SampleRecovery.sample_transition)
    SampleRecovery.binding (rc_episode_domain_key (rb_recovery_checkpoint SampleRecovery.sample_transition))
    (1002 * SampleRecovery.hour) = Ok None.
Proof.
  split; [reflexivity|].
  exact (proj2 (proj2 (eligible_recovery_signal_enters _ _ _ _ _ _ SampleRecovery.fired_ok eq_refl))
    SampleRecovery.binding eq_refl).
Defined.
