(* ===== verification/ControlProperties.v ===== *)
(** * What the control plane guarantees

    Histories of the entry vacuum and of a control operation, by induction on
    their steps; the owner's scope; the life of a Universe; and the names of
    instruments. *)

From Stdlib Require Import QArith.
From S2P Require Import Prelude PyString Sha256 PyDecimal Identities Ticket CrossMarginStress StrategyRegistry Signal.
From S2P Require Import DecimalText Selection GenericSpec Control Universe TextFacts.
#[local] Open Scope Z_scope.
#[local] Arguments strip : simpl never.
#[local] Arguments blank : simpl never.

(** Close a goal by a decidable hypothesis that computes to false. *)
Ltac refute H := let P := type of H in exact (False_ind _ (bool_decide_eq_false_1 P eq_refl H)).

(** ** The entry vacuum *)

(** The records of one vacuum, oldest first: each passed its validator and each
    change of state was accepted. *)
Inductive vacuum_history : list StrategyEntryVacuum → Prop :=
  | vacuum_opened v :
      validate_StrategyEntryVacuum v = Ok v → ev_state v = V_OPEN → vacuum_history [v]
  | vacuum_moved h v w :
      vacuum_history (h ++ [v]) → validate_StrategyEntryVacuum w = Ok w →
      transition_strategy_entry_vacuum (ev_state v) (ev_state w) = Ok (ev_state w) →
      vacuum_history (h ++ [v; w]).

Definition materializing (v : StrategyEntryVacuum) : Prop :=
  ev_state v ∈ [V_RECONFIGURING; V_RECOVERY_PENDING] ∧ ev_drained_at_ms v ≠ None.

Lemma vacuum_accepted v : validate_StrategyEntryVacuum v = Ok v →
  ∃ interval, Forall (λ c : bool * str, c.1 = false) (vacuum_checks v interval).
Proof.
  unfold validate_StrategyEntryVacuum. intros H. apply bind_Ok in H as (u & _ & H). cbv zeta in H.
  apply bind_Ok in H as (interval & _ & H). apply bind_Ok in H as (u' & Hc & H). apply Ok_inj in H.
  rewrite H in Hc. exists interval. by apply validate_model_Ok in Hc.
Qed.

Lemma vacuum_drained v : validate_StrategyEntryVacuum v = Ok v →
  ev_state v ∈ vacuum_drained_states → ev_drained_at_ms v ≠ None.
Proof.
  intros (interval & H)%vacuum_accepted Hs. unfold vacuum_checks in H. autorewrite with checks in H.
  cbn [fst] in H. destruct H as (_ & _ & _ & _ & _ & H & _). rewrite bool_decide_eq_true_2 in H by done.
  cbn in H. by apply is_none_false in H as [d ->].
Qed.

Lemma vacuum_times v : validate_StrategyEntryVacuum v = Ok v → ev_state v ∈ vacuum_terminal_states →
  ∃ d r, ev_drained_at_ms v = Some d ∧ ev_resolved_at_ms v = Some r ∧ ev_fenced_at_ms v <= d <= r.
Proof.
  intros Hv Hs. assert (Hd : ev_drained_at_ms v ≠ None).
  { apply vacuum_drained; [done|]. unfold vacuum_drained_states. apply elem_of_app. by left. }
  apply vacuum_accepted in Hv as (interval & H). unfold vacuum_checks in H. cbv zeta in H. autorewrite with checks in H.
  cbn [fst] in H. destruct H as (_ & _ & H3 & H4 & H5 & _). rewrite bool_decide_eq_true_2 in H5 by done.
  cbn [andb] in H5. apply is_none_false in H5 as [r Hr]. rewrite Hr in H4. destruct (ev_drained_at_ms v) as [d|]; [|done].
  cbn in H3, H4. exists d, r. split_and!; try done; lia.
Qed.

Lemma vacuum_step s t : transition_strategy_entry_vacuum s t = Ok t → s = t ∨ t ∈ vacuum_transitions s.
Proof.
  unfold transition_strategy_entry_vacuum. destruct (bool_decide_reflect (s = t)) as [->|]; [by left|].
  intros H. right. apply bind_Ok in H as (u & H & _). apply raise_if_Ok in H. apply negb_false in H.
  by apply bool_decide_eq_true_1 in H.
Qed.

Lemma vacuum_last_valid h v : vacuum_history (h ++ [v]) → validate_StrategyEntryVacuum v = Ok v.
Proof.
  intros H. inversion H as [w Hw Hs E|h' w w' H' Hw Ht E].
  - destruct h as [|? [|??]]; [|done..]. by injection E as <-.
  - assert (E' : h' ++ [w; w'] = (h' ++ [w]) ++ [w']) by by rewrite <- app_assoc.
    rewrite E' in E. apply app_inj_tail in E as [_ <-]. done.
Qed.

Lemma resolved_from s t : t ∈ vacuum_transitions s → blocks_new_entry t = false →
  s ∈ [V_RECONFIGURING; V_RECOVERY_PENDING].
Proof.
  destruct s, t; intros Hin Hb; try (by vm_compute in Hb); try (by left); try (by right; left);
    refute Hin.
Qed.


(** ** Control operations *)

(** The states of one operation, oldest first. *)
Inductive operation_history : list ControlOperationState → Prop :=
  | operation_started : operation_history [O_VALIDATING]
  | operation_moved h s t :
      operation_history (h ++ [s]) → advance_control_operation s t = Ok t →
      operation_history (h ++ [s; t]).

Lemma operation_step s t : advance_control_operation s t = Ok t → s = t ∨ t ∈ operation_transitions s.
Proof.
  unfold advance_control_operation. destruct (bool_decide_reflect (s = t)) as [->|]; [by left|].
  intros H. right. apply bind_Ok in H as (u & H & _). apply raise_if_Ok in H. apply negb_false in H.
  by apply bool_decide_eq_true_1 in H.
Qed.

(** The phases a flatten passes, in order; each state lies behind a number of
    them, and a completion behind all. *)
Definition operation_phases : list ControlOperationState :=
  [O_PENDING; O_CLAIMED; O_EXITS_REQUESTED; O_RECONCILIATION_PENDING; O_SETTLEMENT_PENDING; O_REVIEW_PENDING].

Definition phases_passed (s : ControlOperationState) : nat :=
  match s with
  | O_PENDING => 1
  | O_CLAIMED => 2
  | O_EXITS_REQUESTED | O_EXIT_IN_PROGRESS => 3
  | O_RECONCILIATION_PENDING => 4
  | O_SETTLEMENT_PENDING => 5
  | O_REVIEW_PENDING | O_COMPLETED => 6
  | O_VALIDATING | O_BLOCKED | O_NEEDS_INTERVENTION => 0
  end.

(** Only the first and the last state. *)
Definition immediate (s : ControlOperationState) : Prop := s = O_VALIDATING ∨ s = O_COMPLETED.

(** Where an operation stands: a person was needed, it is blocked, it has done
    nothing yet, or it has passed in order the phases its state lies behind. *)
Definition stands (l : list ControlOperationState) (s : ControlOperationState) : Prop :=
  O_NEEDS_INTERVENTION ∈ l ∨ s = O_BLOCKED ∨ Forall immediate l ∨
  (s ≠ O_VALIDATING ∧ take (phases_passed s) operation_phases `sublist_of` l).

Lemma phase_step s t : t ∈ operation_transitions s → t ≠ O_NEEDS_INTERVENTION → t ≠ O_BLOCKED →
  s ≠ O_NEEDS_INTERVENTION → s ≠ O_VALIDATING →
  take (phases_passed t) operation_phases = take (phases_passed s) operation_phases ∨
  take (phases_passed t) operation_phases = take (phases_passed s) operation_phases ++ [t].
Proof. destruct s, t; intros Hin H1 H2 H3 H4; try done; try (by left); try (by right); refute Hin. Qed.

Lemma stands_step l s t : last l = Some s → stands l s → advance_control_operation s t = Ok t → stands (l ++ [t]) t.
Proof.
  intros Hlast Hst [<-|Hin]%operation_step.
  - destruct Hst as [H|[H|[H|[Hv H]]]].
    + left. apply elem_of_app. by left.
    + by right; left.
    + right; right; left. apply Forall_app. split; [done|]. apply Forall_singleton. rewrite Forall_forall in H.
      apply H. by apply (last_Some_elem_of l s).
    + right; right; right. split; [done|]. by apply sublist_inserts_r.
  - destruct (decide (t = O_NEEDS_INTERVENTION)) as [->|Ht]; [left; apply elem_of_app; right; left|].
    destruct (decide (t = O_BLOCKED)) as [->|Hb]; [by right; left|].
    destruct Hst as [H|[->|[H|[Hv H]]]].
    + left. apply elem_of_app. by left.
    + refute Hin.
    + assert (Hs : immediate s) by (rewrite Forall_forall in H; by apply H, (last_Some_elem_of l s)).
      destruct Hs as [->| ->]; [|refute Hin]. destruct t; try (refute Hin); try done.
      * right; right; right. split; [done|]. cbn. apply sublist_inserts_l. done.
      * right; right; left. apply Forall_app. split; [done|]. apply Forall_singleton. by right.
    + destruct (decide (s = O_NEEDS_INTERVENTION)) as [->|Hn].
      { left. apply elem_of_app. left. by apply (last_Some_elem_of l). }
      right; right; right. split; [intros ->; by destruct s; refute Hin|].
      destruct (phase_step s t Hin Ht Hb Hn Hv) as [-> | ->]; [by apply sublist_inserts_r|].
      by apply sublist_app.
Qed.

Lemma history_stands l s : operation_history (l ++ [s]) → stands (l ++ [s]) s.
Proof.
  intros H. remember (l ++ [s]) as h eqn:E. revert l s E. induction H as [|h s' t H IH Ht]; intros l s E.
  - destruct l as [|? [|??]]; [|done..]. injection E as <-. right; right; left.
    apply Forall_singleton. by left.
  - assert (E' : h ++ [s'; t] = (h ++ [s']) ++ [t]) by by rewrite <- app_assoc.
    rewrite E' in E |- *. apply app_inj_tail in E as [<- <-].
    apply (stands_step _ s'); [by rewrite last_snoc|by apply (IH h s')|done].
Qed.

(** A flatten that completed was either complete at once, with nothing to
    flatten, or passed to a person, or went through its phases in order: claimed,
    exits requested, reconciliation, settlement and review. *)
Theorem flatten_completes_in_order h :
  operation_history (h ++ [O_COMPLETED]) →
  Forall immediate h ∨ O_NEEDS_INTERVENTION ∈ h ∨ operation_phases `sublist_of` h.
Proof.
  intros H%history_stands. destruct H as [H|[H|[H|[_ H]]]]; [|done| |].
  - apply elem_of_app in H as [H|H%list_elem_of_singleton]; [by right; left|done].
  - left. by apply Forall_app in H as [H _].
  - right; right. cbn [phases_passed] in H. change (take 6 operation_phases) with operation_phases in H.
    apply sublist_app_r in H as (k1 & k2 & E & H1 & H2). apply sublist_cons_r in H2 as [H2|(k & -> & H2)].
    + apply sublist_nil_r in H2 as ->. rewrite app_nil_r in E. by rewrite E.
    + assert (Hin : O_COMPLETED ∈ operation_phases) by (rewrite E; apply elem_of_app; right; left).
      refute Hin.
Qed.

(** ** Operations finish *)

Definition operation_rank (s : ControlOperationState) : nat :=
  match s with
  | O_VALIDATING => 0 | O_PENDING => 1 | O_CLAIMED => 2 | O_EXITS_REQUESTED => 3
  | O_EXIT_IN_PROGRESS => 4 | O_RECONCILIATION_PENDING => 5 | O_SETTLEMENT_PENDING => 6
  | O_REVIEW_PENDING => 7 | O_NEEDS_INTERVENTION => 8 | O_COMPLETED | O_BLOCKED => 9
  end.

(** A run of changes of state, each accepted. *)
Inductive operation_run : ControlOperationState → list ControlOperationState → Prop :=
  | run_stops s : operation_run s []
  | run_moves s t l : s ≠ t → advance_control_operation s t = Ok t → operation_run t l → operation_run s (t :: l).

Lemma move_ranks s t : t ∈ operation_transitions s → (operation_rank s < operation_rank t)%nat.
Proof. destruct s, t; intros Hin; try (refute Hin); cbn; lia. Qed.

(** No operation runs for ever: an operation changes state at most nine times,
    and one that can change no more is completed or blocked. *)
Theorem operations_finish s l :
  operation_run s l → (length l <= 9 - operation_rank s)%nat ∧
  ((∀ t, s ≠ t → is_ok (advance_control_operation s t) = false) → s = O_COMPLETED ∨ s = O_BLOCKED).
Proof.
  intros H. split.
  - induction H as [s|s t l Hne [?|Hin%move_ranks]%operation_step _ IH]; cbn; [lia|done|].
    assert (operation_rank t <= 9)%nat by (destruct t; cbn; lia). lia.
  - intros Hstuck. destruct s; try (by left); try (by right);
      match goal with |- ?s = _ ∨ _ => first
        [by specialize (Hstuck O_PENDING ltac:(done))|by specialize (Hstuck O_BLOCKED ltac:(done))
        |by specialize (Hstuck O_NEEDS_INTERVENTION ltac:(done))|by specialize (Hstuck O_COMPLETED ltac:(done))] end.
Qed.

(** ** The scope of an owner policy *)

Lemma runtime_profile_found scope event profile :
  NoDup (ep_event_spec_id <$> scope) →
  runtime_profile_for scope event = Some profile ↔ mkEventProfile event profile ∈ scope.
Proof.
  induction scope as [|p scope IH]; cbn; intros Hnd; [by split; [|intros ?%not_elem_of_nil]|].
  apply NoDup_cons in Hnd as [Hp Hnd]. rewrite elem_of_cons. destruct p as [e r]. cbn in *.
  destruct (bool_decide_reflect (e = event)) as [->|Hne].
  - split; [intros [= ->]; by left|]. intros [[= ->]|Hin]; [done|]. destruct Hp.
    by apply (list_elem_of_fmap_2 ep_event_spec_id) in Hin.
  - rewrite IH by done. split; [by right|]. intros [[= -> ->]|]; done.
Qed.

(** A policy authorizes exactly the pairs its scope lists, and at most one
    runtime profile for an event. *)
Theorem scope_authorizes_its_pairs scope scope' :
  validate_OwnerPolicyScope scope = Ok scope' →
  (∀ event profile, authorizes scope' event profile = true ↔ mkEventProfile event profile ∈ scope) ∧
  ∀ event p q, authorizes scope' event p = true → authorizes scope' event q = true → p = q.
Proof.
  unfold validate_OwnerPolicyScope. intros H. apply bind_Ok in H as (u & _ & H). cbv zeta in H.
  apply bind_Ok in H as (u' & Hc & H). apply Ok_inj in H. subst scope'. apply validate_model_Ok in Hc.
  apply Forall_cons in Hc as [Hc _]. cbn [fst] in Hc. apply orb_false in Hc as [_ Hnd].
  apply negb_false, bool_decide_eq_true_1 in Hnd. unfold authorizes. split.
  - intros event profile. rewrite bool_decide_eq_true. by apply runtime_profile_found.
  - intros event p q. rewrite !bool_decide_eq_true. congruence.
Qed.

(** ** The life of a Universe *)

(** The states of one Universe, oldest first. *)
Inductive universe_history (kind : StrategyUniverseSourceKind) : list StrategyUniverseLifecycleState → Prop :=
  | universe_installed : universe_history kind [UNIVERSE_WARMING]
  | universe_moved h s t :
      universe_history kind (h ++ [s]) → advance_strategy_universe_lifecycle kind s t = Ok t →
      universe_history kind (h ++ [s; t]).

Lemma universe_step kind s t : advance_strategy_universe_lifecycle kind s t = Ok t →
  s = t ∨ t ∈ (if bool_decide (kind = MANUAL) then manual_transitions else generation_owned_transitions) s.
Proof.
  unfold advance_strategy_universe_lifecycle. destruct (bool_decide_reflect (s = t)) as [->|]; [by left|].
  intros H. right. cbv zeta in H. apply bind_Ok in H as (u & H & _). apply raise_if_Ok in H. apply negb_false in H.
  by apply bool_decide_eq_true_1 in H.
Qed.

(** What the last state of a history says of its earlier ones. *)
Definition universe_behind (kind : StrategyUniverseSourceKind) (h : list StrategyUniverseLifecycleState)
    (s : StrategyUniverseLifecycleState) : Prop :=
  match s with
  | UNIVERSE_WARMING => Forall (eq UNIVERSE_WARMING) h
  | UNIVERSE_STAGED => kind ≠ MANUAL ∧ UNIVERSE_ACTIVE ∉ h ∧ UNIVERSE_RETIRED ∉ h
  | UNIVERSE_ACTIVE => (kind ≠ MANUAL → UNIVERSE_STAGED ∈ h) ∧ UNIVERSE_RETIRED ∉ h
  | UNIVERSE_RETIRED => UNIVERSE_ACTIVE ∈ h
  | UNIVERSE_ABANDONED => UNIVERSE_ACTIVE ∉ h
  end.

Lemma universe_history_behind kind h s : universe_history kind (h ++ [s]) → universe_behind kind (h ++ [s]) s.
Proof.
  intros H. remember (h ++ [s]) as l eqn:E. revert h s E. induction H as [|l s' t H IH Ht]; intros h s E.
  - destruct h as [|? [|??]]; [|done..]. injection E as <-. by repeat constructor.
  - assert (E' : l ++ [s'; t] = (l ++ [s']) ++ [t]) by by rewrite <- app_assoc.
    rewrite E' in E |- *. apply app_inj_tail in E as [<- <-]. specialize (IH l s' eq_refl). clear E' H.
    destruct (universe_step _ _ _ Ht) as [<-|Hin].
    + destruct s'; cbn in *; rewrite ?elem_of_app, ?not_elem_of_app, ?list_elem_of_singleton, ?Forall_app in *;
        repeat split; try tauto; by repeat constructor.
    + case_bool_decide as Hk; destruct s', t; try (refute Hin); cbn in *;
        rewrite ?Forall_app, ?elem_of_app, ?not_elem_of_app, ?list_elem_of_singleton in *;
        rewrite ?Forall_forall in *; naive_solver.
Qed.

(** C33: Signals flow only from an active Universe, and an owned generation is staged
    before it is active; a retired Universe was active and an abandoned one never
    was, and neither moves again. *)
Theorem universe_active_only_when_due kind h s :
  universe_history kind (h ++ [s]) →
  (strategy_universe_allows_signal s = true → kind ≠ MANUAL → UNIVERSE_STAGED ∈ h) ∧
  (s = UNIVERSE_RETIRED → UNIVERSE_ACTIVE ∈ h) ∧
  (s = UNIVERSE_ABANDONED → UNIVERSE_ACTIVE ∉ h) ∧
  (s = UNIVERSE_RETIRED ∨ s = UNIVERSE_ABANDONED →
     ∀ t, s ≠ t → is_ok (advance_strategy_universe_lifecycle kind s t) = false).
Proof.
  intros H%universe_history_behind. split_and!.
  - intros Hs Hk. unfold strategy_universe_allows_signal in Hs. apply bool_decide_eq_true_1 in Hs as ->.
    destruct H as [H _]. apply H, elem_of_app in Hk as [|Hk%list_elem_of_singleton]; done.
  - intros ->. apply elem_of_app in H as [|H%list_elem_of_singleton]; done.
  - intros ->. by apply not_elem_of_app in H as [? _].
  - intros Hs t Ht. unfold advance_strategy_universe_lifecycle. rewrite bool_decide_eq_false_2 by done. cbv zeta.
    destruct Hs as [->| ->]; destruct kind, t; done.
Qed.


(** ** Instrument names *)

Lemma drop_prefix_Some p s r : drop_prefix p s = Some r ↔ s = p +:+ r.
Proof.
  unfold drop_prefix, startswith. split.
  - destruct (String.prefix p s) eqn:E; [|done]. intros [= <-]. apply prefix_text in E as [t ->].
    by rewrite (substring_rest _ _ p t) by (rewrite ?length_append; lia).
  - intros ->. rewrite (proj2 (prefix_text p _)) by (by exists r). f_equal.
    apply substring_rest; [done|]. rewrite length_append. lia.
Qed.

Lemma drop_suffix_Some q s r : drop_suffix q s = Some r ↔ s = r +:+ q.
Proof.
  unfold drop_suffix. split.
  - destruct (Nat.leb_spec (String.length q) (String.length s)) as [Hl|]; [|done]. cbn [andb].
    case_bool_decide as Hq; [|done]. intros [= <-].
    destruct (substring_split (String.length s - String.length q) s) as [H _]; [lia|].
    replace (String.length s - (String.length s - String.length q))%nat with (String.length q) in H by lia.
    by rewrite Hq in H.
  - intros ->. rewrite length_append.
    rewrite (substring_rest _ _ r q) by lia. rewrite (substring_prefix _ r q) by lia.
    rewrite (proj2 (Nat.leb_le _ _)) by lia. by rewrite bool_decide_eq_true_2.
Qed.

Lemma match_asset_Some p q s b : match_asset p q s = Some b ↔ s = p +:+ b +:+ q ∧ is_asset b = true.
Proof.
  unfold match_asset. split.
  - intros H. apply bind_Some in H as (r & Hr%drop_prefix_Some & H).
    apply bind_Some in H as (b' & Hb%drop_suffix_Some & H). destruct (is_asset b') eqn:E; [|done].
    injection H as ->. by subst.
  - intros [-> Hb]. rewrite (proj2 (drop_prefix_Some p _ (b +:+ q))) by done. cbn.
    rewrite (proj2 (drop_suffix_Some q _ b)) by done. cbn. by rewrite Hb.
Qed.

Definition perpetual (base : str) : BinanceUsdmInstrumentIdentity :=
  mkInstrument "binance-usdm" (base +:+ "USDT") base "USDT" "perpetual".

Lemma parsed_id s i : parse_binance_usdm_instrument_id s = Ok i ↔
  ∃ b, s = "binance-usdm:" +:+ b +:+ "USDT:perpetual" ∧ is_asset b = true ∧ i = perpetual b.
Proof.
  unfold parse_binance_usdm_instrument_id. split.
  - destruct (match_asset _ _ s) as [b|] eqn:E; [|done]. intros <-%Ok_inj.
    apply match_asset_Some in E as [-> Hb]. by exists b.
  - intros (b & -> & Hb & ->). rewrite (proj2 (match_asset_Some _ _ _ b)) by done. done.
Qed.

Lemma parsed_symbol s i : parse_binance_usdm_ccxt_symbol s = Ok i ↔
  ∃ b, s = b +:+ "/USDT:USDT" ∧ is_asset b = true ∧ i = perpetual b.
Proof.
  unfold parse_binance_usdm_ccxt_symbol. split.
  - destruct (match_asset _ _ s) as [b|] eqn:E; [|done].
    apply match_asset_Some in E as [-> Hb]. intros (b' & E & _ & ->)%parsed_id. exists b. split_and!; try done.
    apply (proj2 (drop_prefix_Some _ _ _)) in E. rewrite (proj2 (drop_prefix_Some "binance-usdm:" _ (b +:+ "USDT:perpetual"))) in E by done.
    injection E as E. apply (proj2 (drop_suffix_Some _ _ _)) in E. rewrite (proj2 (drop_suffix_Some "USDT:perpetual" _ b)) in E by done.
    by injection E as ->.
  - intros (b & -> & Hb & ->). rewrite (proj2 (match_asset_Some EmptyString _ _ b)) by done.
    apply parsed_id. by exists b.
Qed.

(** The canonical id and the CCXT symbol of an instrument are two spellings of
    the same thing: what either parser accepts is printed back unchanged, and the
    other spelling of the result is accepted by the other parser with the same
    result. *)
Theorem instrument_names_round_trip s i :
  (parse_binance_usdm_instrument_id s = Ok i →
     to_exchange_instrument_id i = s ∧ parse_binance_usdm_ccxt_symbol (to_ccxt_symbol i) = Ok i) ∧
  (parse_binance_usdm_ccxt_symbol s = Ok i →
     to_ccxt_symbol i = s ∧ parse_binance_usdm_instrument_id (to_exchange_instrument_id i) = Ok i).
Proof.
  split.
  - intros (b & -> & Hb & ->)%parsed_id. split.
    + unfold to_exchange_instrument_id, perpetual. cbn [bi_venue_id bi_symbol bi_product_type].
      by rewrite append_assoc.
    + apply parsed_symbol. by exists b.
  - intros (b & -> & Hb & ->)%parsed_symbol. split; [done|].
    apply parsed_id. exists b. split_and!; try done.
    unfold to_exchange_instrument_id, perpetual. cbn [bi_venue_id bi_symbol bi_product_type].
    by rewrite append_assoc.
Qed.

(** ** Samples *)

Module SampleControl.

Definition vacuum (s : StrategyEntryVacuumState) (drained resolved : option Z) : StrategyEntryVacuum :=
  mkVacuum "vacuum-1" "SOR-001" "sor-dynamic-selection-v0" DAY_MS (Some "generation-1") s 1000 drained resolved
    "reconfiguring" 1.

Definition passed : list StrategyEntryVacuum :=
  [vacuum V_OPEN None None; vacuum V_DRAINING_ENTRY None None; vacuum V_RECONFIGURING (Some 2000) None].

Definition active : StrategyEntryVacuum := vacuum V_RESOLVED_ACTIVE (Some 2000) (Some 3000).

Lemma history : vacuum_history (passed ++ [active]).
Proof.
  apply (vacuum_moved [vacuum V_OPEN None None; vacuum V_DRAINING_ENTRY None None]); [|by vm_compute..].
  apply (vacuum_moved [vacuum V_OPEN None None]); [|by vm_compute..].
  apply (vacuum_moved []); [|by vm_compute..]. by apply vacuum_opened; vm_compute.
Qed.

Definition phases : list ControlOperationState := O_VALIDATING :: operation_phases.

Lemma flattened : operation_history (phases ++ [O_COMPLETED]).
Proof.
  apply (operation_moved [O_VALIDATING; O_PENDING; O_CLAIMED; O_EXITS_REQUESTED; O_RECONCILIATION_PENDING; O_SETTLEMENT_PENDING]); [|done].
  apply (operation_moved [O_VALIDATING; O_PENDING; O_CLAIMED; O_EXITS_REQUESTED; O_RECONCILIATION_PENDING]); [|done].
  apply (operation_moved [O_VALIDATING; O_PENDING; O_CLAIMED; O_EXITS_REQUESTED]); [|done].
  apply (operation_moved [O_VALIDATING; O_PENDING; O_CLAIMED]); [|done].
  apply (operation_moved [O_VALIDATING; O_PENDING]); [|done].
  apply (operation_moved [O_VALIDATING]); [|done].
  apply (operation_moved []); [|done]. apply operation_started.
Qed.

Definition scope : OwnerPolicyScope :=
  [mkEventProfile "CPM-LONG" "profile-a"; mkEventProfile "MI-LONG" "profile-b"].

End SampleControl.
Import SampleControl.


Lemma flatten_completes_in_order_witness :
  Forall immediate phases ∨ O_NEEDS_INTERVENTION ∈ phases ∨ operation_phases `sublist_of` phases.
Proof. exact (flatten_completes_in_order phases flattened). Defined.

Lemma operations_finish_witness :
  operation_run O_REVIEW_PENDING [O_NEEDS_INTERVENTION; O_COMPLETED] ∧
  (length [O_NEEDS_INTERVENTION; O_COMPLETED] <= 9 - operation_rank O_REVIEW_PENDING)%nat.
Proof.
  assert (H : operation_run O_REVIEW_PENDING [O_NEEDS_INTERVENTION; O_COMPLETED]).
  { apply run_moves; [done..|]. apply run_moves; [done..|]. apply run_stops. }
  split; [exact H|]. exact (proj1 (operations_finish _ _ H)).
Defined.

Lemma scope_authorizes_its_pairs_witness :
  (∀ event profile, authorizes scope event profile = true ↔ mkEventProfile event profile ∈ scope) ∧
  ∀ event p q, authorizes scope event p = true → authorizes scope event q = true → p = q.
Proof. apply (scope_authorizes_its_pairs scope scope). by vm_compute. Defined.

Lemma universe_active_only_when_due_witness :
  (strategy_universe_allows_signal UNIVERSE_ACTIVE = true → DYNAMIC_SELECTION ≠ MANUAL →
     UNIVERSE_STAGED ∈ [UNIVERSE_WARMING; UNIVERSE_STAGED]) ∧
  (UNIVERSE_ACTIVE = UNIVERSE_RETIRED → UNIVERSE_ACTIVE ∈ [UNIVERSE_WARMING; UNIVERSE_STAGED]).
Proof.
  destruct (universe_active_only_when_due DYNAMIC_SELECTION [UNIVERSE_WARMING; UNIVERSE_STAGED] UNIVERSE_ACTIVE)
    as (H1 & H2 & _); [|by split].
  apply (universe_moved _ [UNIVERSE_WARMING]); [|done]. apply (universe_moved _ []); [|done]. apply universe_installed.
Defined.

Lemma instrument_names_round_trip_witness :
  to_exchange_instrument_id (perpetual "BTC") = "binance-usdm:BTCUSDT:perpetual" ∧
  to_ccxt_symbol (perpetual "BTC") = "BTC/USDT:USDT".
Proof.
  split.
  - apply (proj1 (instrument_names_round_trip "binance-usdm:BTCUSDT:perpetual" (perpetual "BTC"))). by vm_compute.
  - apply (proj2 (instrument_names_round_trip "BTC/USDT:USDT" (perpetual "BTC"))). by vm_compute.
Defined.
