(* ===== verification/TimingProperties.v ===== *)
(** * What the clock of the generic selection guarantees

    The plan of a recovery is the next close; the missed closes of a gap are the
    closes of the period up to it; the age of a membership counts its missed
    periods; and a proof grants one close, once. *)

From S2P Require Import Prelude PyString Ticket StrategyRegistry Episode GenericSpec Timing.
#[local] Open Scope Z_scope.

(** ** Closes and periods *)

Definition on_the_hour (t : Z) : Prop := t mod HOUR_MS = 0.

Lemma on_the_hour_iff t : on_the_hour t ↔ ∃ k, t = k * 3600000.
Proof.
  unfold on_the_hour. change HOUR_MS with 3600000. split.
  - intros H. apply Z.mod_divide in H; [|done]. exact H.
  - intros [k ->]. by apply Z_mod_mult.
Qed.

Lemma last_close_spec t : on_the_hour (last_close t) ∧ last_close t <= t < last_close t + HOUR_MS ∧
  ∀ c, on_the_hour c → c <= t → c <= last_close t.
Proof.
  unfold last_close. change HOUR_MS with 3600000. split; [|split].
  - apply on_the_hour_iff. by eexists.
  - pose proof (Z.div_mod t 3600000 ltac:(done)). pose proof (Z.mod_pos_bound t 3600000 ltac:(done)). lia.
  - intros c [k ->]%on_the_hour_iff Hc. assert (k <= t / 3600000) by (apply Z.div_le_lower_bound; lia). lia.
Qed.

(** What an accepted period says of its times. *)
Lemma period_times p : validate_GenericSelectionPeriod p = Ok p →
  let cadence := gp_cadence_hours p * HOUR_MS in
  (gp_cadence_hours p = 1 ∨ gp_cadence_hours p = 4) ∧ on_the_hour (gp_feature_cutoff_at_ms p) ∧
  0 < gp_feature_cutoff_at_ms p ∧ gp_scheduled_effective_at_ms p = gp_feature_cutoff_at_ms p + HOUR_MS ∧
  gp_period_expires_at_ms p = gp_scheduled_effective_at_ms p + cadence ∧ gp_feature_cutoff_at_ms p mod cadence = 0.
Proof.
  intros H cadence. unfold validate_GenericSelectionPeriod in H. apply bind_Ok in H as (u & H & _).
  apply validate_model_Ok in H. unfold period_checks in H. cbv zeta in H. autorewrite with checks in H. cbn [fst] in H.
  destruct H as (H1 & H2 & _). unfold cadence_refused in H1. apply negb_false, orb_true_iff in H1.
  rewrite !Z.eqb_eq in H1. apply orb_false in H2 as [H2 H5]. apply orb_false in H2 as [H2 H4].
  apply orb_false in H2 as [H2 H3]. apply Z.leb_gt in H2. apply negb_false, Z.eqb_eq in H3, H4, H5.
  split_and!; try done. apply on_the_hour_iff. fold cadence in H3. unfold cadence in H3. change HOUR_MS with 3600000 in H3.
  destruct H1 as [E|E]; rewrite E in H3; apply Z.mod_divide in H3 as [k ->]; try done; [by exists k|].
  exists (k * 4). ring.
Qed.

Lemma effective_on_the_hour p : validate_GenericSelectionPeriod p = Ok p → on_the_hour (gp_scheduled_effective_at_ms p).
Proof.
  intros (_ & [k H]%on_the_hour_iff & _ & -> & _)%period_times. apply on_the_hour_iff. exists (k + 1).
  rewrite H. change HOUR_MS with 3600000. ring.
Qed.

(** ** The plan of a recovery *)

(** The closes a recovery evaluated at [t] may wait for. *)
Definition recoverable (p : GenericSelectionPeriod) (t close : Z) : Prop :=
  on_the_hour close ∧ t < close ∧ gp_scheduled_effective_at_ms p <= close.

Lemma next_close_least p t : validate_GenericSelectionPeriod p = Ok p →
  recoverable p t (next_recovery_close p t) ∧
  ∀ close, recoverable p t close → next_recovery_close p t <= close.
Proof.
  intros Hp. pose proof (effective_on_the_hour p Hp) as He. unfold recoverable, next_recovery_close.
  destruct (last_close_spec t) as (Hl & Hb & Hg). unfold last_close in *.
  assert (E : (t / HOUR_MS + 1) * HOUR_MS = t / HOUR_MS * HOUR_MS + HOUR_MS) by ring. rewrite E.
  assert (Hn : on_the_hour (t / HOUR_MS * HOUR_MS + HOUR_MS)).
  { apply on_the_hour_iff in Hl as [k Hk]. apply on_the_hour_iff. exists (k + 1). rewrite Hk.
    change HOUR_MS with 3600000. ring. }
  split.
  - destruct (Z.max_spec (gp_scheduled_effective_at_ms p) (t / HOUR_MS * HOUR_MS + HOUR_MS)) as [[? ->]|[? ->]];
      split_and!; try done; lia.
  - intros close (Hc & Ht & Hs). apply Z.max_lub; [done|].
    apply on_the_hour_iff in Hc as [k ->]. apply on_the_hour_iff in Hl as [j Hj]. rewrite Hj in *.
    change HOUR_MS with 3600000 in *. lia.
Qed.

Lemma plan_accepted p : validate_HourlyRecoveryClosePlan p = Ok p → Forall (λ c, c.1 = false) (plan_checks p).
Proof.
  unfold validate_HourlyRecoveryClosePlan. intros H. apply bind_Ok in H as (u & H & _). by apply validate_model_Ok in H.
Qed.

(** The plan of a recovery names the earliest close after its evaluation,
    inside the period or none when the period has no more; and it may be
    committed exactly from its evaluation until that close. *)
Theorem recovery_plan_is_the_next_close id revision reason period t plan :
  validate_GenericSelectionPeriod period = Ok period →
  plan_hourly_recovery_close id revision reason period t = Ok plan →
  match hp_first_eligible_close_time_ms plan with
  | Some first =>
      recoverable period t first ∧ first < gp_period_expires_at_ms period ∧
      (∀ close, recoverable period t close → first <= close) ∧
      ∀ c, require_hourly_recovery_commit plan c = Ok tt ↔ t <= c < first
  | None =>
      (∀ close, recoverable period t close → gp_period_expires_at_ms period <= close) ∧
      ∀ c, is_ok (require_hourly_recovery_commit plan c) = false
  end.
Proof.
  intros Hp H. unfold plan_hourly_recovery_close in H. cbv zeta in H.
  destruct (next_close_least period t Hp) as [Hn Hleast].
  set (first := next_recovery_close period t) in *.
  assert (Hv : validate_HourlyRecoveryClosePlan plan = Ok plan).
  { pose proof H as H'. unfold validate_HourlyRecoveryClosePlan in H' at 1.
    apply bind_Ok in H' as (u & _ & H'). apply Ok_inj in H'. by rewrite H' in H. }
  unfold validate_HourlyRecoveryClosePlan in H at 1. apply bind_Ok in H as (u & _ & H). apply Ok_inj in H.
  assert (Hcommit : ∀ c, require_hourly_recovery_commit plan c =
    (raise_if (bool_decide (hp_status plan = NO_ELIGIBLE_CLOSE_BEFORE_EXPIRY))
       (ValueError "NO_ELIGIBLE_CLOSE_BEFORE_EXPIRY");;
     raise_if match hp_first_eligible_close_time_ms plan with
              | None => true
              | Some first => negb ((hp_evaluated_at_ms plan <=? c) && (c <? first)
                                    && (first <? gp_period_expires_at_ms (hp_period plan)))
              end (ValueError "recovery commit crossed its future-close boundary; replan required"))).
  { intros c. assert (E : revalidate_plan plan = Ok plan).
    { unfold revalidate_plan. assert (E : hp_period plan = period) by by rewrite <- H. by rewrite E, Hp. }
    unfold require_hourly_recovery_commit. by rewrite E. }
  subst plan. destruct (Z.ltb_spec first (gp_period_expires_at_ms period)) as [Hlt|Hge]; cbn [hp_first_eligible_close_time_ms].
  - split_and!; try done. intros c. rewrite Hcommit. cbn. apply Z.ltb_lt in Hlt. rewrite Hlt, andb_true_r.
    destruct (Z.leb_spec t c), (Z.ltb_spec c first); cbn; split; intros; try done; lia.
  - split; [|by intros c; rewrite Hcommit]. intros close Hc. specialize (Hleast close Hc). lia.
Qed.

(** ** The closes of a gap *)

Lemma range_elem start stop t : on_the_hour start →
  t ∈ py_range start stop HOUR_MS ↔ on_the_hour t ∧ start <= t < stop.
Proof.
  intros [s Hs]%on_the_hour_iff. unfold py_range. rewrite list_elem_of_fmap. change HOUR_MS with 3600000. split.
  - intros (i & -> & Hi%elem_of_seq). split; [apply on_the_hour_iff; exists (s + Z.of_nat i); lia|].
    assert (Z.of_nat i < (stop - start + 3600000 - 1) / 3600000) by lia.
    assert (Z.of_nat i + 1 <= (stop - start + 3600000 - 1) / 3600000) by lia.
    pose proof (Z.mul_div_le (stop - start + 3600000 - 1) 3600000 ltac:(lia)). lia.
  - intros ([k Hk]%on_the_hour_iff & Hl & Hr). exists (Z.to_nat (k - s)). split; [lia|]. apply elem_of_seq.
    split; [lia|]. assert (k - s < (stop - start + 3600000 - 1) / 3600000); [|lia].
    assert (k - s + 1 <= (stop - start + 3600000 - 1) / 3600000); [|lia]. apply Z.div_le_lower_bound; lia.
Qed.

Lemma range_length start stop : length (py_range start stop HOUR_MS) = Z.to_nat ((stop - start + HOUR_MS - 1) / HOUR_MS).
Proof. unfold py_range. by rewrite length_fmap, length_seq. Qed.

Lemma range_nodup start stop : NoDup (py_range start stop HOUR_MS).
Proof.
  unfold py_range. apply NoDup_fmap_2; [|apply NoDup_seq]. intros i j. change HOUR_MS with 3600000. lia.
Qed.

(** The closes missed at a fence are the closes of the period up to it, each
    once; the count of the gap is theirs while the period lasts. *)
Theorem missed_closes_are_the_gap period fence l n :
  validate_GenericSelectionPeriod period = Ok period →
  missed_closes_at_gap_fence period fence = Ok l → uncovered_close_count_since_gap period fence = Ok n →
  NoDup l ∧
  (∀ t, t ∈ l ↔ on_the_hour t ∧ gp_scheduled_effective_at_ms period <= t <= fence ∧ t < gp_period_expires_at_ms period) ∧
  (fence < gp_period_expires_at_ms period → Z.of_nat (length l) = n).
Proof.
  intros Hp Hl Hn. unfold missed_closes_at_gap_fence, uncovered_close_count_since_gap in *.
  rewrite Hp in Hl, Hn. cbn [mbind result_bind] in Hl, Hn.
  apply bind_Ok in Hl as (u & Hf & Hl). apply bind_Ok in Hn as (u' & _ & Hn). apply Ok_inj in Hl, Hn.
  apply raise_if_Ok, Z.ltb_ge in Hf. pose proof (effective_on_the_hour period Hp) as He.
  pose proof (period_times period Hp) as (Hc & _ & _ & _ & Hx & _).
  destruct (last_close_spec fence) as (Hlc & Hlb & Hlg). subst l n. split_and!; [apply range_nodup| |].
  - intros t. rewrite range_elem by done. change HOUR_MS with 3600000 in *.
    assert (Hexp : on_the_hour (gp_period_expires_at_ms period)).
    { apply on_the_hour_iff. apply on_the_hour_iff in He as [k Hk]. exists (k + gp_cadence_hours period). lia. }
    split.
    + intros (Ht & H1 & H2). split_and!; try done; lia.
    + intros (Ht & (H1 & H2) & H3). split_and!; try done. specialize (Hlg t Ht H2).
      apply on_the_hour_iff in Ht as [k ->]. apply on_the_hour_iff in Hexp as [j Hj]. lia.
  - intros Hlt. rewrite range_length. change HOUR_MS with 3600000 in *.
    apply on_the_hour_iff in He as [k Hk]. apply on_the_hour_iff in Hlc as [j Hj]. rewrite Hk, Hj in *.
    assert (Hm : Z.min (j * 3600000) (gp_period_expires_at_ms period - 3600000) = j * 3600000) by lia.
    rewrite Hm. assert (E1 : j * 3600000 + 1 - k * 3600000 + 3600000 - 1 = (j - k + 1) * 3600000) by ring.
    assert (E2 : j * 3600000 - k * 3600000 = (j - k) * 3600000) by ring.
    rewrite E1, E2, !Z.div_mul by done. lia.
Qed.

(** ** The age of a membership *)

(** The periods of the source's cadence a period lies behind the source. *)
Definition periods_behind (f : DynamicMembershipFreshness) (p : GenericSelectionPeriod) : Z :=
  (gp_scheduled_effective_at_ms p - df_source_snapshot_effective_at_ms f) / (df_cadence_hours f * HOUR_MS).

Definition state_of_missed (missed : Z) : DynamicMembershipState :=
  if missed =? 0 then MEMBERSHIP_ACTIVE else if missed =? 1 then GRACE else SELECTION_STALE_PAUSED.

(** The same source, aged. *)
Definition aged (f : DynamicMembershipFreshness) (missed : Z) : DynamicMembershipFreshness :=
  mkFreshness (df_source_snapshot_id f) (df_source_member_set_digest f) (df_source_snapshot_cutoff_at_ms f)
    (df_source_snapshot_effective_at_ms f) (df_cadence_hours f) (df_membership_valid_until_ms f) missed
    (state_of_missed missed).

(** The memberships the operations produce. *)
Inductive membership : DynamicMembershipFreshness → Prop :=
  | membership_built id digest p f :
      validate_GenericSelectionPeriod p = Ok p → build_dynamic_membership_freshness id digest p = Ok f →
      membership f
  | membership_missed f p f' :
      membership f → record_dynamic_selection_miss f p = Ok f' → membership f'
  | membership_confirmed f id digest p at_ms f' :
      membership f → validate_GenericSelectionPeriod p = Ok p →
      confirm_dynamic_membership_snapshot f id digest p at_ms = Ok f' → membership f'.

Lemma miss_ages f p f' : df_state f = state_of_missed (df_consecutive_missed_periods f) →
  record_dynamic_selection_miss f p = Ok f' →
  0 < periods_behind f p ∧ f' = aged f (Z.max (df_consecutive_missed_periods f) (periods_behind f p)).
Proof.
  unfold record_dynamic_selection_miss. intros Hs H. apply bind_Ok in H as (? & _ & H).
  apply bind_Ok in H as (cadence & Hc & H). unfold cadence_ms in Hc. apply bind_Ok in Hc as (? & _ & Hc).
  apply Ok_inj in Hc. subst cadence. cbv zeta in H. fold (periods_behind f p) in H.
  apply bind_Ok in H as (? & Hr & H). apply raise_if_Ok, Z.leb_gt in Hr. split; [done|]. apply Ok_inj in H. subst f'.
  destruct (Z.leb_spec (periods_behind f p) (df_consecutive_missed_periods f)).
  - rewrite Z.max_l by done. unfold aged. rewrite <- Hs. by destruct f.
  - rewrite Z.max_r by lia. unfold aged, state_of_missed. destruct (Z.eqb_spec (periods_behind f p) 0); [lia|done].
Qed.

(** What the validator asks of a membership. *)
Definition well_formed (f : DynamicMembershipFreshness) : Prop :=
  validate_DynamicMembershipFreshness f = Ok f ∧ df_state f = state_of_missed (df_consecutive_missed_periods f).

Lemma aged_well_formed f missed : well_formed f → df_consecutive_missed_periods f <= missed → well_formed (aged f missed).
Proof.
  intros [Hv Hs] Hm. split; [|done]. unfold validate_DynamicMembershipFreshness in *.
  apply bind_Ok in Hv as (u & Hf & Hv). apply bind_Ok in Hv as (u' & Hm' & Hv). apply Ok_inj in Hv.
  cbn [aged df_source_snapshot_id df_source_member_set_digest df_source_snapshot_cutoff_at_ms
    df_source_snapshot_effective_at_ms df_cadence_hours df_membership_valid_until_ms].
  rewrite Hf. cbn [mbind result_bind]. apply validate_model_Ok in Hm'. rewrite bind_pass.
  2: { apply validate_model_Ok. unfold freshness_checks in *. cbv zeta in *. autorewrite with checks in *. cbn [fst] in *.
       destruct Hm' as (H1 & H2 & _). apply orb_false in H2 as [H2 H2']. apply Z.ltb_ge in H2'.
       cbn [aged df_source_snapshot_id df_source_member_set_digest df_source_snapshot_cutoff_at_ms
         df_source_snapshot_effective_at_ms df_cadence_hours df_membership_valid_until_ms
         df_consecutive_missed_periods df_state]. rewrite H2. unfold state_of_missed.
       split_and!; try done; [by apply Z.ltb_ge; lia|destruct (Z.eqb_spec missed 0); [by subst|destruct (Z.eqb_spec missed 1); done]..|].
       destruct (Z.eqb_spec missed 0); [done|]. destruct (Z.eqb_spec missed 1); [done|]. cbn. apply Z.ltb_ge. lia. }
  unfold aged. destruct f; cbn in *. by injection Hv as -> ->.
Qed.

Lemma built_well_formed id digest p f : build_dynamic_membership_freshness id digest p = Ok f →
  well_formed f ∧ df_consecutive_missed_periods f = 0.
Proof.
  unfold build_dynamic_membership_freshness. intros H. apply bind_Ok in H as (c & _ & H).
  unfold well_formed, validate_DynamicMembershipFreshness in *.
  apply bind_Ok in H as (u & Hf & H). apply bind_Ok in H as (u' & Hm & H). apply Ok_inj in H. subst f.
  split; [|done]. split; [|done]. apply validate_fields_Ok in Hf. autorewrite with checks in Hf. cbn [fst] in Hf.
  destruct Hf as (Hb & Hd & _). cbn [df_source_snapshot_id df_source_member_set_digest] in *.
  rewrite bind_pass.
  2: { apply validate_fields_Ok. rewrite blank_strip, strip_idemp, Hb, Hd. each_check done. }
  apply validate_model_Ok in Hm. rewrite bind_pass; [|apply validate_model_Ok; exact Hm].
  cbn. by rewrite !strip_idemp.
Qed.

(** C34: Every membership the operations produce passes its validator unchanged,
    and its state is the one its missed periods call for. *)
Theorem membership_is_well_formed f : membership f → well_formed f.
Proof.
  induction 1 as [id digest p f _ H|f p f' _ IH H|f id digest p at_ms f' _ IH _ H].
  - by apply built_well_formed in H as [H _].
  - apply miss_ages in H as [Hpos ->]; [|by destruct IH]. apply aged_well_formed; [done|lia].
  - unfold confirm_dynamic_membership_snapshot in H. do 2 (apply bind_Ok in H as (? & _ & H)).
    destruct (_ =? _); apply bind_Ok in H as (? & _ & H); [apply Ok_inj in H; by subst|].
    by apply built_well_formed in H as [H _].
Qed.

(** A run of misses. *)
Fixpoint record_misses (f : DynamicMembershipFreshness) (ps : list GenericSelectionPeriod)
    : result DynamicMembershipFreshness :=
  match ps with
  | [] => mret f
  | p :: ps => f' ← record_dynamic_selection_miss f p; record_misses f' ps
  end.

Lemma aged_behind f m p : periods_behind (aged f m) p = periods_behind f p.
Proof. done. Qed.

Lemma aged_aged f m n : aged (aged f m) n = aged f n.
Proof. done. Qed.

Lemma misses_age f ps f' : df_state f = state_of_missed (df_consecutive_missed_periods f) →
  record_misses f ps = Ok f' →
  f' = aged f (foldl Z.max (df_consecutive_missed_periods f) (periods_behind f <$> ps)).
Proof.
  revert f. induction ps as [|p ps IH]; cbn; intros f Hs H.
  - apply Ok_inj in H. subst f'. unfold aged. rewrite <- Hs. by destruct f.
  - apply bind_Ok in H as (g & Hg & H). apply miss_ages in Hg as [_ ->]; [|done].
    apply IH in H; [|done]. rewrite aged_aged in H. exact H.
Qed.

Lemma foldl_max_perm x l l' : l ≡ₚ l' → foldl Z.max x l = foldl Z.max x l'.
Proof.
  intros H. revert x. induction H as [|y l l' _ IH|y z l|l l' l'' _ IH1 _ IH2]; intros x; cbn; [done|by rewrite IH| |].
  - f_equal. lia.
  - by rewrite IH1.
Qed.

Lemma foldl_max_ge x l : x <= foldl Z.max x l ∧ ∀ y, y ∈ l → y <= foldl Z.max x l.
Proof.
  revert x. induction l as [|z l IH]; intros x; cbn; [split; [lia|by intros y ?%not_elem_of_nil]|].
  destruct (IH (Z.max x z)) as [H1 H2]. split; [lia|]. intros y [->|Hy]%elem_of_cons; [lia|by apply H2].
Qed.

(** The missed periods of a membership after a run of misses are those of the
    latest period missed, whatever their order and repetitions; its source stays
    what it was, so the membership ends at the deadline its source set; and it
    admits an ENTRY only before that deadline and with at most one period
    missed. *)
Theorem misses_count_the_age f ps ps' f1 f2 :
  membership f → ps ≡ₚ ps' → record_misses f ps = Ok f1 → record_misses f ps' = Ok f2 →
  f1 = f2 ∧ f1 = aged f (foldl Z.max (df_consecutive_missed_periods f) (periods_behind f <$> ps)) ∧
  ∀ now, allows_new_entry_at f1 now = true →
    df_source_snapshot_effective_at_ms f <= now
      < df_source_snapshot_effective_at_ms f + 2 * (df_cadence_hours f * HOUR_MS) ∧
    ∀ p, p ∈ ps → periods_behind f p <= 1.
Proof.
  intros Hf Hp H1 H2. pose proof (membership_is_well_formed f Hf) as [Hv Hs].
  apply misses_age in H1; [|done]. apply misses_age in H2; [|done].
  assert (E : foldl Z.max (df_consecutive_missed_periods f) (periods_behind f <$> ps)
            = foldl Z.max (df_consecutive_missed_periods f) (periods_behind f <$> ps')).
  { apply foldl_max_perm. by rewrite Hp. }
  split; [by rewrite H1, H2, E|]. split; [done|]. intros now Ha. rewrite H1 in Ha. unfold allows_new_entry_at in Ha.
  cbn [aged df_source_snapshot_effective_at_ms df_membership_valid_until_ms df_state] in Ha.
  apply andb_true in Ha as [Ha Hst]. apply andb_true in Ha as [Hlo Hhi]. apply Z.leb_le in Hlo. apply Z.ltb_lt in Hhi.
  unfold validate_DynamicMembershipFreshness in Hv. apply bind_Ok in Hv as (u & _ & Hv).
  apply bind_Ok in Hv as (u' & Hm & _). apply validate_model_Ok in Hm. unfold freshness_checks in Hm. cbv zeta in Hm.
  autorewrite with checks in Hm. cbn [fst] in Hm. destruct Hm as (_ & Hm & _).
  apply orb_false in Hm as [Hm Hpos]. apply orb_false in Hm as [_ Hm]. apply negb_false, Z.eqb_eq in Hm.
  apply Z.ltb_ge in Hpos. rewrite Hm in Hhi. split; [lia|]. intros p Hin.
  destruct (foldl_max_ge (df_consecutive_missed_periods f) (periods_behind f <$> ps)) as [Hge Hall].
  assert (Hbound : foldl Z.max (df_consecutive_missed_periods f) (periods_behind f <$> ps) <= 1).
  { apply negb_true, bool_decide_eq_false_1 in Hst. unfold state_of_missed in Hst.
    destruct (Z.eqb_spec (foldl Z.max (df_consecutive_missed_periods f) (periods_behind f <$> ps)) 0); [lia|].
    destruct (Z.eqb_spec (foldl Z.max (df_consecutive_missed_periods f) (periods_behind f <$> ps)) 1); [lia|done]. }
  etrans; [|exact Hbound]. apply Hall. by apply list_elem_of_fmap_2.
Qed.

(** ** One close, once *)

Lemma not_consumed close cursors : close_consumed close cursors = false →
  ∀ c t, c ∈ cursors → oc_last_observed_at_ms c = Some t → t < close.
Proof.
  unfold close_consumed. intros H c t Hin Ht. apply existsb_false in H. rewrite Forall_forall in H.
  specialize (H c Hin). rewrite Ht in H. cbn in H. by apply Z.leb_gt.
Qed.

(** C35: A grant of the current close commits exactly while that close is the
    latest and the period lasts; its selection was committed before the close,
    and no member has observed the close or a later one: once it is observed no
    other grant names it. *)
Theorem a_proof_commits_one_close proof c :
  require_current_close_commit proof c = Ok tt →
  let close := cf_current_final_close_time_ms proof in
  (cf_authority_granted_at_ms proof <= c < gp_period_expires_at_ms (cf_period proof) ∧ close <= c < close + HOUR_MS) ∧
  cf_selection_committed_at_ms proof < close ∧
  gp_feature_cutoff_at_ms (cf_period proof) + HOUR_MS <= close ∧
  (∀ cursor t, cursor ∈ cf_observation_cursors proof → oc_last_observed_at_ms cursor = Some t → t < close) ∧
  ∀ c', require_current_close_commit proof c' = Ok tt ↔
    cf_authority_granted_at_ms proof <= c' < gp_period_expires_at_ms (cf_period proof) ∧ close <= c' < close + HOUR_MS.
Proof.
  intros H close. pose proof H as Hall. unfold require_current_close_commit in H.
  apply bind_Ok in H as (p & Hp & H). apply bind_Ok in H as (cs & Hcs & H). apply bind_Ok in H as (proof' & Hv & H).
  assert (Hrest : ∀ c', require_current_close_commit proof c' = Ok tt ↔
    cf_authority_granted_at_ms proof <= c' < gp_period_expires_at_ms (cf_period proof) ∧ close <= c' < close + HOUR_MS).
  { intros c'. unfold require_current_close_commit. rewrite Hp, Hcs, Hv. cbn [mbind result_bind].
    unfold validate_CurrentFinalCloseGrantProof in Hv. apply bind_Ok in Hv as (? & _ & Hv).
    apply bind_Ok in Hv as (? & Hm & Hv). apply Ok_inj in Hv. subst proof'.
    cbn [cf_authority_granted_at_ms cf_period cf_current_final_close_time_ms]. fold close.
    apply validate_model_Ok in Hm. unfold close_proof_checks in Hm. cbv zeta in Hm. autorewrite with checks in Hm.
    cbn [fst] in Hm. destruct Hm as (Hm & _). fold close in Hm. apply orb_false in Hm as [Hm _].
    apply orb_false in Hm as [_ Hm]. apply negb_false, Z.eqb_eq in Hm. fold (on_the_hour close) in Hm.
    destruct (last_close_spec c') as (Hl & Hb & Hg).
    assert (Hlc : last_close c' = close ↔ close <= c' < close + HOUR_MS).
    { split; [intros E; rewrite E in *; lia|]. intros [E1 E2]. specialize (Hg close Hm E1).
      apply on_the_hour_iff in Hl as [j Hj]. apply on_the_hour_iff in Hm as [k Hk].
      rewrite Hj, Hk in *. change HOUR_MS with 3600000 in *. lia. }
    rewrite <- Hlc. unfold raise_if.
    destruct (Z.ltb_spec c' (cf_authority_granted_at_ms proof)); cbn; [split; [done|lia]|].
    destruct (Z.leb_spec (gp_period_expires_at_ms (cf_period proof)) c'); cbn; [split; [done|lia]|].
    destruct (Z.eqb_spec (last_close c') close); cbn; split; intros; try done; tauto. }
  split; [by apply Hrest|].
  unfold validate_CurrentFinalCloseGrantProof in Hv. apply bind_Ok in Hv as (? & _ & Hv).
  apply bind_Ok in Hv as (? & Hm & _). apply validate_model_Ok in Hm. unfold close_proof_checks in Hm. cbv zeta in Hm.
  autorewrite with checks in Hm. cbn [fst] in Hm. fold close in Hm.
  destruct Hm as (M1 & _ & _ & M4 & _ & M6 & M7 & _). apply Z.ltb_ge in M6. apply Z.leb_gt in M7.
  do 3 (apply orb_false in M1 as [M1 _]). apply negb_false, Z.eqb_eq in M1.
  split; [done|]. split; [lia|]. split; [by apply not_consumed|done].
Qed.

(** ** Samples *)

Module SampleTiming.
Definition hour (k : Z) : Z := k * HOUR_MS.
Definition period : GenericSelectionPeriod := mkPeriod (hour 4) 4 (hour 5) (hour 9).
Definition later (k : Z) : GenericSelectionPeriod := mkPeriod (hour (4 * k)) 4 (hour (4 * k + 1)) (hour (4 * k + 5)).
Definition plan : HourlyRecoveryClosePlan :=
  mkPlan "recovery" 1 AUTHORITY_GAP period (hour 6 + 1) FUTURE_CLOSE_REBASE_REQUIRED (Some (hour 7)).
Definition digest : str := Eval vm_compute in comparison_member_digest ["BTCUSDT"].
Definition fresh : DynamicMembershipFreshness :=
  mkFreshness "snapshot" digest (hour 4) (hour 5) 4 (hour 13) 0 MEMBERSHIP_ACTIVE.
Definition proof : CurrentFinalCloseGrantProof :=
  mkCloseProof "snapshot" (hour 5) (hour 4) period (hour 6) (hour 6 + 5)
    [mkCursor "key" "BTCUSDT" 1 0 0 (Some (hour 5))].

Lemma built : build_dynamic_membership_freshness "snapshot" digest period = Ok fresh.
Proof. vm_compute. reflexivity. Qed.

Lemma fresh_membership : membership fresh.
Proof. apply (membership_built "snapshot" digest period); [vm_compute; reflexivity|exact built]. Qed.
End SampleTiming.
Import SampleTiming.

Lemma recovery_plan_is_the_next_close_witness :
  recoverable period (hour 6 + 1) (hour 7) ∧ hour 7 < gp_period_expires_at_ms period ∧
  (∀ c, require_hourly_recovery_commit plan c = Ok tt ↔ hour 6 + 1 <= c < hour 7).
Proof.
  destruct (recovery_plan_is_the_next_close "recovery" 1 AUTHORITY_GAP period (hour 6 + 1) plan eq_refl eq_refl)
    as (H1 & H2 & _ & H4). split; [exact H1|]. split; [exact H2|exact H4].
Defined.

Lemma missed_closes_are_the_gap_witness :
  NoDup [hour 5; hour 6; hour 7] ∧ Z.of_nat (length [hour 5; hour 6; hour 7]) = 3.
Proof.
  destruct (missed_closes_are_the_gap period (hour 7 + 1) [hour 5; hour 6; hour 7] 3 eq_refl eq_refl eq_refl)
    as (H1 & _ & H3). split; [exact H1|]. apply H3. reflexivity.
Defined.

Lemma membership_is_well_formed_witness : well_formed fresh.
Proof. exact (membership_is_well_formed fresh fresh_membership). Defined.

Lemma misses_count_the_age_witness :
  record_misses fresh [later 2; later 3] = Ok (aged fresh 2) ∧
  ∀ now, allows_new_entry_at (aged fresh 2) now = true → hour 5 <= now < hour 5 + 2 * hour 4.
Proof.
  assert (H1 : record_misses fresh [later 2; later 3] = Ok (aged fresh 2)) by reflexivity.
  assert (H2 : record_misses fresh [later 3; later 2] = Ok (aged fresh 2)) by reflexivity.
  split; [exact H1|]. intros now Ha.
  destruct (misses_count_the_age fresh [later 2; later 3] [later 3; later 2] _ _ fresh_membership
    (perm_swap _ _ _) H1 H2) as (_ & _ & H3). exact (proj1 (H3 now Ha)).
Defined.

Lemma a_proof_commits_one_close_witness :
  require_current_close_commit proof (hour 6 + 9) = Ok tt ∧
  ∀ c, require_current_close_commit proof c = Ok tt ↔
    hour 6 + 5 <= c < hour 9 ∧ hour 6 <= c < hour 6 + HOUR_MS.
Proof.
  assert (H : require_current_close_commit proof (hour 6 + 9) = Ok tt) by reflexivity.
  split; [exact H|]. destruct (a_proof_commits_one_close proof (hour 6 + 9) H) as (_ & _ & _ & _ & H5). exact H5.
Defined.
