(* ===== verification/ExitProperties.v ===== *)
(** * What the exit policies guarantee

    The runner, pre-TP1 and quantity decisions of [ExitPolicy]. *)

From Stdlib Require Import QArith Qabs Lqa.
From S2P Require Import Prelude PyString Sha256 PyDecimal DecimalFacts Identities Ticket.
From S2P Require Import PostFillRisk CrossMarginStress Commands VenueTruth VacuumLateFill.
From S2P Require Import StrategyRegistry ExitPolicy Events Aggregate Reducer Lifecycle.
From S2P Require Import LifecycleInvariants LifecycleSpec Samples.
#[local] Open Scope Z_scope.

(** ** The runner *)

Lemma exit_decision_Ok kind reason w :
  kind ≠ MOVE_STOP → blank reason = false → 0 < w →
  exit_decision kind reason w = Ok (mkExitDecision kind reason w None).
Proof.
  intros Hk Hr Hw. unfold exit_decision, validate_ExitDecision. cbn.
  rewrite Hr. destruct (Z.leb_spec w 0); [lia|]. by destruct kind.
Qed.

(** What makes [evaluate_profile_runner_exit] applicable. *)
Record runner_inputs (p : ExitProfile) (current_stop floor tick : Decimal)
    (f : LifecycleMarketFacts) : Prop := {
  ri_profile : validate_RollingExtremeAtrRunnerRule (ep_runner p) = Ok (ep_runner p);
  ri_facts : validate_LifecycleMarketFacts f = Ok f;
  ri_stop : (0 < dval current_stop)%Q;
  ri_floor : (0 < dval floor)%Q;
  ri_tick : (0 < dval tick)%Q
}.

Lemma market_facts f :
  validate_LifecycleMarketFacts f = Ok f →
  0 < mf_watermark_ms f ∧ 0 <= mf_holding_bars f ∧ (0 < dval (mf_structure_reference f))%Q ∧
  (0 < dval (mf_atr f))%Q.
Proof.
  unfold validate_LifecycleMarketFacts. intros H. run_ok H. apply validate_model_Ok in E.
  rewrite !Forall_cons in E. cbn [fst] in E. destruct E as (E1 & E2 & _).
  rewrite !orb_false, !nonpositive_false in *. lia || (split_and!; try lia; tauto).
Qed.

Lemma runner_rule r :
  validate_RollingExtremeAtrRunnerRule r = Ok r →
  (0 <= dval (rr_atr_buffer_multiple r))%Q ∧ 0 < rr_minimum_improvement_ticks r.
Proof.
  unfold validate_RollingExtremeAtrRunnerRule. intros H. run_ok H. apply validate_model_Ok in E.
  rewrite !Forall_cons in E. cbn [fst] in E. destruct E as (_ & E2 & E3 & _).
  rewrite negative_false in E2. split; [done|lia].
Qed.

(** The raw stop of a long runner is where the ATR buffer ends. *)
Definition long_stop_vanishes (p : ExitProfile) (f : LifecycleMarketFacts) : Prop :=
  ep_position_side p = long ∧
  (dval (mf_structure_reference f - mf_atr f * rr_atr_buffer_multiple (ep_runner p))%dec <= 0)%Q.

Lemma rolling_stop_cases p current floor tick f :
  runner_inputs p current floor tick f →
  let stop := calculate_rolling_extreme_atr_stop (side_value (ep_position_side p))
                (mf_structure_reference f) (mf_atr f) (rr_atr_buffer_multiple (ep_runner p)) tick in
  (long_stop_vanishes p f ∧
     stop = Raise (ValueError "long structural runner stop must remain positive")) ∨
  (¬ long_stop_vanishes p f ∧ ∃ c, stop = Ok c ∧ (0 <= dval c)%Q ∧
     (ep_position_side p = short → (0 < dval c)%Q)).
Proof.
  intros [Hp Hf _ _ Ht]. apply market_facts in Hf as (_ & _ & Hs & Ha).
  apply runner_rule in Hp as [Hb _]. cbv zeta.
  unfold calculate_rolling_extreme_atr_stop, calculate_structural_runner_stop, long_stop_vanishes.
  set (offset := (mf_atr f * rr_atr_buffer_multiple (ep_runner p))%dec).
  assert (Ho : (0 <= dval offset)%Q) by (apply dmul_nonneg; [by apply Qlt_le_weak|done]).
  assert (G : (nonpositive (mf_structure_reference f) || nonpositive (mf_atr f)
               || negative (rr_atr_buffer_multiple (ep_runner p)) || nonpositive tick) = false)
    by (rewrite !orb_false, !nonpositive_false, negative_false; done).
  rewrite G. cbn [raise_if mbind result_bind]. destruct (ep_position_side p); cbn [side_value].
  - change (bool_decide ("long" = "long")) with true. cbn iota.
    destruct (nonpositive (mf_structure_reference f - offset)%dec) eqn:E; cbn [raise_if mbind result_bind].
    + left. split; [split; [done|]|done]. unfold nonpositive in E. by decimal_facts.
    + right. apply nonpositive_false in E. split; [intros [_ ?]; lra|].
      destruct (round_to_step_total (mf_structure_reference f - offset)%dec tick ROUND_FLOOR Ht) as [c Hc].
      exists c. split; [done|]. split; [|done].
      by apply (round_to_step_floor _ _ _ Ht (Qlt_le_weak _ _ E) Hc).
  - right. split; [by intros [? _]|]. change (bool_decide ("short" = "long")) with false.
    change (bool_decide ("short" = "short")) with true. cbn iota.
    destruct (round_to_step_total (mf_structure_reference f + offset)%dec tick ROUND_CEILING Ht) as [c Hc].
    exists c. split; [done|].
    assert (Hraw : (0 < dval (mf_structure_reference f + offset)%dec)%Q)
      by (apply -> fix_prec_pos; rewrite dval_raw_add; lra).
    pose proof (round_to_step_ceiling _ _ _ Ht (Qlt_le_weak _ _ Hraw) Hc) as B.
    assert (0 < shrunk 3 (dval (mf_structure_reference f + offset)%dec))%Q
      by (cbn [shrunk]; unfold eps; lra).
    split; [lra|intros _; lra].
Qed.

(** The required improvement, in the context's arithmetic. *)
Definition improves_enough (side : PositionSide) (p current tick : Decimal) (ticks : Z) : Prop :=
  let required := (tick * of_int ticks)%dec in
  match side with
  | long => (dval required <= dval (p - current)%dec)%Q
  | short => (dval required <= dval (current - p)%dec)%Q
  end.

Lemma runner_decision_cases side current floor tick ticks w reason c :
  (0 < dval tick)%Q → 0 < ticks → (0 < dval floor)%Q → 0 < w → blank reason = false →
  (0 <= dval c)%Q → (side = short → (0 < dval c)%Q) →
  let p := match side with long => dmax c floor | short => dmin c floor end in
  (¬ improves_enough side p current tick ticks ∧
     runner_decision side current floor tick ticks w reason c =
       Ok (mkExitDecision NO_CHANGE "runner_stop_not_improved" w None)) ∨
  (improves_enough side p current tick ticks ∧ at_floor side p floor ∧
     stop_improves side p current = true ∧ (0 < dval p)%Q ∧
     runner_decision side current floor tick ticks w reason c =
       Ok (mkExitDecision MOVE_STOP reason w (Some p))).
Proof.
  intros Ht Hk Hf Hw Hr Hc Hcs p. unfold runner_decision. cbv zeta. fold p.
  assert (Hp : (0 < dval p)%Q).
  { subst p. destruct side; [pose proof (dmax_ge_r c floor); lra|].
    specialize (Hcs eq_refl). destruct (dmin_cases c floor) as [-> | ->]; done. }
  assert (Hfl : at_floor side p floor)
    by (subst p; destruct side; cbn; [apply dmax_ge_r|apply dmin_le_r]).
  assert (Hreq : (0 < dval (tick * of_int ticks)%dec)%Q).
  { apply dmul_pos; [done|]. rewrite dval_of_int. change 0%Q with (inject_Z 0). by rewrite <- Zlt_Qlt. }
  assert (Hv : validate_ExitDecision (mkExitDecision MOVE_STOP reason w (Some p)) =
               Ok (mkExitDecision MOVE_STOP reason w (Some p))).
  { unfold validate_ExitDecision. cbn. rewrite Hr. destruct (Z.leb_spec w 0); [lia|].
    cbn. apply nonpositive_false in Hp. by rewrite Hp. }
  unfold improves_enough. cbv zeta.
  destruct side; destruct (dltb _ _) eqn:E; decimal_facts.
  1, 3: left; (split; [lra|by rewrite exit_decision_Ok]).
  all: right; split_and!; try done; cbn; apply dltb_spec, dsub_pos; lra.
Qed.

(** The runner evaluation always answers: on validated facts and rule and
    positive prices it returns a decision unless the ATR buffer of a long
    swallows the whole structure reference, the one case it raises in.  It
    exits exactly on a new, closed candle past the absolute time stop. *)
Theorem runner_evaluation_answers (p : ExitProfile) current floor tick last f :
  runner_inputs p current floor tick f →
  let fresh := last < mf_watermark_ms f ∧ mf_is_final_closed_candle f = true in
  let timed_out := time_stop_hit ABSOLUTE (ep_time_stop p) (mf_holding_bars f) = true in
  let answer := evaluate_profile_runner_exit p current floor tick last f in
  (answer = Raise (ValueError "long structural runner stop must remain positive") ∧
     fresh ∧ ¬ timed_out ∧ long_stop_vanishes p f) ∨
  (∃ d, answer = Ok d ∧ xd_source_watermark_ms d = mf_watermark_ms f ∧
        (xd_kind d = EXIT ↔ fresh ∧ timed_out) ∧
        (xd_kind d = MOVE_STOP → fresh ∧ ¬ timed_out ∧ ¬ long_stop_vanishes p f)).
Proof.
  intros Hi. destruct (market_facts f (ri_facts _ _ _ _ _ Hi)) as (Hw & _).
  pose proof (runner_rule _ (ri_profile _ _ _ _ _ Hi)) as [_ Hk]. cbv zeta.
  unfold evaluate_profile_runner_exit. rewrite bind_pass.
  2: { apply raise_if_pass. rewrite !orb_false, !nonpositive_false. destruct Hi. done. }
  destruct (Z.leb_spec (mf_watermark_ms f) last) as [Hl|Hl].
  { right. rewrite exit_decision_Ok by done. eexists. split; [done|]. cbn.
    split_and!; [done|split; [done|intros [[? _] _]; lia]|done]. }
  destruct (mf_is_final_closed_candle f); cbn [negb].
  2: { right. rewrite exit_decision_Ok by done. eexists. split; [done|]. cbn.
       split_and!; [done|split; [done|intros [[_ ?] _]; done]|done]. }
  destruct (time_stop_hit _ _ _).
  { right. rewrite exit_decision_Ok by done. eexists. split; [done|]. cbn. split_and!; done. }
  destruct (rolling_stop_cases _ _ _ _ _ Hi) as [[Hv ->]|(Hv & c & -> & Hc & Hcs)].
  { left. cbn [mbind result_bind]. split_and!; done. }
  right. cbn [mbind result_bind].
  destruct (runner_decision_cases (ep_position_side p) current floor tick
    (rr_minimum_improvement_ticks (ep_runner p)) (mf_watermark_ms f)
    "rolling_extreme_atr_runner_improvement" c (ri_tick _ _ _ _ _ Hi) Hk
    (ri_floor _ _ _ _ _ Hi) Hw eq_refl Hc Hcs) as [[_ ->]|(_ & _ & _ & _ & ->)];
    eexists; (split; [done|]); cbn; split_and!; try done; split; (done || intros [_ ?]; done).
Qed.

(** A long profile and facts that move the stop of the sample runner. *)
Module SampleExit.

Definition profile : ExitProfile :=
  mkExitProfile "exit-profile:sample" 1 long (mkTakeProfitRule d1 half) (mkFloorRule 2 2)
    (mkRollingRunner tf_15m 4 14 half 2) (Some (mkTimeStop 96 ABSOLUTE)) orb_guards.

(** The structure is at 106, the ATR 2: the raw stop is 105. *)
Definition facts : LifecycleMarketFacts := mkMarketFacts 40 true (of_int 108) (of_int 106) (of_int 2) 5.
Definition tick : Decimal := mkDecimal 1 (-1).

Definition move := Eval vm_compute in
  match evaluate_profile_runner_exit profile (of_int 101) (of_int 101) tick 17 facts with
  | Ok d => d
  | Raise _ => mkExitDecision NO_CHANGE "" 0 None
  end.

Lemma inputs : runner_inputs profile (of_int 101) (of_int 101) tick facts.
Proof. split; vm_compute; reflexivity. Qed.

End SampleExit.

Lemma runner_evaluation_answers_witness :
  ∃ d, evaluate_profile_runner_exit SampleExit.profile (of_int 101) (of_int 101) SampleExit.tick 17
         SampleExit.facts = Ok d.
Proof.
  destruct (runner_evaluation_answers _ _ _ _ 17 _ SampleExit.inputs) as [[H _]|(d & H & _)];
    [vm_compute in H; discriminate H|by exists d].
Defined.

(** C28: A move the evaluation decides is one the reducer accepts: with the
    active stop as the current stop, [RunnerStopRequested] for the proposed
    price goes through from RUNNER_PROTECTED; the price is at or beyond the
    break-even floor and better than the active stop by the rule's required
    ticks. *)
Theorem runner_move_is_reducible (p : ExitProfile) current floor tick last f d (a : TradeAggregate)
    stop_id event_id at_ms :
  runner_inputs p current floor tick f →
  evaluate_profile_runner_exit p current floor tick last f = Ok d → xd_kind d = MOVE_STOP →
  status a = RUNNER_PROTECTED → active_stop_exchange_order_id a = Some stop_id →
  active_stop_price a = Some current → position_side a = ep_position_side p →
  ∃ stop r, xd_proposed_stop d = Some stop ∧
    reduce_event (Some a)
      (mkEvent event_id (last_event_sequence a + 1) at_ms (tid a)
         (RunnerStopRequested stop (xd_source_watermark_ms d))) = Ok r ∧
    status (aggregate r) = RUNNER_REPLACEMENT_PENDING ∧
    pending_stop_price (aggregate r) = Some stop ∧
    at_floor (position_side a) stop floor ∧
    improves_enough (position_side a) stop current tick (rr_minimum_improvement_ticks (ep_runner p)).
Proof.
  intros Hi He Hk Hs Hid Hpr Hside.
  destruct (runner_evaluation_answers p current floor tick last f Hi) as [[H _]|(d' & H & Hwm & _ & Hm)];
    rewrite He in H; [discriminate H|]. apply Ok_inj in H as <-.
  destruct (Hm Hk) as ([Hl Hc] & Hto & Hv). clear Hm.
  destruct (market_facts f (ri_facts _ _ _ _ _ Hi)) as (Hw & _).
  pose proof (runner_rule _ (ri_profile _ _ _ _ _ Hi)) as [_ Hticks].
  unfold evaluate_profile_runner_exit in He. apply bind_Ok in He as (u & _ & He).
  rewrite (proj2 (Z.leb_gt _ _) Hl), Hc in He. cbn [negb] in He.
  destruct (time_stop_hit _ _ _) in He, Hto; [done|].
  destruct (rolling_stop_cases _ _ _ _ _ Hi) as [[? _]|(_ & c & Hcalc & Hc0 & Hcs)]; [done|].
  rewrite Hcalc in He. cbn [mbind result_bind] in He. rewrite Hside.
  destruct (runner_decision_cases (ep_position_side p) current floor tick
    (rr_minimum_improvement_ticks (ep_runner p)) (mf_watermark_ms f)
    "rolling_extreme_atr_runner_improvement" c (ri_tick _ _ _ _ _ Hi) Hticks
    (ri_floor _ _ _ _ _ Hi) Hw eq_refl Hc0 Hcs) as [[_ E]|(Himp & Hfl & Hst & Hpos & E)];
    rewrite E in He; apply Ok_inj in He; subst d; [discriminate Hk|].
  cbn [xd_proposed_stop xd_source_watermark_ms]. do 2 eexists. split; [done|]. split.
  - apply reduce_event_Some. split_and!; try done. unfold reduce_body. cbn [ev_body].
    unfold on_RunnerStopRequested. rewrite (bind_pass _ _ (require_status_pass _ _ Hs)), Hid, Hpr.
    rewrite bind_pass.
    2: { apply raise_if_pass, orb_false. split; [by apply dleb_false; rewrite dval_d0|lia]. }
    rewrite bind_pass; [reflexivity|]. apply raise_if_pass, negb_false.
    unfold position_side in Hside. by rewrite Hside.
  - read_fields. done.
Qed.

Lemma runner_move_is_reducible_witness :
  ∃ r, reduce_event (Some Sample.installed_state)
         (Sample.event 10 (RunnerStopRequested (mkDecimal 1050 (-1)) 40)) = Ok r.
Proof.
  destruct (runner_move_is_reducible SampleExit.profile (of_int 101) (of_int 101) SampleExit.tick 17
    SampleExit.facts SampleExit.move Sample.installed_state "stop-2" "event" 20)
    as (stop & r & Hs & Hr & _).
  - exact SampleExit.inputs.
  - vm_compute. reflexivity.
  - reflexivity.
  - reflexivity.
  - reflexivity.
  - reflexivity.
  - reflexivity.
  - injection Hs as <-. exists r. exact Hr.
Defined.

Lemma time_stops_decide p f :
  0 < mf_watermark_ms f →
  ∃ d, pre_tp1_time_stops p f = Ok d ∧ xd_kind d ≠ MOVE_STOP ∧
    xd_source_watermark_ms d = mf_watermark_ms f ∧
    (xd_kind d = EXIT ↔ ∃ t, ep_time_stop p = Some t ∧ ts_max_holding_bars t <= mf_holding_bars f).
Proof.
  intros Hw. unfold pre_tp1_time_stops, time_stop_hit.
  destruct (ep_time_stop p) as [[m mode]|]; cbn [opt_test ts_mode ts_max_holding_bars].
  2: { rewrite exit_decision_Ok by done. eexists. split; [done|]. cbn. naive_solver. }
  destruct (Z.leb_spec m (mf_holding_bars f)) as [Hm|Hm].
  - destruct mode.
    + change (bool_decide (PRE_TP1 = ABSOLUTE)) with false.
      change (bool_decide (PRE_TP1 = PRE_TP1)) with true. cbn [andb].
      rewrite exit_decision_Ok by done. eexists. split; [done|]. cbn. split_and!; try done.
      split; [by eexists|done].
    + change (bool_decide (ABSOLUTE = ABSOLUTE)) with true. cbn [andb].
      rewrite exit_decision_Ok by done. eexists. split; [done|]. cbn. split_and!; try done.
      split; [by eexists|done].
  - rewrite !andb_false_r, exit_decision_Ok by done. eexists. split; [done|]. cbn. split_and!; try done.
    split; [done|]. intros (t & [= <-] & Ht). cbn in Ht. lia.
Qed.

(** Before the first take-profit the plan is followed exactly: with the
    references its guards need, the evaluation always answers, never moves a
    stop, and exits if and only if the candle is closed and the session is
    over, the close is back through the reclaim reference, or the holding
    limit of the time stop — of either mode — is reached. *)
Theorem pre_tp1_exit_exactly (p : ExitProfile) f observed reclaim deadline :
  validate_LifecycleMarketFacts f = Ok f → mf_watermark_ms f <= observed →
  (SESSION_EXPIRY ∈ ep_pre_tp1_guards p → ∃ e, deadline = Some e ∧ 0 < e) →
  (RECLAIM_REFERENCE ∈ ep_pre_tp1_guards p → ∃ q, reclaim = Some q ∧ (0 < dval q)%Q) →
  ∃ d, evaluate_profile_pre_tp1_exit p f observed reclaim deadline = Ok d ∧
    xd_kind d ≠ MOVE_STOP ∧ xd_source_watermark_ms d = mf_watermark_ms f ∧
    (xd_kind d = EXIT ↔
       mf_is_final_closed_candle f = true ∧
       ((SESSION_EXPIRY ∈ ep_pre_tp1_guards p ∧ ∃ e, deadline = Some e ∧ e <= observed) ∨
        (RECLAIM_REFERENCE ∈ ep_pre_tp1_guards p ∧
           ∃ q, reclaim = Some q ∧ reclaim_hit (ep_position_side p) (mf_latest_close f) q = true) ∨
        ∃ t, ep_time_stop p = Some t ∧ ts_max_holding_bars t <= mf_holding_bars f)).
Proof.
  intros Hf Ho Hs Hr. destruct (market_facts f Hf) as (Hw & _).
  assert (Hreason : blank (reclaim_reason (ep_position_side p)) = false) by by destruct (ep_position_side p).
  unfold evaluate_profile_pre_tp1_exit. rewrite bind_pass by (apply raise_if_pass; lia).
  destruct (mf_is_final_closed_candle f); cbn [negb].
  2: { rewrite exit_decision_Ok by done. eexists. split; [done|]. cbn. naive_solver. }
  assert (Htime : ∃ d, pre_tp1_time_stops p f = Ok d ∧ xd_kind d ≠ MOVE_STOP ∧
    xd_source_watermark_ms d = mf_watermark_ms f ∧
    (xd_kind d = EXIT ↔ ∃ t, ep_time_stop p = Some t ∧ ts_max_holding_bars t <= mf_holding_bars f)).
  { by apply time_stops_decide. }
  assert (Hrec : ∃ d, pre_tp1_reclaim p f reclaim = Ok d ∧ xd_kind d ≠ MOVE_STOP ∧
    xd_source_watermark_ms d = mf_watermark_ms f ∧
    (xd_kind d = EXIT ↔
       (RECLAIM_REFERENCE ∈ ep_pre_tp1_guards p ∧
          ∃ q, reclaim = Some q ∧ reclaim_hit (ep_position_side p) (mf_latest_close f) q = true) ∨
       ∃ t, ep_time_stop p = Some t ∧ ts_max_holding_bars t <= mf_holding_bars f)).
  { unfold pre_tp1_reclaim. destruct (bool_decide _) eqn:Hg; decimal_facts.
    - destruct (Hr Hg) as (q & -> & Hq). apply nonpositive_false in Hq. rewrite Hq. cbn [raise_if mbind result_bind].
      destruct (reclaim_hit _ _ _) eqn:Hh.
      + rewrite exit_decision_Ok by done. eexists. split; [done|]. cbn. naive_solver.
      + destruct Htime as (d & ? & ? & ? & Hd). exists d. split_and!; try done. rewrite Hd.
        split; [by right|]. intros [(_ & q' & [= <-] & ?)|?]; [congruence|done].
    - destruct Htime as (d & Hd). exists d. naive_solver. }
  destruct (bool_decide _) eqn:Hg; decimal_facts.
  - destruct (Hs Hg) as (e & -> & He). rewrite bind_pass by (apply raise_if_pass; lia).
    destruct (Z.leb_spec e observed).
    + rewrite exit_decision_Ok by done. eexists. split; [done|]. cbn. naive_solver.
    + destruct Hrec as (d & ? & ? & ? & Hd). exists d. split_and!; try done. rewrite Hd.
      split; [naive_solver|]. intros (_ & [(_ & e' & [= <-] & ?)|?]); [lia|done].
  - destruct Hrec as (d & Hd). exists d. naive_solver.
Qed.

Lemma pre_tp1_exit_exactly_witness :
  ∃ d, evaluate_profile_pre_tp1_exit SampleExit.profile SampleExit.facts 50 (Some (of_int 102)) (Some 45)
       = Ok d ∧ xd_kind d = EXIT.
Proof.
  destruct (pre_tp1_exit_exactly SampleExit.profile SampleExit.facts 50 (Some (of_int 102)) (Some 45))
    as (d & Hd & _ & _ & H).
  - vm_compute. reflexivity.
  - vm_compute. discriminate.
  - intros _. exists 45. split; reflexivity.
  - intros _. exists (of_int 102). split; [reflexivity|vm_compute; reflexivity].
  - exists d. split; [exact Hd|]. apply H. split; [reflexivity|]. left. split.
    + apply list_elem_of_lookup. by exists 1%nat.
    + exists 45. split; [reflexivity|vm_compute; discriminate].
Defined.

(** ** Quantities and prices *)

Lemma split_inv total step fraction s :
  split_tp1_quantity total step fraction = Ok s →
  (0 < dval total)%Q ∧ (0 < dval step)%Q ∧ (0 < dval fraction < 1)%Q ∧
  (∃ k, (dval total == inject_Z k * dval step)%Q) ∧
  round_to_step (total * fraction)%dec step ROUND_FLOOR = Ok (tp_split_tp1_quantity s) ∧
  tp_split_runner_quantity s = (total - tp_split_tp1_quantity s)%dec ∧
  (0 < dval (tp_split_tp1_quantity s))%Q ∧ (0 < dval (tp_split_runner_quantity s))%Q.
Proof.
  intros H. unfold split_tp1_quantity in H.
  apply bind_Ok in H as (u1 & G1%raise_if_Ok & H). apply bind_Ok in H as (r & Hr & H).
  apply bind_Ok in H as (u2 & G2%raise_if_Ok & H). apply bind_Ok in H as (u3 & G3%raise_if_Ok & H).
  apply bind_Ok in H as (q & Hq & H). unfold validate_TakeProfitSplit in H.
  apply bind_Ok in H as (u4 & G4%validate_model_Ok & H). apply Ok_inj in H as <-.
  apply Forall_cons in G4 as [G4 _]. cbn [fst tp_split_tp1_quantity tp_split_runner_quantity] in *.
  rewrite !orb_false, !nonpositive_false in *. decimal_facts. rewrite dval_d1 in *.
  destruct G1, G4. split_and!; try done. by eapply dmod_zero.
Qed.

(** The take-profit split conserves the position: both legs are positive
    whole multiples of the venue's step, they add up to the total exactly —
    no rounding is lost — and the take-profit leg is not larger than its
    fraction of the total beyond four roundings.  (The total is assumed to
    fit the 28 digits of the context when written at the step's last place.) *)
Theorem split_conserves_quantity total step fraction s :
  split_tp1_quantity total step fraction = Ok s →
  (dval total < inject_Z (10 ^ context_prec) * p10 (expo step))%Q →
  let tp1 := tp_split_tp1_quantity s in
  let runner := tp_split_runner_quantity s in
  (0 < dval tp1)%Q ∧ (0 < dval runner)%Q ∧
  (dval tp1 + dval runner == dval total)%Q ∧
  (∃ n, (dval tp1 == inject_Z n * dval step)%Q) ∧
  (∃ m, (dval runner == inject_Z m * dval step)%Q) ∧
  (dval tp1 <= grown 4 (dval total * dval fraction))%Q.
Proof.
  intros H Hb. destruct (split_inv _ _ _ _ H) as (Ht & Hs & [Hf _] & [k Hk] & Hq & Hr & H1 & H2).
  cbv zeta. set (tp1 := tp_split_tp1_quantity s) in *. rewrite Hr in *.
  assert (Hlt : (dval tp1 < dval total)%Q) by (by apply dsub_pos).
  destruct (round_to_step_multiple _ _ _ _ total Hs (Qlt_le_weak _ _ H1) Hlt Hb Hq) as [n Hn].
  destruct (dsub_multiple total tp1 step k n Hs (Qlt_le_weak _ _ H1) (Qlt_le_weak _ _ Hlt) Hb Hk Hn)
    as [E1 E2].
  split_and!; try done; [rewrite E1; ring|by exists n|by exists (k - n)|].
  assert (Ht' := Qlt_le_weak _ _ Ht). assert (Hf' := Qlt_le_weak _ _ Hf).
  destruct (round_to_step_floor _ _ _ Hs (dmul_nonneg _ _ Ht' Hf') Hq) as [_ B].
  eapply Qle_trans; [exact B|]. change (grown 4 ?x) with (grown 3 (grown 1 x)). apply grown_mono.
  by apply dmul_upper.
Qed.

Lemma split_conserves_quantity_witness :
  split_tp1_quantity (mkDecimal 3003 (-3)) (mkDecimal 1 (-3)) half
    = Ok (mkSplit (mkDecimal 1501 (-3)) (mkDecimal 1502 (-3))) ∧
  (dval (mkDecimal 1501 (-3)) + dval (mkDecimal 1502 (-3)) == dval (mkDecimal 3003 (-3)))%Q.
Proof.
  assert (H : split_tp1_quantity (mkDecimal 3003 (-3)) (mkDecimal 1 (-3)) half
    = Ok (mkSplit (mkDecimal 1501 (-3)) (mkDecimal 1502 (-3)))) by (vm_compute; reflexivity).
  split; [exact H|].
  apply (split_conserves_quantity _ _ _ _ H). vm_compute. reflexivity.
Defined.

(** Products of nonnegative factors. *)
Ltac nonneg := repeat match goal with |- (0 <= _ * _)%Q => apply Qmult_le_0_compat end; done.

(** What the break-even calculation has checked. *)
Lemma financial_inputs entry q tick fee rate ticks u :
  require_financial_inputs entry q tick fee rate ticks = Ok u →
  (0 < dval entry)%Q ∧ (0 < dval q)%Q ∧ (0 < dval tick)%Q ∧ (0 <= dval fee)%Q ∧ 0 <= ticks ∧
  (0 <= dval rate < 1)%Q.
Proof.
  unfold require_financial_inputs. intros H.
  apply bind_Ok in H as (u1 & G1%raise_if_Ok & H). apply bind_Ok in H as (u2 & G2%raise_if_Ok & H).
  apply raise_if_Ok in H. rewrite !orb_false, ?nonpositive_false, ?negative_false in *. decimal_facts.
  rewrite dval_d1 in *. destruct G1 as [[? ?] ?], G2. split_and!; try done. lia.
Qed.

(** The slippage buffer is at most two roundings off. *)
Lemma slippage_bounds tick ticks q :
  (0 <= dval tick)%Q → 0 <= ticks → (0 <= dval q)%Q →
  let exact := (dval tick * inject_Z ticks * dval q)%Q in
  let s := (tick * of_int ticks * q)%dec in
  (0 <= exact)%Q ∧ (exact * (1 - eps) * (1 - eps) <= dval s)%Q.
Proof.
  intros Ht Hk Hq. cbv zeta. destruct eps_bounds as (E1 & _).
  assert (HkQ : (0 <= dval (of_int ticks))%Q)
    by (rewrite dval_of_int; change 0%Q with (inject_Z 0); by rewrite <- Zle_Qle).
  pose proof (dmul_nonneg _ _ Ht HkQ) as H1. pose proof (dmul_lower _ _ Ht HkQ) as L1.
  pose proof (dmul_lower _ _ H1 Hq) as L2. rewrite dval_of_int in L1, HkQ.
  split; [nonneg|].
  eapply Qle_trans; [|exact L2]. apply Qmult_le_compat_r; [|done].
  eapply Qle_trans; [|apply Qmult_le_compat_r; [exact L1|done]]. lra.
Qed.

Lemma eps_small : (0 < eps <= 1 # 1000)%Q.
Proof. split; vm_compute; [reflexivity|discriminate]. Qed.

Lemma break_even_long entry q fee rate tick ticks p :
  calculate_cost_adjusted_break_even "long" entry q fee rate tick ticks = Ok p →
  ((dval entry * dval q + dval fee + dval tick * inject_Z ticks * dval q)
     * (1 - (1 # 100000000000000000000000000)) <= dval p * (dval q * (1 - dval rate)))%Q.
Proof.
  intros H. unfold calculate_cost_adjusted_break_even in H. apply bind_Ok in H as (u & Hu & H).
  destruct (financial_inputs _ _ _ _ _ _ _ Hu) as (He & Hq & Ht & Hf & Hk & Hr0 & Hr1).
  change (bool_decide ("long" = "long")) with true in H. cbv zeta in H.
  apply bind_Ok in H as (raw & Hraw & H). clear Hu.
  assert (He' := Qlt_le_weak _ _ He). assert (Hq' := Qlt_le_weak _ _ Hq).
  assert (Ht' := Qlt_le_weak _ _ Ht). destruct eps_bounds as (E1 & E2 & _).
  destruct (slippage_bounds tick ticks q Ht' Hk Hq') as [HS Hs].
  set (S := (dval tick * inject_Z ticks * dval q)%Q) in *.
  set (s := (tick * of_int ticks * q)%dec) in *. set (n := (entry * q)%dec) in *.
  pose proof (dmul_lower _ _ He' Hq') as Hn. fold n in Hn.
  assert (HA : (0 <= dval entry * dval q)%Q) by (by apply Qmult_le_0_compat).
  assert (Hn0 : (0 <= dval n)%Q) by (by apply dmul_nonneg).
  assert (Hs0 : (0 <= dval s)%Q) by (eapply Qle_trans; [|exact Hs]; nonneg).
  assert (L1 : ((dval n + dval fee) * (1 - eps) <= dval (n + fee)%dec)%Q).
  { rewrite <- dval_raw_add. apply fix_prec_lower. rewrite dval_raw_add. lra. }
  assert (H10 : (0 <= dval (n + fee)%dec)%Q)
    by (eapply Qle_trans; [|exact L1]; apply Qmult_le_0_compat; [lra|done]).
  assert (L2 : ((dval (n + fee)%dec + dval s) * (1 - eps) <= dval (n + fee + s)%dec)%Q).
  { rewrite <- dval_raw_add. apply fix_prec_lower. rewrite dval_raw_add. lra. }
  assert (H20 : (0 <= dval (n + fee + s)%dec)%Q)
    by (eapply Qle_trans; [|exact L2]; apply Qmult_le_0_compat; [lra|done]).
  assert (Hd0 : (0 < dval (d1 - rate)%dec)%Q) by (apply dsub_pos; rewrite dval_d1; lra).
  assert (Hd1 : (dval (d1 - rate)%dec <= (1 - dval rate) * (1 + eps))%Q).
  { assert (Hraw1 : (dval (raw_add d1 (raw_neg rate)) == 1 - dval rate)%Q)
      by (rewrite dval_raw_add, dval_raw_neg, dval_d1; ring).
    rewrite <- Hraw1. apply fix_prec_upper. rewrite Hraw1. lra. }
  pose proof (dmul_pos _ _ Hq Hd0) as Hden. pose proof (dmul_upper _ _ Hq' (Qlt_le_weak _ _ Hd0)) as Hdu.
  set (den := (q * (d1 - rate))%dec) in *.
  destruct (ddiv_bounds _ _ _ H20 Hden Hraw) as [B _].
  pose proof (ddiv_nonneg _ _ _ H20 Hden Hraw) as Hraw0.
  pose proof (round_to_step_ceiling _ _ _ Ht Hraw0 H) as Hp. cbn [shrunk] in Hp.
  assert (Hp0 : (0 <= dval p)%Q) by (eapply Qle_trans; [|exact Hp]; nonneg).
  eapply Qle_trans; [apply shrunk_10; lra|]. cbn [shrunk].
  apply (long_cover eps _ (dval (n + fee + s)%dec) (dval den)); [apply eps_small|lra|done| |done|..].
  - apply Qmult_lt_0_compat; lra.
  - eapply Qle_trans; [|exact L2]. apply Qmult_le_compat_r; [|done].
    assert (((dval entry * dval q + dval fee) * (1 - eps) * (1 - eps) <= dval (n + fee)%dec)%Q).
    { eapply Qle_trans; [|exact L1]. apply Qmult_le_compat_r; [|done].
      assert (0 <= dval fee * eps)%Q by (apply Qmult_le_0_compat; [done|apply Qlt_le_weak, eps_small]). lra. }
    lra.
  - eapply Qle_trans; [exact Hdu|]. apply Qmult_le_compat_r; [|done].
    eapply Qle_trans; [apply Qmult_le_l; [done|exact Hd1]|]. lra.
  - assert (B' : (dval (n + fee + s)%dec * (1 - eps) * (1 - eps) <= dval raw * dval den)%Q).
    { apply (Qmult_le_compat_r _ _ (dval den)) in B; [|by apply Qlt_le_weak].
      eapply Qle_trans; [|exact B]. apply Qle_lteq; right. field. lra. }
    eapply Qle_trans; [|apply Qmult_le_compat_r; [exact Hp|by apply Qlt_le_weak]].
    assert (C : (dval (n + fee + s)%dec * (1 - eps) * (1 - eps) * ((1 - eps) * (1 - eps) * (1 - eps))
      <= dval raw * dval den * ((1 - eps) * (1 - eps) * (1 - eps)))%Q).
    { apply Qmult_le_compat_r; [done|]. nonneg. }
    lra.
Qed.

Lemma break_even_short entry q fee rate tick ticks p :
  calculate_cost_adjusted_break_even "short" entry q fee rate tick ticks = Ok p →
  (dval p * (dval q * (1 + dval rate)) + dval fee + dval tick * inject_Z ticks * dval q
     <= dval entry * dval q * (1 + (3 # 100000000000000000000000000)))%Q.
Proof.
  intros H. unfold calculate_cost_adjusted_break_even in H. apply bind_Ok in H as (u & Hu & H).
  destruct (financial_inputs _ _ _ _ _ _ _ Hu) as (He & Hq & Ht & Hf & Hk & Hr0 & Hr1).
  change (bool_decide ("short" = "long")) with false in H.
  change (bool_decide ("short" = "short")) with true in H. cbv zeta in H.
  apply bind_Ok in H as (raw & Hraw & H). apply bind_Ok in H as (u' & Hpos%raise_if_Ok & H). clear Hu.
  apply nonpositive_false in Hpos.
  assert (He' := Qlt_le_weak _ _ He). assert (Hq' := Qlt_le_weak _ _ Hq).
  assert (Ht' := Qlt_le_weak _ _ Ht). destruct eps_bounds as (E1 & E2 & _).
  destruct (slippage_bounds tick ticks q Ht' Hk Hq') as [HS Hs].
  set (S := (dval tick * inject_Z ticks * dval q)%Q) in *.
  set (s := (tick * of_int ticks * q)%dec) in *. set (n := (entry * q)%dec) in *.
  pose proof (dmul_upper _ _ He' Hq') as Hn. fold n in Hn.
  assert (Hd0 : (0 < dval (d1 + rate)%dec)%Q)
    by (apply -> fix_prec_pos; rewrite dval_raw_add, dval_d1; lra).
  assert (Hd1 : ((1 + dval rate) * (1 - eps) <= dval (d1 + rate)%dec)%Q).
  { assert (Hraw1 : (dval (raw_add d1 rate) == 1 + dval rate)%Q)
      by (rewrite dval_raw_add, dval_d1; ring).
    rewrite <- Hraw1. apply fix_prec_lower. rewrite Hraw1. lra. }
  pose proof (dmul_pos _ _ Hq Hd0) as Hden. pose proof (dmul_lower _ _ Hq' (Qlt_le_weak _ _ Hd0)) as Hdl.
  set (den := (q * (d1 + rate))%dec) in *. set (num := (n - fee - s)%dec) in *.
  pose proof (ddiv_pos_dividend _ _ _ Hden Hraw Hpos) as Hnum.
  pose proof (proj1 (dsub_pos _ _) Hnum) as Hsub.
  assert (Hs0 : (0 <= dval s)%Q) by (eapply Qle_trans; [|exact Hs]; nonneg).
  assert (Hnf : (dval fee < dval n)%Q) by (apply (proj1 (dsub_pos n fee)); lra).
  assert (U1 : (dval (n - fee)%dec <= (dval n - dval fee) * (1 + eps))%Q).
  { assert (R : (dval (raw_add n (raw_neg fee)) == dval n - dval fee)%Q)
      by (rewrite dval_raw_add, dval_raw_neg; ring).
    rewrite <- R. apply fix_prec_upper. rewrite R. lra. }
  assert (U2 : (dval num <= (dval (n - fee)%dec - dval s) * (1 + eps))%Q).
  { assert (R : (dval (raw_add (n - fee)%dec (raw_neg s)) == dval (n - fee)%dec - dval s)%Q)
      by (rewrite dval_raw_add, dval_raw_neg; ring).
    rewrite <- R. apply fix_prec_upper. rewrite R. lra. }
  destruct (ddiv_bounds _ _ _ (Qlt_le_weak _ _ Hnum) Hden Hraw) as [_ B].
  destruct (round_to_step_floor _ _ _ Ht (Qlt_le_weak _ _ Hpos) H) as [Hp0 Hp]. cbn [grown] in Hp.
  eapply Qle_trans.
  { apply (short_cover eps (dval entry * dval q) (dval fee) S
      (dval n) (dval (n - fee)%dec) (dval s) (dval num) (dval den) (dval q * (1 + dval rate)) (dval p));
      try exact eps_small; try done; [nonneg|apply Qmult_lt_0_compat; lra|..].
    - eapply Qle_trans; [|exact Hdl]. apply Qmult_le_compat_r; [|done].
      eapply Qle_trans; [|apply Qmult_le_l; [done|exact Hd1]]. lra.
    - assert (B' : (dval raw * dval den <= dval num * (1 + eps) * (1 + eps))%Q).
      { apply (Qmult_le_compat_r _ _ (dval den)) in B; [|by apply Qlt_le_weak].
        eapply Qle_trans; [exact B|]. apply Qle_lteq; right. field. lra. }
      eapply Qle_trans; [apply Qmult_le_compat_r; [exact Hp|by apply Qlt_le_weak]|].
      assert (C : (dval raw * dval den * ((1 + eps) * (1 + eps) * (1 + eps))
        <= dval num * (1 + eps) * (1 + eps) * ((1 + eps) * (1 + eps) * (1 + eps)))%Q)
        by (apply Qmult_le_compat_r; [done|nonneg]).
      lra. }
  apply Qmult_le_l; [nonneg|vm_compute; discriminate].
Qed.

(** The break-even floor covers the costs it is named after, on both
    sides: closing the runner at the floor returns at least the entry notional
    plus the allocated entry fee, the exit taker fee and the slippage buffer
    for a long — and for a short costs at most the entry notional less them —
    up to a few parts in 10^26 of decimal rounding; any other side raises. *)
Theorem break_even_covers_costs side entry q fee rate tick ticks p :
  calculate_cost_adjusted_break_even side entry q fee rate tick ticks = Ok p →
  let slippage := (dval tick * inject_Z ticks * dval q)%Q in
  (side = "long" ∧
     ((dval entry * dval q + dval fee + slippage) * (1 - (1 # 100000000000000000000000000))
      <= dval p * (dval q * (1 - dval rate)))%Q) ∨
  (side = "short" ∧
     (dval p * (dval q * (1 + dval rate)) + dval fee + slippage
      <= dval entry * dval q * (1 + (3 # 100000000000000000000000000)))%Q).
Proof.
  intros H. destruct (decide (side = "long")) as [->|Hl]; [left; split; [done|by apply break_even_long]|].
  destruct (decide (side = "short")) as [->|Hs]; [right; split; [done|by apply break_even_short]|].
  exfalso. unfold calculate_cost_adjusted_break_even in H. apply bind_Ok in H as (u & _ & H).
  by rewrite !bool_decide_eq_false_2 in H.
Qed.

Lemma break_even_covers_costs_witness :
  calculate_cost_adjusted_break_even "long" (of_int 100) (of_int 2) (mkDecimal 8 (-2))
    (mkDecimal 4 (-4)) (mkDecimal 1 (-1)) 2 = Ok (mkDecimal 1003 (-1)) ∧
  (199 < dval (mkDecimal 1003 (-1)) * 2)%Q.
Proof.
  assert (H : calculate_cost_adjusted_break_even "long" (of_int 100) (of_int 2) (mkDecimal 8 (-2))
    (mkDecimal 4 (-4)) (mkDecimal 1 (-1)) 2 = Ok (mkDecimal 1003 (-1))) by (vm_compute; reflexivity).
  split; [exact H|].
  destruct (break_even_covers_costs _ _ _ _ _ _ _ _ H) as [[_ _]|[E _]];
    [vm_compute; reflexivity|discriminate E].
Defined.
