(* ===== verification/Database.v ===== *)
(** * The durable tables ([infrastructure/pg_models.py], [infrastructure/pg_repositories.py])

    The tables a state reduction reads and writes, as finite maps from primary
    keys to rows, and the repository operations on them as transactions: state
    passing that stops at the first exception, whose writes are then lost.

    PostgreSQL is not part of the repository.  What is used of it: [INSERT]
    refuses a row that repeats a key or a unique value, [UPDATE ... WHERE]
    rewrites exactly the rows that satisfy the condition and counts them,
    [FOR UPDATE SKIP LOCKED] passes over the rows other transactions hold (the
    argument [locked]), a [NUMERIC] column keeps a decimal of its scale, a JSON
    payload is read back as the payload written, identities sort by their bytes.
    Left out: foreign keys to tables that are not here, CHECK constraints (they
    repeat the validators), and the historical Tickets [get] hides. *)

From stdpp Require Import gmap.
From S2P Require Import Prelude PyString PyDecimal Identities Ticket CrossMarginStress VenueTruth.
From S2P Require Import Capacity Admission Dispatch Events Aggregate.
From S2P Require Import Commands.
#[local] Open Scope Z_scope.

(** ** Rows *)

(** [trade_tickets]: the columns of the Ticket (its status among them), the
    netting domain it occupies while it is active, when it ended. *)
Record TicketRow := mkTicketRow {
  tr_ticket : TradeTicket;
  tr_netting_domain_key : str;
  tr_active_netting_domain_key : option str;
  tr_terminal_at_ms : option Z
}.

(** [trade_aggregates]: every field but the Ticket and its identity is read from
    this row.  The two due columns are written by the schedulers alone. *)
Record AggregateRow := mkAggregateRow {
  ar_aggregate : TradeAggregate;
  ar_updated_at_ms : Z;
  ar_lifecycle_due_at_ms : option Z;
  ar_reconciliation_due_at_ms : option Z
}.

(** [positions_current]: the last snapshot of a netting domain, and the Ticket
    that holds the position. *)
Record PositionRow := mkPositionRow {
  pr_ticket_id : option str;
  pr_snapshot : PositionSnapshot;
  pr_projection_version : Z
}.

(** [instrument_rules_current]: the certified facts of an instrument. *)
Record InstrumentRulesSnapshot := mkRulesSnapshot {
  is_venue_id : str;
  is_facts : InstrumentRulesFacts;
  is_projection_version : Z
}.

(** [TradeReviewRecord] without its two JSON documents. *)
Record TradeReviewRecord := mkReview {
  rv_review_id : str;
  rv_ticket_id : str;
  rv_revision : Z;
  rv_supersedes_review_id : option str;
  rv_outcome : str;
  rv_created_at_ms : Z
}.

(** [exchange_commands.result_payload]: a JSON document. *)
Inductive StoredResult :=
  | stored_result (r : ExchangeCommandResult)
  | stored_leverage (r : SetLeverageCommandResult)
  | stored_superseded (reason : str) (observed_at_ms : Z)
  | stored_reconciled_accepted (exchange_order_id : str) (observed_at_ms : Z)
  | stored_reconciled_absent (reason : str) (observed_at_ms : Z).

Record CommandRow := mkCommandRow {
  cw_command_id : str;
  cw_ticket_id : str;
  cw_command_kind : ExchangeCommandKind;
  cw_generation : Z;
  cw_idempotency_key : str;
  cw_venue_client_order_id : option str;
  cw_status : ExchangeCommandStatus;
  cw_quantity : option Decimal;
  cw_request_payload : CommandPayload;
  cw_result_payload : option StoredResult;
  cw_claim_owner : option str;
  cw_lease_until_ms : option Z;
  cw_created_at_ms : Z;
  cw_deadline_at_ms : Z;
  cw_completed_at_ms : option Z
}.

(** [BudgetReservationRecord]: [status] is "active" or "released". *)
Record BudgetReservationRecord := mkBudget {
  bu_budget_reservation_id : str;
  bu_ticket_id : str;
  bu_owner_policy_id : str;
  bu_venue_id : str;
  bu_account_id : str;
  bu_reserved_notional : Decimal;
  bu_reserved_risk : Decimal;
  bu_reserved_margin : Decimal;
  bu_planned_stop_risk_budget : Decimal;
  bu_risk_reservation_basis : str;
  bu_active : bool;
  bu_created_at_ms : Z;
  bu_released_at_ms : option Z
}.

Record AccountExposureSnapshot := mkExposure {
  ax_venue_id : str;
  ax_account_id : str;
  ax_gross_notional : Decimal;
  ax_gross_risk_at_stop : Decimal;
  ax_current_reserved_margin : Decimal;
  ax_active_ticket_count : Z;
  ax_projection_version : Z;
  ax_updated_at_ms : Z
}.

(** The one row of [entry_lane_current]: [status] is "idle" or "claimed". *)
Record EntryLaneSnapshot := mkLane {
  el_ticket_id : option str;
  el_signal_event_id : option str;
  el_claimed : bool;
  el_claimed_at_ms : option Z;
  el_lease_until_ms : option Z;
  el_claim_owner : option str;
  el_version : Z
}.

(** [details] is free-form and left out. *)
Record RuntimeIncidentRecord := mkIncident {
  ic_incident_id : str;
  ic_ticket_id : option str;
  ic_incident_kind : str;
  ic_open : bool;
  ic_first_blocker : str;
  ic_entry_block_scope : EntryBlockScope;
  ic_entry_block_key : option str;
  ic_opened_at_ms : Z;
  ic_resolved_at_ms : option Z
}.

Inductive MonitorOwnerStatus :=
  | NOT_ENABLED | RUNNING | WAITING_FOR_OPPORTUNITY | PROCESSING | TEMPORARILY_UNAVAILABLE
  | NEEDS_INTERVENTION | PAUSED | COMPLETED.
#[export] Instance MonitorOwnerStatus_eq_dec : EqDecision MonitorOwnerStatus.
Proof. solve_decision. Defined.

Record MonitorStateRecord := mkMonitor {
  mo_monitor_key : str;
  mo_owner_status : MonitorOwnerStatus;
  mo_summary : str;
  mo_intervention : str;
  mo_ticket_id : option str;
  mo_incident_id : option str;
  mo_updated_at_ms : Z;
  mo_projection_version : Z
}.

(** ** The database and its transactions *)

Record Database := mkDatabase {
  db_tickets : gmap str TicketRow;
  db_aggregates : gmap str AggregateRow;
  db_events : list TradeEvent;
  db_commands : gmap str CommandRow;
  db_claims : gmap str CapacityClaim;
  db_budgets : gmap str BudgetReservationRecord;
  db_exposure : gmap (str * str) AccountExposureSnapshot;
  db_lane : option EntryLaneSnapshot;
  db_incidents : gmap str RuntimeIncidentRecord;
  db_monitors : gmap str MonitorStateRecord;
  db_monitor_events : gmap str MonitorStateRecord;
  db_positions : gmap str PositionRow;
  db_reviews : gmap str TradeReviewRecord;
  db_rules : gmap (str * str) InstrumentRulesSnapshot
}.

Definition empty_database : Database := mkDatabase ∅ ∅ [] ∅ ∅ ∅ ∅ None ∅ ∅ ∅ ∅ ∅ ∅.

Definition eta_database (d : Database) : Database :=
  mkDatabase (db_tickets d) (db_aggregates d) (db_events d) (db_commands d) (db_claims d)
    (db_budgets d) (db_exposure d) (db_lane d) (db_incidents d) (db_monitors d) (db_monitor_events d)
    (db_positions d) (db_reviews d) (db_rules d).

Definition set_tickets : gmap str TicketRow → Database → Database :=
  ltac:(record_setter eta_database db_tickets).
Definition set_aggregates : gmap str AggregateRow → Database → Database :=
  ltac:(record_setter eta_database db_aggregates).
Definition set_events : list TradeEvent → Database → Database :=
  ltac:(record_setter eta_database db_events).
Definition set_commands : gmap str CommandRow → Database → Database :=
  ltac:(record_setter eta_database db_commands).
Definition set_claims : gmap str CapacityClaim → Database → Database :=
  ltac:(record_setter eta_database db_claims).
Definition set_budgets : gmap str BudgetReservationRecord → Database → Database :=
  ltac:(record_setter eta_database db_budgets).
Definition set_exposure : gmap (str * str) AccountExposureSnapshot → Database → Database :=
  ltac:(record_setter eta_database db_exposure).
Definition set_lane : option EntryLaneSnapshot → Database → Database :=
  ltac:(record_setter eta_database db_lane).
Definition set_incidents : gmap str RuntimeIncidentRecord → Database → Database :=
  ltac:(record_setter eta_database db_incidents).
Definition set_monitors : gmap str MonitorStateRecord → Database → Database :=
  ltac:(record_setter eta_database db_monitors).
Definition set_monitor_events : gmap str MonitorStateRecord → Database → Database :=
  ltac:(record_setter eta_database db_monitor_events).

Definition set_positions : gmap str PositionRow → Database → Database :=
  ltac:(record_setter eta_database db_positions).
Definition set_reviews : gmap str TradeReviewRecord → Database → Database :=
  ltac:(record_setter eta_database db_reviews).

Definition set_rules : gmap (str * str) InstrumentRulesSnapshot → Database → Database :=
  ltac:(record_setter eta_database db_rules).

(** A transaction: what it returns and the tables it leaves, or an exception. *)
Definition txn (A : Type) : Type := Database → result (A * Database).

#[export] Instance txn_ret : MRet txn := λ A a db, Ok (a, db).
#[export] Instance txn_bind : MBind txn := λ A B f m db,
  match m db with Ok (a, db') => f a db' | Raise e => Raise e end.

Definition lift {A} (m : result A) : txn A := λ db,
  match m with Ok a => Ok (a, db) | Raise e => Raise e end.
Definition raise {A} (e : exn) : txn A := λ db, Raise e.
Definition check (cond : bool) (e : exn) : txn unit := lift (raise_if cond e).
Definition select {A} (f : Database → A) : txn A := λ db, Ok (f db, db).
Definition query {A} (f : Database → result A) : txn A := λ db,
  match f db with Ok a => Ok (a, db) | Raise e => Raise e end.
Definition modify (f : Database → Database) : txn unit := λ db, Ok (tt, f db).

Fixpoint for_each {A} (f : A → txn unit) (l : list A) : txn unit :=
  match l with
  | [] => mret tt
  | x :: l => f x;; for_each f l
  end.

(** ** [UPDATE ... WHERE]: the rewritten table and the row count *)

Definition update_where {V} (condition : str → V → bool) (values : V → V) (table : gmap str V)
    : gmap str V :=
  map_imap (λ k v, Some (if condition k v then values v else v)) table.
Definition rowcount {V} (condition : str → V → bool) (table : gmap str V) : Z :=
  Z.of_nat (size (filter (λ kv : str * V, condition kv.1 kv.2 = true) table)).

(** The condition on a primary key and on the rest of the row. *)
Definition with_key {V} (key : str) (condition : V → bool) (k : str) (v : V) : bool :=
  bool_decide (k = key) && condition v.

Section update.
Context {V : Type} (table_of : Database → gmap str V) (set_table : gmap str V → Database → Database).

(** An update that must rewrite exactly one row. *)
Definition update_one (condition : str → V → bool) (values : V → V) (e : exn) : txn unit :=
  table ← select table_of;
  check (negb (rowcount condition table =? 1)) e;;
  modify (set_table (update_where condition values table)).

Definition update_all (condition : str → V → bool) (values : V → V) : txn unit :=
  table ← select table_of;
  modify (set_table (update_where condition values table)).

(** An insert of a row that must not conflict with another one. *)
Definition insert_row (key : str) (conflict : V → bool) (row : V) : txn unit :=
  table ← select table_of;
  check (negb (is_none (table !! key)) || existsb (λ kv : str * V, conflict kv.2) (map_to_list table))
    IntegrityError;;
  modify (set_table (<[key := row]> table)).
End update.

(** The first row of an [ORDER BY] with its key compared last. *)
Definition first_by {A} (le : A → A → bool) (l : list A) : option A := head (sort_by le l).

(** ** Tickets *)

(** [_ticket_values]; the netting domain is active from the start. *)
Definition ticket_row (t : TradeTicket) : TicketRow :=
  let key := netting_domain_key (ti_netting_domain (tk_identity t)) in
  mkTicketRow t key (Some key) None.

Definition same_opt (a b : option str) : bool :=
  match a, b with Some x, Some y => bool_decide (x = y) | _, _ => false end.

(** [PostgresTicketRepository.add] *)
Definition add_ticket (t : TradeTicket) : txn unit :=
  insert_row db_tickets set_tickets (ti_ticket_id (tk_identity t))
    (λ r, bool_decide (ti_signal_event_id (tk_identity (tr_ticket r)) = ti_signal_event_id (tk_identity t))
          || same_opt (tr_active_netting_domain_key r) (tr_active_netting_domain_key (ticket_row t)))
    (ticket_row t).

(** [PostgresTicketRepository.get] *)
Definition get_ticket (ticket_id : str) (db : Database) : option TradeTicket :=
  tr_ticket <$> db_tickets db !! ticket_id.

Definition set_ticket_status (s : TicketStatus) (t : TradeTicket) : TradeTicket :=
  {| tk_identity := tk_identity t; tk_owner_policy_id := tk_owner_policy_id t;
     tk_owner_policy_version := tk_owner_policy_version t; tk_runtime_scope_id := tk_runtime_scope_id t;
     tk_runtime_scope_version := tk_runtime_scope_version t;
     tk_universe_version_id := tk_universe_version_id t;
     tk_universe_semantic_digest := tk_universe_semantic_digest t; tk_fact_digest := tk_fact_digest t;
     tk_exposure_family := tk_exposure_family t;
     tk_active_family_ticket_count_at_claim := tk_active_family_ticket_count_at_claim t;
     tk_family_ticket_limit := tk_family_ticket_limit t;
     tk_directional_risk_at_stop_at_claim := tk_directional_risk_at_stop_at_claim t;
     tk_directional_stop_risk_limit_fraction := tk_directional_stop_risk_limit_fraction t;
     tk_min_materialization_ratio := tk_min_materialization_ratio t;
     tk_minimum_stop_risk_budget := tk_minimum_stop_risk_budget t; tk_exit_policy_id := tk_exit_policy_id t;
     tk_exit_policy_semantic_hash := tk_exit_policy_semantic_hash t;
     tk_exit_binding_id := tk_exit_binding_id t;
     tk_exit_binding_semantic_hash := tk_exit_binding_semantic_hash t;
     tk_exit_binding_authority_version := tk_exit_binding_authority_version t;
     tk_capacity_claim_id := tk_capacity_claim_id t; tk_created_at_ms := tk_created_at_ms t;
     tk_expires_at_ms := tk_expires_at_ms t; tk_entry_reference_price := tk_entry_reference_price t;
     tk_quantity := tk_quantity t; tk_notional := tk_notional t;
     tk_planned_stop_risk_budget := tk_planned_stop_risk_budget t;
     tk_post_fill_stop_risk_limit := tk_post_fill_stop_risk_limit t;
     tk_selected_leverage := tk_selected_leverage t;
     tk_leverage_change_required := tk_leverage_change_required t;
     tk_reserved_margin := tk_reserved_margin t; tk_risk_reservation_basis := tk_risk_reservation_basis t;
     tk_post_stop_stress_multiple := tk_post_stop_stress_multiple t;
     tk_claim_stress_proof_digest := tk_claim_stress_proof_digest t; tk_risk_at_stop := tk_risk_at_stop t;
     tk_entry_order_type := tk_entry_order_type t; tk_entry_limit_price := tk_entry_limit_price t;
     tk_initial_stop_price := tk_initial_stop_price t; tk_pre_tp1_reclaim_price := tk_pre_tp1_reclaim_price t;
     tk_exposure_session_end_ms := tk_exposure_session_end_ms t;
     tk_take_profit_prices := tk_take_profit_prices t; tk_take_profit_quantities := tk_take_profit_quantities t;
     tk_status := s; tk_selection_authority_id := tk_selection_authority_id t |}.

(** [PostgresTicketRepository.mark_terminal] *)
Definition mark_terminal (ticket_id : str) (status : TicketStatus) (terminal_at_ms : Z) : txn unit :=
  update_one db_tickets set_tickets (with_key ticket_id (λ _, true))
    (λ r, mkTicketRow (set_ticket_status status (tr_ticket r)) (tr_netting_domain_key r) None
            (Some terminal_at_ms))
    (AggregateVersionConflict "Ticket missing during terminalization").

(** [PostgresTicketRepository.release_active_netting_domain] *)
Definition release_active_netting_domain (ticket_id key : str) : txn unit :=
  update_one db_tickets set_tickets
    (with_key ticket_id (λ r, same_opt (tr_active_netting_domain_key r) (Some key)))
    (λ r, mkTicketRow (tr_ticket r) (tr_netting_domain_key r) None (tr_terminal_at_ms r))
    (AggregateVersionConflict "active Netting Domain is missing during release").

(** ** Aggregates *)

Definition set_ticket : TradeTicket → TradeAggregate → TradeAggregate :=
  ltac:(record_setter eta_aggregate ticket).
Definition set_identity : TicketIdentity → TradeAggregate → TradeAggregate :=
  ltac:(record_setter eta_aggregate identity).

(** [_aggregate_from_row] *)
Definition aggregate_from_row (r : AggregateRow) (t : TradeTicket) : TradeAggregate :=
  set_ticket t (set_identity (tk_identity t) (ar_aggregate r)).

(** [PostgresAggregateRepository._get], of the tables [db] it reads. *)
Definition get_aggregate (ticket_id : str) (db : Database) : result (option TradeAggregate) :=
  match db_aggregates db !! ticket_id with
  | None => mret None
  | Some row =>
      match get_ticket ticket_id db with
      | None => Raise (RuntimeError "aggregate exists without immutable Ticket")
      | Some t => mret (Some (aggregate_from_row row t))
      end
  end.

Definition get_for_update (ticket_id : str) : txn (option TradeAggregate) :=
  query (get_aggregate ticket_id).

(** [PostgresAggregateRepository.add] *)
Definition add_aggregate (a : TradeAggregate) (updated_at_ms : Z) : txn unit :=
  check (negb (version a =? 1) || negb (last_event_sequence a =? 1))
    (AggregateVersionConflict "new aggregate must start at version one");;
  insert_row db_aggregates set_aggregates (ti_ticket_id (identity a)) (λ _, false)
    (mkAggregateRow a updated_at_ms None None).

(** [PostgresAggregateRepository.save] *)
Definition save_aggregate (a : TradeAggregate) (expected_version updated_at_ms : Z) : txn unit :=
  current ← get_for_update (ti_ticket_id (identity a));
  match current with
  | None => raise (AggregateVersionConflict "aggregate does not exist")
  | Some current =>
      check (negb (version current =? expected_version))
        (AggregateVersionConflict ("expected aggregate version " +:+ string_of_Z expected_version
                                   +:+ ", found " +:+ string_of_Z (version current)));;
      check (negb (version a =? expected_version + 1))
        (AggregateVersionConflict "next aggregate version must increment once");;
      check (last_event_sequence a <=? last_event_sequence current)
        (AggregateVersionConflict "event sequence must advance monotonically");;
      update_one db_aggregates set_aggregates
        (with_key (ti_ticket_id (identity a)) (λ r, version (ar_aggregate r) =? expected_version))
        (λ r, mkAggregateRow a updated_at_ms (ar_lifecycle_due_at_ms r) (ar_reconciliation_due_at_ms r))
        (AggregateVersionConflict "aggregate changed during save")
  end.

(** The column a kind of work is due by. *)
Inductive WorkKind := work_lifecycle | work_reconciliation.

Definition set_due (kind : WorkKind) (due_at_ms : Z) (r : AggregateRow) : AggregateRow :=
  match kind with
  | work_lifecycle =>
      mkAggregateRow (ar_aggregate r) (ar_updated_at_ms r) (Some due_at_ms) (ar_reconciliation_due_at_ms r)
  | work_reconciliation =>
      mkAggregateRow (ar_aggregate r) (ar_updated_at_ms r) (ar_lifecycle_due_at_ms r) (Some due_at_ms)
  end.
Definition due_at (kind : WorkKind) (r : AggregateRow) : Z :=
  match (match kind with
         | work_lifecycle => ar_lifecycle_due_at_ms r
         | work_reconciliation => ar_reconciliation_due_at_ms r
         end) with
  | Some t => t
  | None => ar_updated_at_ms r
  end.

(** [PostgresAggregateRepository.schedule_next_check] *)
Definition schedule_next_check (ticket_id : str) (kind : WorkKind) (due_at_ms : Z) : txn unit :=
  check (due_at_ms <=? 0) (ValueError "aggregate next-check time must be positive");;
  update_one db_aggregates set_aggregates (with_key ticket_id (λ _, true)) (set_due kind due_at_ms)
    (AggregateVersionConflict "aggregate missing during reschedule").

(** The statuses whose reconciliation is about safety. *)
Definition CRITICAL_STATUSES : list AggregateStatus := POST_FILL_RISK_PENDING :: RECONCILIATION_POSITION_STATUSES.

(** [PostgresAggregateRepository.expedite_reconciliation] *)
Definition expedite_reconciliation (ticket_id : str) (due_at_ms : Z) : txn unit :=
  check (due_at_ms <=? 0) (ValueError "aggregate expedite time must be positive");;
  update_all db_aggregates set_aggregates
    (with_key ticket_id (λ r, bool_decide (status (ar_aggregate r) ∈ CRITICAL_STATUSES)))
    (λ r, set_due work_reconciliation (Z.min (due_at work_reconciliation r) due_at_ms) r).

(** The first due row of some statuses that no other transaction holds. *)
Definition due_before (kind : WorkKind) (a b : str * AggregateRow) : bool :=
  (due_at kind a.2 <? due_at kind b.2) || ((due_at kind a.2 =? due_at kind b.2) && String.leb a.1 b.1).
Definition next_due (locked : list str) (kind : WorkKind) (statuses : list AggregateStatus) (now_ms : Z)
    (db : Database) : option str :=
  fst <$> first_by (due_before kind)
    (filter (λ kr, status (ar_aggregate kr.2) ∈ statuses ∧ (due_at kind kr.2 <=? now_ms) = true ∧ kr.1 ∉ locked)
       (map_to_list (db_aggregates db))).

(** [PostgresAggregateRepository.get_next_for_statuses], of scheduled work. *)
Definition get_next_for_statuses (locked : list str) (statuses : list AggregateStatus) (kind : WorkKind)
    (now_ms : Z) (db : Database) : result (option TradeAggregate) :=
  match statuses with
  | [] => mret None
  | _ =>
      raise_if (now_ms <=? 0) (ValueError "scheduled aggregate selection requires positive now_ms");;
      match next_due locked kind statuses now_ms db with
      | None => mret None
      | Some ticket_id => get_aggregate ticket_id db
      end
  end.

(** [PostgresAggregateRepository.claim_next_critical_reconciliation_work] *)
Definition claim_next_critical_reconciliation_work (locked : list str) (now_ms : Z) (db : Database)
    : result (option TradeAggregate) :=
  raise_if (now_ms <=? 0) (ValueError "reconciliation selector requires positive now_ms");;
  match next_due locked work_reconciliation CRITICAL_STATUSES now_ms db with
  | None => mret None
  | Some ticket_id => get_aggregate ticket_id db
  end.

(** [PostgresAggregateRepository.claim_next_routine_reconciliation_work]: the
    claim is a lease in the due column. *)
Definition claim_next_routine_reconciliation_work (locked : list str) (worker_id : str)
    (now_ms lease_until_ms : Z) : txn (option TradeAggregate) :=
  check (blank worker_id) (ValueError "reconciliation claim worker must be non-blank");;
  check ((now_ms <=? 0) || (lease_until_ms <=? now_ms))
    (ValueError "reconciliation claim lease must be future-dated");;
  next ← select (next_due locked work_reconciliation [SETTLEMENT_PENDING; REVIEW_PENDING] now_ms);
  match next with
  | None => mret None
  | Some ticket_id =>
      table ← select db_aggregates;
      let leased := with_key ticket_id (λ r, due_at work_reconciliation r <=? now_ms) in
      modify (set_aggregates (update_where leased (set_due work_reconciliation lease_until_ms) table));;
      if rowcount leased table =? 1 then query (get_aggregate ticket_id) else mret None
  end.

(** ** Events *)

(** [_event_ticket_id] *)
Definition event_ticket_id (e : TradeEvent) : str :=
  match ev_body e with
  | TicketIssued t => ti_ticket_id (tk_identity t)
  | _ => ev_ticket_id e
  end.

(** [PostgresEventRepository.append] *)
Definition append_event (e : TradeEvent) : txn unit :=
  log ← select db_events;
  check (existsb (λ x, bool_decide (ev_event_id x = ev_event_id e)
                       || (bool_decide (event_ticket_id x = event_ticket_id e)
                           && (ev_sequence x =? ev_sequence e))) log) IntegrityError;;
  modify (set_events (log ++ [e])).

(** ** Exchange commands *)

(** The row of a new command. *)
Definition command_row (c : ExchangeCommand) : CommandRow :=
  mkCommandRow (ec_command_id c) (ti_ticket_id (ec_ticket_identity c)) (ec_kind c) (ec_generation c)
    (ec_idempotency_key c) (ec_venue_client_order_id c) (ec_status c)
    (match ec_payload c with OrderPayload p => Some (op_quantity p) | _ => None end)
    (ec_payload c) None None None (ec_created_at_ms c) (ec_deadline_at_ms c) None.

(** [PostgresExchangeCommandRepository.add] *)
Definition add_command (c : ExchangeCommand) : txn unit :=
  insert_row db_commands set_commands (ec_command_id c)
    (λ r, bool_decide (cw_idempotency_key r = ec_idempotency_key c)
          || same_opt (cw_venue_client_order_id r) (ec_venue_client_order_id c)
          || (bool_decide (cw_ticket_id r = ti_ticket_id (ec_ticket_identity c))
              && bool_decide (cw_command_kind r = ec_kind c)
              && (cw_generation r =? ec_generation c)))
    (command_row c).

(** [_command_from_row] *)
Definition command_from_row (r : CommandRow) (t : TradeTicket) : result ExchangeCommand :=
  validate_ExchangeCommand
    (mkExchangeCommand (cw_command_id r) (tk_identity t) (cw_command_kind r) (cw_generation r)
       (cw_idempotency_key r) (cw_venue_client_order_id r) (cw_request_payload r) (cw_status r)
       (cw_created_at_ms r) (cw_deadline_at_ms r)).

Definition load_command (db : Database) (r : CommandRow) : result ExchangeCommand :=
  match get_ticket (cw_ticket_id r) db with
  | None => Raise (RuntimeError "exchange command exists without immutable Ticket")
  | Some t => command_from_row r t
  end.

(** [PostgresExchangeCommandRepository.get], of the tables it reads. *)
Definition get_command (command_id : str) (db : Database) : result (option ExchangeCommand) :=
  match db_commands db !! command_id with
  | None => mret None
  | Some r => c ← load_command db r; mret (Some c)
  end.

(** Rows by creation, then by identity. *)
Definition created_before (a b : CommandRow) : bool :=
  (cw_created_at_ms a <? cw_created_at_ms b)
  || ((cw_created_at_ms a =? cw_created_at_ms b) && String.leb (cw_command_id a) (cw_command_id b)).

Definition command_rows (db : Database) : list CommandRow := (map_to_list (db_commands db)).*2.

(** [PostgresExchangeCommandRepository.list_for_ticket] *)
Definition list_for_ticket (ticket_id : str) (db : Database) : result (list ExchangeCommand) :=
  map_result (load_command db)
    (sort_by created_before (filter (λ r, cw_ticket_id r = ticket_id) (command_rows db))).

(** [PostgresExchangeCommandRepository.next_generation] *)
Definition next_generation (ticket_id : str) (kind : ExchangeCommandKind) (db : Database) : Z :=
  foldr Z.max 0 (cw_generation <$>
    filter (λ r, cw_ticket_id r = ticket_id ∧ cw_command_kind r = kind) (command_rows db)) + 1.

(** The filters of the two queues: of one Ticket, of some kinds. *)
Definition in_scope (ticket_id : option str) (kinds : list ExchangeCommandKind) (r : CommandRow) : bool :=
  match ticket_id with Some t => bool_decide (cw_ticket_id r = t) | None => true end
  && match kinds with [] => true | _ => bool_decide (cw_command_kind r ∈ kinds) end.

Definition unlocked (locked : list str) (r : CommandRow) : bool :=
  negb (bool_decide (cw_command_id r ∈ locked)).

(** The new values of the columns an update of a command writes. *)
Definition claim_values (worker : str) (lease_until_ms : Z) (r : CommandRow) : CommandRow :=
  mkCommandRow (cw_command_id r) (cw_ticket_id r) (cw_command_kind r) (cw_generation r)
    (cw_idempotency_key r) (cw_venue_client_order_id r) CLAIMED (cw_quantity r) (cw_request_payload r)
    (cw_result_payload r) (Some worker) (Some lease_until_ms) (cw_created_at_ms r) (cw_deadline_at_ms r)
    (cw_completed_at_ms r).
Definition outcome_values (s : ExchangeCommandStatus) (result : StoredResult) (completed_at_ms : Z)
    (r : CommandRow) : CommandRow :=
  mkCommandRow (cw_command_id r) (cw_ticket_id r) (cw_command_kind r) (cw_generation r)
    (cw_idempotency_key r) (cw_venue_client_order_id r) s (cw_quantity r) (cw_request_payload r)
    (Some result) (cw_claim_owner r) None (cw_created_at_ms r) (cw_deadline_at_ms r) (Some completed_at_ms).
(** As [outcome_values], of an update that leaves the lease alone. *)
Definition resolved_values (s : ExchangeCommandStatus) (result : option StoredResult) (completed_at_ms : Z)
    (r : CommandRow) : CommandRow :=
  mkCommandRow (cw_command_id r) (cw_ticket_id r) (cw_command_kind r) (cw_generation r)
    (cw_idempotency_key r) (cw_venue_client_order_id r) s (cw_quantity r) (cw_request_payload r)
    (match result with Some _ => result | None => cw_result_payload r end) (cw_claim_owner r)
    (cw_lease_until_ms r) (cw_created_at_ms r) (cw_deadline_at_ms r) (Some completed_at_ms).

Definition has_status (s : ExchangeCommandStatus) (r : CommandRow) : bool := bool_decide (cw_status r = s).
Definition claimed_by (worker : str) (r : CommandRow) : bool :=
  has_status CLAIMED r && bool_decide (cw_claim_owner r = Some worker).

(** What [claim_one_prepared] selects. *)
Definition claimable (now_ms : Z) (ticket_id : option str) (kinds : list ExchangeCommandKind) (r : CommandRow)
    : bool :=
  has_status PREPARED r && (now_ms <? cw_deadline_at_ms r) && in_scope ticket_id kinds r.

(** [PostgresExchangeCommandRepository.claim_one_prepared] *)
Definition claim_one_prepared (locked : list str) (worker : str) (now_ms lease_until_ms : Z)
    (ticket_id : option str) (kinds : list ExchangeCommandKind) : txn (option ExchangeCommand) :=
  rows ← select command_rows;
  match first_by created_before
          (filter (λ r, claimable now_ms ticket_id kinds r && unlocked locked r = true) rows) with
  | None => mret None
  | Some r =>
      update_one db_commands set_commands (with_key (cw_command_id r) (has_status PREPARED))
        (claim_values worker lease_until_ms) IntegrityError;;
      query (get_command (cw_command_id r))
  end.

(** [PostgresExchangeCommandRepository.record_result] *)
Definition record_result (command_id worker : str) (result : ExchangeCommandResult) : txn unit :=
  update_one db_commands set_commands (with_key command_id (claimed_by worker))
    (outcome_values (cr_status result) (stored_result result) (cr_observed_at_ms result))
    (AggregateVersionConflict "command claim changed before result").

(** [PostgresExchangeCommandRepository.record_leverage_result] *)
Definition record_leverage_result (command_id worker : str) (result : SetLeverageCommandResult) : txn unit :=
  update_one db_commands set_commands
    (with_key command_id (λ r, bool_decide (cw_command_kind r = SET_LEVERAGE) && claimed_by worker r))
    (outcome_values ACCEPTED (stored_leverage result) (lr_leverage_verified_at_ms result))
    (AggregateVersionConflict "leverage command claim changed before result").

(** [PostgresExchangeCommandRepository.mark_claimed_superseded] *)
Definition mark_claimed_superseded (command_id worker : str) (observed_at_ms : Z) (reason : str) : txn unit :=
  check (blank reason) (ValueError "superseded command requires a reason");;
  update_one db_commands set_commands (with_key command_id (claimed_by worker))
    (outcome_values SUPERSEDED (stored_superseded (strip reason) observed_at_ms) observed_at_ms)
    (AggregateVersionConflict "command claim changed before supersession").

(** [PostgresExchangeCommandRepository.mark_prepared_superseded] *)
Definition mark_prepared_superseded (command_id : str) (observed_at_ms : Z) (reason : str) : txn unit :=
  check (blank reason) (ValueError "superseded command requires a reason");;
  update_one db_commands set_commands (with_key command_id (has_status PREPARED))
    (resolved_values SUPERSEDED (Some (stored_superseded (strip reason) observed_at_ms)) observed_at_ms)
    (AggregateVersionConflict "prepared command changed before supersession").

(** What [get_one_expired_claim] selects, and its order. *)
Definition lease_over (now_ms : Z) (r : CommandRow) : bool :=
  match cw_lease_until_ms r with Some t => t <=? now_ms | None => false end.
Definition expired_claim (now_ms : Z) (ticket_id : option str) (kinds : list ExchangeCommandKind)
    (r : CommandRow) : bool :=
  has_status CLAIMED r && lease_over now_ms r && in_scope ticket_id kinds r.
Definition lease_before (a b : CommandRow) : bool :=
  match cw_lease_until_ms a, cw_lease_until_ms b with
  | Some s, Some t => (s <? t) || ((s =? t) && String.leb (cw_command_id a) (cw_command_id b))
  | Some _, None => true
  | None, Some _ => false
  | None, None => String.leb (cw_command_id a) (cw_command_id b)
  end.

(** [PostgresExchangeCommandRepository.get_one_expired_claim] *)
Definition get_one_expired_claim (locked : list str) (now_ms : Z) (ticket_id : option str)
    (kinds : list ExchangeCommandKind) (db : Database) : result (option ExchangeCommand) :=
  match first_by lease_before
          (filter (λ r, expired_claim now_ms ticket_id kinds r && unlocked locked r = true) (command_rows db)) with
  | None => mret None
  | Some r => get_command (cw_command_id r) db
  end.

(** [PostgresExchangeCommandRepository.record_expired_claim_unknown] *)
Definition record_expired_claim_unknown (command_id : str) (result : ExchangeCommandResult) : txn unit :=
  check (negb (bool_decide (cr_status result = OUTCOME_UNKNOWN)))
    (ValueError "expired claim recovery requires unknown outcome");;
  update_one db_commands set_commands
    (with_key command_id (λ r, has_status CLAIMED r && lease_over (cr_observed_at_ms result) r))
    (outcome_values (cr_status result) (stored_result result) (cr_observed_at_ms result))
    (AggregateVersionConflict "expired command claim changed").

(** [PostgresExchangeCommandRepository.mark_cancel_reconciled_absent]: by the
    target of the cancel, not by its key. *)
Definition unknown_cancel_of (ticket_id exchange_order_id : str) (r : CommandRow) : bool :=
  bool_decide (cw_ticket_id r = ticket_id) && bool_decide (cw_command_kind r = CANCEL_ORDER)
  && has_status OUTCOME_UNKNOWN r
  && match cw_request_payload r with
     | CancelPayload p => bool_decide (cp_exchange_order_id p = exchange_order_id)
     | _ => false
     end.
Definition mark_cancel_reconciled_absent (ticket_id exchange_order_id : str) (observed_at_ms : Z) : txn unit :=
  update_one db_commands set_commands (λ _, unknown_cancel_of ticket_id exchange_order_id)
    (resolved_values RECONCILED_ABSENT None observed_at_ms)
    (AggregateVersionConflict "unknown cancel command was not available for absence reconciliation").

(** [PostgresExchangeCommandRepository.reconcile_unknown_submitted] *)
Definition reconcile_unknown_submitted (command_id exchange_order_id : str) (observed_at_ms : Z) : txn unit :=
  update_one db_commands set_commands (with_key command_id (has_status OUTCOME_UNKNOWN))
    (resolved_values RECONCILED_ACCEPTED (Some (stored_reconciled_accepted exchange_order_id observed_at_ms))
       observed_at_ms)
    (AggregateVersionConflict "unknown command changed before submitted reconciliation").

(** [PostgresExchangeCommandRepository.reconcile_unknown_leverage_confirmed] *)
Definition reconcile_unknown_leverage_confirmed (command_id : str) (result : SetLeverageCommandResult)
    : txn unit :=
  update_one db_commands set_commands
    (with_key command_id (λ r, bool_decide (cw_command_kind r = SET_LEVERAGE) && has_status OUTCOME_UNKNOWN r))
    (resolved_values RECONCILED_ACCEPTED (Some (stored_leverage result)) (lr_leverage_verified_at_ms result))
    (AggregateVersionConflict "unknown leverage command changed before confirmation reconciliation").

(** [PostgresExchangeCommandRepository.reconcile_unknown_absent] *)
Definition reconcile_unknown_absent (command_id : str) (observed_at_ms : Z) (reason : str) : txn unit :=
  update_one db_commands set_commands (with_key command_id (has_status OUTCOME_UNKNOWN))
    (resolved_values RECONCILED_ABSENT (Some (stored_reconciled_absent reason observed_at_ms)) observed_at_ms)
    (AggregateVersionConflict "unknown command changed before absence reconciliation").

(** ** Capital: budgets, exposure, the entry lane *)

(** [PostgresBudgetRepository.add] *)
Definition add_budget (b : BudgetReservationRecord) : txn unit :=
  insert_row db_budgets set_budgets (bu_budget_reservation_id b)
    (λ r, bool_decide (bu_ticket_id r = bu_ticket_id b)) b.

(** [PostgresBudgetRepository.release] *)
Definition release_budget (ticket_id : str) (released_at_ms : Z) : txn unit :=
  update_one db_budgets set_budgets (λ _ r, bool_decide (bu_ticket_id r = ticket_id) && bu_active r)
    (λ r, mkBudget (bu_budget_reservation_id r) (bu_ticket_id r) (bu_owner_policy_id r) (bu_venue_id r)
            (bu_account_id r) (bu_reserved_notional r) (bu_reserved_risk r) (bu_reserved_margin r)
            (bu_planned_stop_risk_budget r) (bu_risk_reservation_basis r) false (bu_created_at_ms r)
            (Some released_at_ms))
    (AggregateVersionConflict "active budget reservation is missing").

(** [PostgresCapacityClaimRepository.add]; Claims are unique by identity. *)
Definition add_claim (c : CapacityClaim) : txn unit :=
  insert_row db_claims set_claims (cc_capacity_claim_id c) (λ _, false) c.

(** The sum of two [NUMERIC] values, which PostgreSQL does not round. *)
Definition numeric_add (a b : Decimal) : Decimal :=
  let e := Z.min (expo a) (expo b) in
  mkDecimal (coef a * 10 ^ (expo a - e) + coef b * 10 ^ (expo b - e)) e.

(** [PostgresEntryAdmissionRepository.reserve_account_exposure] *)
Definition reserve_account_exposure (venue account : str) (notional risk margin : Decimal)
    (expected_version : option Z) (updated_at_ms : Z) : txn unit :=
  table ← select db_exposure;
  match expected_version with
  | None =>
      check (negb (is_none (table !! (venue, account)))) IntegrityError;;
      modify (set_exposure (<[(venue, account) := mkExposure venue account notional risk margin 1 1 updated_at_ms]>
                table))
  | Some expected =>
      match table !! (venue, account) with
      | Some x =>
          check (negb (ax_projection_version x =? expected))
            (AggregateVersionConflict "account exposure changed during reserve");;
          modify (set_exposure (<[(venue, account) :=
            mkExposure venue account (numeric_add (ax_gross_notional x) notional)
              (numeric_add (ax_gross_risk_at_stop x) risk) (numeric_add (ax_current_reserved_margin x) margin)
              (ax_active_ticket_count x + 1) (expected + 1) updated_at_ms]> table))
      | None => raise (AggregateVersionConflict "account exposure changed during reserve")
      end
  end.

(** [PostgresEntryAdmissionRepository.release_account_exposure]: the row is
    locked between its read and its update, so the version still matches. *)
Definition release_account_exposure (venue account : str) (notional risk margin : Decimal) (updated_at_ms : Z)
    : txn unit :=
  table ← select db_exposure;
  match table !! (venue, account) with
  | None => raise (AggregateVersionConflict "account exposure is missing during release")
  | Some x =>
      check (ax_active_ticket_count x <=? 0)
        (AggregateVersionConflict "account exposure is missing during release");;
      check ((ax_gross_notional x <? notional)%dec || (ax_gross_risk_at_stop x <? risk)%dec
             || (ax_current_reserved_margin x <? margin)%dec)
        (AggregateVersionConflict "account exposure release would become negative");;
      modify (set_exposure (<[(venue, account) :=
        mkExposure venue account (ax_gross_notional x - notional)%dec (ax_gross_risk_at_stop x - risk)%dec
          (ax_current_reserved_margin x - margin)%dec (ax_active_ticket_count x - 1)
          (ax_projection_version x + 1) updated_at_ms]> table))
  end.

(** [PostgresEntryAdmissionRepository.lock_global_lane] *)
Definition idle_lane : EntryLaneSnapshot := mkLane None None false None None None 0.
Definition lock_global_lane : txn EntryLaneSnapshot :=
  lane ← select db_lane;
  match lane with
  | Some l => mret l
  | None => modify (set_lane (Some idle_lane));; mret idle_lane
  end.

(** [PostgresEntryAdmissionRepository.claim_global_lane] *)
Definition claim_global_lane (ticket_id signal_event_id owner : str) (claimed_at_ms lease_until_ms expected_version : Z)
    : txn unit :=
  lane ← select db_lane;
  match lane with
  | Some l =>
      check (el_claimed l || negb (el_version l =? expected_version))
        (AggregateVersionConflict "global entry lane changed during claim");;
      modify (set_lane (Some (mkLane (Some ticket_id) (Some signal_event_id) true (Some claimed_at_ms)
                                (Some lease_until_ms) (Some owner) (expected_version + 1))))
  | None => raise (AggregateVersionConflict "global entry lane changed during claim")
  end.

(** [PostgresEntryAdmissionRepository.release_global_lane] *)
Definition release_global_lane (ticket_id : str) : txn unit :=
  lane ← select db_lane;
  match lane with
  | Some l =>
      check (negb (same_opt (el_ticket_id l) (Some ticket_id) && el_claimed l))
        (AggregateVersionConflict "global entry lane ownership mismatch");;
      modify (set_lane (Some (mkLane None None false None None None (el_version l + 1))))
  | None => raise (AggregateVersionConflict "global entry lane ownership mismatch")
  end.

(** ** Positions and reviews *)

(** [PostgresPositionRepository.upsert] *)
Definition upsert_position (ticket_id : str) (snapshot : PositionSnapshot) : txn unit :=
  table ← select db_positions;
  let key := netting_domain_key (ps_netting_domain snapshot) in
  let version := match table !! key with Some r => pr_projection_version r + 1 | None => 1 end in
  modify (set_positions
    (<[key := mkPositionRow (if (ps_quantity snapshot >? d0)%dec then Some ticket_id else None) snapshot version]>
       table)).

(** [PostgresPositionRepository.get], without the open orders it does not keep. *)
Definition get_position (key : str) (db : Database) : option PositionSnapshot :=
  r ← db_positions db !! key;
  let p := pr_snapshot r in
  Some (mkPositionSnapshot (ps_netting_domain p) (ps_quantity p) (ps_average_entry_price p)
          (ps_venue_reported_liquidation_price p) (ps_observation_status p) [] (ps_observed_at_ms p)).

(** [PostgresSignalRepository.get_instrument_rules] *)
Definition get_instrument_rules (venue_id instrument_id : str) (db : Database) : option InstrumentRulesSnapshot :=
  db_rules db !! (venue_id, instrument_id).

(** [PostgresSignalRepository.upsert_instrument_rules] *)
Definition upsert_instrument_rules (venue_id : str) (facts : InstrumentRulesFacts) : txn unit :=
  table ← select db_rules;
  let key := (venue_id, rf_exchange_instrument_id facts) in
  let version := match table !! key with Some r => is_projection_version r + 1 | None => 1 end in
  modify (set_rules (<[key := mkRulesSnapshot venue_id facts version]> table)).

(** [TradeReviewRecord._validate_revision_chain] and the identities. *)
Definition validate_TradeReviewRecord (r : TradeReviewRecord) : result TradeReviewRecord :=
  validate_fields
    [(blank (rv_review_id r), "Review identities must be non-blank");
     (blank (rv_ticket_id r), "Review identities must be non-blank")];;
  let r := mkReview (strip (rv_review_id r)) (strip (rv_ticket_id r)) (rv_revision r)
             (normalize_optional (rv_supersedes_review_id r)) (rv_outcome r) (rv_created_at_ms r) in
  validate_model
    [(rv_revision r <=? 0, "Review revision must be positive");
     ((rv_revision r =? 1) && negb (is_none (rv_supersedes_review_id r)),
      "initial Review must not supersede another Review");
     ((1 <? rv_revision r) && is_none (rv_supersedes_review_id r),
      "later Review revision must supersede its predecessor");
     (bool_decide (rv_supersedes_review_id r = Some (rv_review_id r)),
      "Review revision cannot supersede itself")];;
  mret r.

(** [PostgresReviewRepository.add]: one row per revision of a Ticket, one
    successor per review. *)
Definition add_review (r : TradeReviewRecord) : txn unit :=
  insert_row db_reviews set_reviews (rv_review_id r)
    (λ x, (bool_decide (rv_ticket_id x = rv_ticket_id r) && (rv_revision x =? rv_revision r))
          || same_opt (rv_supersedes_review_id x) (rv_supersedes_review_id r))
    r.

(** [PostgresReviewRepository.get] *)
Definition get_review (review_id : str) (db : Database) : option TradeReviewRecord := db_reviews db !! review_id.

(** ** Incidents and monitors *)

(** [RuntimeIncidentRecord._validate_entry_block_identity] *)
Definition incident_checks (i : RuntimeIncidentRecord) : list (bool * str) :=
  match ic_entry_block_scope i with
  | scope_none =>
      [(negb (is_none (ic_entry_block_key i)), "non-blocking Incident must not carry a block key")]
  | scope_runtime =>
      [(negb (bool_decide (ic_entry_block_key i = Some "global")),
        "runtime Incident must use the global block key")]
  | _ =>
      [(match ic_entry_block_key i with Some k => is_empty k | None => true end,
        "scoped Incident requires a canonical block key")]
  end.

(** [PostgresIncidentRepository.add]: an identity already there is left alone. *)
Definition add_incident (i : RuntimeIncidentRecord) : txn unit :=
  lift (validate_model (incident_checks i));;
  table ← select db_incidents;
  match table !! ic_incident_id i with
  | Some _ => mret tt
  | None => modify (set_incidents (<[ic_incident_id i := i]> table))
  end.

Definition opened_after (a b : RuntimeIncidentRecord) : bool :=
  (ic_opened_at_ms b <? ic_opened_at_ms a)
  || ((ic_opened_at_ms a =? ic_opened_at_ms b) && String.leb (ic_incident_id b) (ic_incident_id a)).

(** [PostgresIncidentRepository.get_open_for_ticket_kind] *)
Definition get_open_for_ticket_kind (ticket_id kind : str) (db : Database) : option RuntimeIncidentRecord :=
  first_by opened_after
    (filter (λ i, ic_ticket_id i = Some ticket_id ∧ ic_incident_kind i = kind ∧ ic_open i = true)
       (map_to_list (db_incidents db)).*2).

(** [PostgresIncidentRepository.get_open_for_ticket] *)
Definition get_open_for_ticket (ticket_id : str) (db : Database) : option RuntimeIncidentRecord :=
  first_by opened_after
    (filter (λ i, ic_ticket_id i = Some ticket_id ∧ ic_open i = true) (map_to_list (db_incidents db)).*2).

Definition resolve_values (resolved_at_ms : Z) (i : RuntimeIncidentRecord) : RuntimeIncidentRecord :=
  mkIncident (ic_incident_id i) (ic_ticket_id i) (ic_incident_kind i) false (ic_first_blocker i)
    (ic_entry_block_scope i) (ic_entry_block_key i) (ic_opened_at_ms i) (Some resolved_at_ms).

(** [PostgresIncidentRepository.resolve] *)
Definition resolve_incident (incident_id : str) (resolved_at_ms : Z) : txn unit :=
  update_all db_incidents set_incidents (with_key incident_id (λ _, true)) (resolve_values resolved_at_ms).

(** [PostgresIncidentRepository.resolve_all_open_for_ticket] *)
Definition resolve_all_open_for_ticket (ticket_id : str) (resolved_at_ms : Z) : txn unit :=
  update_all db_incidents set_incidents
    (λ _ i, bool_decide (ic_ticket_id i = Some ticket_id) && ic_open i) (resolve_values resolved_at_ms).

(** [_same_monitor_state] *)
Definition same_monitor_state (a b : MonitorStateRecord) : bool :=
  bool_decide (mo_owner_status a = mo_owner_status b) && bool_decide (mo_summary a = mo_summary b)
  && bool_decide (mo_intervention a = mo_intervention b) && bool_decide (mo_ticket_id a = mo_ticket_id b)
  && bool_decide (mo_incident_id a = mo_incident_id b).

Definition with_version (m : MonitorStateRecord) (v : Z) : MonitorStateRecord :=
  mkMonitor (mo_monitor_key m) (mo_owner_status m) (mo_summary m) (mo_intervention m) (mo_ticket_id m)
    (mo_incident_id m) (mo_updated_at_ms m) v.
Definition with_updated_at (m : MonitorStateRecord) (t : Z) : MonitorStateRecord :=
  mkMonitor (mo_monitor_key m) (mo_owner_status m) (mo_summary m) (mo_intervention m) (mo_ticket_id m)
    (mo_incident_id m) t (mo_projection_version m).

(** [PostgresMonitorRepository.save_if_changed] *)
Definition save_if_changed (state : MonitorStateRecord) : txn unit :=
  table ← select db_monitors;
  let write_version (v : Z) : txn unit :=
    modify (set_monitors (<[mo_monitor_key state := with_version state v]> table));;
    insert_row db_monitor_events set_monitor_events
      ("monitor-event:" +:+ mo_monitor_key state +:+ ":" +:+ string_of_Z v) (λ _, false)
      (with_version state v) in
  match table !! mo_monitor_key state with
  | None => write_version 1
  | Some current =>
      if same_monitor_state current state then
        if mo_updated_at_ms state <=? mo_updated_at_ms current then mret tt
        else modify (set_monitors (<[mo_monitor_key state := with_updated_at current (mo_updated_at_ms state)]> table))
      else write_version (mo_projection_version current + 1)
  end.
