(* ===== verification/OwnerState.v ===== *)
(** * Owner projections ([application/project_owner_state.py],
    [application/reconciliation_health.py])

    The one product state shown to the owner, and the monitor rows that say a
    reconciliation or a worker is waiting.  Summaries are UTF-8 strings. *)

From stdpp Require Import gmap.
From S2P Require Import Prelude PyString Aggregate Database.

Record OwnerProjectionFacts := mkOwnerFacts {
  pf_policy_exists : bool;
  pf_policy_enabled : bool;
  pf_readiness_state : option str;
  pf_first_blocker : option str;
  pf_aggregate_status : option AggregateStatus;
  pf_ticket_id : option str;
  pf_incident_id : option str
}.

Definition validate_OwnerProjectionFacts (f : OwnerProjectionFacts) : result OwnerProjectionFacts :=
  validate_model
    [(pf_policy_enabled f && negb (pf_policy_exists f), "enabled policy must exist")];;
  mret f.

Definition INTERVENTION_BLOCKERS : list str :=
  ["account_mode_invalid"; "command_outcome_unknown"; "hard_safety_stop"; "protection_unavailable";
   "runtime_incident_open"].

Definition owner_ticket_monitor_key (ticket_id : str) : result str :=
  raise_if (blank ticket_id) (ValueError "Ticket identity must be non-blank");;
  mret ("owner:ticket:" +:+ strip ticket_id).

Definition derive_terminal_owner_projection (ticket_id : str) (updated_at_ms : Z)
    : result MonitorStateRecord :=
  key ← owner_ticket_monitor_key ticket_id;
  mret (mkMonitor key COMPLETED "本次交易已完成" "无需操作" (Some ticket_id) None updated_at_ms 0).

(** The chain of conditions of [derive_owner_projection]. *)
Definition owner_status_and_summary (f : OwnerProjectionFacts) : MonitorOwnerStatus * str :=
  if negb (is_none (pf_incident_id f)) then (NEEDS_INTERVENTION, "交易状态异常，需要介入"%string)
  else if negb (pf_policy_exists f) then (NOT_ENABLED, "策略尚未启用"%string)
  else if negb (pf_policy_enabled f) then (PAUSED, "策略已暂停"%string)
  else
    match pf_aggregate_status f with
    | Some LEVERAGE_REJECTED | Some TERMINAL | Some ENTRY_REJECTED | Some ENTRY_RECONCILED_ABSENT =>
        (COMPLETED, "本次交易已完成"%string)
    | aggregate_status =>
        if negb (is_none aggregate_status)
           || bool_decide (pf_readiness_state f ∈ [Some "candidate_ready"%string; Some "processing"%string])
        then (PROCESSING, "系统自动处理中"%string)
        else if bool_decide (pf_readiness_state f = Some "signal_absent"%string)
        then (WAITING_FOR_OPPORTUNITY, "运行中，等待机会"%string)
        else if bool_decide (pf_readiness_state f = Some "blocked"%string) then
          if match pf_first_blocker f with Some b => bool_decide (b ∈ INTERVENTION_BLOCKERS) | None => false end
          then (NEEDS_INTERVENTION, "交易状态异常，需要介入"%string)
          else (TEMPORARILY_UNAVAILABLE, "当前暂不可用，系统已阻断执行"%string)
        else (RUNNING, "策略观察与运行时正常"%string)
    end.

Definition derive_owner_projection (monitor_key : str) (f : OwnerProjectionFacts) (updated_at_ms : Z)
    : MonitorStateRecord :=
  let '(status, summary) := owner_status_and_summary f in
  mkMonitor monitor_key status summary
    (if bool_decide (status = NEEDS_INTERVENTION) then "需要介入" else "无需操作")
    (pf_ticket_id f) (pf_incident_id f) updated_at_ms 0.

(** ** Reconciliation and worker health *)

(** [PostgresMonitorRepository.get] *)
Definition get_monitor (key : str) (db : Database) : option MonitorStateRecord := db_monitors db !! key.

Definition unresolved (previous : option MonitorStateRecord) : bool :=
  match previous with
  | Some p => negb (bool_decide (mo_owner_status p = COMPLETED))
  | None => false
  end.

Definition resolve_reconciliation_wait (key : str) (now_ms : Z) : txn unit :=
  previous ← select (get_monitor key);
  match previous with
  | Some p =>
      if unresolved previous then
        save_if_changed
          (mkMonitor (mo_monitor_key p) COMPLETED "reconciliation_progress_restored" "none"
             (mo_ticket_id p) (mo_incident_id p) now_ms (mo_projection_version p))
      else mret tt
  | None => mret tt
  end.

Definition wait_state (key reason : str) (now_ms allowed_delay_ms : Z) (ticket_id : option str)
    (previous : option MonitorStateRecord) : MonitorStateRecord :=
  let first := match previous with
               | Some p => if unresolved previous then mo_updated_at_ms p else now_ms
               | None => now_ms
               end in
  let delayed := unresolved previous && (allowed_delay_ms <=? now_ms - first) in
  mkMonitor key (if delayed then NEEDS_INTERVENTION else PROCESSING) reason
    (if delayed then "工程排查；不手动平仓或修改数据库" else "none") ticket_id None first 0.

Definition wait_changed (previous : option MonitorStateRecord) (state : MonitorStateRecord) : bool :=
  match previous with
  | None => true
  | Some p =>
      negb (bool_decide (mo_owner_status p = mo_owner_status state))
      || negb (bool_decide (mo_summary p = mo_summary state))
      || negb (bool_decide (mo_intervention p = mo_intervention state))
  end.

Definition record_wait (key reason : str) (now_ms allowed_delay_ms : Z) (ticket_id : option str) : txn unit :=
  previous ← select (get_monitor key);
  let state := wait_state key reason now_ms allowed_delay_ms ticket_id previous in
  if wait_changed previous state then save_if_changed state else mret tt.

Definition record_reconciliation_wait (key reason : str) (now_ms allowed_delay_ms : Z)
    (ticket_id : option str) : txn unit :=
  check ((now_ms <=? 0) || (allowed_delay_ms <=? 0))
    (ValueError "reconciliation health windows must be positive");;
  match ticket_id with
  | None => record_wait key reason now_ms allowed_delay_ms ticket_id
  | Some t =>
      current ← get_for_update t;
      match current with
      | None => mret tt
      | Some a =>
          if bool_decide (status a = TERMINAL) then resolve_reconciliation_wait key now_ms
          else record_wait key reason now_ms allowed_delay_ms ticket_id
      end
  end.

Definition record_worker_retry (key reason : str) (now_ms window_ms : Z) : txn unit :=
  previous ← select (get_monitor key);
  let repeated :=
    match previous with
    | Some p => unresolved previous && (0 <=? now_ms - mo_updated_at_ms p)
                && (now_ms - mo_updated_at_ms p <=? window_ms)
    | None => false
    end in
  save_if_changed
    (mkMonitor key (if repeated then NEEDS_INTERVENTION else TEMPORARILY_UNAVAILABLE) reason
       (if repeated then "工程排查；保留新开仓暂停" else "none") None None now_ms 0).

Definition clear_worker_retry (key : str) (now_ms window_ms : Z) : txn unit :=
  previous ← select (get_monitor key);
  match previous with
  | Some p => if window_ms <? now_ms - mo_updated_at_ms p then resolve_reconciliation_wait key now_ms
              else mret tt
  | None => mret tt
  end.

(** One candidate of [list_reconciliation_health_candidates]. *)
Record HealthCandidate := mkHealthCandidate {
  hc_ticket_id : str;
  hc_status : AggregateStatus;
  hc_due_at_ms : Z;
  hc_last_progress_at_ms : Z
}.

Definition observe_candidate (now_ms budget_ms : Z) (c : HealthCandidate) : txn unit :=
  let key := "reconciliation-overdue:" +:+ hc_ticket_id c in
  (if budget_ms <=? now_ms - hc_due_at_ms c then
     record_reconciliation_wait key "critical_reconciliation_overdue" now_ms budget_ms (Some (hc_ticket_id c))
   else resolve_reconciliation_wait key now_ms);;
  if bool_decide (hc_status c ∈ [SETTLEMENT_PENDING; REVIEW_PENDING])
     && (budget_ms <=? now_ms - hc_last_progress_at_ms c)
  then
    record_reconciliation_wait ("reconciliation-closure:" +:+ hc_ticket_id c)
      ("closure_wait:" +:+ status_value (hc_status c)) now_ms budget_ms (Some (hc_ticket_id c))
  else mret tt.

Definition observe_reconciliation_backlog (candidates : list HealthCandidate) (now_ms budget_ms : Z)
    : txn unit :=
  for_each (observe_candidate now_ms budget_ms) candidates.
