(* ===== verification/UnitOfWork.v ===== *)
(** * One state reduction, durably ([infrastructure/pg_unit_of_work.py])

    [commit_reduction] stores a reduction in the caller's transaction: the
    aggregate under its expected version, the event, and what each effect asks
    for: a prepared command, a release of capital, an incident, a projection. *)

From stdpp Require Import gmap.
From S2P Require Import Prelude PyString PyDecimal Identities Ticket CrossMarginStress.
From S2P Require Import Capacity Admission Events Aggregate.
From S2P Require Import Commands Database OwnerState.

(** [command.deadline_at_ms] of the commands that are not about the ENTRY. *)
Definition COMMAND_VALIDITY_MS : Z := 30000.

(** ** Builders of commands *)

(** [_closing_side] *)
Definition closing_side (a : TradeAggregate) : OrderSide :=
  match nd_position_side (ti_netting_domain (identity a)) with long => sell | short => buy end.

Definition entry_payload (t : TradeTicket) (digest : str) : OrderCommandPayload :=
  mkOrderPayload
    (match nd_position_side (ti_netting_domain (tk_identity t)) with long => buy | short => sell end)
    (tk_quantity t)
    (match tk_entry_order_type t with MARKET => order_market | LIMIT => order_limit end)
    false (tk_entry_limit_price t) None None None None (Some (tk_selected_leverage t)) (Some digest).

(** [_entry_command] *)
Definition entry_command (t : TradeTicket) (leverage_verification_digest : str) (occurred_at_ms : Z)
    : result ExchangeCommand :=
  command_id ← build_command_id (ti_ticket_id (tk_identity t)) ENTRY 1;
  client_order_id ← build_venue_client_order_id command_id;
  payload ← validate_OrderCommandPayload (entry_payload t leverage_verification_digest);
  validate_ExchangeCommand
    (mkExchangeCommand command_id (tk_identity t) ENTRY 1 command_id (Some client_order_id)
       (OrderPayload payload) PREPARED occurred_at_ms (tk_expires_at_ms t)).

(** [_initial_leverage_fact_digest] *)
Definition initial_leverage_fact_digest (c : CapacityClaim) : str :=
  canonical_digest (JObj
    [("entry_admission_snapshot_digest", JStr (cc_entry_admission_snapshot_digest c));
     ("instrument_facts", JObj
        [("exchange_instrument_id",
          JStr (nd_exchange_instrument_id (ti_netting_domain (cc_ticket_identity c))));
         ("mark_price", JDec (cc_mark_price_at_claim c));
         ("configured_leverage", JInt (cc_configured_leverage_at_claim c))])]).

(** [_set_leverage_command] *)
Definition set_leverage_command (t : TradeTicket) (snapshot_digest fact_digest : str) (occurred_at_ms : Z)
    : result ExchangeCommand :=
  command_id ← build_command_id (ti_ticket_id (tk_identity t)) SET_LEVERAGE 1;
  payload ← validate_SetLeverageCommandPayload
              (mkLeveragePayload (tk_selected_leverage t) (tk_owner_policy_version t) snapshot_digest fact_digest);
  validate_ExchangeCommand
    (mkExchangeCommand command_id (tk_identity t) SET_LEVERAGE 1 command_id None
       (LeveragePayload payload) PREPARED occurred_at_ms (tk_expires_at_ms t)).

(** The common part of [_order_command] and [_cancel_protection_command]. *)
Definition aggregate_command (a : TradeAggregate) (kind : ExchangeCommandKind) (generation : Z)
    (payload : CommandPayload) (occurred_at_ms : Z) : result ExchangeCommand :=
  command_id ← build_command_id (ti_ticket_id (identity a)) kind generation;
  client_order_id ← build_venue_client_order_id command_id;
  validate_ExchangeCommand
    (mkExchangeCommand command_id (identity a) kind generation command_id (Some client_order_id)
       payload PREPARED occurred_at_ms (occurred_at_ms + COMMAND_VALIDITY_MS)).

(** [_order_command] *)
Definition order_command (a : TradeAggregate) (kind : ExchangeCommandKind) (generation : Z)
    (payload : OrderCommandPayload) (occurred_at_ms : Z) : result ExchangeCommand :=
  payload ← validate_OrderCommandPayload payload;
  aggregate_command a kind generation (OrderPayload payload) occurred_at_ms.

(** [_initial_stop_command] *)
Definition initial_stop_command (a : TradeAggregate) (quantity stop_price : Decimal) : Z → result ExchangeCommand :=
  order_command a INITIAL_STOP 1
    (mkOrderPayload (closing_side a) quantity stop_market true None None (Some stop_price) None None None None).

Definition market_close_payload (a : TradeAggregate) (quantity : Decimal) : OrderCommandPayload :=
  mkOrderPayload (closing_side a) quantity order_market true None None None None None None None.

(** [_exit_command] *)
Definition exit_command (a : TradeAggregate) (quantity : Decimal) (generation : Z) : Z → result ExchangeCommand :=
  order_command a EXIT generation (market_close_payload a quantity).

(** [_take_profit_command] *)
Definition take_profit_command (a : TradeAggregate) (quantity limit_price : Decimal) (generation : Z)
    : Z → result ExchangeCommand :=
  order_command a TAKE_PROFIT generation
    (mkOrderPayload (closing_side a) quantity order_limit true (Some limit_price) (Some GTX) None None None
       None None).

(** [_protection_replacement_command] *)
Definition protection_replacement_command (a : TradeAggregate) (quantity stop_price : Decimal)
    (replaces_exchange_order_id : str) (source_watermark_ms generation : Z) : Z → result ExchangeCommand :=
  order_command a REPLACE_PROTECTION generation
    (mkOrderPayload (closing_side a) quantity stop_market true None None (Some stop_price)
       (Some replaces_exchange_order_id) (Some source_watermark_ms) None None).

(** [_controlled_flatten_command] *)
Definition controlled_flatten_command (a : TradeAggregate) (quantity : Decimal) : Z → result ExchangeCommand :=
  order_command a CONTROLLED_FLATTEN 1 (market_close_payload a quantity).

(** [_cancel_protection_command] *)
Definition cancel_protection_command (a : TradeAggregate) (exchange_order_id : str)
    (order_namespace : OrderNamespace) (purpose : CancelPurpose) (entry_vacuum_id : option str)
    (generation occurred_at_ms : Z) : result ExchangeCommand :=
  payload ← validate_CancelCommandPayload
              (mkCancelPayload exchange_order_id order_namespace purpose entry_vacuum_id);
  aggregate_command a CANCEL_ORDER generation (CancelPayload payload) occurred_at_ms.

(** ** The Claim behind the initial command *)

(** [_initial_command_claim], of the Claim found. *)
Definition claim_differs (t : TradeTicket) (c : CapacityClaim) : bool :=
  negb (bool_decide (cc_capacity_claim_id c = tk_capacity_claim_id t))
  || negb (bool_decide (cc_ticket_identity c = tk_identity t))
  || negb (bool_decide (cc_owner_policy_id c = tk_owner_policy_id t))
  || negb (cc_owner_policy_version c =? tk_owner_policy_version t)
  || negb (bool_decide (cc_runtime_scope_id c = tk_runtime_scope_id t))
  || negb (cc_runtime_scope_version c =? tk_runtime_scope_version t)
  || negb (cc_selected_leverage c =? tk_selected_leverage t)
  || negb (Bool.eqb (cc_leverage_change_required c) (tk_leverage_change_required t)).

Definition initial_command_claim (t : TradeTicket) : txn CapacityClaim :=
  claims ← select db_claims;
  match claims !! tk_capacity_claim_id t with
  | None => raise (UnsupportedKernelEffect "initial command requires its immutable CapacityClaim")
  | Some c =>
      check (claim_differs t c)
        (UnsupportedKernelEffect "initial command Claim differs from immutable Ticket authority");;
      check (Bool.eqb (tk_leverage_change_required t)
               (cc_configured_leverage_at_claim c =? tk_selected_leverage t))
        (UnsupportedKernelEffect "initial command Claim has contradictory leverage-change evidence");;
      mret c
  end.

(** ** Generations *)

(** [max(..., key=generation)]: the first of the greatest. *)
Definition latest_of (kind : ExchangeCommandKind) (commands : list ExchangeCommand) : result ExchangeCommand :=
  match filter (λ c, ec_kind c = kind) commands with
  | [] => Raise (ValueError "max() arg is an empty sequence")
  | c :: cs => mret (foldl (λ best x, if ec_generation best <? ec_generation x then x else best) c cs)
  end.

Definition prior_command (a : TradeAggregate) (kind : ExchangeCommandKind) : txn ExchangeCommand :=
  commands ← query (list_for_ticket (ti_ticket_id (identity a)));
  lift (latest_of kind commands).

(** [_next_retryable_generation]; the EXIT branch writes it out. *)
Definition next_retryable_generation (a : TradeAggregate) (kind : ExchangeCommandKind) : txn Z :=
  generation ← select (next_generation (ti_ticket_id (identity a)) kind);
  if generation =? 1 then mret generation
  else
    prior ← prior_command a kind;
    lift (require_next_generation_allowed kind (ec_status prior) generation);;
    mret generation.

(** The generation of a protection cancel: a repeat only of the same target. *)
Definition cancel_generation (a : TradeAggregate) (exchange_order_id : str) : txn Z :=
  generation ← select (next_generation (ti_ticket_id (identity a)) CANCEL_ORDER);
  if 1 <? generation then
    prior ← prior_command a CANCEL_ORDER;
    match ec_payload prior with
    | CancelPayload p =>
        if bool_decide (cp_exchange_order_id p = exchange_order_id) then
          lift (require_next_generation_allowed CANCEL_ORDER (ec_status prior) generation);;
          mret generation
        else mret generation
    | _ => mret generation
    end
  else mret generation.

(** ** Effects *)

(** [_incident_entry_block_scope] *)
Definition incident_entry_block_scope (incident_kind : str) : EntryBlockScope :=
  if bool_decide (incident_kind = "external_flat"%string) then scope_none
  else if bool_decide (incident_kind = "leverage_outcome_unknown"%string) then scope_leverage_domain
  else scope_account_capacity.

Definition prepare (command : result ExchangeCommand) : txn unit :=
  c ← lift command; add_command c.

Definition release_exposure_of (t : TradeTicket) (notional risk : Decimal) (at_ms : Z) : txn unit :=
  let domain := ti_netting_domain (tk_identity t) in
  release_account_exposure (nd_venue_id domain) (nd_account_id domain) notional risk (tk_reserved_margin t) at_ms.

Definition open_incident (a : TradeAggregate) (ticket_id incident_kind : str) (at_ms : Z) : txn unit :=
  let domain := ti_netting_domain (tk_identity (ticket a)) in
  let scope := incident_entry_block_scope incident_kind in
  key ← lift (canonical_entry_block_key scope (nd_venue_id domain) (nd_account_id domain)
                (Some (nd_exchange_instrument_id domain)));
  add_incident
    (mkIncident ("incident:" +:+ ticket_id +:+ ":" +:+ string_of_Z (last_event_sequence a)) (Some ticket_id)
       incident_kind true incident_kind scope key at_ms None).

Definition project_terminal (ticket_id : str) (at_ms : Z) : txn unit :=
  state ← lift (derive_terminal_owner_projection ticket_id at_ms);
  save_if_changed state;;
  resolve_reconciliation_wait ("reconciliation-mismatch:" +:+ ticket_id) at_ms;;
  resolve_reconciliation_wait ("reconciliation-closure:" +:+ ticket_id) at_ms;;
  resolve_reconciliation_wait ("reconciliation-overdue:" +:+ ticket_id) at_ms.

(** The body of the loop over [reduction.effects], [a] the reduced aggregate. *)
Definition materialize (a : TradeAggregate) (event : TradeEvent) (effect : KernelEffect) : txn unit :=
  let at_ms := ev_occurred_at_ms event in
  match effect with
  | PrepareEntryCommand t digest =>
      claim ← initial_command_claim t;
      prepare (entry_command t
                 (match digest with
                  | Some d => if is_empty d then initial_leverage_fact_digest claim else d
                  | None => initial_leverage_fact_digest claim
                  end) at_ms)
  | PrepareSetLeverageCommand t =>
      claim ← initial_command_claim t;
      prepare (set_leverage_command t (cc_entry_admission_snapshot_digest claim)
                 (initial_leverage_fact_digest claim) at_ms)
  | PrepareInitialStopCommand _ quantity stop_price =>
      prepare (initial_stop_command a quantity stop_price at_ms)
  | PrepareTakeProfitCommand _ quantity limit_price =>
      generation ← next_retryable_generation a TAKE_PROFIT;
      prepare (take_profit_command a quantity limit_price generation at_ms)
  | PrepareProtectionReplacementCommand _ quantity stop_price replaces watermark =>
      generation ← next_retryable_generation a REPLACE_PROTECTION;
      prepare (protection_replacement_command a quantity stop_price replaces watermark generation at_ms)
  | CancelEntryRemainder _ =>
      match entry_exchange_order_id a with
      | None => raise (UnsupportedKernelEffect "partial fill has no authoritative ENTRY order identity")
      | Some order =>
          generation ← select (next_generation (ti_ticket_id (identity a)) CANCEL_ORDER);
          prepare (cancel_protection_command a order regular entry_remainder None generation at_ms)
      end
  | CancelVacuumEntryOrder _ order vacuum =>
      check (negb (bool_decide (entry_exchange_order_id a = Some order)))
        (UnsupportedKernelEffect "Vacuum cancel differs from authoritative ENTRY order");;
      generation ← select (next_generation (ti_ticket_id (identity a)) CANCEL_ORDER);
      prepare (cancel_protection_command a order regular selection_vacuum_entry (Some vacuum) generation at_ms)
  | RequestControlledFlatten _ quantity =>
      check (negb (bool_decide (status a = PARTIAL_FILL_INCIDENT))
             || negb (position_qty a =? quantity)%dec)
        (UnsupportedKernelEffect "controlled flatten intent differs from partial exposure")
  | PrepareControlledFlattenCommand _ quantity => prepare (controlled_flatten_command a quantity at_ms)
  | PrepareExitCommand _ quantity _ =>
      generation ← next_retryable_generation a EXIT;
      prepare (exit_command a quantity generation at_ms)
  | CancelProtectionOrders _ order namespace purpose =>
      generation ← cancel_generation a order;
      prepare (cancel_protection_command a order namespace purpose None generation at_ms)
  | MarkCancelCommandReconciledAbsent t order => mark_cancel_reconciled_absent t order at_ms
  | ReleaseBudget t =>
      release_budget t at_ms;;
      release_exposure_of (ticket a) (tk_notional (ticket a)) (tk_risk_at_stop (ticket a)) at_ms
  | ReleaseEntryLane t => release_global_lane t
  | OpenIncident t kind => open_incident a t kind at_ms
  | ResolveIncident t kind =>
      incident ← select (get_open_for_ticket_kind t kind);
      match incident with
      | None => raise (UnsupportedKernelEffect "expected runtime incident is missing during resolution")
      | Some i => resolve_incident (ic_incident_id i) at_ms
      end
  | ResolveTicketIncidentsAtClosure t => resolve_all_open_for_ticket t at_ms
  | ReleaseCapitalAuthorities t _ key notional risk _ released_at_ms =>
      release_budget t released_at_ms;;
      release_exposure_of (ticket a) notional risk released_at_ms;;
      release_active_netting_domain t key
  | ProjectTerminalOwnerState t => project_terminal t at_ms
  end.

(** What the Ticket of a closed aggregate is marked. *)
Definition terminal_ticket_status (s : AggregateStatus) : option TicketStatus :=
  match s with
  | LEVERAGE_REJECTED => Some TICKET_LEVERAGE_REJECTED
  | ENTRY_REJECTED => Some TICKET_ENTRY_REJECTED
  | ENTRY_RECONCILED_ABSENT => Some TICKET_ENTRY_RECONCILED_ABSENT
  | TERMINAL => Some TICKET_TERMINAL
  | _ => None
  end.

(** The write of the aggregate: a first version with its Ticket, or a save. *)
Definition store_aggregate (event : TradeEvent) (a : TradeAggregate) (expected_version : Z)
    (current : option TradeAggregate) : txn unit :=
  if expected_version =? 0 then
    check (negb (is_none current)) (AggregateVersionConflict "Ticket aggregate already exists");;
    check (match ev_body event with TicketIssued _ => false | _ => true end)
      (AggregateVersionConflict "new aggregate requires TicketIssued");;
    check (negb (version a =? 1) || negb (last_event_sequence a =? 1))
      (AggregateVersionConflict "new aggregate must start at one");;
    add_ticket (ticket a);;
    add_aggregate a (ev_occurred_at_ms event)
  else
    check (is_none current) (AggregateVersionConflict "aggregate does not exist");;
    save_aggregate a expected_version (ev_occurred_at_ms event).

(** [PostgresKernelUnitOfWork.commit_reduction] *)
Definition commit_reduction (event : TradeEvent) (reduction : Reduction) (expected_version : Z) : txn unit :=
  let a := aggregate reduction in
  let ticket_id := ti_ticket_id (identity a) in
  current ← get_for_update ticket_id;
  store_aggregate event a expected_version current;;
  check (negb (ev_sequence event =? last_event_sequence a))
    (AggregateVersionConflict "event sequence differs from reduction");;
  check (negb (bool_decide (event_ticket_id event = ticket_id)))
    (AggregateVersionConflict "event Ticket differs from reduction");;
  append_event event;;
  for_each (materialize a event) (effects reduction);;
  match terminal_ticket_status (status a) with
  | Some s => mark_terminal ticket_id s (ev_occurred_at_ms event)
  | None => mret tt
  end.

(** ** The unit of work ([__aexit__])

    The tables after a transaction: its writes when it returns, none of them
    when it raises. *)
Definition run_uow {A} (m : txn A) (db : Database) : result A * Database :=
  match m db with
  | Ok (a, db') => (Ok a, db')
  | Raise e => (Raise e, db)
  end.
