(* ===== verification/Dispatcher.v ===== *)
(** * Dispatch and recovery of exchange commands
    ([application/dispatch_exchange_command.py], [application/recover_unknown_command.py],
     [application/reconcile_leverage_command.py])

    One durable command at a time: a stale claim becomes an unknown outcome, a
    prepared command is claimed in one transaction, the venue is called outside
    any, and what it answered is recorded in another.  An unknown outcome is
    resolved later, from what the venue shows.

    [aggregates.get] locks nothing: what it returns is read from [seen], tables
    committed at some earlier moment.  The venue, its truth and the facts behind
    the preflight decision are arguments. *)

From stdpp Require Import gmap.
From S2P Require Import Prelude PyString PyDecimal Identities Ticket CrossMarginStress VenueTruth.
From S2P Require Import Capacity Admission Dispatch Events Aggregate Reducer.
From S2P Require Import Commands Database UnitOfWork.

(** ** Events of a Ticket *)

(** The header of the next event of an aggregate, and its construction. *)
Definition next_event (a : TradeAggregate) (occurred_at_ms : Z) (body : EventBody) : result TradeEvent :=
  let sequence := last_event_sequence a + 1 in
  validate_event
    (mkEvent ("event:" +:+ tid a +:+ ":" +:+ string_of_Z sequence) sequence occurred_at_ms (tid a) body).

(** [commit_reduction(event, reduce_event(aggregate, event), aggregate.version)] *)
Definition commit_event (a : TradeAggregate) (event : TradeEvent) : txn unit :=
  r ← lift (reduce_event (Some a) event);
  commit_reduction event r (version a).

(** [aggregates.get], from the tables it reads. *)
Definition read_aggregate (seen : Database) (ticket_id missing : str) : txn TradeAggregate :=
  found ← lift (get_aggregate ticket_id seen);
  match found with
  | Some a => mret a
  | None => raise (RuntimeError missing)
  end.

(** ** From a result to an event *)

(** [ExchangeCommandResult | SetLeverageCommandResult] *)
Inductive DispatchResult :=
  | order_result (r : ExchangeCommandResult)
  | leverage_result (r : SetLeverageCommandResult).

(** [str(value)] of an optional text. *)
Definition py_str (o : option str) : str := match o with Some s => s | None => "None" end.

(** [_command_is_applicable] *)
Definition cancel_status (p : CancelPurpose) : AggregateStatus :=
  match p with
  | entry_remainder => PARTIAL_FILL_INCIDENT
  | selection_vacuum_entry => ENTRY_VACUUM_CANCEL_PENDING
  | runner_old_stop => RUNNER_OLD_STOP_CANCEL_PENDING
  | reconciliation_cleanup => RECONCILIATION_PENDING
  end.

Definition command_is_applicable (c : ExchangeCommand) (s : AggregateStatus) : bool :=
  match ec_kind c with
  | SET_LEVERAGE => bool_decide (s = LEVERAGE_PENDING)
  | ENTRY => bool_decide (s ∈ [ENTRY_PENDING; LEVERAGE_CONFIRMED])
  | INITIAL_STOP => bool_decide (s = PROTECTION_PENDING)
  | TAKE_PROFIT => bool_decide (s = TP1_PENDING)
  | REPLACE_PROTECTION => bool_decide (s = RUNNER_REPLACEMENT_PENDING)
  | EXIT => bool_decide (s = EXIT_PENDING)
  | CONTROLLED_FLATTEN => bool_decide (s = CONTROLLED_FLATTEN_PENDING)
  | CANCEL_ORDER =>
      match ec_payload c with
      | CancelPayload p => bool_decide (s = cancel_status (cp_purpose p))
      | _ => false
      end
  end.

(** [_cancel_result_event] *)
Definition cancel_result_body (p : CancelCommandPayload) (s : AggregateStatus) (r : ExchangeCommandResult)
    : result EventBody :=
  raise_if (negb (bool_decide (s = cancel_status (cp_purpose p))))
    (RuntimeError "cancel purpose is incompatible with aggregate state");;
  let order := cp_exchange_order_id p in
  let reason := py_str (cr_reason r) in
  match cp_purpose p, cr_status r with
  | selection_vacuum_entry, ACCEPTED => mret (EntryVacuumCancelConfirmed order)
  | selection_vacuum_entry, REJECTED => mret (EntryVacuumCancelRejected order reason)
  | selection_vacuum_entry, OUTCOME_UNKNOWN => mret (EntryVacuumCancelOutcomeUnknown order reason)
  | entry_remainder, ACCEPTED => mret (EntryRemainderCancelConfirmed order)
  | entry_remainder, REJECTED => mret (EntryRemainderCancelRejected order reason)
  | entry_remainder, OUTCOME_UNKNOWN => mret (EntryRemainderCancelOutcomeUnknown order reason)
  | runner_old_stop, ACCEPTED => mret (ProtectionCancelConfirmed order)
  | runner_old_stop, REJECTED => mret (ProtectionCancelRejected order reason)
  | runner_old_stop, OUTCOME_UNKNOWN => mret (ProtectionCancelOutcomeUnknown order reason)
  | reconciliation_cleanup, ACCEPTED => mret (OwnedOrphanCancelConfirmed order)
  | reconciliation_cleanup, REJECTED => mret (CancelOrderRejected order reason)
  | reconciliation_cleanup, OUTCOME_UNKNOWN => mret (CancelOrderOutcomeUnknown order reason)
  | _, _ => Raise (RuntimeError "cancel command has an unsupported result status")
  end.

Definition unsupported_result (k : ExchangeCommandKind) (s : ExchangeCommandStatus) : exn :=
  RuntimeError ("unsupported " +:+ command_kind_value k +:+ " result status: " +:+ command_status_value s).

(** The replacement's metadata, each checked before the result is looked at. *)
Definition replacement_fields (payload : CommandPayload) : result (OrderCommandPayload * Decimal * str * Z) :=
  match payload with
  | OrderPayload p =>
      match op_stop_price p, op_replaces_exchange_order_id p, op_source_watermark_ms p with
      | None, _, _ => Raise (RuntimeError "protection replacement stop price is missing")
      | _, None, _ => Raise (RuntimeError "protection replacement prior order is missing")
      | _, _, None => Raise (RuntimeError "protection replacement watermark is missing")
      | Some stop, Some prior, Some watermark => mret (p, stop, prior, watermark)
      end
  | _ => Raise (RuntimeError "protection replacement payload is invalid")
  end.

Definition leverage_result_body (result : DispatchResult) : Prelude.result EventBody :=
  match result with
  | leverage_result r =>
      mret (LeverageConfirmed (lr_exchange_configured_leverage r) (lr_leverage_verified_at_ms r)
              (lr_leverage_verification_digest r))
  | order_result r =>
      match cr_status r with
      | REJECTED => mret (LeverageRejected (py_str (cr_reason r)))
      | OUTCOME_UNKNOWN => mret (LeverageOutcomeUnknown (py_str (cr_reason r)))
      | _ => Raise (RuntimeError "SET_LEVERAGE result is invalid")
      end
  end.

Definition order_result_body (c : ExchangeCommand) (a : TradeAggregate) (r : ExchangeCommandResult)
    : result EventBody :=
  let order := py_str (cr_exchange_order_id r) in
  let reason := py_str (cr_reason r) in
  match ec_kind c, cr_status r with
  | ENTRY, ACCEPTED => mret (EntryAccepted order)
  | ENTRY, REJECTED => mret (EntryRejected reason)
  | ENTRY, OUTCOME_UNKNOWN => mret (EntryOutcomeUnknown reason)
  | INITIAL_STOP, ACCEPTED => mret (InitialStopConfirmed order (position_qty a))
  | INITIAL_STOP, REJECTED => mret (InitialStopRejected reason)
  | INITIAL_STOP, OUTCOME_UNKNOWN => mret (InitialStopOutcomeUnknown reason)
  | EXIT, ACCEPTED => mret (ExitAccepted order)
  | EXIT, REJECTED => mret (ExitRejected reason)
  | EXIT, OUTCOME_UNKNOWN => mret (ExitOutcomeUnknown reason)
  | CONTROLLED_FLATTEN, ACCEPTED => mret (ControlledFlattenAccepted order)
  | CONTROLLED_FLATTEN, REJECTED => mret (ControlledFlattenRejected reason)
  | CONTROLLED_FLATTEN, OUTCOME_UNKNOWN => mret (ControlledFlattenOutcomeUnknown reason)
  | TAKE_PROFIT, s =>
      match ec_payload c with
      | OrderPayload p =>
          match s with
          | ACCEPTED => mret (TakeProfitConfirmed order (op_quantity p))
          | REJECTED => mret (TakeProfitRejected reason)
          | OUTCOME_UNKNOWN => mret (TakeProfitOutcomeUnknown reason)
          | _ => Raise (unsupported_result TAKE_PROFIT s)
          end
      | _ => Raise (RuntimeError "TP1 command payload is invalid")
      end
  | REPLACE_PROTECTION, s =>
      '(p, stop, prior, watermark) ← replacement_fields (ec_payload c);
      match s with
      | ACCEPTED => mret (ProtectionReplacementConfirmed order (op_quantity p) stop prior watermark)
      | REJECTED => mret (ProtectionReplacementRejected reason)
      | OUTCOME_UNKNOWN => mret (ProtectionReplacementOutcomeUnknown reason)
      | _ => Raise (unsupported_result REPLACE_PROTECTION s)
      end
  | CANCEL_ORDER, _ =>
      match ec_payload c with
      | CancelPayload p => cancel_result_body p (status a) r
      | _ => Raise (RuntimeError "cancel command payload is invalid")
      end
  | k, s => Raise (unsupported_result k s)
  end.

Definition result_time (result : DispatchResult) : Z :=
  match result with
  | order_result r => cr_observed_at_ms r
  | leverage_result r => lr_leverage_verified_at_ms r
  end.

(** [_command_result_event] *)
Definition command_result_event (c : ExchangeCommand) (a : TradeAggregate) (result : DispatchResult)
    : Prelude.result TradeEvent :=
  body ← (if bool_decide (ec_kind c = SET_LEVERAGE) then leverage_result_body result
          else match result with
               | order_result r => order_result_body c a r
               | leverage_result _ => Raise (TypeError "order command result is invalid")
               end);
  next_event a (result_time result) body.

(** ** [dispatch_one_command] *)

Record DispatchCommandRequest := mkDispatchRequest {
  dr_worker_id : str;
  dr_ticket_id : option str;
  dr_command_kinds : list ExchangeCommandKind;
  dr_now_ms : Z;
  dr_lease_until_ms : Z
}.

(** [timeout_seconds] and the commit identities of the request concern the
    venue call and the preflight facts. *)
Definition validate_DispatchCommandRequest (r : DispatchCommandRequest) : result DispatchCommandRequest :=
  validate_fields
    [(blank (dr_worker_id r), "dispatcher worker identity must be non-blank");
     (opt_test blank (dr_ticket_id r), "dispatcher ticket identity must be non-blank");
     (dr_now_ms r <=? 0, "dispatcher times must be positive");
     (dr_lease_until_ms r <=? 0, "dispatcher times must be positive")];;
  validate_model [(dr_lease_until_ms r <=? dr_now_ms r, "command lease must end after claim time")];;
  mret (mkDispatchRequest (strip (dr_worker_id r)) (strip <$> dr_ticket_id r) (dr_command_kinds r)
          (dr_now_ms r) (dr_lease_until_ms r)).

Inductive DispatchCommandStatus :=
  | NO_COMMAND | DISPATCH_SUPERSEDED | DISPATCH_ACCEPTED | DISPATCH_REJECTED | DISPATCH_OUTCOME_UNKNOWN.
#[export] Instance DispatchCommandStatus_eq_dec : EqDecision DispatchCommandStatus.
Proof. solve_decision. Defined.

Definition stale_claim_result (now_ms : Z) : ExchangeCommandResult :=
  mkCommandResult OUTCOME_UNKNOWN now_ms None (Some "stale_claim_after_restart"%string).

(** The first transaction: at most one claim whose lease ended. *)
Definition expire_one_claim (seen : Database) (locked : list str) (request : DispatchCommandRequest)
    : txn (option str) :=
  expired ← query (get_one_expired_claim locked (dr_now_ms request) (dr_ticket_id request)
                     (dr_command_kinds request));
  match expired with
  | None => mret None
  | Some c =>
      expired_result ← lift (validate_ExchangeCommandResult (stale_claim_result (dr_now_ms request)));
      a ← read_aggregate seen (ti_ticket_id (ec_ticket_identity c)) "expired command has no Ticket aggregate";
      event ← lift (command_result_event c a (order_result expired_result));
      record_expired_claim_unknown (ec_command_id c) expired_result;;
      commit_event a event;;
      mret (Some (ec_command_id c))
  end.

Inductive ClaimOutcome :=
  | nothing_claimed
  | claimed_superseded (command_id : str)
  | claimed (c : ExchangeCommand).

(** A selection vacuum supersedes the claimed command and its Ticket's ENTRY. *)
Definition supersede_for_vacuum (c : ExchangeCommand) (a : TradeAggregate) (worker : str) (now_ms : Z)
    (vacuum_id : str) : txn unit :=
  mark_claimed_superseded (ec_command_id c) worker now_ms ("selection_entry_vacuum:" +:+ vacuum_id);;
  event ← lift (next_event a now_ms (EntryVacuumSuperseded vacuum_id (ec_command_id c)));
  commit_event a event.

(** The second transaction.  [vacuum_of] is the vacuum that blocks new entries
    of the Ticket's strategy, when there is one. *)
Definition claim_next (seen : Database) (locked : list str) (vacuum_of : TradeAggregate → option str)
    (request : DispatchCommandRequest) : txn ClaimOutcome :=
  command ← claim_one_prepared locked (dr_worker_id request) (dr_now_ms request) (dr_lease_until_ms request)
              (dr_ticket_id request) (dr_command_kinds request);
  match command with
  | None => mret nothing_claimed
  | Some c =>
      a ← read_aggregate seen (ti_ticket_id (ec_ticket_identity c)) "claimed command has no Ticket aggregate";
      if negb (command_is_applicable c (status a)) then
        mark_claimed_superseded (ec_command_id c) (dr_worker_id request) (dr_now_ms request)
          ("aggregate_state_moved_on:" +:+ status_value (status a));;
        mret (claimed_superseded (ec_command_id c))
      else
        match (if bool_decide (ec_kind c ∈ [SET_LEVERAGE; ENTRY]) then vacuum_of a else None) with
        | Some vacuum_id =>
            supersede_for_vacuum c a (dr_worker_id request) (dr_now_ms request) vacuum_id;;
            mret (claimed_superseded (ec_command_id c))
        | None => mret (claimed c)
        end
  end.

(** What the venue call came to. *)
Inductive VenueResponse :=
  | venue_returned (result : DispatchResult)
  | venue_rejected (exception_name : str)
  | venue_failed (reason : str)
  | venue_timeout
  | venue_raised (exception_name : str).

Definition refused (s : ExchangeCommandStatus) (now_ms : Z) (reason : str) : DispatchResult :=
  order_result (mkCommandResult s now_ms None (Some reason)).

(** The [try] around the venue call, and the readback of a leverage change. *)
Definition dispatch_result (c : ExchangeCommand) (now_ms : Z) (response : VenueResponse) : DispatchResult :=
  let result :=
    match response with
    | venue_returned r => r
    | venue_rejected name => refused REJECTED now_ms ("venue_rejected:" +:+ name)
    | venue_failed reason => refused OUTCOME_UNKNOWN now_ms ("venue_error:" +:+ reason)
    | venue_timeout => refused OUTCOME_UNKNOWN now_ms "venue_timeout"
    | venue_raised name => refused OUTCOME_UNKNOWN now_ms ("venue_error:" +:+ name)
    end in
  match ec_kind c, result, ec_payload c with
  | SET_LEVERAGE, leverage_result r, LeveragePayload p =>
      if lr_exchange_configured_leverage r =? lp_desired_leverage p then result
      else refused OUTCOME_UNKNOWN (lr_leverage_verified_at_ms r) "leverage_readback_mismatch"
  | _, _, _ => result
  end.

(** The last transaction: what the venue answered. *)
Definition record_dispatch_result (seen : Database) (c : ExchangeCommand) (worker : str)
    (result : DispatchResult) : txn unit :=
  a ← read_aggregate seen (ti_ticket_id (ec_ticket_identity c)) "claimed command has no Ticket aggregate";
  event ← lift (command_result_event c a result);
  match result with
  | leverage_result r => record_leverage_result (ec_command_id c) worker r
  | order_result r => record_result (ec_command_id c) worker r
  end;;
  commit_event a event.

Definition preflight_status_value (s : EntryDispatchPreflightStatus) : str :=
  match s with
  | PREFLIGHT_ALLOWED => "allowed" | COMMAND_MISMATCH => "command_mismatch"
  | DEADLINE_EXPIRED => "deadline_expired" | POLICY_DRIFT => "policy_drift"
  | NEW_ENTRY_DISABLED => "new_entry_disabled" | STRATEGY_PAUSED => "strategy_paused"
  | SELECTION_ENTRY_VACUUM => "selection_entry_vacuum"
  | SELECTION_AUTHORITY_INVALID => "selection_authority_invalid" | SCOPE_DRIFT => "scope_drift"
  | RUNTIME_FENCED => "runtime_fenced" | STALE_SNAPSHOT => "stale_snapshot"
  | ACCOUNT_MODE_INVALID => "account_mode_invalid" | INCIDENT_FENCED => "incident_fenced"
  | OWNERSHIP_CONFLICT => "ownership_conflict" | WALLET_RISK_DRIFT => "wallet_risk_drift"
  | MARGIN_DRIFT => "margin_drift"
  | PREFLIGHT_FAMILY_CAPACITY_EXHAUSTED => "exposure_family_capacity_exhausted"
  | PREFLIGHT_STRATEGY_SIDE_CAPACITY_EXHAUSTED => "strategy_side_capacity_exhausted"
  | QUOTE_RISK => "quote_risk" | PRODUCT_ENTRY_BLOCKED => "product_entry_blocked"
  | STRESS_FAILED => "stress_failed" | LEVERAGE_MISMATCH => "leverage_mismatch"
  end.

(** [_record_preflight_refusal] *)
Definition record_preflight_refusal (seen : Database) (vacuum_of : TradeAggregate → option str)
    (c : ExchangeCommand) (worker : str) (now_ms : Z) (preflight : EntryDispatchPreflightStatus) : txn unit :=
  refusal ← lift (validate_ExchangeCommandResult
                    (mkCommandResult REJECTED now_ms None
                       (Some ("dispatch_preflight:" +:+ preflight_status_value preflight))));
  current ← query (get_command (ec_command_id c));
  a ← lift (get_aggregate (ti_ticket_id (ec_ticket_identity c)) seen);
  match current, a with
  | Some current, Some a =>
      if bool_decide (preflight = SELECTION_ENTRY_VACUUM) then
        match vacuum_of a with
        | None => raise (RuntimeError "Selection Entry Vacuum changed before dispatch supersession")
        | Some vacuum_id => supersede_for_vacuum current a worker now_ms vacuum_id
        end
      else
        event ← lift (command_result_event current a (order_result refusal));
        record_result (ec_command_id current) worker refusal;;
        commit_event a event
  | _, _ => raise (RuntimeError "claimed command changed before preflight refusal")
  end.

(** What the worker meets on the way: the rows others hold, the preflight
    decision, the venue's response, and what other transactions commit after
    the claim. *)
Record Surroundings := mkSurroundings {
  su_locked : list str;
  su_vacuum_of : TradeAggregate → option str;
  su_preflight : ExchangeCommand → EntryDispatchPreflightStatus;
  su_venue : ExchangeCommand → VenueResponse;
  su_meanwhile : Database → Database
}.

Definition dispatch_status (result : DispatchResult) : Prelude.result DispatchCommandStatus :=
  match result with
  | leverage_result _ => mret DISPATCH_ACCEPTED
  | order_result r =>
      match cr_status r with
      | ACCEPTED => mret DISPATCH_ACCEPTED
      | REJECTED => mret DISPATCH_REJECTED
      | OUTCOME_UNKNOWN => mret DISPATCH_OUTCOME_UNKNOWN
      | SUPERSEDED => mret DISPATCH_SUPERSEDED
      | s => Raise (ValueError (command_status_value s +:+ " is not a valid DispatchCommandStatus"))
      end
  end.

Definition DispatchCommandResult : Type := DispatchCommandStatus * option str.

(** The transactions in order, each reading the tables it writes. *)
Definition dispatch_one_command (w : Surroundings) (request : DispatchCommandRequest) (db : Database)
    : result DispatchCommandResult * Database :=
  match run_uow (expire_one_claim db (su_locked w) request) db with
  | (Raise e, db) => (Raise e, db)
  | (Ok (Some command_id), db) => (Ok (DISPATCH_OUTCOME_UNKNOWN, Some command_id), db)
  | (Ok None, db) =>
      match run_uow (claim_next db (su_locked w) (su_vacuum_of w) request) db with
      | (Raise e, db) => (Raise e, db)
      | (Ok nothing_claimed, db) => (Ok (NO_COMMAND, None), db)
      | (Ok (claimed_superseded command_id), db) => (Ok (DISPATCH_SUPERSEDED, Some command_id), db)
      | (Ok (claimed c), db) =>
          let db := su_meanwhile w db in
          if bool_decide (ec_kind c ∈ [SET_LEVERAGE; ENTRY])
             && negb (bool_decide (su_preflight w c = PREFLIGHT_ALLOWED))
          then
            match run_uow (record_preflight_refusal db (su_vacuum_of w) c (dr_worker_id request)
                             (dr_now_ms request) (su_preflight w c)) db with
            | (Raise e, db) => (Raise e, db)
            | (Ok _, db) => (Ok (DISPATCH_SUPERSEDED, Some (ec_command_id c)), db)
            end
          else
            let result := dispatch_result c (dr_now_ms request) (su_venue w c) in
            match run_uow (record_dispatch_result db c (dr_worker_id request) result) db with
            | (Raise e, db) => (Raise e, db)
            | (Ok _, db) =>
                match dispatch_status result with
                | Ok s => (Ok (s, Some (ec_command_id c)), db)
                | Raise e => (Raise e, db)
                end
            end
      end
  end.
