(* ===== verification/UnknownOutcomes.v ===== *)
(** * Unknown outcomes ([application/recover_unknown_command.py],
    [application/reconcile_leverage_command.py])

    A command whose outcome is unknown is never sent again: it is resolved from
    what the venue shows, read outside any transaction, and committed only if
    the command is still unknown. *)

From stdpp Require Import gmap.
From S2P Require Import Prelude PyString PyDecimal Identities Ticket CrossMarginStress VenueTruth.
From S2P Require Import Capacity Admission Events Aggregate Reducer.
From S2P Require Import Commands Database UnitOfWork Dispatcher.

(** ** [recover_unknown_command] *)

(** [RecoverUnknownCommandRequest]; [timeout_seconds] bounds the venue lookup. *)
Record RecoverUnknownCommandRequest := mkRecoverRequest {
  ru_command_id : str;
  ru_now_ms : Z;
  ru_visibility_deadline_ms : Z
}.

Definition validate_RecoverUnknownCommandRequest (r : RecoverUnknownCommandRequest)
    : result RecoverUnknownCommandRequest :=
  validate_fields [(blank (ru_command_id r), "unknown recovery command identity must be non-blank")];;
  validate_model
    [((ru_now_ms r <=? 0) || (ru_visibility_deadline_ms r <=? 0),
      "unknown recovery time and timeout must be positive")];;
  mret (mkRecoverRequest (strip (ru_command_id r)) (ru_now_ms r) (ru_visibility_deadline_ms r)).

(** The lookup's answer, or the failure that stands for it. *)
Inductive TruthResponse :=
  | truth_returned (t : VenueTruthSnapshot)
  | truth_timeout
  | truth_raised (exception_name : str).

Definition lookup_failed (now_ms : Z) (reason : str) : VenueTruthSnapshot :=
  mkVenueTruthSnapshot LOOKUP_FAILED None d0 d0 None false [] [] now_ms (Some reason).

Definition truth_of (now_ms : Z) (response : TruthResponse) : VenueTruthSnapshot :=
  match response with
  | truth_returned t => t
  | truth_timeout => lookup_failed now_ms "venue_truth_timeout"
  | truth_raised name => lookup_failed now_ms ("venue_truth_error:" +:+ name)
  end.

(** [_recovery_event]: the body for an order the venue shows. *)
Definition submitted_body (a : TradeAggregate) (c : ExchangeCommand) (order : str) : result EventBody :=
  match ec_kind c with
  | ENTRY => mret (EntryAccepted order)
  | INITIAL_STOP => mret (InitialStopConfirmed order (position_qty a))
  | TAKE_PROFIT =>
      match ec_payload c with
      | OrderPayload p => mret (TakeProfitConfirmed order (op_quantity p))
      | _ => Raise (RuntimeError "TP1 recovery payload is invalid")
      end
  | REPLACE_PROTECTION =>
      match ec_payload c with
      | OrderPayload p =>
          match op_stop_price p, op_replaces_exchange_order_id p, op_source_watermark_ms p with
          | None, _, _ => Raise (RuntimeError "replacement recovery payload is invalid")
          | _, None, _ => Raise (RuntimeError "replacement recovery prior order is missing")
          | _, _, None => Raise (RuntimeError "replacement recovery watermark is missing")
          | Some stop, Some prior, Some watermark =>
              mret (ProtectionReplacementConfirmed order (op_quantity p) stop prior watermark)
          end
      | _ => Raise (RuntimeError "replacement recovery payload is invalid")
      end
  | EXIT => mret (ExitAccepted order)
  | CONTROLLED_FLATTEN => mret (ControlledFlattenAccepted order)
  | k => Raise (RuntimeError ("submitted recovery is not mapped for " +:+ command_kind_value k))
  end.

(** The body for a cancel whose target is still open. *)
Definition still_open_body (a : TradeAggregate) (p : CancelCommandPayload) : result EventBody :=
  match cp_purpose p with
  | selection_vacuum_entry =>
      raise_if (negb (bool_decide (status a = ENTRY_VACUUM_CANCEL_OUTCOME_UNKNOWN)))
        (RuntimeError "Vacuum cancel purpose is incompatible with aggregate state");;
      mret (EntryVacuumCancelRejected (cp_exchange_order_id p) "cancel_target_still_open")
  | reconciliation_cleanup => mret (CancelOrderStillOpenConfirmed (cp_exchange_order_id p))
  | _ => Raise (RuntimeError "cancel purpose cannot enter generic still-open recovery")
  end.

(** The body for a cancel whose target the venue no longer has. *)
Definition absent_cancel_body (a : TradeAggregate) (p : CancelCommandPayload) : result EventBody :=
  let order := cp_exchange_order_id p in
  let from (s : AggregateStatus) (message : str) (body : EventBody) : result EventBody :=
    raise_if (negb (bool_decide (status a = s))) (RuntimeError message);; mret body in
  let incompatible := "cancel purpose is incompatible with aggregate state"%string in
  match cp_purpose p with
  | entry_remainder =>
      from PARTIAL_FILL_CANCEL_OUTCOME_UNKNOWN incompatible (EntryRemainderCancelConfirmed order)
  | selection_vacuum_entry =>
      from ENTRY_VACUUM_CANCEL_OUTCOME_UNKNOWN "Vacuum cancel purpose is incompatible with aggregate state"
        (EntryVacuumCancelConfirmed order)
  | reconciliation_cleanup =>
      from CANCEL_OUTCOME_UNKNOWN incompatible (CancelOrderAbsenceConfirmed order)
  | runner_old_stop =>
      from RUNNER_OLD_STOP_CANCEL_OUTCOME_UNKNOWN incompatible (ProtectionCancelAbsenceConfirmed order)
  end.

Definition absent_body (a : TradeAggregate) (c : ExchangeCommand) : result EventBody :=
  match ec_kind c with
  | ENTRY => mret (EntryAbsenceConfirmed (ec_command_id c))
  | INITIAL_STOP => mret (InitialStopAbsenceConfirmed (ec_command_id c))
  | TAKE_PROFIT => mret (TakeProfitAbsenceConfirmed (ec_command_id c))
  | REPLACE_PROTECTION => mret (ProtectionReplacementAbsenceConfirmed (ec_command_id c))
  | EXIT => mret (ExitAbsenceConfirmed (ec_command_id c))
  | CONTROLLED_FLATTEN => mret (ControlledFlattenAbsenceConfirmed (ec_command_id c))
  | CANCEL_ORDER =>
      match ec_payload c with
      | CancelPayload p => absent_cancel_body a p
      | _ => Raise (RuntimeError "cancel recovery payload is invalid")
      end
  | k => Raise (RuntimeError ("absence recovery is not mapped for " +:+ command_kind_value k))
  end.

Definition recovery_body (a : TradeAggregate) (c : ExchangeCommand) (d : UnknownRecoveryDecision)
    : result EventBody :=
  match rd_status d with
  | RECONCILED_SUBMITTED =>
      submitted_body a c (strip (match rd_exchange_order_id d with Some o => o | None => "" end))
  | CANCEL_TARGET_STILL_OPEN =>
      match ec_kind c, ec_payload c with
      | CANCEL_ORDER, CancelPayload p => still_open_body a p
      | CANCEL_ORDER, _ => Raise (RuntimeError "cancel recovery payload is invalid")
      | _, _ => Raise (RuntimeError "non-terminal recovery decision cannot create an event")
      end
  | RECOVERY_RECONCILED_ABSENT => absent_body a c
  | _ => Raise (RuntimeError "non-terminal recovery decision cannot create an event")
  end.

Definition recovery_event (a : TradeAggregate) (c : ExchangeCommand) (d : UnknownRecoveryDecision)
    : result TradeEvent :=
  body ← recovery_body a c d; next_event a (rd_observed_at_ms d) body.

(** The incident of a venue order that contradicts the command's identity. *)
Definition identity_incident (a : TradeAggregate) (d : UnknownRecoveryDecision) : txn unit :=
  let domain := ti_netting_domain (identity a) in
  key ← lift (canonical_entry_block_key scope_account_capacity (nd_venue_id domain) (nd_account_id domain) None);
  add_incident
    (mkIncident ("incident:" +:+ tid a +:+ ":venue-identity:" +:+ string_of_Z (rd_observed_at_ms d))
       (Some (tid a)) "venue_identity_contradiction" true "hard_safety_stop" scope_account_capacity key
       (rd_observed_at_ms d) None).

(** The command as the recovery transaction finds it: still unknown. *)
Definition still_unknown (command_id : str) (changed : exn) : txn ExchangeCommand :=
  current ← query (get_command command_id);
  match current with
  | Some c =>
      check (negb (bool_decide (ec_status c = OUTCOME_UNKNOWN))) changed;;
      mret c
  | None => raise changed
  end.

(** The transaction that records a decision. *)
Definition record_recovery (seen : Database) (command_id : str) (d : UnknownRecoveryDecision) : txn unit :=
  c ← still_unknown command_id (RuntimeError "unknown command changed during venue lookup");
  a ← read_aggregate seen (ti_ticket_id (ec_ticket_identity c)) "unknown command has no Ticket aggregate";
  if bool_decide (rd_status d = IDENTITY_CONTRADICTION) then identity_incident a d
  else
    event ← lift (recovery_event a c d);
    (if bool_decide (rd_status d = RECONCILED_SUBMITTED) then
       reconcile_unknown_submitted (ec_command_id c) (py_str (rd_exchange_order_id d)) (rd_observed_at_ms d)
     else if negb (bool_decide (ec_kind c = CANCEL_ORDER))
             || bool_decide (rd_status d = CANCEL_TARGET_STILL_OPEN)
     then reconcile_unknown_absent (ec_command_id c) (rd_observed_at_ms d) (py_str (rd_reason d))
     else mret tt);;
    commit_event a event.

(** The first transaction: the command to look up. *)
Definition unknown_command (command_id : str) (db : Database) : result ExchangeCommand :=
  found ← get_command command_id db;
  match found with
  | None => Raise (ValueError "unknown recovery command does not exist")
  | Some c =>
      raise_if (negb (bool_decide (ec_status c = OUTCOME_UNKNOWN)))
        (ValueError "command is not in unknown-outcome state");;
      mret c
  end.

(** An order command's recovery; [meanwhile] is what others commit during the
    lookup. *)
Definition recover_order_command (lookup : ExchangeCommand → TruthResponse) (meanwhile : Database → Database)
    (request : RecoverUnknownCommandRequest) (c : ExchangeCommand) (db : Database)
    : result UnknownRecoveryDecision * Database :=
  if is_none (ec_venue_client_order_id c) then
    (Raise (RuntimeError "unknown order command lacks venue client order identity"), db)
  else
    let db := meanwhile db in
    match decide_unknown_recovery c (truth_of (ru_now_ms request) (lookup c)) (ru_visibility_deadline_ms request) with
    | Raise e => (Raise e, db)
    | Ok d =>
        if bool_decide (rd_status d ∈ [PENDING_VISIBILITY; RECOVERY_LOOKUP_FAILED]) then (Ok d, db)
        else
          match run_uow (record_recovery db (ru_command_id request) d) db with
          | (Ok _, db) => (Ok d, db)
          | (Raise e, db) => (Raise e, db)
          end
    end.

(** ** [reconcile_leverage_command] *)

Inductive ReconcileLeverageStatus :=
  | LEVERAGE_TRUTH_CONFIRMED | REJECTED_MISMATCH | BLOCKED_CONTRADICTION | TRUTH_UNAVAILABLE.
#[export] Instance ReconcileLeverageStatus_eq_dec : EqDecision ReconcileLeverageStatus.
Proof. solve_decision. Defined.

(** [LeverageTruthSnapshot], of [application/ports.py]. *)
Record LeverageTruthSnapshot := mkLeverageTruth {
  lt_exchange_configured_leverage : Z;
  lt_long_position_quantity : Decimal;
  lt_short_position_quantity : Decimal;
  lt_regular_open_order_ids : list str;
  lt_conditional_open_order_ids : list str;
  lt_observed_at_ms : Z
}.

Definition validate_LeverageTruthSnapshot (t : LeverageTruthSnapshot) : result LeverageTruthSnapshot :=
  validate_model
    [(lt_exchange_configured_leverage t <=? 0, "configured leverage must be a positive integer");
     ((lt_long_position_quantity t <? d0)%dec || (lt_short_position_quantity t <? d0)%dec,
      "leverage truth quantities must be nonnegative");
     (lt_observed_at_ms t <=? 0, "leverage truth observation time must be positive")];;
  mret t.

Definition has_external_exposure (t : LeverageTruthSnapshot) : bool :=
  negb (lt_long_position_quantity t =? d0)%dec || negb (lt_short_position_quantity t =? d0)%dec
  || negb (bool_decide (lt_regular_open_order_ids t = []))
  || negb (bool_decide (lt_conditional_open_order_ids t = [])).

(** The payload of the command, of the right kind and still unknown. *)
Definition leverage_payload (c : ExchangeCommand) : option SetLeverageCommandPayload :=
  match ec_kind c, ec_status c, ec_payload c with
  | SET_LEVERAGE, OUTCOME_UNKNOWN, LeveragePayload p => Some p
  | _, _, _ => None
  end.

Definition leverage_proof_digest (c : ExchangeCommand) (p : SetLeverageCommandPayload) (t : LeverageTruthSnapshot) : str :=
  canonical_digest (JObj
    [("command_id", JStr (ec_command_id c)); ("desired_leverage", JInt (lp_desired_leverage p));
     ("exchange_configured_leverage", JInt (lt_exchange_configured_leverage t));
     ("observed_at_ms", JInt (lt_observed_at_ms t))]).

(** The transaction that records the exact truth. *)
Definition record_leverage_truth (seen : Database) (command_id : str) (t : LeverageTruthSnapshot)
    : txn ReconcileLeverageStatus :=
  current ← query (get_command command_id);
  match current ≫= (λ c, p ← leverage_payload c; Some (c, p)) with
  | None => raise (RuntimeError "leverage command changed during truth lookup")
  | Some (c, p) =>
      a ← read_aggregate seen (ti_ticket_id (ec_ticket_identity c)) "leverage command has no Ticket aggregate";
      if lt_exchange_configured_leverage t =? lp_desired_leverage p then
        r ← lift (validate_SetLeverageCommandResult
                    (mkLeverageResult (lt_exchange_configured_leverage t) (lt_observed_at_ms t)
                       (leverage_proof_digest c p t)));
        event ← lift (next_event a (lt_observed_at_ms t)
                        (LeverageConfirmed (lr_exchange_configured_leverage r) (lr_leverage_verified_at_ms r)
                           (lr_leverage_verification_digest r)));
        reconcile_unknown_leverage_confirmed (ec_command_id c) r;;
        commit_event a event;;
        mret LEVERAGE_TRUTH_CONFIRMED
      else
        event ← lift (next_event a (lt_observed_at_ms t) (LeverageRejected "configured_leverage_mismatch"));
        reconcile_unknown_absent (ec_command_id c) (lt_observed_at_ms t) "configured_leverage_mismatch";;
        commit_event a event;;
        mret REJECTED_MISMATCH
  end.

Definition reconcile_leverage_command (truth : option LeverageTruthSnapshot) (meanwhile : Database → Database)
    (command_id : str) (db : Database) : result ReconcileLeverageStatus * Database :=
  match (found ← get_command command_id db;
         match found with
         | None => Raise (ValueError "leverage command does not exist")
         | Some c =>
             raise_if (negb (bool_decide (ec_kind c = SET_LEVERAGE))) (ValueError "command is not SET_LEVERAGE");;
             raise_if (negb (bool_decide (ec_status c = OUTCOME_UNKNOWN)))
               (ValueError "leverage command is not in unknown-outcome state");;
             raise_if (is_none (leverage_payload c)) (TypeError "SET_LEVERAGE command payload is invalid")
         end)
  with
  | Raise e => (Raise e, db)
  | Ok _ =>
      let db := meanwhile db in
      match truth with
      | None => (Ok TRUTH_UNAVAILABLE, db)
      | Some t =>
          if has_external_exposure t then (Ok BLOCKED_CONTRADICTION, db)
          else run_uow (record_leverage_truth db command_id t) db
      end
  end.

(** The two recoveries behind one entry point. *)
Definition recover_unknown_command (lookup : ExchangeCommand → TruthResponse) (truth : option LeverageTruthSnapshot)
    (meanwhile : Database → Database) (request : RecoverUnknownCommandRequest) (db : Database)
    : result (UnknownRecoveryDecision + ReconcileLeverageStatus) * Database :=
  match unknown_command (ru_command_id request) db with
  | Raise e => (Raise e, db)
  | Ok c =>
      if bool_decide (ec_kind c = SET_LEVERAGE) then
        let '(r, db) := reconcile_leverage_command truth meanwhile (ec_command_id c) db in
        (inr <$> r, db)
      else
        let '(r, db) := recover_order_command lookup meanwhile request c db in
        (inl <$> r, db)
  end.
