(* ===== verification/Reconcile.v ===== *)
(** * Reconciliation of one Ticket ([application/reconcile_ticket.py],
    [application/maintain_ticket_lifecycle.py], [application/settle_ticket.py],
    [application/controlled_exit.py])

    Each service reads the aggregate, derives at most one event from the facts
    it is given, and commits the event with the aggregate's version.  The
    services that take the row lock read the current tables; the others read
    [seen]. *)

From stdpp Require Import gmap.
From S2P Require Import Prelude PyString PyDecimal Identities Ticket PostFillRisk CrossMarginStress VenueTruth.
From S2P Require Import ExitPolicy.
From S2P Require Import Capacity Admission Dispatch Events Aggregate Reducer.
From S2P Require Import Commands Database OwnerState UnitOfWork Dispatcher.

(** ** [reconcile_ticket] *)

Inductive ReconcileTicketStatus :=
  | RECONCILE_NO_CHANGE | LATE_FILL_INCIDENT | ENTRY_FILL_RECORDED | PARTIAL_FILL_INCIDENT_RECORDED
  | EXTERNAL_FLAT_INCIDENT | POSITION_FLAT_RECORDED | PROTECTION_RESIDUE | CANCEL_ABSENCE_RECORDED
  | OWNED_ORPHAN_CANCEL_REQUESTED | UNOWNED_ORDER_INCIDENT | MATCHED.
#[export] Instance ReconcileTicketStatus_eq_dec : EqDecision ReconcileTicketStatus.
Proof. solve_decision. Defined.

(** [_required_average_entry_price] *)
Definition required_average_entry_price (snapshot : PositionSnapshot) : result Decimal :=
  match ps_average_entry_price snapshot with
  | Some price => mret price
  | None => Raise (RuntimeError "open position snapshot lacks average entry price")
  end.

(** [_venue_liquidation_observation_code] *)
Definition liquidation_not_directional (side : PositionSide) (price average : Decimal) : bool :=
  match side with
  | long => (price >=? average)%dec
  | short => (price <=? average)%dec
  end.
Definition venue_liquidation_observation_code (snapshot : PositionSnapshot) : str :=
  match default_observation_status snapshot with
  | liq_invalid => "venue_liquidation_observation_invalid"
  | liq_missing => "venue_liquidation_observation_unavailable"
  | liq_valid =>
      match ps_venue_reported_liquidation_price snapshot with
      | Some price =>
          if (price =? d0)%dec then "venue_liquidation_observation_zero"
          else
            match ps_average_entry_price snapshot with
            | Some average =>
                if liquidation_not_directional (nd_position_side (ps_netting_domain snapshot)) price average
                then "venue_liquidation_observation_not_side_directional"
                else "venue_liquidation_observation_observed"
            | None => "venue_liquidation_observation_observed"
            end
      | None => "venue_liquidation_observation_observed"
      end
  end.

(** [_is_kernel_owned_order] *)
Definition is_kernel_owned_order (order : VenueOrderSnapshot) : bool :=
  startswith (match vos_venue_client_order_id order with Some s => s | None => "" end) "brc-".

(** [_has_cancel_attempt] *)
Definition has_cancel_attempt (commands : list ExchangeCommand) (exchange_order_id : str) : bool :=
  existsb (λ c, bool_decide (ec_status c ∈ [PREPARED; Commands.CLAIMED; ACCEPTED; OUTCOME_UNKNOWN])
                && match ec_payload c with
                   | CancelPayload p => bool_decide (cp_exchange_order_id p = exchange_order_id)
                   | _ => false
                   end) commands.

(** [_next_known_cleanup_order_id] *)
Definition next_known_cleanup_order_id (a : TradeAggregate) : option str :=
  head (omap id [tp1_exchange_order_id a; active_stop_exchange_order_id a; initial_stop_exchange_order_id a]).

(** The risk of the fill, for the full-fill event. *)
Definition fill_risk (a : TradeAggregate) (quantity price : Decimal) : result PostFillRiskDecision :=
  request ← validate_PostFillRiskRequest
    (mkPostFillRiskRequest (nd_position_side (ti_netting_domain (identity a))) quantity price
       (tk_initial_stop_price (ticket a)) (tk_planned_stop_risk_budget (ticket a))
       (tk_post_fill_stop_risk_limit (ticket a)));
  mret (assess_post_fill_risk request).

(** What the branches of the body come to: an event to commit, or an early
    return. *)
Inductive Finding :=
  | found (status : ReconcileTicketStatus) (body : EventBody)
  | settled (status : ReconcileTicketStatus).

Definition reconcile_entry (a : TradeAggregate) (snapshot : PositionSnapshot) : result Finding :=
  let quantity := ps_quantity snapshot in
  let wanted := tk_quantity (ticket a) in
  if (quantity =? wanted)%dec then
    price ← required_average_entry_price snapshot;
    risk ← fill_risk a quantity price;
    mret (found ENTRY_FILL_RECORDED
            (EntryFilled quantity price risk (ps_venue_reported_liquidation_price snapshot)
               (ps_observed_at_ms snapshot)))
  else if (d0 <? quantity)%dec && (quantity <? wanted)%dec then
    price ← required_average_entry_price snapshot;
    mret (found PARTIAL_FILL_INCIDENT_RECORDED (EntryPartiallyFilled quantity wanted price))
  else mret (settled RECONCILE_NO_CHANGE).

Definition order_with_id (id : str) (snapshot : PositionSnapshot) : option VenueOrderSnapshot :=
  List.find (λ o, bool_decide (vos_exchange_order_id o = id)) (ps_open_orders snapshot).

(** RECONCILIATION_PENDING: residual orders, then the match.  [commands] are
    the Ticket's, [incident] its latest open incident. *)
Definition reconcile_residue (a : TradeAggregate) (snapshot : PositionSnapshot)
    (commands : result (list ExchangeCommand)) (incident : option RuntimeIncidentRecord) : result Finding :=
  if negb (is_none (pending_cancel_exchange_order_id a)) then mret (settled PROTECTION_RESIDUE)
  else
    match List.find (λ o, negb (is_kernel_owned_order o)) (ps_open_orders snapshot) with
    | Some unowned =>
        if match incident with
           | Some i => bool_decide (ic_incident_kind i = "unowned_open_order"%string)
           | None => false
           end
        then mret (settled UNOWNED_ORDER_INCIDENT)
        else mret (found UNOWNED_ORDER_INCIDENT (UnownedOrderDetected (vos_exchange_order_id unowned)))
    | None =>
        match next_known_cleanup_order_id a with
        | Some known =>
            if is_none (order_with_id known snapshot) then
              mret (found CANCEL_ABSENCE_RECORDED (OwnedOrderAbsenceConfirmed known))
            else
              commands ← commands;
              if has_cancel_attempt commands known then mret (settled PROTECTION_RESIDUE)
              else mret (found OWNED_ORPHAN_CANCEL_REQUESTED (OwnedOrphanOrderDetected known conditional))
        | None =>
            match ps_open_orders snapshot with
            | owned :: _ =>
                commands ← commands;
                if has_cancel_attempt commands (vos_exchange_order_id owned) then mret (settled PROTECTION_RESIDUE)
                else mret (found OWNED_ORPHAN_CANCEL_REQUESTED
                             (OwnedOrphanOrderDetected (vos_exchange_order_id owned) (vos_order_namespace owned)))
            | [] =>
                if (ps_quantity snapshot =? d0)%dec then mret (found MATCHED (ReconciliationMatched None))
                else mret (settled RECONCILE_NO_CHANGE)
            end
        end
    end.

Definition reconcile_cancel (a : TradeAggregate) (snapshot : PositionSnapshot) : result Finding :=
  match pending_cancel_exchange_order_id a with
  | None => Raise (RuntimeError "cancel recovery state has no exact order identity")
  | Some target =>
      match order_with_id target snapshot with
      | Some order =>
          if bool_decide (status a = CANCEL_OUTCOME_UNKNOWN) then mret (settled PROTECTION_RESIDUE)
          else mret (found OWNED_ORPHAN_CANCEL_REQUESTED
                       (OwnedOrphanOrderDetected target (vos_order_namespace order)))
      | None => mret (found CANCEL_ABSENCE_RECORDED (CancelOrderAbsenceConfirmed target))
      end
  end.

(** The statuses in which a flat position is the expected exit, and those in
    which it is the venue's doing. *)
Definition FLAT_EXPECTED : list AggregateStatus :=
  [EXIT_PENDING; EXIT_ACCEPTED; EXIT_REJECTED; EXIT_OUTCOME_UNKNOWN; CONTROLLED_FLATTEN_PENDING;
   CONTROLLED_FLATTEN_ACCEPTED; CONTROLLED_FLATTEN_REJECTED; CONTROLLED_FLATTEN_OUTCOME_UNKNOWN].
Definition FLAT_EXTERNAL : list AggregateStatus :=
  [TP1_PENDING; TP1_REJECTED; TP1_OUTCOME_UNKNOWN; POST_FILL_RISK_PENDING; POSITION_PROTECTED;
   RUNNER_REPLACEMENT_PENDING; RUNNER_REPLACEMENT_REJECTED; RUNNER_REPLACEMENT_OUTCOME_UNKNOWN;
   RUNNER_OLD_STOP_CANCEL_PENDING; RUNNER_OLD_STOP_CANCEL_REJECTED; RUNNER_OLD_STOP_CANCEL_OUTCOME_UNKNOWN;
   RUNNER_PROTECTED].

(** The chain of conditions of [reconcile_ticket]. *)
Definition reconcile_finding (a : TradeAggregate) (snapshot : PositionSnapshot)
    (commands : result (list ExchangeCommand)) (incident : option RuntimeIncidentRecord) : result Finding :=
  let flat := (ps_quantity snapshot =? d0)%dec in
  if bool_decide (status a = ENTRY_ACCEPTED) then reconcile_entry a snapshot
  else if bool_decide (status a ∈ FLAT_EXPECTED) && flat then
    mret (found POSITION_FLAT_RECORDED PositionFlatConfirmed)
  else if bool_decide (status a ∈ FLAT_EXTERNAL) && flat then
    mret (found EXTERNAL_FLAT_INCIDENT ExternalFlatDetected)
  else if bool_decide (status a = RECONCILIATION_PENDING) then reconcile_residue a snapshot commands incident
  else if bool_decide (status a ∈ [CANCEL_REJECTED; CANCEL_OUTCOME_UNKNOWN]) then reconcile_cancel a snapshot
  else mret (settled RECONCILE_NO_CHANGE).

Definition account_key_of (a : TradeAggregate) : result (option str) :=
  let domain := ti_netting_domain (identity a) in
  canonical_entry_block_key scope_account_capacity (nd_venue_id domain) (nd_account_id domain) None.

(** An incident of a kind, opened unless one of that kind is open.  Its
    identity is the Ticket's and the kind's. *)
Definition kind_incident_id (a : TradeAggregate) (kind : str) : str :=
  "incident:" +:+ tid a +:+ ":" +:+ kind.
Definition open_incident_of_kind (a : TradeAggregate) (kind : str) (at_ms : Z) : txn unit :=
  key ← lift (account_key_of a);
  add_incident
    (mkIncident (kind_incident_id a kind) (Some (tid a)) kind true kind scope_account_capacity key at_ms None).

(** [_record_late_fill_incident] *)
Definition record_late_fill_incident (a : TradeAggregate) (snapshot : PositionSnapshot) : txn unit :=
  let kind := "late_fill_after_entry_absence"%string in
  existing ← select (get_open_for_ticket_kind (tid a) kind);
  (if is_none existing then open_incident_of_kind a kind (ps_observed_at_ms snapshot) else mret tt);;
  save_if_changed
    (mkMonitor ("late-fill:" +:+ tid a) NEEDS_INTERVENTION
       "Positive venue position after terminal zero-fill ENTRY closure"
       "Account ENTRY fenced; exact exposure requires controlled recovery" (Some (tid a))
       (Some (kind_incident_id a kind)) (ps_observed_at_ms snapshot) 0).

(** [ReconcileTicketRequest] is its two fields. *)
Definition reconcile_ticket (ticket_id : str) (snapshot : PositionSnapshot) : txn ReconcileTicketStatus :=
  current ← get_for_update ticket_id;
  match current with
  | None => raise (ValueError "Ticket aggregate does not exist")
  | Some a =>
      check (negb (bool_decide (ps_netting_domain snapshot = ti_netting_domain (identity a))))
        (ValueError "position snapshot Netting Domain mismatch");;
      if bool_decide (status a = ENTRY_RECONCILED_ABSENT) && (d0 <? ps_quantity snapshot)%dec then
        latest ← select (get_position (netting_domain_key (ps_netting_domain snapshot)));
        if match latest with Some l => ps_observed_at_ms snapshot <? ps_observed_at_ms l | None => false end
        then mret RECONCILE_NO_CHANGE
        else record_late_fill_incident a snapshot;; mret LATE_FILL_INCIDENT
      else
        upsert_position ticket_id snapshot;;
        save_if_changed
          (mkMonitor ("venue-liquidation-observation:" +:+ ticket_id) RUNNING
             ("Venue liquidation observation is audit-only: " +:+ venue_liquidation_observation_code snapshot)
             "none" (Some ticket_id) None (ps_observed_at_ms snapshot) 0);;
        db ← select id;
        finding ← lift (reconcile_finding a snapshot (list_for_ticket ticket_id db)
                          (get_open_for_ticket ticket_id db));
        match finding with
        | settled s => mret s
        | found s body =>
            event ← lift (next_event a (ps_observed_at_ms snapshot) body);
            commit_event a event;;
            mret s
        end
  end.

(** ** [reconcile_post_fill_stress] *)

Inductive PostFillStressReconcileStatus :=
  | STRESS_PASSED | STRESS_NOT_PASSED | STRESS_FACTS_UNAVAILABLE | STRESS_FACTS_CONTRADICTORY | STRESS_NO_CHANGE.
#[export] Instance PostFillStressReconcileStatus_eq_dec : EqDecision PostFillStressReconcileStatus.
Proof. solve_decision. Defined.

Definition stress_status_value (s : PostFillStressReconcileStatus) : str :=
  match s with
  | STRESS_PASSED => "passed" | STRESS_NOT_PASSED => "failed"
  | STRESS_FACTS_UNAVAILABLE => "facts_unavailable" | STRESS_FACTS_CONTRADICTORY => "facts_contradictory"
  | STRESS_NO_CHANGE => "no_change"
  end.

Section post_fill_stress.
Context (account : AccountRiskSnapshot) (rules : InstrumentRulesFacts) (assessed_at_ms : Z).

Definition stress_facts_current : bool :=
  (ars_observed_at_ms account <=? assessed_at_ms) && (assessed_at_ms <? ars_valid_until_ms account)
  && (rf_observed_at_ms rules <=? assessed_at_ms) && (assessed_at_ms <? rf_valid_until_ms rules).

Definition stress_facts_contradict (domain : NettingDomain) (certified : InstrumentRulesFacts) : bool :=
  negb (bool_decide (ars_venue_id account = nd_venue_id domain))
  || negb (bool_decide (ars_account_id account = nd_account_id domain))
  || negb (bool_decide (ars_exchange_instrument_id account = nd_exchange_instrument_id domain))
  || negb (bool_decide (rf_exchange_instrument_id rules = nd_exchange_instrument_id domain))
  || negb (bool_decide (rf_maintenance_margin_brackets_digest rules
                        = rf_maintenance_margin_brackets_digest certified))
  || negb (rf_notional_coefficient rules =? rf_notional_coefficient certified)%dec
  || negb (Bool.eqb (rf_notional_coefficient_certified rules) (rf_notional_coefficient_certified certified)).

Definition target_positions (domain : NettingDomain) : list AccountRiskPosition :=
  filter (λ p, arp_exchange_instrument_id p = nd_exchange_instrument_id domain) (ars_account_positions account).

(** The account shows exactly the aggregate's position. *)
Definition shows_position (a : TradeAggregate) : bool :=
  let domain := ti_netting_domain (identity a) in
  match List.find (λ p, bool_decide (arp_position_side p = nd_position_side domain)) (target_positions domain),
        average_fill_price a with
  | Some p, Some price => (arp_quantity p =? position_qty a)%dec && (arp_average_entry_price p =? price)%dec
  | _, _ => false
  end.

Definition post_fill_stress_request (a : TradeAggregate) (price : Decimal) : result CrossMarginStressRequest :=
  let domain := ti_netting_domain (identity a) in
  positions ← map_result (λ p, validate_StressPosition
                (mkStressPosition (arp_position_side p) (arp_quantity p) (arp_average_entry_price p)))
                (target_positions domain);
  validate_CrossMarginStressRequest
    (mkStressRequest account (rf_maintenance_margin_brackets rules) (rf_maintenance_margin_brackets_digest rules)
       (rf_notional_coefficient rules) (rf_notional_coefficient_certified rules) (nd_position_side domain) price
       (tk_initial_stop_price (ticket a)) (tk_post_stop_stress_multiple (ticket a)) positions).

(** [_resolve_post_fill_retry_incidents] *)
Definition RETRY_INCIDENT_KINDS : list str :=
  ["post_fill_risk_facts_unavailable"; "post_fill_risk_facts_contradictory"].
Definition resolve_open_of_kind (ticket_id kind : str) (at_ms : Z) : txn unit :=
  incident ← select (get_open_for_ticket_kind ticket_id kind);
  match incident with
  | Some i => resolve_incident (ic_incident_id i) at_ms
  | None => mret tt
  end.
Definition resolve_post_fill_retry_incidents (ticket_id : str) : txn unit :=
  for_each (λ kind, resolve_open_of_kind ticket_id kind assessed_at_ms) RETRY_INCIDENT_KINDS.

Definition commit_stress (a : TradeAggregate) (price : Decimal) (evidence : CrossMarginStressEvidence)
    (outcome : StressOutcome) (s : PostFillStressReconcileStatus) : txn PostFillStressReconcileStatus :=
  match initial_stop_exchange_order_id a with
  | None => raise (AssertionError "")
  | Some stop =>
      event ← lift (next_event a assessed_at_ms
        (PostFillStressAssessed outcome evidence (tk_owner_policy_id (ticket a)) (tk_owner_policy_version (ticket a))
           (position_qty a) price (tk_initial_stop_price (ticket a)) stop));
      commit_event a event;;
      resolve_post_fill_retry_incidents (tid a);;
      save_if_changed
        (mkMonitor ("post-fill-stress:" +:+ tid a) PROCESSING
           ("Post-fill stress assessed: " +:+ stress_status_value s) "none" (Some (tid a)) None assessed_at_ms 0);;
      mret s
  end.

Definition assess_stress (a : TradeAggregate) (certified : InstrumentRulesSnapshot) (price : Decimal)
    : txn PostFillStressReconcileStatus :=
  (if rf_valid_until_ms (is_facts certified) <=? assessed_at_ms
   then upsert_instrument_rules (nd_venue_id (ti_netting_domain (identity a))) rules
   else mret tt);;
  evidence ← lift (request ← post_fill_stress_request a price; evaluate_cross_margin_stress request);
  match csp_status (cse_proof evidence) with
  | FACTS_CONTRADICTORY => mret STRESS_FACTS_CONTRADICTORY
  | PASSED => commit_stress a price evidence stress_passed STRESS_PASSED
  | FAILED => commit_stress a price evidence stress_failed STRESS_NOT_PASSED
  end.

Definition reconcile_post_fill_stress (ticket_id : str) : txn PostFillStressReconcileStatus :=
  current ← get_for_update ticket_id;
  match current with
  | None => mret STRESS_NO_CHANGE
  | Some a =>
      let domain := ti_netting_domain (identity a) in
      if negb (bool_decide (status a = POST_FILL_RISK_PENDING)) then mret STRESS_NO_CHANGE
      else if negb stress_facts_current then mret STRESS_FACTS_UNAVAILABLE
      else
        certified ← select (get_instrument_rules (nd_venue_id domain) (nd_exchange_instrument_id domain));
        match certified with
        | None => mret STRESS_FACTS_UNAVAILABLE
        | Some certified =>
            if stress_facts_contradict domain (is_facts certified) then mret STRESS_FACTS_CONTRADICTORY
            else if negb (shows_position a) then mret STRESS_FACTS_UNAVAILABLE
            else
              match average_fill_price a with
              | None => raise (AssertionError "")
              | Some price => assess_stress a certified price
              end
        end
  end.
End post_fill_stress.

(** [record_post_fill_stress_retry] *)
Definition retry_kind (s : PostFillStressReconcileStatus) : str :=
  match s with
  | STRESS_FACTS_UNAVAILABLE => "post_fill_risk_facts_unavailable"
  | _ => "post_fill_risk_facts_contradictory"
  end.
Definition opposite_kind (s : PostFillStressReconcileStatus) : str :=
  match s with
  | STRESS_FACTS_UNAVAILABLE => "post_fill_risk_facts_contradictory"
  | _ => "post_fill_risk_facts_unavailable"
  end.

Definition record_post_fill_stress_retry (ticket_id : str) (s : PostFillStressReconcileStatus)
    (now_ms due_at_ms : Z) : txn unit :=
  check (negb (bool_decide (s ∈ [STRESS_FACTS_UNAVAILABLE; STRESS_FACTS_CONTRADICTORY])))
    (ValueError "post-fill retry requires an unavailable fact status");;
  current ← get_for_update ticket_id;
  match current with
  | None => mret tt
  | Some a =>
      if negb (bool_decide (status a = POST_FILL_RISK_PENDING)) then mret tt
      else
        resolve_open_of_kind ticket_id (opposite_kind s) now_ms;;
        existing ← select (get_open_for_ticket_kind ticket_id (retry_kind s));
        (if is_none existing then open_incident_of_kind a (retry_kind s) now_ms else mret tt);;
        let unavailable := bool_decide (s = STRESS_FACTS_UNAVAILABLE) in
        save_if_changed
          (mkMonitor ("post-fill-stress:" +:+ ticket_id)
             (if unavailable then TEMPORARILY_UNAVAILABLE else NEEDS_INTERVENTION)
             ("Post-fill stress " +:+ stress_status_value s)
             (if unavailable then "automatic retry" else "Owner review required") (Some ticket_id)
             (Some (match existing with
                    | Some i => ic_incident_id i
                    | None => kind_incident_id a (retry_kind s)
                    end)) now_ms 0);;
        schedule_next_check ticket_id work_reconciliation due_at_ms
  end.

(** ** [request_exit] *)

(** [aggregates.get] of a service that asks for the Ticket by name. *)
Definition existing_aggregate (seen : Database) (ticket_id message : str) : txn TradeAggregate :=
  found ← lift (get_aggregate ticket_id seen);
  match found with
  | Some a => mret a
  | None => raise (ValueError message)
  end.

(** An event of the aggregate, committed. *)
Definition commit_next (a : TradeAggregate) (occurred_at_ms : Z) (body : EventBody) : txn unit :=
  event ← lift (next_event a occurred_at_ms body);
  commit_event a event.

Definition request_exit (seen : Database) (ticket_id reason : str) (requested_at_ms : Z) : txn unit :=
  lift (validate_fields [(blank reason, "exit reason must be non-blank")]);;
  a ← existing_aggregate seen ticket_id "Ticket aggregate does not exist";
  commit_next a requested_at_ms (ExitRequested (strip reason)).

(** ** [controlled_exit] *)

Inductive ControlledExitClassification := ELIGIBLE | IN_PROGRESS | CLASSIFIED_TERMINAL | BLOCKED.
#[export] Instance ControlledExitClassification_eq_dec : EqDecision ControlledExitClassification.
Proof. solve_decision. Defined.

Definition classify_controlled_exit_status (s : AggregateStatus) : ControlledExitClassification :=
  if bool_decide (s ∈ [POSITION_PROTECTED; RUNNER_PROTECTED]) then ELIGIBLE
  else if bool_decide (s ∈ [EXIT_PENDING; EXIT_ACCEPTED; EXIT_OUTCOME_UNKNOWN; RECONCILIATION_PENDING;
                            SETTLEMENT_PENDING; REVIEW_PENDING]) then IN_PROGRESS
  else if bool_decide (s ∈ [TERMINAL; LEVERAGE_REJECTED; ENTRY_REJECTED; ENTRY_RECONCILED_ABSENT])
  then CLASSIFIED_TERMINAL
  else BLOCKED.

(** [ControlledExitAuthorization]; its purpose is "deployment_drain". *)
Record ControlledExitAuthorization := mkAuthorization {
  xa_authorization_id : str;
  xa_target_commit : str
}.

Definition in_range (c : ascii) (lo hi : nat) : bool :=
  Nat.leb lo (nat_of_ascii c) && Nat.leb (nat_of_ascii c) hi.
Definition ascii_alphanumeric (c : ascii) : bool := in_range c 48 57 || in_range c 65 90 || in_range c 97 122.

(** [_AUTHORIZATION_ID] and [_COMMIT], matched against the whole text. *)
Definition canonical_authorization (s : str) : bool :=
  match String.list_ascii_of_string s with
  | [] => false
  | c :: rest =>
      ascii_alphanumeric c && Nat.leb (length rest) 127
      && forallb (λ c, ascii_alphanumeric c || bool_decide (c ∈ String.list_ascii_of_string "._-")) rest
  end.
Definition canonical_commit (s : str) : bool :=
  let l := String.list_ascii_of_string s in Nat.eqb (length l) 40 && forallb is_hex_digit l.

Definition validate_ControlledExitAuthorization (x : ControlledExitAuthorization)
    : result ControlledExitAuthorization :=
  let x := mkAuthorization (strip (xa_authorization_id x)) (strip (xa_target_commit x)) in
  validate_fields
    [(negb (canonical_authorization (xa_authorization_id x)), "authorization identity must be canonical");
     (negb (canonical_commit (xa_target_commit x)), "target commit must be an exact lowercase 40-hex SHA")];;
  mret x.

(** [ControlledExitAuthorization.reason] *)
Definition exit_authorization_reason (x : ControlledExitAuthorization) : str :=
  "deployment_drain:" +:+ xa_authorization_id x +:+ ":" +:+ xa_target_commit x.

(** [ControlledExitRequest]; its runtime profile is "account-wide". *)
Record ControlledExitRequest := mkExitRequest {
  xq_authorization : ControlledExitAuthorization;
  xq_venue_id : str;
  xq_account_id : str;
  xq_max_active_tickets : Z;
  xq_requested_at_ms : Z
}.

Definition validate_ControlledExitRequest (q : ControlledExitRequest) : result ControlledExitRequest :=
  validate_fields
    [(blank (xq_venue_id q), "Controlled Exit scope identities must be non-blank");
     (blank (xq_account_id q), "Controlled Exit scope identities must be non-blank")];;
  validate_model
    [((xq_max_active_tickets q <=? 0) || (3 <? xq_max_active_tickets q),
      "Controlled Exit active Ticket bound must be 1 through 3");
     (xq_requested_at_ms q <=? 0, "Controlled Exit request time must be positive")];;
  mret (mkExitRequest (xq_authorization q) (strip (xq_venue_id q)) (strip (xq_account_id q))
          (xq_max_active_tickets q) (xq_requested_at_ms q)).

(** [_classification_for_ticket] *)
Definition classification_for_ticket (ticket_id : str) (db : Database) : result ControlledExitClassification :=
  a ← get_aggregate ticket_id db;
  mret (match a with
        | None => CLASSIFIED_TERMINAL
        | Some a => classify_controlled_exit_status (status a)
        end).

(** [list_active_ticket_ids] *)
Definition active_ticket_of (venue_id account_id : str) (r : TicketRow) : bool :=
  let domain := ti_netting_domain (tk_identity (tr_ticket r)) in
  bool_decide (nd_venue_id domain = venue_id) && bool_decide (nd_account_id domain = account_id)
  && is_none (tr_terminal_at_ms r).
Definition list_active_ticket_ids (venue_id account_id : str) (limit : Z) (db : Database) : result (list str) :=
  raise_if (blank venue_id || blank account_id) (ValueError "active Ticket scope identities must be non-blank");;
  raise_if ((limit <=? 0) || (3 <? limit)) (ValueError "active Ticket selection limit must be 1 through 3");;
  let ids := sort_by String.leb
               (filter (λ i, is_Some (db_aggregates db !! i))
                  (filter (λ ir, active_ticket_of venue_id account_id ir.2 = true) (map_to_list (db_tickets db))).*1) in
  raise_if (limit <? Z.of_nat (length ids)) (RuntimeError "active Ticket set exceeds Controlled Exit bound");;
  mret ids.

Record ControlledExitResult := mkControlledExit {
  xr_requested_ticket_ids : list str;
  xr_in_progress_ticket_ids : list str;
  xr_terminal_ticket_ids : list str;
  xr_blocked_ticket_ids : list str
}.

(** The loop: one transaction per Ticket, up to the first that is blocked.
    [others] is what other transactions commit between two of them. *)
Fixpoint request_exits (reason : str) (requested_at_ms : Z) (others : Database → Database) (ids : list str)
    (r : ControlledExitResult) (db : Database) : result ControlledExitResult * Database :=
  match ids with
  | [] => (Ok r, db)
  | i :: ids =>
      let db := others db in
      match classification_for_ticket i db with
      | Raise e => (Raise e, db)
      | Ok ELIGIBLE =>
          match run_uow (request_exit db i reason requested_at_ms) db with
          | (Raise e, db) => (Raise e, db)
          | (Ok _, db) =>
              request_exits reason requested_at_ms others ids
                (mkControlledExit (xr_requested_ticket_ids r ++ [i]) (xr_in_progress_ticket_ids r)
                   (xr_terminal_ticket_ids r) (xr_blocked_ticket_ids r)) db
          end
      | Ok IN_PROGRESS =>
          request_exits reason requested_at_ms others ids
            (mkControlledExit (xr_requested_ticket_ids r) (xr_in_progress_ticket_ids r ++ [i])
               (xr_terminal_ticket_ids r) (xr_blocked_ticket_ids r)) db
      | Ok CLASSIFIED_TERMINAL =>
          request_exits reason requested_at_ms others ids
            (mkControlledExit (xr_requested_ticket_ids r) (xr_in_progress_ticket_ids r)
               (xr_terminal_ticket_ids r ++ [i]) (xr_blocked_ticket_ids r)) db
      | Ok BLOCKED =>
          (Ok (mkControlledExit (xr_requested_ticket_ids r) (xr_in_progress_ticket_ids r)
                 (xr_terminal_ticket_ids r) (xr_blocked_ticket_ids r ++ [i])), db)
      end
  end.

(** [request_controlled_exits] *)
Definition request_controlled_exits (q : ControlledExitRequest) (others : Database → Database) (db : Database)
    : result ControlledExitResult * Database :=
  match (ids ← list_active_ticket_ids (xq_venue_id q) (xq_account_id q) (xq_max_active_tickets q) db;
         initial ← map_result (λ i, classification_for_ticket i db) ids;
         mret (ids, initial))
  with
  | Raise e => (Raise e, db)
  | Ok (ids, initial) =>
      match (filter (λ ic, ic.2 = BLOCKED) (zip ids initial)).*1 with
      | [] =>
          request_exits (exit_authorization_reason (xq_authorization q)) (xq_requested_at_ms q) others ids
            (mkControlledExit [] [] [] []) db
      | blocked => (Ok (mkControlledExit [] [] [] blocked), db)
      end
  end.

(** ** [settle_ticket] *)

Definition settle_ticket (seen : Database) (ticket_id : str) (settled_at_ms : Z) : txn unit :=
  a ← existing_aggregate seen ticket_id "Ticket aggregate does not exist";
  commit_next a settled_at_ms BudgetSettled.

Definition record_trade_review (seen : Database) (ticket_id review_id outcome : str) (recorded_at_ms : Z)
    : txn unit :=
  a ← existing_aggregate seen ticket_id "Ticket aggregate does not exist";
  review ← lift (validate_TradeReviewRecord (mkReview review_id ticket_id 1 None outcome recorded_at_ms));
  add_review review;;
  commit_next a recorded_at_ms (ReviewRecorded review_id).

Definition revise_trade_review (seen : Database) (ticket_id review_id supersedes_review_id outcome : str)
    (recorded_at_ms : Z) : txn unit :=
  a ← existing_aggregate seen ticket_id "Ticket aggregate does not exist";
  check (negb (bool_decide (status a = TERMINAL)))
    (ValueError "Trade Review revision requires terminal Ticket");;
  check (negb (bool_decide (Aggregate.review_id a = Some supersedes_review_id)))
    (ValueError "Trade Review supersedes identity is not current");;
  predecessor ← lift (Ok (get_review supersedes_review_id seen));
  match predecessor with
  | None => raise (ValueError "Superseded Trade Review does not exist for Ticket")
  | Some p =>
      check (negb (bool_decide (rv_ticket_id p = ticket_id)))
        (ValueError "Superseded Trade Review does not exist for Ticket");;
      review ← lift (validate_TradeReviewRecord
        (mkReview review_id ticket_id (rv_revision p + 1) (Some (rv_review_id p)) outcome recorded_at_ms));
      add_review review;;
      commit_next a recorded_at_ms (ReviewRevised review_id supersedes_review_id)
  end.

(** ** [maintain_ticket_lifecycle] *)

Inductive LifecycleMaintenanceStatus :=
  | MAINTENANCE_NO_CHANGE | BREAK_EVEN_REQUESTED | RUNNER_MOVE_REQUESTED | EXIT_REQUESTED.
#[export] Instance LifecycleMaintenanceStatus_eq_dec : EqDecision LifecycleMaintenanceStatus.
Proof. solve_decision. Defined.

Record TicketLifecycleFacts := mkLifecycleFacts {
  tf_position_quantity : Decimal;
  tf_tp1_filled_quantity : Decimal;
  tf_tp1_average_fill_price : option Decimal;
  tf_allocated_entry_fee_quote : Decimal;
  tf_exit_taker_fee_rate : Decimal;
  tf_price_tick : Decimal;
  tf_market_facts : option LifecycleMarketFacts;
  tf_observed_at_ms : Z
}.

Definition validate_TicketLifecycleFacts (f : TicketLifecycleFacts) : result TicketLifecycleFacts :=
  validate_fields
    (((λ v, ((v <? d0)%dec, "lifecycle quantities and fees cannot be negative")) <$>
        [tf_position_quantity f; tf_tp1_filled_quantity f; tf_allocated_entry_fee_quote f]) ++
     [((tf_price_tick f <=? d0)%dec, "lifecycle price tick must be positive")]);;
  validate_model
    [(tf_observed_at_ms f <=? 0, "lifecycle observation time must be positive");
     (negb ((d0 <=? tf_exit_taker_fee_rate f)%dec && (tf_exit_taker_fee_rate f <? d1)%dec),
      "exit taker fee rate must be in [0, 1)");
     if (tf_tp1_filled_quantity f >? d0)%dec then
       (match tf_tp1_average_fill_price f with Some p => (p <=? d0)%dec | None => true end,
        "TP1 fill requires a positive average price")
     else (negb (is_none (tf_tp1_average_fill_price f)), "zero TP1 fill forbids an average price")];;
  mret f.

(** What one maintenance finds: nothing, or an event. *)
Definition Maintenance : Type := option (LifecycleMaintenanceStatus * EventBody).

Definition exit_for (d : ExitDecision) : Maintenance := Some (EXIT_REQUESTED, ExitRequested (xd_reason d)).

(** POSITION_PROTECTED before any TP1 fill. *)
Definition maintain_pre_tp1 (a : TradeAggregate) (profile : ExitProfile) (f : TicketLifecycleFacts)
    : result Maintenance :=
  raise_if (negb (tf_position_quantity f =? position_qty a)%dec)
    (ValueError "pre-TP1 venue quantity differs from Ticket projection");;
  match ep_pre_tp1_guards profile, ep_time_stop profile, tf_market_facts f with
  | [], None, _ => mret None
  | _, _, None => mret None
  | _, _, Some market_facts =>
      d ← evaluate_profile_pre_tp1_exit profile market_facts (tf_observed_at_ms f)
            (tk_pre_tp1_reclaim_price (ticket a)) (tk_exposure_session_end_ms (ticket a));
      mret (if bool_decide (xd_kind d = ExitPolicy.EXIT) then exit_for d else None)
  end.

(** POSITION_PROTECTED with a TP1 fill. *)
Definition maintain_tp1_filled (a : TradeAggregate) (profile : ExitProfile) (f : TicketLifecycleFacts)
    : result Maintenance :=
  let target := tp1_target_qty a in
  raise_if (negb (tf_tp1_filled_quantity f =? target)%dec)
    (ValueError "partial TP1 fill is outside the registered exit policy");;
  let runner_quantity := (position_qty a - target)%dec in
  let contradict := ValueError "TP1 venue facts contradict the frozen Ticket" in
  raise_if ((runner_quantity <=? d0)%dec || negb (tf_position_quantity f =? runner_quantity)%dec) contradict;;
  match average_fill_price a, tf_tp1_average_fill_price f with
  | Some average, Some tp1_average =>
      floor ← calculate_cost_adjusted_break_even (side_value (ep_position_side profile)) average runner_quantity
                (tf_allocated_entry_fee_quote f) (tf_exit_taker_fee_rate f) (tf_price_tick f)
                (bf_slippage_buffer_ticks (ep_break_even_floor profile));
      mret (Some (BREAK_EVEN_REQUESTED, TakeProfitFilled target tp1_average floor))
  | _, _ => Raise contradict
  end.

(** RUNNER_PROTECTED. *)
Definition maintain_runner (a : TradeAggregate) (profile : ExitProfile) (f : TicketLifecycleFacts)
    : result Maintenance :=
  raise_if (negb (tf_position_quantity f =? position_qty a)%dec)
    (ValueError "runner venue quantity differs from Ticket projection");;
  match tf_market_facts f with
  | None => mret None
  | Some market_facts =>
      match active_stop_price a, break_even_floor_price a with
      | Some stop, Some floor =>
          d ← evaluate_profile_runner_exit profile stop floor (tf_price_tick f)
                (match runner_stop_watermark_ms a with Some w => w | None => 0 end) market_facts;
          match xd_kind d with
          | ExitPolicy.NO_CHANGE => mret None
          | MOVE_STOP =>
              match xd_proposed_stop d with
              | None => Raise (RuntimeError "runner move decision lacks a stop price")
              | Some price => mret (Some (RUNNER_MOVE_REQUESTED, RunnerStopRequested price (xd_source_watermark_ms d)))
              end
          | ExitPolicy.EXIT => mret (exit_for d)
          end
      | _, _ => Raise (ValueError "runner protection lacks its active and floor prices")
      end
  end.

Definition maintenance_of (a : TradeAggregate) (profile : ExitProfile) (f : TicketLifecycleFacts)
    : result Maintenance :=
  raise_if (negb (bool_decide (ep_position_side profile = nd_position_side (ti_netting_domain (identity a)))))
    (ValueError "ExitProfile side differs from Ticket Netting Domain");;
  match status a with
  | POSITION_PROTECTED =>
      if (tf_tp1_filled_quantity f =? d0)%dec then maintain_pre_tp1 a profile f
      else maintain_tp1_filled a profile f
  | RUNNER_PROTECTED => maintain_runner a profile f
  | _ => mret None
  end.

(** [profile_of] finds a frozen profile by identity and semantic hash. *)
Definition maintain_ticket_lifecycle (seen : Database) (profile_of : str → str → option ExitProfile)
    (ticket_id : str) (f : TicketLifecycleFacts) (now_ms : Z) : txn LifecycleMaintenanceStatus :=
  a ← existing_aggregate seen ticket_id "lifecycle Ticket does not exist";
  match profile_of (tk_exit_policy_id (ticket a)) (tk_exit_policy_semantic_hash (ticket a)) with
  | None => raise (ValueError "Ticket has no exact frozen ExitProfile")
  | Some profile =>
      work ← lift (maintenance_of a profile f);
      match work with
      | None => mret MAINTENANCE_NO_CHANGE
      | Some (s, body) => commit_next a now_ms body;; mret s
      end
  end.
