(* ===== verification/IssueTicket.v ===== *)
(** * Issuing a Ticket ([application/issue_ticket.py])

    One transaction turns a Claim into a Ticket through the global entry lane:
    the lane and the account's exposure are locked, every authority and budget
    is checked again on what is stored now, and the Claim, the budget, the
    exposure, the lane and the new aggregate are written together. *)

From stdpp Require Import gmap.
From S2P Require Import Prelude PyString PyDecimal Identities Ticket CapacitySizing.
From S2P Require Import Control ProduceSignal.
From S2P Require Import Capacity Admission Dispatch Events Aggregate Reducer.
From S2P Require Import Commands Database UnitOfWork Dispatcher.

Inductive IssueTicketStatus :=
  | TICKET_ISSUED | ENTRY_LANE_OCCUPIED | FACTS_EXPIRED | ACTIVE_NETTING_DOMAIN | DUPLICATE_SIGNAL
  | POLICY_MISSING_OR_STALE | POLICY_DISABLED | ISSUE_STRATEGY_PAUSED | BUDGET_EXHAUSTED
  | ISSUE_FAMILY_CAPACITY_EXHAUSTED | ISSUE_STRATEGY_SIDE_CAPACITY_EXHAUSTED | SCOPE_OR_POLICY_MISMATCH
  | ADMISSION_INCIDENT_OPEN | ISSUE_SELECTION_ENTRY_VACUUM | ISSUE_SELECTION_AUTHORITY_INVALID
  | SELECTION_TRIGGER_SUPPRESSED | EXIT_BINDING_CHANGED.
#[export] Instance IssueTicketStatus_eq_dec : EqDecision IssueTicketStatus.
Proof. solve_decision. Defined.

(** [SelectionEntryAuthorityStatus] *)
Inductive SelectionEntryAuthorityStatus :=
  | SELECTION_VALID | VACUUM_OPEN | AUTHORITY_INVALID | TRIGGER_SUPPRESSED | OWNER_OR_POLICY_BLOCKED.
#[export] Instance SelectionEntryAuthorityStatus_eq_dec : EqDecision SelectionEntryAuthorityStatus.
Proof. solve_decision. Defined.

(** [_selection_issue_status] *)
Definition selection_issue_status (s : SelectionEntryAuthorityStatus) : IssueTicketStatus :=
  match s with
  | VACUUM_OPEN => ISSUE_SELECTION_ENTRY_VACUUM
  | TRIGGER_SUPPRESSED => SELECTION_TRIGGER_SUPPRESSED
  | OWNER_OR_POLICY_BLOCKED => SCOPE_OR_POLICY_MISMATCH
  | _ => ISSUE_SELECTION_AUTHORITY_INVALID
  end.

(** The columns of the current exit binding the check reads. *)
Record ExitBindingSnapshot := mkExitBinding {
  xb_exit_binding_id : str;
  xb_binding_semantic_hash : str;
  xb_projection_version : Z
}.

(** The rows the transaction reads (and locks) outside the tables of the kernel:
    policy, control, selection, universe, scope, registry, exit binding.
    [if_signal_authority] is the source signal's selection authority, when the
    signal exists. *)
Record IssueFacts := mkIssueFacts {
  if_policy : option OwnerPolicySnapshot;
  if_strategy_entry_enabled : bool;
  if_selection_controlled : bool;
  if_vacuum_blocks : bool;
  if_universe : option ActiveStrategyUniverseSnapshot;
  if_scope : option RuntimeScopeSnapshot;
  if_signal_authority : option (option str);
  if_selection : SelectionEntryAuthorityStatus;
  if_strategy_group : option StrategyGroupSnapshot;
  if_strategy_version : option StrategyVersionSnapshot;
  if_event_spec : option EventSpecSnapshot;
  if_exit_binding : option ExitBindingSnapshot
}.

(** ** What the tables say of the account *)

Definition ticket_rows (db : Database) : list TicketRow := (map_to_list (db_tickets db)).*2.
Definition row_domain (r : TicketRow) : NettingDomain := ti_netting_domain (tk_identity (tr_ticket r)).
Definition row_of_account (venue account : str) (r : TicketRow) : bool :=
  bool_decide (nd_venue_id (row_domain r) = venue) && bool_decide (nd_account_id (row_domain r) = account).

(** [has_active_ticket_in_domain] *)
Definition has_active_ticket_in_domain (key : str) (db : Database) : bool :=
  existsb (λ r, same_opt (tr_active_netting_domain_key r) (Some key)) (ticket_rows db).

(** [has_ticket_for_signal] *)
Definition has_ticket_for_signal (signal_event_id : str) (db : Database) : bool :=
  existsb (λ r, bool_decide (ti_signal_event_id (tk_identity (tr_ticket r)) = signal_event_id)) (ticket_rows db).

Definition count_rows (condition : TicketRow → bool) (db : Database) : Z :=
  Z.of_nat (length (filter (λ r, condition r = true) (ticket_rows db))).

(** [count_active_family_tickets] *)
Definition count_active_family_tickets (venue account : str) (family : ExposureFamily) (db : Database) : Z :=
  count_rows (λ r, row_of_account venue account r && bool_decide (tk_exposure_family (tr_ticket r) = family)
                   && is_none (tr_terminal_at_ms r)) db.

(** The holds that keep a Ticket counted: it is not terminal, it occupies its
    domain, its budget is active, or one of its commands is unresolved. *)
Definition ticket_is_held (venue account : str) (db : Database) (r : TicketRow) : bool :=
  let i := ti_ticket_id (tk_identity (tr_ticket r)) in
  is_none (tr_terminal_at_ms r) || negb (is_none (tr_active_netting_domain_key r))
  || existsb (λ b, bool_decide (bu_ticket_id b = i) && bool_decide (bu_venue_id b = venue)
                   && bool_decide (bu_account_id b = account) && bu_active b) (map_to_list (db_budgets db)).*2
  || existsb (λ c, bool_decide (cw_ticket_id c = i)
                   && bool_decide (cw_status c ∈ [PREPARED; Commands.CLAIMED; OUTCOME_UNKNOWN])) (command_rows db).

(** [count_active_strategy_side_tickets] *)
Definition count_active_strategy_side_tickets (venue account group : str) (side : PositionSide) (db : Database)
    : Z :=
  count_rows (λ r, row_of_account venue account r
                   && bool_decide (ri_strategy_group_id (ti_runtime (tk_identity (tr_ticket r))) = group)
                   && bool_decide (nd_position_side (row_domain r) = side)
                   && ticket_is_held venue account db r) db.

(** [sum_active_directional_stop_risk] *)
Definition sum_active_directional_stop_risk (venue account : str) (side : PositionSide) (db : Database) : Decimal :=
  foldl (λ sum r, numeric_add sum (tk_risk_at_stop (tr_ticket r))) d0
    (filter (λ r, row_of_account venue account r && bool_decide (nd_position_side (row_domain r) = side)
                  && is_none (tr_terminal_at_ms r) = true) (ticket_rows db)).

(** [open_incident_scopes] of [read_admission_ownership] is not empty. *)
Definition admission_incident_open (d : NettingDomain) (db : Database) : result bool :=
  account_key ← canonical_entry_block_key scope_account_capacity (nd_venue_id d) (nd_account_id d) None;
  leverage_key ← canonical_entry_block_key scope_leverage_domain (nd_venue_id d) (nd_account_id d)
                   (Some (nd_exchange_instrument_id d));
  mret (existsb (λ i, ic_open i &&
    match ic_entry_block_scope i with
    | scope_runtime => true
    | scope_account_capacity => same_opt (ic_entry_block_key i) account_key
    | scope_leverage_domain => same_opt (ic_entry_block_key i) leverage_key
    | scope_none => false
    end) (map_to_list (db_incidents db)).*2).

(** ** The guards *)

(** [_scope_matches_ticket] *)
Definition scope_matches_ticket (scope : option RuntimeScopeSnapshot) (t : TradeTicket) : bool :=
  let runtime := ti_runtime (tk_identity t) in
  let domain := ti_netting_domain (tk_identity t) in
  opt_holds (λ s,
    bool_decide (rs_lifecycle_state s = scope_active) && rs_entry_enabled s
    && bool_decide (rs_runtime_scope_id s = tk_runtime_scope_id t)
    && (rs_scope_version s =? tk_runtime_scope_version t)
    && bool_decide (rs_strategy_group_id s = ri_strategy_group_id runtime)
    && bool_decide (rs_strategy_version_id s = ri_strategy_version_id runtime)
    && bool_decide (rs_event_spec_id s = ri_event_spec_id runtime)
    && bool_decide (rs_runtime_profile_id s = ri_runtime_profile_id runtime)
    && bool_decide (rs_owner_policy_id s = tk_owner_policy_id t)
    && bool_decide (rs_universe_version_id s = tk_universe_version_id t)
    && bool_decide (rs_universe_semantic_digest s = tk_universe_semantic_digest t)
    && bool_decide (rs_exchange_instrument_id s = nd_exchange_instrument_id domain)
    && bool_decide (rs_position_side s = nd_position_side domain)) scope.

Section issue.
Context (f : IssueFacts) (claim : CapacityClaim) (now_ms : Z) (claim_owner : str).

Definition policy_limits_drifted (p : OwnerPolicySnapshot) (t : TradeTicket) : bool :=
  negb (for_family (wp_family_ticket_limits p) (tk_exposure_family t) =? cc_family_ticket_limit claim)
  || negb (bool_decide (wp_max_same_strategy_side p = cc_max_same_strategy_side claim))
  || negb (wp_directional_stop_risk_limit_fraction p =? cc_directional_stop_risk_limit_fraction claim)%dec
  || negb (wp_min_materialization_ratio p =? cc_min_materialization_ratio claim)%dec.

Definition exit_binding_changed (t : TradeTicket) : bool :=
  match cc_exit_binding_id claim, cc_exit_binding_semantic_hash claim, cc_exit_binding_authority_version claim,
        if_exit_binding f with
  | Some i, Some h, Some v, Some current =>
      negb (bool_decide (xb_exit_binding_id current = i))
      || negb (bool_decide (xb_binding_semantic_hash current = h))
      || negb (xb_projection_version current =? v)
      || negb (bool_decide (tk_exit_binding_id t = cc_exit_binding_id claim))
      || negb (bool_decide (tk_exit_binding_semantic_hash t = cc_exit_binding_semantic_hash claim))
      || negb (bool_decide (tk_exit_binding_authority_version t = cc_exit_binding_authority_version claim))
  | _, _, _, _ => true
  end.

(** The guards before the tables of the kernel are asked, in order. *)
Definition authority_refusals (t : TradeTicket) : list (bool * IssueTicketStatus) :=
  let runtime := ti_runtime (tk_identity t) in
  [(negb (opt_holds (λ p, wp_policy_version p =? tk_owner_policy_version t) (if_policy f)),
    POLICY_MISSING_OR_STALE);
   (negb (opt_holds (λ p, wp_enabled p && wp_new_entry_submit_enabled p) (if_policy f)), POLICY_DISABLED);
   (negb (opt_holds (λ p, opt_holds (λ s, authorizes s (ri_event_spec_id runtime) (ri_runtime_profile_id runtime))
                            (wp_scope p)) (if_policy f)), SCOPE_OR_POLICY_MISMATCH);
   (negb (if_strategy_entry_enabled f), ISSUE_STRATEGY_PAUSED);
   (if_selection_controlled f && if_vacuum_blocks f, ISSUE_SELECTION_ENTRY_VACUUM);
   (opt_test (λ p, policy_limits_drifted p t) (if_policy f), POLICY_MISSING_OR_STALE);
   (negb (tk_selected_leverage t =? FIXED_EXCHANGE_CONFIGURED_LEVERAGE)
    || negb (cc_configured_leverage_at_claim claim =? FIXED_EXCHANGE_CONFIGURED_LEVERAGE)
    || tk_leverage_change_required t, SCOPE_OR_POLICY_MISMATCH);
   (negb (opt_holds (λ u, bool_decide (au_universe_version_id u = tk_universe_version_id t)
                          && bool_decide (au_semantic_digest u = tk_universe_semantic_digest t)) (if_universe f)),
    SCOPE_OR_POLICY_MISMATCH);
   (negb (scope_matches_ticket (if_scope f) t), SCOPE_OR_POLICY_MISMATCH);
   (if_selection_controlled f
    && negb (opt_holds (λ a, bool_decide (a = cc_selection_authority_id claim)
                             && bool_decide (a = tk_selection_authority_id t)) (if_signal_authority f)),
    ISSUE_SELECTION_AUTHORITY_INVALID);
   (if_selection_controlled f && negb (bool_decide (if_selection f = SELECTION_VALID)),
    selection_issue_status (if_selection f));
   (negb (strategy_authority_matches_ticket (if_strategy_group f) (if_strategy_version f) (if_event_spec f) t),
    SCOPE_OR_POLICY_MISMATCH);
   (exit_binding_changed t, EXIT_BINDING_CHANGED)].

(** The budget comparisons, against the exposure stored now. *)
Definition budget_exhausted (p : OwnerPolicySnapshot) (t : TradeTicket) (exposure : option AccountExposureSnapshot)
    (directional_risk : Decimal) : bool :=
  let tickets := match exposure with Some x => ax_active_ticket_count x | None => 0 end in
  let gross_risk := match exposure with Some x => ax_gross_risk_at_stop x | None => d0 end in
  let reserved := match exposure with Some x => ax_current_reserved_margin x | None => d0 end in
  let wallet := cc_total_wallet_balance_at_claim claim in
  let margin := cc_total_margin_balance_at_claim claim in
  (wp_max_concurrent_tickets p <=? tickets)
  || (wp_max_leverage p <? tk_selected_leverage t)
  || (tk_planned_stop_risk_budget t <? tk_risk_at_stop t)%dec
  || (tk_post_fill_stop_risk_limit t <? tk_planned_stop_risk_budget t)%dec
  || negb (wp_max_ticket_stop_risk_fraction p =? cc_max_ticket_stop_risk_fraction claim)%dec
  || negb (wp_max_gross_stop_risk_fraction p =? cc_max_gross_stop_risk_fraction claim)%dec
  || negb (wp_max_ticket_initial_margin_fraction p =? cc_max_ticket_initial_margin_fraction claim)%dec
  || negb (wp_max_gross_initial_margin_utilization p =? cc_max_gross_initial_margin_utilization claim)%dec
  || negb (wp_directional_stop_risk_limit_fraction p =? cc_directional_stop_risk_limit_fraction claim)%dec
  || negb (wp_min_materialization_ratio p =? cc_min_materialization_ratio claim)%dec
  || (wallet * wp_max_ticket_stop_risk_fraction p <? tk_risk_at_stop t)%dec
  || (wallet * wp_max_gross_stop_risk_fraction p <? gross_risk + tk_risk_at_stop t)%dec
  || (wallet * wp_directional_stop_risk_limit_fraction p <? directional_risk + tk_risk_at_stop t)%dec
  || (tk_risk_at_stop t <? cc_minimum_stop_risk_budget claim)%dec
  || (margin * wp_max_ticket_initial_margin_fraction p <? tk_reserved_margin t)%dec
  || (margin * wp_max_gross_initial_margin_utilization p <? reserved + tk_reserved_margin t)%dec.

(** The guards on the kernel's own tables. *)
Definition account_refusals (t : TradeTicket) (exposure : option AccountExposureSnapshot) (incident_open : bool)
    (db : Database) : list (bool * IssueTicketStatus) :=
  let domain := ti_netting_domain (tk_identity t) in
  let venue := nd_venue_id domain in
  let account := nd_account_id domain in
  let side := nd_position_side domain in
  [(incident_open, ADMISSION_INCIDENT_OPEN);
   (has_active_ticket_in_domain (netting_domain_key domain) db, ACTIVE_NETTING_DOMAIN);
   (has_ticket_for_signal (ti_signal_event_id (tk_identity t)) db, DUPLICATE_SIGNAL);
   (tk_family_ticket_limit t <=? count_active_family_tickets venue account (tk_exposure_family t) db,
    ISSUE_FAMILY_CAPACITY_EXHAUSTED);
   (opt_test (λ p, opt_test (λ limit,
      limit <=? count_active_strategy_side_tickets venue account
                  (ri_strategy_group_id (ti_runtime (tk_identity t))) side db) (wp_max_same_strategy_side p))
      (if_policy f), ISSUE_STRATEGY_SIDE_CAPACITY_EXHAUSTED);
   (opt_test (λ p, budget_exhausted p t exposure (sum_active_directional_stop_risk venue account side db))
      (if_policy f), BUDGET_EXHAUSTED)].

(** The first guard that fails. *)
Fixpoint first_refusal (refusals : list (bool * IssueTicketStatus)) : option IssueTicketStatus :=
  match refusals with
  | [] => None
  | (true, s) :: _ => Some s
  | (false, _) :: refusals => first_refusal refusals
  end.

(** ** The writes *)

Definition ticket_budget (t : TradeTicket) : BudgetReservationRecord :=
  let domain := ti_netting_domain (tk_identity t) in
  let i := ti_ticket_id (tk_identity t) in
  mkBudget ("budget:" +:+ i) i (tk_owner_policy_id t) (nd_venue_id domain) (nd_account_id domain) (tk_notional t)
    (tk_risk_at_stop t) (tk_reserved_margin t) (tk_planned_stop_risk_budget t) (tk_risk_reservation_basis t) true
    now_ms None.

Definition issue_writes (t : TradeTicket) (exposure : option AccountExposureSnapshot) (lane_version : Z) : txn unit :=
  let domain := ti_netting_domain (tk_identity t) in
  let i := ti_ticket_id (tk_identity t) in
  add_claim claim;;
  add_budget (ticket_budget t);;
  reserve_account_exposure (nd_venue_id domain) (nd_account_id domain) (tk_notional t) (tk_risk_at_stop t)
    (tk_reserved_margin t) (ax_projection_version <$> exposure) now_ms;;
  claim_global_lane i (ti_signal_event_id (tk_identity t)) claim_owner now_ms (tk_expires_at_ms t) lane_version;;
  event ← lift (validate_event (mkEvent ("event:" +:+ i +:+ ":1") 1 now_ms i (TicketIssued t)));
  r ← lift (reduce_event None event);
  commit_reduction event r 0.

Definition get_account_exposure (d : NettingDomain) (db : Database) : option AccountExposureSnapshot :=
  db_exposure db !! (nd_venue_id d, nd_account_id d).

(** [issue_ticket] *)
Definition issue_ticket_txn : txn (IssueTicketStatus * option str) :=
  t ← lift (to_ticket claim);
  lane ← lock_global_lane;
  if el_claimed lane then mret (ENTRY_LANE_OCCUPIED, None)
  else
    let domain := ti_netting_domain (tk_identity t) in
    exposure ← select (get_account_exposure domain);
    match first_refusal ((cc_expires_at_ms claim <=? now_ms, FACTS_EXPIRED) :: authority_refusals t) with
    | Some s => mret (s, None)
    | None =>
        incident_open ← query (admission_incident_open domain);
        db ← select id;
        match first_refusal (account_refusals t exposure incident_open db) with
        | Some s => mret (s, None)
        | None =>
            issue_writes t exposure (el_version lane);;
            mret (TICKET_ISSUED, Some (ti_ticket_id (tk_identity t)))
        end
    end.
End issue.
