(* ===== verification/Drain.v ===== *)
(** * Draining an entry vacuum ([application/drain_strategy_entry_vacuum.py],
      [application/recover_vacuum_late_fill.py])

    While a strategy's entry vacuum is open, its Tickets that have not finished
    their ENTRY are closed one action at a time.  The tables of the selection are
    not here: the vacuum is an argument, and the completion of a drained vacuum
    is modelled up to the row it becomes. *)

From stdpp Require Import gmap.
From S2P Require Import Prelude PyString PyDecimal Identities Ticket PostFillRisk CrossMarginStress VenueTruth.
From S2P Require Import ExitPolicy Control.
From S2P Require Import Capacity Admission Dispatch VacuumLateFill Events Aggregate Reducer.
From S2P Require Import Commands Database OwnerState UnitOfWork Dispatcher.
#[local] Open Scope Z_scope.

(** Commands are compared as read back: their columns keep what was written. *)
#[export] Instance OrderCommandPayload_eq_dec : EqDecision OrderCommandPayload.
Proof. solve_decision. Defined.
#[export] Instance CancelCommandPayload_eq_dec : EqDecision CancelCommandPayload.
Proof. solve_decision. Defined.
#[export] Instance SetLeverageCommandPayload_eq_dec : EqDecision SetLeverageCommandPayload.
Proof. solve_decision. Defined.
#[export] Instance CommandPayload_eq_dec : EqDecision CommandPayload.
Proof. solve_decision. Defined.
#[export] Instance ExchangeCommand_eq_dec : EqDecision ExchangeCommand.
Proof. solve_decision. Defined.

Inductive VacuumDrainStatus :=
  | NO_VACUUM | DRAIN_STARTED | PREPARED_ENTRY_SUPERSEDED | POSITION_FACTS_REQUIRED | CANCEL_REQUESTED
  | ORDER_ABSENCE_RECORDED | ZERO_FILL_CLOSED | FULL_FILL_PROTECTION_REQUESTED
  | PARTIAL_RETAINED_PROTECTION_REQUESTED | PARTIAL_FLATTEN_REQUESTED | WAITING_COMMAND
  | WAITING_UNKNOWN_OUTCOME | WAITING_LIFECYCLE | ENTRY_DRAINED | VALID_EMPTY_COMMITTED | DRAIN_OWNER_PAUSED
  | DRAIN_BLOCKED.
#[export] Instance VacuumDrainStatus_eq_dec : EqDecision VacuumDrainStatus.
Proof. solve_decision. Defined.

(** [DrainStrategyEntryVacuumResult] without the identities of the vacuum. *)
Record DrainResult := mkDrain {
  dn_status : VacuumDrainStatus;
  dn_ticket_id : option str;
  dn_event_id : option str;
  dn_reason_code : option str
}.

(** ** The plan of one Ticket *)

(** [VacuumTicketDrainFacts] *)
Record DrainFacts := mkDrainFacts {
  df_aggregate : TradeAggregate;
  df_entry_vacuum_id : str;
  df_now_ms : Z;
  df_position_snapshot : option PositionSnapshot;
  df_quantity_step : option Decimal;
  df_tp1_quantity_fraction : option Decimal
}.

(** [VacuumTicketDrainPlan]: an event to commit, or nothing, and why. *)
Inductive DrainPlan :=
  | drain_wait (reason_code : str)
  | drain_event (event : TradeEvent) (reason_code : str).

Definition with_entry_order (id : str) (s : PositionSnapshot) : bool :=
  existsb (λ o, bool_decide (vos_exchange_order_id o = id)) (ps_open_orders s).

(** The ENTRY order is still there, or it is gone. *)
Definition plan_entry_order (f : DrainFacts) : result DrainPlan :=
  let a := df_aggregate f in
  match df_position_snapshot f with
  | None => mret (drain_wait "POSITION_FACTS_REQUIRED")
  | Some s =>
      match entry_exchange_order_id a with
      | None => Raise (ValueError "Vacuum ENTRY drain lacks exchange order identity")
      | Some order =>
          if with_entry_order order s then
            if bool_decide (status a = ENTRY_VACUUM_CANCEL_PENDING)
            then mret (drain_wait "WAITING_CANCEL_ORDER_ABSENCE")
            else if (ps_quantity s >=? tk_quantity (ticket a))%dec
            then mret (drain_wait "FULL_FILL_WITH_OPEN_ENTRY_ORDER")
            else
              e ← next_event a (df_now_ms f)
                    (EntryVacuumCancelRequested (df_entry_vacuum_id f) order (ps_quantity s)
                       (ps_average_entry_price s));
              mret (drain_event e "VACUUM_ENTRY_CANCEL_REQUIRED")
          else
            e ← next_event a (df_now_ms f)
                  (EntryVacuumOrderAbsenceConfirmed (df_entry_vacuum_id f) order (ps_quantity s)
                     (ps_average_entry_price s));
            mret (drain_event e "VACUUM_ENTRY_ORDER_ABSENT")
      end
  end.

(** [try: split_tp1_quantity(...) except ValueError: None] *)
Definition try_split (total step fraction : Decimal) : result (option TakeProfitSplit) :=
  match split_tp1_quantity total step fraction with
  | Ok s => mret (Some s)
  | Raise (ValueError _) | Raise (ValidationError _) => mret None
  | Raise e => Raise e
  end.

(** The cancelled ENTRY left a position. *)
Definition plan_filled (f : DrainFacts) (price : Decimal) : result DrainPlan :=
  let a := df_aggregate f in
  let t := ticket a in
  let qty := position_qty a in
  request ← validate_PostFillRiskRequest
    (mkPostFillRiskRequest (nd_position_side (ti_netting_domain (identity a))) qty price
       (tk_initial_stop_price t) (tk_planned_stop_risk_budget t) (tk_post_fill_stop_risk_limit t));
  let risk := assess_post_fill_risk request in
  if (qty =? tk_quantity t)%dec then
    e ← next_event a (df_now_ms f) (EntryFilled qty price risk None (df_now_ms f));
    mret (drain_event e "VACUUM_FULL_FILL_MATERIALIZED")
  else
    match df_quantity_step f, df_tp1_quantity_fraction f with
    | Some step, Some fraction =>
        split ← try_split qty step fraction;
        match split with
        | Some s =>
            if bool_decide (pd_disposition risk = NORMAL) then
              e ← next_event a (df_now_ms f)
                    (VacuumPartialRetained (df_entry_vacuum_id f) (tk_selection_authority_id t) (tk_quantity t) qty
                       price step (tp_split_tp1_quantity s) (tp_split_runner_quantity s) risk);
              mret (drain_event e "VACUUM_PARTIAL_RETAINED")
            else
              let reason := "vacuum_partial_" +:+ post_fill_risk_status_value (pd_status risk) in
              e ← next_event a (df_now_ms f) (VacuumPartialFlattenRequired (df_entry_vacuum_id f) qty price reason);
              mret (drain_event e reason)
        | None =>
            let reason := "vacuum_partial_two_leg_unavailable"%string in
            e ← next_event a (df_now_ms f) (VacuumPartialFlattenRequired (df_entry_vacuum_id f) qty price reason);
            mret (drain_event e reason)
        end
    | _, _ => mret (drain_wait "EXIT_POLICY_FACTS_REQUIRED")
    end.

(** [plan_vacuum_ticket_drain] *)
Definition plan_vacuum_ticket_drain (f : DrainFacts) : result DrainPlan :=
  let a := df_aggregate f in
  raise_if (opt_test (λ s, negb (bool_decide (ps_netting_domain s = ti_netting_domain (identity a))))
              (df_position_snapshot f))
    (ValueError "Vacuum position snapshot Netting Domain mismatch");;
  if bool_decide (status a ∈ [ENTRY_ACCEPTED; ENTRY_VACUUM_CANCEL_PENDING; ENTRY_VACUUM_CANCEL_REJECTED])
  then plan_entry_order f
  else if negb (bool_decide (status a = ENTRY_VACUUM_CANCELLED))
  then mret (drain_wait "WAITING_EXISTING_LIFECYCLE")
  else if (position_qty a =? d0)%dec then
    match df_position_snapshot f with
    | None => mret (drain_wait "POSITION_FACTS_REQUIRED")
    | Some s =>
        if (ps_quantity s >? d0)%dec || negb (Nat.eqb (length (ps_open_orders s)) 0)
        then mret (drain_wait "VACUUM_POST_ABSENCE_CONTRADICTION")
        else
          e ← next_event a (ps_observed_at_ms s) (EntryVacuumAbsenceConfirmed (df_entry_vacuum_id f));
          mret (drain_event e "VACUUM_ZERO_FILL_CONFIRMED")
    end
  else
    match average_fill_price a with
    | None => Raise (ValueError "Vacuum filled quantity requires average fill price")
    | Some price => plan_filled f price
    end.

(** ** The Tickets that hold a vacuum *)

(** [_ENTRY_VACUUM_DRAIN_BLOCKING_STATUSES] *)
Definition DRAIN_BLOCKING_STATUSES : list AggregateStatus :=
  [LEVERAGE_PENDING; LEVERAGE_CONFIRMED; LEVERAGE_OUTCOME_UNKNOWN; ENTRY_PENDING; ENTRY_ACCEPTED;
   ENTRY_OUTCOME_UNKNOWN; ENTRY_VACUUM_CANCEL_PENDING; ENTRY_VACUUM_CANCEL_REJECTED;
   ENTRY_VACUUM_CANCEL_OUTCOME_UNKNOWN; ENTRY_VACUUM_CANCELLED; PARTIAL_FILL_INCIDENT;
   PARTIAL_FILL_CANCEL_REJECTED; PARTIAL_FILL_CANCEL_OUTCOME_UNKNOWN; PROTECTION_PENDING;
   INITIAL_STOP_OUTCOME_UNKNOWN; POST_FILL_RISK_PENDING; CONTROLLED_FLATTEN_PENDING;
   CONTROLLED_FLATTEN_ACCEPTED; CONTROLLED_FLATTEN_REJECTED; CONTROLLED_FLATTEN_OUTCOME_UNKNOWN].

(** The [CASE] of the query, over the texts of the statuses. *)
Definition drain_priority (s : AggregateStatus) : Z :=
  let text := status_value s in
  if bool_decide (s = ENTRY_ACCEPTED) then 1
  else if startswith text "entry_vacuum_" then 2
  else if startswith text "entry_" then 3
  else if startswith text "leverage_" then 4
  else if startswith text "partial_fill_" then 5
  else if bool_decide (s = PROTECTION_PENDING) then 6
  else if bool_decide (s = INITIAL_STOP_OUTCOME_UNKNOWN) then 7
  else if bool_decide (s = POST_FILL_RISK_PENDING) then 8
  else 9.

Definition drain_before (a b : str * AggregateRow) : bool :=
  let p (x : str * AggregateRow) := drain_priority (status (ar_aggregate x.2)) in
  (p a <? p b)
  || ((p a =? p b) && ((ar_updated_at_ms a.2 <? ar_updated_at_ms b.2)
                       || ((ar_updated_at_ms a.2 =? ar_updated_at_ms b.2) && String.leb a.1 b.1))).

Definition drain_blocker (group : str) (db : Database) (kr : str * AggregateRow) : bool :=
  opt_holds (λ r, bool_decide (ri_strategy_group_id (ti_runtime (tk_identity (tr_ticket r))) = group)
                  && is_none (tr_terminal_at_ms r)) (db_tickets db !! kr.1)
  && bool_decide (status (ar_aggregate kr.2) ∈ DRAIN_BLOCKING_STATUSES).
Definition drain_blockers (group : str) (db : Database) : list (str * AggregateRow) :=
  filter (λ kr, drain_blocker group db kr = true) (map_to_list (db_aggregates db)).

(** [get_next_entry_vacuum_ticket]; rows of one time by identity. *)
Definition get_next_entry_vacuum_ticket (group : str) (db : Database) : option str :=
  fst <$> first_by drain_before (drain_blockers group db).

(** [entry_vacuum_has_drain_blockers] *)
Definition entry_vacuum_has_drain_blockers (group : str) (db : Database) : bool :=
  negb (Nat.eqb (length (drain_blockers group db)) 0).

(** ** One action *)

(** The first of the greatest by a key. *)
Definition max_by {A} (lt : A → A → bool) (l : list A) : option A :=
  match l with
  | [] => None
  | x :: l => Some (foldl (λ best y, if lt best y then y else best) x l)
  end.

(** [_current_entry_mutation] *)
Definition current_entry_mutation (commands : list ExchangeCommand) : option ExchangeCommand :=
  max_by (λ a b, (ec_created_at_ms a <? ec_created_at_ms b)
                 || ((ec_created_at_ms a =? ec_created_at_ms b) && (ec_generation a <? ec_generation b)))
    (filter (λ c, ec_kind c ∈ [SET_LEVERAGE; ENTRY]
                  ∧ ec_status c ∈ [PREPARED; Commands.CLAIMED; OUTCOME_UNKNOWN]) commands).

(** [_latest_vacuum_cancel] *)
Definition cancels_vacuum (vacuum_id : str) (c : ExchangeCommand) : bool :=
  bool_decide (ec_kind c = CANCEL_ORDER)
  && match ec_payload c with
     | CancelPayload p => bool_decide (cp_purpose p = selection_vacuum_entry)
                          && bool_decide (cp_entry_vacuum_id p = Some vacuum_id)
     | _ => false
     end.
Definition latest_vacuum_cancel (vacuum_id : str) (commands : list ExchangeCommand) : option ExchangeCommand :=
  max_by (λ a b, ec_generation a <? ec_generation b)
    (filter (λ c, cancels_vacuum vacuum_id c = true) commands).

(** [_ticket_result] *)
Definition ticket_result (s : VacuumDrainStatus) (a : TradeAggregate) (reason_code : str) : DrainResult :=
  mkDrain s (Some (tid a)) None (Some reason_code).

(** [_event_result] *)
Definition event_status (b : EventBody) : option VacuumDrainStatus :=
  match b with
  | EntryVacuumSuperseded _ _ => Some PREPARED_ENTRY_SUPERSEDED
  | EntryVacuumCancelRequested _ _ _ _ => Some CANCEL_REQUESTED
  | EntryVacuumOrderAbsenceConfirmed _ _ _ _ => Some ORDER_ABSENCE_RECORDED
  | EntryVacuumAbsenceConfirmed _ => Some ZERO_FILL_CLOSED
  | EntryFilled _ _ _ _ _ => Some FULL_FILL_PROTECTION_REQUESTED
  | VacuumPartialRetained _ _ _ _ _ _ _ _ _ => Some PARTIAL_RETAINED_PROTECTION_REQUESTED
  | VacuumPartialFlattenRequired _ _ _ _ => Some PARTIAL_FLATTEN_REQUESTED
  | _ => None
  end.
Definition event_result (e : TradeEvent) : result DrainResult :=
  match event_status (ev_body e) with
  | Some s => mret (mkDrain s (Some (ev_ticket_id e)) (Some (ev_event_id e)) None)
  | None => Raise (KeyError "")
  end.

Definition commit_drain (a : TradeAggregate) (e : TradeEvent) : txn DrainResult :=
  commit_event a e;; lift (event_result e).

(** [_supersede_or_wait_pre_dispatch] *)
Definition supersede_or_wait_pre_dispatch (a : TradeAggregate) (vacuum_id : str) (now_ms : Z) : txn DrainResult :=
  commands ← query (list_for_ticket (tid a));
  match current_entry_mutation commands with
  | None => mret (ticket_result DRAIN_BLOCKED a "VACUUM_PRE_DISPATCH_COMMAND_MISSING")
  | Some c =>
      if bool_decide (ec_status c = PREPARED) then
        mark_prepared_superseded (ec_command_id c) now_ms ("selection_entry_vacuum:" +:+ vacuum_id);;
        e ← lift (next_event a now_ms (EntryVacuumSuperseded vacuum_id (ec_command_id c)));
        commit_drain a e
      else
        mret (ticket_result
                (if bool_decide (ec_status c = OUTCOME_UNKNOWN) then WAITING_UNKNOWN_OUTCOME else WAITING_COMMAND)
                a ("VACUUM_PRE_DISPATCH_COMMAND:" +:+ command_status_value (ec_status c)))
  end.

Definition CONTRADICTION : str := "vacuum_post_absence_contradiction".

(** [_record_post_absence_contradiction] *)
Definition record_post_absence_contradiction (a : TradeAggregate) (s : PositionSnapshot) : txn unit :=
  let domain := ti_netting_domain (identity a) in
  let at_ms := ps_observed_at_ms s in
  let incident := "incident:" +:+ tid a +:+ ":" +:+ CONTRADICTION +:+ ":" +:+ string_of_Z at_ms in
  key ← lift (canonical_entry_block_key scope_account_capacity (nd_venue_id domain) (nd_account_id domain) None);
  add_incident
    (mkIncident incident (Some (tid a)) CONTRADICTION true CONTRADICTION scope_account_capacity key at_ms None);;
  save_if_changed
    (mkMonitor ("vacuum-post-absence:" +:+ tid a) NEEDS_INTERVENTION
       "Post-cancel position or order contradicts zero-fill closure"
       "Keep Vacuum fenced; reconcile exact ENTRY fill and order truth" (Some (tid a)) (Some incident) at_ms 0).

(** What the dispatched cancel says of waiting. *)
Definition cancel_wait (a : TradeAggregate) (vacuum_id : str) (commands : list ExchangeCommand) : option DrainResult :=
  if negb (bool_decide (status a = ENTRY_VACUUM_CANCEL_PENDING)) then None
  else
    match ec_status <$> latest_vacuum_cancel vacuum_id commands with
    | None | Some PREPARED | Some Commands.CLAIMED =>
        Some (ticket_result WAITING_COMMAND a "VACUUM_CANCEL_NOT_DISPATCHED")
    | Some OUTCOME_UNKNOWN => Some (ticket_result WAITING_UNKNOWN_OUTCOME a "VACUUM_CANCEL_OUTCOME_UNKNOWN")
    | _ => None
    end.

(** The step and the fraction, needed for a partial fill only; [None] when a
    fact is missing. *)
Definition exit_facts (a : TradeAggregate) (fraction : option Decimal) (db : Database)
    : option (option Decimal * option Decimal) :=
  let domain := ti_netting_domain (identity a) in
  if negb (bool_decide (status a = ENTRY_VACUUM_CANCELLED)) then Some (None, None)
  else if (position_qty a =? d0)%dec || (position_qty a =? tk_quantity (ticket a))%dec then Some (None, None)
  else
    match get_instrument_rules (nd_venue_id domain) (nd_exchange_instrument_id domain) db, fraction with
    | Some rules, Some fraction => Some (Some (rf_quantity_step (is_facts rules)), Some fraction)
    | _, _ => None
    end.

(** Whether the snapshot is newer than what is known. *)
Definition snapshot_is_stale (s : PositionSnapshot) (prior : option PositionSnapshot) (now_ms : Z) : bool :=
  match prior with
  | None => true
  | Some p => (ps_observed_at_ms s <=? ps_observed_at_ms p) || (ps_observed_at_ms s <? now_ms)
  end.

(** The checks of a zero-fill closure; an early return, or none. *)
Definition zero_fill_checks (a : TradeAggregate) (snapshot : option PositionSnapshot) (now_ms : Z)
    : txn (option DrainResult) :=
  if negb (bool_decide (status a = ENTRY_VACUUM_CANCELLED) && (position_qty a =? d0)%dec) then mret None
  else
    prior ← select (get_position (netting_domain_key (ti_netting_domain (identity a))));
    if opt_test (λ s, snapshot_is_stale s prior now_ms) snapshot then
      mret (Some (ticket_result POSITION_FACTS_REQUIRED a "VACUUM_TERMINAL_FRESH_POSITION_FACTS_REQUIRED"))
    else
      open ← select (get_open_for_ticket_kind (tid a) CONTRADICTION);
      if negb (is_none open) then
        mret (Some (ticket_result DRAIN_BLOCKED a "VACUUM_POST_ABSENCE_INCIDENT_OPEN"))
      else
        match snapshot with
        | Some s =>
            if (ps_quantity s >? d0)%dec || negb (Nat.eqb (length (ps_open_orders s)) 0) then
              record_post_absence_contradiction a s;;
              mret (Some (ticket_result DRAIN_BLOCKED a "VACUUM_POST_ABSENCE_CONTRADICTION"))
            else mret None
        | None => mret None
        end.

(** The drain of the chosen Ticket.  [fraction_of] finds the TP1 fraction of a
    frozen profile. *)
Definition drain_ticket (vacuum_id : str) (fraction_of : TradeTicket → option Decimal) (ticket_id : str)
    (snapshot : option PositionSnapshot) (now_ms : Z) : txn DrainResult :=
  current ← get_for_update ticket_id;
  match current with
  | None => mret (mkDrain DRAIN_BLOCKED (Some ticket_id) None (Some "VACUUM_DRAIN_AGGREGATE_MISSING"%string))
  | Some a =>
      if bool_decide (status a ∈ [LEVERAGE_PENDING; LEVERAGE_CONFIRMED; ENTRY_PENDING]) then
        supersede_or_wait_pre_dispatch a vacuum_id now_ms
      else if bool_decide (status a ∈ [LEVERAGE_OUTCOME_UNKNOWN; ENTRY_OUTCOME_UNKNOWN;
                                       ENTRY_VACUUM_CANCEL_OUTCOME_UNKNOWN]) then
        mret (ticket_result WAITING_UNKNOWN_OUTCOME a "VACUUM_DRAIN_UNKNOWN_OUTCOME")
      else
        commands ← query (list_for_ticket ticket_id);
        match cancel_wait a vacuum_id commands with
        | Some r => mret r
        | None =>
            facts ← select (exit_facts a (fraction_of (ticket a)));
            match facts with
            | None => mret (ticket_result DRAIN_BLOCKED a "VACUUM_PARTIAL_EXIT_POLICY_FACTS_MISSING")
            | Some (step, fraction) =>
                early ← zero_fill_checks a snapshot now_ms;
                match early with
                | Some r => mret r
                | None =>
                    match snapshot with Some s => upsert_position ticket_id s | None => mret tt end;;
                    plan ← lift (plan_vacuum_ticket_drain
                                   (mkDrainFacts a vacuum_id now_ms snapshot step fraction));
                    match plan with
                    | drain_event e _ => commit_drain a e
                    | drain_wait reason =>
                        mret (ticket_result
                                (if bool_decide (reason = "POSITION_FACTS_REQUIRED"%string)
                                 then POSITION_FACTS_REQUIRED else WAITING_LIFECYCLE) a reason)
                    end
                end
            end
        end
  end.

(** ** The vacuum's own row *)

(** [mark_entry_vacuum_draining]: the row it becomes. *)
Definition draining_vacuum (v : StrategyEntryVacuum) : result StrategyEntryVacuum :=
  raise_if (negb (bool_decide (ev_state v = V_OPEN))) (ValueError "only an OPEN Vacuum may start ENTRY drain");;
  validate_StrategyEntryVacuum
    (mkVacuum (ev_entry_vacuum_id v) (ev_strategy_group_id v) (ev_selection_spec_id v) (ev_period_anchor_ms v)
       (ev_source_generation_id v) V_DRAINING_ENTRY (ev_fenced_at_ms v) (ev_drained_at_ms v) (ev_resolved_at_ms v)
       (ev_first_blocker v) (ev_projection_version v + 1)).

(** ORB families keep their own clock. *)
Definition is_orb_group (group : str) : bool := bool_decide (group ∈ ["SOR-001"; "SOR-1H-001"]).

(** [mark_entry_vacuum_drained]: the row it becomes, of the current row [v]. *)
Definition drained_vacuum (v : StrategyEntryVacuum) (target : StrategyEntryVacuumState) (drained_at_ms : Z)
    (db : Database) : result StrategyEntryVacuum :=
  let generic := negb (is_orb_group (ev_strategy_group_id v)) in
  raise_if (negb (bool_decide (ev_state v = V_DRAINING_ENTRY)))
    (ValueError "Vacuum drain completion requires DRAINING_ENTRY");;
  raise_if (entry_vacuum_has_drain_blockers (ev_strategy_group_id v) db)
    (RuntimeError "Vacuum ENTRY drain still has blockers");;
  drained ← validate_StrategyEntryVacuum
    (mkVacuum (ev_entry_vacuum_id v) (ev_strategy_group_id v) (ev_selection_spec_id v) (ev_period_anchor_ms v)
       (ev_source_generation_id v) target (ev_fenced_at_ms v)
       (if generic && negb (is_none (ev_drained_at_ms v)) then ev_drained_at_ms v else Some drained_at_ms)
       (if bool_decide (target = V_VALID_EMPTY) then Some drained_at_ms else None)
       (ev_first_blocker v) (ev_projection_version v + 1));
  raise_if (bool_decide (target = V_RECONFIGURING) && is_none (ev_source_generation_id v))
    (ValueError "RECONFIGURING requires source Generation");;
  raise_if (bool_decide (target = V_RECOVERY_PENDING)
            && (negb generic || negb (is_none (ev_source_generation_id v))
                || negb (bool_decide (ev_first_blocker v = "AUTHORITY_GAP"%string))))
    (ValueError "RECOVERY_PENDING requires generation-free Generic authority gap");;
  mret drained.

(** ** [recover_vacuum_late_fill]: the transaction that commits the proof

    [a] and [incident_id] are what the first transaction read, [c] its ENTRY
    command, [window_ms] the term of the request's timeout. *)
Definition late_fill_body (a : TradeAggregate) (c : ExchangeCommand) (d : LateFillDecision)
    (position : PositionSnapshot) (truth : VenueTruthSnapshot) : result EventBody :=
  let vacuum := match entry_vacuum_id a with Some v => v | None => "" end in
  let order := match entry_exchange_order_id a with Some o => o | None => "" end in
  let client := match ec_venue_client_order_id c with Some i => i | None => "" end in
  match ld_status d, ld_proof_digest d with
  | NO_FILL_VERIFIED, Some digest =>
      mret (VacuumPostAbsenceNoFillVerified vacuum (ec_command_id c) order client (ps_observed_at_ms position)
              (vt_observed_at_ms truth) digest)
  | _, Some digest =>
      match ld_filled_qty d, ld_average_fill_price d with
      | Some qty, Some price =>
          mret (VacuumLateFillAttributed vacuum (ec_command_id c) order client qty price (ps_observed_at_ms position)
                  (vt_observed_at_ms truth) digest)
      | _, _ => Raise (AssertionError "")
      end
  | _, None => Raise (AssertionError "")
  end.

Inductive LateFillOutcome := late_fill_unverified (reason_code : str) | late_fill_committed (s : LateFillStatus).

(** Whether the vacuum still drains the Ticket's strategy. *)
Definition vacuum_drains (v : option StrategyEntryVacuum) (a : TradeAggregate) : bool :=
  opt_holds (λ v, bool_decide (Some (ev_entry_vacuum_id v) = entry_vacuum_id a)
                  && bool_decide (ev_strategy_group_id v = ri_strategy_group_id (ti_runtime (identity a)))
                  && bool_decide (ev_state v = V_DRAINING_ENTRY)) v.

Definition late_fill_authority_changed (a : TradeAggregate) (incident_id : str) (v : option StrategyEntryVacuum)
    (current : TradeAggregate) (active : option RuntimeIncidentRecord) : bool :=
  negb (version current =? version a) || negb (bool_decide (status current = ENTRY_VACUUM_CANCELLED))
  || negb (position_qty current =? d0)%dec || negb (bool_decide (entry_vacuum_id current = entry_vacuum_id a))
  || negb (opt_holds (λ i, bool_decide (ic_incident_id i = incident_id)) active)
  || negb (vacuum_drains v current).

Definition late_fill_monitors (a : TradeAggregate) (d : LateFillDecision) (incident_id : str) (at_ms : Z) : txn unit :=
  let no_fill := bool_decide (ld_status d = NO_FILL_VERIFIED) in
  save_if_changed
    (mkMonitor ("vacuum-post-absence:" +:+ tid a) (if no_fill then COMPLETED else PROCESSING)
       (if no_fill then "Exact original ENTRY truth proves no fill and terminal closure"
        else "Exact original ENTRY fill attributed; protection or flatten pending")
       (if no_fill then "none" else "Continue original Ticket lifecycle until external-flat closure")
       (Some (tid a)) (if no_fill then None else Some incident_id) at_ms 0);;
  monitors ← select db_monitors;
  match monitors !! ("vacuum-late-fill-retry:" +:+ tid a) with
  | None => mret tt
  | Some m =>
      save_if_changed
        (mkMonitor (mo_monitor_key m) COMPLETED "Exact original ENTRY truth recovered" "none" (Some (tid a)) None
           at_ms 0)
  end.

Section late_fill.
Context (certified : bool) (vacuum : option StrategyEntryVacuum) (now_ms window_ms : Z).

Definition record_late_fill (a : TradeAggregate) (incident_id : str) (c : ExchangeCommand)
    (position : PositionSnapshot) (truth : VenueTruthSnapshot) (d : LateFillDecision) : txn LateFillOutcome :=
  if negb certified then mret (late_fill_unverified "runtime_fenced")
  else
    current ← get_for_update (tid a);
    active ← select (get_open_for_ticket_kind (tid a) CONTRADICTION);
    match current with
    | None => mret (late_fill_unverified "authority_changed")
    | Some current =>
        if late_fill_authority_changed a incident_id vacuum current active
        then mret (late_fill_unverified "authority_changed")
        else
          command ← query (get_command (ec_command_id c));
          prior ← select (get_position (netting_domain_key (ti_netting_domain (identity a))));
          if negb (bool_decide (command = Some c)) || snapshot_is_stale position prior now_ms
             || (now_ms + window_ms <? vt_observed_at_ms truth)
          then mret (late_fill_unverified "source_or_command_changed")
          else
            body ← lift (late_fill_body current c d position truth);
            e ← lift (next_event current (vt_observed_at_ms truth) body);
            upsert_position (tid a) position;;
            commit_event current e;;
            late_fill_monitors current d incident_id (vt_observed_at_ms truth);;
            mret (late_fill_committed (ld_status d))
    end.
End late_fill.
