(* ===== verification/Health.v ===== *)
(** * Failures made visible ([application/lifecycle_facts_health.py],
      [application/runtime_fence.py], [application/reconciliation_scheduler.py])

    What the workers record when facts are missing or a writer is not the
    certified one, and which housekeeping the reconciliation process does next. *)

From stdpp Require Import gmap.
From S2P Require Import Prelude PyString PyDecimal Identities Ticket.
From S2P Require Import Capacity Admission Events Aggregate.
From S2P Require Import Dispatch.
From S2P Require Import Commands Database UnitOfWork Reconcile.
#[local] Open Scope Z_scope.

(** ** Lifecycle facts *)

Definition FACTS_UNAVAILABLE_KIND : str := "lifecycle_facts_unavailable".
Definition FACTS_CONTRADICTORY_KIND : str := "lifecycle_facts_contradictory".

(** [_CONTRADICTORY_ERROR_TYPES] *)
Definition contradictory_error (error_type : str) : bool :=
  bool_decide (error_type ∈ ["RuntimeError"; "TypeError"; "ValueError"]).

(** [record_lifecycle_facts_failure] *)
Definition record_lifecycle_facts_failure (ticket_id error_type : str) (now_ms due_at_ms : Z) : txn unit :=
  current ← get_for_update ticket_id;
  match current with
  | None => mret tt
  | Some a =>
      if negb (bool_decide (status a ∈ [POSITION_PROTECTED; RUNNER_PROTECTED])) then mret tt
      else
        let contradictory := contradictory_error error_type in
        let kind := if contradictory then FACTS_CONTRADICTORY_KIND else FACTS_UNAVAILABLE_KIND in
        let opposite := if contradictory then FACTS_UNAVAILABLE_KIND else FACTS_CONTRADICTORY_KIND in
        resolve_open_of_kind ticket_id opposite now_ms;;
        existing ← select (get_open_for_ticket_kind ticket_id kind);
        let incident := "incident:" +:+ ticket_id +:+ ":" +:+ kind +:+ ":" +:+ string_of_Z now_ms in
        (if is_none existing then
           key ← lift (account_key_of a);
           add_incident
             (mkIncident incident (Some ticket_id) kind true kind scope_account_capacity key now_ms None)
         else mret tt);;
        save_if_changed
          (mkMonitor ("lifecycle-facts:" +:+ ticket_id)
             (if contradictory then NEEDS_INTERVENTION else TEMPORARILY_UNAVAILABLE)
             (kind +:+ ":" +:+ error_type)
             (if contradictory then "Owner review required; new account ENTRY remains blocked"
              else "automatic retry; new account ENTRY remains blocked")
             (Some ticket_id)
             (Some (match existing with Some i => ic_incident_id i | None => incident end)) now_ms 0);;
        schedule_next_check ticket_id work_lifecycle due_at_ms
  end.

(** [resolve_lifecycle_facts_failure] *)
Definition resolve_lifecycle_facts_failure (ticket_id : str) (now_ms : Z) : txn unit :=
  unavailable ← select (get_open_for_ticket_kind ticket_id FACTS_UNAVAILABLE_KIND);
  resolve_open_of_kind ticket_id FACTS_UNAVAILABLE_KIND now_ms;;
  contradictory ← select (get_open_for_ticket_kind ticket_id FACTS_CONTRADICTORY_KIND);
  resolve_open_of_kind ticket_id FACTS_CONTRADICTORY_KIND now_ms;;
  if is_none unavailable && is_none contradictory then mret tt
  else
    save_if_changed
      (mkMonitor ("lifecycle-facts:" +:+ ticket_id) PROCESSING "lifecycle_facts:available" "none" (Some ticket_id)
         None now_ms 0).

(** ** The runtime fence *)

Definition RUNTIME_FENCE_INCIDENT_ID : str := "incident:runtime-fence".
Definition RUNTIME_FENCE_INCIDENT_KIND : str := "runtime_identity_mismatch".

(** [RuntimeCapabilitySnapshot], the columns the fence reads. *)
Record RuntimeCapabilitySnapshot := mkCapability {
  ru_enabled : bool;
  ru_certified_commit : str;
  ru_schema_revision : str
}.

(** [runtime_writer_is_certified]; [capability] is the row of "exchange_commands". *)
Definition runtime_writer_is_certified (capability : option RuntimeCapabilitySnapshot)
    (runtime_commit schema_revision : str) (observed_at_ms : Z) : txn bool :=
  let identity_matches := opt_holds (λ c, bool_decide (ru_certified_commit c = runtime_commit)
                                          && bool_decide (ru_schema_revision c = schema_revision)) capability in
  if identity_matches && opt_holds ru_enabled capability then mret true
  else if identity_matches then
    resolve_incident RUNTIME_FENCE_INCIDENT_ID observed_at_ms;;
    mret false
  else
    add_incident
      (mkIncident RUNTIME_FENCE_INCIDENT_ID None RUNTIME_FENCE_INCIDENT_KIND true RUNTIME_FENCE_INCIDENT_KIND
         scope_runtime (Some "global"%string) observed_at_ms None);;
    mret false.

(** ** The schedule of the reconciliation process *)

Inductive ReconciliationActionKind :=
  | act_unknown_outcome | act_post_fill_risk | act_position_safety | act_settlement | act_review
  | act_certification | act_fee_monitor | act_account_position_audit.

Definition action_kind_value (k : ReconciliationActionKind) : str :=
  match k with
  | act_unknown_outcome => "unknown_outcome" | act_post_fill_risk => "post_fill_risk"
  | act_position_safety => "position_safety" | act_settlement => "settlement" | act_review => "review"
  | act_certification => "certification" | act_fee_monitor => "fee_monitor"
  | act_account_position_audit => "account_position_audit"
  end.

Record ReconciliationActionCandidate := mkAction {
  ra_kind : ReconciliationActionKind;
  ra_stable_identity : str;
  ra_due_at_ms : Z;
  ra_max_wait_ms : Z
}.

Definition validate_ReconciliationActionCandidate (c : ReconciliationActionCandidate)
    : result ReconciliationActionCandidate :=
  validate_fields [(blank (ra_stable_identity c), "reconciliation action identity must be non-blank")];;
  validate_model
    [((ra_due_at_ms c <? 0) || (ra_max_wait_ms c <? 0), "reconciliation action times must be non-negative")];;
  mret (mkAction (ra_kind c) (strip (ra_stable_identity c)) (ra_due_at_ms c) (ra_max_wait_ms c)).

(** [deadline_at_ms] *)
Definition ra_deadline_at_ms (c : ReconciliationActionCandidate) : Z := ra_due_at_ms c + ra_max_wait_ms c.

(** The key of [min]: the deadline, the identity, the kind. *)
Definition action_lt (a b : ReconciliationActionCandidate) : bool :=
  (ra_deadline_at_ms a <? ra_deadline_at_ms b)
  || ((ra_deadline_at_ms a =? ra_deadline_at_ms b)
      && (String.ltb (ra_stable_identity a) (ra_stable_identity b)
          || (bool_decide (ra_stable_identity a = ra_stable_identity b)
              && String.ltb (action_kind_value (ra_kind a)) (action_kind_value (ra_kind b))))).

(** [min(..., default=None)]: the first of the least, and the candidates that
    are not that object. *)
Fixpoint take_first_least (l : list ReconciliationActionCandidate) (now_ms : Z)
    : option ReconciliationActionCandidate * list ReconciliationActionCandidate :=
  match l with
  | [] => (None, [])
  | x :: l =>
      let '(best, rest) := take_first_least l now_ms in
      if negb (ra_due_at_ms x <=? now_ms) then (best, x :: rest)
      else
        match best with
        | None => (Some x, l)
        | Some y => if action_lt y x then (best, x :: rest) else (Some x, l)
        end
  end.

(** [ReconciliationScheduleResult] without the two times, which are [now_ms]. *)
Record ReconciliationScheduleResult := mkSchedule {
  sr_safety_action : option ReconciliationActionCandidate;
  sr_housekeeping_action : option ReconciliationActionCandidate;
  sr_next_due_at_ms : option Z;
  sr_deadline_breach : bool
}.

(** [select_reconciliation_schedule] *)
Definition select_reconciliation_schedule (now_ms : Z) (safety : option ReconciliationActionCandidate)
    (candidates : list ReconciliationActionCandidate) : ReconciliationScheduleResult :=
  let '(selected, remaining) := take_first_least candidates now_ms in
  mkSchedule safety selected
    (match ra_due_at_ms <$> remaining with
     | [] => None
     | d :: ds => Some (foldl Z.min d ds)
     end)
    (opt_holds (λ c, ra_deadline_at_ms c <? now_ms) selected).
