(* ===== verification/System.v ===== *)
(** * The kernel as a history of transactions

    Every service changes the tables in one transaction.  A run is the list of
    the committed tables, newest first, with the commands handed to the venue;
    [aggregates.get] locks nothing, so what it reads is any tables of the past. *)

From stdpp Require Import gmap.
From S2P Require Import Prelude PyString PyDecimal Identities Ticket CrossMarginStress VenueTruth.
From S2P Require Import ExitPolicy Control.
From S2P Require Import Capacity Admission Dispatch VacuumLateFill Events Aggregate Reducer.
From S2P Require Import Commands Database OwnerState UnitOfWork Dispatcher UnknownOutcomes Reconcile IssueTicket.
From S2P Require Import Drain Health.
#[local] Open Scope Z_scope.

(** The transactions of the services, with what they are given. *)
Inductive Transaction :=
  | t_expire_claim (locked : list str) (request : DispatchCommandRequest)
  | t_claim (locked : list str) (vacuum_of : TradeAggregate → option str) (request : DispatchCommandRequest)
  | t_result (c : ExchangeCommand) (worker : str) (result : DispatchResult)
  | t_refusal (vacuum_of : TradeAggregate → option str) (c : ExchangeCommand) (worker : str) (now_ms : Z)
      (preflight : EntryDispatchPreflightStatus)
  | t_recovery (command_id : str) (d : UnknownRecoveryDecision)
  | t_leverage_truth (command_id : str) (truth : LeverageTruthSnapshot)
  | t_reconcile (ticket_id : str) (snapshot : PositionSnapshot)
  | t_stress (account : AccountRiskSnapshot) (rules : InstrumentRulesFacts) (assessed_at_ms : Z) (ticket_id : str)
  | t_stress_retry (ticket_id : str) (s : PostFillStressReconcileStatus) (now_ms due_at_ms : Z)
  | t_request_exit (ticket_id reason : str) (requested_at_ms : Z)
  | t_settle (ticket_id : str) (settled_at_ms : Z)
  | t_review (ticket_id review_id outcome : str) (recorded_at_ms : Z)
  | t_revise (ticket_id review_id supersedes_review_id outcome : str) (recorded_at_ms : Z)
  | t_maintain (profile_of : str → str → option ExitProfile) (ticket_id : str) (f : TicketLifecycleFacts)
      (now_ms : Z)
  | t_issue (f : IssueFacts) (claim : CapacityClaim) (now_ms : Z) (claim_owner : str)
  | t_drain (vacuum_id : str) (fraction_of : TradeTicket → option Decimal) (ticket_id : str)
      (snapshot : option PositionSnapshot) (now_ms : Z)
  | t_late_fill (certified : bool) (vacuum : option StrategyEntryVacuum) (now_ms window_ms : Z)
      (a : TradeAggregate) (incident_id : str) (c : ExchangeCommand) (position : PositionSnapshot)
      (truth : VenueTruthSnapshot) (d : LateFillDecision)
  | t_facts_failure (ticket_id error_type : str) (now_ms due_at_ms : Z)
  | t_facts_recovered (ticket_id : str) (now_ms : Z)
  | t_fence (capability : option RuntimeCapabilitySnapshot) (runtime_commit schema_revision : str)
      (observed_at_ms : Z)
  | t_certify_rules (venue_id : str) (facts : InstrumentRulesFacts)
  | t_schedule (ticket_id : str) (kind : WorkKind) (due_at_ms : Z)
  | t_expedite (ticket_id : str) (due_at_ms : Z)
  | t_lease_routine (locked : list str) (worker_id : str) (now_ms lease_until_ms : Z)
  | t_incident (i : RuntimeIncidentRecord)
  | t_monitor (m : MonitorStateRecord).

Definition silently {A} (m : txn A) : txn (option ExchangeCommand) := m;; mret None.

(** The transaction over the tables [seen] by its unlocked reads; it returns the
    command it hands to the venue. *)
Definition perform (seen : Database) (t : Transaction) : txn (option ExchangeCommand) :=
  match t with
  | t_expire_claim locked request => silently (expire_one_claim seen locked request)
  | t_claim locked vacuum_of request =>
      outcome ← claim_next seen locked vacuum_of request;
      mret (match outcome with claimed c => Some c | _ => None end)
  | t_result c worker result => silently (record_dispatch_result seen c worker result)
  | t_refusal vacuum_of c worker now_ms preflight =>
      silently (record_preflight_refusal seen vacuum_of c worker now_ms preflight)
  | t_recovery command_id d => silently (record_recovery seen command_id d)
  | t_leverage_truth command_id truth => silently (record_leverage_truth seen command_id truth)
  | t_reconcile ticket_id snapshot => silently (reconcile_ticket ticket_id snapshot)
  | t_stress account rules at_ms ticket_id => silently (reconcile_post_fill_stress account rules at_ms ticket_id)
  | t_stress_retry ticket_id s now_ms due => silently (record_post_fill_stress_retry ticket_id s now_ms due)
  | t_request_exit ticket_id reason at_ms => silently (request_exit seen ticket_id reason at_ms)
  | t_settle ticket_id at_ms => silently (settle_ticket seen ticket_id at_ms)
  | t_review ticket_id review outcome at_ms => silently (record_trade_review seen ticket_id review outcome at_ms)
  | t_revise ticket_id review prior outcome at_ms =>
      silently (revise_trade_review seen ticket_id review prior outcome at_ms)
  | t_maintain profile_of ticket_id f now_ms =>
      silently (maintain_ticket_lifecycle seen profile_of ticket_id f now_ms)
  | t_issue f claim now_ms owner => silently (issue_ticket_txn f claim now_ms owner)
  | t_drain vacuum_id fraction_of ticket_id snapshot now_ms =>
      silently (drain_ticket vacuum_id fraction_of ticket_id snapshot now_ms)
  | t_late_fill certified vacuum now_ms window_ms a incident c position truth d =>
      silently (record_late_fill certified vacuum now_ms window_ms a incident c position truth d)
  | t_facts_failure ticket_id error now_ms due =>
      silently (record_lifecycle_facts_failure ticket_id error now_ms due)
  | t_facts_recovered ticket_id now_ms => silently (resolve_lifecycle_facts_failure ticket_id now_ms)
  | t_fence capability commit schema at_ms =>
      silently (runtime_writer_is_certified capability commit schema at_ms)
  | t_certify_rules venue facts => silently (upsert_instrument_rules venue facts)
  | t_schedule ticket_id kind due => silently (schedule_next_check ticket_id kind due)
  | t_expedite ticket_id due => silently (expedite_reconciliation ticket_id due)
  | t_lease_routine locked worker now_ms lease =>
      silently (claim_next_routine_reconciliation_work locked worker now_ms lease)
  | t_incident i => silently (add_incident i)
  | t_monitor m => silently (save_if_changed m)
  end.

(** An outcome is recorded for a command that was handed over. *)
Definition permitted (sent : list ExchangeCommand) (t : Transaction) : Prop :=
  match t with
  | t_result c _ _ | t_refusal _ c _ _ _ => c ∈ sent
  | _ => True
  end.

(** The runs: a transaction that raises leaves no trace. *)
Inductive run : list Database → list ExchangeCommand → Prop :=
  | run_start : run [empty_database] []
  | run_transaction past db seen t sent c db' :
      run (db :: past) sent → seen ∈ db :: past → permitted sent t → perform seen t db = Ok (c, db') →
      run (db' :: db :: past) (option_list c ++ sent).

(** The continuations of a run in which every claim is at [from_ms] or later. *)
Definition not_before (from_ms : Z) (t : Transaction) : Prop :=
  match t with t_claim _ _ request => from_ms <= dr_now_ms request | _ => True end.
Inductive run_from (from_ms : Z) (dbs : list Database) (sent : list ExchangeCommand)
    : list Database → list ExchangeCommand → Prop :=
  | from_here : run_from from_ms dbs sent dbs sent
  | from_transaction past db seen t sent' c db' :
      run_from from_ms dbs sent (db :: past) sent' → seen ∈ db :: past → permitted sent' t → not_before from_ms t →
      perform seen t db = Ok (c, db') →
      run_from from_ms dbs sent (db' :: db :: past) (option_list c ++ sent').

Lemma run_from_run from_ms dbs sent dbs' sent' : run dbs sent → run_from from_ms dbs sent dbs' sent' → run dbs' sent'.
Proof. induction 2; [done|]. by eapply run_transaction. Qed.
