(* ===== verification/DatabaseFacts.v ===== *)
(** * Lemmas on transactions and tables

    Inversion of transactions that return, the lookup of an updated table, and
    [preserves]: what a transaction leaves alone, by its syntax. *)

From stdpp Require Import gmap.
From S2P Require Import Prelude PyString Events Aggregate Database.

(** ** Transactions that return *)

Lemma txn_bind_Ok {A B} (m : txn A) (f : A → txn B) db b db' :
  (m ≫= f) db = Ok (b, db') ↔ ∃ a db1, m db = Ok (a, db1) ∧ f a db1 = Ok (b, db').
Proof. unfold mbind, txn_bind. destruct (m db) as [[a db1]|e]; naive_solver. Qed.

Lemma txn_ret_Ok {A} (a b : A) (db db' : Database) :
  (mret a : txn A) db = Ok (b, db') ↔ b = a ∧ db' = db.
Proof. unfold mret, txn_ret. naive_solver. Qed.

Lemma lift_Ok {A} (m : result A) b db db' : lift m db = Ok (b, db') ↔ m = Ok b ∧ db' = db.
Proof. unfold lift. destruct m; naive_solver. Qed.

Lemma query_Ok {A} (f : Database → result A) b db db' :
  query f db = Ok (b, db') ↔ f db = Ok b ∧ db' = db.
Proof. unfold query. destruct (f db); naive_solver. Qed.

Lemma check_Ok c e u db db' : check c e db = Ok (u, db') ↔ c = false ∧ db' = db.
Proof. unfold check. rewrite lift_Ok, raise_if_Ok. naive_solver. Qed.

Lemma select_Ok {A} (f : Database → A) b db db' : select f db = Ok (b, db') ↔ b = f db ∧ db' = db.
Proof. unfold select. naive_solver. Qed.

Lemma modify_Ok f u db db' : modify f db = Ok (u, db') ↔ db' = f db.
Proof. unfold modify. destruct u. naive_solver. Qed.

(** [run_txn H] turns [H : transaction db = Ok (a, db')] into its steps. *)
Ltac run_txn_step H :=
  lazymatch type of H with
  | (_ ≫= _) _ = Ok _ =>
      let a := fresh "a" in let db := fresh "db" in let E := fresh "T" in
      apply txn_bind_Ok in H as (a & db & E & H); run_txn_step E
  | mret _ _ = Ok _ => apply txn_ret_Ok in H as [? ?]; subst
  | lift _ _ = Ok _ => apply lift_Ok in H as [H ?]; subst
  | query _ _ = Ok _ => apply query_Ok in H as [H ?]; subst
  | check _ _ _ = Ok _ => apply check_Ok in H as [H ?]; subst
  | select _ _ = Ok _ => apply select_Ok in H as [? ?]; subst
  | modify _ _ = Ok _ => apply modify_Ok in H; subst
  | get_for_update _ _ = Ok _ => apply query_Ok in H as [H ?]; subst
  | raise _ _ = Ok _ => discriminate H
  | _ => idtac
  end.
Ltac run_txn H := cbn beta iota in H; repeat (progress run_txn_step H); subst; try (progress cbn beta iota in H).

(** ** Updated tables *)

Lemma update_where_lookup {V} c (v : V → V) (t : gmap str V) k :
  update_where c v t !! k = (λ x, if c k x then v x else x) <$> t !! k.
Proof. unfold update_where. rewrite map_lookup_imap. by destruct (t !! k). Qed.

Lemma filter_with_key {V} key (c : V → bool) (t : gmap str V) :
  filter (λ kv : str * V, with_key key c kv.1 kv.2 = true) t =
  match t !! key with
  | Some x => if c x then {[key := x]} else ∅
  | None => ∅
  end.
Proof.
  apply map_eq. intros k. destruct (t !! key) as [x|] eqn:Hx; [destruct (c x) eqn:Hc|].
  - destruct (decide (k = key)) as [->|Hk].
    + rewrite lookup_singleton_eq. apply map_lookup_filter_Some. split; [done|].
      unfold with_key; cbn. rewrite bool_decide_eq_true_2 by done. by rewrite Hc.
    + rewrite lookup_singleton_ne by done. apply map_lookup_filter_None. right. intros y _.
      unfold with_key; cbn. by rewrite bool_decide_eq_false_2.
  - rewrite lookup_empty. apply map_lookup_filter_None. right. intros y Hy. unfold with_key; cbn.
    case_bool_decide; [|done]. subst. rewrite Hx in Hy. injection Hy as <-. by rewrite Hc.
  - rewrite lookup_empty. apply map_lookup_filter_None. right. intros y Hy. unfold with_key; cbn.
    case_bool_decide; [|done]. subst. by rewrite Hx in Hy.
Qed.

(** A condition on the primary key counts at most one row. *)
Lemma rowcount_with_key {V} key (c : V → bool) (t : gmap str V) :
  rowcount (with_key key c) t = 1 ↔ ∃ x, t !! key = Some x ∧ c x = true.
Proof.
  unfold rowcount. rewrite filter_with_key. destruct (t !! key) as [x|] eqn:Hx; [destruct (c x) eqn:Hc|].
  - rewrite map_size_singleton. split; [by exists x|done].
  - rewrite map_size_empty. split; [done|]. intros (? & [= <-] & ?). congruence.
  - rewrite map_size_empty. split; [done|]. by intros (? & ? & ?).
Qed.

Lemma update_where_with_key {V} key (c : V → bool) (v : V → V) (t : gmap str V) x :
  t !! key = Some x → c x = true → update_where (with_key key c) v t = <[key := v x]> t.
Proof.
  intros Hx Hc. apply map_eq. intros k. rewrite update_where_lookup. destruct (decide (k = key)) as [->|Hk].
  - rewrite Hx, lookup_insert_eq. cbn. unfold with_key. rewrite bool_decide_eq_true_2 by done. by rewrite Hc.
  - rewrite lookup_insert_ne by done. destruct (t !! k); [|done]. cbn. unfold with_key.
    by rewrite bool_decide_eq_false_2.
Qed.

Section tables.
Context {V : Type} (table_of : Database → gmap str V) (set_table : gmap str V → Database → Database).

Lemma update_one_Ok c v e u db db' :
  update_one table_of set_table c v e db = Ok (u, db') ↔
  rowcount c (table_of db) = 1 ∧ db' = set_table (update_where c v (table_of db)) db.
Proof.
  unfold update_one. rewrite txn_bind_Ok. split.
  - intros (t & db1 & H1 & H). run_txn H1. run_txn H. apply negb_false, Z.eqb_eq in T. done.
  - intros [Hn ->]. exists (table_of db), db. split; [done|]. apply txn_bind_Ok. exists tt, db. split.
    + apply check_Ok. split; [|done]. by rewrite Hn.
    + destruct u. done.
Qed.

Lemma update_one_with_key_Ok key c v e u db db' :
  update_one table_of set_table (with_key key c) v e db = Ok (u, db') ↔
  ∃ x, table_of db !! key = Some x ∧ c x = true ∧ db' = set_table (<[key := v x]> (table_of db)) db.
Proof.
  rewrite update_one_Ok, rowcount_with_key. split.
  - intros [(x & Hx & Hc) ->]. exists x. by rewrite (update_where_with_key key c v _ x).
  - intros (x & Hx & Hc & ->). split; [by exists x|]. by rewrite (update_where_with_key key c v _ x).
Qed.

Lemma update_all_Ok c v u db db' :
  update_all table_of set_table c v db = Ok (u, db') ↔
  db' = set_table (update_where c v (table_of db)) db.
Proof.
  unfold update_all. split.
  - intros H. run_txn H. done.
  - intros ->. destruct u. done.
Qed.

Lemma insert_row_Ok key conflict row u db db' :
  insert_row table_of set_table key conflict row db = Ok (u, db') ↔
  table_of db !! key = None ∧ (∀ k r, table_of db !! k = Some r → conflict r = false) ∧
  db' = set_table (<[key := row]> (table_of db)) db.
Proof.
  unfold insert_row. rewrite txn_bind_Ok. split.
  - intros (t & db1 & H1 & H). run_txn H1. run_txn H. apply orb_false in T as [Hn Hc].
    apply negb_false, is_none_true in Hn. split; [done|]. split; [|done]. intros k r Hr.
    apply elem_of_map_to_list in Hr. apply list_elem_of_In in Hr. destruct (conflict r) eqn:E; [|done].
    exfalso. apply not_true_iff_false in Hc. apply Hc, existsb_exists. by exists (k, r).
  - intros (Hn & Hc & ->). exists (table_of db), db. split; [done|]. apply txn_bind_Ok. exists tt, db. split.
    + apply check_Ok. split; [|done]. apply orb_false. split; [by rewrite Hn|].
      apply not_true_iff_false. intros (kr & Hin & Hkr)%existsb_exists.
      apply list_elem_of_In in Hin. destruct kr as [k r]. apply elem_of_map_to_list in Hin.
      cbn in Hkr. by rewrite (Hc k r) in Hkr.
    + destruct u. done.
Qed.
End tables.

(** ** What a transaction may change

    [respects R m]: the tables before and after [m] are related by the preorder
    [R].  [keeps part] is the preorder of transactions that leave [part] alone. *)

Definition respects (R : relation Database) {B} (m : txn B) : Prop :=
  ∀ db b db', m db = Ok (b, db') → R db db'.

Definition keeps {P} (part : Database → P) : relation Database := λ db db', part db' = part db.
#[export] Instance keeps_preorder {P} (part : Database → P) : PreOrder (keeps part).
Proof. split; [by intros db|]. intros db1 db2 db3. unfold keeps. congruence. Qed.

Section respects.
Context (R : relation Database) `{!PreOrder R}.

Lemma respects_ret {A} (a : A) : respects R (mret a).
Proof. intros db b db' H. by run_txn H. Qed.
Lemma respects_bind {A B} (m : txn A) (f : A → txn B) :
  respects R m → (∀ a, respects R (f a)) → respects R (m ≫= f).
Proof.
  intros Hm Hf db b db' (a & db1 & H1 & H2)%txn_bind_Ok. transitivity db1; [by eapply Hm|by eapply Hf].
Qed.
Lemma respects_lift {A} (m : result A) : respects R (lift m).
Proof. intros db b db' H. by run_txn H. Qed.
Lemma respects_lift_bind {A B} (m : result A) (f : A → txn B) :
  (∀ a, m = Ok a → respects R (f a)) → respects R (lift m ≫= f).
Proof. intros Hf db b db' (a & db1 & H1 & H2)%txn_bind_Ok. run_txn H1. by eapply Hf. Qed.
Lemma respects_query {A} (f : Database → result A) : respects R (query f).
Proof. intros db b db' H. by run_txn H. Qed.
Lemma respects_check c e : respects R (check c e).
Proof. intros db b db' H. by run_txn H. Qed.
Lemma respects_raise {A} e : respects R (raise e : txn A).
Proof. intros db b db' H. by run_txn H. Qed.
Lemma respects_select {A} (f : Database → A) : respects R (select f).
Proof. intros db b db' H. by run_txn H. Qed.
Lemma respects_modify f : (∀ db, R db (f db)) → respects R (modify f).
Proof. intros Hf db b db' H. run_txn H. apply Hf. Qed.
Lemma respects_for_each {A} (f : A → txn unit) l : (∀ x, respects R (f x)) → respects R (for_each f l).
Proof.
  intros Hf. induction l as [|x l IH]; cbn; [apply respects_ret|]. apply respects_bind; [done|]. intros _. done.
Qed.
Lemma respects_update_one {V} (table_of : Database → gmap str V) set_table c v e :
  (∀ db, R db (set_table (update_where c v (table_of db)) db)) →
  respects R (update_one table_of set_table c v e).
Proof. intros Hf db b db' [_ ->]%update_one_Ok. apply Hf. Qed.
Lemma respects_update_all {V} (table_of : Database → gmap str V) set_table c v :
  (∀ db, R db (set_table (update_where c v (table_of db)) db)) →
  respects R (update_all table_of set_table c v).
Proof. intros Hf db b db' ->%update_all_Ok. apply Hf. Qed.
Lemma respects_insert_row {V} (table_of : Database → gmap str V) set_table key conflict row :
  (∀ db, table_of db !! key = None → R db (set_table (<[key := row]> (table_of db)) db)) →
  respects R (insert_row table_of set_table key conflict row).
Proof. intros Hf db b db' (Hk & _ & ->)%insert_row_Ok. by apply Hf. Qed.
End respects.

Create HintDb respects.
#[export] Hint Resolve respects_ret respects_lift respects_query respects_check respects_raise
  respects_select : respects.
#[export] Hint Extern 1 (PreOrder _) => typeclasses eauto : respects.

(** Follows the syntax of a transaction down to the tables it sets; [leaf]
    closes what is left for a changed table. *)
Ltac respects_with leaf :=
  repeat first
    [ solve [auto with respects nocore]
    | progress intros
    | lazymatch goal with
      | |- respects _ (lift _ ≫= _) => apply respects_lift_bind
      | |- respects _ (_ ≫= _) => apply respects_bind
      | |- respects _ (modify _) => apply respects_modify
      | |- respects _ (for_each _ _) => apply respects_for_each
      | |- respects _ (update_one _ _ _ _ _) => apply respects_update_one
      | |- respects _ (update_all _ _ _ _) => apply respects_update_all
      | |- respects _ (insert_row _ _ _ _ _) => apply respects_insert_row
      | |- respects _ (match ?x with _ => _ end) => destruct x
      | |- respects _ (let _ := _ in _) => cbv zeta
      | |- PreOrder _ => typeclasses eauto
      end
    | leaf ].


Create HintDb repository.
#[export] Hint Unfold add_command claim_one_prepared record_result record_leverage_result
  mark_claimed_superseded mark_prepared_superseded record_expired_claim_unknown
  mark_cancel_reconciled_absent reconcile_unknown_submitted reconcile_unknown_leverage_confirmed
  reconcile_unknown_absent add_budget release_budget add_claim reserve_account_exposure
  release_account_exposure lock_global_lane claim_global_lane release_global_lane upsert_position
  upsert_instrument_rules add_review add_incident resolve_incident resolve_all_open_for_ticket
  save_if_changed get_for_update : repository.
Ltac operation leaf := autounfold with repository; respects_with leaf.
