(* ===== verification/StoreFacts.v ===== *)
(** * The event store

    The stored aggregate of a Ticket is the reducer's fold of the Ticket's stored
    events, and [commit_event] keeps it so even when the aggregate was read from
    older tables: the version makes the read current. *)

From stdpp Require Import gmap.
From S2P Require Import Prelude PyString PyDecimal Identities Ticket VenueTruth.
From S2P Require Import Capacity Admission Dispatch Events Aggregate Reducer Lifecycle LifecycleInvariants.
From S2P Require Import Commands Database OwnerState UnitOfWork Dispatcher Reconcile DatabaseFacts.

(** ** Folding events *)

(** The aggregate after the events, from none at all. *)
Definition fold_event (a : option TradeAggregate) (e : TradeEvent) : result (option TradeAggregate) :=
  r ← reduce_event a e; mret (Some (aggregate r)).
Definition replay (es : list TradeEvent) : result (option TradeAggregate) := fold_result fold_event None es.

Lemma fold_result_app {A B} (f : A → B → result A) acc l l' :
  fold_result f acc (l ++ l') = (acc' ← fold_result f acc l; fold_result f acc' l').
Proof.
  revert acc. induction l as [|x l IH]; intros acc; cbn; [done|]. destruct (f acc x); cbn; [apply IH|done].
Qed.

Lemma replay_snoc es e o :
  replay (es ++ [e]) = Ok o ↔
  ∃ o' r, replay es = Ok o' ∧ reduce_event o' e = Ok r ∧ o = Some (aggregate r).
Proof.
  unfold replay. rewrite fold_result_app, bind_Ok. split.
  - intros (o' & H1 & H2). cbn in H2. apply bind_Ok in H2 as (o2 & H2 & [= <-]).
    apply bind_Ok in H2 as (r & H2 & [= <-]). by exists o', r.
  - intros (o' & r & H1 & H2 & ->). exists o'. split; [done|]. cbn. unfold fold_event. by rewrite H2.
Qed.

Lemma issue_Ok e r :
  reduce_event None e = Ok r →
  ∃ t, ev_body e = TicketIssued t ∧ identity (aggregate r) = tk_identity t ∧ ticket (aggregate r) = t ∧
       version (aggregate r) = 1 ∧ last_event_sequence (aggregate r) = 1 ∧
       terminal_ticket_status (status (aggregate r)) = None ∧ entry_lane_held (aggregate r) = true ∧
       count releases_lane (effects r) = O.
Proof.
  cbn [reduce_event]. unfold issue_ticket. destruct (ev_body e) eqn:Hb; intros H; try discriminate H.
  run_ok H. exists ticket. apply negb_false, Z.eqb_eq in E. cbn. rewrite E. repeat split.
  all: by destruct tk_leverage_change_required.
Qed.

Lemma validate_event_body e e' : validate_event e = Ok e' → ev_body e' = normalize_body (ev_body e).
Proof.
  unfold validate_event. intros H. apply bind_Ok in H as (_ & _ & H). by apply bind_Ok in H as (_ & _ & [= <-]).
Qed.

(** The version counts the events; the identity is the first event's. *)
Lemma replay_frame es o :
  replay es = Ok o →
  match o with
  | None => es = []
  | Some a => version a = Z.of_nat (length es) ∧ last_event_sequence a = Z.of_nat (length es) ∧
              identity a = tk_identity (ticket a) ∧ es ≠ []
  end.
Proof.
  revert o. induction es as [|e es IH] using rev_ind; intros o H; [by injection H as <-|].
  apply replay_snoc in H as (o' & r & H1 & H2 & ->). apply IH in H1. rewrite length_app; cbn.
  assert (es ++ [e] ≠ []) as Hne by (by destruct es). destruct o' as [a|].
  - destruct H1 as (Hv & Hs & Hi & _). apply step_frame in H2 as (Ei & Et & Ev & Es).
    rewrite Ev, Es, Ei, Et. repeat split; [lia|lia|done|done].
  - subst es. apply issue_Ok in H2 as (t & _ & Ei & Et & Ev & Es & _). rewrite Ev, Es, Ei, Et. done.
Qed.

Lemma replay_version es a : replay es = Ok (Some a) → version a = Z.of_nat (length es).
Proof. intros H. by destruct (replay_frame _ _ H). Qed.

(** ** The Ticket of a closed aggregate *)

(** The aggregate as it is read back: a closed one has its Ticket marked. *)
Definition mark (a : TradeAggregate) : TradeAggregate :=
  match terminal_ticket_status (status a) with
  | Some s => set_ticket (set_ticket_status s (ticket a)) a
  | None => a
  end.

Lemma mark_fields a :
  status (mark a) = status a ∧ version (mark a) = version a ∧ identity (mark a) = identity a ∧
  last_event_sequence (mark a) = last_event_sequence a ∧ tk_identity (ticket (mark a)) = tk_identity (ticket a).
Proof. unfold mark. by destruct (terminal_ticket_status (status a)). Qed.

(** A closed aggregate takes only the revision of its review. *)
Lemma closed_takes_revisions a e r s :
  terminal_ticket_status (status a) = Some s → reduce_event (Some a) e = Ok r →
  ∃ i j, ev_body e = ReviewRevised i j.
Proof.
  intros Hs H. step_cases H; use_status a; try discriminate Hs; eauto.
Qed.

(** ** The stored aggregates *)

Definition ticket_log (ticket_id : str) (db : Database) : list TradeEvent :=
  filter (λ e, event_ticket_id e = ticket_id) (db_events db).

(** What a read of a Ticket's aggregate depends on. *)
Definition core (db : Database) : gmap str TradeTicket * gmap str TradeAggregate * list TradeEvent :=
  (tr_ticket <$> db_tickets db, ar_aggregate <$> db_aggregates db, db_events db).

(** Every stored aggregate is the fold of its events. *)
Definition faithful (db : Database) : Prop :=
  ∀ t, ∃ o, replay (ticket_log t db) = Ok o ∧ get_aggregate t db = Ok (mark <$> o).

Lemma get_aggregate_core t db db' : core db' = core db → get_aggregate t db' = get_aggregate t db.
Proof.
  unfold core. intros [= Ht Ha _]. unfold get_aggregate, get_ticket.
  assert (ar_aggregate <$> db_aggregates db' !! t = ar_aggregate <$> db_aggregates db !! t) as E1
    by (by rewrite <- !lookup_fmap, Ha).
  assert (tr_ticket <$> db_tickets db' !! t = tr_ticket <$> db_tickets db !! t) as E2
    by (by rewrite <- !lookup_fmap, Ht).
  rewrite E2. destruct (db_aggregates db' !! t) as [r'|], (db_aggregates db !! t) as [r|]; try done.
  injection E1 as E1. destruct (tr_ticket <$> db_tickets db !! t); [|done]. unfold aggregate_from_row.
  by rewrite E1.
Qed.

Lemma ticket_log_core t db db' : core db' = core db → ticket_log t db' = ticket_log t db.
Proof. unfold core, ticket_log. by intros [= _ _ ->]. Qed.

Lemma faithful_core db db' : core db' = core db → faithful db → faithful db'.
Proof.
  intros E H t. destruct (H t) as (o & H1 & H2). exists o.
  by rewrite (ticket_log_core _ _ _ E), (get_aggregate_core _ _ _ E).
Qed.

Lemma empty_faithful : faithful empty_database.
Proof. intros t. by exists None. Qed.

(** ** What keeps the core *)

Lemma fmap_update_where {V W} (f : V → W) c v (t : gmap str V) :
  (∀ x, f (v x) = f x) → f <$> update_where c v t = f <$> t.
Proof.
  intros Hf. apply map_eq. intros k. rewrite !lookup_fmap, update_where_lookup.
  destruct (t !! k) as [x|]; [|done]. cbn. destruct (c k x); [by rewrite Hf|done].
Qed.

Lemma set_due_aggregate kind due r : ar_aggregate (set_due kind due r) = ar_aggregate r.
Proof. by destruct kind. Qed.

(** The Ticket that holds the entry lane. *)
Definition lane_owner (db : Database) : option str :=
  match db_lane db with
  | Some l => if el_claimed l then el_ticket_id l else None
  | None => None
  end.

(** The core, and who holds the entry lane. *)
Definition whole (db : Database) := (core db, lane_owner db).

Ltac core_leaf :=
  first [reflexivity
        | unfold keeps, whole, core, lane_owner, set_tickets, set_aggregates; cbn;
          rewrite fmap_update_where by (first [by intros [] | intros; apply set_due_aggregate]); reflexivity].

#[export] Hint Unfold schedule_next_check expedite_reconciliation release_active_netting_domain
  claim_next_routine_reconciliation_work : repository.
Create HintDb services.
#[export] Hint Unfold prepare initial_command_claim next_retryable_generation prior_command
  cancel_generation release_exposure_of open_incident project_terminal resolve_reconciliation_wait
  record_wait record_reconciliation_wait record_worker_retry clear_worker_retry observe_candidate
  observe_reconciliation_backlog read_aggregate : services.
Ltac keeps_core := autounfold with services; operation core_leaf.

Lemma save_if_changed_core m : respects (keeps core) (save_if_changed m).
Proof. keeps_core. Qed.
Lemma save_if_changed_whole m : respects (keeps whole) (save_if_changed m).
Proof. keeps_core. Qed.
Lemma add_incident_core i : respects (keeps core) (add_incident i).
Proof. keeps_core. Qed.
Lemma add_incident_whole i : respects (keeps whole) (add_incident i).
Proof. keeps_core. Qed.
#[export] Hint Resolve save_if_changed_core save_if_changed_whole add_incident_core add_incident_whole : respects.

Lemma materialize_core a e eff : respects (keeps core) (materialize a e eff).
Proof. unfold materialize. destruct eff; keeps_core. Qed.
#[export] Hint Resolve materialize_core : respects.

(** ** Committing an event *)

Lemma aggregate_from_row_ticket r t : ticket (aggregate_from_row r t) = t.
Proof. done. Qed.

Lemma get_aggregate_Some t db a :
  get_aggregate t db = Ok (Some a) ↔
  ∃ r k, db_aggregates db !! t = Some r ∧ get_ticket t db = Some k ∧ a = aggregate_from_row r k.
Proof.
  unfold get_aggregate. destruct (db_aggregates db !! t) as [r|]; [|naive_solver].
  destruct (get_ticket t db) as [k|]; [|naive_solver]. unfold mret, result_ret. naive_solver.
Qed.

Lemma save_aggregate_Ok a v at_ms u db db' :
  save_aggregate a v at_ms db = Ok (u, db') →
  let t := ti_ticket_id (identity a) in
  ∃ current row, get_aggregate t db = Ok (Some current) ∧ version current = v ∧ version a = v + 1 ∧
    db_aggregates db !! t = Some row ∧
    db' = set_aggregates (<[t := mkAggregateRow a at_ms (ar_lifecycle_due_at_ms row)
                                   (ar_reconciliation_due_at_ms row)]> (db_aggregates db)) db.
Proof.
  unfold save_aggregate. intros H. run_txn H. destruct a0 as [current|]; [|discriminate]. run_txn H.
  apply update_one_with_key_Ok in H as (row & Hr & _ & ->). apply negb_false, Z.eqb_eq in T0, T1.
  by exists current, row.
Qed.

Lemma append_event_Ok e u db db' :
  append_event e db = Ok (u, db') → db' = set_events (db_events db ++ [e]) db.
Proof. unfold append_event. intros H. by run_txn H. Qed.

Lemma mark_terminal_Ok t s at_ms u db db' :
  mark_terminal t s at_ms db = Ok (u, db') →
  ∃ k, get_ticket t db = Some k ∧
       core db' = (<[t := set_ticket_status s k]> (tr_ticket <$> db_tickets db),
                   ar_aggregate <$> db_aggregates db, db_events db).
Proof.
  unfold mark_terminal. intros (k & Hk & _ & ->)%update_one_with_key_Ok. exists (tr_ticket k).
  unfold get_ticket, core, set_tickets; cbn. rewrite Hk. split; [done|]. by rewrite fmap_insert.
Qed.

(** What [commit_reduction] does after the write of the aggregate. *)
Definition finish_commit (e : TradeEvent) (r : Reduction) : txn unit :=
  let a := aggregate r in
  append_event e;;
  for_each (materialize a e) (effects r);;
  match terminal_ticket_status (status a) with
  | Some s => mark_terminal (ti_ticket_id (identity a)) s (ev_occurred_at_ms e)
  | None => mret tt
  end.

Lemma finish_commit_core e r u db db' :
  finish_commit e r db = Ok (u, db') →
  let a := aggregate r in
  let t := ti_ticket_id (identity a) in
  match terminal_ticket_status (status a) with
  | Some s => ∃ k, get_ticket t db = Some k ∧
      core db' = (<[t := set_ticket_status s k]> (tr_ticket <$> db_tickets db),
                  ar_aggregate <$> db_aggregates db, db_events db ++ [e])
  | None => core db' = (tr_ticket <$> db_tickets db, ar_aggregate <$> db_aggregates db, db_events db ++ [e])
  end.
Proof.
  unfold finish_commit. intros H. cbv zeta. run_txn H. apply append_event_Ok in T as ->.
  assert (respects (keeps core) (for_each (materialize (aggregate r) e) (effects r))) as Hc
    by (apply respects_for_each; [typeclasses eauto|]; intros; apply materialize_core).
  apply Hc in T0. unfold keeps in T0. unfold core at 2 in T0. cbn in T0.
  destruct (terminal_ticket_status _) as [s|].
  - apply mark_terminal_Ok in H as (k & Hk & ->). unfold core in T0. injection T0 as Et Ea Ee.
    exists k. split; [|by rewrite Et, Ea, Ee]. unfold get_ticket in *. by rewrite <- lookup_fmap, <- Et, lookup_fmap.
  - by run_txn H.
Qed.

Lemma commit_reduction_split e r v u db db' :
  commit_reduction e r v db = Ok (u, db') →
  let a := aggregate r in
  let t := ti_ticket_id (identity a) in
  ∃ current u1 db1, get_aggregate t db = Ok current ∧ store_aggregate e a v current db = Ok (u1, db1) ∧
    ev_sequence e = last_event_sequence a ∧ event_ticket_id e = t ∧ finish_commit e r db1 = Ok (u, db').
Proof.
  unfold commit_reduction. intros H. cbv zeta. run_txn H. apply negb_false in T1, T2.
  apply Z.eqb_eq in T1. apply bool_decide_eq_true_1 in T2.
  exists a, a0, db0. repeat split; try done. unfold finish_commit. apply txn_bind_Ok. eexists _, _.
  split; [done|]. apply txn_bind_Ok. eexists _, _. by split.
Qed.

(** The review of a closed Ticket is revised without a look at the Ticket. *)
Lemma on_ReviewRevised_ticket k a e i j :
  on_ReviewRevised (set_ticket k a) e i j =
  (r ← on_ReviewRevised a e i j; mret (mkReduction (set_ticket k (aggregate r)) (effects r))).
Proof.
  unfold on_ReviewRevised.
  change (require_status (set_ticket k a) TERMINAL) with (require_status a TERMINAL).
  change (review_id (set_ticket k a)) with (review_id a).
  destruct (require_status a TERMINAL); [|done]. cbn [mbind result_bind].
  destruct (blank i || blank j); [done|]. cbn [raise_if mbind result_bind].
  destruct (negb _); [done|]. cbn [raise_if mbind result_bind].
  by destruct (bool_decide (strip i = strip j)).
Qed.

(** [reduce_event] on an aggregate as it is read back. *)
Lemma reduce_marked a e r :
  reduce_event (Some (mark a)) e = Ok r →
  ∃ r', reduce_event (Some a) e = Ok r' ∧ status (aggregate r) = status (aggregate r') ∧
        mark (aggregate r) = mark (aggregate r') ∧
        (terminal_ticket_status (status a) = None → r = r') ∧
        (terminal_ticket_status (status a) ≠ None → terminal_ticket_status (status (aggregate r)) ≠ None).
Proof.
  intros H. destruct (terminal_ticket_status (status a)) as [s|] eqn:Hs.
  - destruct (mark_fields a) as (Ms & _ & _ & _ & _).
    destruct (closed_takes_revisions (mark a) e r s ltac:(by rewrite Ms) H) as (i & j & Hb).
    unfold mark in H. rewrite Hs in H. apply reduce_event_Some in H as (Hni & Hid & Hseq & H).
    unfold reduce_body in H. rewrite Hb, on_ReviewRevised_ticket in H.
    apply bind_Ok in H as (r' & Hr & [= <-]). exists r'.
    assert (status (aggregate r') = TERMINAL) as Ht.
    { unfold on_ReviewRevised in Hr. repeat guard_step Hr. done. }
    split.
    { apply reduce_event_Some. split; [done|]. split; [exact Hid|]. split; [exact Hseq|].
      unfold reduce_body. by rewrite Hb. }
    cbn [aggregate]. split; [done|]. split; [|split].
    + unfold mark. cbn [set_ticket status]. rewrite Ht. cbn [terminal_ticket_status].
      assert (ticket (aggregate r') = ticket a) as <-; [|done].
      unfold on_ReviewRevised in Hr. by repeat guard_step Hr.
    + intros E. congruence.
    + intros _. cbn [set_ticket status]. by rewrite Ht.
  - unfold mark in H. rewrite Hs in H. by exists r.
Qed.

Lemma replay_tid es a t :
  replay es = Ok (Some a) → Forall (λ e, event_ticket_id e = t) es → tid a = t.
Proof.
  revert a. induction es as [|e es IH] using rev_ind; intros a H Hall; [done|].
  apply replay_snoc in H as (o & r & H1 & H2 & [= ->]). apply Forall_app in Hall as [Hes He].
  apply Forall_cons in He as [He _]. destruct o as [a'|].
  - apply step_frame in H2 as (Ei & _). unfold tid in *. rewrite Ei. by apply IH.
  - apply issue_Ok in H2 as (k & Hb & Ei & _). unfold tid. rewrite Ei. rewrite <- He.
    unfold event_ticket_id. by rewrite Hb.
Qed.

Lemma ticket_log_all t db : Forall (λ e, event_ticket_id e = t) (ticket_log t db).
Proof. apply Forall_forall. intros e. unfold ticket_log. rewrite list_elem_of_filter. naive_solver. Qed.

(** The read of a faithful store: the fold, its version the length of the log. *)
Lemma faithful_read t db a :
  faithful db → get_aggregate t db = Ok (Some a) →
  ∃ c, replay (ticket_log t db) = Ok (Some c) ∧ a = mark c ∧ tid a = t ∧
       version a = Z.of_nat (length (ticket_log t db)) ∧ 0 < version a ∧ identity a = tk_identity (ticket a).
Proof.
  intros Hf H. destruct (Hf t) as (o & Hr & Hg). rewrite H in Hg. destruct o as [c|]; [|done].
  injection Hg as ->. exists c. destruct (mark_fields c) as (_ & Mv & Mi & _ & Mt).
  pose proof (replay_frame _ _ Hr) as (Ev & _ & Ei & Hne). rewrite Mv, Mi, Mt. split; [done|]. split; [done|].
  split; [unfold tid; rewrite Mi; apply (replay_tid _ _ _ Hr), ticket_log_all|].
  split; [done|]. split; [|done]. rewrite Ev. destruct (ticket_log t db); [done|]. cbn. lia.
Qed.

Lemma filter_prefix {A} (P : A → Prop) `{∀ x, Decision (P x)} (l k : list A) :
  l `prefix_of` k → filter P l `prefix_of` filter P k.
Proof. intros [l' ->]. rewrite filter_app. by exists (filter P l'). Qed.

Lemma prefix_same_length {A} (l k : list A) : l `prefix_of` k → length l = length k → l = k.
Proof. intros [l' ->]. rewrite length_app. intros H. destruct l'; [by rewrite app_nil_r|cbn in H; lia]. Qed.

(** The version of a read makes it current. *)
Lemma version_is_current t seen db a cur :
  faithful seen → faithful db → db_events seen `prefix_of` db_events db →
  get_aggregate t seen = Ok (Some a) → get_aggregate t db = Ok (Some cur) → version cur = version a → cur = a.
Proof.
  intros Hs Hd Hp Ha Hc Hv. destruct (faithful_read _ _ _ Hs Ha) as (c & H1 & -> & _ & V1 & _).
  destruct (faithful_read _ _ _ Hd Hc) as (c' & H2 & -> & _ & V2 & _).
  assert (ticket_log t seen = ticket_log t db) as E.
  { apply prefix_same_length; [by apply filter_prefix|]. lia. }
  rewrite E in H1. congruence.
Qed.

Lemma aggregate_from_row_same r k :
  identity (ar_aggregate r) = tk_identity k → aggregate_from_row r k = set_ticket k (ar_aggregate r).
Proof. unfold aggregate_from_row. destruct r as [x ? ? ?]; cbn. destruct x; cbn. by intros ->. Qed.

Lemma set_same_ticket a : set_ticket (ticket a) a = a.
Proof. by destruct a. Qed.

(** The aggregate read after a commit on [mark c], of which [k] is the Ticket row. *)
Lemma stored_step c e r r' row k :
  reduce_event (Some (mark c)) e = Ok r → reduce_event (Some c) e = Ok r' →
  status (aggregate r) = status (aggregate r') → mark (aggregate r) = mark (aggregate r') →
  (terminal_ticket_status (status c) = None → r = r') →
  (terminal_ticket_status (status c) ≠ None → terminal_ticket_status (status (aggregate r)) ≠ None) →
  identity c = tk_identity (ticket c) → k = ticket (mark c) → ar_aggregate row = aggregate r →
  aggregate_from_row row (match terminal_ticket_status (status (aggregate r)) with
                          | Some s => set_ticket_status s k
                          | None => k
                          end) = mark (aggregate r').
Proof.
  intros Hr Hr' Hst Hm Hno Hyes Hid -> Hrow.
  destruct (mark_fields c) as (_ & _ & Mi & _ & Mt). apply step_frame in Hr as (Ei & Et & _ & _).
  rewrite <- Hm. rewrite aggregate_from_row_same.
  - rewrite Hrow, <- Et. unfold mark. destruct (terminal_ticket_status (status (aggregate r))); [done|].
    by rewrite set_same_ticket.
  - rewrite Hrow, Ei, Mi, Hid, <- Mt. by destruct (terminal_ticket_status (status (aggregate r))).
Qed.

(** ** The read as a function of the core *)

Definition read_core (t : str) (c : gmap str TradeTicket * gmap str TradeAggregate * list TradeEvent)
    : result (option TradeAggregate) :=
  match c.1.2 !! t with
  | None => mret None
  | Some a =>
      match c.1.1 !! t with
      | None => Raise (RuntimeError "aggregate exists without immutable Ticket")
      | Some k => mret (Some (set_ticket k (set_identity (tk_identity k) a)))
      end
  end.

Lemma get_aggregate_read t db : get_aggregate t db = read_core t (core db).
Proof.
  unfold get_aggregate, get_ticket, read_core, core; cbn. rewrite !lookup_fmap.
  destruct (db_aggregates db !! t); [|done]. cbn. by destruct (db_tickets db !! t).
Qed.

Lemma ticket_log_app t db db' e :
  db_events db' = db_events db ++ [e] →
  ticket_log t db' = ticket_log t db ++ (if bool_decide (event_ticket_id e = t) then [e] else []).
Proof.
  unfold ticket_log. intros ->. rewrite filter_app. f_equal.
  case_bool_decide as H; [by rewrite filter_cons_True|by rewrite filter_cons_False].
Qed.

(** What a write to the rows of one Ticket comes to. *)
Lemma write_faithful t db db' tickets aggregates e o a k :
  faithful db → event_ticket_id e = t →
  core db' = (tickets, aggregates, db_events db ++ [e]) →
  (∀ i, i ≠ t → tickets !! i = (tr_ticket <$> db_tickets db) !! i) →
  (∀ i, i ≠ t → aggregates !! i = (ar_aggregate <$> db_aggregates db) !! i) →
  replay (ticket_log t db ++ [e]) = Ok (Some o) →
  tickets !! t = Some k → aggregates !! t = Some a →
  set_ticket k (set_identity (tk_identity k) a) = mark o →
  get_aggregate t db' = Ok (Some (mark o)) ∧ (∀ i, i ≠ t → get_aggregate i db' = get_aggregate i db) ∧
  faithful db' ∧ db_events db' = db_events db ++ [e].
Proof.
  intros Hf He Hc Ht Ha Hr Hk Hag Hm.
  assert (db_events db' = db_events db ++ [e]) as Hev by (unfold core in Hc; by injection Hc).
  assert (get_aggregate t db' = Ok (Some (mark o))) as Hread.
  { rewrite get_aggregate_read, Hc. unfold read_core; cbn [fst snd]. by rewrite Hag, Hk, Hm. }
  assert (∀ i, i ≠ t → get_aggregate i db' = get_aggregate i db) as Hothers.
  { intros i Hi. rewrite !get_aggregate_read, Hc. unfold read_core; cbn [fst snd]. by rewrite Ht, Ha. }
  split_and!; try done. intros i. rewrite (ticket_log_app i db db' e Hev). destruct (decide (i = t)) as [->|Hi].
  - rewrite bool_decide_eq_true_2 by done. by exists (Some o).
  - rewrite bool_decide_eq_false_2 by congruence. rewrite app_nil_r, Hothers by done. apply Hf.
Qed.

(** ** The entry lane *)

(** What the effects of a Ticket's event do to the lane. *)
Definition lane_moves (releases : nat) (t : str) (db db' : Database) : Prop :=
  match releases with
  | O => lane_owner db' = lane_owner db
  | _ => lane_owner db = Some t ∧ lane_owner db' = None
  end.

Lemma materialize_keeps_lane a e eff : releases_lane eff = false → respects (keeps lane_owner) (materialize a e eff).
Proof.
  destruct eff; intros E; try discriminate E; unfold materialize; keeps_core.
Qed.

Lemma release_moves_lane t u db db' :
  release_global_lane t db = Ok (u, db') → lane_owner db = Some t ∧ lane_owner db' = None.
Proof.
  unfold release_global_lane. intros H. run_txn H. unfold lane_owner. destruct (db_lane db) as [l|] eqn:Hl; [|done].
  run_txn H. apply negb_false in T as [T1 T2]%andb_true. rewrite T2. split; [|done]. unfold same_opt in T1.
  destruct (el_ticket_id l); [|done]. apply bool_decide_eq_true in T1. congruence.
Qed.

Lemma effects_move_lane a e t effs u db db' :
  Forall (λ eff, ∀ x, eff = ReleaseEntryLane x → x = t) effs →
  for_each (materialize a e) effs db = Ok (u, db') → lane_moves (count releases_lane effs) t db db'.
Proof.
  intros He. revert db. induction He as [|eff effs Hx _ IH]; intros db H; [by apply txn_ret_Ok in H as [_ ->]|].
  cbn [for_each] in H. run_txn H. apply IH in H. destruct (releases_lane eff) eqn:E.
  - destruct eff; try discriminate E. cbn [materialize] in T. apply release_moves_lane in T as [T1 T2].
    rewrite (Hx _ eq_refl) in T1. cbn. split; [done|]. unfold lane_moves in H.
    destruct (count _ _); [congruence|by destruct H].
  - apply materialize_keeps_lane in T; [|done]. unfold keeps in T.
    cbn. rewrite E. cbn. unfold lane_moves in *. by destruct (count _ _); rewrite <- T.
Qed.

(** The lane releases among the effects of an event are the Ticket's own. *)
Lemma step_releases a e r :
  reduce_event (Some a) e = Ok r → Forall (λ eff, ∀ x, eff = ReleaseEntryLane x → x = tid a) (effects r).
Proof.
  intros H. step_outcomes H. all: repeat constructor; intros ? E; first [discriminate E | by injection E].
Qed.

Lemma append_event_lane e : respects (keeps lane_owner) (append_event e).
Proof. unfold append_event. keeps_core. Qed.
Lemma mark_terminal_lane t s at_ms : respects (keeps lane_owner) (mark_terminal t s at_ms).
Proof. unfold mark_terminal. keeps_core. Qed.

Lemma finish_commit_lane e r t u db db' :
  Forall (λ eff, ∀ x, eff = ReleaseEntryLane x → x = t) (effects r) →
  finish_commit e r db = Ok (u, db') → lane_moves (count releases_lane (effects r)) t db db'.
Proof.
  intros He H. unfold finish_commit in H. run_txn H. apply append_event_lane in T. unfold keeps in T.
  assert (keeps lane_owner db1 db') as Hm.
  { destruct (terminal_ticket_status _); [by apply mark_terminal_lane in H|by apply txn_ret_Ok in H as [_ ->]]. }
  unfold keeps in Hm. apply (effects_move_lane _ _ t) in T0; [|done]. unfold lane_moves in *.
  by destruct (count _ _); rewrite Hm, <- T.
Qed.

(** ** Committing an event on an aggregate that some earlier tables held *)

Record commits (t : str) (a : TradeAggregate) (e : TradeEvent) (db db' : Database) : Prop := {
  commits_current : get_aggregate t db = Ok (Some a);
  commits_ticket : tid a = t;
  commits_faithful : faithful db';
  commits_events : db_events db' = db_events db ++ [e];
  commits_others : ∀ i, i ≠ t → get_aggregate i db' = get_aggregate i db;
  commits_step : ∃ r, reduce_event (Some a) e = Ok r ∧ get_aggregate t db' = Ok (Some (mark (aggregate r))) ∧
    lane_moves (count releases_lane (effects r)) t db db'
}.

(** The write of the aggregate, its version checked: the read was current. *)
Lemma stored_current t seen db a e r current u db1 :
  faithful seen → faithful db → db_events seen `prefix_of` db_events db →
  get_aggregate t seen = Ok (Some a) → reduce_event (Some a) e = Ok r →
  store_aggregate e (aggregate r) (version a) current db = Ok (u, db1) →
  get_aggregate t db = Ok (Some a) ∧
  ∃ row, ar_aggregate row = aggregate r ∧ db1 = set_aggregates (<[t := row]> (db_aggregates db)) db.
Proof.
  intros Hs Hd Hp Ha Hr H. destruct (faithful_read _ _ _ Hs Ha) as (_ & _ & _ & <- & _ & Hpos & _).
  pose proof (step_frame _ _ _ Hr) as (Ei & _).
  unfold store_aggregate in H. rewrite (proj2 (Z.eqb_neq _ _)) in H by lia. run_txn H.
  apply save_aggregate_Ok in H as (cur & row & Hc & Hv & _ & _ & ->).
  change (ti_ticket_id (identity (aggregate r))) with (tid (aggregate r)) in *.
  assert (tid (aggregate r) = tid a) as E by (unfold tid; by rewrite Ei). rewrite E in *.
  assert (cur = a) as -> by exact (version_is_current _ _ _ _ _ Hs Hd Hp Ha Hc Hv).
  split; [done|]. eexists. split; [|reflexivity]. reflexivity.
Qed.

(** The tables after the rest of the commit. *)
Lemma finish_core t db row e r k u db' :
  ti_ticket_id (identity (aggregate r)) = t → get_ticket t db = Some k → ar_aggregate row = aggregate r →
  finish_commit e r (set_aggregates (<[t := row]> (db_aggregates db)) db) = Ok (u, db') →
  ∃ tickets, core db' = (tickets, <[t := aggregate r]> (ar_aggregate <$> db_aggregates db), db_events db ++ [e]) ∧
    (∀ i, i ≠ t → tickets !! i = (tr_ticket <$> db_tickets db) !! i) ∧
    tickets !! t = Some (match terminal_ticket_status (status (aggregate r)) with
                         | Some s => set_ticket_status s k
                         | None => k
                         end).
Proof.
  intros Hid Hk Hrow H. apply finish_commit_core in H. rewrite Hid in H.
  change (get_ticket t (set_aggregates _ db)) with (get_ticket t db) in H.
  unfold set_aggregates in H; cbn [db_tickets db_aggregates db_events] in H. rewrite fmap_insert, Hrow in H.
  destruct (terminal_ticket_status _) as [s|].
  - destruct H as (k' & Hk' & ->). assert (k' = k) as -> by congruence. eexists. split; [done|]. split.
    + intros i Hi. by rewrite lookup_insert_ne.
    + by rewrite lookup_insert_eq.
  - rewrite H. eexists. split; [done|]. split; [done|]. by rewrite lookup_fmap.
Qed.

Lemma commit_event_commits t seen db a e u db' :
  faithful seen → faithful db → db_events seen `prefix_of` db_events db →
  get_aggregate t seen = Ok (Some a) → commit_event a e db = Ok (u, db') → commits t a e db db'.
Proof.
  intros Hs Hd Hp Ha H. unfold commit_event in H. run_txn H. rename a0 into r.
  apply commit_reduction_split in H as (current & u1 & db1 & Hcur & Hst & _ & Het & Hfin).
  destruct (faithful_read _ _ _ Hs Ha) as (_ & _ & _ & Ht & _).
  assert (ti_ticket_id (identity (aggregate r)) = t) as Hid.
  { pose proof (step_frame _ _ _ T) as (Ei & _). by rewrite Ei. }
  apply (stored_current t seen) in Hst as (Hc & row & Hrow & ->); [|done..].
  destruct (faithful_read _ _ _ Hd Hc) as (c & Hrep & Hac & _).
  apply get_aggregate_Some in Hc as Hget. destruct Hget as (row' & k & _ & Hk & Hack).
  pose proof (finish_commit_lane _ _ t _ _ _ (eq_rect _ (λ x, Forall (λ eff, ∀ y, eff = ReleaseEntryLane y → y = x) _)
                (step_releases _ _ _ T) _ Ht) Hfin) as Hlane.
  destruct (finish_core _ _ _ _ _ _ _ _ Hid Hk Hrow Hfin) as (tickets & Hcore & Hothers & Hticket).
  pose proof T as T'. rewrite Hac in T'. destruct (reduce_marked _ _ _ T') as (r' & Hr' & Hst' & Hm & Hno & Hyes).
  destruct (replay_frame _ _ Hrep) as (_ & _ & Hci & _).
  assert (replay (ticket_log t db ++ [e]) = Ok (Some (aggregate r'))) as Hnew.
  { apply replay_snoc. by exists (Some c), r'. }
  assert (k = ticket (mark c)) as Hkt by (by rewrite <- Hac, Hack).
  pose proof (stored_step c e r r' row k T' Hr' Hst' Hm Hno Hyes Hci Hkt Hrow) as Hread.
  unfold aggregate_from_row in Hread. rewrite Hrow in Hread.
  destruct (write_faithful t db db' _ _ e (aggregate r') (aggregate r) _ Hd (eq_trans Het Hid) Hcore Hothers
              ltac:(intros i Hi; by rewrite lookup_insert_ne) Hnew Hticket ltac:(by rewrite lookup_insert_eq) Hread)
    as (W1 & W2 & W3 & W4).
  split; try done. exists r. split; [done|]. split; [by rewrite Hm|exact Hlane].
Qed.

(** The event that starts a Ticket. *)
Lemma commit_issue_Ok db e r u db' :
  faithful db → reduce_event None e = Ok r → commit_reduction e r 0 db = Ok (u, db') →
  let t := tid (aggregate r) in
  get_aggregate t db = Ok None ∧ get_aggregate t db' = Ok (Some (aggregate r)) ∧
  (∀ i, i ≠ t → get_aggregate i db' = get_aggregate i db) ∧ faithful db' ∧
  db_events db' = db_events db ++ [e] ∧ lane_owner db' = lane_owner db.
Proof.
  intros Hd Hr H. apply commit_reduction_split in H as (current & u1 & db1 & Hcur & Hst & Hseq & Het & Hfin).
  destruct (issue_Ok _ _ Hr) as (k & Hb & Hi & <- & Hv & Hs & Hopen & Hlane & Hrel).
  unfold store_aggregate in Hst. change (0 =? 0) with true in Hst. cbv match in Hst. run_txn Hst.
  apply negb_false, is_none_true in T. subst current.
  apply insert_row_Ok in T2 as (Htn & _ & ->). unfold add_aggregate in Hst. run_txn Hst.
  apply insert_row_Ok in Hst as (Han & _ & ->).
  unfold tid. rewrite Hi in Hcur, Het, Han |- *.
  set (t := ti_ticket_id (tk_identity (ticket (aggregate r)))) in *.
  destruct (Hd t) as (o & Ho & Hg). rewrite Hcur in Hg. destruct o as [?|]; [done|].
  apply replay_frame in Ho.
  assert (lane_moves (count releases_lane (effects r)) t db db') as Hmoves.
  { refine (finish_commit_lane _ _ _ _ _ _ _ Hfin). apply Forall_forall. intros eff Heff x ->.
    exfalso. clear -Heff Hrel. induction (effects r) as [|y l IH]; [by apply elem_of_nil in Heff|].
    cbn in Hrel. apply elem_of_cons in Heff as [<-|Heff]; [done|]. apply IH; [lia|done]. }
  rewrite Hrel in Hmoves.
  apply finish_commit_core in Hfin. rewrite Hopen in Hfin. unfold set_aggregates, set_tickets in Hfin.
  cbn [db_tickets db_aggregates db_events] in Hfin. rewrite !fmap_insert, Hi in Hfin.
  assert (mark (aggregate r) = aggregate r) as Hmark by (unfold mark; by rewrite Hopen).
  destruct (write_faithful t db db' _ _ e (aggregate r) (aggregate r) (ticket (aggregate r)) Hd Het Hfin)
    as (W1 & W2 & W3 & W4).
  - intros i Hne. by rewrite lookup_insert_ne.
  - intros i Hne. by rewrite lookup_insert_ne.
  - rewrite Ho. apply replay_snoc. by exists None, r.
  - by rewrite lookup_insert_eq.
  - by rewrite lookup_insert_eq.
  - rewrite Hmark, <- Hi. by destruct (aggregate r).
  - rewrite Hmark in W1. done.
Qed.

(** ** Who holds the entry lane *)

(** The lane is held exactly by the Ticket whose aggregate says so. *)
Definition lane_ok (db : Database) : Prop := ∀ t,
  lane_owner db = Some t ↔ ∃ a, get_aggregate t db = Ok (Some a) ∧ entry_lane_held a = true.

Lemma replay_lane es a : replay es = Ok (Some a) → lane_inv a.
Proof.
  revert a. induction es as [|e es IH] using rev_ind; intros a H; [done|].
  apply replay_snoc in H as (o & r & H1 & H2 & [= ->]). destruct o as [b|].
  - apply IH in H1. by destruct (step_lane _ _ _ H1 H2).
  - apply issue_Ok in H2 as (_ & _ & _ & _ & _ & _ & _ & Hh & _). by intros _.
Qed.

Lemma mark_lane a : entry_lane_held (mark a) = entry_lane_held a.
Proof. unfold mark. by destruct (terminal_ticket_status _). Qed.

Lemma read_lane_inv t db a : faithful db → get_aggregate t db = Ok (Some a) → lane_inv a.
Proof.
  intros Hd H. destruct (faithful_read _ _ _ Hd H) as (c & Hr & -> & _). apply replay_lane in Hr.
  unfold lane_inv in *. rewrite mark_lane. by destruct (mark_fields c) as (-> & _).
Qed.

Lemma commits_lane t a e db db' : faithful db → commits t a e db db' → lane_ok db → lane_ok db'.
Proof.
  intros Hd [Hc _ _ _ Ho (r & Hr & Hg & Hm)] L i.
  destruct (step_lane _ _ _ (read_lane_inv _ _ _ Hd Hc) Hr) as [_ Hcount].
  assert (Htt : (∃ b, get_aggregate t db' = Ok (Some b) ∧ entry_lane_held b = true) ↔
                entry_lane_held (aggregate r) = true).
  { rewrite Hg. split; [intros (b & [= <-] & Hb); by rewrite mark_lane in Hb|].
    intros Hb. eexists. split; [done|]. by rewrite mark_lane. }
  unfold lane_moves in Hm. destruct (count releases_lane (effects r)) as [|n].
  - rewrite Hm, (L i). destruct (decide (i = t)) as [->|Hi]; [|by rewrite Ho].
    rewrite Htt, Hc. cbn in Hcount. split.
    + intros (b & [= <-] & Hb). rewrite Hb in Hcount. by destruct (entry_lane_held (aggregate r)).
    + intros Hb. exists a. split; [done|]. rewrite Hb in Hcount. by destruct (entry_lane_held a).
  - destruct Hm as [Hown Hnone]. rewrite Hnone. split; [done|]. destruct (decide (i = t)) as [->|Hi].
    + rewrite Htt. intros Hb. rewrite Hb in Hcount. destruct (entry_lane_held a); cbn in Hcount; lia.
    + rewrite Ho by done. intros Hb. apply L in Hb. congruence.
Qed.

Lemma keeps_whole db db' : keeps whole db db' → core db' = core db ∧ lane_owner db' = lane_owner db.
Proof. intros E. split; [exact (f_equal fst E)|exact (f_equal snd E)]. Qed.

Lemma whole_lane db db' : keeps whole db db' → lane_ok db → lane_ok db'.
Proof. intros [Ec El]%keeps_whole L t. rewrite El, (get_aggregate_core _ _ _ Ec). apply L. Qed.

(** ** Transactions that keep the store faithful

    [h]: the events committed before the reads of the transaction. *)

Definition sound (h : list TradeEvent) {B} (m : txn B) : Prop := ∀ db b db',
  faithful db → h `prefix_of` db_events db → m db = Ok (b, db') →
  faithful db' ∧ db_events db `prefix_of` db_events db' ∧ (lane_ok db → lane_ok db').

Definition knows (h : list TradeEvent) (seen : Database) : Prop :=
  faithful seen ∧ db_events seen `prefix_of` h.
Definition known (h : list TradeEvent) (a : TradeAggregate) : Prop :=
  ∃ t seen, knows h seen ∧ get_aggregate t seen = Ok (Some a).

Lemma sound_bind h {A B} (m : txn A) (f : A → txn B) :
  sound h m → (∀ a, sound h (f a)) → sound h (m ≫= f).
Proof.
  intros Hm Hf db b db' Hd Hh (a & db1 & H1 & H2)%txn_bind_Ok.
  destruct (Hm _ _ _ Hd Hh H1) as (Hd1 & Hp1 & L1).
  destruct (Hf a _ _ _ Hd1 (transitivity Hh Hp1) H2) as (Hd2 & Hp2 & L2). split; [done|].
  split; [by transitivity (db_events db1)|auto].
Qed.

Lemma sound_keeps h {B} (m : txn B) : respects (keeps whole) m → sound h m.
Proof.
  intros Hm db b db' Hd _ H. pose proof (Hm _ _ _ H) as E. pose proof E as [Ec _]%keeps_whole. split; [by eapply faithful_core|]. split; [|by apply whole_lane].
  unfold core in Ec. injection Ec as _ _ ->. done.
Qed.

Lemma sound_commit h a e : known h a → sound h (commit_event a e).
Proof.
  intros (t & seen & [Hs Hp] & Ha) db b db' Hd Hh H.
  pose proof (commit_event_commits t seen db a e b db' Hs Hd (transitivity Hp Hh) Ha H) as C.
  split; [apply C|]. split; [rewrite (commits_events _ _ _ _ _ C); by apply prefix_app_r|by eapply commits_lane].
Qed.

Lemma sound_lift_bind h {A B} (m : result A) (f : A → txn B) :
  (∀ a, m = Ok a → sound h (f a)) → sound h (lift m ≫= f).
Proof. intros Hf db b db' Hd Hh (a & db1 & H1 & H2)%txn_bind_Ok. run_txn H1. by eapply Hf. Qed.

Lemma sound_read h seen t msg {B} (f : TradeAggregate → txn B) :
  knows h seen → (∀ a, known h a → sound h (f a)) → sound h (read_aggregate seen t msg ≫= f).
Proof.
  intros Hs Hf db b db' Hd Hh (a & db1 & H1 & H2)%txn_bind_Ok. unfold read_aggregate in H1. run_txn H1.
  destruct a0 as [a'|]; [|by run_txn H1]. run_txn H1. eapply (Hf a'); [by exists t, seen|done|done|done].
Qed.

Lemma sound_existing h seen t msg {B} (f : TradeAggregate → txn B) :
  knows h seen → (∀ a, known h a → sound h (f a)) → sound h (existing_aggregate seen t msg ≫= f).
Proof.
  intros Hs Hf db b db' Hd Hh (a & db1 & H1 & H2)%txn_bind_Ok. unfold existing_aggregate in H1. run_txn H1.
  destruct a0 as [a'|]; [|by run_txn H1]. run_txn H1. eapply (Hf a'); [by exists t, seen|done|done|done].
Qed.

Lemma sound_for_update h t {B} (f : option TradeAggregate → txn B) :
  (∀ a h', h `prefix_of` h' → known h' a → sound h' (f (Some a))) → sound h (f None) →
  sound h (get_for_update t ≫= f).
Proof.
  intros Hf Hn db b db' Hd Hh (o & db1 & H1 & H2)%txn_bind_Ok. run_txn H1. destruct o as [a|].
  - eapply (Hf a (db_events db) Hh); [|done|done|done]. by exists t, db.
  - by eapply Hn.
Qed.

(** Follows a service down to its commits and its writes elsewhere. *)
Ltac sound_service :=
  repeat first
    [ progress intros
    | lazymatch goal with
      | |- sound _ (read_aggregate _ _ _ ≫= _) => apply sound_read; [eassumption|]
      | |- sound _ (existing_aggregate _ _ _ ≫= _) => apply sound_existing; [eassumption|]
      | |- sound _ (get_for_update _ ≫= _) => apply sound_for_update
      | |- sound _ (lift _ ≫= _) => apply sound_lift_bind
      | |- sound _ (commit_event _ _) => apply sound_commit; first [eassumption | eexists _, _; split; eassumption]
      | |- sound _ (_ ≫= _) => apply sound_bind
      | |- sound _ (match ?x with _ => _ end) => destruct x eqn:?
      | |- sound _ (let _ := _ in _) => cbv zeta
      end
    | solve [apply sound_keeps; keeps_core] ].
