(* ===== verification/SystemFacts.v ===== *)
(** * Every service keeps the store faithful *)

From stdpp Require Import gmap.
From S2P Require Import Prelude PyString PyDecimal Identities Ticket VenueTruth.
From S2P Require Import ExitPolicy Control.
From S2P Require Import Capacity Admission Dispatch VacuumLateFill Events Aggregate Reducer Lifecycle LifecycleInvariants.
From S2P Require Import Commands Database OwnerState UnitOfWork Dispatcher UnknownOutcomes Reconcile IssueTicket.
From S2P Require Import Drain Health System DatabaseFacts StoreFacts.

#[export] Hint Unfold release_exposure_of supersede_for_vacuum still_unknown identity_incident
  open_incident_of_kind record_late_fill_incident resolve_open_of_kind resolve_post_fill_retry_incidents
  commit_stress assess_stress existing_aggregate commit_next supersede_or_wait_pre_dispatch commit_drain
  record_post_absence_contradiction zero_fill_checks late_fill_monitors : services.

Section sound.
Context (h : list TradeEvent) (seen : Database) (Hseen : knows h seen).

Lemma expire_one_claim_sound locked request : sound h (expire_one_claim seen locked request).
Proof. unfold expire_one_claim. sound_service. Qed.
Lemma claim_next_sound locked vacuum_of request : sound h (claim_next seen locked vacuum_of request).
Proof. unfold claim_next, supersede_for_vacuum. sound_service. Qed.
Lemma record_dispatch_result_sound c worker r : sound h (record_dispatch_result seen c worker r).
Proof. unfold record_dispatch_result. sound_service. Qed.
Lemma record_recovery_sound i d : sound h (record_recovery seen i d).
Proof. unfold record_recovery, still_unknown. sound_service. Qed.
Lemma record_leverage_truth_sound i t : sound h (record_leverage_truth seen i t).
Proof. unfold record_leverage_truth. sound_service. Qed.

Lemma record_preflight_refusal_sound vacuum_of c worker now_ms p :
  sound h (record_preflight_refusal seen vacuum_of c worker now_ms p).
Proof. unfold record_preflight_refusal, supersede_for_vacuum. sound_service. Qed.
Lemma request_exit_sound i reason at_ms : sound h (request_exit seen i reason at_ms).
Proof. unfold request_exit, commit_next. sound_service. Qed.
Lemma settle_ticket_sound i at_ms : sound h (settle_ticket seen i at_ms).
Proof. unfold settle_ticket, commit_next. sound_service. Qed.
Lemma record_trade_review_sound i r o at_ms : sound h (record_trade_review seen i r o at_ms).
Proof. unfold record_trade_review, commit_next. sound_service. Qed.
Lemma revise_trade_review_sound i r p o at_ms : sound h (revise_trade_review seen i r p o at_ms).
Proof. unfold revise_trade_review, commit_next. sound_service. Qed.
Lemma maintain_ticket_lifecycle_sound profile_of i f now_ms :
  sound h (maintain_ticket_lifecycle seen profile_of i f now_ms).
Proof. unfold maintain_ticket_lifecycle, commit_next. sound_service. Qed.
Lemma reconcile_ticket_sound i s : sound h (reconcile_ticket i s).
Proof. unfold reconcile_ticket. sound_service. Qed.
Lemma reconcile_post_fill_stress_sound account rules at_ms i :
  sound h (reconcile_post_fill_stress account rules at_ms i).
Proof. unfold reconcile_post_fill_stress, assess_stress, commit_stress. sound_service. Qed.
Lemma drain_ticket_sound v fraction_of i s now_ms : sound h (drain_ticket v fraction_of i s now_ms).
Proof. unfold drain_ticket, supersede_or_wait_pre_dispatch, commit_drain. sound_service. Qed.
Lemma record_late_fill_sound certified v now_ms w a i c p t d :
  sound h (record_late_fill certified v now_ms w a i c p t d).
Proof. unfold record_late_fill. sound_service. Qed.
End sound.

(** The services that only write elsewhere. *)
Lemma record_post_fill_stress_retry_whole i s now_ms due :
  respects (keeps whole) (record_post_fill_stress_retry i s now_ms due).
Proof. unfold record_post_fill_stress_retry. keeps_core. Qed.
Lemma record_lifecycle_facts_failure_whole i e now_ms due :
  respects (keeps whole) (record_lifecycle_facts_failure i e now_ms due).
Proof. unfold record_lifecycle_facts_failure. keeps_core. Qed.
Lemma resolve_lifecycle_facts_failure_whole i now_ms : respects (keeps whole) (resolve_lifecycle_facts_failure i now_ms).
Proof. unfold resolve_lifecycle_facts_failure. keeps_core. Qed.
Lemma runtime_writer_is_certified_whole c commit schema at_ms :
  respects (keeps whole) (runtime_writer_is_certified c commit schema at_ms).
Proof. unfold runtime_writer_is_certified. keeps_core. Qed.

Lemma claim_next_routine_whole locked w now_ms lease :
  respects (keeps whole) (claim_next_routine_reconciliation_work locked w now_ms lease).
Proof.
  intros db b db' H. unfold claim_next_routine_reconciliation_work in H. run_txn H.
  destruct (next_due _ _ _ _ _) as [i|]; run_txn H; [|done]. destruct (_ =? 1); run_txn H; core_leaf.
Qed.

(** A lane that is not claimed is claimed by the Ticket that is issued. *)
Lemma claim_global_lane_Ok t signal owner at_ms lease v u db db' :
  claim_global_lane t signal owner at_ms lease v db = Ok (u, db') →
  lane_owner db = None ∧ lane_owner db' = Some t ∧ core db' = core db.
Proof.
  unfold claim_global_lane. intros H. run_txn H. unfold lane_owner. destruct (db_lane db) as [l|] eqn:Hl; [|done].
  run_txn H. apply orb_false in T as [T _]. by rewrite T.
Qed.

Lemma issue_writes_sound h claim now_ms owner t x v : sound h (issue_writes claim now_ms owner t x v).
Proof.
  unfold issue_writes. cbv zeta.
  do 3 (apply sound_bind; [apply sound_keeps; keeps_core|intros _]).
  intros db b db' Hd _ H. run_txn H. apply claim_global_lane_Ok in T as (L0 & L1 & Ec).
  assert (faithful db0) as Hd0 by (by eapply faithful_core).
  destruct (commit_issue_Ok _ _ _ _ _ Hd0 T1 H) as (Hn & Hs & Ho & Hf & Hev & Hl).
  assert (db_events db0 = db_events db) as Eev by (unfold core in Ec; by injection Ec).
  split; [done|]. split; [rewrite Hev, Eev; by apply prefix_app_r|]. intros L i.
  destruct (issue_Ok _ _ T1) as (k & Hb & Hi & _ & _ & _ & _ & Hh & _).
  assert (tid (aggregate a1) = ti_ticket_id (tk_identity t)) as Ht.
  { unfold tid. rewrite Hi. apply validate_event_body in T0. rewrite Hb in T0. cbn in T0. congruence. }
  rewrite Hl, L1, <- Ht. destruct (decide (i = tid (aggregate a1))) as [->|Hne].
  - split; [|done]. intros _. by exists (aggregate a1).
  - split; [congruence|]. rewrite Ho, (get_aggregate_core _ _ _ Ec) by done. intros Hx. apply L in Hx. congruence.
Qed.
Lemma lock_global_lane_whole : respects (keeps whole) lock_global_lane.
Proof.
  intros db l db' H. unfold lock_global_lane in H. run_txn H. unfold keeps, whole, lane_owner.
  destruct (db_lane db) as [x|] eqn:E; run_txn H; cbn; by rewrite ?E.
Qed.
Lemma issue_ticket_txn_sound h f claim now_ms owner : sound h (issue_ticket_txn f claim now_ms owner).
Proof.
  unfold issue_ticket_txn. apply sound_lift_bind. intros t _. cbv zeta.
  apply sound_bind; [apply sound_keeps, lock_global_lane_whole|]. intros lane. sound_service. apply issue_writes_sound.
Qed.

(** Every transaction over past tables. *)
Lemma perform_sound h seen t : knows h seen → sound h (perform seen t).
Proof.
  intros Hs. unfold perform, silently. destruct t; apply sound_bind;
    try (solve [intros; apply sound_keeps; keeps_core]).
  all: first
    [ solve [eauto using expire_one_claim_sound, claim_next_sound, record_dispatch_result_sound,
        record_preflight_refusal_sound, record_recovery_sound, record_leverage_truth_sound]
    | solve [eauto using reconcile_ticket_sound, reconcile_post_fill_stress_sound, request_exit_sound,
        settle_ticket_sound, record_trade_review_sound, revise_trade_review_sound, maintain_ticket_lifecycle_sound]
    | solve [eauto using issue_ticket_txn_sound, drain_ticket_sound, record_late_fill_sound]
    | solve [apply sound_keeps; auto using record_post_fill_stress_retry_whole, record_lifecycle_facts_failure_whole,
        resolve_lifecycle_facts_failure_whole, runtime_writer_is_certified_whole, claim_next_routine_whole] ].
Qed.
