(* ===== verification/QueueFacts.v ===== *)
(** * The queue of commands

    A command is written once, under an identity of its own, and its columns
    other than the outcome never change; once claimed it is never prepared
    again, and no transaction deletes it. *)

From stdpp Require Import gmap.
From S2P Require Import Prelude PyString PyDecimal Identities Ticket VenueTruth.
From S2P Require Import ExitPolicy Control.
From S2P Require Import Capacity Admission Dispatch VacuumLateFill Events Aggregate Reducer Lifecycle.
From S2P Require Import Commands Database OwnerState UnitOfWork Dispatcher UnknownOutcomes Reconcile IssueTicket.
From S2P Require Import Drain Health System DatabaseFacts StoreFacts SystemFacts.
#[local] Open Scope Z_scope.

(** The kinds a Ticket orders once. *)
Definition ordered_once (k : ExchangeCommandKind) : bool :=
  bool_decide (k ∈ [SET_LEVERAGE; ENTRY; INITIAL_STOP; CONTROLLED_FLATTEN]).

Record row_ok (k : str) (r : CommandRow) : Prop := {
  row_key : cw_command_id r = k;
  row_stripped : strip k = k;
  row_single : ordered_once (cw_command_kind r) = true → cw_generation r = 1
}.

(** The tables as the queue sees them. *)
Definition queue (db : Database) : gmap str CommandRow * gmap str TicketIdentity :=
  (db_commands db, (λ r, tk_identity (tr_ticket r)) <$> db_tickets db).

Record queue_ok (q : gmap str CommandRow * gmap str TicketIdentity) : Prop := {
  queue_rows : ∀ k r, q.1 !! k = Some r → row_ok k r;
  queue_unique : ∀ k k' r r', q.1 !! k = Some r → q.1 !! k' = Some r' → cw_ticket_id r = cw_ticket_id r' →
    cw_command_kind r = cw_command_kind r' → cw_generation r = cw_generation r' → k = k';
  queue_tickets : ∀ k i, q.2 !! k = Some i → ti_ticket_id i = k
}.

(** Only the ENTRY side of a Ticket is ever superseded before it is claimed. *)
Definition entry_side (k : ExchangeCommandKind) : bool := bool_decide (k ∈ [SET_LEVERAGE; ENTRY]).

(** A prepared command that was due before [from_ms]. *)
Definition overdue (from_ms : Z) (r : CommandRow) : Prop :=
  cw_status r = PREPARED ∧ entry_side (cw_command_kind r) = false ∧ cw_deadline_at_ms r <= from_ms.

Section advance.
Context (from_ms : Z).

(** What may become of a command in transactions whose claims are at [from_ms]
    or later. *)
Record row_advances (r r' : CommandRow) : Prop := {
  same_id : cw_command_id r' = cw_command_id r;
  same_ticket : cw_ticket_id r' = cw_ticket_id r;
  same_kind : cw_command_kind r' = cw_command_kind r;
  same_generation : cw_generation r' = cw_generation r;
  stays_claimed : cw_status r ≠ PREPARED → cw_status r' ≠ PREPARED;
  stays_overdue : overdue from_ms r → r' = r
}.
#[local] Instance row_advances_preorder : PreOrder row_advances.
Proof.
  split.
  - intros r. by split.
  - intros r1 r2 r3 [? ? ? ? ? Ho] [? ? ? ? ? Ho']. split; try congruence; [auto|].
    intros H. pose proof (Ho H) as ->. by apply Ho'.
Qed.

Definition commands_advance (t t' : gmap str CommandRow) : Prop :=
  ∀ k r, t !! k = Some r → ∃ r', t' !! k = Some r' ∧ row_advances r r'.

Definition queue_step (db db' : Database) : Prop :=
  queue_ok (queue db) → queue_ok (queue db') ∧ commands_advance (db_commands db) (db_commands db').
#[local] Instance queue_step_preorder : PreOrder queue_step.
Proof.
  split.
  - intros db H. split; [done|]. intros k r Hr. by exists r.
  - intros d1 d2 d3 H12 H23 H1. destruct (H12 H1) as [H2 A12]. destruct (H23 H2) as [H3 A23]. split; [done|].
    intros k r Hr. destruct (A12 k r Hr) as (r2 & Hr2 & Ha). destruct (A23 k r2 Hr2) as (r3 & Hr3 & Hb).
    exists r3. split; [done|]. by transitivity r2.
Qed.

Lemma queue_step_keeps db db' : keeps queue db db' → queue_step db db'.
Proof.
  unfold keeps, queue_step. intros E H. rewrite E. split; [done|]. unfold queue in E. injection E as -> _.
  intros k r Hr. by exists r.
Qed.

(** Rows rewritten in place. *)
Lemma queue_step_update c v db :
  (∀ k r, db_commands db !! k = Some r → c k r = true → row_advances r (v r)) →
  queue_step db (set_commands (update_where c v (db_commands db)) db).
Proof.
  intros Hv H. assert (commands_advance (db_commands db) (update_where c v (db_commands db))) as A.
  { intros k r Hr. rewrite update_where_lookup, Hr. cbn. exists (if c k r then v r else r). split; [done|].
    destruct (c k r) eqn:E; [by eapply Hv|done]. }
  split; [|done].
  assert (∀ k r', update_where c v (db_commands db) !! k = Some r' →
            ∃ r, db_commands db !! k = Some r ∧ row_advances r r') as B.
  { intros k r' Hr'. rewrite update_where_lookup in Hr'. destruct (db_commands db !! k) as [r|] eqn:Hr; [|done].
    injection Hr' as <-. exists r. split; [done|]. destruct (c k r) eqn:E; [by eapply Hv|done]. }
  destruct H as [H1 H2 H3]. unfold queue, set_commands in *; cbn in *. split; [| |done].
  - intros k r' (r & Hr & [E1 E2 E3 E4 _ _])%B. destruct (H1 k r Hr) as [K S G]. split; cbn in *; [congruence|done|].
    rewrite E3, E4. done.
  - intros k k' r1 r2 (r & Hr & [E1 E2 E3 E4 _ _])%B (r' & Hr' & [E1' E2' E3' E4' _ _])%B T K G.
    apply (H2 k k' r r' Hr Hr'); congruence.
Qed.

(** A new command. *)
Lemma add_command_queue c :
  strip (ec_command_id c) = ec_command_id c → (ordered_once (ec_kind c) = true → ec_generation c = 1) →
  respects queue_step (add_command c).
Proof.
  intros Hs Hg db u db' (Hn & Hc & ->)%insert_row_Ok [H1 H2 H3]. unfold queue, set_commands in *; cbn in *.
  split.
  - split; cbn; [| |done].
    + intros k r [[<- <-]|[_ Hr]]%lookup_insert_Some; [by split|by apply H1].
    + assert (∀ k r, db_commands db !! k = Some r → cw_ticket_id r = ti_ticket_id (ec_ticket_identity c) →
                cw_command_kind r = ec_kind c → cw_generation r = ec_generation c → False) as Hdiff.
      { intros k r Hr T K G. specialize (Hc k r Hr). apply orb_false in Hc as [_ Hc].
        rewrite !bool_decide_eq_true_2 in Hc by done. rewrite G, Z.eqb_refl in Hc. done. }
      intros k k' r r' [[<- <-]|[_ Hr]]%lookup_insert_Some [[<- <-]|[_ Hr']]%lookup_insert_Some; cbn; intros T K G;
        [done|exfalso; by eapply (Hdiff k' r')|exfalso; by eapply (Hdiff k r)|by apply (H2 k k' r r')].
  - intros k r Hr. exists r. split; [|done]. rewrite lookup_insert_ne; [done|]. intros <-. congruence.
Qed.

Lemma add_ticket_queue t : respects queue_step (add_ticket t).
Proof.
  intros db u db' (Hn & _ & ->)%insert_row_Ok [H1 H2 H3]. unfold queue, set_tickets in *; cbn in *.
  split; [|intros k r Hr; by exists r]. split; cbn; [done|done|]. rewrite fmap_insert.
  intros k i [[<- <-]|[_ Hr]]%lookup_insert_Some; [done|by apply H3].
Qed.

End advance.

#[export] Existing Instances row_advances_preorder queue_step_preorder.
#[export] Hint Resolve add_ticket_queue : respects.

Lemma mark_terminal_keeps t s at_ms : respects (keeps queue) (mark_terminal t s at_ms).
Proof.
  apply respects_update_one. intros db. unfold keeps, queue, set_tickets; cbn.
  by rewrite fmap_update_where by (by intros []).
Qed.

(** ** The builders *)

Definition well_built (c : ExchangeCommand) : Prop :=
  strip (ec_command_id c) = ec_command_id c ∧ (ordered_once (ec_kind c) = true → ec_generation c = 1).

Lemma validate_command_frame c c' :
  validate_ExchangeCommand c = Ok c' →
  ec_command_id c' = strip (ec_command_id c) ∧ ec_kind c' = ec_kind c ∧ ec_generation c' = ec_generation c ∧
  ec_ticket_identity c' = ec_ticket_identity c ∧ ec_status c' = ec_status c ∧ ec_payload c' = ec_payload c.
Proof.
  unfold validate_ExchangeCommand. rewrite bind_Ok. intros (_ & _ & H). cbv zeta in H.
  apply bind_Ok in H as (_ & _ & [= <-]). done.
Qed.

Lemma validate_well_built c c' :
  (ordered_once (ec_kind c) = true → ec_generation c = 1) → validate_ExchangeCommand c = Ok c' → well_built c'.
Proof.
  intros Hg H. apply validate_command_frame in H as (E1 & E2 & E3 & _). unfold well_built. rewrite E1, E2, E3.
  split; [apply strip_idemp|done].
Qed.

Lemma prepare_queue from_ms m : (∀ c, m = Ok c → well_built c) → respects (queue_step from_ms) (prepare m).
Proof.
  intros Hm. unfold prepare. apply respects_lift_bind. intros c Hc. destruct (Hm c Hc). by apply add_command_queue.
Qed.

Lemma aggregate_command_built a k g p at_ms c :
  (ordered_once k = true → g = 1) → aggregate_command a k g p at_ms = Ok c → well_built c.
Proof.
  unfold aggregate_command. intros Hg H. apply bind_Ok in H as (i & _ & H). apply bind_Ok in H as (j & _ & H).
  refine (validate_well_built _ _ _ H). exact Hg.
Qed.
Lemma order_command_built a k g p at_ms c :
  (ordered_once k = true → g = 1) → order_command a k g p at_ms = Ok c → well_built c.
Proof.
  unfold order_command. intros Hg H. apply bind_Ok in H as (q & _ & H).
  exact (aggregate_command_built _ _ _ _ _ _ Hg H).
Qed.
Lemma cancel_command_built a o n p v g at_ms c :
  cancel_protection_command a o n p v g at_ms = Ok c → well_built c.
Proof.
  unfold cancel_protection_command. intros H. apply bind_Ok in H as (q & _ & H).
  refine (aggregate_command_built _ _ _ _ _ _ _ H). discriminate.
Qed.
Lemma entry_command_built t d at_ms c : entry_command t d at_ms = Ok c → well_built c.
Proof.
  unfold entry_command. intros H. do 3 apply bind_Ok in H as (? & _ & H).
  refine (validate_well_built _ _ _ H). intros _. reflexivity.
Qed.
Lemma set_leverage_command_built t s d at_ms c : set_leverage_command t s d at_ms = Ok c → well_built c.
Proof.
  unfold set_leverage_command. intros H. do 2 apply bind_Ok in H as (? & _ & H).
  refine (validate_well_built _ _ _ H). intros _. reflexivity.
Qed.

(** ** What leaves the queue alone *)

Lemma respects_weaken (R R' : relation Database) {B} (m : txn B) :
  (∀ d d', R d d' → R' d d') → respects R m → respects R' m.
Proof. intros HR Hm db b db' H. apply HR. by eapply Hm. Qed.

(** A condition on the outcome of a command that no prepared command meets. *)
Ltac refuse_overdue Hc :=
  let Ho := fresh "Ho" in intros Ho; exfalso; destruct Ho as [Ho _]; cbn in Ho; revert Hc;
  unfold with_key, unknown_cancel_of, claimed_by, has_status; cbn; rewrite Ho;
  rewrite ?andb_false_r; cbn; rewrite ?andb_false_r; discriminate.

Ltac queue_leaf :=
  first [reflexivity
        | unfold keeps, queue, set_tickets; cbn; rewrite fmap_update_where by (by intros []); reflexivity
        | apply queue_step_keeps; reflexivity
        | apply queue_step_keeps; unfold keeps, queue, set_tickets; cbn;
          rewrite fmap_update_where by (by intros []); reflexivity
        | apply queue_step_update; intros k [] _ Hc; split; cbn in *; try done; try naive_solver; refuse_overdue Hc ].
Ltac keeps_queue := autounfold with services; operation queue_leaf.

Lemma save_if_changed_queue from_ms m : respects (queue_step from_ms) (save_if_changed m).
Proof. keeps_queue. Qed.
#[export] Hint Resolve save_if_changed_queue : respects.

(** The command of an effect is well built. *)
Ltac built_leaf :=
  apply prepare_queue; intros ?c ?Hc;
  unfold initial_stop_command, exit_command, take_profit_command, protection_replacement_command,
    controlled_flatten_command in *;
  lazymatch goal with
  | H : entry_command _ _ _ = Ok _ |- _ => exact (entry_command_built _ _ _ _ H)
  | H : set_leverage_command _ _ _ _ = Ok _ |- _ => exact (set_leverage_command_built _ _ _ _ _ H)
  | H : cancel_protection_command _ _ _ _ _ _ _ = Ok _ |- _ => exact (cancel_command_built _ _ _ _ _ _ _ _ H)
  | H : order_command _ _ _ _ _ = Ok _ |- _ =>
      refine (order_command_built _ _ _ _ _ _ _ H); first [intros _; reflexivity | discriminate]
  end.

Lemma materialize_queue from_ms a e eff : respects (queue_step from_ms) (materialize a e eff).
Proof.
  destruct eff; cbn [materialize];
    repeat first
      [ progress intros
      | lazymatch goal with
        | |- respects _ (prepare _) => built_leaf
        | |- respects _ (lift _ ≫= _) => apply respects_lift_bind
        | |- respects _ (_ ≫= _) => apply respects_bind
        | |- respects _ (match ?x with _ => _ end) => destruct x
        end
      | solve [keeps_queue] ].
Qed.
#[export] Hint Resolve materialize_queue add_ticket_queue : respects.

Lemma mark_terminal_queue from_ms t s at_ms : respects (queue_step from_ms) (mark_terminal t s at_ms).
Proof. apply (respects_weaken (keeps queue)); [apply queue_step_keeps|apply mark_terminal_keeps]. Qed.
Lemma save_aggregate_queue from_ms a v at_ms : respects (queue_step from_ms) (save_aggregate a v at_ms).
Proof. unfold save_aggregate. keeps_queue. Qed.
Lemma append_event_queue from_ms e : respects (queue_step from_ms) (append_event e).
Proof. unfold append_event. keeps_queue. Qed.
Lemma add_aggregate_queue from_ms a at_ms : respects (queue_step from_ms) (add_aggregate a at_ms).
Proof. unfold add_aggregate. keeps_queue. Qed.
#[export] Hint Resolve mark_terminal_queue save_aggregate_queue append_event_queue add_aggregate_queue : respects.

Lemma commit_reduction_queue from_ms e r v : respects (queue_step from_ms) (commit_reduction e r v).
Proof. unfold commit_reduction, store_aggregate. keeps_queue. Qed.
#[export] Hint Resolve commit_reduction_queue : respects.
Lemma commit_event_queue from_ms a e : respects (queue_step from_ms) (commit_event a e).
Proof. unfold commit_event. keeps_queue. Qed.
#[export] Hint Resolve commit_event_queue : respects.

(** ** The outcomes of commands *)

Lemma set_outcome_queue from_ms key (c : CommandRow → bool) s res at_ms e :
  s ≠ PREPARED → (∀ r, c r = true → cw_status r ≠ PREPARED) →
  respects (queue_step from_ms) (update_one db_commands set_commands (with_key key c) (outcome_values s res at_ms) e).
Proof.
  intros Hs Hc. apply respects_update_one. intros db. apply queue_step_update. intros k r _ [_ Hr]%andb_true.
  split; try done. intros [Ho _]. by apply Hc in Hr.
Qed.

(** The results a dispatched command can have. *)
Lemma result_event_status c a r e :
  command_result_event c a (order_result r) = Ok e → cr_status r ≠ PREPARED.
Proof.
  unfold command_result_event. intros H E. apply bind_Ok in H as (b & H & _).
  case_bool_decide.
  - cbn in H. rewrite E in H. discriminate H.
  - unfold order_result_body in H. rewrite E in H.
    destruct (ec_kind c); try discriminate H; destruct (ec_payload c) as [p|p|p]; try discriminate H.
    all: first
      [ apply bind_Ok in H as ([[[? ?] ?] ?] & _ & H); discriminate H
      | unfold cancel_result_body in H; apply bind_Ok in H as (? & _ & H); rewrite E in H;
        destruct (cp_purpose p); discriminate H ].
Qed.

Lemma claimed_not_prepared w r : claimed_by w r = true → cw_status r ≠ PREPARED.
Proof. unfold claimed_by, has_status. intros [H _]%andb_true E. rewrite E in H. discriminate H. Qed.

Lemma record_result_queue from_ms i w r :
  cr_status r ≠ PREPARED → respects (queue_step from_ms) (record_result i w r).
Proof. intros H. apply set_outcome_queue; [done|apply claimed_not_prepared]. Qed.
Lemma record_expired_claim_unknown_queue from_ms i r :
  respects (queue_step from_ms) (record_expired_claim_unknown i r).
Proof.
  unfold record_expired_claim_unknown, check. apply respects_lift_bind. intros u H.
  apply raise_if_Ok, negb_false, bool_decide_eq_true in H. apply set_outcome_queue; [by rewrite H|].
  unfold has_status. intros x [Hx _]%andb_true E. rewrite E in Hx. discriminate Hx.
Qed.
#[export] Hint Resolve record_expired_claim_unknown_queue : respects.
#[export] Hint Extern 2 (respects (queue_step _) (record_result _ _ _)) =>
  eapply record_result_queue, result_event_status; eassumption : respects.

Ltac service_queue :=
  respects_with ltac:(first [progress autounfold with services | progress autounfold with repository | queue_leaf]).

(** ** A claim hands over a prepared command *)

Lemma first_by_In {A} (le : A → A → bool) (l : list A) x : first_by le l = Some x → x ∈ l.
Proof.
  unfold first_by. intros H. rewrite <- (sort_by_perm le l). destruct (sort_by le l); [done|].
  injection H as ->. left.
Qed.

Lemma command_rows_lookup r db : r ∈ command_rows db → ∃ k, db_commands db !! k = Some r.
Proof.
  unfold command_rows. intros ([k r'] & -> & H)%list_elem_of_fmap. exists k. by apply elem_of_map_to_list.
Qed.

Lemma load_command_Ok db r c :
  load_command db r = Ok c →
  ∃ t, get_ticket (cw_ticket_id r) db = Some t ∧ ec_command_id c = strip (cw_command_id r) ∧
       ec_kind c = cw_command_kind r ∧ ec_ticket_identity c = tk_identity t ∧ ec_status c = cw_status r ∧
       ec_payload c = cw_request_payload r.
Proof.
  unfold load_command. destruct (get_ticket _ _) as [t|]; [|discriminate]. unfold command_from_row.
  intros (E1 & E2 & E3 & E4 & E5 & E6)%validate_command_frame. exists t. done.
Qed.

(** Every claim is of a command in time. *)
Lemma claim_one_prepared_queue from_ms locked w now_ms lease i kinds :
  from_ms <= now_ms → respects (queue_step from_ms) (claim_one_prepared locked w now_ms lease i kinds).
Proof.
  intros Hnow db o db' H. unfold claim_one_prepared in H. run_txn H.
  destruct (first_by _ _) as [r|] eqn:Hf; [|by run_txn H].
  apply first_by_In, list_elem_of_filter in Hf as [Hc Hr]. apply andb_true in Hc as [Hc _].
  apply command_rows_lookup in Hr as (k & Hr). run_txn H. apply update_one_Ok in T as [_ ->]. intros Hq.
  destruct (queue_rows _ Hq k r Hr) as [Hk _ _]. refine (queue_step_update from_ms _ _ _ _ Hq).
  intros k' r' Hr' [Hk' _]%andb_true. apply bool_decide_eq_true in Hk'. assert (k' = k) as -> by congruence.
  assert (r' = r) as -> by congruence. split; try done. intros (_ & _ & Ho). exfalso.
  unfold claimable in Hc. apply andb_true in Hc as [Hc _]. apply andb_true in Hc as [_ Hc]. lia.
Qed.
#[export] Hint Extern 2 (respects (queue_step _) (claim_one_prepared _ _ _ _ _ _)) =>
  apply claim_one_prepared_queue; lia : respects.

(** A vacuum supersedes commands of the ENTRY side alone. *)
Lemma max_by_In {A} (lt : A → A → bool) (l : list A) x : max_by lt l = Some x → x ∈ l.
Proof.
  unfold max_by. destruct l as [|y l]; [done|]. intros [= <-]. apply elem_of_cons.
  revert y. induction l as [|z l IH]; intros y; cbn; [by left|]. rewrite elem_of_cons.
  destruct (lt y z); [destruct (IH z)|destruct (IH y)]; auto.
Qed.

Lemma map_result_In {A B} (f : A → result B) l l' y : map_result f l = Ok l' → y ∈ l' → ∃ x, x ∈ l ∧ f x = Ok y.
Proof.
  revert l'. induction l as [|x l IH]; intros l' H Hy; cbn in H.
  - injection H as <-. by apply elem_of_nil in Hy.
  - apply bind_Ok in H as (z & Hz & H). apply bind_Ok in H as (l2 & Hl & [= <-]).
    apply elem_of_cons in Hy as [->|Hy]; [exists x; split; [left|done]|].
    destruct (IH _ Hl Hy) as (x' & Hx & E). exists x'. split; [by right|done].
Qed.

Lemma list_for_ticket_row t db commands c :
  list_for_ticket t db = Ok commands → c ∈ commands → queue_ok (queue db) →
  ∃ r, db_commands db !! ec_command_id c = Some r ∧ ec_kind c = cw_command_kind r ∧ cw_ticket_id r = t.
Proof.
  unfold list_for_ticket. intros H Hc Hq. destruct (map_result_In _ _ _ _ H Hc) as (r & Hr & Hl).
  rewrite sort_by_perm in Hr. apply list_elem_of_filter in Hr as [Ht Hr].
  apply command_rows_lookup in Hr as (k & Hr). destruct (queue_rows _ Hq k r Hr) as [Hk Hs _].
  apply load_command_Ok in Hl as (? & _ & E & Ek & _). exists r. by rewrite E, Hk, Hs.
Qed.

Lemma supersede_or_wait_queue from_ms a v now_ms :
  respects (queue_step from_ms) (supersede_or_wait_pre_dispatch a v now_ms).
Proof.
  intros db res db' H Hq. unfold supersede_or_wait_pre_dispatch in H. run_txn H. rename a0 into commands.
  destruct (current_entry_mutation commands) as [c|] eqn:Hc; [|by run_txn H; apply queue_step_keeps].
  destruct (bool_decide _); [|by run_txn H; apply queue_step_keeps].
  apply max_by_In, list_elem_of_filter in Hc as [[Hk _] Hc].
  destruct (list_for_ticket_row _ _ _ _ T Hc Hq) as (r & Hr & Ek & _). run_txn H.
  unfold mark_prepared_superseded in T0. run_txn T0. apply update_one_Ok in T0 as [_ ->].
  match type of H with _ ?d = _ => assert (queue_step from_ms db d) as S1 end.
  { apply queue_step_update. intros k r' Hr' [Hk' _]%andb_true. apply bool_decide_eq_true in Hk'. subst k.
    assert (r' = r) as -> by congruence. split; try done. intros (_ & Ho & _). exfalso.
    apply bool_decide_eq_false in Ho. apply Ho. by rewrite <- Ek. }
  refine (transitivity (R := queue_step from_ms) S1 _ Hq). unfold commit_drain in H. run_txn H.
  by eapply commit_event_queue.
Qed.
#[export] Hint Resolve supersede_or_wait_queue : respects.


(** ** The services *)

Section services.
Context (from_ms : Z) (seen : Database).

Lemma expire_one_claim_queue locked request : respects (queue_step from_ms) (expire_one_claim seen locked request).
Proof. unfold expire_one_claim. service_queue. Qed.
Lemma claim_next_queue locked vacuum_of request :
  from_ms <= dr_now_ms request → respects (queue_step from_ms) (claim_next seen locked vacuum_of request).
Proof. intros Hnow. unfold claim_next. service_queue. Qed.
Lemma record_dispatch_result_queue c worker r : respects (queue_step from_ms) (record_dispatch_result seen c worker r).
Proof. unfold record_dispatch_result. service_queue. Qed.
Lemma record_preflight_refusal_queue vacuum_of c worker now_ms p :
  respects (queue_step from_ms) (record_preflight_refusal seen vacuum_of c worker now_ms p).
Proof. unfold record_preflight_refusal. service_queue. Qed.
Lemma record_recovery_queue i d : respects (queue_step from_ms) (record_recovery seen i d).
Proof. unfold record_recovery. service_queue. Qed.
Lemma record_leverage_truth_queue i t : respects (queue_step from_ms) (record_leverage_truth seen i t).
Proof. unfold record_leverage_truth. service_queue. Qed.
Lemma request_exit_queue i reason at_ms : respects (queue_step from_ms) (request_exit seen i reason at_ms).
Proof. unfold request_exit. service_queue. Qed.
Lemma settle_ticket_queue i at_ms : respects (queue_step from_ms) (settle_ticket seen i at_ms).
Proof. unfold settle_ticket. service_queue. Qed.
Lemma record_trade_review_queue i r o at_ms : respects (queue_step from_ms) (record_trade_review seen i r o at_ms).
Proof. unfold record_trade_review. service_queue. Qed.
Lemma revise_trade_review_queue i r p o at_ms : respects (queue_step from_ms) (revise_trade_review seen i r p o at_ms).
Proof. unfold revise_trade_review. service_queue. Qed.
Lemma maintain_ticket_lifecycle_queue profile_of i f now_ms :
  respects (queue_step from_ms) (maintain_ticket_lifecycle seen profile_of i f now_ms).
Proof. unfold maintain_ticket_lifecycle. service_queue. Qed.
End services.

Lemma reconcile_ticket_queue from_ms i s : respects (queue_step from_ms) (reconcile_ticket i s).
Proof. unfold reconcile_ticket. service_queue. Qed.
Lemma reconcile_post_fill_stress_queue from_ms account rules at_ms i :
  respects (queue_step from_ms) (reconcile_post_fill_stress account rules at_ms i).
Proof. unfold reconcile_post_fill_stress. service_queue. Qed.
Lemma record_post_fill_stress_retry_queue from_ms i s now_ms due :
  respects (queue_step from_ms) (record_post_fill_stress_retry i s now_ms due).
Proof. unfold record_post_fill_stress_retry. service_queue. Qed.
Lemma issue_ticket_txn_queue from_ms f claim now_ms owner : respects (queue_step from_ms) (issue_ticket_txn f claim now_ms owner).
Proof. unfold issue_ticket_txn, issue_writes. service_queue. Qed.
Lemma drain_ticket_queue from_ms v fraction_of i s now_ms : respects (queue_step from_ms) (drain_ticket v fraction_of i s now_ms).
Proof. unfold drain_ticket. service_queue. Qed.
Lemma record_late_fill_queue from_ms certified v now_ms w a i c p t d :
  respects (queue_step from_ms) (record_late_fill certified v now_ms w a i c p t d).
Proof. unfold record_late_fill. service_queue. Qed.
Lemma record_lifecycle_facts_failure_queue from_ms i e now_ms due :
  respects (queue_step from_ms) (record_lifecycle_facts_failure i e now_ms due).
Proof. unfold record_lifecycle_facts_failure. service_queue. Qed.
Lemma resolve_lifecycle_facts_failure_queue from_ms i now_ms :
  respects (queue_step from_ms) (resolve_lifecycle_facts_failure i now_ms).
Proof. unfold resolve_lifecycle_facts_failure. service_queue. Qed.
Lemma runtime_writer_is_certified_queue from_ms c commit schema at_ms :
  respects (queue_step from_ms) (runtime_writer_is_certified c commit schema at_ms).
Proof. unfold runtime_writer_is_certified. service_queue. Qed.
Lemma claim_next_routine_queue from_ms locked w now_ms lease :
  respects (queue_step from_ms) (claim_next_routine_reconciliation_work locked w now_ms lease).
Proof. unfold claim_next_routine_reconciliation_work. service_queue. Qed.
#[export] Hint Resolve expire_one_claim_queue claim_next_queue record_dispatch_result_queue
  record_preflight_refusal_queue record_recovery_queue record_leverage_truth_queue request_exit_queue
  settle_ticket_queue record_trade_review_queue revise_trade_review_queue maintain_ticket_lifecycle_queue
  reconcile_ticket_queue reconcile_post_fill_stress_queue record_post_fill_stress_retry_queue
  issue_ticket_txn_queue drain_ticket_queue record_late_fill_queue record_lifecycle_facts_failure_queue
  resolve_lifecycle_facts_failure_queue runtime_writer_is_certified_queue claim_next_routine_queue : respects.

(** Every transaction advances the queue. *)
Lemma perform_queue from_ms seen t : not_before from_ms t → respects (queue_step from_ms) (perform seen t).
Proof.
  intros Ht. unfold perform, silently.
  destruct t; (apply respects_bind; [typeclasses eauto| |intros; apply respects_ret]);
    try typeclasses eauto; cbn in Ht; service_queue.
Qed.
Lemma some_time t : ∃ from_ms, not_before from_ms t.
Proof. destruct t; try (by exists 0). cbn. by eexists. Qed.

Lemma claim_one_prepared_Some locked w now_ms lease i kinds c db db' :
  claim_one_prepared locked w now_ms lease i kinds db = Ok (Some c, db') → queue_ok (queue db) →
  ∃ r, db_commands db !! ec_command_id c = Some r ∧ claimable now_ms i kinds r = true ∧
       db' = set_commands (<[ec_command_id c := claim_values w lease r]> (db_commands db)) db ∧
       ec_kind c = cw_command_kind r ∧ ti_ticket_id (ec_ticket_identity c) = cw_ticket_id r.
Proof.
  unfold claim_one_prepared. intros H Hq. run_txn H.
  destruct (first_by _ _) as [r|] eqn:Hf; [|by run_txn H].
  apply first_by_In, list_elem_of_filter in Hf as [Hc Hr]. apply andb_true in Hc as [Hc _].
  apply command_rows_lookup in Hr as (k & Hr). destruct (queue_rows _ Hq k r Hr) as [<- Hs _].
  run_txn H. apply update_one_with_key_Ok in T as (r' & Hr' & _ & ->).
  assert (r' = r) as -> by congruence. unfold get_command, set_commands in H; cbn in H.
  rewrite lookup_insert_eq in H. apply bind_Ok in H as (c' & Hl & [= ->]).
  apply load_command_Ok in Hl as (t & Ht & E1 & E2 & E3 & _). cbn in *.
  rewrite E1. fold (strip (cw_command_id r)). rewrite Hs.
  exists r. split; [done|]. split; [done|]. split; [done|]. split; [done|]. rewrite E3.
  apply (queue_tickets _ Hq). cbn. unfold get_ticket in Ht; cbn in Ht. rewrite lookup_fmap.
  destruct (db_tickets db !! cw_ticket_id r) as [tr|]; [|done]. cbn in *. congruence.
Qed.

Lemma perform_claims seen t db c db' :
  perform seen t db = Ok (Some c, db') → queue_ok (queue db) →
  ∃ w lease r, db_commands db !! ec_command_id c = Some r ∧ cw_status r = PREPARED ∧
       db' = set_commands (<[ec_command_id c := claim_values w lease r]> (db_commands db)) db ∧
       ec_kind c = cw_command_kind r ∧ ti_ticket_id (ec_ticket_identity c) = cw_ticket_id r.
Proof.
  unfold perform, silently. intros H Hq. destruct t; try (run_txn H; discriminate).
  run_txn H. destruct a as [|?|c0]; try discriminate. injection H as ->.
  unfold claim_next in T. run_txn T. destruct a as [c'|]; [|by run_txn T].
  pose proof T0 as Hc. run_txn T. destruct (negb _); [by run_txn T|].
  destruct (if bool_decide _ then _ else _); [by run_txn T|]. apply txn_ret_Ok in T as [[= ->] ->].
  unfold read_aggregate in T1. run_txn T1. destruct a0; run_txn T1.
  apply claim_one_prepared_Some in Hc as (r & Hr & Hcl & -> & Hk & Ht); [|done].
  exists (dr_worker_id request), (dr_lease_until_ms request), r. split_and!; try done.
  unfold claimable in Hcl. apply andb_true in Hcl as [Hcl _]. apply andb_true in Hcl as [Hcl _].
  by apply bool_decide_eq_true in Hcl.
Qed.
