(* ===== verification/RunFacts.v ===== *)
(** * What every run preserves

    The tables are faithful, the lane and the queue are kept, and the commands
    that were handed over have their rows.

    Then a Ticket that waits for its initial stop: while that command stays
    prepared, no transaction commits an event of the Ticket. *)

From stdpp Require Import gmap.
From S2P Require Import Prelude PyString PyDecimal Identities Ticket VenueTruth.
From S2P Require Import ExitPolicy Control.
From S2P Require Import Capacity Admission Dispatch Events Aggregate Reducer Lifecycle LifecycleInvariants.
From S2P Require Import Commands Database OwnerState UnitOfWork Dispatcher UnknownOutcomes Reconcile IssueTicket.
From S2P Require Import Drain Health System DatabaseFacts StoreFacts SystemFacts QueueFacts.
From S2P Require Import PostFillRisk.
From S2P Require Import VacuumLateFill.
#[local] Open Scope Z_scope.

(** A command handed to the venue has its row, claimed or past that. *)
Definition handed_over (db : Database) (c : ExchangeCommand) : Prop :=
  ∃ r, db_commands db !! ec_command_id c = Some r ∧ cw_status r ≠ PREPARED ∧ ec_kind c = cw_command_kind r ∧
       ti_ticket_id (ec_ticket_identity c) = cw_ticket_id r.

Record run_ok (past : list Database) (db : Database) (sent : list ExchangeCommand) : Prop := {
  run_faithful : Forall faithful (db :: past);
  run_grows : Forall (λ seen, db_events seen `prefix_of` db_events db) (db :: past);
  run_lane : lane_ok db;
  run_queue : queue_ok (queue db);
  run_sent : Forall (handed_over db) sent;
  run_once : NoDup (ec_command_id <$> sent)
}.

Lemma handed_over_advances from_ms db db' c :
  commands_advance from_ms (db_commands db) (db_commands db') → handed_over db c → handed_over db' c.
Proof.
  intros A (r & Hr & Hs & Hk & Ht). destruct (A _ _ Hr) as (r' & Hr' & [E1 E2 E3 E4 E5 _]). exists r'.
  rewrite E2, E3. auto.
Qed.

Lemma run_invariant dbs sent : run dbs sent → ∃ db past, dbs = db :: past ∧ run_ok past db sent.
Proof.
  induction 1 as [|past db seen t sent c db' _ IH Hseen _ H].
  - exists empty_database, []. split; [done|]. split.
    + constructor; [apply empty_faithful|constructor].
    + by repeat constructor.
    + intros t. split; [done|]. by intros (a & ? & _).
    + by split.
    + constructor.
    + constructor.
  - destruct IH as (db0 & past0 & [= <- <-] & [I1 I2 IL I3 I4 I5]).
    assert (knows (db_events db) seen) as Hk.
    { rewrite Forall_forall in I1. rewrite Forall_forall in I2. split; [by apply I1|by apply I2]. }
    inversion_clear I1 as [|? ? Hd Hpast].
    destruct (perform_sound _ _ t Hk _ _ _ Hd (reflexivity _) H) as (Hd' & Hp & HL).
    destruct (some_time t) as (from_ms & Ht). destruct (perform_queue _ seen t Ht _ _ _ H I3) as [Hq' A]. exists db', (db :: past). split; [done|]. split.
    + by repeat constructor.
    + constructor; [done|]. eapply Forall_impl; [exact I2|]. cbn. intros s Hs. by transitivity (db_events db).
    + by apply HL.
    + done.
    + apply Forall_app_2; [|eapply Forall_impl; [exact I4|]; intros; by eapply handed_over_advances].
      destruct c as [c|]; [|constructor]. constructor; [|constructor].
      destruct (perform_claims _ _ _ _ _ H I3) as (w & lease & r & Hr & Hs & -> & E1 & E2).
      exists (claim_values w lease r). unfold set_commands; cbn. by rewrite lookup_insert_eq.
    + destruct c as [c|]; [|done]. cbn. constructor; [|done]. intros (c' & E & Hc')%list_elem_of_fmap.
      rewrite Forall_forall in I4. destruct (I4 c' Hc') as (r & Hr & Hs & _).
      destruct (perform_claims _ _ _ _ _ H I3) as (w & lease & r' & Hr' & Hs' & _). rewrite E in Hr'. congruence.
Qed.

Lemma run_head db past sent : run (db :: past) sent → run_ok past db sent.
Proof. intros H. by destruct (run_invariant _ _ H) as (? & ? & [= <- <-] & ?). Qed.

(** ** A Ticket that waits for its initial stop

    In [PROTECTION_PENDING] the reducer accepts nothing but the fate of the
    initial stop.  While the command that orders it stays prepared, no transaction
    of the kernel commits an event of the Ticket. *)

Definition is_stop_event (b : EventBody) : bool :=
  match b with
  | InitialStopConfirmed _ _ | InitialStopRejected _ | InitialStopOutcomeUnknown _
  | InitialStopAbsenceConfirmed _ => true
  | _ => false
  end.

Lemma protection_pending_waits a e r :
  status a = PROTECTION_PENDING → reduce_event (Some a) e = Ok r → is_stop_event (ev_body e) = true.
Proof. intros Hs H. step_cases H; try rewrite Hbody; try done; use_status a; discriminate Hs. Qed.

Lemma next_event_body a at_ms b e : next_event a at_ms b = Ok e → ev_body e = normalize_body b.
Proof. apply validate_event_body. Qed.

Lemma normalize_stop b : is_stop_event (normalize_body b) = is_stop_event b.
Proof. by destruct b. Qed.

Lemma next_event_stop a at_ms b e :
  next_event a at_ms b = Ok e → is_stop_event b = false → is_stop_event (ev_body e) = false.
Proof. intros ->%next_event_body. by rewrite normalize_stop. Qed.

(** ** Transactions that leave the Ticket alone *)

Section quiet.
Context (t : str) (a : TradeAggregate) (Hpending : status a = PROTECTION_PENDING).

Definition quiet (h : list TradeEvent) {B} (m : txn B) : Prop := ∀ db b db',
  faithful db → h `prefix_of` db_events db → get_aggregate t db = Ok (Some a) → m db = Ok (b, db') →
  faithful db' ∧ db_events db `prefix_of` db_events db' ∧ get_aggregate t db' = Ok (Some a).

Lemma quiet_bind h {A B} (m : txn A) (f : A → txn B) : quiet h m → (∀ x, quiet h (f x)) → quiet h (m ≫= f).
Proof.
  intros Hm Hf db b db' Hd Hh Hg (x & db1 & H1 & H2)%txn_bind_Ok.
  destruct (Hm _ _ _ Hd Hh Hg H1) as (Hd1 & Hp1 & Hg1).
  destruct (Hf x _ _ _ Hd1 (transitivity Hh Hp1) Hg1 H2) as (Hd2 & Hp2 & Hg2).
  split; [done|]. split; [by transitivity (db_events db1)|done].
Qed.

Lemma quiet_keeps h {B} (m : txn B) : respects (keeps whole) m → quiet h m.
Proof.
  intros Hm db b db' Hd Hh Hg H. destruct (sound_keeps h m Hm _ _ _ Hd Hh H) as (Hd' & Hp & _).
  apply Hm in H as [Ec _]%keeps_whole. split; [done|]. split; [done|]. by rewrite (get_aggregate_core _ _ _ Ec).
Qed.

Lemma quiet_commit h b e :
  known h b → (tid b = t → is_stop_event (ev_body e) = false) → quiet h (commit_event b e).
Proof.
  intros (i & seen & [Hs Hp] & Hb) He db u db' Hd Hh Hg H.
  pose proof (commit_event_commits i seen db b e u db' Hs Hd (transitivity Hp Hh) Hb H) as C.
  destruct C as [C1 C2 C3 C4 C5 (r & C6 & _)]. split; [done|]. split; [rewrite C4; by apply prefix_app_r|].
  destruct (decide (i = t)) as [->|Hi]; [|by rewrite C5].
  exfalso. assert (b = a) as -> by congruence. apply (protection_pending_waits a) in C6; [|done].
  rewrite He in C6 by done. discriminate C6.
Qed.

Lemma quiet_lift_bind h {A B} (m : result A) (f : A → txn B) :
  (∀ x, m = Ok x → quiet h (f x)) → quiet h (lift m ≫= f).
Proof. intros Hf db b db' Hd Hh Hg (x & db1 & H1 & H2)%txn_bind_Ok. run_txn H1. by eapply Hf. Qed.

Lemma quiet_read h seen i msg {B} (f : TradeAggregate → txn B) :
  knows h seen → (∀ x, known h x → tid x = i → quiet h (f x)) → quiet h (read_aggregate seen i msg ≫= f).
Proof.
  intros Hs Hf db b db' Hd Hh Hg (x & db1 & H1 & H2)%txn_bind_Ok. unfold read_aggregate in H1. run_txn H1.
  destruct a0 as [x'|]; [|by run_txn H1]. run_txn H1.
  eapply (Hf x'); [by exists i, seen| |done|done|done|done]. by destruct (faithful_read _ _ _ (proj1 Hs) T) as (_ & _ & _ & ? & _).
Qed.

Lemma quiet_existing h seen i msg {B} (f : TradeAggregate → txn B) :
  knows h seen → (∀ x, known h x → quiet h (f x)) → quiet h (existing_aggregate seen i msg ≫= f).
Proof.
  intros Hs Hf db b db' Hd Hh Hg (x & db1 & H1 & H2)%txn_bind_Ok. unfold existing_aggregate in H1. run_txn H1.
  destruct a0 as [x'|]; [|by run_txn H1]. run_txn H1. eapply (Hf x'); [by exists i, seen|done|done|done|done].
Qed.

Lemma quiet_for_update h i {B} (f : option TradeAggregate → txn B) :
  (∀ x h', h `prefix_of` h' → known h' x → quiet h' (f (Some x))) → quiet h (f None) →
  quiet h (get_for_update i ≫= f).
Proof.
  intros Hf Hn db b db' Hd Hh Hg (o & db1 & H1 & H2)%txn_bind_Ok. run_txn H1. destruct o as [x|].
  - eapply (Hf x (db_events db) Hh); [|done|done|done|done]. by exists i, db.
  - by eapply Hn.
Qed.
End quiet.

(** As [sound_service]; [body] shows that an event is not about the stop. *)
Ltac quiet_service body :=
  repeat first
    [ progress intros
    | lazymatch goal with
      | |- quiet _ _ _ (read_aggregate _ _ _ ≫= _) => apply quiet_read; [eassumption|]
      | |- quiet _ _ _ (existing_aggregate _ _ _ ≫= _) => apply quiet_existing; [eassumption|]
      | |- quiet _ _ _ (get_for_update _ ≫= _) => apply quiet_for_update
      | |- quiet _ _ _ (lift _ ≫= _) => apply quiet_lift_bind
      | |- quiet _ _ _ (commit_event _ _) =>
          apply quiet_commit; [done|first [eassumption | eexists _, _; split; eassumption]|body]
      | |- quiet _ _ _ (_ ≫= _) => apply quiet_bind
      | |- quiet _ _ _ (match ?x with _ => _ end) => destruct x eqn:?
      | |- quiet _ _ _ (let _ := _ in _) => cbv zeta
      end
    | solve [apply quiet_keeps; keeps_core] ].
Ltac plain_body := intros _; eapply next_event_stop; [eassumption|reflexivity].

(** The events the services derive are not about the stop. *)
Ltac derived_body H :=
  repeat match type of H with
  | next_event _ _ _ = Ok _ => fail 1
  | mbind _ _ = Ok _ =>
      let u := fresh "u" in let E := fresh "E" in apply bind_Ok in H as (u & E & H)
  | match ?x with _ => _ end = _ => destruct x
  | Ok (match _ with _ => _ end) = _ => injection H as H
  | mret (match _ with _ => _ end) = _ => injection H as H
  | (let _ := _ in _) = Ok _ => cbv zeta in H
  end;
  first [discriminate H | injection H; clear H; intros; subst].

Lemma maintenance_body a profile f s b : maintenance_of a profile f = Ok (Some (s, b)) → is_stop_event b = false.
Proof.
  unfold maintenance_of, maintain_pre_tp1, maintain_tp1_filled, maintain_runner, exit_for. intros H.
  derived_body H; reflexivity.
Qed.

Lemma reconcile_body a snapshot commands incident s b :
  reconcile_finding a snapshot commands incident = Ok (found s b) → is_stop_event b = false.
Proof.
  unfold reconcile_finding, reconcile_entry, reconcile_residue, reconcile_cancel. intros H.
  derived_body H; reflexivity.
Qed.

Lemma drain_body f e reason : plan_vacuum_ticket_drain f = Ok (drain_event e reason) → is_stop_event (ev_body e) = false.
Proof.
  unfold plan_vacuum_ticket_drain, plan_entry_order, plan_filled. intros H.
  derived_body H; (eapply next_event_stop; [eassumption|reflexivity]).
Qed.

Lemma late_fill_not_stop a c d p t b : late_fill_body a c d p t = Ok b → is_stop_event b = false.
Proof. unfold late_fill_body. intros H. derived_body H; reflexivity. Qed.

Section services.
Context (t : str) (a : TradeAggregate) (Hpending : status a = PROTECTION_PENDING).
Context (h : list TradeEvent) (seen : Database) (Hseen : knows h seen).
#[local] Notation quiet := (quiet t a h).

Lemma claim_next_quiet locked vacuum_of request : quiet (claim_next seen locked vacuum_of request).
Proof. unfold claim_next, supersede_for_vacuum. quiet_service plain_body. Qed.
Lemma record_leverage_truth_quiet i x : quiet (record_leverage_truth seen i x).
Proof. unfold record_leverage_truth. quiet_service plain_body. Qed.
Lemma request_exit_quiet i reason at_ms : quiet (request_exit seen i reason at_ms).
Proof. unfold request_exit, commit_next. quiet_service plain_body. Qed.
Lemma settle_ticket_quiet i at_ms : quiet (settle_ticket seen i at_ms).
Proof. unfold settle_ticket, commit_next. quiet_service plain_body. Qed.
Lemma record_trade_review_quiet i r o at_ms : quiet (record_trade_review seen i r o at_ms).
Proof. unfold record_trade_review, commit_next. quiet_service plain_body. Qed.
Lemma revise_trade_review_quiet i r p o at_ms : quiet (revise_trade_review seen i r p o at_ms).
Proof. unfold revise_trade_review, commit_next. quiet_service plain_body. Qed.
Lemma reconcile_post_fill_stress_quiet account rules at_ms i :
  quiet (reconcile_post_fill_stress account rules at_ms i).
Proof. unfold reconcile_post_fill_stress, assess_stress, commit_stress. quiet_service plain_body. Qed.

Lemma maintain_ticket_lifecycle_quiet profile_of i f now_ms :
  quiet (maintain_ticket_lifecycle seen profile_of i f now_ms).
Proof.
  unfold maintain_ticket_lifecycle, commit_next.
  quiet_service ltac:(intros _; eapply next_event_stop; [eassumption|]; subst; eapply maintenance_body; eassumption).
Qed.
Lemma reconcile_ticket_quiet i s : quiet (reconcile_ticket i s).
Proof.
  unfold reconcile_ticket.
  quiet_service ltac:(intros _; eapply next_event_stop; [eassumption|]; subst; eapply reconcile_body; eassumption).
Qed.
Lemma drain_ticket_quiet v fraction_of i s now_ms : quiet (drain_ticket v fraction_of i s now_ms).
Proof.
  unfold drain_ticket, supersede_or_wait_pre_dispatch, commit_drain.
  quiet_service ltac:(first [plain_body | intros _; subst; eapply drain_body; eassumption]).
Qed.
Lemma record_late_fill_quiet certified v now_ms w x i c p truth d :
  quiet (record_late_fill certified v now_ms w x i c p truth d).
Proof.
  unfold record_late_fill.
  quiet_service ltac:(intros _; eapply next_event_stop; [eassumption|]; eapply late_fill_not_stop; eassumption).
Qed.
End services.

(** A Ticket that is issued is another one. *)
Lemma issue_writes_quiet t a h claim now_ms owner k x v : quiet t a h (issue_writes claim now_ms owner k x v).
Proof.
  unfold issue_writes. cbv zeta. do 3 (apply quiet_bind; [apply quiet_keeps; keeps_core|intros _]).
  intros db b db' Hd _ Hg H. run_txn H. apply claim_global_lane_Ok in T as (_ & _ & Ec).
  assert (faithful db0) as Hd0 by (by eapply faithful_core).
  rewrite <- (get_aggregate_core _ _ _ Ec) in Hg.
  destruct (commit_issue_Ok _ _ _ _ _ Hd0 T1 H) as (Hn & _ & Ho & Hf & Hev & _).
  assert (db_events db0 = db_events db) as Eev by (unfold core in Ec; by injection Ec).
  split; [done|]. split; [rewrite Hev, Eev; by apply prefix_app_r|].
  rewrite Ho; [done|]. intros ->. congruence.
Qed.
Lemma issue_ticket_txn_quiet t a h f claim now_ms owner : quiet t a h (issue_ticket_txn f claim now_ms owner).
Proof.
  unfold issue_ticket_txn. apply quiet_lift_bind. intros k _. cbv zeta.
  apply quiet_bind; [apply quiet_keeps, lock_global_lane_whole|]. intros lane. quiet_service fail.
  apply issue_writes_quiet.
Qed.

(** ** The fate of commands *)

Lemma stop_result_kind c b r e :
  command_result_event c b r = Ok e → is_stop_event (ev_body e) = true → ec_kind c = INITIAL_STOP.
Proof.
  unfold command_result_event. intros H He. apply bind_Ok in H as (body & Hb & H).
  apply next_event_body in H. rewrite H, normalize_stop in He. clear H. case_bool_decide.
  - destruct r as [r|r]; cbn in Hb; [destruct (cr_status r)|]; try discriminate Hb; injection Hb as <-; discriminate He.
  - destruct r as [r|r]; [|discriminate Hb]. unfold order_result_body in Hb.
    destruct (ec_kind c) eqn:Ek; try done; exfalso.
    all: repeat match type of Hb with
    | mbind _ _ = Ok _ => let u := fresh "u" in apply bind_Ok in Hb as (u & _ & Hb)
    | match ?x with _ => _ end = Ok _ => destruct x
    | cancel_result_body _ _ _ = Ok _ => unfold cancel_result_body in Hb
    end.
    all: first [discriminate Hb | injection Hb; intros; subst; discriminate He].
Qed.

Lemma stop_recovery_kind c b d e :
  recovery_event b c d = Ok e → is_stop_event (ev_body e) = true → ec_kind c = INITIAL_STOP.
Proof.
  unfold recovery_event, recovery_body, submitted_body, still_open_body, absent_body, absent_cancel_body.
  intros H He. apply bind_Ok in H as (body & Hb & H). apply next_event_body in H. rewrite H, normalize_stop in He.
  clear H. destruct (ec_kind c) eqn:Ek; try done; exfalso.
  all: repeat match type of Hb with
    | mbind _ _ = Ok _ => let u := fresh "u" in apply bind_Ok in Hb as (u & _ & Hb)
    | match ?x with _ => _ end = Ok _ => destruct x
    end.
  all: first [discriminate Hb | injection Hb; intros; subst; discriminate He].
Qed.

(** The prepared initial stop of the Ticket is its only one. *)
Definition awaits_stop (t k : str) (db : Database) : Prop :=
  ∃ r, db_commands db !! k = Some r ∧ cw_status r = PREPARED ∧ cw_command_kind r = INITIAL_STOP ∧ cw_ticket_id r = t.

Lemma sole_stop t k db k' r' :
  queue_ok (queue db) → awaits_stop t k db → db_commands db !! k' = Some r' → cw_status r' ≠ PREPARED →
  cw_ticket_id r' = t → cw_command_kind r' ≠ INITIAL_STOP.
Proof.
  intros Hq (r & Hr & Hs & Hk & Ht) Hr' Hs' Ht' Hk'.
  assert (k = k') as ->; [|congruence]. apply (queue_unique _ Hq k k' r r'); [done|done|congruence|congruence|].
  rewrite (row_single _ _ (queue_rows _ Hq _ _ Hr)) by (by rewrite Hk).
  by rewrite (row_single _ _ (queue_rows _ Hq _ _ Hr')) by (by rewrite Hk').
Qed.

(** A command read from the tables is not the Ticket's stop, unless prepared. *)
Lemma loaded_not_stop t k db i r c :
  queue_ok (queue db) → awaits_stop t k db → db_commands db !! i = Some r → load_command db r = Ok c →
  ec_status c ≠ PREPARED → ti_ticket_id (ec_ticket_identity c) = t → ec_kind c ≠ INITIAL_STOP.
Proof.
  intros Hq Ha Hr Hl Hs Ht. apply load_command_Ok in Hl as (tk & Htk & _ & -> & Ei & Es & _).
  eapply (sole_stop t k db i r); [done|done|done|congruence|].
  rewrite <- Ht, Ei. symmetry. apply (queue_tickets _ Hq). cbn. unfold get_ticket in Htk. rewrite lookup_fmap.
  destruct (db_tickets db !! cw_ticket_id r); [|done]. cbn in *. congruence.
Qed.

Lemma get_command_row i db c :
  get_command i db = Ok (Some c) → ∃ r, db_commands db !! i = Some r ∧ load_command db r = Ok c.
Proof.
  unfold get_command. destruct (db_commands db !! i) as [r|]; [|done]. intros H. exists r. split; [done|].
  apply bind_Ok in H as (c' & H & [= ->]). done.
Qed.

Lemma get_one_expired_claim_row locked now_ms i kinds db c :
  get_one_expired_claim locked now_ms i kinds db = Ok (Some c) →
  ∃ j r, db_commands db !! j = Some r ∧ load_command db r = Ok c ∧
    (queue_ok (queue db) → cw_status r = Commands.CLAIMED).
Proof.
  unfold get_one_expired_claim. destruct (first_by _ _) as [x|] eqn:Hf; [|done].
  apply first_by_In, list_elem_of_filter in Hf as [Hc Hx]. apply command_rows_lookup in Hx as (j & Hx).
  intros (r & Hr & Hl)%get_command_row. exists (cw_command_id x), r. split; [done|]. split; [done|].
  intros Hq. destruct (queue_rows _ Hq j x Hx) as [Hk _ _]. rewrite Hk in Hr. assert (r = x) as -> by congruence.
  apply andb_true in Hc as [Hc _]. unfold expired_claim in Hc. apply andb_true in Hc as [Hc _].
  apply andb_true in Hc as [Hc _]. by apply bool_decide_eq_true in Hc.
Qed.

Section fate.
Context (t k : str) (a : TradeAggregate) (Hpending : status a = PROTECTION_PENDING).
Context (h : list TradeEvent) (seen : Database) (Hseen : knows h seen).
Context (db : Database) (Hd : faithful db) (Hh : h `prefix_of` db_events db).
Context (Hg : get_aggregate t db = Ok (Some a)) (Hq : queue_ok (queue db)) (Ha : awaits_stop t k db).

Definition left_alone (db' : Database) : Prop :=
  faithful db' ∧ db_events db `prefix_of` db_events db' ∧ get_aggregate t db' = Ok (Some a).

(** The rest of a service after the command [c] was read. *)
Ltac rest_quiet H2 body :=
  cbn beta iota in H2;
  match type of H2 with ?m ?d = _ => assert (quiet t a h m) as Hm; [quiet_service body|exact (Hm _ _ _ Hd Hh Hg H2)] end.
Ltac fate_body Hne :=
  intros ?Ht; apply not_true_is_false; intros ?Hx; apply Hne;
    [congruence|first [eapply stop_result_kind; eassumption | eapply stop_recovery_kind; eassumption]].

Lemma expire_one_claim_quiet locked request b db' :
  expire_one_claim seen locked request db = Ok (b, db') → left_alone db'.
Proof.
  unfold expire_one_claim. intros (o & d & [H1 ->]%query_Ok & H2)%txn_bind_Ok. destruct o as [c|].
  - destruct (get_one_expired_claim_row _ _ _ _ _ _ H1) as (j & r & Hr & Hl & Hs).
    pose proof (load_command_Ok _ _ _ Hl) as (_ & _ & _ & _ & _ & Es & _).
    assert (Hne : ti_ticket_id (ec_ticket_identity c) = t → ec_kind c ≠ INITIAL_STOP).
    { apply (loaded_not_stop t k db j r c Hq Ha Hr Hl). rewrite Es, Hs by done. discriminate. }
    rest_quiet H2 ltac:(fate_body Hne).
  - cbn in H2. apply txn_ret_Ok in H2 as [_ ->]. by split_and!.
Qed.

Lemma record_recovery_quiet i d b db' :
  record_recovery seen i d db = Ok (b, db') → left_alone db'.
Proof.
  unfold record_recovery. intros (c & d1 & H1 & H2)%txn_bind_Ok. unfold still_unknown in H1. run_txn H1.
  destruct a0 as [c0|]; [|by run_txn H1]. run_txn H1. apply get_command_row in T as (r & Hr & Hl).
  apply negb_false, bool_decide_eq_true in T0.
  assert (Hne : ti_ticket_id (ec_ticket_identity c0) = t → ec_kind c0 ≠ INITIAL_STOP).
  { apply (loaded_not_stop t k _ i r c0 Hq Ha Hr Hl). rewrite T0. discriminate. }
  rest_quiet H2 ltac:(fate_body Hne).
Qed.

(** A command that was handed over is not the prepared stop. *)
Lemma handed_not_stop c :
  handed_over db c → ti_ticket_id (ec_ticket_identity c) = t → ec_kind c ≠ INITIAL_STOP.
Proof.
  intros (r & Hr & Hs & Ek & Et) Ht. rewrite Ek. eapply (sole_stop t k db); [done|done|done|done|congruence].
Qed.

Lemma record_dispatch_result_quiet c worker r b db' :
  handed_over db c → record_dispatch_result seen c worker r db = Ok (b, db') → left_alone db'.
Proof. unfold record_dispatch_result. intros Hc H2. pose proof (handed_not_stop c Hc) as Hne. rest_quiet H2 ltac:(fate_body Hne). Qed.

Lemma record_preflight_refusal_quiet vacuum_of c worker now_ms p b db' :
  handed_over db c →
  record_preflight_refusal seen vacuum_of c worker now_ms p db = Ok (b, db') → left_alone db'.
Proof.
  unfold record_preflight_refusal, supersede_for_vacuum.
  intros (r & Hr & Hs & _ & Et) (refusal & d & [H0 ->]%lift_Ok & H)%txn_bind_Ok.
  apply txn_bind_Ok in H as (o & d & [H1 ->]%query_Ok & H).
  apply txn_bind_Ok in H as (s & d & [Ha' ->]%lift_Ok & H2).
  destruct o as [c'|]; [|by run_txn H2]. destruct s as [s|]; [|by run_txn H2].
  assert (tid s = ti_ticket_id (ec_ticket_identity c)) as Es.
  { by destruct (faithful_read _ _ _ (proj1 Hseen) Ha') as (_ & _ & _ & ? & _). }
  assert (Hne : tid s = t → ec_kind c' ≠ INITIAL_STOP).
  { apply get_command_row in H1 as (r' & Hr' & Hl). assert (r' = r) as -> by congruence. intros Ht.
    apply load_command_Ok in Hl as (_ & _ & _ & -> & _). apply (sole_stop t k db _ r Hq Ha Hr Hs). congruence. }
  rest_quiet H2 ltac:(first [plain_body | fate_body Hne]).
Qed.
End fate.

(** Whatever transaction comes next, the Ticket is left alone. *)
Lemma perform_waits t k a seen db x c db' :
  status a = PROTECTION_PENDING → knows (db_events db) seen → faithful db → get_aggregate t db = Ok (Some a) →
  queue_ok (queue db) → awaits_stop t k db →
  match x with t_result c _ _ | t_refusal _ c _ _ _ => handed_over db c | _ => True end →
  perform seen x db = Ok (c, db') → get_aggregate t db' = Ok (Some a).
Proof.
  intros Hp Hs Hd Hg Hq Ha Hx H.
  assert (left_alone t a db db') as (_ & _ & ?); [|done].
  assert (∀ B (m : txn B) b d, quiet t a (db_events db) m → m db = Ok (b, d) → left_alone t a db d) as Hm.
  { intros B m b d Hm. by apply Hm. }
  unfold perform, silently in H. destruct x; apply txn_bind_Ok in H as (u & db1 & H & [_ <-]%txn_ret_Ok).
  all: first
    [ by eapply expire_one_claim_quiet | by eapply record_recovery_quiet | by eapply record_dispatch_result_quiet
    | by eapply record_preflight_refusal_quiet | idtac ].
  all: eapply Hm; [|exact H].
  all: try solve [apply quiet_keeps; keeps_core].
  all: first
    [ solve [eauto using claim_next_quiet, record_leverage_truth_quiet, request_exit_quiet, settle_ticket_quiet]
    | solve [eauto using record_trade_review_quiet, revise_trade_review_quiet, maintain_ticket_lifecycle_quiet]
    | solve [eauto using reconcile_ticket_quiet, reconcile_post_fill_stress_quiet, issue_ticket_txn_quiet]
    | solve [eauto using drain_ticket_quiet, record_late_fill_quiet]
    | solve [apply quiet_keeps; auto using record_post_fill_stress_retry_whole, record_lifecycle_facts_failure_whole,
        resolve_lifecycle_facts_failure_whole, runtime_writer_is_certified_whole, claim_next_routine_whole] ].
Qed.
