(* ===== verification/SystemSamples.v ===== *)
(** * Runs of the kernel on concrete inputs *)

From stdpp Require Import gmap.
From S2P Require Import Prelude PyString PyDecimal Identities Ticket PostFillRisk CrossMarginStress VenueTruth.
From S2P Require Import Signal Control ProduceSignal.
From S2P Require Import Capacity Admission Dispatch Events Aggregate Reducer Lifecycle Samples CapacityProperties.
From S2P Require Import Commands Database OwnerState UnitOfWork Dispatcher UnknownOutcomes Reconcile IssueTicket.
From S2P Require Import Drain Health System DatabaseFacts.
#[local] Open Scope Z_scope.

(** What a worker does next, knowing the commands handed to the venue so far. *)
Definition Step : Type := list ExchangeCommand → Transaction.

(** The tables after transactions that read what is current. *)
Definition allowed (sent : list ExchangeCommand) (t : Transaction) : bool :=
  match t with
  | t_result c _ _ | t_refusal _ c _ _ _ => bool_decide (c ∈ sent)
  | _ => true
  end.
Fixpoint play (steps : list Step) (dbs : list Database) (sent : list ExchangeCommand)
    : result (list Database * list ExchangeCommand) :=
  match steps, dbs with
  | [], _ => mret (dbs, sent)
  | _, [] => Raise (ValueError "no tables")
  | step :: steps, db :: past =>
      raise_if (negb (allowed sent (step sent))) (ValueError "no such command");;
      '(c, db') ← perform db (step sent) db;
      play steps (db' :: db :: past) (option_list c ++ sent)
  end.
Definition after (steps : list Step) : result (list Database * list ExchangeCommand) :=
  play steps [empty_database] [].

Lemma allowed_permitted sent t : negb (allowed sent t) = false → permitted sent t.
Proof. intros H%negb_false. destruct t; try done; by apply bool_decide_eq_true in H. Qed.

Lemma play_run steps dbs sent dbs' sent' :
  play steps dbs sent = Ok (dbs', sent') → run dbs sent → run dbs' sent'.
Proof.
  revert dbs sent. induction steps as [|step steps IH]; intros dbs sent H Hr; cbn in H.
  - by destruct dbs; injection H as <- <-.
  - destruct dbs as [|db past]; [done|]. apply bind_Ok in H as (u & Ha%raise_if_Ok & H).
    apply bind_Ok in H as ([c db'] & Hp & H). eapply IH; [exact H|].
    eapply run_transaction; [exact Hr|by left|by apply allowed_permitted|exact Hp].
Qed.

Lemma after_run steps dbs sent : after steps = Ok (dbs, sent) → run dbs sent.
Proof. intros H. eapply play_run; [exact H|constructor]. Qed.

(** The tables, the past and the commands of a run that was played. *)
Definition reached (steps : list Step) : Database :=
  match after steps with Ok (db :: _, _) => db | _ => empty_database end.
Definition past_of (steps : list Step) : list Database :=
  match after steps with Ok (_ :: past, _) => past | _ => [] end.
Definition sent_of (steps : list Step) : list ExchangeCommand :=
  match after steps with Ok (_ :: _, sent) => sent | _ => [] end.

Lemma reached_run steps :
  match after steps with Ok (_ :: _, _) => true | _ => false end = true →
  run (reached steps :: past_of steps) (sent_of steps).
Proof.
  unfold reached, past_of, sent_of. destruct (after steps) as [[[|db past] sent]|] eqn:E; try done.
  intros _. exact (after_run steps _ _ E).
Qed.

Module SampleRun.
Definition claim : CapacityClaim := SampleClaim.claim.
Definition id : str := "ticket:1".

Definition policy : OwnerPolicySnapshot :=
  mkOwnerPolicy "policy" 1 true true 1 3 (Some 2) (mkFamilyLimits 1 1 1)
    (cc_max_ticket_stop_risk_fraction claim) (cc_max_gross_stop_risk_fraction claim)
    (cc_max_ticket_initial_margin_fraction claim) (cc_max_gross_initial_margin_utilization claim)
    (cc_directional_stop_risk_limit_fraction claim) (cc_min_materialization_ratio claim) 10 (of_int 2)
    (mkDecimal 1 (-1)) (Some [mkEventProfile "SOR-LONG:v3" "profile"]).

Definition facts : IssueFacts :=
  {| if_policy := Some policy; if_strategy_entry_enabled := true; if_selection_controlled := false;
     if_vacuum_blocks := false;
     if_universe := Some (mkActiveUniverse "SOR-LONG:v3" "universe" Sample.digest "BTCUSDT");
     if_scope := Some (mkRuntimeScope "scope" "SOR-001" "v3" "SOR-LONG:v3" "profile" "policy" "BTCUSDT" long
                         "universe" Sample.digest scope_active true true 1 0 None None None None);
     if_signal_authority := None; if_selection := SELECTION_VALID;
     if_strategy_group := Some (mkGroup "SOR-001" (Some "v3") "active");
     if_strategy_version := Some (mkVersion "v3" "SOR-001" "active");
     if_event_spec := Some (mkEventSpec "SOR-LONG:v3" "v3" long "market" "active");
     if_exit_binding := Some (mkExitBinding "binding" Sample.digest 1) |}.

Definition issue : Step := λ _, t_issue facts claim 20 "entry-worker".

(** Certified rules of the instrument, as the stress assessment wants them. *)
Definition rules : InstrumentRulesFacts :=
  mkRulesFacts "BTCUSDT" (mkDecimal 1 (-3)) (mkDecimal 1 (-1)) (mkDecimal 1 (-3)) (of_int 5) 20
    [Sample.bracket] Sample.digest d1 true 10 1000.
Definition certify : Step := λ _, t_certify_rules "binance-usdm" rules.

(** A worker claims the next command; the venue accepts it. *)
Definition request (now_ms : Z) : DispatchCommandRequest := mkDispatchRequest "worker" None [] now_ms (now_ms + 10).
Definition claim_command (now_ms : Z) : Step := λ _, t_claim [] (λ _, None) (request now_ms).
Definition accepted (order : str) (at_ms : Z) : Step := λ sent,
  match sent with
  | c :: _ => t_result c "worker" (order_result (mkCommandResult ACCEPTED at_ms (Some order) None))
  | [] => t_facts_recovered id at_ms
  end.
Definition dispatch (order : str) (now_ms : Z) : list Step := [claim_command now_ms; accepted order (now_ms + 1)].

Definition position (quantity : Decimal) (at_ms : Z) : PositionSnapshot :=
  mkPositionSnapshot Sample.domain quantity (if (quantity =? d0)%dec then None else Some (of_int 100)) None None []
    at_ms.
Definition observe (quantity : Decimal) (at_ms : Z) : Step := λ _, t_reconcile id (position quantity at_ms).
Definition assess (at_ms : Z) : Step := λ _, t_stress Sample.snapshot rules at_ms id.

(** Issued, entered, filled, protected, assessed, its take-profit resting. *)
Definition to_filled : list Step := [certify; issue] ++ dispatch "entry-1" 21 ++ [observe (of_int 2) 30].
Definition to_stopped : list Step := to_filled ++ dispatch "stop-1" 31.
Definition to_protected : list Step := to_stopped ++ [assess 45] ++ dispatch "tp-1" 46.
(** The exit is being dispatched when the position is found flat. *)
Definition to_raced : list Step :=
  to_protected ++ [λ _, t_request_exit id "owner" 50; claim_command 51; observe d0 52].

Lemma filled_run : run (reached to_filled :: past_of to_filled) (sent_of to_filled).
Proof. apply (reached_run to_filled). vm_compute. reflexivity. Qed.
Lemma stopped_run : run (reached to_stopped :: past_of to_stopped) (sent_of to_stopped).
Proof. apply (reached_run to_stopped). vm_compute. reflexivity. Qed.
Lemma protected_run : run (reached to_protected :: past_of to_protected) (sent_of to_protected).
Proof. apply (reached_run to_protected). vm_compute. reflexivity. Qed.
Lemma raced_run : run (reached to_raced :: past_of to_raced) (sent_of to_raced).
Proof. apply (reached_run to_raced). vm_compute. reflexivity. Qed.

Definition protected_events : list TradeEvent := Eval vm_compute in db_events (reached to_protected).
Lemma protected_log : db_events (reached to_protected) = protected_events.
Proof. vm_compute. reflexivity. Qed.
Lemma protected_constructed : Forall constructed (db_events (reached to_protected)).
Proof. rewrite protected_log. Sample.constructed_events. Qed.
End SampleRun.

