(* ===== verification/SystemProperties.v ===== *)
(** * The kernel as a whole

    What holds of the committed tables after any interleaving of transactions,
    whatever past tables their unlocked reads saw.

    Last, the schedule of the reconciliation process. *)

From Stdlib Require Import QArith Lqa.
From stdpp Require Import gmap.
From S2P Require Import Prelude PyString PyDecimal DecimalFacts Identities Ticket VenueTruth.
From S2P Require Import ExitPolicy Control.
From S2P Require Import Capacity Admission Dispatch Events Aggregate Reducer Lifecycle LifecycleInvariants.
From S2P Require Import LifecycleSpec.
From S2P Require Import Commands Database OwnerState UnitOfWork Dispatcher UnknownOutcomes Reconcile IssueTicket.
From S2P Require Import Drain Health System DatabaseFacts StoreFacts SystemFacts QueueFacts RunFacts SystemSamples.
From S2P Require Import TextFacts.
#[local] Open Scope Z_scope.

(** ** The event store *)



(** C17: No command is handed to the venue twice, in any interleaving of the
    workers: a claim takes a prepared command, and no transaction prepares it
    again, not even after its lease expired or its outcome was reconciled. *)
Theorem commands_are_sent_once dbs sent :
  run dbs sent → NoDup (ec_command_id <$> sent).
Proof. intros H. by destruct (run_invariant _ _ H) as (? & ? & _ & []). Qed.

Lemma commands_are_sent_once_witness :
  NoDup (ec_command_id <$> sent_of SampleRun.to_raced) ∧ length (sent_of SampleRun.to_raced) = 4%nat.
Proof.
  split; [exact (commands_are_sent_once _ _ SampleRun.raced_run)|]. vm_compute. reflexivity.
Defined.

Lemma NoDup_fmap_by {A B C} (f : A → B) (g : A → C) (l : list A) :
  (∀ x y, x ∈ l → y ∈ l → g x = g y → f x = f y) → NoDup (f <$> l) → NoDup (g <$> l).
Proof.
  induction l as [|x l IH]; intros Hf; cbn; [intros _; constructor|]. intros [Hx Hl]%NoDup_cons. constructor.
  - intros (y & E & Hy)%list_elem_of_fmap. apply Hx, list_elem_of_fmap. exists y. split; [|done].
    apply Hf; [by left|by right|done].
  - apply IH; [|done]. intros y z Hy Hz. apply Hf; by right.
Qed.

(** C18: A Ticket sends at most one ENTRY order, one leverage change, one
    initial stop and one controlled flatten to the venue, ever. *)
Theorem a_ticket_enters_at_most_once dbs sent :
  run dbs sent →
  NoDup ((λ c, (ec_kind c, ti_ticket_id (ec_ticket_identity c))) <$>
           filter (λ c, ordered_once (ec_kind c) = true) sent).
Proof.
  intros H. destruct (run_invariant _ _ H) as (db & past & _ & [_ _ _ Hq Hs Hn]).
  apply (NoDup_fmap_by ec_command_id).
  - intros x y [Hx Hx']%list_elem_of_filter [Hy Hy']%list_elem_of_filter [= E1 E2].
    rewrite Forall_forall in Hs. destruct (Hs x Hx') as (r & Hr & _ & K & T). destruct (Hs y Hy') as (r' & Hr' & _ & K' & T').
    apply (queue_unique _ Hq _ _ r r'); [done|done|congruence|congruence|].
    rewrite (row_single _ _ (queue_rows _ Hq _ _ Hr)) by congruence.
    rewrite (row_single _ _ (queue_rows _ Hq _ _ Hr')) by congruence. done.
  - eapply sublist_NoDup; [exact Hn|]. apply fmap_sublist, sublist_filter.
Qed.

Lemma a_ticket_enters_at_most_once_witness :
  NoDup ((λ c, (ec_kind c, ti_ticket_id (ec_ticket_identity c))) <$>
           filter (λ c, ordered_once (ec_kind c) = true) (sent_of SampleRun.to_raced)) ∧
  length (filter (λ c, ordered_once (ec_kind c) = true) (sent_of SampleRun.to_raced)) = 2%nat.
Proof.
  split; [exact (a_ticket_enters_at_most_once _ _ SampleRun.raced_run)|]. vm_compute. reflexivity.
Defined.

(** C19: The account's entry lane is held by a Ticket exactly when that Ticket's
    aggregate says it holds it: it is never leaked and never taken from its
    holder, so at most one stored Ticket is in its ENTRY phase, whatever the
    interleaving. *)
Theorem one_ticket_enters_at_a_time db past sent :
  run (db :: past) sent →
  (∀ t, lane_owner db = Some t ↔ ∃ a, get_aggregate t db = Ok (Some a) ∧ entry_lane_held a = true) ∧
  (∀ t t' a a', get_aggregate t db = Ok (Some a) → get_aggregate t' db = Ok (Some a') →
     lane_status (status a) = true → lane_status (status a') = true → t = t').
Proof.
  intros H. apply run_head in H as [I1 _ L _ _ _]. inversion_clear I1 as [|? ? Hd _]. split; [done|].
  intros t t' a a' Ha Ha' Hs Hs'. apply (read_lane_inv _ _ _ Hd) in Ha as Hl. apply (read_lane_inv _ _ _ Hd) in Ha' as Hl'.
  assert (lane_owner db = Some t) as E by (apply L; eauto). assert (lane_owner db = Some t') as E' by (apply L; eauto).
  congruence.
Qed.

Lemma one_ticket_enters_at_a_time_witness :
  lane_owner (reached SampleRun.to_filled) = Some "ticket:1"%string ∧
  ∃ a, get_aggregate "ticket:1" (reached SampleRun.to_filled) = Ok (Some a) ∧ entry_lane_held a = true.
Proof.
  assert (E : lane_owner (reached SampleRun.to_filled) = Some "ticket:1"%string) by (vm_compute; reflexivity).
  split; [exact E|]. apply (one_ticket_enters_at_a_time _ _ _ SampleRun.filled_run). exact E.
Defined.

(** ** Stored aggregates are reachable *)

Lemma replay_reachable es a : Forall constructed es → replay es = Ok (Some a) → reachable a.
Proof.
  revert a. induction es as [|e es IH] using rev_ind; intros a Hc H; [done|].
  apply Forall_app in Hc as [Hes He]. apply Forall_cons in He as [He _].
  apply replay_snoc in H as (o & r & H1 & H2 & [= ->]). destruct o as [b|].
  - destruct (IH b Hes H1) as (es' & effs & Hh). eexists _, _. by eapply history_step.
  - eexists _, _. by apply history_issue.
Qed.



(** ** What the reconciliation process does next

    The candidates are ordered by deadline, identity and kind; the first of the
    least that is due is taken. *)

Definition str_lt (a b : str) : Prop := String.ltb a b = true.

Lemma ltb_leb a b : String.ltb a b = negb (String.leb b a).
Proof.
  unfold String.ltb, String.leb. rewrite (String.compare_antisym b a). by destruct (String.compare a b).
Qed.
Lemma str_lt_irrefl a : ¬ str_lt a a.
Proof. unfold str_lt. rewrite ltb_leb, negb_true. destruct (String.leb_total a a) as [->| ->]; done. Qed.
Lemma str_lt_total a b : str_lt a b ∨ a = b ∨ str_lt b a.
Proof.
  unfold str_lt. rewrite !ltb_leb, !negb_true. destruct (String.leb b a) eqn:E; [|by left].
  destruct (String.leb a b) eqn:E'; [|by right; right]. right. left. by apply String.leb_antisym.
Qed.
Lemma str_lt_trans a b c : str_lt a b → str_lt b c → str_lt a c.
Proof.
  unfold str_lt. rewrite !ltb_leb, !negb_true. intros H1 H2. apply not_true_is_false. intros H3.
  destruct (String.leb_total a b) as [H|H]; [|congruence].
  assert (String.leb c b = true) as H4 by (by eapply string_leb_trans). congruence.
Qed.

(** The order of the candidates. *)
Definition before (a b : ReconciliationActionCandidate) : Prop := action_lt a b = true.
Lemma before_spec a b :
  before a b ↔
  ra_deadline_at_ms a < ra_deadline_at_ms b ∨
  (ra_deadline_at_ms a = ra_deadline_at_ms b ∧
   (str_lt (ra_stable_identity a) (ra_stable_identity b) ∨
    (ra_stable_identity a = ra_stable_identity b ∧
     str_lt (action_kind_value (ra_kind a)) (action_kind_value (ra_kind b))))).
Proof.
  unfold before, action_lt, str_lt. rewrite orb_true_iff, !andb_true_iff, orb_true_iff, andb_true_iff.
  rewrite Z.ltb_lt, Z.eqb_eq, bool_decide_eq_true. done.
Qed.

Lemma before_irrefl a : ¬ before a a.
Proof. rewrite before_spec. pose proof (str_lt_irrefl). intros [?|[_ [?|[_ ?]]]]; [lia|naive_solver..]. Qed.
Lemma before_trans a b c : before a b → before b c → before a c.
Proof.
  rewrite !before_spec. intros [H1|(H1 & H1')] [H2|(H2 & H2')]; [left; lia..|]. right. split; [lia|].
  destruct H1' as [H1'|[E1 H1']], H2' as [H2'|[E2 H2']]; rewrite ?E1, <- ?E2 in *; eauto using str_lt_trans.
Qed.
Lemma before_weak z y x : before z x → before z y ∨ before y x.
Proof.
  destruct (action_lt z y) eqn:E; [by left|]. assert (¬ before z y) as Hn by (unfold before; congruence).
  intros H. right. revert Hn H. rewrite !before_spec. intros Hn H.
  destruct (Z.lt_trichotomy (ra_deadline_at_ms z) (ra_deadline_at_ms y)) as [D|[D|D]];
    [tauto| |destruct H; [left; lia|left; lia]].
  destruct (str_lt_total (ra_stable_identity z) (ra_stable_identity y)) as [S|[S|S]]; [tauto| |].
  - destruct (str_lt_total (action_kind_value (ra_kind z)) (action_kind_value (ra_kind y))) as [K|[K|K]];
      [tauto|by rewrite <- D, <- S, <- K|]. rewrite <- D, <- S. naive_solver eauto using str_lt_trans.
  - rewrite <- D. destruct H as [H|[H [H'|[H' _]]]]; [by left|right..]; split; try done; left;
      [by eapply str_lt_trans|by rewrite <- H'].
Qed.

(** The candidate that is taken, and the others. *)
Definition taken (now_ms : Z) (l : list ReconciliationActionCandidate)
    (best : option ReconciliationActionCandidate) : Prop :=
  match best with
  | Some c => c ∈ l ∧ ra_due_at_ms c <= now_ms ∧ ∀ y, y ∈ l → ra_due_at_ms y <= now_ms → ¬ before y c
  | None => ∀ y, y ∈ l → now_ms < ra_due_at_ms y
  end.

Lemma take_first_least_taken now_ms l best rest :
  take_first_least l now_ms = (best, rest) → taken now_ms l best ∧ l ≡ₚ option_list best ++ rest.
Proof.
  revert best rest. induction l as [|x l IH]; intros best rest H; cbn in H.
  - injection H as <- <-. split; [|done]. by intros y ?%elem_of_nil.
  - destruct (take_first_least l now_ms) as [b r]. destruct (IH _ _ eq_refl) as [Hb Hp]. clear IH.
    destruct (ra_due_at_ms x <=? now_ms) eqn:D; cbn in H.
    + destruct b as [y|].
      * destruct Hb as (Hy & Dy & Hm). destruct (action_lt y x) eqn:L; injection H as <- <-.
        -- split; [|cbn in *; by rewrite Hp, Permutation_swap]. split; [by right|]. split; [done|].
           intros z [->|Hz]%elem_of_cons Dz; [|by apply Hm]. intros Hb. apply (before_irrefl x).
           by eapply before_trans.
        -- split; [|done]. split; [by left|]. split; [lia|]. intros z [->|Hz]%elem_of_cons Dz; [apply before_irrefl|].
           intros [B|B]%(before_weak z y x); [by eapply Hm|]. unfold before in B. congruence.
      * injection H as <- <-. split; [|done]. split; [by left|]. split; [lia|].
        intros z [->|Hz]%elem_of_cons Dz; [apply before_irrefl|]. specialize (Hb z Hz). lia.
    + injection H as <- <-. split.
      * destruct b as [y|]; cbn in *.
        -- destruct Hb as (Hy & Dy & Hm). split; [by right|]. split; [done|].
           intros z [->|Hz]%elem_of_cons Dz; [lia|by apply Hm].
        -- intros z [->|Hz]%elem_of_cons; [lia|by apply Hb].
      * destruct b as [y|]; cbn in *; [by rewrite Hp, Permutation_swap|by rewrite Hp].
Qed.

(** The least due time of the others. *)
Lemma least_due l d ds :
  ra_due_at_ms <$> l = d :: ds →
  (∃ y, y ∈ l ∧ ra_due_at_ms y = foldl Z.min d ds) ∧ ∀ y, y ∈ l → foldl Z.min d ds <= ra_due_at_ms y.
Proof.
  intros H. assert (∀ ds d, (foldl Z.min d ds ∈ d :: ds) ∧ ∀ x, x ∈ d :: ds → foldl Z.min d ds <= x) as Hf.
  { clear. induction ds as [|e ds IH]; intros d; cbn.
    - split; [left|]. intros x [->|[]%elem_of_nil]%elem_of_cons. done.
    - destruct (IH (Z.min d e)) as [Hi Hl]. split.
      + apply elem_of_cons in Hi as [->|Hi]; [|right; by right]. destruct (Z.min_spec d e) as [[_ ->]|[_ ->]];
          [left|right; left].
      + intros x [->|[->|Hx]%elem_of_cons]%elem_of_cons; [|..].
        * transitivity (Z.min d e); [apply Hl; left|lia].
        * transitivity (Z.min d e); [apply Hl; left|lia].
        * apply Hl. by right. }
  destruct (Hf ds d) as [Hi Hl]. rewrite <- H in Hi, Hl. split.
  - apply list_elem_of_fmap in Hi as (y & E & Hy). by exists y.
  - intros y Hy. apply Hl, list_elem_of_fmap. by exists y.
Qed.

(** C40: The reconciliation process serves the most urgent work: of the
    candidates that are due it takes one no other due one precedes (by deadline,
    identity and kind), none exactly when none is due, it reports the earliest due
    time among all the others, none when there are none, and a breach exactly when
    the deadline of what it takes is past. *)
Theorem schedule_serves_the_most_urgent now_ms safety l s :
  select_reconciliation_schedule now_ms safety l = s →
  taken now_ms l (sr_housekeeping_action s) ∧ sr_safety_action s = safety ∧
  ∃ rest, l ≡ₚ option_list (sr_housekeeping_action s) ++ rest ∧
    match sr_next_due_at_ms s with
    | Some d => (∃ y, y ∈ rest ∧ ra_due_at_ms y = d) ∧ ∀ y, y ∈ rest → d <= ra_due_at_ms y
    | None => rest = []
    end ∧
    (sr_deadline_breach s = true ↔ ∃ c, sr_housekeeping_action s = Some c ∧ ra_deadline_at_ms c < now_ms).
Proof.
  unfold select_reconciliation_schedule. destruct (take_first_least l now_ms) as [best rest] eqn:E.
  intros <-. cbn -[Z.ltb]. apply take_first_least_taken in E as [Ht Hp]. split; [done|]. split; [done|].
  exists rest. split; [done|]. split.
  - destruct (ra_due_at_ms <$> rest) as [|d ds] eqn:D; [by destruct rest|]. by apply least_due.
  - unfold Dispatch.opt_holds. destruct best as [c|]; cbn -[Z.ltb].
    + rewrite Z.ltb_lt. split; [by exists c|]. by intros (? & [= <-] & ?).
    + split; [done|]. by intros (? & ? & _).
Qed.

Lemma schedule_serves_the_most_urgent_witness :
  ∃ c, sr_housekeeping_action
         (select_reconciliation_schedule 100 None
            [mkAction act_review "ticket:2" 90 50; mkAction act_unknown_outcome "ticket:1" 80 5;
             mkAction act_settlement "ticket:3" 101 0]) = Some c ∧ ra_stable_identity c = "ticket:1"%string ∧
       ∀ y, y ∈ [mkAction act_review "ticket:2" 90 50; mkAction act_unknown_outcome "ticket:1" 80 5;
                 mkAction act_settlement "ticket:3" 101 0] → ra_due_at_ms y <= 100 → ¬ before y c.
Proof.
  pose proof (schedule_serves_the_most_urgent 100 None
    [mkAction act_review "ticket:2" 90 50; mkAction act_unknown_outcome "ticket:1" 80 5;
     mkAction act_settlement "ticket:3" 101 0] _ eq_refl) as [(_ & _ & H) _].
  eexists. split; [reflexivity|]. split; [reflexivity|exact H].
Defined.
