(* ===== verification/FailureProperties.v ===== *)
(** * What the composition gets wrong

    Four places where the services, each as its author meant it, leave the kernel
    stuck or unfenced.  Every statement is about the code as it is. *)

From Stdlib Require Import QArith.
From stdpp Require Import gmap.
From S2P Require Import Prelude PyString PyDecimal Identities Ticket PostFillRisk CrossMarginStress VenueTruth.
From S2P Require Import ExitPolicy Control.
From S2P Require Import Capacity Admission Dispatch Events Aggregate Reducer Lifecycle LifecycleInvariants.
From S2P Require Import Commands Database OwnerState UnitOfWork Dispatcher UnknownOutcomes Reconcile IssueTicket.
From S2P Require Import Drain Health System DatabaseFacts StoreFacts SystemFacts QueueFacts RunFacts SystemSamples.
#[local] Open Scope Z_scope.

(** ** A stale claim of a command the aggregate moved past *)

(** An unknown outcome is accepted only where the command was applicable. *)
Lemma unknown_outcome_applicable c a at_ms reason e r :
  command_result_event c a (order_result (mkCommandResult OUTCOME_UNKNOWN at_ms None (Some reason))) = Ok e →
  reduce_event (Some a) e = Ok r → command_is_applicable c (status a) = true.
Proof.
  unfold command_result_event, next_event. intros H Hr. apply bind_Ok in H as (b & Hb & H).
  apply validate_event_body in H. cbn [ev_body] in H. unfold command_is_applicable.
  apply reduce_event_Some in Hr as (_ & _ & _ & Hr). unfold reduce_body in Hr. rewrite H in Hr. clear H.
  case_bool_decide as Hk.
  - rewrite Hk. cbn in Hb. injection Hb as <-. cbn in Hr.
    unfold on_LeverageOutcomeUnknown in Hr. repeat guard_step Hr. by apply bool_decide_eq_true.
  - unfold order_result_body in Hb. cbn [cr_status cr_reason cr_exchange_order_id py_str] in Hb.
    destruct (ec_kind c) eqn:Ek; try done; destruct (ec_payload c) as [p|p|p]; try discriminate Hb;
    (* the kinds whose event depends on the payload *)
    try (apply bind_Ok in Hb as ([[[? ?] ?] ?] & _ & Hb));
    try (unfold cancel_result_body in Hb; apply bind_Ok in Hb as (? & Hs & Hb); destruct (cp_purpose p));
    cbn in Hb; injection Hb as <-; cbn [normalize_body] in Hr;
    autounfold with branches in Hr; repeat guard_step Hr; by apply bool_decide_eq_true.
Qed.

(** ** Commands past their deadline *)

Lemma overdue_row_stays from_ms db past sent dbs' sent' k r :
  run (db :: past) sent → db_commands db !! k = Some r → overdue from_ms r →
  run_from from_ms (db :: past) sent dbs' sent' →
  ∃ db' past', dbs' = db' :: past' ∧ db_commands db' !! k = Some r.
Proof.
  intros Hrun Hr Ho H. induction H as [|past1 db1 seen x sent1 c db2 H IH Hseen Hx Ht Hp]; [by exists db, past|].
  destruct IH as (? & ? & [= <- <-] & Hr1). exists db2, (db1 :: past1). split; [done|].
  apply run_from_run in H; [|done]. apply run_head in H as [_ _ _ Hq _ _].
  destruct (perform_queue from_ms _ _ Ht _ _ _ Hp Hq) as [_ A]. destruct (A _ _ Hr1) as (r2 & Hr2 & Ha).
  by rewrite Hr2, (stays_overdue _ _ _ Ha Ho).
Qed.

(** C37: A prepared command whose deadline is behind every later claim is dead:
    outside the ENTRY side it is never handed to the venue, never cancelled and
    never replaced, whatever else the kernel does. *)
Theorem overdue_commands_are_never_sent from_ms db past sent dbs' sent' k r :
  run (db :: past) sent → db_commands db !! k = Some r → overdue from_ms r →
  run_from from_ms (db :: past) sent dbs' sent' →
  (∃ db' past', dbs' = db' :: past' ∧ db_commands db' !! k = Some r) ∧ ∀ c, c ∈ sent' → ec_command_id c ≠ k.
Proof.
  intros Hrun Hr Ho H. destruct (overdue_row_stays _ _ _ _ _ _ _ _ Hrun Hr Ho H) as (db' & past' & -> & Hr').
  split; [by exists db', past'|]. intros c Hc <-. apply (run_from_run _ _ _ _ _ Hrun) in H.
  apply run_head in H as [_ _ _ _ Hs _]. rewrite Forall_forall in Hs. destruct (Hs c Hc) as (r' & E & Hn & _).
  destruct Ho as [Hst _]. congruence.
Qed.

(** C21: When the initial stop of a filled Ticket is not claimed by its deadline,
    the position stays unprotected for good: the aggregate accepts nothing but
    the outcome of the stop, so it stays in [PROTECTION_PENDING], with no stop on
    the venue and no exit ordered, in every continuation. *)
Theorem overdue_stop_leaves_the_ticket_unprotected from_ms db past sent dbs' sent' k r a :
  run (db :: past) sent → db_commands db !! k = Some r → overdue from_ms r → cw_command_kind r = INITIAL_STOP →
  get_aggregate (cw_ticket_id r) db = Ok (Some a) → status a = PROTECTION_PENDING →
  run_from from_ms (db :: past) sent dbs' sent' →
  ∃ db' past', dbs' = db' :: past' ∧ get_aggregate (cw_ticket_id r) db' = Ok (Some a).
Proof.
  intros Hrun Hr Ho Hk Hg Hp H. induction H as [|past1 db1 seen x sent1 c db2 H IH Hseen Hx Ht Hperf]; [by exists db, past|].
  destruct IH as (? & ? & [= <- <-] & Hg1). exists db2, (db1 :: past1). split; [done|].
  destruct (overdue_row_stays _ _ _ _ _ _ _ _ Hrun Hr Ho H) as (? & ? & [= <- <-] & Hr1).
  apply run_from_run in H; [|done]. apply run_head in H as [I1 I2 _ Hq Hs _].
  eapply (perform_waits _ k); [done| |by inversion I1|done|done| | |done].
  - rewrite Forall_forall in I1. rewrite Forall_forall in I2. split; [by apply I1|by apply I2].
  - exists r. split; [done|]. by destruct Ho.
  - rewrite Forall_forall in Hs. destruct x; try done; by apply Hs.
Qed.

(** A worker that comes back after the deadline of the initial stop. *)
Module SampleFailure.
Definition filled : Database := reached SampleRun.to_filled.
Definition stop_id : str := "command:cf426de10b5a5b28686380802ade9f0c".
Definition late_claim : Transaction := t_claim [] (λ _, None) (SampleRun.request 30030).

Lemma stop_is_overdue :
  ∃ r a, db_commands filled !! stop_id = Some r ∧ overdue 30030 r ∧ cw_command_kind r = INITIAL_STOP ∧
         get_aggregate (cw_ticket_id r) filled = Ok (Some a) ∧ status a = PROTECTION_PENDING.
Proof.
  assert (E : match db_commands filled !! stop_id with
              | Some r => bool_decide (cw_status r = PREPARED) && bool_decide (cw_command_kind r = INITIAL_STOP)
                          && (cw_deadline_at_ms r <=? 30030)
                          && match get_aggregate (cw_ticket_id r) filled with
                             | Ok (Some a) => bool_decide (status a = PROTECTION_PENDING)
                             | _ => false
                             end
              | None => false
              end = true) by (vm_compute; reflexivity).
  destruct (db_commands filled !! stop_id) as [r|]; [|discriminate E].
  destruct (get_aggregate (cw_ticket_id r) filled) as [[a|]|] eqn:Hg;
    [|rewrite andb_false_r in E; discriminate E|rewrite andb_false_r in E; discriminate E].
  apply andb_true in E as [E Ha]. apply andb_true in E as [E Hd]. apply andb_true in E as [Hs Hk].
  apply bool_decide_eq_true in Ha, Hs, Hk. exists r, a. split; [reflexivity|]. split; [|exact (conj Hk (conj Hg Ha))].
  split; [exact Hs|]. split; [unfold entry_side; rewrite Hk; reflexivity|lia].
Qed.

Lemma late_claim_runs :
  ∃ c db', run_from 30030 (filled :: past_of SampleRun.to_filled) (sent_of SampleRun.to_filled)
             (db' :: filled :: past_of SampleRun.to_filled) (option_list c ++ sent_of SampleRun.to_filled).
Proof.
  assert (E : is_ok (perform filled late_claim filled) = true) by (vm_compute; reflexivity).
  destruct (perform filled late_claim filled) as [[c db']|] eqn:H; [|discriminate E]. exists c, db'.
  refine (from_transaction 30030 _ _ _ _ filled late_claim _ c db' (from_here _ _ _) _ I _ H).
  - apply elem_of_cons. left. exact eq_refl.
  - unfold late_claim; cbn. lia.
Qed.
End SampleFailure.

Lemma overdue_commands_are_never_sent_witness :
  ∃ dbs' sent', run_from 30030 (SampleFailure.filled :: past_of SampleRun.to_filled) (sent_of SampleRun.to_filled) dbs' sent' ∧
    length dbs' = 7%nat ∧ ∀ c, c ∈ sent' → ec_command_id c ≠ SampleFailure.stop_id.
Proof.
  destruct SampleFailure.stop_is_overdue as (r & a & Hr & Ho & _).
  destruct SampleFailure.late_claim_runs as (c & db' & H).
  eexists _, _. split; [exact H|]. split; [vm_compute; reflexivity|].
  exact (proj2 (overdue_commands_are_never_sent 30030 _ _ _ _ _ _ r SampleRun.filled_run Hr Ho H)).
Defined.

Lemma overdue_stop_leaves_the_ticket_unprotected_witness :
  ∃ db' past' sent' a, run_from 30030 (SampleFailure.filled :: past_of SampleRun.to_filled) (sent_of SampleRun.to_filled)
                         (db' :: past') sent' ∧ length past' = 6%nat ∧
    ∃ t, get_aggregate t db' = Ok (Some a) ∧ status a = PROTECTION_PENDING.
Proof.
  destruct SampleFailure.stop_is_overdue as (r & a & Hr & Ho & Hk & Hg & Hp).
  destruct SampleFailure.late_claim_runs as (c & db' & H).
  destruct (overdue_stop_leaves_the_ticket_unprotected 30030 _ _ _ _ _ _ r a SampleRun.filled_run Hr Ho Hk Hg Hp H)
    as (db2 & past2 & [= <- <-] & Hg').
  eexists _, _, _, a. split; [exact H|]. split; [vm_compute; reflexivity|]. exists (cw_ticket_id r). exact (conj Hg' Hp).
Defined.

(** ** Claims the aggregate moved past *)

(** C22: A claim whose lease ran out while the aggregate moved past its command
    stops the dispatcher: the unknown outcome it records first is an event the
    reducer refuses, so the transaction raises, nothing is written, and no other
    command in the worker's scope is dispatched. *)
Theorem stale_claim_stops_the_dispatcher w request db c a :
  get_one_expired_claim (su_locked w) (dr_now_ms request) (dr_ticket_id request) (dr_command_kinds request) db
    = Ok (Some c) →
  get_aggregate (ti_ticket_id (ec_ticket_identity c)) db = Ok (Some a) →
  command_is_applicable c (status a) = false →
  ∃ e, dispatch_one_command w request db = (Raise e, db).
Proof.
  intros Hc Ha Happ. unfold dispatch_one_command, run_uow.
  destruct (expire_one_claim db (su_locked w) request db) as [[o db']|e] eqn:H; [exfalso|by exists e].
  unfold expire_one_claim in H. apply txn_bind_Ok in H as (x & d & [Hx ->]%query_Ok & H).
  rewrite Hc in Hx. injection Hx as <-. apply txn_bind_Ok in H as (res & d & [Hres ->]%lift_Ok & H).
  apply txn_bind_Ok in H as (b & d & Hb & H). unfold read_aggregate in Hb.
  apply txn_bind_Ok in Hb as (ob & d' & [Hob ->]%lift_Ok & Hb). rewrite Ha in Hob. injection Hob as <-.
  apply txn_ret_Ok in Hb as [-> ->]. apply txn_bind_Ok in H as (e & d & [He ->]%lift_Ok & H).
  apply txn_bind_Ok in H as (u & d & _ & H). apply txn_bind_Ok in H as (u' & d' & H & _).
  unfold commit_event in H. apply txn_bind_Ok in H as (r & d'' & [Hr _]%lift_Ok & _).
  rewrite (unknown_outcome_applicable c a (dr_now_ms request) "stale_claim_after_restart" e r) in Happ; [done| |done].
  rewrite <- He. f_equal. f_equal. unfold stale_claim_result in Hres. symmetry.
  apply bind_Ok in Hres as (? & _ & Hres). apply bind_Ok in Hres as (? & _ & Hres). by injection Hres.
Qed.

(** The exit of a Ticket that was found flat was claimed, and its lease is over. *)
Module SampleStale.
Definition raced : Database := reached SampleRun.to_raced.
Definition request : DispatchCommandRequest := SampleRun.request 70.
Definition surroundings : Surroundings :=
  mkSurroundings [] (λ _, None) (λ _, PREFLIGHT_ALLOWED) (λ _, venue_timeout) (λ db, db).
Definition waiting : list str :=
  cw_command_id <$> filter (λ r, cw_status r = PREPARED) (command_rows raced).
End SampleStale.

Lemma stale_claim_stops_the_dispatcher_witness :
  (∃ e, dispatch_one_command SampleStale.surroundings SampleStale.request SampleStale.raced
          = (Raise e, SampleStale.raced)) ∧
  length SampleStale.waiting = 1%nat.
Proof.
  split; [|vm_compute; reflexivity].
  assert (E : match get_one_expired_claim (su_locked SampleStale.surroundings) (dr_now_ms SampleStale.request)
                      (dr_ticket_id SampleStale.request) (dr_command_kinds SampleStale.request) SampleStale.raced with
              | Ok (Some c) =>
                  match get_aggregate (ti_ticket_id (ec_ticket_identity c)) SampleStale.raced with
                  | Ok (Some a) => negb (command_is_applicable c (status a))
                  | _ => false
                  end
              | _ => false
              end = true) by (vm_compute; reflexivity).
  destruct (get_one_expired_claim _ _ _ _ SampleStale.raced) as [[c|]|] eqn:Hc;
    [|discriminate E|discriminate E].
  destruct (get_aggregate (ti_ticket_id (ec_ticket_identity c)) SampleStale.raced) as [[a|]|] eqn:Ha;
    [|discriminate E|discriminate E].
  exact (stale_claim_stops_the_dispatcher SampleStale.surroundings _ _ c a Hc Ha (proj1 (negb_true _) E)).
Defined.

(** ** Findings the reducer refuses *)

(** C38: A position found flat before its post-fill stress is assessed cannot be
    recorded: [reconcile_ticket] reports the venue's doing in that phase too, the
    reducer accepts that event in none of its statuses, and the transaction raises
    with every write undone, the observation included. *)
Theorem flat_before_stress_is_refused t snapshot db a :
  get_aggregate t db = Ok (Some a) → status a = POST_FILL_RISK_PENDING →
  (ps_quantity snapshot =? d0)%dec = true →
  ∃ e, run_uow (reconcile_ticket t snapshot) db = (Raise e, db).
Proof.
  intros Ha Hs Hq. unfold run_uow. destruct (reconcile_ticket t snapshot db) as [[u db']|e] eqn:H; [exfalso|by exists e].
  unfold reconcile_ticket, get_for_update in H. apply txn_bind_Ok in H as (o & d & [Ho ->]%query_Ok & H).
  rewrite Ha in Ho. injection Ho as <-. apply txn_bind_Ok in H as (? & d & _ & H).
  rewrite bool_decide_eq_false_2 in H by (rewrite Hs; discriminate). cbn [andb] in H.
  apply txn_bind_Ok in H as (? & d1 & _ & H). apply txn_bind_Ok in H as (? & d2 & _ & H).
  apply txn_bind_Ok in H as (? & d3 & _ & H). apply txn_bind_Ok in H as (f & d4 & [Hf ->]%lift_Ok & H).
  unfold reconcile_finding in Hf. cbv zeta in Hf. rewrite Hs, Hq in Hf. cbn in Hf. injection Hf as <-.
  cbn beta iota in H. apply txn_bind_Ok in H as (e & d5 & [He _]%lift_Ok & H).
  apply txn_bind_Ok in H as (? & ? & H & _). unfold commit_event in H.
  apply txn_bind_Ok in H as (r & d6 & [Hr _]%lift_Ok & _). apply validate_event_body in He.
  apply reduce_event_Some in Hr as (_ & _ & _ & Hr). unfold reduce_body in Hr. rewrite He in Hr. cbn in Hr.
  unfold on_ExternalFlatDetected in Hr. repeat guard_step Hr. rewrite Hs in G.
  apply (bool_decide_eq_true_2 _) in G. discriminate G.
Qed.

Lemma flat_before_stress_is_refused_witness :
  ∃ e, run_uow (reconcile_ticket SampleRun.id (SampleRun.position d0 40)) (reached SampleRun.to_stopped)
         = (Raise e, reached SampleRun.to_stopped).
Proof.
  assert (E : match get_aggregate SampleRun.id (reached SampleRun.to_stopped) with
              | Ok (Some a) => bool_decide (status a = POST_FILL_RISK_PENDING)
              | _ => false
              end = true) by (vm_compute; reflexivity).
  destruct (get_aggregate SampleRun.id (reached SampleRun.to_stopped)) as [[a|]|] eqn:Ha;
    [|discriminate E|discriminate E].
  apply bool_decide_eq_true in E.
  refine (flat_before_stress_is_refused _ (SampleRun.position d0 40) _ a Ha E _). vm_compute. reflexivity.
Defined.

(** ** The fence of the runtime *)

Definition identity_matches (capability : option RuntimeCapabilitySnapshot) (commit schema : str) : bool :=
  opt_holds (λ c, bool_decide (ru_certified_commit c = commit) && bool_decide (ru_schema_revision c = schema))
    capability.

(** C39: A writer that is not the certified one raises the runtime fence the
    first time; once the fence was lifted no mismatch raises it again: the
    incident keeps one identity, and an identity already stored is left alone. *)
Theorem runtime_fence_is_raised_once capability commit schema at_ms db :
  identity_matches capability commit schema = false →
  match db_incidents db !! RUNTIME_FENCE_INCIDENT_ID with
  | Some _ => run_uow (runtime_writer_is_certified capability commit schema at_ms) db = (Ok false, db)
  | None =>
      ∃ i db', run_uow (runtime_writer_is_certified capability commit schema at_ms) db = (Ok false, db') ∧
        db_incidents db' !! RUNTIME_FENCE_INCIDENT_ID = Some i ∧ ic_open i = true ∧
        ic_entry_block_scope i = scope_runtime
  end.
Proof.
  unfold identity_matches, runtime_writer_is_certified. cbv zeta. intros ->. cbn [andb].
  destruct (db_incidents db !! RUNTIME_FENCE_INCIDENT_ID) as [i|] eqn:E;
    unfold run_uow, add_incident, mbind, txn_bind, lift, select; cbn -[RUNTIME_FENCE_INCIDENT_ID lookup insert];
    rewrite bool_decide_eq_true_2 by done; cbn -[RUNTIME_FENCE_INCIDENT_ID lookup insert]; rewrite E; [done|].
  eexists _, _. split; [done|]. cbn -[RUNTIME_FENCE_INCIDENT_ID lookup insert]. rewrite lookup_insert_eq.
  by split_and!.
Qed.

(** The fence raised by one release and lifted by the next. *)
Module SampleFence.
Definition writer (enabled : bool) (commit : str) (at_ms : Z) : txn bool :=
  runtime_writer_is_certified (Some (mkCapability enabled "commit-2" "0012")) commit "0012" at_ms.
Definition fenced : Database := (run_uow (writer true "commit-1" 10) empty_database).2.
Definition lifted : Database := (run_uow (writer false "commit-2" 20) fenced).2.
End SampleFence.

Lemma runtime_fence_is_raised_once_witness :
  (∃ i, db_incidents SampleFence.lifted !! RUNTIME_FENCE_INCIDENT_ID = Some i ∧ ic_open i = false) ∧
  run_uow (SampleFence.writer true "commit-1" 30) SampleFence.lifted = (Ok false, SampleFence.lifted).
Proof.
  split; [eexists; split; vm_compute; reflexivity|].
  assert (E : negb (is_none (db_incidents SampleFence.lifted !! RUNTIME_FENCE_INCIDENT_ID)) = true)
    by (vm_compute; reflexivity).
  pose proof (runtime_fence_is_raised_once (Some (mkCapability true "commit-2" "0012")) "commit-1" "0012" 30
                SampleFence.lifted eq_refl) as H.
  destruct (db_incidents SampleFence.lifted !! RUNTIME_FENCE_INCIDENT_ID) as [i|]; [exact H|discriminate E].
Defined.
